(* ===== verification/_CoqProject ===== *)
-Q . S2P
Prelude.v
NfeTypes.v
NfeJhash.v
NfeFlow.v
NfeList.v
NfePacket.v
NfeConntrack.v
NfeTcp.v
Nfe.v
CString.v
FsmTypes.v
FsmPolicy.v
FsmPolicyOvsdb.v
DsDlist.v
DsDlistMem.v
QmQueue.v
DsTree.v
DsTreeRep.v
DsTreeInv.v
DsTreeInsert.v
DsTreeRemove.v
DsTreeWalk.v
DsTreeApi.v
Synclist.v
Rq.v
RqInv.v
RqRun.v
OswThrottle.v
OswTimer.v
OswToken.v
OswTlv.v
OswTlvMerge.v
DnsName.v
DnsRtypes.v
DnsParse.v
DnsWire.v
DnsFrag.v
DnsNet.v
DnsSum.v
DnsReceive.v
Cm2State.v
Cm2Resolve.v
Cm2Link.v
Cm2Event.v
Cm2Inv.v
Cm2ResolveSpec.v
Cm2Term.v
Cm2Rest.v
Cm2Tidy.v
Cm2Targets.v
Cm2Run.v
