(* ===== verification/Prelude.v ===== *)
(** * OpenSync: a verification library

    OpenSync is the firmware layer that lets a cloud manage home gateways.  It is a set of
    managers (processes under [src/src/<manager>]) on top of libraries
    ([src/src/lib]).  This development models the libraries and the parts of managers
    that carry its data structures, protocols and decisions, as executable
    functions on explicit state, and proves what they promise.

    ** How code is modelled

    A C function is a function into [res]: a value, or the fault the C
    program commits ([FOob] a load outside a buffer, [FIndex] an array index out of range,
    [FDangling] an access through a NULL or stale pointer, [FAssert] a failing assertion, [FDiv] a division by zero).
    Memory that is allocated, linked and freed is a finite map from
    addresses; freeing removes the cell, so that a use after free is a fault.  Machine
    integers are [Z] with their wrap-around written out ([u8], [u16], [u32], [u64]) and
    buffers are lists of bytes.  Loops that are not structural take fuel; [FFuel] is then
    no behaviour of the program, and the theorems show that the fuel the definitions
    choose is enough (the number of nodes of a list or tree, the bytes of a frame or
    of a buffer), or say exactly when the C loop itself does not end
    ([nfe_packet_hash_terminates]).  Code outside the repository and
    callbacks are arguments, with their contract as a named hypothesis.

    This file holds the fault monad and its weakest preconditions, machine integers,
    bytes and their loads and stores, and the automation the other files share.

    ** The flow engine, [lib/nfe]

    The engine parses frames, hashes the tuple of addresses and ports, and
    tracks connections in a table with per-protocol LRU lists.
    - [NfeTypes], [NfeList]: data and the circular intrusive lists ([nfe_types.h],
      [nfe_list.h]), related to sequences.
    - [NfeJhash], [NfeFlow]: the Jenkins hash and tuples ([jhash.h], [nfe_flow.c]).  The
      word-wise hash equals the byte-wise one; the hash does not depend on direction.
    - [NfePacket]: the parser ([nfe_input.c] and the protocol handlers): its postcondition
      for any bytes, termination, and the round trip of UDP datagrams.
    - [NfeConntrack]: the table ([nfe_conntrack.c], [nfe_conn.c], [nfe_config.c]).  Lookup
      and expiry refine an abstract table of sequences; release is exact.
    - [NfeTcp]: the TCP tracker ([nfe_tcp.c]): its state machine, and the stream offsets
      that [nfe_tcpfsm_input] reports for an in-order stream, across wrap-around.
    - [Nfe]: the public lookups ([nfe.c], [nfe_udp.c], [nfe_icmp.c], [nfe_ether.c]) from raw
      frame to connection, with the faults that can stop them.

    ** The policy engine, [lib/fsm_policy]

    - [CString]: the C string functions it uses.  [FsmTypes]: its data ([fsm_policy.h]).
    - [FsmPolicy]: evaluation of a request ([fsm_policy.c]): what each check decides and
      which policy of a table wins, for requests by name and policies whose name rules
      match as documented.
    - [FsmPolicyOvsdb]: the store of policies and its clients ([fsm_policy_ovsdb.c],
      [fsm_policy_client.c], [ovsdb_utils.c]): sequences of database notifications refine
      an abstract store, for rows outside the two faults of the conversion of [next] shown there.

    ** Common data structures, [lib/ds], and their clients

    - [DsDlist]: doubly linked lists ([ds_dlist.c.h]) refine sequences; removal during
      iteration.  [DsDlistMem]: several lists in one memory, for clients that move
      elements between lists.
    - [DsTree], [DsTreeRep], [DsTreeInv], [DsTreeInsert], [DsTreeRemove], [DsTreeWalk]: the
      red-black tree ([ds_tree.c], [ds_tree.c.h]): pointers as trees seen from a node, order
      and balance, top-down insertion, bottom-up removal, walks, iterators and the
      health check.  Histories refine sorted lists; lookup is logarithmic.
    - [DsTreeApi]: the tree's promise as a class of operations and a class of laws, with
      the instance for the pointer tree.
    - [Synclist]: lists synchronised with an outside state ([lib/synclist]), verified
      against the laws: a cycle leaves exactly what was added in it.
    - [QmQueue]: the message queue of the queue manager ([qm/src/qm_queue.c] and its callers in
      [qm_event.c], [qm_osbus.c] and [qm_mqtt.c]) on [DsDlist]: a bounded queue that drops its oldest
      items, remote log lines, publishing and merging.
    - [Rq], [RqInv], [RqRun]: run queues of asynchronous tasks ([lib/rq]).  Callbacks may
      call any function of the library, so the code is a machine whose stack holds the
      rests of functions below callbacks; any armed timer may fire.  Its invariant holds
      in every reachable state; each task completes once; what a timer run, a kill and
      the timeouts do.  Tasks and queues stay allocated.

    ** The wireless library, [lib/osw]

    - [OswThrottle]: the rate limiter ([osw_throttle.c]): how many taps pass, and that the
      announced time is exact.
    - [OswTimer]: the timer core ([osw_timer.c]): a dispatch calls exactly the due timers,
      and histories refine a table of deadlines.  Callbacks do not dispatch.
    - [OswToken]: dialog tokens ([osw_token.c]) refine exclusive holders.
    - [OswTlv]: TLV buffers ([osw_tlv.c]): round trip and safety on any bytes.
    - [OswTlvMerge]: aggregation of TLV statistics ([osw_tlv_merge.c], and the bucket of
      [osw_stats.c]): a merge refines one operation per id, and a session of a
      counter whose first sample counts from zero adds its last value to the total.

    ** DNS snooping, [lib/dns_parse]

    - [DnsName]: names with compression pointers, escaped data, base 64 ([strutils.c]).  A
      name is a relation on the packet; [read_rr_name] decides it.
    - [DnsRtypes]: record data as text and the self-sorting table of parsers ([rtypes.c]).
    - [DnsParse]: questions, records and messages ([dns_parse.c], the parser functions).
      It is safe on any bytes when 128 KiB and 64 bytes behind the packet can be read,
      and examples show that reads behind the packet do happen.
    - [DnsFrag]: reassembly of IP fragments ([ip_frag_add] of [network.c]).
    - [DnsNet]: Ethernet, IPv4, IPv6 and UDP headers and the checksum ([network.c]), and
      the way of a frame through [dns_handler].  [DnsSum]: the checksum is right.
    - [DnsWire], [DnsReceive]: the encoding of messages and frames, and the round trip
      through all of the above.  The fuel of the IPv6 loop is a parameter, because
      the loop of the source need not end.

    ** The connection manager, [cm2]

    The manager that keeps the device connected to the cloud: it chooses an uplink, checks
    it, resolves the redirector's and then the controller's address, and tries the
    addresses in turn.  Every call that leaves the program is logged and answered by an
    environment that may answer differently each time.
    - [Cm2State]: the state ([cm2.h]) and the monad.  [Cm2Resolve]: addresses and the two
      resolvers ([cm2_resolve.c], [cm2_resolve_ares.c], [cm2_resolve_sync.c]) as instances of
      the class [Resolver].  [Cm2Link]: the uplinks ([cm2_ovsdb.c], [cm2_net.c]).
      [Cm2Event]: the state machine ([cm2_event.c]), the connectivity checks
      ([cm2_stability.c]) and the callbacks that drive it.
    - [Cm2Inv]: the invariant and the edges of the machine, against the promise of a resolver
      ([ResolverSpec]); [Cm2ResolveSpec] discharges it for both resolvers.
    - [Cm2Term], [Cm2Rest]: a measure of the machine, and that each round ends the call, keeps
      the state or lowers it; both resolvers are instances of what this takes of them.
      [Cm2Tidy]: an address is new only while it is valid.
    - [Cm2Targets]: each usable address is tried once, alternating between the families, until
      a write to the database fails.
      [Cm2Run]: whole runs are safe and follow the edges, and from every state they reach a
      call returns; examples of what goes wrong outside the hypotheses.  The fuel of
      [cm2_update_state] bounds its rounds and the calls it makes to itself; 513 rounds are
      enough when the clock stays within the shortest timeout.  [cm2_log_state] hands NULL to [%s]
      for some reasons; the model prints it as the GNU C library documents.

    ** Assumptions

    The host has 64-bit pointers and [long]s, little-endian words, and memory allocation
    does not fail unless a function handles it.  Mid-flow pickup of TCP
    connections is off where a theorem says so (its use after free is shown
    separately), [CONFIG_LOG_REMOTE] is set, the clock of the throttle does not run
    backwards, category numbers are small enough for [fsm_cat_cmp] not to overflow,
    [realloc] always moves its block, and NaNs have a single bit pattern.  Container
    offsets are left out: an element is identified with the node it embeds.  [OswToken]
    and the policy store use trees and lists through finite maps and sequences, which
    [DsTreeWalk] and [DsDlist] justify.

    ** Findings

    Theorems that show a fault or a departure from a comment are kept next to the
    definitions they are about, for instance [Synclist.replace_removes_freed],
    [OswTlv.find_reads_behind_full_block], [OswTlvMerge.nested_totals_lost],
    [QmQueue.reply_after_direct_send], [Nfe.midflow_rst_use_after_free],
    [NfeTcp.tcp_syn_rst_index_fault], [RqRun.kill_misses_task],
    [DnsNet.ipv6_mobility_hangs], [DnsFrag.incomplete_returned],
    [FsmPolicyOvsdb.refused_row_frees_int], [DnsName.name_escapes_in_hex] and
    [Cm2Run.bounded_overrun].

    ** Not modelled

    Kernel and driver glue, sockets, processes, OVSDB transport, TLS, protobuf and JSON
    (input and output, or code outside the repository), generated schema code, tests,
    and the managers other than [cm2] and the queue of [qm], which are event loops around
    those.  Of [cm2], the callbacks of the other tables enter the theorems as arbitrary
    changes of the fields they own; back-haul interfaces and outage reports are left out.  Of the core logic, later work: the wireless policy modules of [lib/osw] and
    [lib/ow], the filter of the flow collector ([fcm]), the DNS and gatekeeper caches, the sessions and replies
    of [dns_parse.c], and the address types of [lib/osn].  [rq_nested.c] is a client of
    [lib/rq] like others. *)
From stdpp Require Export base tactics numbers list list_numbers gmap.
From Stdlib Require Export ZArith Lia Bool.
#[export] Set Default Goal Selector "!".
Open Scope Z_scope.

(** ** Results of C code: a value, or the fault the C program commits *)

(** The faults a C function can commit.  [FOob]: a read outside the buffer;
    [FIndex]: a static table indexed out of range; [FDangling]: access through
    a pointer to memory that is not (or no longer) allocated; [FAssert]: a
    failing [assert]; [FDiv]: an integer division by zero.  Two are not faults of the
    program: [FFuel] is the model's recursion bound, [FModel] marks a case the model does
    not follow. *)
Inductive fault := FOob | FIndex | FDangling | FAssert | FDiv | FFuel | FModel.

#[export] Instance fault_eq_dec : EqDecision fault.
Proof. solve_decision. Defined.

Inductive res (A : Type) := Ok (a : A) | Err (f : fault).
Arguments Ok {A} a.
Arguments Err {A} f.

#[export] Instance res_ret : MRet res := fun A a => Ok a.
#[export] Instance res_bind : MBind res := fun A B k m =>
  match m with Ok a => k a | Err f => Err f end.

(** A failing [assert(b)]. *)
Definition c_assert (b : bool) : res () := if b then Ok () else Err FAssert.

(** A pointer dereference whose target is looked up in a store. *)
Definition deref {A} (o : option A) : res A :=
  match o with Some a => Ok a | None => Err FDangling end.

Definition no_fault {A} (m : res A) : Prop := exists a, m = Ok a.

Lemma bind_Ok {A B} (m : res A) (k : A -> res B) b :
  (m ≫= k) = Ok b <-> exists a, m = Ok a /\ k a = Ok b.
Proof. destruct m as [a|f]; cbn; split; naive_solver. Qed.

Lemma bind_Err {A B} (m : res A) (k : A -> res B) f :
  (m ≫= k) = Err f <-> m = Err f \/ exists a, m = Ok a /\ k a = Err f.
Proof. destruct m as [a|e]; cbn; split; naive_solver. Qed.

Lemma c_assert_Ok b : b = true -> c_assert b = Ok ().
Proof. by intros ->. Qed.

(** Weakest preconditions of computations that may commit the faults [E]. *)
Definition wp {A} (E : fault -> Prop) (m : res A) (Q : A -> Prop) : Prop :=
  match m with Ok a => Q a | Err f => E f end.

Lemma wp_bind {A B} E (m : res A) (k : A -> res B) Q :
  wp E m (fun a => wp E (k a) Q) -> wp E (m ≫= k) Q.
Proof. by destruct m. Qed.

Lemma wp_mono {A} E (m : res A) (P Q : A -> Prop) :
  wp E m P -> (forall a, P a -> Q a) -> wp E m Q.
Proof. destruct m; cbn; auto. Qed.

Lemma wp_weaken {A} (E E' : fault -> Prop) (m : res A) Q :
  (forall f, E f -> E' f) -> wp E m Q -> wp E' m Q.
Proof. intros HE. destruct m; cbn; auto. Qed.

Lemma wp_Ok_inv {A} E (m : res A) Q a : wp E m Q -> m = Ok a -> Q a.
Proof. by intros H ->. Qed.

(** Step over a bind whose first computation has a known result. *)
Lemma wp_step {A B} E (m : res A) (k : A -> res B) Q a :
  m = Ok a -> wp E (k a) Q -> wp E (m ≫= k) Q.
Proof. by intros ->. Qed.

(** ** Machine integers: values in [Z], wrap-around written out *)
Definition u8  (x : Z) : Z := x mod 2 ^ 8.
Definition u16 (x : Z) : Z := x mod 2 ^ 16.
Definition u32 (x : Z) : Z := x mod 2 ^ 32.
Definition u64 (x : Z) : Z := x mod 2 ^ 64.
Definition i32 (x : Z) : Z := (x + 2 ^ 31) mod 2 ^ 32 - 2 ^ 31.
(** [size_t] on an LP64 host *)
Definition size_t (x : Z) : Z := u64 x.

Definition is_u8  (x : Z) : Prop := 0 <= x < 2 ^ 8.
Definition is_u16 (x : Z) : Prop := 0 <= x < 2 ^ 16.
Definition is_u32 (x : Z) : Prop := 0 <= x < 2 ^ 32.
Definition is_u64 (x : Z) : Prop := 0 <= x < 2 ^ 64.

Lemma u8_range x : is_u8 (u8 x).
Proof. apply Z.mod_pos_bound; lia. Qed.
Lemma u16_range x : is_u16 (u16 x).
Proof. apply Z.mod_pos_bound; lia. Qed.
Lemma u32_range x : is_u32 (u32 x).
Proof. apply Z.mod_pos_bound; lia. Qed.
Lemma u64_range x : is_u64 (u64 x).
Proof. apply Z.mod_pos_bound; lia. Qed.
Lemma u8_id x : is_u8 x -> u8 x = x.
Proof. apply Z.mod_small. Qed.
Lemma u16_id x : is_u16 x -> u16 x = x.
Proof. apply Z.mod_small. Qed.
Lemma u32_id x : is_u32 x -> u32 x = x.
Proof. apply Z.mod_small. Qed.
Lemma u64_id x : is_u64 x -> u64 x = x.
Proof. apply Z.mod_small. Qed.
Lemma u32_add_l x y : u32 (u32 x + y) = u32 (x + y).
Proof. apply Zplus_mod_idemp_l. Qed.
Lemma u32_add_ll x y z : u32 (u32 x + y + z) = u32 (x + y + z).
Proof. rewrite <- !Z.add_assoc. apply u32_add_l. Qed.
Lemma u32_add_r x y : u32 (x + u32 y) = u32 (x + y).
Proof. apply Zplus_mod_idemp_r. Qed.
Lemma u32_sub_l x y : u32 (u32 x - y) = u32 (x - y).
Proof. apply Zminus_mod_idemp_l. Qed.
Lemma u32_sub_r x y : u32 (x - u32 y) = u32 (x - y).
Proof. apply Zminus_mod_idemp_r. Qed.

Lemma u32_mod_le x : 0 <= x -> u32 x <= x.
Proof. intros Hx. apply Z.mod_le; lia. Qed.

Lemma u32_testbit x n : is_u32 x -> 32 <= n -> Z.testbit x n = false.
Proof.
  unfold is_u32. intros H Hn. rewrite <- (Z.mod_small x (2 ^ 32)) by lia.
  by apply Z.mod_pow2_bits_high; lia.
Qed.

Lemma u32_of_testbit x :
  0 <= x -> (forall n, 32 <= n -> Z.testbit x n = false) -> is_u32 x.
Proof.
  intros H0 H. assert (x = x mod 2 ^ 32) as ->; [|apply u32_range].
  apply Z.bits_inj'. intros n Hn. destruct (Z.lt_ge_cases n 32).
  - by rewrite Z.mod_pow2_bits_low by lia.
  - by rewrite Z.mod_pow2_bits_high, H by lia.
Qed.

Lemma lxor_u32 x y : is_u32 x -> is_u32 y -> is_u32 (Z.lxor x y).
Proof.
  intros Hx Hy. apply u32_of_testbit.
  - apply Z.lxor_nonneg. unfold is_u32 in *. lia.
  - intros n Hn. by rewrite Z.lxor_spec, !u32_testbit.
Qed.

Lemma shiftr_u32 x n : is_u32 x -> 0 <= n -> is_u32 (Z.shiftr x n).
Proof.
  intros Hx Hn. apply u32_of_testbit.
  - apply Z.shiftr_nonneg. unfold is_u32 in *. lia.
  - intros k Hk. rewrite Z.shiftr_spec by lia. apply u32_testbit; [done|lia].
Qed.

(** Negative differences cast to [size_t] become huge: the guard
    [(size_t)(tail - data) < n] lets them through. *)
Lemma size_t_lt_nonneg x n :
  0 <= x < 2 ^ 64 -> (size_t x <? n) = (x <? n).
Proof. intros H. unfold size_t. by rewrite u64_id. Qed.

Lemma size_t_lt_neg x n :
  - 2 ^ 32 <= x < 0 -> n <= 2 ^ 32 -> (size_t x <? n) = false.
Proof.
  intros H Hn. unfold size_t, u64. apply Z.ltb_ge.
  replace (x mod 2 ^ 64) with (x + 2 ^ 64); [lia|].
  symmetry. rewrite <- (Z_mod_plus_full x 1). apply Z.mod_small. lia.
Qed.

Create HintDb machine.
#[export] Hint Resolve u8_range u16_range u32_range u64_range : machine.
Create Rewrite HintDb machine_rw.
#[export] Hint Rewrite u32_add_l u32_add_ll u32_add_r u32_sub_l u32_sub_r : machine_rw.

(** ** Bytes in memory *)
Definition bytes_ok (bs : list Z) : Prop := Forall is_u8 bs.

#[export] Instance is_u8_dec x : Decision (is_u8 x).
Proof. unfold is_u8. apply _. Defined.
#[export] Instance bytes_ok_dec bs : Decision (bytes_ok bs).
Proof. unfold bytes_ok. apply _. Defined.

(** Reading one byte of a buffer; a read outside it is a fault. *)
Definition rd8 (buf : list Z) (off : Z) : res Z :=
  if (0 <=? off) && (off <? Z.of_nat (length buf))
  then match buf !! Z.to_nat off with Some b => Ok b | None => Err FOob end
  else Err FOob.

Fixpoint rd_bytes (buf : list Z) (off : Z) (n : nat) : res (list Z) :=
  match n with
  | O => Ok []
  | S n' => b ← rd8 buf off; bs ← rd_bytes buf (off + 1) n'; Ok (b :: bs)
  end.

Lemma rd8_Ok buf off :
  0 <= off < Z.of_nat (length buf) ->
  exists b, rd8 buf off = Ok b /\ buf !! Z.to_nat off = Some b.
Proof.
  intros H. unfold rd8.
  destruct (lookup_lt_is_Some_2 buf (Z.to_nat off)) as [b Hb]; [lia|].
  exists b. rewrite Hb.
  by rewrite (proj2 (Z.leb_le 0 off)), (proj2 (Z.ltb_lt off _)) by lia.
Qed.

Lemma rd8_Ok_inv buf off b :
  rd8 buf off = Ok b ->
  0 <= off < Z.of_nat (length buf) /\ buf !! Z.to_nat off = Some b.
Proof.
  unfold rd8. destruct ((0 <=? off) && _) eqn:E; [|done].
  destruct (buf !! Z.to_nat off) eqn:Hb; [|done]. intros [= ->].
  split; [|done]. lia.
Qed.

Lemma rd8_oob buf off :
  off < 0 \/ Z.of_nat (length buf) <= off -> rd8 buf off = Err FOob.
Proof.
  intros H. unfold rd8. destruct ((0 <=? off) && _) eqn:E; [|done]. lia.
Qed.

Lemma rd8_u8 buf off b : bytes_ok buf -> rd8 buf off = Ok b -> is_u8 b.
Proof.
  intros Hb [_ H]%rd8_Ok_inv. eapply Forall_lookup_1; eauto.
Qed.

Lemma rd_bytes_Ok buf off n :
  0 <= off -> off + Z.of_nat n <= Z.of_nat (length buf) ->
  exists bs, rd_bytes buf off n = Ok bs.
Proof.
  revert off. induction n as [|n IH]; intros off H0 H1; [by eexists|].
  destruct (rd8_Ok buf off) as (b & Hb & _); [lia|].
  destruct (IH (off + 1)) as (bs & Hbs); [lia|lia|].
  exists (b :: bs). cbn. by rewrite Hb, Hbs.
Qed.

Lemma rd_bytes_spec buf off n bs :
  bytes_ok buf -> rd_bytes buf off n = Ok bs -> length bs = n /\ bytes_ok bs.
Proof.
  intros Hbuf. revert off bs. induction n as [|n IH]; intros off bs; cbn.
  - intros [= <-]. by split; [|constructor].
  - intros (b & Hb & (bs' & Hbs & [= <-])%bind_Ok)%bind_Ok.
    destruct (IH _ _ Hbs) as [Hl Hok]. split; [by cbn; rewrite Hl|].
    constructor; eauto using rd8_u8.
Qed.

(** Reading bytes inside a buffer gives a slice of it. *)
Lemma rd_bytes_slice buf off n :
  0 <= off -> off + Z.of_nat n <= Z.of_nat (length buf) ->
  rd_bytes buf off n = Ok (take n (drop (Z.to_nat off) buf)).
Proof.
  revert off. induction n as [|n IH]; intros off H0 H1; [done|]. cbn [rd_bytes].
  destruct (rd8_Ok buf off) as (b & -> & Hb); [lia|]. cbn [mbind res_bind].
  rewrite IH by lia. cbn [mbind res_bind]. apply drop_S in Hb. rewrite Hb. cbn [take].
  by replace (Z.to_nat (off + 1)) with (S (Z.to_nat off)) by lia.
Qed.

Lemma wp_rd8 (E : fault -> Prop) buf off : E FOob -> wp E (rd8 buf off) (fun _ => True).
Proof. intros HE. unfold rd8. by repeat case_match. Qed.

Lemma wp_rd_bytes (E : fault -> Prop) buf off n :
  E FOob -> wp E (rd_bytes buf off n) (fun _ => True).
Proof.
  intros HE. revert off. induction n as [|n IH]; intros off; [done|]. cbn [rd_bytes].
  apply wp_bind. eapply wp_mono; [by apply wp_rd8|]. intros b _.
  apply wp_bind. eapply wp_mono; [apply IH|]. done.
Qed.

(** Writing bytes to a buffer; a write outside it is a fault. *)
Definition wr_bytes (buf : list Z) (off : Z) (bs : list Z) : res (list Z) :=
  if (0 <=? off) && (off + Z.of_nat (length bs) <=? Z.of_nat (length buf))
  then Ok (take (Z.to_nat off) buf ++ bs ++ drop (Z.to_nat off + length bs) buf)
  else Err FOob.

(** What a store leaves unchanged, and what it changes. *)
Lemma wr_bytes_ok buf off bs :
  0 <= off -> off + Z.of_nat (length bs) <= Z.of_nat (length buf) -> bytes_ok buf -> bytes_ok bs ->
  exists buf', wr_bytes buf off bs = Ok buf' /\ length buf' = length buf /\ bytes_ok buf' /\
    take (Z.to_nat off) buf' = take (Z.to_nat off) buf /\ take (length bs) (drop (Z.to_nat off) buf') = bs /\
    drop (Z.to_nat off + length bs) buf' = drop (Z.to_nat off + length bs) buf.
Proof.
  intros H0 H1 Hb Hbs. unfold wr_bytes. rewrite (proj2 (Z.leb_le _ _)), (proj2 (Z.leb_le _ _)) by lia. cbn [andb].
  eexists. split; [done|]. assert (Ht : length (take (Z.to_nat off) buf) = Z.to_nat off) by (rewrite length_take; lia).
  split_and!.
  - rewrite !length_app, length_drop, Ht. lia.
  - apply Forall_app. split; [by apply Forall_take|]. apply Forall_app. split; [done|by apply Forall_drop].
  - by rewrite take_app_length'.
  - by rewrite drop_app_length', take_app_length by done.
  - rewrite app_assoc, drop_app_length'; [done|]. rewrite length_app. lia.
Qed.

(** A part of a known slice. *)
Lemma slice_mid n k (buf a b c : list Z) :
  take n (drop k buf) = a ++ b ++ c -> take (length b) (drop (k + length a) buf) = b.
Proof.
  intros E. assert (Hn : take (length b) (drop (length a) (take n (drop k buf))) = b) by (by rewrite E, drop_app_length, take_app_length).
  assert (Hl : (length a + length b <= n)%nat).
  { apply (f_equal length) in E. rewrite length_take, !length_app in E. lia. }
  rewrite skipn_firstn_comm, take_take, drop_drop in Hn. rewrite Nat.min_l in Hn by lia. exact Hn.
Qed.

Lemma slice_app (k a b : nat) (l x y : list Z) :
  take a (drop k l) = x -> length x = a -> take b (drop (k + a) l) = y -> take (a + b) (drop k l) = x ++ y.
Proof.
  intros Hx Ha Hy. rewrite <- (take_drop a (drop k l)), Hx, drop_drop. rewrite take_app_add' by done. by rewrite Hy.
Qed.

Lemma slice_take (k n m : nat) (l : list Z) : (k + n <= m)%nat -> take n (drop k l) = take n (drop k (take m l)).
Proof. intros H. rewrite skipn_firstn_comm, take_take. by rewrite Nat.min_l by lia. Qed.

(** A store changes no slice that does not overlap it. *)
Lemma slice_apart (buf buf' : list Z) (off a n m : nat) :
  take off buf' = take off buf -> drop (off + m) buf' = drop (off + m) buf -> (a + n <= off \/ off + m <= a)%nat ->
  take n (drop a buf') = take n (drop a buf).
Proof.
  intros Ht Hd [H|H].
  - rewrite (slice_take _ _ off), Ht by lia. symmetry. by apply slice_take.
  - replace a with (off + m + (a - (off + m)))%nat by lia. by rewrite <- !(drop_drop _ (a - (off + m)) (off + m)), Hd.
Qed.

(** Big- and little-endian values of a byte string. *)
Definition be_combine (bs : list Z) : Z := foldl (fun acc b => acc * 256 + b) 0 bs.
Definition le_combine (bs : list Z) : Z := foldr (fun b acc => b + 256 * acc) 0 bs.

(** The host's byte order: loads of a C integer from its bytes depend on it. *)
Class HostEndian := host_big : bool.
Definition ld_ne `{HostEndian} (bs : list Z) : Z :=
  if host_big then be_combine bs else le_combine bs.

Lemma le_combine_range bs :
  bytes_ok bs -> 0 <= le_combine bs < 256 ^ Z.of_nat (length bs).
Proof.
  induction 1 as [|b bs Hb _ IH]; [cbn; lia|].
  unfold is_u8 in Hb. cbn [le_combine foldr length] in *.
  rewrite Nat2Z.inj_succ, Z.pow_succ_r by lia. fold (le_combine bs). lia.
Qed.

Lemma le_combine_inj b1 b2 :
  bytes_ok b1 -> bytes_ok b2 -> length b1 = length b2 ->
  le_combine b1 = le_combine b2 -> b1 = b2.
Proof.
  intros H1. revert b2. induction H1 as [|x b1 Hx _ IH]; intros [|y b2] H2 Hl E;
    try done.
  apply Forall_cons_1 in H2 as [Hy H2].
  cbn [le_combine foldr] in E. fold (le_combine b1) (le_combine b2) in E.
  unfold is_u8 in *.
  assert (x = y) as -> by lia. f_equal. apply IH; [done| |lia].
  by injection Hl.
Qed.

Lemma be_combine_snoc bs b : be_combine (bs ++ [b]) = be_combine bs * 256 + b.
Proof. unfold be_combine. by rewrite foldl_app. Qed.

Lemma be_combine_rev bs : be_combine (rev bs) = le_combine bs.
Proof.
  induction bs as [|b bs IH]; [done|].
  cbn [rev]. rewrite be_combine_snoc, IH. cbn. fold (le_combine bs). lia.
Qed.

Lemma ld_ne_inj `{HostEndian} b1 b2 :
  bytes_ok b1 -> bytes_ok b2 -> length b1 = length b2 ->
  ld_ne b1 = ld_ne b2 -> b1 = b2.
Proof.
  intros H1 H2 Hl. unfold ld_ne. destruct host_big; [|by apply le_combine_inj].
  rewrite <- (rev_involutive b1), <- (rev_involutive b2), !be_combine_rev.
  intros E. f_equal. apply le_combine_inj; [..|done].
  - by apply Forall_rev.
  - by apply Forall_rev.
  - by rewrite !length_rev.
Qed.

Lemma ld_ne_range `{HostEndian} bs :
  bytes_ok bs -> 0 <= ld_ne bs < 256 ^ Z.of_nat (length bs).
Proof.
  intros H1. unfold ld_ne. destruct host_big; [|by apply le_combine_range].
  rewrite <- (rev_involutive bs), be_combine_rev.
  rewrite length_rev. apply le_combine_range. by apply Forall_rev.
Qed.

(** [memcmp(a, b, n)]: the sign of the first difference of the first [n] bytes. *)
Fixpoint memcmp (a b : list Z) (n : nat) : Z :=
  match n, a, b with
  | S n', x :: a', y :: b' =>
      if x <? y then -1 else if y <? x then 1 else memcmp a' b' n'
  | _, _, _ => 0
  end.

Lemma memcmp_antisym a b n : memcmp b a n = - memcmp a b n.
Proof.
  revert a b. induction n as [|n IH]; intros [|x a] [|y b]; try done. cbn.
  destruct (Z.ltb_spec x y), (Z.ltb_spec y x); try lia. apply IH.
Qed.

Lemma memcmp_0_take a b n :
  length a = length b -> memcmp a b n = 0 <-> take n a = take n b.
Proof.
  revert a b. induction n as [|n IH]; intros [|x a] [|y b] Hl; try done. cbn.
  injection Hl as Hl. specialize (IH a b Hl).
  destruct (Z.ltb_spec x y), (Z.ltb_spec y x).
  - lia.
  - split; [done|]. intros [= -> _]. lia.
  - split; [done|]. intros [= -> _]. lia.
  - assert (x = y) as -> by lia. rewrite IH. split; [by intros ->|by intros [= ->]].
Qed.

(** ** Automation *)

(** Turn boolean comparisons in the context and the goal into propositions. *)
Ltac zbool :=
  repeat match goal with
  | H : (_ && _)%bool = true |- _ => apply andb_true_iff in H as [? ?]
  | H : (_ || _)%bool = false |- _ => apply orb_false_iff in H as [? ?]
  | H : bool_decide _ = true |- _ => apply bool_decide_eq_true in H
  | H : bool_decide _ = false |- _ => apply bool_decide_eq_false in H
  | H : (_ =? _) = true |- _ => apply Z.eqb_eq in H
  | H : (_ =? _) = false |- _ => apply Z.eqb_neq in H
  | H : (_ <? _) = true |- _ => apply Z.ltb_lt in H
  | H : (_ <? _) = false |- _ => apply Z.ltb_ge in H
  | H : (_ <=? _) = true |- _ => apply Z.leb_le in H
  | H : (_ <=? _) = false |- _ => apply Z.leb_gt in H
  end.

(** Reduce the binds whose first computation is known. *)
Ltac cbind := cbn [mbind res_bind].

(** Invert a chain of successful binds in a hypothesis. *)
Ltac inv_ok H :=
  repeat match type of H with
  | mbind _ _ = Ok _ =>
      let a := fresh "v" in let E := fresh "E" in
      apply bind_Ok in H as (a & E & H)
  end.
