(* ===== verification/NfeTypes.v ===== *)
(** * NfeTypes: data of the network flow engine

    Models [lib/nfe/inc/nfe_types.h], [nfe_priv.h] and [nfe_ipaddr.h]: the
    16-byte addresses, the connection tuple, the packet descriptor whose
    pointers are offsets into the captured buffer, and the inline helpers. *)
From S2P Require Import Prelude.

(** [struct nfe_ipaddr]: the 16 bytes of the union. *)
Definition nfe_ipaddr := list Z.
Definition ipaddr_zero : nfe_ipaddr := replicate 16 0.

(** The [addr64] and [addr32] views of the union: native-endian loads. *)
Definition addr64 `{HostEndian} (a : nfe_ipaddr) (i : nat) : Z :=
  ld_ne (take 8 (drop (8 * i) a)).
Definition addr32 `{HostEndian} (a : nfe_ipaddr) (i : nat) : Z :=
  ld_ne (take 4 (drop (4 * i) a)).
Definition addr8 (a : nfe_ipaddr) (i : nat) : Z := nth i a 0.

Definition NFE_AF_NONE := 0.
Definition NFE_AF_INET := 1.
Definition NFE_AF_INET6 := 2.

(** [struct nfe_tuple]; [addr[2]] and [port[2]] as two fields each. *)
Record nfe_tuple := mk_tuple {
  t_addr0 : nfe_ipaddr; t_addr1 : nfe_ipaddr;
  t_port0 : Z; t_port1 : Z;
  t_proto : Z; t_domain : Z; t_vlan : Z
}.

#[export] Instance nfe_tuple_eq_dec : EqDecision nfe_tuple.
Proof. solve_decision. Defined.

Definition tuple_zero : nfe_tuple :=
  mk_tuple ipaddr_zero ipaddr_zero 0 0 0 0 0.

Definition NFE_PACKET_TYPE_UNKNOWN := 0.
Definition NFE_PACKET_TYPE_HOST := 1.
Definition NFE_PACKET_TYPE_BROADCAST := 2.
Definition NFE_PACKET_TYPE_MULTICAST := 3.

(** [struct nfe_packet]; [head], [tail], [data] are offsets into the packet
    buffer and [prot] an offset or NULL.  The opaque [user] pointer, which the
    library only clears, is left out. *)
Record nfe_packet := mk_packet {
  p_tuple : nfe_tuple; p_timestamp : Z; p_direction : Z; p_type : Z;
  p_next : Z; p_hash : Z; p_head : Z; p_tail : Z; p_data : Z; p_prot : option Z
}.

Definition set_tuple t p := mk_packet t (p_timestamp p) (p_direction p) (p_type p)
  (p_next p) (p_hash p) (p_head p) (p_tail p) (p_data p) (p_prot p).
Definition set_direction d p := mk_packet (p_tuple p) (p_timestamp p) d (p_type p)
  (p_next p) (p_hash p) (p_head p) (p_tail p) (p_data p) (p_prot p).
Definition set_type t p := mk_packet (p_tuple p) (p_timestamp p) (p_direction p) t
  (p_next p) (p_hash p) (p_head p) (p_tail p) (p_data p) (p_prot p).
Definition set_next n p := mk_packet (p_tuple p) (p_timestamp p) (p_direction p) (p_type p)
  n (p_hash p) (p_head p) (p_tail p) (p_data p) (p_prot p).
Definition set_hash h p := mk_packet (p_tuple p) (p_timestamp p) (p_direction p) (p_type p)
  (p_next p) h (p_head p) (p_tail p) (p_data p) (p_prot p).
Definition set_tail t p := mk_packet (p_tuple p) (p_timestamp p) (p_direction p) (p_type p)
  (p_next p) (p_hash p) (p_head p) t (p_data p) (p_prot p).
Definition set_data d p := mk_packet (p_tuple p) (p_timestamp p) (p_direction p) (p_type p)
  (p_next p) (p_hash p) (p_head p) (p_tail p) d (p_prot p).
Definition set_prot d p := mk_packet (p_tuple p) (p_timestamp p) (p_direction p) (p_type p)
  (p_next p) (p_hash p) (p_head p) (p_tail p) (p_data p) d.

Definition set_addrs a0 a1 t :=
  mk_tuple a0 a1 (t_port0 t) (t_port1 t) (t_proto t) (t_domain t) (t_vlan t).
Definition set_ports q0 q1 t :=
  mk_tuple (t_addr0 t) (t_addr1 t) q0 q1 (t_proto t) (t_domain t) (t_vlan t).
Definition set_proto v t :=
  mk_tuple (t_addr0 t) (t_addr1 t) (t_port0 t) (t_port1 t) v (t_domain t) (t_vlan t).
Definition set_domain v t :=
  mk_tuple (t_addr0 t) (t_addr1 t) (t_port0 t) (t_port1 t) (t_proto t) v (t_vlan t).
Definition set_vlan v t :=
  mk_tuple (t_addr0 t) (t_addr1 t) (t_port0 t) (t_port1 t) (t_proto t) (t_domain t) v.

(** ** [nfe_priv.h] *)
Definition read16 (buf : list Z) (src : Z) : res Z :=
  b0 ← rd8 buf src; b1 ← rd8 buf (src + 1);
  Ok (u16 (Z.lor (Z.shiftl b0 8) b1)).

Definition read32 (buf : list Z) (src : Z) : res Z :=
  b0 ← rd8 buf src; b1 ← rd8 buf (src + 1);
  b2 ← rd8 buf (src + 2); b3 ← rd8 buf (src + 3);
  Ok (i32 (Z.lor (Z.lor (Z.shiftl b0 24) (Z.shiftl b1 16))
                 (Z.lor (Z.shiftl b2 8) b3))).

(** [be32toh] of a [uint32_t] field in the buffer. *)
Definition be32_at (buf : list Z) (off : Z) : res Z :=
  bs ← rd_bytes buf off 4; Ok (be_combine bs).

(** A two-byte [memcpy] into a [uint16_t]: a native-endian load. *)
Definition ld16_at `{HostEndian} (buf : list Z) (off : Z) : res Z :=
  bs ← rd_bytes buf off 2; Ok (ld_ne bs).

Lemma wp_read16 (E : fault -> Prop) buf off :
  E FOob -> wp E (read16 buf off) (fun _ => True).
Proof.
  intros HE. unfold read16. apply wp_bind. eapply wp_mono; [by apply wp_rd8|]. intros b _.
  apply wp_bind. eapply wp_mono; [by apply wp_rd8|]. done.
Qed.

Lemma wp_be32_at (E : fault -> Prop) buf off :
  E FOob -> wp E (be32_at buf off) (fun _ => True).
Proof.
  intros HE. unfold be32_at. apply wp_bind. eapply wp_mono; [by apply wp_rd_bytes|]. done.
Qed.

Definition domain_len (domain : Z) : nat :=
  if domain =? NFE_AF_INET then 4%nat
  else if domain =? NFE_AF_INET6 then 16%nat else 0%nat.

Definition nfe_min (x y : Z) : Z := if x <? y then x else y.

(** ** [nfe_ipaddr.h] *)
Definition ipaddr_unspec `{HostEndian} (a : nfe_ipaddr) : bool :=
  (addr64 a 0 =? 0) && (addr64 a 1 =? 0).
Definition ipaddr_v4_multicast (a : nfe_ipaddr) : bool :=
  Z.land (addr8 a 0) 0xf0 =? 0xe0.
Definition ipaddr_v6_multicast (a : nfe_ipaddr) : bool := addr8 a 0 =? 0xff.
Definition ipaddr_v4_unicast `{HostEndian} (a : nfe_ipaddr) : bool :=
  negb (ipaddr_v4_multicast a || ipaddr_unspec a).
Definition ipaddr_v6_unicast `{HostEndian} (a : nfe_ipaddr) : bool :=
  negb (ipaddr_v6_multicast a || ipaddr_unspec a).
(** The four (sixteen) bytes the pointer argument designates. *)
Definition ipaddr_copy_in4 (in4 : list Z) : nfe_ipaddr := in4 ++ replicate 12 0.
Definition ipaddr_copy_in6 (in6 : list Z) : nfe_ipaddr := in6.
Definition ipaddr_equal `{HostEndian} (lhs rhs : nfe_ipaddr) : bool :=
  (addr64 lhs 0 =? addr64 rhs 0) && (addr64 lhs 1 =? addr64 rhs 1).

(** ** Well-formed data *)
Definition ipaddr_ok (a : nfe_ipaddr) : Prop := length a = 16%nat /\ bytes_ok a.

(** The addresses of a tuple use only the first [domain_len] bytes; the rest,
    which the comparison by [memcmp] ignores, are zero. *)
Definition addr_canonical (domain : Z) (a : nfe_ipaddr) : Prop :=
  ipaddr_ok a /\ drop (domain_len domain) a = replicate (16 - domain_len domain) 0.

Definition tuple_ok (t : nfe_tuple) : Prop :=
  addr_canonical (t_domain t) (t_addr0 t) /\ addr_canonical (t_domain t) (t_addr1 t) /\
  is_u16 (t_port0 t) /\ is_u16 (t_port1 t) /\
  is_u8 (t_proto t) /\ is_u8 (t_domain t) /\ is_u16 (t_vlan t).

#[export] Instance tuple_ok_dec t : Decision (tuple_ok t).
Proof. unfold tuple_ok, addr_canonical, ipaddr_ok, is_u8, is_u16. apply _. Defined.

Lemma ipaddr_equal_spec `{HostEndian} a b :
  ipaddr_ok a -> ipaddr_ok b -> ipaddr_equal a b = bool_decide (a = b).
Proof.
  intros [La Ba] [Lb Bb]. unfold ipaddr_equal, addr64.
  apply eq_true_iff_eq. rewrite bool_decide_eq_true, andb_true_iff, !Z.eqb_eq.
  split; [|by intros ->]. intros [E0 E1].
  assert (forall i, bytes_ok (take 8 (drop i a))) as Ta
    by (intros; by apply Forall_take, Forall_drop).
  assert (forall i, bytes_ok (take 8 (drop i b))) as Tb
    by (intros; by apply Forall_take, Forall_drop).
  apply ld_ne_inj in E0; [|done|done|by rewrite !length_take, !length_drop, La, Lb].
  apply ld_ne_inj in E1; [|done|done|by rewrite !length_take, !length_drop, La, Lb].
  rewrite !(take_ge (drop (8 * 1) _)) in E1 by (rewrite length_drop; lia).
  rewrite !drop_0 in E0.
  by rewrite <- (take_drop 8 a), <- (take_drop 8 b), E0; f_equal.
Qed.

Lemma addr_canonical_memcmp dom a b :
  addr_canonical dom a -> addr_canonical dom b ->
  memcmp a b (domain_len dom) = 0 <-> a = b.
Proof.
  intros [[La _] Za] [[Lb _] Zb]. rewrite memcmp_0_take by congruence.
  split; [|by intros ->]. intros E.
  rewrite <- (take_drop (domain_len dom) a), <- (take_drop (domain_len dom) b).
  by rewrite E, Za, Zb.
Qed.

Lemma read16_Ok buf src :
  0 <= src -> src + 2 <= Z.of_nat (length buf) -> exists v, read16 buf src = Ok v.
Proof.
  intros H1 H2. unfold read16.
  destruct (rd8_Ok buf src) as (b0 & -> & _); [lia|].
  destruct (rd8_Ok buf (src + 1)) as (b1 & -> & _); [lia|]. by eexists.
Qed.

Lemma read16_range buf src v : read16 buf src = Ok v -> is_u16 v.
Proof.
  unfold read16. intros H. inv_ok H. injection H as <-. apply u16_range.
Qed.
