(* ===== verification/NfeJhash.v ===== *)
(** * NfeJhash: the Jenkins hash of the flow engine

    Models [lib/nfe/inc/jhash.h]: the mixing step, the byte-wise [jhash], the
    word-wise [jhash2] that [nfe_tuple_hash] calls, and the fixed-size
    variants.  The theorem of the file is that [jhash2] is an optimisation of
    [jhash] on little-endian hosts. *)
From S2P Require Import Prelude.

Definition JHASH_GOLDEN_RATIO := 0x9e3779b9.

(** [__jhash_mix]: nine lines of three assignments on [uint32_t]s each. *)
Definition jhash_mix (abc : Z * Z * Z) : Z * Z * Z :=
  let '(a, b, c) := abc in
  let a := Z.lxor (u32 (u32 (a - b) - c)) (Z.shiftr c 13) in
  let b := Z.lxor (u32 (u32 (b - c) - a)) (u32 (Z.shiftl a 8)) in
  let c := Z.lxor (u32 (u32 (c - a) - b)) (Z.shiftr b 13) in
  let a := Z.lxor (u32 (u32 (a - b) - c)) (Z.shiftr c 12) in
  let b := Z.lxor (u32 (u32 (b - c) - a)) (u32 (Z.shiftl a 16)) in
  let c := Z.lxor (u32 (u32 (c - a) - b)) (Z.shiftr b 5) in
  let a := Z.lxor (u32 (u32 (a - b) - c)) (Z.shiftr c 3) in
  let b := Z.lxor (u32 (u32 (b - c) - a)) (u32 (Z.shiftl a 10)) in
  let c := Z.lxor (u32 (u32 (c - a) - b)) (Z.shiftr b 15) in
  (a, b, c).

(** [k[0] + (k[1] << 8) + (k[2] << 16) + (k[3] << 24)] *)
Definition jhash_word (k0 k1 k2 k3 : Z) : Z :=
  u32 (k0 + u32 (Z.shiftl k1 8) + u32 (Z.shiftl k2 16) + u32 (Z.shiftl k3 24)).

(** The [while (len >= 12)] loop of [jhash]; returns the leftover bytes. *)
Fixpoint jhash_loop (abc : Z * Z * Z) (k : list Z) : (Z * Z * Z) * list Z :=
  match k with
  | k0 :: k1 :: k2 :: k3 :: k4 :: k5 :: k6 :: k7 :: k8 :: k9 :: k10 :: k11 :: k' =>
      let '(a, b, c) := abc in
      jhash_loop (jhash_mix (u32 (a + jhash_word k0 k1 k2 k3),
                             u32 (b + jhash_word k4 k5 k6 k7),
                             u32 (c + jhash_word k8 k9 k10 k11))) k'
  | _ => (abc, k)
  end.

(** The [switch (len)] on the leftover bytes: every case falls through. *)
Definition jhash_tail (abc : Z * Z * Z) (k : list Z) : Z * Z * Z :=
  let '(a, b, c) := abc in
  let len := length k in
  let at_ i := nth i k 0 in
  let on n (x y : Z) := if (n <=? len)%nat then u32 (x + y) else x in
  let c := on 11%nat c (u32 (Z.shiftl (at_ 10%nat) 24)) in
  let c := on 10%nat c (u32 (Z.shiftl (at_ 9%nat) 16)) in
  let c := on 9%nat c (u32 (Z.shiftl (at_ 8%nat) 8)) in
  let b := on 8%nat b (u32 (Z.shiftl (at_ 7%nat) 24)) in
  let b := on 7%nat b (u32 (Z.shiftl (at_ 6%nat) 16)) in
  let b := on 6%nat b (u32 (Z.shiftl (at_ 5%nat) 8)) in
  let b := on 5%nat b (at_ 4%nat) in
  let a := on 4%nat a (u32 (Z.shiftl (at_ 3%nat) 24)) in
  let a := on 3%nat a (u32 (Z.shiftl (at_ 2%nat) 16)) in
  let a := on 2%nat a (u32 (Z.shiftl (at_ 1%nat) 8)) in
  let a := on 1%nat a (at_ 0%nat) in
  (a, b, c).

(** [jhash(key, length, initval)], the key given by its [length] bytes. *)
Definition jhash (key : list Z) (initval : Z) : Z :=
  let '((a, b, c), k) :=
    jhash_loop (JHASH_GOLDEN_RATIO, JHASH_GOLDEN_RATIO, initval) key in
  let c := u32 (c + u32 (Z.of_nat (length key))) in
  (jhash_mix (jhash_tail (a, b, c) k)).2.

(** The [while (len >= 3)] loop of [jhash2]. *)
Fixpoint jhash2_loop (abc : Z * Z * Z) (k : list Z) : (Z * Z * Z) * list Z :=
  match k with
  | k0 :: k1 :: k2 :: k' =>
      let '(a, b, c) := abc in
      jhash2_loop (jhash_mix (u32 (a + k0), u32 (b + k1), u32 (c + k2))) k'
  | _ => (abc, k)
  end.

(** [jhash2(k, length, initval)], the key given by its [length] words. *)
Definition jhash2 (k : list Z) (initval : Z) : Z :=
  let '((a, b, c), r) :=
    jhash2_loop (JHASH_GOLDEN_RATIO, JHASH_GOLDEN_RATIO, initval) k in
  let c := u32 (c + u32 (u32 (Z.of_nat (length k)) * 4)) in
  let '(a, b) :=
    match r with
    | [k0; k1] => (u32 (a + k0), u32 (b + k1))
    | [k0] => (u32 (a + k0), b)
    | _ => (a, b)
    end in
  (jhash_mix (a, b, c)).2.

Definition jhash_3words (a b c initval : Z) : Z :=
  (jhash_mix (u32 (a + JHASH_GOLDEN_RATIO), u32 (b + JHASH_GOLDEN_RATIO),
              u32 (c + initval))).2.
Definition jhash_2words (a b initval : Z) : Z := jhash_3words a b 0 initval.
Definition jhash_1word (a initval : Z) : Z := jhash_3words a 0 0 initval.

(** ** Ranges: every intermediate value is a [uint32_t] *)
Lemma jhash2_range k initval : is_u32 (jhash2 k initval).
Proof.
  unfold jhash2. destruct (jhash2_loop _ k) as [[[a b] c] r].
  destruct (match r with [k0; k1] => _ | _ => _ end) as [a' b'].
  unfold jhash_mix. cbn [snd]. apply lxor_u32; [apply u32_range|].
  apply shiftr_u32; [|lia]. apply lxor_u32; apply u32_range.
Qed.

(** ** [jhash2] against [jhash] *)

(** The bytes of a list of words on a little-endian host. *)
Definition le_bytes (w : Z) : list Z :=
  [w mod 256; (w / 256) mod 256; (w / 65536) mod 256; (w / 16777216) mod 256].

Lemma shiftl_u32 x n : is_u8 x -> 0 <= n <= 24 -> u32 (Z.shiftl x n) = x * 2 ^ n.
Proof.
  intros Hx Hn. rewrite Z.shiftl_mul_pow2 by lia. apply u32_id.
  unfold is_u8, is_u32 in *.
  assert (2 ^ n <= 2 ^ 24) by (apply Z.pow_le_mono_r; lia).
  assert (0 < 2 ^ n) by (apply Z.pow_pos_nonneg; lia). nia.
Qed.

Lemma byte_sum w : is_u32 w ->
  w mod 256 + (w / 256) mod 256 * 2 ^ 8 + (w / 65536) mod 256 * 2 ^ 16 +
  (w / 16777216) mod 256 * 2 ^ 24 = w.
Proof.
  unfold is_u32. intros Hw.
  change (2 ^ 8) with 256. change (2 ^ 16) with 65536. change (2 ^ 24) with 16777216.
  Z.to_euclidean_division_equations. lia.
Qed.

Lemma jhash_word_le w : is_u32 w ->
  match le_bytes w with
  | [k0; k1; k2; k3] => jhash_word k0 k1 k2 k3 = w
  | _ => False
  end.
Proof.
  intros Hw. unfold le_bytes, jhash_word.
  assert (forall x, is_u8 (x mod 256)) by (intros; apply (Z.mod_pos_bound _ 256); lia).
  rewrite !shiftl_u32 by (done || lia). rewrite byte_sum by done. by apply u32_id.
Qed.

Lemma jhash_loop_words ws abc :
  Forall is_u32 ws ->
  jhash_loop abc (ws ≫= le_bytes) =
  let '(abc', r) := jhash2_loop abc ws in (abc', r ≫= le_bytes).
Proof.
  remember (length ws) as n eqn:Hn.
  revert ws Hn abc. induction n as [n IH] using lt_wf_ind; intros ws Hn [[a b] c] Hw.
  destruct ws as [|w0 [|w1 [|w2 ws]]]; [done..|].
  apply Forall_cons_1 in Hw as [H0 [H1 [H2 Hw]%Forall_cons_1]%Forall_cons_1].
  apply jhash_word_le in H0, H1, H2. cbn in H0, H1, H2.
  cbn -[u32 jhash_mix jhash_word]. rewrite H0, H1, H2.
  apply (IH (length ws)); [cbn in Hn; lia|done|done].
Qed.

Lemma jhash2_loop_rest abc ws abc' r :
  jhash2_loop abc ws = (abc', r) -> Forall is_u32 ws ->
  Forall is_u32 r /\ (length r < 3)%nat.
Proof.
  remember (length ws) as n eqn:Hn.
  revert ws Hn abc. induction n as [n IH] using lt_wf_ind; intros ws Hn [[a b] c] E Hw.
  destruct ws as [|w0 [|w1 [|w2 ws]]]; cbn in E.
  1-3: simplify_eq; split; [done|cbn; lia].
  eapply (IH (length ws)); [cbn in Hn; lia|done|exact E|].
  by repeat apply Forall_cons_1 in Hw as [_ Hw].
Qed.

Lemma length_le_bytes ws : length (ws ≫= le_bytes) = (4 * length ws)%nat.
Proof. induction ws as [|w ws IH]; [done|]. cbn in *. lia. Qed.

(** Adding a word byte by byte from the top is adding the word. *)
Lemma jhash_tail_add a w : is_u32 w ->
  u32 (u32 (u32 (u32 (a + u32 (Z.shiftl ((w / 16777216) mod 256) 24))
    + u32 (Z.shiftl ((w / 65536) mod 256) 16))
    + u32 (Z.shiftl ((w / 256) mod 256) 8)) + w mod 256) = u32 (a + w).
Proof.
  intros Hw.
  assert (forall x, is_u8 (x mod 256)) by (intros; apply (Z.mod_pos_bound _ 256); lia).
  rewrite !shiftl_u32 by (done || lia). autorewrite with machine_rw. f_equal.
  pose proof (byte_sum w Hw). lia.
Qed.

(** C33: [jhash2] is [jhash] on the little-endian bytes of the words: the
    unrolled word-wise hash the flow table uses agrees, for every key of whole
    words and every seed, with the byte-wise reference in the same header. *)
Theorem jhash2_is_jhash ws initval :
  Forall is_u32 ws -> jhash2 ws initval = jhash (ws ≫= le_bytes) initval.
Proof.
  intros Hw. unfold jhash, jhash2. rewrite jhash_loop_words by done.
  destruct (jhash2_loop _ ws) as [[[a b] c] r] eqn:E.
  destruct (jhash2_loop_rest _ _ _ _ E Hw) as [Hr Hl].
  rewrite length_le_bytes.
  replace (u32 (Z.of_nat (4 * length ws)))
    with (u32 (u32 (Z.of_nat (length ws)) * 4)).
  2: { unfold u32. rewrite Zmult_mod_idemp_l. f_equal. lia. }
  destruct r as [|w0 [|w1 [|? ?]]]; [done| | |cbn in Hl; lia];
    cbn -[u32 jhash_mix Z.shiftl Z.div Z.modulo];
    rewrite ?jhash_tail_add by (by repeat apply Forall_cons_1 in Hr as [? Hr]); done.
Qed.

Lemma jhash2_is_jhash_witness :
  jhash2 [1; 2; 0xffffffff; 7; 9] 42 =
  jhash ([1; 2; 0xffffffff; 7; 9] ≫= le_bytes) 42.
Proof. apply jhash2_is_jhash. repeat constructor; unfold is_u32; lia. Defined.
