(* ===== verification/NfeFlow.v ===== *)
(** * NfeFlow: connection tuples

    Models [lib/nfe/src/nfe_flow.c] and [inc/nfe_flow.h]: equality of tuples
    up to direction, copying (with optional inversion) and the hash that must
    not depend on the direction of the packet. *)
From S2P Require Import Prelude NfeTypes NfeJhash.

Section Flow.
#[local] Opaque jhash2.
Context `{HostEndian}.

Definition nfe_tuple_equal (lhs rhs : nfe_tuple) : bool :=
  if (t_domain lhs =? t_domain rhs) && (t_proto lhs =? t_proto rhs) &&
     (t_vlan lhs =? t_vlan rhs) then
    if (ipaddr_equal (t_addr0 lhs) (t_addr0 rhs) &&
        ipaddr_equal (t_addr1 lhs) (t_addr1 rhs)) &&
       ((t_port0 lhs =? t_port0 rhs) && (t_port1 lhs =? t_port1 rhs)) then true
    else if (ipaddr_equal (t_addr0 lhs) (t_addr1 rhs) &&
             ipaddr_equal (t_addr1 lhs) (t_addr0 rhs)) &&
            ((t_port0 lhs =? t_port1 rhs) && (t_port1 lhs =? t_port0 rhs)) then true
    else false
  else false.

(** [nfe_tuple_copy(dst, src, invert)]: every field of [dst] is assigned. *)
Definition nfe_tuple_copy (src : nfe_tuple) (invert : bool) : nfe_tuple :=
  if invert then
    mk_tuple (t_addr1 src) (t_addr0 src) (t_port1 src) (t_port0 src)
             (t_proto src) (t_domain src) (t_vlan src)
  else
    mk_tuple (t_addr0 src) (t_addr1 src) (t_port0 src) (t_port1 src)
             (t_proto src) (t_domain src) (t_vlan src).

(** The nine words at the start of [struct nfe_tuple] as [jhash2] loads them:
    four per address, then the two ports in one word. *)
Definition tuple_words (t : nfe_tuple) : list Z :=
  map (addr32 (t_addr0 t)) [0; 1; 2; 3]%nat ++
  map (addr32 (t_addr1 t)) [0; 1; 2; 3]%nat ++
  [if host_big then t_port0 t * 65536 + t_port1 t
   else t_port0 t + 65536 * t_port1 t].

Definition tuple_swapped (t : nfe_tuple) : bool :=
  (t_port1 t <? t_port0 t) ||
  ((t_port0 t =? t_port1 t) &&
   (0 <? memcmp (t_addr0 t) (t_addr1 t) (domain_len (t_domain t)))).

Definition nfe_tuple_hash (tuple : nfe_tuple) : Z :=
  let tuple := if tuple_swapped tuple then nfe_tuple_copy tuple true else tuple in
  jhash2 (tuple_words tuple)
    (Z.lor (Z.lor (u32 (Z.shiftl (t_domain tuple) 24))
                  (u32 (Z.shiftl (t_proto tuple) 16))) (t_vlan tuple)).

(** ** Inversion *)
Lemma copy_false t : nfe_tuple_copy t false = t.
Proof. by destruct t. Qed.

Lemma copy_invol t : nfe_tuple_copy (nfe_tuple_copy t true) true = t.
Proof. by destruct t. Qed.

Lemma copy_ok t b : tuple_ok t -> tuple_ok (nfe_tuple_copy t b).
Proof. destruct b; unfold tuple_ok; cbn; tauto. Qed.

Lemma nfe_tuple_equal_spec l r :
  tuple_ok l -> tuple_ok r ->
  nfe_tuple_equal l r = true <-> r = l \/ r = nfe_tuple_copy l true.
Proof.
  destruct l as [la0 la1 lp0 lp1 lpr ldo lvl], r as [ra0 ra1 rp0 rp1 rpr rdo rvl].
  intros ((L0 & _) & (L1 & _) & _) ((R0 & _) & (R1 & _) & _).
  unfold nfe_tuple_equal; cbn in *.
  rewrite !ipaddr_equal_spec by done.
  destruct (Z.eqb_spec ldo rdo), (Z.eqb_spec lpr rpr), (Z.eqb_spec lvl rvl);
    cbn; try (split; [done|by intros [[=]|[=]]]).
  subst.
  case_match eqn:E1; [|case_match eqn:E2].
  - zbool. subst. by split; [left|].
  - zbool. subst. by split; [right|].
  - split; [done|]. intros [[= -> -> -> ->]|[= -> -> -> ->]].
    + by rewrite !bool_decide_eq_true_2, !Z.eqb_refl in E1 by done.
    + by rewrite !bool_decide_eq_true_2, !Z.eqb_refl in E2 by done.
Qed.

Lemma swapped_copy t :
  tuple_ok t -> tuple_swapped (nfe_tuple_copy t true) = tuple_swapped t ->
  nfe_tuple_copy t true = t.
Proof.
  intros (A0 & A1 & _). unfold tuple_swapped. cbn.
  rewrite memcmp_antisym.
  destruct (Z.lt_trichotomy (t_port0 t) (t_port1 t)) as [Hp|[Hp|Hp]].
  - rewrite (proj2 (Z.ltb_lt (t_port0 t) (t_port1 t))) by done.
    rewrite (proj2 (Z.ltb_ge (t_port1 t) (t_port0 t))) by lia. cbn.
    by rewrite (proj2 (Z.eqb_neq (t_port0 t) (t_port1 t))) by lia.
  - rewrite Hp, Z.ltb_irrefl, Z.eqb_refl. cbn.
    intros E.
    assert (memcmp (t_addr0 t) (t_addr1 t) (domain_len (t_domain t)) = 0) as E0.
    { destruct (Z.ltb_spec 0 (- memcmp (t_addr0 t) (t_addr1 t) (domain_len (t_domain t)))),
        (Z.ltb_spec 0 (memcmp (t_addr0 t) (t_addr1 t) (domain_len (t_domain t)))); lia || done. }
    rewrite addr_canonical_memcmp in E0 by done. destruct t; cbn in *. congruence.
  - rewrite (proj2 (Z.ltb_lt (t_port1 t) (t_port0 t))) by done.
    rewrite (proj2 (Z.ltb_ge (t_port0 t) (t_port1 t))) by lia. cbn.
    by rewrite (proj2 (Z.eqb_neq (t_port1 t) (t_port0 t))) by lia.
Qed.

Definition tuple_norm (t : nfe_tuple) : nfe_tuple :=
  if tuple_swapped t then nfe_tuple_copy t true else t.

Lemma tuple_norm_invert t :
  tuple_ok t -> tuple_norm (nfe_tuple_copy t true) = tuple_norm t.
Proof.
  intros Hok. unfold tuple_norm.
  destruct (tuple_swapped (nfe_tuple_copy t true)) eqn:E1, (tuple_swapped t) eqn:E2;
    rewrite ?copy_invol; try done.
  all: rewrite swapped_copy; congruence.
Qed.

Lemma hash_invert t :
  tuple_ok t -> nfe_tuple_hash (nfe_tuple_copy t true) = nfe_tuple_hash t.
Proof.
  intros Hok. unfold nfe_tuple_hash. fold (tuple_norm t).
  fold (tuple_norm (nfe_tuple_copy t true)).
  rewrite tuple_norm_invert by exact Hok. reflexivity.
Qed.

Lemma nfe_tuple_hash_range t : is_u32 (nfe_tuple_hash t).
Proof. apply jhash2_range. Qed.

(** Two well-formed tuples of the same flow, in either direction. *)
Definition same_flow (l r : nfe_tuple) : Prop :=
  tuple_ok l /\ tuple_ok r /\ nfe_tuple_equal l r = true.

Lemma same_flow_alt l r :
  same_flow l r <-> tuple_ok l /\ (r = l \/ r = nfe_tuple_copy l true).
Proof.
  unfold same_flow. split.
  - intros (Hl & Hr & E). split; [done|]. by apply nfe_tuple_equal_spec.
  - intros [Hl E]. assert (tuple_ok r) by (destruct E as [->| ->]; auto using copy_ok).
    split_and!; [done|done|]. by apply nfe_tuple_equal_spec.
Qed.

#[export] Instance same_flow_per : RelationClasses.PER same_flow.
Proof.
  split.
  - intros l r. rewrite !same_flow_alt. intros [Hl [->| ->]]; split;
      rewrite ?copy_invol; auto using copy_ok.
  - intros a b c. rewrite !same_flow_alt. intros [Ha [->| ->]] [_ [->| ->]];
      rewrite ?copy_invol; auto.
Qed.

Lemma same_flow_hash l r : same_flow l r -> nfe_tuple_hash l = nfe_tuple_hash r.
Proof.
  rewrite same_flow_alt. intros [Hl [->| ->]]; [reflexivity|].
  by rewrite hash_invert.
Qed.

#[export] Instance nfe_tuple_hash_proper : Proper (same_flow ==> eq) nfe_tuple_hash.
Proof. exact same_flow_hash. Qed.

#[export] Instance nfe_tuple_equal_proper :
  Proper (same_flow ==> same_flow ==> eq) nfe_tuple_equal.
Proof.
  intros l l' Hl r r' Hr.
  assert (forall a a' b b', same_flow a a' -> same_flow b b' ->
    nfe_tuple_equal a b = true -> nfe_tuple_equal a' b' = true) as Himp.
  { intros a a' b b' Ha Hb E.
    assert (same_flow a b) as Hab by (destruct Ha as (? & _), Hb as (? & _); done).
    assert (same_flow a' b') as (_ & _ & E'); [|done].
    etransitivity; [symmetry; exact Ha|]. by etransitivity. }
  apply eq_true_iff_eq. split; eapply Himp; done || by symmetry.
Qed.

(** What the connection table relies on: a 32-bit hash that does not depend on
    the direction of the flow.  The table is verified against this interface. *)
Class FlowHash (hash : nfe_tuple -> Z) : Prop := {
  flow_hash_range : forall t, is_u32 (hash t);
  flow_hash_same : forall l r, same_flow l r -> hash l = hash r
}.

#[export] Instance nfe_tuple_hash_flow : FlowHash nfe_tuple_hash.
Proof. split; [exact nfe_tuple_hash_range|exact same_flow_hash]. Qed.

End Flow.
