(* ===== verification/NfeList.v ===== *)
(** * NfeList: the intrusive doubly linked lists of the flow engine

    Models [lib/nfe/inc/nfe_list.h] on an explicit store of list nodes.  A
    node address names the structure the [struct nfe_list_head] is embedded
    in, so [container_of] is a pattern match.  The theorems relate the pointer
    updates to sequences: a ring of nodes starting at a list head. *)
From S2P Require Import Prelude.

(** Connections are known by their heap address. *)
Abbreviation conn_id := positive.

(** Address of a [struct nfe_list_head]: [&ct->lru[i].list],
    [&ct->bucket[i].list], [&conn->list] or [&conn->lru]. *)
Inductive lptr :=
  | LruHead (i : nat)
  | BucketHead (i : Z)
  | ConnList (c : conn_id)
  | ConnLru (c : conn_id).

#[export] Instance lptr_eq_dec : EqDecision lptr.
Proof. solve_decision. Defined.
#[export] Instance lptr_countable : Countable lptr.
Proof.
  refine (inj_countable'
    (fun p => match p with
       | LruHead i => inl (inl i) | BucketHead i => inl (inr i)
       | ConnList c => inr (inl c) | ConnLru c => inr (inr c) end)
    (fun s => match s with
       | inl (inl i) => LruHead i | inl (inr i) => BucketHead i
       | inr (inl c) => ConnList c | inr (inr c) => ConnLru c end) _).
  by intros [].
Defined.

(** [struct nfe_list_head { prev; next }] for every allocated node. *)
Abbreviation links := (gmap lptr (lptr * lptr)).

Definition ld_prev (L : links) (x : lptr) : res lptr := pn ← deref (L !! x); Ok pn.1.
Definition ld_next (L : links) (x : lptr) : res lptr := pn ← deref (L !! x); Ok pn.2.
Definition st_prev (L : links) (x v : lptr) : res links :=
  pn ← deref (L !! x); Ok (<[x := (v, pn.2)]> L).
Definition st_next (L : links) (x v : lptr) : res links :=
  pn ← deref (L !! x); Ok (<[x := (pn.1, v)]> L).

Definition nfe_list_init (L : links) (x : lptr) : links := <[x := (x, x)]> L.

Definition nfe_list_insert (L : links) (list item : lptr) : res links :=
  L ← st_next L item list;
  p ← ld_prev L list;
  L ← st_prev L item p;
  n ← ld_next L item;
  L ← st_prev L n item;
  p ← ld_prev L item;
  st_next L p item.

Definition nfe_list_remove (L : links) (item : lptr) : res links :=
  n ← ld_next L item; p ← ld_prev L item;
  L ← st_prev L n p;
  p ← ld_prev L item; n ← ld_next L item;
  L ← st_next L p n;
  L ← st_prev L item item;
  st_next L item item.

Definition nfe_list_empty (L : links) (list : lptr) : res bool :=
  n ← ld_next L list; Ok (bool_decide (n = list)).

Definition nfe_list_splice (L : links) (list head : lptr) : res links :=
  e ← nfe_list_empty L list;
  if e : bool then Ok L else
  next ← ld_next L head;
  ln ← ld_next L list;
  L ← st_prev L ln head;
  ln ← ld_next L list;
  L ← st_next L head ln;
  lp ← ld_prev L list;
  L ← st_next L lp next;
  lp ← ld_prev L list;
  st_prev L next lp.

(** ** Rings *)
Definition nxt (L : links) (a : lptr) : option lptr := snd <$> L !! a.
Definition prv (L : links) (a : lptr) : option lptr := fst <$> L !! a.
Definition edge (L : links) (a b : lptr) : Prop := nxt L a = Some b /\ prv L b = Some a.

Fixpoint seg (L : links) (a : lptr) (xs : list lptr) (b : lptr) : Prop :=
  match xs with
  | [] => edge L a b
  | x :: xs' => edge L a x /\ seg L x xs' b
  end.

(** The list with head [h] holds the nodes [xs], in order. *)
Definition ring (L : links) (h : lptr) (xs : list lptr) : Prop :=
  NoDup (h :: xs) /\ seg L h xs h.

Lemma seg_app L a xs y ys b :
  seg L a (xs ++ y :: ys) b <-> seg L a xs y /\ seg L y ys b.
Proof. revert a. induction xs as [|x xs IH]; intros a; cbn; [done|]. rewrite IH. tauto. Qed.

Lemma seg_frame L L' a xs b :
  (forall x, x ∈ a :: xs -> nxt L' x = nxt L x) ->
  (forall x, x ∈ xs ++ [b] -> prv L' x = prv L x) ->
  seg L a xs b -> seg L' a xs b.
Proof.
  revert a. induction xs as [|x xs IH]; intros a Hn Hp; cbn.
  - intros [H1 H2]. split; [rewrite Hn|rewrite Hp]; set_solver.
  - intros [[H1 H2] H3]. split; [split; [rewrite Hn|rewrite Hp]; set_solver|].
    apply IH; [..|done]; intros y Hy; [apply Hn|apply Hp]; set_solver.
Qed.

Lemma ring_frame L L' h xs :
  (forall x, x ∈ h :: xs -> L' !! x = L !! x) -> ring L h xs -> ring L' h xs.
Proof.
  intros Hf [Hnd Hs]. split; [done|].
  eapply seg_frame; [..|exact Hs]; intros x Hx; unfold nxt, prv; rewrite Hf; set_solver.
Qed.

Lemma ring_nil L x : ring L x [] <-> L !! x = Some (x, x).
Proof.
  unfold ring, seg, edge, nxt, prv. split.
  - intros [_ [H1 H2]]. destruct (L !! x) as [[p n]|]; naive_solver.
  - intros ->. split; [|done]. apply NoDup_singleton.
Qed.

Lemma seg_mem L a xs b x :
  seg L a xs b -> x ∈ a :: xs -> exists n, nxt L x = Some n /\ n ∈ xs ++ [b].
Proof.
  revert a. induction xs as [|y xs IH]; intros a; cbn.
  - intros [H _] ->%list_elem_of_singleton. exists b. set_solver.
  - intros [[H1 _] Hs] [->|Hx]%elem_of_cons; [exists y; set_solver|].
    destruct (IH y Hs Hx) as (n & ? & ?). exists n. set_solver.
Qed.

Lemma ring_mem L h xs x : ring L h xs -> x ∈ h :: xs -> is_Some (L !! x).
Proof.
  intros [_ Hs] Hx. destruct (seg_mem _ _ _ _ _ Hs Hx) as (n & Hn & _).
  unfold nxt in Hn. destruct (L !! x); naive_solver.
Qed.

(** ** Effect of the pointer updates on the [next] and [prev] maps *)
Lemma st_next_Ok L x v : is_Some (L !! x) -> exists L',
  st_next L x v = Ok L' /\ dom L' = dom L /\
  (forall y, nxt L' y = if decide (y = x) then Some v else nxt L y) /\
  (forall y, prv L' y = prv L y).
Proof.
  intros [[p n] Hx]. unfold st_next. rewrite Hx. cbn. eexists. split; [done|].
  split; [rewrite dom_insert_L; apply elem_of_dom_2 in Hx; set_solver|].
  unfold nxt, prv. split; intros y; rewrite lookup_insert; repeat case_decide; subst;
    rewrite ?Hx; done.
Qed.

Lemma st_prev_Ok L x v : is_Some (L !! x) -> exists L',
  st_prev L x v = Ok L' /\ dom L' = dom L /\
  (forall y, prv L' y = if decide (y = x) then Some v else prv L y) /\
  (forall y, nxt L' y = nxt L y).
Proof.
  intros [[p n] Hx]. unfold st_prev. rewrite Hx. cbn. eexists. split; [done|].
  split; [rewrite dom_insert_L; apply elem_of_dom_2 in Hx; set_solver|].
  unfold nxt, prv. split; intros y; rewrite lookup_insert; repeat case_decide; subst;
    rewrite ?Hx; done.
Qed.

Lemma ld_next_Ok L x n : nxt L x = Some n -> ld_next L x = Ok n.
Proof. unfold nxt, ld_next. destruct (L !! x); naive_solver. Qed.
Lemma ld_prev_Ok L x p : prv L x = Some p -> ld_prev L x = Ok p.
Proof. unfold prv, ld_prev. destruct (L !! x); naive_solver. Qed.

Lemma links_some_dom (L L' : links) x : dom L' = dom L -> is_Some (L !! x) -> is_Some (L' !! x).
Proof. intros Hd. by rewrite <- !elem_of_dom, Hd. Qed.

Lemma links_nxt_some L x n : nxt L x = Some n -> is_Some (L !! x).
Proof. unfold nxt. destruct (L !! x); [by eexists|done]. Qed.
Lemma links_prv_some L x n : prv L x = Some n -> is_Some (L !! x).
Proof. unfold prv. destruct (L !! x); [by eexists|done]. Qed.

Lemma links_ext (L L' : links) x :
  nxt L' x = nxt L x -> prv L' x = prv L x -> L' !! x = L !! x.
Proof.
  unfold nxt, prv. destruct (L !! x) as [[]|], (L' !! x) as [[]|]; cbn; congruence.
Qed.

Lemma insert_links L h z item :
  is_Some (L !! item) -> prv L h = Some z -> is_Some (L !! z) ->
  item <> h -> item <> z -> exists L',
  nfe_list_insert L h item = Ok L' /\ dom L' = dom L /\
  (forall x, nxt L' x = if decide (x = z) then Some item
                        else if decide (x = item) then Some h else nxt L x) /\
  (forall x, prv L' x = if decide (x = h) then Some item
                        else if decide (x = item) then Some z else prv L x).
Proof.
  intros Hi Hh Hz Nh Nz. unfold nfe_list_insert.
  destruct (st_next_Ok L item h) as (L1 & -> & D1 & N1 & P1); [done|]. cbn.
  rewrite (ld_prev_Ok L1 h z) by (by rewrite P1). cbn.
  destruct (st_prev_Ok L1 item z) as (L2 & -> & D2 & P2 & N2);
    [by apply (links_some_dom L)|]. cbn.
  rewrite (ld_next_Ok L2 item h) by (by rewrite N2, N1, decide_True). cbn.
  destruct (st_prev_Ok L2 h item) as (L3 & -> & D3 & P3 & N3);
    [apply (links_some_dom L); [congruence|by eapply links_prv_some]|]. cbn.
  rewrite (ld_prev_Ok L3 item z) by (by rewrite P3, P2, decide_False, decide_True). cbn.
  destruct (st_next_Ok L3 z item) as (L4 & -> & D4 & N4 & P4);
    [apply (links_some_dom L); [congruence|done]|].
  exists L4. split_and!; [done|congruence|..]; intros x.
  - by rewrite N4, N3, N2, N1.
  - by rewrite P4, P3, P2, P1.
Qed.

Lemma remove_links L item n p :
  nxt L item = Some n -> prv L item = Some p ->
  is_Some (L !! n) -> is_Some (L !! p) -> (n = item <-> p = item) -> exists L',
  nfe_list_remove L item = Ok L' /\ dom L' = dom L /\
  (forall x, nxt L' x = if decide (x = item) then Some item
                        else if decide (x = p) then Some n else nxt L x) /\
  (forall x, prv L' x = if decide (x = item) then Some item
                        else if decide (x = n) then Some p else prv L x).
Proof.
  intros Hn Hp Sn Sp Hself. unfold nfe_list_remove.
  rewrite (ld_next_Ok L item n), (ld_prev_Ok L item p) by done. cbn.
  destruct (st_prev_Ok L n p) as (L1 & -> & D1 & P1 & N1); [done|]. cbn.
  rewrite (ld_prev_Ok L1 item p)
    by (rewrite P1; case_decide; naive_solver). cbn.
  rewrite (ld_next_Ok L1 item n) by (by rewrite N1). cbn.
  destruct (st_next_Ok L1 p n) as (L2 & -> & D2 & N2 & P2);
    [by apply (links_some_dom L)|]. cbn.
  destruct (st_prev_Ok L2 item item) as (L3 & -> & D3 & P3 & N3);
    [apply (links_some_dom L); [congruence|by eapply links_prv_some]|]. cbn.
  destruct (st_next_Ok L3 item item) as (L4 & -> & D4 & N4 & P4);
    [apply (links_some_dom L); [congruence|by eapply links_prv_some]|].
  exists L4. split_and!; [done|congruence|..]; intros x.
  - by rewrite N4, N3, N2, N1.
  - by rewrite P4, P3, P2, P1.
Qed.

(** ** Insertion at the tail and removal, on rings *)
Lemma ring_last L h xs :
  ring L h xs -> exists z, prv L h = Some z /\
    ((xs = [] /\ z = h) \/ exists xs', xs = xs' ++ [z] /\ z <> h /\ z ∉ xs').
Proof.
  intros [Hnd Hs]. destruct xs as [|z xs' _] using rev_ind.
  - exists h. destruct Hs as [_ Hp]. eauto.
  - apply seg_app in Hs as [_ [_ Hp]]. exists z. split; [done|]. right. exists xs'.
    rewrite NoDup_cons, NoDup_app in Hnd. split_and!; set_solver.
Qed.

Lemma insert_ring L h xs item :
  ring L h xs -> is_Some (L !! item) -> item ∉ h :: xs -> exists L',
  nfe_list_insert L h item = Ok L' /\ dom L' = dom L /\
  ring L' h (xs ++ [item]) /\
  (forall x, x ∉ h :: item :: xs -> L' !! x = L !! x).
Proof.
  intros Hr Hi Hni. pose proof (ring_last _ _ _ Hr) as (z & Hz & Hcase).
  assert (z ∈ h :: xs) as Hzin
    by (destruct Hcase as [[-> ->]|(? & -> & _)]; set_solver).
  destruct (insert_links L h z item) as (L' & E & D & N & P);
    [done|done|by eapply ring_mem|set_solver|set_solver|].
  exists L'. split_and!; [done|done| |].
  - destruct Hr as [Hnd Hs]. split.
    { rewrite app_comm_cons. apply NoDup_app. split_and!; [done|set_solver|].
      apply NoDup_singleton. }
    assert (edge L' z item /\ edge L' item h) as [H1 H2].
    { unfold edge. rewrite !N, !P. repeat case_decide; set_solver. }
    apply seg_app. split; [|done].
    destruct Hcase as [[-> ->]|(xs' & -> & Hzh & Hzx)]; [done|].
    apply seg_app in Hs as [Hs _]. apply seg_app. split; [|done].
    rewrite NoDup_cons, NoDup_app in Hnd. destruct Hnd as (Hh & _ & _ & _).
    eapply seg_frame; [..|exact Hs]; intros x Hx; [rewrite N|rewrite P];
      repeat case_decide; set_solver.
  - intros x Hx. apply links_ext; [rewrite N|rewrite P]; repeat case_decide; set_solver.
Qed.

Lemma ring_split L h xs1 x xs2 :
  ring L h (xs1 ++ x :: xs2) -> exists n p,
  nxt L x = Some n /\ prv L x = Some p /\ n <> x /\ p <> x /\
  n ∈ h :: xs1 ++ xs2 /\ p ∈ h :: xs1 ++ xs2 /\
  forall L', (forall y, nxt L' y = if decide (y = x) then Some x
                        else if decide (y = p) then Some n else nxt L y) ->
  (forall y, prv L' y = if decide (y = x) then Some x
                        else if decide (y = n) then Some p else prv L y) ->
  ring L' h (xs1 ++ xs2).
Proof.
  intros [Hnd Hs]. apply seg_app in Hs as [H1 H2].
  rewrite NoDup_cons, NoDup_app, NoDup_cons in Hnd.
  destruct Hnd as (Hh & Nd1 & Hdis & Hx2 & Nd2).
  assert (exists p, prv L x = Some p /\ ((xs1 = [] /\ p = h) \/
    exists ys, xs1 = ys ++ [p] /\ seg L h ys p)) as (p & Hp & Cp).
  { destruct xs1 as [|p ys _] using rev_ind.
    - destruct H1 as [_ Hp]. eauto.
    - apply seg_app in H1 as [Hy [_ Hp]]. eauto 6. }
  assert (exists n, nxt L x = Some n /\ ((xs2 = [] /\ n = h) \/
    exists ys, xs2 = n :: ys /\ seg L n ys h)) as (n & Hn & Cn).
  { destruct xs2 as [|n ys]; [destruct H2 as [Hn _]; eauto|].
    destruct H2 as [[Hn _] Hs]. eauto 6. }
  assert (NoDup (h :: xs1 ++ xs2)) as Hnd'.
  { rewrite NoDup_cons, NoDup_app. split_and!; set_solver. }
  assert (p = h \/ p ∈ xs1) as Ip
    by (destruct Cp as [[_ ->]|(ys & -> & _)]; set_solver).
  assert (n = h \/ n ∈ xs2) as In
    by (destruct Cn as [[_ ->]|(ys & -> & _)]; set_solver).
  assert (x <> h /\ x ∉ xs1 /\ n <> x /\ p <> x) as (Xh & X1 & Nnx & Npx).
  { clear Cp Cn H1 H2. split_and!; set_solver. }
  exists n, p. split_and!; [done|done|done|done|set_solver|set_solver|].
  intros L' N P. split; [done|].
  assert (p ∉ xs2 /\ n ∉ xs1) as (Px & Nx).
  { rewrite NoDup_cons, NoDup_app in Hnd'. clear Cp Cn H1 H2. split; set_solver. }
  assert (edge L' p n) as He.
  { unfold edge. rewrite N, P. repeat case_decide; set_solver. }
  destruct Cp as [[-> ->]|(ys & -> & Hys)], Cn as [[-> ->]|(zs & -> & Hzs)]; cbn in *.
  - done.
  - split; [done|]. rewrite NoDup_cons in Nd2.
    eapply seg_frame; [..|exact Hzs]; intros y Hy; [rewrite N|rewrite P];
      repeat case_decide; set_solver.
  - rewrite app_nil_r. apply seg_app. split; [|done].
    rewrite NoDup_app in Nd1.
    eapply seg_frame; [..|exact Hys]; intros y Hy; [rewrite N|rewrite P];
      repeat case_decide; set_solver.
  - rewrite <- app_assoc. apply seg_app. rewrite NoDup_app in Nd1. rewrite NoDup_cons in Nd2.
    split; [|split; [done|]].
    + eapply seg_frame; [..|exact Hys]; intros y Hy; [rewrite N|rewrite P];
        repeat case_decide; set_solver.
    + eapply seg_frame; [..|exact Hzs]; intros y Hy; [rewrite N|rewrite P];
        repeat case_decide; set_solver.
Qed.

Lemma remove_ring L h xs1 x xs2 :
  ring L h (xs1 ++ x :: xs2) -> exists L',
  nfe_list_remove L x = Ok L' /\ dom L' = dom L /\
  ring L' h (xs1 ++ xs2) /\ ring L' x [] /\
  (forall y, y ∉ h :: x :: xs1 ++ xs2 -> L' !! y = L !! y).
Proof.
  intros Hr. destruct (ring_split _ _ _ _ _ Hr) as
    (n & p & Hn & Hp & Nn & Np & In_n & In_p & Hring).
  destruct (remove_links L x n p) as (L' & E & D & N & P);
    [done|done|eapply ring_mem; [done|set_solver]|eapply ring_mem; [done|set_solver]|done|].
  exists L'. split_and!; [done|done|by apply Hring| |].
  - split; [apply NoDup_singleton|]. unfold seg, edge. by rewrite N, P, !decide_True.
  - intros y Hy. apply links_ext; [rewrite N|rewrite P]; repeat case_decide; set_solver.
Qed.

Lemma remove_self L x : ring L x [] -> nfe_list_remove L x = Ok L.
Proof.
  rewrite ring_nil. intros Hx.
  destruct (remove_links L x x x) as (L' & E & D & N & P);
    unfold nxt, prv; rewrite ?Hx; [done..|].
  rewrite E. f_equal. apply map_eq. intros y.
  apply links_ext; [rewrite N|rewrite P]; unfold nxt, prv; repeat case_decide; subst;
    rewrite ?Hx; done.
Qed.

(** ** A store of disjoint lists

    [lists_wf L heads A]: the nodes of [L] are the list heads, the members
    [A h] of the lists, and detached nodes linked to themselves. *)
Record lists_wf (L : links) (heads : lptr -> Prop) (A : lptr -> list lptr) : Prop := {
  wf_ring : forall h, heads h -> ring L h (A h);
  wf_node : forall x, is_Some (L !! x) ->
    heads x \/ (exists h, heads h /\ x ∈ A h) \/ ring L x [];
  wf_disj : forall h h' x, heads h -> heads h' -> x ∈ A h -> x ∈ A h' -> h = h';
  wf_member : forall h x, heads h -> x ∈ A h -> ~ heads x
}.

(** Membership after a removal and after an insertion at the tail. *)
Definition lists_remove (A : lptr -> list lptr) (x : lptr) : lptr -> list lptr :=
  fun h => filter (fun y => y <> x) (A h).
Definition lists_insert (A : lptr -> list lptr) (h x : lptr) : lptr -> list lptr :=
  fun h' => if decide (h' = h) then A h' ++ [x] else A h'.

Lemma filter_ne_id (xs : list lptr) x : x ∉ xs -> filter (fun y => y <> x) xs = xs.
Proof.
  induction xs as [|y xs IH]; intros Hx; [done|].
  rewrite filter_cons_True by set_solver. f_equal. apply IH. set_solver.
Qed.

Lemma filter_ne_split (xs1 xs2 : list lptr) x :
  x ∉ xs1 -> x ∉ xs2 -> filter (fun y => y <> x) (xs1 ++ x :: xs2) = xs1 ++ xs2.
Proof.
  intros H1 H2. rewrite filter_app, filter_cons_False by (intros ?; done).
  by rewrite !filter_ne_id.
Qed.

Lemma detached_not_member L heads A h x :
  lists_wf L heads A -> ring L x [] -> heads h -> h <> x -> x ∉ A h.
Proof.
  intros W Hx Hh Hne Hin. apply ring_nil in Hx.
  destruct (wf_ring _ _ _ W h Hh) as [Hnd Hs].
  apply list_elem_of_split in Hin as (xs1 & xs2 & E). rewrite E in Hnd, Hs.
  apply seg_app in Hs as [_ Hs].
  destruct (seg_mem _ _ _ _ x Hs) as (n & Hn & Hin); [set_solver|].
  unfold nxt in Hn. rewrite Hx in Hn. injection Hn as <-.
  rewrite NoDup_cons, NoDup_app, NoDup_cons in Hnd. set_solver.
Qed.

Lemma remove_wf L heads A x :
  lists_wf L heads A -> is_Some (L !! x) -> ~ heads x -> exists L',
  nfe_list_remove L x = Ok L' /\ dom L' = dom L /\
  lists_wf L' heads (lists_remove A x) /\ ring L' x [].
Proof.
  intros W Sx Nx. destruct (wf_node _ _ _ W x Sx) as [?|[(h & Hh & Hin)|Hself]]; [done| |].
  2: { exists L. split_and!; [by apply remove_self|done| |done].
       destruct W as [W1 W2 W3 W4]. split; unfold lists_remove.
       - intros h Hh. rewrite filter_ne_id; [by apply W1|].
         eapply detached_not_member; [by split|done|done|]. by intros ->.
       - intros y Hy. destruct (W2 y Hy) as [?|[(h & Hh & Hin)|?]]; [by left| |by auto].
         destruct (decide (y = x)) as [->|]; [by auto|].
         right; left. exists h. split; [done|]. by apply list_elem_of_filter.
       - intros h h' y Hh Hh' [_ H1]%list_elem_of_filter [_ H2]%list_elem_of_filter. eauto.
       - intros h y Hh [_ H1]%list_elem_of_filter. eauto. }
  apply list_elem_of_split in Hin as (xs1 & xs2 & EA).
  pose proof (wf_ring _ _ _ W h Hh) as Hr. rewrite EA in Hr.
  destruct (remove_ring _ _ _ _ _ Hr) as (L' & E & D & Hr' & Hx & Hf).
  destruct Hr as [Hnd _]. rewrite NoDup_cons, NoDup_app, NoDup_cons in Hnd.
  exists L'. split_and!; [done|done| |done].
  destruct W as [W1 W2 W3 W4].
  assert (forall h', heads h' -> h' <> h ->
    forall y, y ∈ h' :: A h' -> y ∉ h :: x :: xs1 ++ xs2) as Hdis.
  { intros h' Hh' Hne y Hy Hy'.
    assert (y = h \/ y ∈ A h) as [->|Hyh] by (rewrite EA; set_solver).
    - apply elem_of_cons in Hy as [->|Hy]; [done|]. by apply (W4 h' h).
    - apply elem_of_cons in Hy as [->|Hy]; [by apply (W4 h h')|].
      apply Hne. eauto. }
  split; unfold lists_remove.
  - intros h' Hh'. destruct (decide (h' = h)) as [->|Hne].
    + rewrite EA, filter_ne_split by set_solver. done.
    + rewrite filter_ne_id.
      * eapply ring_frame; [|by apply W1]. intros y Hy. apply Hf. eauto.
      * intros Hin. apply (Hdis h' Hh' Hne x); set_solver.
  - intros y Hy. apply (links_some_dom L' L) in Hy; [|done].
    destruct (decide (y = x)) as [->|Hyx]; [by auto|].
    destruct (W2 y Hy) as [?|[(h' & Hh' & Hin)|Hself]]; [by auto| |].
    + right; left. exists h'. split; [done|]. by apply list_elem_of_filter.
    + destruct (decide (y = h)) as [->|Hyh]; [by auto|]. right; right.
      eapply ring_frame; [|exact Hself]. intros z ->%list_elem_of_singleton. apply Hf.
      assert (y ∉ A h).
      { eapply detached_not_member; [by split|done|done|]. by intros ->. }
      rewrite EA in *. set_solver.
  - intros h1 h2 y Hh1 Hh2 [_ H1]%list_elem_of_filter [_ H2]%list_elem_of_filter. eauto.
  - intros h' y Hh' [_ H1]%list_elem_of_filter. eauto.
Qed.

Lemma insert_wf L heads A h x :
  lists_wf L heads A -> heads h -> ~ heads x -> ring L x [] -> exists L',
  nfe_list_insert L h x = Ok L' /\ dom L' = dom L /\
  lists_wf L' heads (lists_insert A h x).
Proof.
  intros W Hh Nx Hx.
  assert (forall h', heads h' -> x ∉ h' :: A h') as Hfresh.
  { intros h' Hh'. assert (h' <> x) by (by intros ->).
    pose proof (detached_not_member _ _ _ h' x W Hx Hh'). set_solver. }
  destruct (insert_ring L h (A h) x) as (L' & E & D & Hr & Hf);
    [by apply W|eapply ring_mem; [exact Hx|set_solver]|by apply Hfresh|].
  exists L'. split_and!; [done|done|].
  destruct W as [W1 W2 W3 W4]. unfold lists_insert. split.
  - intros h' Hh'. case_decide as Hd; [by subst|].
    eapply ring_frame; [|by apply W1]. intros y Hy. apply Hf. intros Hy'.
    assert (y = h \/ y = x \/ y ∈ A h) as [->|[->|Hyh]] by set_solver.
    + apply elem_of_cons in Hy as [->|Hy]; [done|]. by apply (W4 h' h).
    + by apply (Hfresh h').
    + apply elem_of_cons in Hy as [->|Hy]; [by apply (W4 h h')|]. apply Hd. eauto.
  - intros y Hy. apply (links_some_dom L' L) in Hy; [|done].
    destruct (decide (y = x)) as [->|Hyx].
    { right; left. exists h. rewrite decide_True by done. set_solver. }
    destruct (W2 y Hy) as [?|[(h' & Hh' & Hin)|Hself]]; [by auto| |].
    + right; left. exists h'. split; [done|]. case_decide; set_solver.
    + destruct (decide (y = h)) as [->|]; [by auto|]. right; right.
      eapply ring_frame; [|exact Hself]. intros z ->%list_elem_of_singleton. apply Hf.
      pose proof (detached_not_member _ _ _ h y (Build_lists_wf _ _ _ W1 W2 W3 W4) Hself Hh).
      set_solver.
  - assert (forall h' y, y ∈ (if decide (h' = h) then A h' ++ [x] else A h') ->
      y ∈ A h' \/ y = x /\ h' = h) as Hin by (intros h' y; case_decide; set_solver).
    intros h1 h2 y Hh1 Hh2 [H1|[-> ->]]%Hin [H2|[Hy Hh']]%Hin; [by eauto| |..].
    + subst. by destruct (Hfresh h1 Hh1); right.
    + by destruct (Hfresh h2 Hh2); right.
    + done.
  - intros h' y Hh'. case_decide; [|by apply W4].
    intros [?|Hy]%elem_of_app; [by eapply W4|]. by apply list_elem_of_singleton in Hy as ->.
Qed.

(** A fresh node, linked to itself by [nfe_list_init]. *)
Lemma init_wf L heads A x :
  lists_wf L heads A -> L !! x = None -> ~ heads x ->
  lists_wf (nfe_list_init L x) heads A /\ ring (nfe_list_init L x) x [].
Proof.
  intros [W1 W2 W3 W4] Hx Nx. unfold nfe_list_init.
  assert (forall h y, heads h -> y ∈ h :: A h -> y <> x) as Hne.
  { intros h y Hh Hy ->. destruct (ring_mem _ _ _ _ (W1 h Hh) Hy). congruence. }
  assert (ring (<[x:=(x, x)]> L) x []) as Hself by (apply ring_nil, lookup_insert_eq).
  split; [|done]. split; [| |done|done].
  - intros h Hh. eapply ring_frame; [|by apply W1].
    intros y Hy. apply lookup_insert_ne. symmetry. eauto.
  - intros y Hy. destruct (decide (y = x)) as [->|Hyx]; [by auto|].
    rewrite lookup_insert_ne in Hy by done.
    destruct (W2 y Hy) as [?|[?|Hs]]; [by auto|by auto|].
    right; right. rewrite ring_nil in *. by rewrite lookup_insert_ne.
Qed.

(** Freeing a detached node. *)
Lemma free_wf L heads A x :
  lists_wf L heads A -> ring L x [] -> ~ heads x -> lists_wf (delete x L) heads A.
Proof.
  intros W Hx Nx.
  assert (forall h y, heads h -> y ∈ h :: A h -> y <> x) as Hne.
  { intros h y Hh [->|Hy]%elem_of_cons ->; [done|].
    revert Hy. eapply detached_not_member; [done..|]. by intros ->. }
  destruct W as [W1 W2 W3 W4]. split; [| |done|done].
  - intros h Hh. eapply ring_frame; [|by apply W1].
    intros y Hy. apply lookup_delete_ne. symmetry. eauto.
  - intros y Hy. destruct (decide (y = x)) as [->|Hyx].
    { rewrite lookup_delete_eq in Hy. by destruct Hy. }
    rewrite lookup_delete_ne in Hy by done.
    destruct (W2 y Hy) as [?|[?|Hs]]; [by auto|by auto|].
    right; right. rewrite ring_nil in *. by rewrite lookup_delete_ne.
Qed.

(** ** Walking a ring *)
Lemma seg_next L a xs b xs1 x xs2 :
  seg L a xs b -> a :: xs = xs1 ++ x :: xs2 -> nxt L x = Some (default b (head xs2)).
Proof.
  revert a xs1. induction xs as [|y xs IH]; intros a xs1; cbn.
  - intros [Hn _] E. destruct xs1 as [|? xs1]; [|by destruct xs1].
    by injection E as -> <-.
  - intros [[Hn _] Hs] E. destruct xs1 as [|? xs1]; injection E as -> E.
    + by rewrite <- E.
    + eapply IH; [exact Hs|exact E].
Qed.

Lemma ring_next L h xs xs1 x xs2 :
  ring L h xs -> h :: xs = xs1 ++ x :: xs2 -> nxt L x = Some (default h (head xs2)).
Proof. intros [_ Hs]. by apply seg_next. Qed.

Lemma ring_length L h xs : ring L h xs -> (length (h :: xs) <= size L)%nat.
Proof.
  intros Hr. pose proof Hr as [Hnd _].
  rewrite <- (size_list_to_set (C := gset lptr) (h :: xs)) by done.
  rewrite <- size_dom. apply subseteq_size. intros x Hx%elem_of_list_to_set.
  apply elem_of_dom. by eapply ring_mem.
Qed.

(** The look-ahead pointer of the [_safe] iteration: read from the current
    node (or, at the end, from the head, where the value is not used). *)
Lemma ring_seq_next L h l pre xs :
  ring L h l -> l = pre ++ xs -> exists t,
  ld_next L (default h (head xs)) = Ok t /\ (xs <> [] -> t = default h (head (tail xs))).
Proof.
  intros Hr ->. destruct xs as [|x xs]; cbn [head default tail].
  - exists (default h (head (pre ++ []))). split; [|done].
    apply ld_next_Ok. by apply (ring_next L h (pre ++ []) []).
  - eexists. split; [|done]. apply ld_next_Ok. by apply (ring_next L h (pre ++ x :: xs) (h :: pre)).
Qed.
