(* ===== verification/NfePacket.v ===== *)
(** * NfePacket: packet parsing of the flow engine

    Models the input handlers ([nfe_input.c], [nfe_vlan.c], [nfe_ipv4.c],
    [nfe_ipv6.c], [nfe_ether.c]), the protocol handlers ([nfe_proto.c],
    [nfe_gre.c], [nfe_icmp.c], [nfe_tcp.c], [nfe_udp.c]) and the entry point
    [nfe_packet_hash] of [nfe.c].  Pointers are offsets into the packet buffer
    and a read outside the buffer is the fault [FOob]; the mutual recursion of
    the handlers is bounded by fuel, and the theorems say when it is enough. *)
From S2P Require Import Prelude NfeTypes NfeJhash NfeFlow.

Definition ETH_P_IP := 0x0800.
Definition ETH_P_IPV6 := 0x86DD.
Definition ETH_P_8021Q := 0x8100.
Definition ETH_P_ARP := 0x0806.
Definition ETH_HLEN := 14.

Definition NEXT_BYPASS_ICMP := 1.
Definition NEXT_LOOKUP_ICMP := 2.
Definition NEXT_LOOKUP_TCP := 3.
Definition NEXT_LOOKUP_UDP := 4.
Definition NEXT_BYPASS_ETH := 5.

Definition IPPROTO_IP := 0.
Definition IPPROTO_ICMP := 1.
Definition IPPROTO_IPIP := 4.
Definition IPPROTO_TCP := 6.
Definition IPPROTO_UDP := 17.
Definition IPPROTO_IPV6 := 41.
Definition IPPROTO_GRE := 47.
Definition IPPROTO_ICMPV6 := 58.
Definition IPPROTO_ETHERIP := 97.

Definition NEXTHDR_FRAGMENT := 44.
Definition NEXTHDR_ESP := 50.
Definition NEXTHDR_AUTH := 51.
Definition NEXTHDR_NONE := 59.
Definition NEXTHDR_INVALID := 255.

Definition EINVAL := 22.

(** [eth_type_from_ip], [nfe_ether.h] *)
Definition eth_type_from_ip (byte : Z) : Z :=
  let byte := Z.shiftr (Z.land byte 0xf0) 4 in
  if byte =? 4 then ETH_P_IP else if byte =? 6 then ETH_P_IPV6 else 0.

Section Packet.
#[local] Opaque nfe_tuple_hash.
Context `{HostEndian}.
(** The bytes of the captured packet. *)
Variable buf : list Z.

(** What a handler returns: the C return code and the updated packet. *)
Abbreviation handler := (nfe_packet -> res (Z * nfe_packet)).

(** [p->tail - p->data] *)
Definition remaining (p : nfe_packet) : Z := p_tail p - p_data p.

(** ** Leaf handlers *)
Definition nfe_proto_eth : handler := fun p =>
  Ok (0, set_data (p_head p) (set_next NEXT_BYPASS_ETH
           (set_tuple (set_proto IPPROTO_ETHERIP (p_tuple p)) p))).

Definition nfe_input_eth : handler := nfe_proto_eth.

Definition nfe_input_unknown : handler := fun p => Ok (0, set_next NEXT_BYPASS_ETH p).

Definition nfe_proto_unknown : handler := fun p => Ok (0, p).

Definition nfe_proto_icmp : handler := fun p =>
  if size_t (remaining p) <? 8 then Ok (-1, p) else
  type ← rd8 buf (p_data p);
  if (3 <=? type) && (type <=? 5) then Ok (0, set_next NEXT_BYPASS_ICMP p)
  else Ok (0, set_next NEXT_LOOKUP_ICMP p).

Definition nfe_proto_icmp6 : handler := fun p =>
  if size_t (remaining p) <? 8 then Ok (-1, p)
  else Ok (0, set_next NEXT_LOOKUP_ICMP p).

(** [TH_OFF(th) << 2] as the [uint8_t th_len] *)
Definition th_len (offres : Z) : Z :=
  u8 (Z.shiftl (Z.shiftr (Z.land offres 0xf0) 4) 2).

Definition nfe_proto_tcp : handler := fun p =>
  _ ← c_assert (bool_decide (Some (p_data p) = p_prot p));
  offres ← rd8 buf (p_data p + 12);
  let th_len := th_len offres in
  if remaining p <? th_len then Ok (-1, p) else
  sport ← ld16_at buf (p_data p + 0);
  dport ← ld16_at buf (p_data p + 2);
  Ok (0, set_next NEXT_LOOKUP_TCP (set_data (p_data p + th_len)
           (set_tuple (set_ports sport dport (p_tuple p)) p))).

Definition nfe_proto_udp : handler := fun p =>
  if remaining p <? 8 then Ok (-1, p) else
  _ ← c_assert (bool_decide (Some (p_data p) = p_prot p));
  sport ← ld16_at buf (p_data p + 0);
  dport ← ld16_at buf (p_data p + 2);
  Ok (0, set_data (p_data p + 8) (set_next NEXT_LOOKUP_UDP
           (set_tuple (set_ports sport dport (p_tuple p)) p))).

(** ** Encapsulating handlers; [k] is the hand-off to the next one *)

Definition vlan_id (tci : Z) : Z := Z.land tci 0x0fff.

(** The [do ... while (tpid == ETH_P_8021Q)] loop: [None] is [return -1],
    otherwise the last [tci] and [tpid]. *)
Fixpoint vlan_loop (n : nat) (p : nfe_packet) : res (option (Z * Z) * nfe_packet) :=
  match n with
  | O => Err FFuel
  | S n' =>
      if size_t (remaining p) <? 4 then Ok (None, p) else
      tci ← read16 buf (p_data p + 0);
      tpid ← read16 buf (p_data p + 2);
      let p := set_data (p_data p + 4) p in
      if tpid =? ETH_P_8021Q then vlan_loop n' p else Ok (Some (tci, tpid), p)
  end.

Definition nfe_input_vlan (k : Z -> handler) : handler := fun p =>
  '(r, p) ← vlan_loop (S (length buf)) p;
  match r with
  | None => Ok (-1, p)
  | Some (tci, tpid) => k tpid (set_tuple (set_vlan (vlan_id tci) (p_tuple p)) p)
  end.

(** The classification shared by the two IP handlers. *)
Definition classify (multicast : nfe_ipaddr -> bool) (p : nfe_packet) : nfe_packet :=
  if p_type p =? NFE_PACKET_TYPE_UNKNOWN then
    if multicast (t_addr1 (p_tuple p)) then set_type NFE_PACKET_TYPE_MULTICAST p
    else if negb (ipaddr_unspec (t_addr1 (p_tuple p))) then set_type NFE_PACKET_TYPE_HOST p
    else p
  else p.

Definition nfe_input_ipv4 (k : Z -> handler) : handler := fun p =>
  if size_t (remaining p) <? 20 then Ok (-1, p) else
  let ip4 := p_data p in
  frag_off ← read16 buf (ip4 + 6);
  if negb (Z.land frag_off 0x3fff =? 0) then Ok (-1, p) else
  correct_len ← read16 buf (ip4 + 2);
  let p := set_tail (p_data p + nfe_min correct_len (u16 (remaining p))) p in
  ihl_ver ← rd8 buf ip4;
  let p := set_data (p_data p + Z.shiftl (Z.land ihl_ver 0x0f) 2) p in
  let p := set_prot (Some (p_data p)) p in
  saddr ← rd_bytes buf (ip4 + 12) 4;
  daddr ← rd_bytes buf (ip4 + 16) 4;
  proto ← rd8 buf (ip4 + 9);
  let p := set_tuple (set_proto proto (set_domain NFE_AF_INET
             (set_addrs (ipaddr_copy_in4 saddr) (ipaddr_copy_in4 daddr) (p_tuple p)))) p in
  k proto (classify ipaddr_v4_multicast p).

Definition nfe_proto_ipv4 := nfe_input_ipv4.

Definition ipv6_extension (value : Z) : bool :=
  bool_decide (value ∈ [0; 43; NEXTHDR_ESP; NEXTHDR_AUTH; 60; 135]).

(** [ipv6_skip_extension(ip6, size, &offset)]: the type of the next header and
    the new offset.  [first] is [ip6->nhdr], which the loop never updates. *)
Definition ipv6_skip_extension (ip6 first size offset : Z) : res (Z * Z) :=
  if negb (first =? NEXTHDR_ESP) then
    ext_elen ← rd8 buf (ip6 + offset + 1);
    let elen := if first =? NEXTHDR_AUTH then (ext_elen + 2) * 4 else (ext_elen + 1) * 8 in
    if size <? u32 (offset + elen) then Ok (NEXTHDR_INVALID, offset) else
    nhdr ← rd8 buf (ip6 + offset);
    Ok (nhdr, u32 (offset + elen))
  else Ok (NEXTHDR_ESP, offset).

(** The [while (ipv6_extension(nhdr))] loop; [None] is [return -1]. *)
Fixpoint ipv6_loop (n : nat) (ip6 first size nhdr offset : Z) : res (option (Z * Z)) :=
  match n with
  | O => Err FFuel
  | S n' =>
      if ipv6_extension nhdr then
        '(nhdr, offset) ← ipv6_skip_extension ip6 first size offset;
        if nhdr =? NEXTHDR_ESP then Ok (Some (nhdr, offset))
        else if nhdr =? NEXTHDR_INVALID then Ok None
        else ipv6_loop n' ip6 first size nhdr offset
      else Ok (Some (nhdr, offset))
  end.

Definition nfe_input_ipv6 (k : Z -> handler) : handler := fun p =>
  let size := u32 (remaining p) in
  let ip6 := p_data p in
  if size <? 40 then Ok (-1, p) else
  saddr ← rd_bytes buf (ip6 + 8) 16;
  daddr ← rd_bytes buf (ip6 + 24) 16;
  let p := set_tuple (set_domain NFE_AF_INET6
             (set_addrs (ipaddr_copy_in6 saddr) (ipaddr_copy_in6 daddr) (p_tuple p))) p in
  first ← rd8 buf (ip6 + 6);
  r ← ipv6_loop (S (length buf)) ip6 first size first 40;
  match r with
  | None => Ok (-1, p)
  | Some (nhdr, offset) =>
      if (nhdr =? NEXTHDR_FRAGMENT) || (nhdr =? NEXTHDR_NONE) then Ok (0, p) else
      let p := set_data (p_data p + offset) p in
      let p := set_tail (p_data p + nfe_min (u32 (size - offset)) (u32 (remaining p))) p in
      let p := set_prot (Some (p_data p)) p in
      let p := set_tuple (set_proto nhdr (p_tuple p)) p in
      k nhdr (classify ipaddr_v6_multicast p)
  end.

Definition nfe_proto_ipv6 := nfe_input_ipv6.

(** The [for (;;)] over the source route entries; [None] is [return -1]. *)
Fixpoint gre_sre_loop (n : nat) (p : nfe_packet) (off : Z) : res (option Z) :=
  match n with
  | O => Err FFuel
  | S n' =>
      if p_tail p <? p_data p + (off + 4) then Ok None else
      len ← rd8 buf (p_data p + off + 3);
      if len =? 0 then Ok (Some off) else gre_sre_loop n' p (off + len)
  end.

Definition gre_offset (flag : Z) : Z :=
  4 + (if negb (Z.land flag (Z.lor 0x8000 0x4000) =? 0) then 4 else 0)
    + (if negb (Z.land flag 0x2000 =? 0) then 4 else 0)
    + (if negb (Z.land flag 0x1000 =? 0) then 4 else 0).

Definition nfe_proto_gre (k : Z -> handler) : handler := fun p =>
  if size_t (remaining p) <? 4 then Ok (-1, p) else
  flag ← read16 buf (p_data p + 0);
  type ← read16 buf (p_data p + 2);
  if negb (Z.land flag 0x0003 =? 0) then Ok (0, p) else
  r ← (if negb (Z.land flag 0x4000 =? 0)
       then gre_sre_loop (S (length buf)) p (gre_offset flag)
       else Ok (Some (gre_offset flag)));
  match r with
  | None => Ok (-1, p)
  | Some off => k type (set_data (p_data p + off) p)
  end.

(** [nfe_input_handoff(type)(p)] and [nfe_proto_handoff(proto)(p)]. *)
Fixpoint nfe_input_handoff (fuel : nat) (type : Z) (p : nfe_packet) {struct fuel}
    : res (Z * nfe_packet) :=
  match fuel with
  | O => Err FFuel
  | S f =>
      if type =? ETH_P_8021Q then nfe_input_vlan (nfe_input_handoff f) p
      else if type =? ETH_P_IP then nfe_input_ipv4 (nfe_proto_handoff f) p
      else if type =? ETH_P_IPV6 then nfe_input_ipv6 (nfe_proto_handoff f) p
      else if type =? ETH_P_ARP then nfe_input_eth p
      else nfe_input_unknown p
  end
with nfe_proto_handoff (fuel : nat) (proto : Z) (p : nfe_packet) {struct fuel}
    : res (Z * nfe_packet) :=
  match fuel with
  | O => Err FFuel
  | S f =>
      if proto =? IPPROTO_IPIP then nfe_proto_ipv4 (nfe_proto_handoff f) p
      else if proto =? IPPROTO_TCP then nfe_proto_tcp p
      else if proto =? IPPROTO_UDP then nfe_proto_udp p
      else if proto =? IPPROTO_IPV6 then nfe_proto_ipv6 (nfe_proto_handoff f) p
      else if proto =? IPPROTO_GRE then nfe_proto_gre (nfe_input_handoff f) p
      else if proto =? IPPROTO_ICMP then nfe_proto_icmp p
      else if proto =? IPPROTO_ICMPV6 then nfe_proto_icmp6 p
      else nfe_proto_unknown p
  end.

(** The packet after the initial assignments of [nfe_packet_hash]. *)
Definition packet_init (data len timestamp : Z) : nfe_packet :=
  mk_packet tuple_zero timestamp 0 NFE_PACKET_TYPE_UNKNOWN 0 0 data (data + len) data None.

(** The part of [nfe_packet_hash] that reads the Ethernet header. *)
Definition packet_ether (ethertype : Z) (p : nfe_packet) : res (Z * nfe_packet) :=
  if ethertype =? 0 then
    b ← rd8 buf (p_data p);
    let type := if negb (Z.land b 0x01 =? 0) then
                  if b =? 0xff then NFE_PACKET_TYPE_BROADCAST
                  else NFE_PACKET_TYPE_MULTICAST
                else NFE_PACKET_TYPE_HOST in
    ethertype ← read16 buf (p_data p + 12);
    Ok (ethertype, set_data (p_data p + ETH_HLEN) (set_type type p))
  else Ok (ethertype, p).

(** [nfe_packet_hash(p, ethertype, data, len, timestamp)]; a NULL [p] or
    [data] is [None], and the updated packet is returned with the code. *)
Definition nfe_packet_hash (fuel : nat) (p : option nfe_packet) (ethertype : Z)
    (data : option Z) (len timestamp : Z) : res (Z * option nfe_packet) :=
  if match p with None => true | _ => false end || (match data with None => true | _ => false end && (0 <? len))
  then Ok (- EINVAL, p) else
  let p := packet_init (default 0 data) len timestamp in
  if size_t (remaining p) <? ETH_HLEN then Ok (-1, Some p) else
  '(ethertype, p) ← packet_ether ethertype p;
  '(err, p) ← nfe_input_handoff fuel ethertype p;
  if err =? 0 then Ok (err, Some (set_hash (nfe_tuple_hash (p_tuple p)) p))
  else Ok (err, Some p).

(** ** One step of an encapsulating handler

    Whatever the hand-off [k], a handler either ends with a result of its own
    or calls [k] on a packet whose data pointer has moved. *)
Definition steps_to (h : (Z -> handler) -> handler) (p : nfe_packet)
    (o : res (Z * nfe_packet) + Z * nfe_packet) : Prop :=
  forall k, h k p = match o with inl r => r | inr (t, q) => k t q end.

#[local] Ltac ends_oob := exists (inl (Err FOob)); split; [done|by left].

Abbreviation blen := (Z.of_nat (length buf)).

Lemma rd8_dec off :
  (exists b, rd8 buf off = Ok b /\ 0 <= off < blen) \/
  (rd8 buf off = Err FOob /\ ~ 0 <= off < blen).
Proof.
  destruct (decide (0 <= off < blen)) as [Hb|Hb].
  - left. destruct (rd8_Ok buf off Hb) as (b & ? & _). eauto.
  - right. split; [apply rd8_oob; lia|done].
Qed.

Lemma rd_bytes_dec off n : 0 <= off ->
  (exists bs, rd_bytes buf off n = Ok bs /\ off + Z.of_nat n <= Z.max off blen) \/
  rd_bytes buf off n = Err FOob.
Proof.
  revert off. induction n as [|n IH]; intros off H0.
  - left. exists []. split; [done|lia].
  - cbn [rd_bytes]. destruct (rd8_dec off) as [(b & -> & ?)|[-> ?]]; [|by right]. cbn.
    destruct (IH (off + 1)) as [(bs & -> & ?)| ->]; [lia| |by right].
    left. eexists. split; [done|lia].
Qed.

Lemma read16_dec off : 0 <= off ->
  (exists v, read16 buf off = Ok v /\ off + 2 <= blen) \/ read16 buf off = Err FOob.
Proof.
  intros H0. unfold read16.
  destruct (rd8_dec off) as [(b0 & -> & ?)|[-> ?]]; [|by right]. cbn.
  destruct (rd8_dec (off + 1)) as [(b1 & -> & ?)|[-> ?]]; [|by right]. cbn.
  left. eexists. split; [done|lia].
Qed.

Lemma vlan_loop_cases n p :
  0 <= p_data p -> Z.max 0 (blen - p_data p) < Z.of_nat n ->
  vlan_loop n p = Err FOob \/
  (exists d, vlan_loop n p = Ok (None, set_data d p)) \/
  exists d tci tpid, vlan_loop n p = Ok (Some (tci, tpid), set_data d p) /\
    p_data p + 4 <= d <= blen.
Proof.
  revert p. induction n as [|n IH]; intros p H0 Hn; [lia|]. cbn [vlan_loop].
  destruct (size_t _ <? 4); [right; left; exists (p_data p); by destruct p|].
  rewrite Z.add_0_r.
  destruct (read16_dec (p_data p)) as [(tci & -> & H1)| ->]; [lia| |by left]. cbn.
  destruct (read16_dec (p_data p + 2)) as [(tpid & -> & H2)| ->]; [lia| |by left]. cbn.
  destruct (tpid =? ETH_P_8021Q).
  - destruct (IH (set_data (p_data p + 4) p)) as [E|[(d & E)|(d & a & b & E & Hd)]];
      [cbn; lia|cbn; lia|by left|right; left|right; right]; rewrite E.
    + by exists d.
    + exists d, a, b. split; [done|]. cbn in Hd. lia.
  - right; right. exists (p_data p + 4), tci, tpid. split; [done|lia].
Qed.

Lemma vlan_step p : 0 <= p_data p -> exists o, steps_to nfe_input_vlan p o /\
  (o = inl (Err FOob) \/ (exists d, o = inl (Ok (-1, set_data d p))) \/
   exists d tci tpid, p_data p + 4 <= d <= blen /\
     o = inr (tpid, set_tuple (set_vlan (vlan_id tci) (p_tuple p)) (set_data d p))).
Proof.
  intros H0. unfold steps_to, nfe_input_vlan.
  destruct (vlan_loop_cases (S (length buf)) p) as [->|[(d & ->)|(d & tci & tpid & -> & Hd)]];
    [done|lia|..]; cbn.
  - eexists (inl _). by split; [|left].
  - eexists (inl _). split; [done|]. right; left. by eexists.
  - eexists (inr (_, _)). split; [done|]. right; right. by exists d, tci, tpid.
Qed.

(** The packet an IPv4 header at the data pointer is handed off with. *)
Definition ipv4_next (p : nfe_packet) (tail data : Z) (s d : list Z) (proto : Z) : nfe_packet :=
  classify ipaddr_v4_multicast
    (set_tuple (set_proto proto (set_domain NFE_AF_INET
       (set_addrs (ipaddr_copy_in4 s) (ipaddr_copy_in4 d) (p_tuple p))))
       (set_prot (Some data) (set_data data (set_tail tail p)))).

Lemma ipv4_step p : 0 <= p_data p -> exists o, steps_to nfe_input_ipv4 p o /\
  (o = inl (Err FOob) \/ o = inl (Ok (-1, p)) \/
   exists tot_len ihl_ver s d proto,
     p_data p + 20 <= blen /\
     rd8 buf (p_data p) = Ok ihl_ver /\ rd8 buf (p_data p + 9) = Ok proto /\
     rd_bytes buf (p_data p + 12) 4 = Ok s /\ rd_bytes buf (p_data p + 16) 4 = Ok d /\
     o = inr (proto, ipv4_next p
                (p_data p + nfe_min tot_len (u16 (remaining p)))
                (p_data p + Z.shiftl (Z.land ihl_ver 0x0f) 2) s d proto)).
Proof.
  intros H0. unfold steps_to, nfe_input_ipv4.
  destruct (size_t _ <? 20); [eexists (inl _); by split; [|right; left]|].
  destruct (read16_dec (p_data p + 6)) as [(frag & -> & _)| ->];
    [lia| |ends_oob]. cbind.
  destruct (negb _); [eexists (inl _); by split; [|right; left]|].
  destruct (read16_dec (p_data p + 2)) as [(len & -> & _)| ->];
    [lia| |ends_oob]. cbind.
  destruct (rd8_dec (p_data p)) as [(ihl & -> & _)|[-> _]];
    [|ends_oob]. cbind.
  destruct (rd_bytes_dec (p_data p + 12) 4) as [(s & -> & _)| ->];
    [lia| |ends_oob]. cbind.
  destruct (rd_bytes_dec (p_data p + 16) 4) as [(d & -> & Hd)| ->];
    [lia| |ends_oob]. cbind.
  destruct (rd8_dec (p_data p + 9)) as [(proto & -> & Hp)|[-> _]];
    [|ends_oob]. cbind.
  eexists (inr (_, _)). split; [done|]. right; right.
  exists len, ihl, s, d, proto. split_and!; [lia|done..].
Qed.

(** The buffer holds bytes and is far smaller than the 32-bit sizes the IPv6
    handler computes with. *)
Definition buf_ok : Prop := bytes_ok buf /\ blen < 2 ^ 31.

(** A hop through IPv6 extension headers moves past at least the fixed header. *)
Lemma ipv6_loop_cases n ip6 first size nhdr offset :
  buf_ok -> 0 <= ip6 -> 40 <= offset -> is_u8 nhdr ->
  Z.max 0 (blen - (ip6 + offset)) < Z.of_nat n ->
  ipv6_loop n ip6 first size nhdr offset = Err FOob \/
  ipv6_loop n ip6 first size nhdr offset = Ok None \/
  exists nhdr' offset', ipv6_loop n ip6 first size nhdr offset = Ok (Some (nhdr', offset')) /\
    40 <= offset' /\ is_u8 nhdr'.
Proof.
  intros [Hbuf Hlen] H0. revert nhdr offset.
  induction n as [|n IH]; intros nhdr offset Ho Hu Hn; [lia|]. cbn [ipv6_loop].
  destruct (ipv6_extension nhdr); [|right; right; by exists nhdr, offset].
  unfold ipv6_skip_extension. destruct (negb (first =? NEXTHDR_ESP)); cbind.
  2: { right; right. by exists NEXTHDR_ESP, offset. }
  destruct (rd8_dec (ip6 + offset + 1)) as [(elen & E1 & H1)|[-> _]]; [|by left].
  rewrite E1. cbind. apply rd8_u8 in E1 as Hel; [|done].
  destruct (size <? _); cbind; [by right; left|].
  destruct (rd8_dec (ip6 + offset)) as [(nh & E2 & _)|[-> _]]; [|by left].
  rewrite E2. cbind. apply rd8_u8 in E2 as Hnh; [|done]. unfold is_u8 in Hel.
  set (el := if first =? NEXTHDR_AUTH then _ else _).
  assert (8 <= el <= 2056) as Hel' by (unfold el; destruct (first =? NEXTHDR_AUTH); lia).
  assert (u32 (offset + el) = offset + el) as ->
    by (apply u32_id; unfold is_u32; lia).
  destruct (nh =? NEXTHDR_ESP); [right; right; eexists _, _; split; [done|split; [lia|done]]|].
  destruct (nh =? NEXTHDR_INVALID); [by right; left|].
  destruct (IH nh (offset + el)) as [->|[->|(n' & o' & -> & ?)]];
    [lia|done|lia|by left|by right; left|right; right; by exists n', o'].
Qed.

(** The packet an IPv6 header leaves when the walk over the headers stops. *)
Definition ipv6_addrs (p : nfe_packet) (s d : list Z) : nfe_packet :=
  set_tuple (set_domain NFE_AF_INET6
    (set_addrs (ipaddr_copy_in6 s) (ipaddr_copy_in6 d) (p_tuple p))) p.
Definition ipv6_next (p : nfe_packet) (tail data : Z) (s d : list Z) (proto : Z) : nfe_packet :=
  classify ipaddr_v6_multicast
    (set_tuple (set_proto proto (p_tuple (ipv6_addrs p s d)))
       (set_prot (Some data) (set_tail tail (set_data data (ipv6_addrs p s d))))).

Lemma ipv6_step p : buf_ok -> 0 <= p_data p -> exists o, steps_to nfe_input_ipv6 p o /\
  (o = inl (Err FOob) \/ o = inl (Ok (-1, p)) \/
   exists s d, rd_bytes buf (p_data p + 8) 16 = Ok s /\
     rd_bytes buf (p_data p + 24) 16 = Ok d /\ p_data p + 40 <= blen /\
     ((exists e, o = inl (Ok (e, ipv6_addrs p s d)) /\ (e = -1 \/ e = 0)) \/
      exists tail data proto, p_data p + 40 <= data /\ is_u8 proto /\
        (data <= p_tail p -> tail <= p_tail p) /\
        o = inr (proto, ipv6_next p tail data s d proto))).
Proof.
  intros Hb H0. unfold steps_to, nfe_input_ipv6.
  destruct (u32 _ <? 40); [exists (inl (Ok (-1, p))); by split; [|right; left]|].
  destruct (rd_bytes_dec (p_data p + 8) 16) as [(s & -> & _)| ->]; [lia| |ends_oob]. cbind.
  destruct (rd_bytes_dec (p_data p + 24) 16) as [(d & -> & Hd)| ->]; [lia| |ends_oob]. cbind.
  destruct (rd8_dec (p_data p + 6)) as [(first & E1 & _)|[-> _]]; [|ends_oob].
  rewrite E1. cbind.
  destruct (ipv6_loop_cases (S (length buf)) (p_data p) first (u32 (remaining p)) first 40)
    as [->|[->|(nhdr & off & -> & Ho & Hn)]]; [done|done|lia| |lia|..]; cbind.
  { eapply rd8_u8; [|exact E1]. apply Hb. }
  { ends_oob. }
  { exists (inl (Ok (-1, ipv6_addrs p s d))). split; [done|]. right; right.
    exists s, d. split_and!; [done|done|lia|]. left. exists (-1). auto. }
  destruct ((nhdr =? NEXTHDR_FRAGMENT) || (nhdr =? NEXTHDR_NONE)).
  { exists (inl (Ok (0, ipv6_addrs p s d))). split; [done|]. right; right.
    exists s, d. split_and!; [done|done|lia|]. left. exists 0. auto. }
  eexists (inr (_, _)). split; [done|]. right; right.
  exists s, d. split_and!; [done|done|lia|]. right.
  eexists _, (p_data p + off), nhdr. split_and!; [lia|done| |reflexivity].
  cbn. intros Hdt. unfold nfe_min, remaining. cbn.
  pose proof (u32_mod_le (p_tail p - (p_data p + off)) ltac:(lia)).
  destruct (_ <? _) eqn:E; zbool; lia.
Qed.

Lemma gre_sre_loop_cases n p off :
  bytes_ok buf -> 0 <= p_data p -> 4 <= off ->
  Z.max 0 (blen - (p_data p + off)) < Z.of_nat n ->
  gre_sre_loop n p off = Err FOob \/ gre_sre_loop n p off = Ok None \/
  exists off', gre_sre_loop n p off = Ok (Some off') /\ 4 <= off'.
Proof.
  intros Hb H0. revert off. induction n as [|n IH]; intros off Ho Hn; [lia|].
  cbn [gre_sre_loop]. destruct (p_tail p <? _); [by right; left|].
  destruct (rd8_dec (p_data p + off + 3)) as [(len & E & Hr)|[-> _]]; [|by left].
  rewrite E. cbind. apply rd8_u8 in E; [|done]. unfold is_u8 in E.
  destruct (Z.eqb_spec len 0); [right; right; by exists off|].
  destruct (IH (off + len)) as [->|[->|(o' & -> & ?)]];
    [lia|lia|by left|by right; left|right; right; by exists o'].
Qed.

Lemma gre_step p : bytes_ok buf -> 0 <= p_data p -> exists o, steps_to nfe_proto_gre p o /\
  (o = inl (Err FOob) \/ (exists e, o = inl (Ok (e, p)) /\ (e = 0 \/ e = -1)) \/
   exists type off, 4 <= off /\ p_data p + 4 <= blen /\
     o = inr (type, set_data (p_data p + off) p)).
Proof.
  intros Hb H0. unfold steps_to, nfe_proto_gre. rewrite Z.add_0_r.
  destruct (size_t _ <? 4); [exists (inl (Ok (-1, p))); split; [done|right; left; eauto]|].
  destruct (read16_dec (p_data p)) as [(flag & -> & _)| ->]; [lia| |ends_oob]. cbind.
  destruct (read16_dec (p_data p + 2)) as [(type & -> & Ht)| ->]; [lia| |ends_oob]. cbind.
  destruct (negb (Z.land flag 3 =? 0));
    [exists (inl (Ok (0, p))); split; [done|right; left; eauto]|].
  assert (4 <= gre_offset flag) as Hg
    by (unfold gre_offset; repeat case_match; lia).
  assert (forall off, 4 <= off -> exists o,
    (forall k : Z -> handler, k type (set_data (p_data p + off) p) =
       match o with inl r => r | inr (t, q) => k t q end) /\
    (o = inl (Err FOob) \/ (exists e, o = inl (Ok (e, p)) /\ (e = 0 \/ e = -1)) \/
     exists type off, 4 <= off /\ p_data p + 4 <= blen /\
       o = inr (type, set_data (p_data p + off) p))) as Hk.
  { intros off Ho. exists (inr (type, set_data (p_data p + off) p)). split; [done|].
    right; right. exists type, off. split_and!; [lia|lia|done]. }
  destruct (negb (Z.land flag 0x4000 =? 0)); cbind; [|by apply Hk].
  destruct (gre_sre_loop_cases (S (length buf)) p (gre_offset flag))
    as [->|[->|(off & -> & Ho)]]; [done|lia|done|lia|..]; cbind.
  - ends_oob.
  - exists (inl (Ok (-1, p))). split; [done|right; left; eauto].
  - by apply Hk.
Qed.

(** ** What every parse guarantees *)

(** The result of handing [p] off: a return code of 0 or -1 with a well-formed
    tuple, the fields the handlers never write kept, and for the protocols
    whose connection lookup reads the payload, [data <= tail]. *)
Definition parse_post (p : nfe_packet) (r : res (Z * nfe_packet)) : Prop :=
  match r with
  | Err f => f = FOob \/ f = FFuel
  | Ok (e, q) =>
      (e = 0 \/ e = -1) /\ tuple_ok (p_tuple q) /\
      p_head q = p_head p /\ p_timestamp q = p_timestamp p /\
      p_direction q = p_direction p /\ p_hash q = p_hash p /\
      (e = 0 -> p_next p = 0 -> p_next q ∈ [NEXT_LOOKUP_TCP; NEXT_LOOKUP_UDP] ->
       p_data q <= p_tail q /\ is_Some (p_prot q))
  end.

(** The frame: fields no handler writes. *)
Definition same_frame (p q : nfe_packet) : Prop :=
  p_head q = p_head p /\ p_timestamp q = p_timestamp p /\
  p_direction q = p_direction p /\ p_hash q = p_hash p /\ p_next q = p_next p.

Lemma parse_post_frame p q r : same_frame p q -> parse_post q r -> parse_post p r.
Proof.
  intros (F1 & F2 & F3 & F4 & F5). destruct r as [[e u]|f]; [|done]. cbn.
  rewrite F1, F2, F3, F4, F5. done.
Qed.

Lemma classify_frame m p : same_frame p (classify m p) /\
  p_tuple (classify m p) = p_tuple p /\ p_data (classify m p) = p_data p /\
  p_prot (classify m p) = p_prot p /\ p_tail (classify m p) = p_tail p.
Proof. unfold classify. by repeat case_match. Qed.

Lemma in4_canonical s : length s = 4%nat -> bytes_ok s ->
  addr_canonical NFE_AF_INET (ipaddr_copy_in4 s).
Proof.
  intros Hl Hs. split; [split|].
  - unfold ipaddr_copy_in4. by rewrite length_app, Hl.
  - apply Forall_app_2; [done|]. by apply (bool_decide_unpack _); vm_compute.
  - unfold ipaddr_copy_in4. cbn [domain_len]. change (domain_len NFE_AF_INET) with 4%nat.
    by rewrite drop_app_length'.
Qed.

Lemma in6_canonical s : length s = 16%nat -> bytes_ok s ->
  addr_canonical NFE_AF_INET6 (ipaddr_copy_in6 s).
Proof.
  intros Hl Hs. split; [by split|].
  change (domain_len NFE_AF_INET6) with 16%nat. unfold ipaddr_copy_in6.
  by rewrite drop_ge by lia.
Qed.

Lemma tuple_zero_ok : tuple_ok tuple_zero.
Proof. by apply (bool_decide_unpack _); vm_compute. Qed.

Lemma land_u16 x : is_u16 (Z.land x 0x0fff).
Proof.
  change 0x0fff with (Z.ones 12). rewrite Z.land_ones by lia.
  unfold is_u16. pose proof (Z.mod_pos_bound x (2 ^ 12)). lia.
Qed.

Lemma ipv4_next_ok p tail data s d proto :
  bytes_ok buf -> tuple_ok (p_tuple p) ->
  rd_bytes buf (p_data p + 12) 4 = Ok s -> rd_bytes buf (p_data p + 16) 4 = Ok d ->
  rd8 buf (p_data p + 9) = Ok proto ->
  tuple_ok (p_tuple (ipv4_next p tail data s d proto)).
Proof.
  intros Hb (_ & _ & P0 & P1 & _ & _ & V) Es Ed Ep. unfold ipv4_next.
  rewrite (proj1 (proj2 (classify_frame _ _))).
  apply rd_bytes_spec in Es as [Ls Bs]; [|done]. apply rd_bytes_spec in Ed as [Ld Bd]; [|done].
  apply rd8_u8 in Ep; [|done]. unfold tuple_ok; cbn.
  split_and!; auto using in4_canonical. by compute.
Qed.

Lemma ipv6_addrs_ok p s d :
  bytes_ok buf -> tuple_ok (p_tuple p) ->
  rd_bytes buf (p_data p + 8) 16 = Ok s -> rd_bytes buf (p_data p + 24) 16 = Ok d ->
  tuple_ok (p_tuple (ipv6_addrs p s d)).
Proof.
  intros Hb (_ & _ & P0 & P1 & Q & _ & V) Es Ed.
  apply rd_bytes_spec in Es as [Ls Bs]; [|done]. apply rd_bytes_spec in Ed as [Ld Bd]; [|done].
  unfold tuple_ok; cbn. split_and!; auto using in6_canonical. by compute.
Qed.

Lemma ld16_range off v : bytes_ok buf -> ld16_at buf off = Ok v -> is_u16 v.
Proof.
  intros Hb Hv. unfold ld16_at in Hv. inv_ok Hv. injection Hv as <-.
  apply rd_bytes_spec in E as [El Eb]; [|done].
  pose proof (ld_ne_range v0 Eb) as Hr. rewrite El in Hr. done.
Qed.

(** A handler that gives up or stops without touching the packet. *)
Lemma post_same p e : e = 0 \/ e = -1 -> tuple_ok (p_tuple p) -> parse_post p (Ok (e, p)).
Proof. intros He Ht. cbn. split_and!; try done. intros _ ->. set_solver. Qed.

Lemma post_next p n :
  tuple_ok (p_tuple p) -> n ∉ [NEXT_LOOKUP_TCP; NEXT_LOOKUP_UDP] ->
  parse_post p (Ok (0, set_next n p)).
Proof. intros Ht Hn. cbn. split_and!; auto; by intros. Qed.

Lemma next_eth_not : NEXT_BYPASS_ETH ∉ [NEXT_LOOKUP_TCP; NEXT_LOOKUP_UDP].
Proof. by apply (bool_decide_unpack _). Qed.

(** The leaf protocol handlers. *)
Lemma icmp_post p : tuple_ok (p_tuple p) -> parse_post p (nfe_proto_icmp p).
Proof.
  intros Ht. unfold nfe_proto_icmp. destruct (size_t _ <? 8); [by apply post_same; auto|].
  destruct (rd8_dec (p_data p)) as [(b & -> & _)|[-> _]]; [cbind|by left].
  destruct ((3 <=? b) && (b <=? 5)); apply post_next; set_solver.
Qed.

Lemma icmp6_post p : tuple_ok (p_tuple p) -> parse_post p (nfe_proto_icmp6 p).
Proof.
  intros Ht. unfold nfe_proto_icmp6.
  destruct (size_t _ <? 8); [by apply post_same; auto|]. apply post_next; set_solver.
Qed.

Lemma ld16_dec off : 0 <= off ->
  (exists v, ld16_at buf off = Ok v) \/ ld16_at buf off = Err FOob.
Proof.
  intros H0. unfold ld16_at.
  destruct (rd_bytes_dec off 2 H0) as [(bs & -> & _)| ->]; cbind; eauto.
Qed.

Lemma set_ports_ok p off0 off1 s d :
  bytes_ok buf -> tuple_ok (p_tuple p) -> ld16_at buf off0 = Ok s -> ld16_at buf off1 = Ok d ->
  tuple_ok (set_ports s d (p_tuple p)).
Proof.
  intros Hb (A0 & A1 & _ & _ & Hr) Es Ed.
  unfold tuple_ok; cbn. split_and!; eauto using ld16_range; naive_solver.
Qed.

Lemma tcp_post p :
  bytes_ok buf -> tuple_ok (p_tuple p) -> 0 <= p_data p -> p_prot p = Some (p_data p) ->
  parse_post p (nfe_proto_tcp p).
Proof.
  intros Hb Ht H0 Hp. unfold nfe_proto_tcp.
  rewrite Hp, bool_decide_eq_true_2 by done. cbind.
  destruct (rd8_dec (p_data p + 12)) as [(b & -> & _)|[-> _]]; cbn [c_assert]; cbind; [|by left].
  destruct (remaining p <? th_len b) eqn:El; [by apply post_same; auto|].
  destruct (ld16_dec (p_data p + 0)) as [(s & Es)|E]; [lia|rewrite Es|rewrite E; by left].
  cbind.
  destruct (ld16_dec (p_data p + 2)) as [(d & Ed)|E]; [lia|rewrite Ed|rewrite E; by left].
  cbn. split_and!; eauto using set_ports_ok. intros _ _ _.
  split; [unfold remaining in El; zbool; lia|by rewrite Hp].
Qed.

Lemma udp_post p :
  bytes_ok buf -> tuple_ok (p_tuple p) -> 0 <= p_data p -> p_prot p = Some (p_data p) ->
  parse_post p (nfe_proto_udp p).
Proof.
  intros Hb Ht H0 Hp. unfold nfe_proto_udp.
  destruct (remaining p <? 8) eqn:El; [by apply post_same; auto|].
  rewrite Hp, bool_decide_eq_true_2 by done. cbind. cbn [c_assert]. cbind.
  destruct (ld16_dec (p_data p + 0)) as [(s & Es)|E]; [lia|rewrite Es|rewrite E; by left].
  cbind.
  destruct (ld16_dec (p_data p + 2)) as [(d & Ed)|E]; [lia|rewrite Ed|rewrite E; by left].
  cbn. split_and!; eauto using set_ports_ok. intros _ _ _.
  split; [unfold remaining in El; zbool; lia|by rewrite Hp].
Qed.

Lemma nfe_min_nonneg x y : 0 <= x -> 0 <= y -> 0 <= nfe_min x y.
Proof. unfold nfe_min. destruct (x <? y); lia. Qed.

Lemma ipv4_next_facts p tail data s d proto :
  same_frame p (ipv4_next p tail data s d proto) /\
  p_data (ipv4_next p tail data s d proto) = data /\
  p_prot (ipv4_next p tail data s d proto) = Some data /\
  p_tail (ipv4_next p tail data s d proto) = tail.
Proof. unfold ipv4_next, classify. by repeat case_match. Qed.

Lemma ipv6_next_facts p tail data s d proto :
  same_frame p (ipv6_next p tail data s d proto) /\
  p_data (ipv6_next p tail data s d proto) = data /\
  p_prot (ipv6_next p tail data s d proto) = Some data /\
  p_tuple (ipv6_next p tail data s d proto) =
    set_proto proto (p_tuple (ipv6_addrs p s d)).
Proof. unfold ipv6_next, classify. by repeat case_match. Qed.

Lemma ihl_nonneg data b : data <= data + Z.shiftl (Z.land b 0x0f) 2.
Proof.
  rewrite Z.shiftl_mul_pow2 by lia.
  assert (0 <= Z.land b 15) by (apply Z.land_nonneg; lia). lia.
Qed.

(** What the IP handlers need from the hand-off they are given. *)
Definition proto_post (k : Z -> handler) : Prop :=
  forall proto p, 0 <= p_data p -> tuple_ok (p_tuple p) -> p_prot p = Some (p_data p) ->
    parse_post p (k proto p).
Definition input_post (k : Z -> handler) : Prop :=
  forall type p, 0 <= p_data p -> tuple_ok (p_tuple p) -> parse_post p (k type p).

Lemma ipv4_post k p :
  buf_ok -> proto_post k -> 0 <= p_data p -> tuple_ok (p_tuple p) ->
  parse_post p (nfe_input_ipv4 k p).
Proof.
  intros [Hb _] Hk H0 Ht.
  destruct (ipv4_step p H0) as (o & -> & [->|[->|(len & ihl & s & d & proto & Hl & Ei & Ep & Es & Ed & ->)]]);
    [by left|by apply post_same; auto|].
  pose proof (ihl_nonneg (p_data p) ihl).
  eapply parse_post_frame; [apply ipv4_next_facts|]. apply Hk.
  - rewrite (proj1 (proj2 (ipv4_next_facts _ _ _ _ _ _))). lia.
  - by apply ipv4_next_ok.
  - by destruct (ipv4_next_facts p (p_data p + nfe_min len (u16 (remaining p)))
      (p_data p + Z.shiftl (Z.land ihl 0x0f) 2) s d proto) as (_ & -> & -> & _).
Qed.

Lemma ipv6_post k p :
  buf_ok -> proto_post k -> 0 <= p_data p -> tuple_ok (p_tuple p) ->
  parse_post p (nfe_input_ipv6 k p).
Proof.
  intros Hbuf Hk H0 Ht. pose proof (proj1 Hbuf) as Hb.
  destruct (ipv6_step p Hbuf H0) as (o & -> & [->|[->|(s & d & Es & Ed & Hl &
    [(e & -> & He)|(tail & data & proto & Hd & Hp & _ & ->)])]]);
    [by left|by apply post_same; auto|..].
  - eapply parse_post_frame; [|apply post_same; [tauto|by apply ipv6_addrs_ok]]. done.
  - destruct (ipv6_next_facts p tail data s d proto) as (Hf & E1 & E2 & E3).
    eapply parse_post_frame; [exact Hf|]. apply Hk; rewrite ?E1, ?E2, ?E3; [lia| |done].
    by destruct (ipv6_addrs_ok p s d) as (A0 & A1 & P0 & P1 & _ & D & V).
Qed.

Lemma vlan_post k p :
  input_post k -> 0 <= p_data p -> tuple_ok (p_tuple p) ->
  parse_post p (nfe_input_vlan k p).
Proof.
  intros Hk H0 Ht.
  destruct (vlan_step p H0) as (o & -> & [->|[(d & ->)|(d & tci & tpid & Hd & ->)]]).
  - by left.
  - eapply parse_post_frame; [|apply post_same; [by right|]]; done.
  - eapply parse_post_frame; [|apply Hk]; [done|cbn; lia|].
    destruct Ht as (A0 & A1 & P0 & P1 & Q & D & _).
    unfold tuple_ok; cbn. split_and!; try done. apply land_u16.
Qed.

Lemma gre_post k p :
  bytes_ok buf -> input_post k -> 0 <= p_data p -> tuple_ok (p_tuple p) ->
  parse_post p (nfe_proto_gre k p).
Proof.
  intros Hb Hk H0 Ht.
  destruct (gre_step p Hb H0) as (o & -> & [->|[(e & -> & He)|(ty & off & Ho & Hl & ->)]]).
  - by left.
  - by apply post_same.
  - eapply parse_post_frame; [|apply Hk]; [done|cbn; lia|done].
Qed.

Lemma eth_post p : tuple_ok (p_tuple p) -> parse_post p (nfe_input_eth p).
Proof.
  intros (A0 & A1 & P0 & P1 & _ & D & V). cbn. split; [by left|]. split.
  - unfold tuple_ok; cbn. by split_and!.
  - split_and!; try done. by intros _ _ Hn%next_eth_not.
Qed.

(** The two hand-offs keep the guarantee, for every amount of fuel. *)
Lemma handoff_post fuel :
  buf_ok -> input_post (nfe_input_handoff fuel) /\ proto_post (nfe_proto_handoff fuel).
Proof.
  intros Hbuf. pose proof (proj1 Hbuf) as Hb.
  induction fuel as [|f [IHi IHp]]; [split; intros ? *; by right|]. split.
  - intros type p H0 Ht. cbn [nfe_input_handoff]. repeat case_match.
    + by apply vlan_post.
    + by apply ipv4_post.
    + by apply ipv6_post.
    + by apply eth_post.
    + by apply post_next, next_eth_not.
  - intros proto p H0 Ht Hpr. cbn [nfe_proto_handoff]. repeat case_match.
    + by apply ipv4_post.
    + by apply tcp_post.
    + by apply udp_post.
    + by apply ipv6_post.
    + by apply gre_post.
    + by apply icmp_post.
    + by apply icmp6_post.
    + by apply post_same; auto.
Qed.

(** ** Fuel *)

(** At [off] there is an IPv4 header of length 0 that carries IPIP: handing it
    off restarts the IPv4 handler at the same place. *)
Definition ipip_loop_at (off : Z) : Prop :=
  exists b, rd8 buf off = Ok b /\ Z.land b 0x0f = 0 /\ rd8 buf (off + 9) = Ok IPPROTO_IPIP.

(** Bytes not parsed yet. *)
Definition unparsed (p : nfe_packet) : Z := Z.max 0 (blen - p_data p).

Definition not_fuel {A} (r : res A) : Prop := r <> Err FFuel.

Lemma ipv4_fuel k p :
  0 <= p_data p -> (forall off, ~ ipip_loop_at off) ->
  (forall proto q, 0 <= p_data q -> unparsed q <= unparsed p ->
     (proto = IPPROTO_IPIP -> unparsed q + 4 <= unparsed p) -> not_fuel (k proto q)) ->
  not_fuel (nfe_input_ipv4 k p).
Proof.
  intros H0 Hno Hk.
  destruct (ipv4_step p H0) as (o & -> & [->|[->|(len & ihl & s & d & proto & Hl & Ei & Ep & Es & Ed & ->)]]);
    [done|done|].
  pose proof (ihl_nonneg (p_data p) ihl) as Hih.
  apply Hk; unfold unparsed; rewrite (proj1 (proj2 (ipv4_next_facts _ _ _ _ _ _))); [lia|lia|].
  intros ->. rewrite Z.shiftl_mul_pow2 in * by lia.
  assert (Z.land ihl 15 <> 0) by (intros E; apply (Hno (p_data p)); by exists ihl). lia.
Qed.

Lemma ipv6_fuel k p :
  buf_ok -> 0 <= p_data p ->
  (forall proto q, 0 <= p_data q -> unparsed q + 4 <= unparsed p -> not_fuel (k proto q)) ->
  not_fuel (nfe_input_ipv6 k p).
Proof.
  intros Hbuf H0 Hk.
  destruct (ipv6_step p Hbuf H0) as (o & -> & [->|[->|(s & d & Es & Ed & Hl &
    [(e & -> & He)|(tail & data & proto & Hd & Hp & _ & ->)])]]); [done..|].
  apply Hk; unfold unparsed; rewrite (proj1 (proj2 (ipv6_next_facts _ _ _ _ _ _))); lia.
Qed.

(** The leaf handlers do not recurse: their only faults are reads and asserts. *)
Lemma leaf_fuel p : 0 <= p_data p ->
  not_fuel (nfe_proto_tcp p) /\ not_fuel (nfe_proto_udp p) /\ not_fuel (nfe_proto_icmp p) /\
  not_fuel (nfe_proto_icmp6 p).
Proof.
  intros H0. unfold nfe_proto_tcp, nfe_proto_udp, nfe_proto_icmp, nfe_proto_icmp6, c_assert.
  destruct (ld16_dec (p_data p + 0)) as [(s & ->)| ->]; [lia|..];
    (destruct (ld16_dec (p_data p + 2)) as [(d & ->)| ->]; [lia|..]);
    destruct (rd8_dec (p_data p + 12)) as [(b & -> & _)|[-> _]];
    destruct (rd8_dec (p_data p)) as [(c & -> & _)|[-> _]];
    split_and!; cbn; repeat case_match; done.
Qed.

Lemma handoff_fuel fuel :
  buf_ok -> (forall off, ~ ipip_loop_at off) ->
  (forall type p, 0 <= p_data p -> 2 * unparsed p + 3 <= Z.of_nat fuel ->
     not_fuel (nfe_input_handoff fuel type p)) /\
  (forall proto p, 0 <= p_data p ->
     2 * unparsed p + (if proto =? IPPROTO_IPIP then 2 else 1) <= Z.of_nat fuel ->
     not_fuel (nfe_proto_handoff fuel proto p)).
Proof.
  intros Hbuf Hno. pose proof (proj1 Hbuf) as Hb.
  assert (forall q, 0 <= unparsed q) as Hpos by (unfold unparsed; lia).
  induction fuel as [|f [IHi IHp]].
  { split; intros x p _ Hf; pose proof (Hpos p); repeat case_match; lia. }
  assert (forall proto : Z, (if proto =? IPPROTO_IPIP then 2 else 1) <= 2) as Hle
    by (intros; case_match; lia).
  split.
  - intros type p H0 Hf. cbn [nfe_input_handoff]. repeat case_match; [| | |done|done].
    + destruct (vlan_step p H0) as (o & -> & [->|[(d & ->)|(d & tci & tpid & Hd & ->)]]);
        [done..|]. apply IHi; unfold unparsed in *; cbn; lia.
    + apply ipv4_fuel; [done|done|]. intros proto q Hq Hu _. apply IHp; [done|].
      specialize (Hle proto). lia.
    + apply ipv6_fuel; [done|done|]. intros proto q Hq Hu. apply IHp; [done|].
      specialize (Hle proto). lia.
  - intros proto p H0 Hf. cbn [nfe_proto_handoff].
    destruct (proto =? IPPROTO_IPIP).
    { apply ipv4_fuel; [done|done|]. intros proto' q Hq Hu Hi. apply IHp; [done|].
      destruct (Z.eqb_spec proto' IPPROTO_IPIP); [specialize (Hi e)|]; lia. }
    destruct (leaf_fuel p H0) as (Ht & Hu & Hi & Hi6).
    repeat case_match; try done.
    + apply ipv6_fuel; [done|done|]. intros proto' q Hq Hqu. apply IHp; [done|].
      specialize (Hle proto'). lia.
    + destruct (gre_step p Hb H0) as (o & -> & [->|[(e & -> & He)|(ty & off & Ho & Hl & ->)]]);
        [done..|]. apply IHi; unfold unparsed in *; cbn; lia.
Qed.

(** More fuel does not change a result that did not run out of it. *)
Lemma handoff_mono fuel :
  buf_ok ->
  (forall type p, 0 <= p_data p -> not_fuel (nfe_input_handoff fuel type p) ->
     nfe_input_handoff (S fuel) type p = nfe_input_handoff fuel type p) /\
  (forall proto p, 0 <= p_data p -> not_fuel (nfe_proto_handoff fuel proto p) ->
     nfe_proto_handoff (S fuel) proto p = nfe_proto_handoff fuel proto p).
Proof.
  intros Hbuf. pose proof (proj1 Hbuf) as Hb.
  induction fuel as [|f [IHi IHp]]; [by split|].
  assert (forall p, 0 <= p_data p -> not_fuel (nfe_input_ipv4 (nfe_proto_handoff f) p) ->
    nfe_input_ipv4 (nfe_proto_handoff (S f)) p = nfe_input_ipv4 (nfe_proto_handoff f) p) as H4.
  { intros p H0. destruct (ipv4_step p H0) as (o & Hs & Ho). rewrite !Hs.
    destruct Ho as [->|[->|(len & ihl & s & d & proto & Hl & Ei & Ep & Es & Ed & ->)]];
      [done..|]. apply IHp.
    rewrite (proj1 (proj2 (ipv4_next_facts _ _ _ _ _ _))).
    pose proof (ihl_nonneg (p_data p) ihl). lia. }
  assert (forall p, 0 <= p_data p -> not_fuel (nfe_input_ipv6 (nfe_proto_handoff f) p) ->
    nfe_input_ipv6 (nfe_proto_handoff (S f)) p = nfe_input_ipv6 (nfe_proto_handoff f) p) as H6.
  { intros p H0. destruct (ipv6_step p Hbuf H0) as (o & Hs & Ho). rewrite !Hs.
    destruct Ho as [->|[->|(s & d & Es & Ed & Hl &
      [(e & -> & He)|(tail & data & proto & Hd & Hp & _ & ->)])]]; [done..|]. apply IHp.
    rewrite (proj1 (proj2 (ipv6_next_facts _ _ _ _ _ _))). lia. }
  split.
  - intros type p H0. cbn [nfe_input_handoff]. repeat case_match; try done; auto.
    destruct (vlan_step p H0) as (o & Hs & Ho). rewrite !Hs.
    destruct Ho as [->|[(d & ->)|(d & tci & tpid & Hd & ->)]]; [done..|].
    apply IHi. cbn. lia.
  - intros proto p H0. cbn [nfe_proto_handoff]. repeat case_match; try done; auto.
    destruct (gre_step p Hb H0) as (o & Hs & Ho). rewrite !Hs.
    destruct Ho as [->|[(e & -> & He)|(ty & off & Ho & Hl & ->)]]; [done..|].
    apply IHi. cbn. lia.
Qed.

(** ** The entry point *)
Lemma packet_ether_cases ethertype p : 0 <= p_data p ->
  packet_ether ethertype p = Err FOob \/
  exists ty type d, packet_ether ethertype p = Ok (ty, set_data d (set_type type p)) /\
    p_data p <= d.
Proof.
  intros H0. unfold packet_ether. destruct (ethertype =? 0).
  - destruct (rd8_dec (p_data p)) as [(b & -> & _)|[-> _]]; cbind; [|by left].
    destruct (read16_dec (p_data p + 12)) as [(ty & -> & _)| ->]; cbind; [lia| |by left].
    right. eexists _, _, _. split; [done|]. unfold ETH_HLEN. lia.
  - right. exists ethertype, (p_type p), (p_data p). split; [by destruct p|lia].
Qed.

Definition hash_post (data ts : Z) (r : res (Z * option nfe_packet)) : Prop :=
  match r with
  | Err f => f = FOob \/ f = FFuel
  | Ok (e, None) => False
  | Ok (e, Some q) =>
      (e = 0 \/ e = -1) /\ tuple_ok (p_tuple q) /\
      p_head q = data /\ p_timestamp q = ts /\ p_direction q = 0 /\
      p_hash q = (if e =? 0 then nfe_tuple_hash (p_tuple q) else 0) /\
      (e = 0 -> p_next q ∈ [NEXT_LOOKUP_TCP; NEXT_LOOKUP_UDP] ->
       p_data q <= p_tail q /\ is_Some (p_prot q))
  end.

Lemma packet_hash_post fuel p0 ethertype data len ts :
  buf_ok -> 0 <= data ->
  hash_post data ts (nfe_packet_hash fuel (Some p0) ethertype (Some data) len ts).
Proof.
  intros Hbuf H0. unfold hash_post, nfe_packet_hash. cbn [orb andb].
  change (default 0 (Some data)) with data.
  destruct (size_t _ <? ETH_HLEN).
  { cbn. split_and!; auto using tuple_zero_ok; lia. }
  destruct (packet_ether_cases ethertype (packet_init data len ts)) as
    [->|(ty & type & d & -> & Hd)]; [done|by left|]. cbind.
  pose proof (proj1 (handoff_post fuel Hbuf) ty
    (set_data d (set_type type (packet_init data len ts)))) as Hp.
  cbn in Hd. specialize (Hp ltac:(cbn; lia) tuple_zero_ok).
  destruct (nfe_input_handoff fuel ty _) as [[e q]|f]; cbind; [|done].
  destruct Hp as (He & Ht & F1 & F2 & F3 & F4 & Hn). cbn in F1, F2, F3, F4.
  destruct (e =? 0) eqn:E; cbn; rewrite E; by split_and!; auto.
Qed.

(** C29: Every call of [nfe_packet_hash] on a valid packet pointer and buffer
    ends with code 0 or -1 (or a read past the buffer): no assertion of the
    handlers fails; the tuple is always well formed (addresses canonical for
    their domain, ports, protocol and VLAN in range); on success the hash is
    that of the tuple; and a packet queued for the TCP or UDP lookup has
    [data <= tail] and a transport header. *)
Theorem nfe_packet_hash_post fuel p0 ethertype data len ts :
  buf_ok -> 0 <= data ->
  hash_post data ts (nfe_packet_hash fuel (Some p0) ethertype (Some data) len ts).
Proof. apply packet_hash_post. Qed.

(** C30: Parsing terminates: unless some offset of the buffer holds an IPv4
    header of length zero that carries IPIP, [2 * length buf + 3] nested
    hand-offs are enough, and more never change the result. *)
Theorem nfe_packet_hash_terminates fuel p0 ethertype data len ts :
  buf_ok -> 0 <= data -> (forall off, ~ ipip_loop_at off) ->
  (2 * length buf + 3 <= fuel)%nat ->
  nfe_packet_hash fuel p0 ethertype (Some data) len ts <> Err FFuel /\
  nfe_packet_hash fuel p0 ethertype (Some data) len ts =
  nfe_packet_hash (2 * length buf + 3) p0 ethertype (Some data) len ts.
Proof.
  intros Hbuf H0 Hno Hf. unfold nfe_packet_hash.
  change (default 0 (Some data)) with data.
  destruct (match p0 with None => true | _ => false end || _); [done|].
  destruct (size_t _ <? ETH_HLEN); [done|].
  destruct (packet_ether_cases ethertype (packet_init data len ts)) as
    [->|(ty & type & d & -> & Hd)]; [done|done|]. cbind. cbn in Hd.
  set (q := set_data d (set_type type (packet_init data len ts))).
  assert (0 <= p_data q) as Hq by (cbn; lia).
  assert (not_fuel (nfe_input_handoff (2 * length buf + 3) ty q)) as Hnf.
  { apply (proj1 (handoff_fuel _ Hbuf Hno)); [done|]. unfold unparsed. cbn. lia. }
  assert (nfe_input_handoff fuel ty q = nfe_input_handoff (2 * length buf + 3) ty q) as ->.
  { induction Hf as [|f Hf IH]; [done|]. rewrite <- IH.
    apply (proj1 (handoff_mono f Hbuf)); [done|]. by rewrite IH. }
  split; [|done]. destruct (nfe_input_handoff _ ty q) as [[e r]|f]; cbind.
  - by destruct (e =? 0).
  - intros [= ->]. by apply Hnf.
Qed.

(** The exception to termination is real: an IPv4 header with IHL 0 that carries
    IPIP is handed to the IPv4 handler again and again, without end. *)
Theorem ipip_zero_ihl_diverges fuel p b s d tot_len :
  20 <= remaining p < 2 ^ 16 -> rd8 buf (p_data p) = Ok b -> Z.land b 0x0f = 0 ->
  rd8 buf (p_data p + 9) = Ok IPPROTO_IPIP -> read16 buf (p_data p + 6) = Ok 0 ->
  read16 buf (p_data p + 2) = Ok tot_len -> 20 <= tot_len ->
  rd_bytes buf (p_data p + 12) 4 = Ok s -> rd_bytes buf (p_data p + 16) 4 = Ok d ->
  nfe_proto_handoff fuel IPPROTO_IPIP p = Err FFuel.
Proof.
  intros Hr Hb Hihl Hp Hf Hl Hlen Hs Hd. revert p Hr Hb Hp Hf Hl Hs Hd.
  induction fuel as [|f IH]; intros p Hr Hb Hp Hf Hl Hs Hd; [done|].
  cbn [nfe_proto_handoff]. unfold nfe_proto_ipv4, nfe_input_ipv4.
  rewrite size_t_lt_nonneg, (proj2 (Z.ltb_ge _ 20)) by lia.
  rewrite Hf. cbind. cbn [Z.land Z.eqb negb]. rewrite Hl. cbind.
  rewrite Hb, Hs, Hd, Hp. cbind. rewrite Hihl. cbn [p_tail p_data set_tail set_data].
  rewrite Z.shiftl_0_l, Z.add_0_r.
  change (IPPROTO_IPIP =? IPPROTO_IPIP) with true.
  change (Z.land 0 16383 =? 0) with true. cbn [negb].
  match goal with |- nfe_proto_handoff f _ (classify ?m ?u) = _ =>
    destruct (classify_frame m u) as (_ & _ & Ed & _ & Et); set (q := classify m u) in * end.
  cbn in Ed, Et. apply IH; rewrite ?Ed; try done.
  unfold remaining. rewrite Ed, Et. unfold nfe_min.
  rewrite u16_id by (unfold is_u16; lia). destruct (_ <? _) eqn:E; zbool; lia.
Qed.

End Packet.

(** ** UDP over IPv4, built and parsed back *)

(** An Ethernet frame: the two MAC addresses, a 20-byte IPv4 header, a UDP
    header and the payload. *)
Definition udp4_frame (macs saddr daddr sport dport payload : list Z) : list Z :=
  let tot_len := 28 + Z.of_nat (length payload) in
  macs ++ [0x08; 0x00] ++
  [0x45; 0; tot_len / 256; tot_len mod 256; 0; 0; 0x40; 0; 64; 17; 0; 0] ++
  saddr ++ daddr ++ sport ++ dport ++ [0; 0; 0; 0] ++ payload.

Definition frame_type (macs : list Z) : Z :=
  let b := nth 0 macs 0 in
  if negb (Z.land b 0x01 =? 0) then
    if b =? 0xff then NFE_PACKET_TYPE_BROADCAST else NFE_PACKET_TYPE_MULTICAST
  else NFE_PACKET_TYPE_HOST.

Lemma rd8_at buf off b :
  (0 <=? off) = true -> buf !! Z.to_nat off = Some b -> rd8 buf off = Ok b.
Proof.
  intros H0 Hb. zbool. apply lookup_lt_Some in Hb as Hl.
  destruct (rd8_Ok buf off) as (b' & -> & Hb'); [lia|]. congruence.
Qed.

Lemma read16_at buf off b0 b1 :
  (0 <=? off) = true -> take 2 (drop (Z.to_nat off) buf) = [b0; b1] ->
  read16 buf off = Ok (u16 (Z.lor (Z.shiftl b0 8) b1)).
Proof.
  intros H0 Hb. assert (buf !! Z.to_nat off = Some b0 /\ buf !! Z.to_nat (off + 1) = Some b1) as [E0 E1].
  { zbool. replace (Z.to_nat (off + 1)) with (Z.to_nat off + 1)%nat by lia.
    rewrite <- (Nat.add_0_r (Z.to_nat off)) at 1. rewrite <- !lookup_drop.
    rewrite <- (lookup_take_lt (drop _ buf) 2 0), <- (lookup_take_lt (drop _ buf) 2 1) by lia.
    by rewrite Hb. }
  unfold read16. rewrite (rd8_at _ _ _ H0 E0), (rd8_at _ (off + 1) b1); [done| |done].
  zbool. apply Z.leb_le. lia.
Qed.

Lemma rd_bytes_at buf off bs :
  (0 <=? off) = true -> take (length bs) (drop (Z.to_nat off) buf) = bs ->
  rd_bytes buf off (length bs) = Ok bs.
Proof.
  revert off. induction bs as [|b bs IH]; intros off H0 Hb; [done|]. cbn [length rd_bytes].
  zbool. destruct (drop (Z.to_nat off) buf) as [|b' l] eqn:E; [done|].
  injection Hb as -> Hb. rewrite (rd8_at buf off b); [|by apply Z.leb_le|].
  - cbn. rewrite IH; [done|apply Z.leb_le; lia|].
    replace (Z.to_nat (off + 1)) with (Z.to_nat off + 1)%nat by lia.
    by rewrite <- drop_drop, E.
  - rewrite <- (Nat.add_0_r (Z.to_nat off)), <- lookup_drop, E. done.
Qed.

Lemma combine_len x : 0 <= x < 2 ^ 16 -> u16 (Z.lor (Z.shiftl (x / 256) 8) (x mod 256)) = x.
Proof.
  intros Hx. change 256 with (2 ^ 8).
  rewrite <- (Z.land_ones x 8), <- (Z.shiftr_div_pow2 x 8) by lia.
  rewrite <- Z.ldiff_ones_r, Z.lor_ldiff_and by lia. by apply u16_id.
Qed.

Section RoundTrip.
Context `{HostEndian}.
#[local] Opaque nfe_tuple_hash.
(** The tuple the frame stands for. *)
Definition udp4_tuple (saddr daddr sport dport : list Z) : nfe_tuple :=
  mk_tuple (ipaddr_copy_in4 saddr) (ipaddr_copy_in4 daddr) (ld_ne sport) (ld_ne dport)
    IPPROTO_UDP NFE_AF_INET 0.

Variables macs saddr daddr sport dport payload : list Z.
Hypothesis Lmacs : length macs = 12%nat.
Hypothesis Lsaddr : length saddr = 4%nat.
Hypothesis Ldaddr : length daddr = 4%nat.
Hypothesis Lsport : length sport = 2%nat.
Hypothesis Ldport : length dport = 2%nat.
Hypothesis Lpayload : Z.of_nat (length payload) <= 65000.

(** The bytes of the frame the parser reads. *)
Lemma udp4_reads B : B = udp4_frame macs saddr daddr sport dport payload ->
  rd8 B 0 = Ok (nth 0 macs 0) /\ read16 B 12 = Ok ETH_P_IP /\
  rd8 B 14 = Ok 0x45 /\ read16 B 16 = Ok (28 + Z.of_nat (length payload)) /\
  read16 B 20 = Ok 0x4000 /\ rd8 B 23 = Ok IPPROTO_UDP /\
  rd_bytes B 26 4 = Ok saddr /\ rd_bytes B 30 4 = Ok daddr /\
  ld16_at B 34 = Ok (ld_ne sport) /\ ld16_at B 36 = Ok (ld_ne dport).
Proof.
  intros ->.
  destruct macs as [|m0 [|m1 [|m2 [|m3 [|m4 [|m5 [|m6 [|m7 [|m8 [|m9 [|m10 [|m11 [|? ?]]]]]]]]]]]]];
    try discriminate Lmacs.
  destruct saddr as [|s0 [|s1 [|s2 [|s3 [|? ?]]]]]; try discriminate Lsaddr.
  destruct daddr as [|d0 [|d1 [|d2 [|d3 [|? ?]]]]]; try discriminate Ldaddr.
  destruct sport as [|h0 [|h1 [|? ?]]]; try discriminate Lsport.
  destruct dport as [|q0 [|q1 [|? ?]]]; try discriminate Ldport.
  set (B := udp4_frame _ _ _ _ _ _).
  assert (read16 B 16 = Ok (28 + Z.of_nat (length payload))) as Rlen
    by (rewrite (read16_at B 16 _ _ eq_refl eq_refl); f_equal; apply combine_len; lia).
  unfold ld16_at.
  rewrite (read16_at B 12 _ _ eq_refl eq_refl), (read16_at B 20 _ _ eq_refl eq_refl),
    (rd8_at B 0 _ eq_refl eq_refl), (rd8_at B 14 _ eq_refl eq_refl),
    (rd8_at B 23 _ eq_refl eq_refl).
  rewrite (rd_bytes_at B 26 [s0; s1; s2; s3] eq_refl eq_refl : rd_bytes B 26 4 = _),
    (rd_bytes_at B 30 [d0; d1; d2; d3] eq_refl eq_refl : rd_bytes B 30 4 = _),
    (rd_bytes_at B 34 [h0; h1] eq_refl eq_refl : rd_bytes B 34 2 = _),
    (rd_bytes_at B 36 [q0; q1] eq_refl eq_refl : rd_bytes B 36 2 = _).
  by split_and!.
Qed.

Lemma udp4_parse fuel p0 ts :
  nfe_packet_hash (udp4_frame macs saddr daddr sport dport payload) (S (S fuel)) (Some p0) 0
    (Some 0) (42 + Z.of_nat (length payload)) ts =
  Ok (0, Some (mk_packet (udp4_tuple saddr daddr sport dport) ts 0 (frame_type macs) NEXT_LOOKUP_UDP
    (nfe_tuple_hash (udp4_tuple saddr daddr sport dport)) 0 (42 + Z.of_nat (length payload)) 42 (Some 34))).
Proof.
  set (B := udp4_frame _ _ _ _ _ _). set (n := Z.of_nat (length payload)) in *.
  destruct (udp4_reads B eq_refl) as (R0 & Rty & Rih & Rlen & Rfr & Rpr & Rs & Rd & Rsp & Rdp).
  fold n in Rlen. assert (0 <= n) as Hn by (unfold n; lia). clearbody B.
  unfold nfe_packet_hash, packet_init, remaining.
  generalize nfe_tuple_hash as hash. intros hash. change (default 0 (Some 0)) with 0.
  cbn [orb andb p_tail p_data].
  rewrite size_t_lt_nonneg by lia. unfold ETH_HLEN.
  rewrite (proj2 (Z.ltb_ge _ _)) by lia.
  unfold packet_ether. cbn [p_data Z.eqb Z.add]. rewrite R0. cbn [mbind res_bind].
  change (0 + 12) with 12. rewrite Rty. cbn [mbind res_bind]. cbn [nfe_input_handoff].
  change (ETH_P_IP =? ETH_P_8021Q) with false. change (ETH_P_IP =? ETH_P_IP) with true. cbv iota.
  unfold nfe_input_ipv4, remaining. cbn [p_tail p_data set_data set_type].
  unfold ETH_HLEN. change (0 + 14) with 14.
  rewrite size_t_lt_nonneg, (proj2 (Z.ltb_ge _ _)) by lia.
  change (14 + 6) with 20. rewrite Rfr. cbn [mbind res_bind]. change (Z.land 0x4000 0x3fff =? 0) with true. cbn [negb].
  change (14 + 2) with 16. change (14 + 12) with 26. change (14 + 16) with 30. change (14 + 9) with 23.
  rewrite Rlen, Rih, Rs, Rd, Rpr. cbn [mbind res_bind].
  cbn [p_tail p_data p_prot p_tuple set_tuple set_prot set_data set_type set_tail].
  change (14 + Z.shiftl (Z.land 0x45 0x0f) 2) with 34.
  rewrite u16_id by (unfold is_u16; lia). unfold nfe_min.
  rewrite (proj2 (Z.ltb_ge _ _)) by lia.
  cbn [nfe_proto_handoff].
  change (IPPROTO_UDP =? IPPROTO_IPIP) with false. change (IPPROTO_UDP =? IPPROTO_TCP) with false.
  change (IPPROTO_UDP =? IPPROTO_UDP) with true. cbv iota.
  unfold classify. cbn [p_type set_tuple set_prot set_data set_type set_tail].
  fold (frame_type macs).
  set (ft := frame_type _).
  assert ((ft =? NFE_PACKET_TYPE_UNKNOWN) = false) as ->
    by (unfold ft, frame_type; by repeat case_match).
  unfold nfe_proto_udp, remaining. cbn [p_tail p_data p_prot p_tuple set_tuple set_prot set_data set_type set_tail].
  rewrite (proj2 (Z.ltb_ge _ _)) by lia. rewrite bool_decide_eq_true_2 by done.
  change (34 + 0) with 34. change (34 + 2) with 36.
  cbn [c_assert mbind res_bind]. rewrite Rsp, Rdp. cbn [mbind res_bind].
  change (0 =? 0) with true. cbv iota.
  cbn [set_hash set_next p_timestamp p_direction p_next p_hash p_head p_type
    p_tail p_data p_prot p_tuple set_tuple set_prot set_data set_type set_tail].
  change (34 + 8) with 42.
  replace (14 + (0 + (42 + n) - 14)) with (42 + n) by lia. reflexivity.
Qed.

(** A UDP datagram framed over IPv4 and Ethernet is parsed back to the
    tuple it was built from: addresses, ports, protocol and domain are those
    of the frame, the payload lies between [data] and [tail], the packet is
    classified by its destination MAC and queued for the UDP lookup. *)
Theorem udp4_roundtrip fuel p0 ts :
  nfe_packet_hash (udp4_frame macs saddr daddr sport dport payload) (S (S fuel)) (Some p0) 0
    (Some 0) (42 + Z.of_nat (length payload)) ts =
  Ok (0, Some (mk_packet (udp4_tuple saddr daddr sport dport) ts 0 (frame_type macs) NEXT_LOOKUP_UDP
    (nfe_tuple_hash (udp4_tuple saddr daddr sport dport)) 0 (42 + Z.of_nat (length payload)) 42 (Some 34))).
Proof. apply udp4_parse. Qed.
End RoundTrip.

(** ** The two directions of a flow *)

(** The hash of a parsed frame; -1 when parsing fails. *)
Definition frame_hash `{HostEndian} (buf : list Z) : Z :=
  match nfe_packet_hash buf 2 (Some (packet_init 0 0 0)) 0 (Some 0) (Z.of_nat (length buf)) 0 with
  | Ok (0, Some q) => p_hash q
  | _ => -1
  end.

Lemma length_udp4_frame macs saddr daddr sport dport payload :
  length macs = 12%nat -> length saddr = 4%nat -> length daddr = 4%nat ->
  length sport = 2%nat -> length dport = 2%nat ->
  Z.of_nat (length (udp4_frame macs saddr daddr sport dport payload)) =
  42 + Z.of_nat (length payload).
Proof.
  intros H1 H2 H3 H4 H5. unfold udp4_frame.
  rewrite !length_app, H1, H2, H3, H4, H5. cbn [length]. lia.
Qed.

Lemma udp4_tuple_ok `{HostEndian} saddr daddr sport dport :
  length saddr = 4%nat -> length daddr = 4%nat -> length sport = 2%nat -> length dport = 2%nat ->
  bytes_ok saddr -> bytes_ok daddr -> bytes_ok sport -> bytes_ok dport ->
  tuple_ok (udp4_tuple saddr daddr sport dport).
Proof.
  intros L1 L2 L3 L4 B1 B2 B3 B4. unfold tuple_ok, udp4_tuple; cbn.
  pose proof (ld_ne_range sport B3) as R3. pose proof (ld_ne_range dport B4) as R4.
  rewrite L3 in R3. rewrite L4 in R4.
  split_and!; auto using in4_canonical; by compute.
Qed.

(** The two directions of a UDP conversation over IPv4 (addresses and
    ports swapped, any MAC addresses and payloads) get the same hash, so both
    select the same bucket of the connection table. *)
Theorem udp4_directions_same_hash `{HostEndian} macs macs' saddr daddr sport dport pl pl' :
  length macs = 12%nat -> length macs' = 12%nat ->
  length saddr = 4%nat -> length daddr = 4%nat -> length sport = 2%nat -> length dport = 2%nat ->
  bytes_ok saddr -> bytes_ok daddr -> bytes_ok sport -> bytes_ok dport ->
  Z.of_nat (length pl) <= 65000 -> Z.of_nat (length pl') <= 65000 ->
  frame_hash (udp4_frame macs saddr daddr sport dport pl) =
  frame_hash (udp4_frame macs' daddr saddr dport sport pl').
Proof.
  intros M1 M2 L1 L2 L3 L4 B1 B2 B3 B4 P1 P2. unfold frame_hash.
  rewrite !length_udp4_frame, !udp4_parse by done. cbn [p_hash].
  symmetry. change (udp4_tuple daddr saddr dport sport)
    with (nfe_tuple_copy (udp4_tuple saddr daddr sport dport) true).
  by apply hash_invert, udp4_tuple_ok.
Qed.

(** ** Where the length guards fail *)
Section Guards.
Context `{HostEndian}.
Variable buf : list Z.

(** After an IPv4 header whose length field moves [data] past
    [tail], the guards of the ICMP and GRE handlers compare a negative
    difference cast to [size_t], pass, and the handlers read past the buffer. *)
Theorem negative_length_passes_guard k p :
  - 2 ^ 32 <= remaining p < 0 -> Z.of_nat (length buf) <= p_data p ->
  nfe_proto_icmp buf p = Err FOob /\ nfe_proto_gre buf k p = Err FOob.
Proof.
  intros Hr Hd. unfold nfe_proto_icmp, nfe_proto_gre, read16.
  rewrite !size_t_lt_neg, Z.add_0_r, rd8_oob by lia. done.
Qed.

(** The TCP handler reads the data offset of the header before it
    checks that the header was captured: on a segment of fewer than 13 bytes
    at the end of the buffer it reads past the end. *)
Theorem tcp_short_segment_reads_oob p :
  p_prot p = Some (p_data p) -> Z.of_nat (length buf) <= p_data p + 12 ->
  nfe_proto_tcp buf p = Err FOob.
Proof.
  intros Hp Hd. unfold nfe_proto_tcp. rewrite Hp, bool_decide_eq_true_2 by done.
  cbn [c_assert mbind res_bind]. rewrite rd8_oob by lia. done.
Qed.

(** In contrast the UDP handler never reads outside the captured bytes. *)
Lemma udp_in_bounds p :
  0 <= p_data p -> p_tail p <= Z.of_nat (length buf) -> p_prot p = Some (p_data p) ->
  no_fault (nfe_proto_udp buf p).
Proof.
  intros H0 Ht Hp. unfold nfe_proto_udp, remaining, no_fault.
  destruct (_ <? 8) eqn:E; [by eexists|]. zbool.
  rewrite Hp, bool_decide_eq_true_2 by done. cbn [c_assert mbind res_bind]. unfold ld16_at.
  destruct (rd_bytes_Ok buf (p_data p + 0) 2) as (s & ->); [lia|lia|].
  destruct (rd_bytes_Ok buf (p_data p + 2) 2) as (d & ->); [lia|lia|].
  by eexists.
Qed.
End Guards.

(** ** Samples and witnesses *)
Definition little_endian : HostEndian := false.

Definition sample_macs : list Z := [2; 0; 0; 0; 0; 1; 2; 0; 0; 0; 0; 2].
Definition sample_udp : list Z :=
  udp4_frame sample_macs [192; 168; 1; 10] [8; 8; 8; 8] [0xc0; 0x01] [0; 53] [1; 2; 3].

Lemma nfe_packet_hash_post_witness :
  @hash_post little_endian 0 7
    (@nfe_packet_hash little_endian sample_udp 5 (Some (packet_init 0 0 0)) 0 (Some 0) 45 7).
Proof.
  apply nfe_packet_hash_post; [split|]; [|cbn; lia|lia].
  apply (bool_decide_unpack _); by vm_compute.
Defined.

(** A frame with two VLAN tags around an IPv4 packet that carries another one (IPIP)
    with a UDP datagram. *)
Definition sample_tunnel : list Z :=
  sample_macs ++ [0x81; 0; 0; 5; 0x81; 0; 0; 6; 8; 0] ++
  [0x45; 0; 0; 51; 0; 0; 0x40; 0; 64; 4; 0; 0; 10; 0; 0; 1; 10; 0; 0; 2] ++
  [0x45; 0; 0; 31; 0; 0; 0x40; 0; 64; 17; 0; 0; 192; 168; 1; 10; 8; 8; 8; 8] ++
  [0xc0; 1; 0; 53; 0; 11; 0; 0; 1; 2; 3].

(** Whether the byte at [i] has a low nibble of 0 and the one nine bytes on is IPIP's. *)
Definition loop_byte (l : list Z) (i : nat) : bool :=
  match l !! i, l !! (i + 9)%nat with
  | Some b, Some c => (Z.land b 0x0f =? 0) && (c =? IPPROTO_IPIP)
  | _, _ => false
  end.
Lemma no_loop_bytes l : forallb (fun i => negb (loop_byte l i)) (seq 0 (length l)) = true ->
  forall off, ~ ipip_loop_at l off.
Proof.
  intros Hf off (b & Hb & Hn & Hp). apply rd8_Ok_inv in Hb as [H0 Hb], Hp as [_ Hp].
  rewrite forallb_forall in Hf. specialize (Hf (Z.to_nat off)).
  replace (Z.to_nat (off + 9)) with (Z.to_nat off + 9)%nat in Hp by lia.
  unfold loop_byte in Hf. rewrite Hb, Hp, Hn in Hf. discriminate Hf.
  apply in_seq. apply lookup_lt_Some in Hb. lia.
Qed.

(** The walk over the tags and both hand-offs are within the bound, and the flow found is that of
    the inner packet. *)
Lemma nfe_packet_hash_terminates_witness :
  (@nfe_packet_hash little_endian sample_tunnel 200 (Some (packet_init 0 0 0)) 0 (Some 0) 73 7 <> Err FFuel /\
   @nfe_packet_hash little_endian sample_tunnel 200 (Some (packet_init 0 0 0)) 0 (Some 0) 73 7 =
   @nfe_packet_hash little_endian sample_tunnel (2 * length sample_tunnel + 3) (Some (packet_init 0 0 0)) 0 (Some 0) 73 7) /\
  match @nfe_packet_hash little_endian sample_tunnel 200 (Some (packet_init 0 0 0)) 0 (Some 0) 73 7 with
  | Ok (err, Some p) => err = 0 /\ p_data p = 70 /\ p_next p = NEXT_LOOKUP_UDP
  | _ => False
  end.
Proof.
  split; [|vm_compute; done].
  apply nfe_packet_hash_terminates; [|lia|apply no_loop_bytes; by vm_compute|cbn; lia].
  split; [|cbn; lia]. apply (bool_decide_unpack _); by vm_compute.
Defined.

(** An Ethernet frame whose IPv4 header has IHL 0 and protocol 4. *)
Definition sample_ipip_loop : list Z :=
  sample_macs ++ [8; 0] ++ [0x40; 0; 0; 20; 0; 0; 0; 0; 64; 4; 0; 0; 1; 2; 3; 4; 5; 6; 7; 8].

Lemma ipip_zero_ihl_diverges_witness :
  @nfe_proto_handoff little_endian sample_ipip_loop 1000 IPPROTO_IPIP
    (set_data 14 (packet_init 0 34 0)) = Err FFuel.
Proof.
  apply (ipip_zero_ihl_diverges sample_ipip_loop 1000 _ 0x40 [1; 2; 3; 4] [5; 6; 7; 8] 20);
    first [reflexivity | unfold remaining; cbn; lia].
Defined.

Lemma udp4_roundtrip_witness :
  @nfe_packet_hash little_endian sample_udp 2 (Some (packet_init 0 0 0)) 0 (Some 0) (42 + 3) 9 =
  Ok (0, Some (mk_packet
    (@udp4_tuple little_endian [192; 168; 1; 10] [8; 8; 8; 8] [0xc0; 0x01] [0; 53]) 9 0
    NFE_PACKET_TYPE_HOST NEXT_LOOKUP_UDP
    (@nfe_tuple_hash little_endian
      (@udp4_tuple little_endian [192; 168; 1; 10] [8; 8; 8; 8] [0xc0; 0x01] [0; 53]))
    0 (42 + 3) 42 (Some 34))).
Proof.
  apply (@udp4_roundtrip little_endian sample_macs [192; 168; 1; 10] [8; 8; 8; 8]
    [0xc0; 0x01] [0; 53] [1; 2; 3]); reflexivity || (cbn; lia).
Defined.

Lemma udp4_directions_same_hash_witness :
  @frame_hash little_endian sample_udp =
  @frame_hash little_endian
    (udp4_frame (drop 6 sample_macs ++ take 6 sample_macs) [8; 8; 8; 8] [192; 168; 1; 10]
       [0; 53] [0xc0; 0x01] []).
Proof.
  apply (@udp4_directions_same_hash little_endian);
    try reflexivity; try (cbn; lia); apply (bool_decide_unpack _); by vm_compute.
Defined.

(** A captured frame of 34 bytes whose IPv4 header claims 60 bytes (IHL 15). *)
Lemma negative_length_passes_guard_witness :
  nfe_proto_icmp (replicate 34 0) (set_data 74 (packet_init 0 34 0)) = Err FOob /\
  nfe_proto_gre (replicate 34 0) (fun _ p => Ok (0, p)) (set_data 74 (packet_init 0 34 0))
  = Err FOob.
Proof. apply negative_length_passes_guard; unfold remaining; cbn; lia. Defined.

Lemma tcp_short_segment_reads_oob_witness :
  @nfe_proto_tcp little_endian (replicate 34 0)
    (set_prot (Some 34) (set_data 34 (packet_init 0 34 0))) = Err FOob.
Proof. apply tcp_short_segment_reads_oob; cbn; reflexivity || lia. Defined.

(** The frame of the witness through the whole parser: an IPv4 header with
    IHL 15 and protocol ICMP in a 34-byte capture. *)
Example icmp_ihl15_reads_oob :
  @nfe_packet_hash little_endian
    (sample_macs ++ [8; 0] ++ [0x4f; 0; 0; 20; 0; 0; 0; 0; 64; 1; 0; 0; 1; 2; 3; 4; 5; 6; 7; 8])
    5 (Some (packet_init 0 0 0)) 0 (Some 0) 34 0 = Err FOob.
Proof. vm_compute. reflexivity. Qed.

(** [tail] can leave the buffer.  With an outer IPv4 total length
    of zero, [tail - data] is negative when the inner IPIP header is parsed;
    cast to [uint16_t] it becomes large and [tail] is set from the inner
    header's total length: here the packet is accepted with [tail] 946 bytes
    past the end of the 68-byte capture. *)
Theorem ipip_tail_past_end :
  exists q, @nfe_packet_hash little_endian
    (sample_macs ++ [8; 0] ++
     [0x45; 0; 0; 0; 0; 0; 0; 0; 64; 4; 0; 0; 1; 2; 3; 4; 5; 6; 7; 8] ++
     [0x45; 0; 3; 0xd4; 0; 0; 0; 0; 64; 17; 0; 0; 1; 2; 3; 4; 5; 6; 7; 8] ++
     [0; 1; 0; 2; 0; 0; 0; 0; 0; 0; 0; 0; 0; 0])
    5 (Some (packet_init 0 0 0)) 0 (Some 0) 68 0 = Ok (0, Some q) /\
    p_next q = NEXT_LOOKUP_UDP /\ p_tail q = 68 + 946.
Proof. eexists. vm_compute. done. Qed.
