(* ===== verification/NfeConntrack.v ===== *)
(** * NfeConntrack: the connection table of the flow engine

    Models [lib/nfe/src/nfe_conntrack.c], [nfe_conn.c], [nfe_config.c] and the
    table management of [nfe.c]: hash buckets and LRU lists are intrusive
    lists over one store of nodes, connections live on a heap with a reference
    count.  Freed connections leave the heap and their nodes leave the store,
    so a use after free is the fault [FDangling]. *)
From S2P Require Import Prelude NfeTypes NfeJhash NfeFlow NfeList NfePacket.

(** ** Data *)

(** [struct nfe_tcp_half] and [struct nfe_tcp] ([nfe_tcp.h]) *)
Record nfe_tcp_half := mk_half {
  h_last_seq_time : Z; h_init_seq_sent : Z; h_last_seq_sent : Z; h_next_seq_sent : Z;
  h_last_ack_sent : Z; h_curr_seq_wrap : Z; h_packets : Z; h_flags : Z; h_mss : Z
}.
Record nfe_tcp := mk_tcp {
  tcp_half0 : nfe_tcp_half; tcp_half1 : nfe_tcp_half; tcp_state : Z; tcp_flags : Z
}.

Definition half_zero : nfe_tcp_half := mk_half 0 0 0 0 0 0 0 0 0.
Definition tcp_zero : nfe_tcp := mk_tcp half_zero half_zero 0 0.

(** [struct nfe_conn]; the list nodes live in the store of links, and the
    [udp] member of the union, which has no fields, is left out. *)
Record nfe_conn := mk_conn {
  c_tuple : nfe_tuple; c_tcp : nfe_tcp; c_lockref : Z; c_flags : Z; c_timestamp : Z
}.

Definition set_lockref n c := mk_conn (c_tuple c) (c_tcp c) n (c_flags c) (c_timestamp c).
Definition set_timestamp n c := mk_conn (c_tuple c) (c_tcp c) (c_lockref c) (c_flags c) n.
Definition set_tcp t c := mk_conn (c_tuple c) t (c_lockref c) (c_flags c) (c_timestamp c).

(** [struct nfe_conntrack] with the store of list nodes and the heap of
    connections it shares with its users. *)
Record conntrack := mk_ct {
  ct_size : Z; ct_expiry : list Z; ct_links : links; ct_conns : gmap conn_id nfe_conn
}.

Definition set_links L st := mk_ct (ct_size st) (ct_expiry st) L (ct_conns st).
Definition set_conns m st := mk_ct (ct_size st) (ct_expiry st) (ct_links st) m.
Definition set_expiry e st := mk_ct (ct_size st) e (ct_links st) (ct_conns st).

Definition NFE_ALLOC_POLICY_NONE := 0.
Definition NFE_ALLOC_POLICY_CREATE := 1.
Definition NFE_ALLOC_POLICY_INVERT := 2.

Definition LRU_PROTO_ICMP := 0%nat.
Definition LRU_PROTO_TCP_SYN := 1%nat.
Definition LRU_PROTO_TCP_EST := 2%nat.
Definition LRU_PROTO_UDP := 3%nat.
Definition LRU_PROTO_ETHER := 4%nat.
Definition LRU_PROTO_MAX := 5%nat.

Definition ENOMEM := 12.

(** The globals of [nfe_config.c]. *)
Record nfe_config := mk_config {
  cfg_tcp_midflow : Z; cfg_tcp_timeout_syn : Z; cfg_tcp_timeout_est : Z;
  cfg_udp_timeout : Z; cfg_icmp_timeout : Z; cfg_ether_timeout : Z
}.
Definition nfe_config_default : nfe_config := mk_config 0 60 3600 180 30 30.

(** ** Creation *)
Definition clp2 (n : Z) : Z :=
  let n := u32 (n - 1) in
  let n := Z.lor n (Z.shiftr n 1) in
  let n := Z.lor n (Z.shiftr n 2) in
  let n := Z.lor n (Z.shiftr n 4) in
  let n := Z.lor n (Z.shiftr n 8) in
  let n := Z.lor n (Z.shiftr n 16) in
  u32 (n + 1).

(** The [lru[i].expiry] of every list: [int] products stored in a [uint64_t]. *)
Definition lru_expiries (cfg : nfe_config) : list Z :=
  [u64 (cfg_icmp_timeout cfg * 1000); u64 (cfg_tcp_timeout_syn cfg * 1000);
   u64 (cfg_tcp_timeout_est cfg * 1000); u64 (cfg_udp_timeout cfg * 1000);
   u64 (cfg_ether_timeout cfg * 1000)].

Definition nfe_conntrack_update_timeouts (cfg : nfe_config) (ct : option conntrack)
    : Z * option conntrack :=
  match ct with
  | None => (- EINVAL, None)
  | Some st => (0, Some (set_expiry (lru_expiries cfg) st))
  end.

(** The heads that [nfe_conntrack_create] initialises. *)
Definition ct_heads (size : Z) : list lptr :=
  map LruHead (seq 0 LRU_PROTO_MAX) ++ map BucketHead (seqZ 0 size).

(** [nfe_conntrack_create(h, size)]; [alloc] says whether [nfe_ext_alloc]
    returns memory. *)
Definition nfe_conntrack_create (cfg : nfe_config) (h_null alloc : bool) (size : Z)
    : Z * option conntrack :=
  let size := clp2 size in
  if h_null || (size =? 0) then (- EINVAL, None)
  else if negb alloc then (- ENOMEM, None)
  else (0, Some (mk_ct (i32 size) (lru_expiries cfg)
                   (foldr (fun x L => nfe_list_init L x) ∅ (ct_heads size)) ∅)).

Section Conntrack.
Context `{HostEndian}.
(** [nfe_ext_conn_alloc]: an integration may replace it; it returns memory
    that is not in use, or NULL. *)
Variable ext_conn_alloc : gmap conn_id nfe_conn -> nfe_tuple -> option conn_id.

(** ** Connections *)
Definition nfe_conn_alloc (st : conntrack) (tuple : nfe_tuple) (invert : bool)
    : option conn_id * conntrack :=
  let conn_tuple := if invert then nfe_tuple_copy tuple true else tuple in
  match ext_conn_alloc (ct_conns st) conn_tuple with
  | None => (None, st)
  | Some c =>
      let L := nfe_list_init (nfe_list_init (ct_links st) (ConnList c)) (ConnLru c) in
      let conn := mk_conn (nfe_tuple_copy conn_tuple false) tcp_zero 0 0 0 in
      (Some c, set_conns (<[c := conn]> (ct_conns st)) (set_links L st))
  end.

Definition get_conn (st : conntrack) (c : conn_id) : res nfe_conn := deref (ct_conns st !! c).
Definition upd_conn (st : conntrack) (c : conn_id) (conn : nfe_conn) : conntrack :=
  set_conns (<[c := conn]> (ct_conns st)) st.

(** [nfe_conn_release(conn)]; [nfe_ext_conn_free] returns the connection and
    its two list nodes to the allocator. *)
Definition nfe_conn_release (st : conntrack) (conn : option conn_id) : res conntrack :=
  match conn with
  | None => Ok st
  | Some c =>
      conn ← get_conn st c;
      _ ← c_assert (1 <=? c_lockref conn);
      let n := u32 (c_lockref conn - 1) in
      let st := upd_conn st c (set_lockref n conn) in
      if n =? 0 then
        L ← nfe_list_remove (ct_links st) (ConnList c);
        L ← nfe_list_remove L (ConnLru c);
        Ok (set_conns (delete c (ct_conns st))
              (set_links (delete (ConnLru c) (delete (ConnList c) L)) st))
      else Ok st
  end.

(** ** Lookup *)
Definition bucket_of (st : conntrack) (hash : Z) : lptr :=
  BucketHead (Z.land hash (u32 (ct_size st - 1))).

(** The [nfe_list_for_each_entry] over the bucket, up to the first match. *)
Fixpoint bucket_walk (n : nat) (st : conntrack) (head p : lptr) (tuple : nfe_tuple)
    : res (option conn_id) :=
  match n with
  | O => Err FFuel
  | S n' =>
      if bool_decide (p = head) then Ok None else
      match p with
      | ConnList c =>
          conn ← get_conn st c;
          if nfe_tuple_equal (c_tuple conn) tuple then Ok (Some c) else
          p ← ld_next (ct_links st) p;
          bucket_walk n' st head p tuple
      | _ => Err FDangling
      end
  end.

(** [ct_lookup_hash]; the bucket it sets through [b] is [bucket_of st hash]. *)
Definition ct_lookup_hash (st : conntrack) (tuple : nfe_tuple) (hash : Z)
    : res (option conn_id * conntrack) :=
  let b := bucket_of st hash in
  p ← ld_next (ct_links st) b;
  r ← bucket_walk (S (size (ct_links st))) st b p tuple;
  match r with
  | None => Ok (None, st)
  | Some c =>
      conn ← get_conn st c;
      Ok (Some c, upd_conn st c (set_lockref (u32 (c_lockref conn + 1)) conn))
  end.

Definition nfe_conntrack_lookup_hash := ct_lookup_hash.

Definition nfe_conntrack_lookup (st : conntrack) (packet : nfe_packet) (alloc_policy : Z)
    : res (option conn_id * conntrack) :=
  '(conn, st) ← ct_lookup_hash st (p_tuple packet) (p_hash packet);
  match conn with
  | Some c => Ok (Some c, st)
  | None =>
      if alloc_policy =? NFE_ALLOC_POLICY_NONE then Ok (None, st) else
      match nfe_conn_alloc st (p_tuple packet) (alloc_policy =? NFE_ALLOC_POLICY_INVERT) with
      | (None, st) => Ok (None, st)
      | (Some c, st) =>
          L ← nfe_list_insert (ct_links st) (bucket_of st (p_hash packet)) (ConnList c);
          let st := set_links L st in
          conn ← get_conn st c;
          Ok (Some c, upd_conn st c (set_lockref (u32 (c_lockref conn + 1)) conn))
      end
  end.

(** ** LRU lists *)

(** The body of [nfe_conntrack_lru_expire] over
    [nfe_list_for_each_entry_safe(conn, tmp, &ct->lru[lru].list, lru)]. *)
Fixpoint expire_loop (n : nat) (st : conntrack) (lru : nat) (timestamp : Z) (ptr tmp : lptr)
    : res conntrack :=
  match n with
  | O => Err FFuel
  | S n' =>
      if bool_decide (ptr = LruHead lru) then Ok st else
      match ptr with
      | ConnLru c =>
          conn ← get_conn st c;
          _ ← c_assert (negb (c_lockref conn =? 0));
          if (timestamp <? c_timestamp conn) ||
             (u64 (timestamp - c_timestamp conn) <? nth lru (ct_expiry st) 0)
          then Ok st
          else
            st ← nfe_conn_release st (Some c);
            tmp' ← ld_next (ct_links st) tmp;
            expire_loop n' st lru timestamp tmp tmp'
      | _ => Err FDangling
      end
  end.

Definition nfe_conntrack_lru_expire (st : conntrack) (lru : nat) (timestamp : Z)
    : res conntrack :=
  ptr ← ld_next (ct_links st) (LruHead lru);
  tmp ← ld_next (ct_links st) ptr;
  expire_loop (S (size (ct_links st))) st lru timestamp ptr tmp.

Definition nfe_conntrack_lru_update (st : conntrack) (lru : nat) (c : conn_id)
    : res conntrack :=
  L ← nfe_list_remove (ct_links st) (ConnLru c);
  L ← nfe_list_insert L (LruHead lru) (ConnLru c);
  Ok (set_links L st).

(** ** Walks over all LRU lists *)
Fixpoint dump_loop (n : nat) (st : conntrack) (lru : nat) (ptr tmp : lptr)
    : res (list conn_id) :=
  match n with
  | O => Err FFuel
  | S n' =>
      if bool_decide (ptr = LruHead lru) then Ok [] else
      match ptr with
      | ConnLru c =>
          tmp' ← ld_next (ct_links st) tmp;
          cs ← dump_loop n' st lru tmp tmp';
          Ok (c :: cs)
      | _ => Err FDangling
      end
  end.

Definition dump_lru (st : conntrack) (lru : nat) : res (list conn_id) :=
  ptr ← ld_next (ct_links st) (LruHead lru);
  tmp ← ld_next (ct_links st) ptr;
  dump_loop (S (size (ct_links st))) st lru ptr tmp.

Fixpoint dump_from (k : nat) (st : conntrack) (lru : nat) : res (list conn_id) :=
  match k with
  | O => Ok []
  | S k' => cs ← dump_lru st lru; ds ← dump_from k' st (S lru); Ok (cs ++ ds)
  end.

(** [nfe_conntrack_dump(conntrack, cb, data)]: the connections the callback
    (which only reads them) is called on; the count returned is their number. *)
Definition nfe_conntrack_dump (ct : option conntrack) (cb_null : bool)
    : res (Z * list conn_id) :=
  match ct with
  | None => Ok (- EINVAL, [])
  | Some st =>
      if cb_null then Ok (- EINVAL, []) else
      cs ← dump_from LRU_PROTO_MAX st 0; Ok (Z.of_nat (length cs), cs)
  end.

Fixpoint destroy_loop (n : nat) (st : conntrack) (lru : nat) (ptr tmp : lptr) : res conntrack :=
  match n with
  | O => Err FFuel
  | S n' =>
      if bool_decide (ptr = LruHead lru) then Ok st else
      match ptr with
      | ConnLru c =>
          L ← nfe_list_remove (ct_links st) (ConnLru c);
          L ← nfe_list_remove L (ConnList c);
          st ← nfe_conn_release (set_links L st) (Some c);
          tmp' ← ld_next (ct_links st) tmp;
          destroy_loop n' st lru tmp tmp'
      | _ => Err FDangling
      end
  end.

Fixpoint destroy_from (k : nat) (st : conntrack) (lru : nat) : res conntrack :=
  match k with
  | O => Ok st
  | S k' =>
      ptr ← ld_next (ct_links st) (LruHead lru);
      tmp ← ld_next (ct_links st) ptr;
      st ← destroy_loop (S (size (ct_links st))) st lru ptr tmp;
      destroy_from k' st (S lru)
  end.

(** [nfe_conntrack_destroy]: the code and the heap left behind; the table
    itself is freed. *)
Definition nfe_conntrack_destroy (ct : option conntrack)
    : res (Z * gmap conn_id nfe_conn) :=
  match ct with
  | None => Ok (- EINVAL, ∅)
  | Some st => st ← destroy_from LRU_PROTO_MAX st 0; Ok (0, ct_conns st)
  end.


End Conntrack.

(** ** Rounding the table size up to a power of two *)

(** Bit [j] of [x] is set when [m] has a bit among [j .. j+w-1]. *)
Definition smeared (w m x : Z) : Prop :=
  forall j, 0 <= j -> Z.testbit x j = true <-> exists i, j <= i < j + w /\ Z.testbit m i = true.

Lemma smear_double w m x :
  0 < w -> smeared w m x -> smeared (2 * w) m (Z.lor x (Z.shiftr x w)).
Proof.
  intros Hw Hs j Hj. unfold smeared in Hs.
  rewrite Z.lor_spec, Z.shiftr_spec, orb_true_iff, (Hs j), (Hs (j + w)) by lia. split.
  - intros [(i & ? & ?)|(i & ? & ?)]; exists i; (split; [lia|done]).
  - intros (i & ? & ?). destruct (Z.lt_ge_cases i (j + w)); [left|right];
      exists i; (split; [lia|done]).
Qed.

Lemma smeared_ones m x :
  0 < m < 2 ^ 32 -> smeared 32 m x -> 0 <= x -> x = Z.ones (Z.succ (Z.log2 m)).
Proof.
  intros Hm Hs Hx. pose proof (Z.log2_nonneg m).
  assert (Z.log2 m < 32) by (apply Z.log2_lt_pow2; lia).
  apply Z.bits_inj'. intros j Hj. apply eq_true_iff_eq. rewrite (Hs j Hj).
  rewrite Z.testbit_ones_nonneg by lia. rewrite Z.ltb_lt. split.
  - intros (i & Hi & Hb). destruct (Z.lt_ge_cases (Z.log2 m) i); [|lia].
    rewrite Z.bits_above_log2 in Hb by lia. done.
  - intros Hl. exists (Z.log2 m). split; [lia|]. apply Z.bit_log2. lia.
Qed.

Lemma smear_nonneg x w : 0 <= x -> 0 <= Z.lor x (Z.shiftr x w).
Proof. intros Hx. apply Z.lor_nonneg. split; [done|]. by apply Z.shiftr_nonneg. Qed.

Lemma clp2_smear n :
  0 < u32 (n - 1) -> clp2 n = u32 (2 ^ Z.succ (Z.log2 (u32 (n - 1)))).
Proof.
  intros Hn. pose proof (u32_range (n - 1)) as Hm. unfold clp2. cbv zeta. set (m := u32 (n - 1)) in *.
  assert (smeared 1 m m) as H1.
  { intros j Hj. split; [intros Hb; exists j; split; [lia|done]|].
    intros (i & Hi & Hb). by replace j with i by lia. }
  apply smear_double in H1; [|lia]. apply smear_double in H1; [|lia].
  do 3 (apply smear_double in H1; [|lia]).
  apply smeared_ones in H1; [|unfold is_u32 in Hm; lia|].
  - change (2 * 1) with 2 in H1. change (2 * 2) with 4 in H1.
    change (2 * 4) with 8 in H1. change (2 * 8) with 16 in H1. rewrite H1, Z.ones_equiv. f_equal. lia.
  - do 5 apply smear_nonneg. lia.
Qed.

Lemma clp2_pow2 n : 1 <= n <= 2 ^ 31 ->
  exists k, 0 <= k <= 31 /\ clp2 n = 2 ^ k /\ n <= 2 ^ k /\ (1 < n -> 2 ^ k < 2 * n).
Proof.
  intros Hn. destruct (decide (n = 1)) as [->|Hne].
  { exists 0. split_and!; try lia. done. }
  rewrite clp2_smear; rewrite (u32_id (n - 1)) by (unfold is_u32; lia); [|lia].
  pose proof (Z.log2_spec (n - 1) ltac:(lia)) as [Hlo Hhi].
  pose proof (Z.log2_nonneg (n - 1)).
  assert (Z.log2 (n - 1) < 31) by (apply Z.log2_lt_pow2; lia).
  exists (Z.succ (Z.log2 (n - 1))). split; [lia|]. split; [|split; [lia|]].
  - apply u32_id. split; [apply Z.pow_nonneg; lia|]. apply Z.pow_lt_mono_r; lia.
  - rewrite Z.pow_succ_r by lia. lia.
Qed.

Lemma clp2_zero n : is_u32 n -> n = 0 \/ 2 ^ 31 < n -> clp2 n = 0.
Proof.
  unfold is_u32. intros Hr [->|Hn]; [done|].
  rewrite clp2_smear; rewrite (u32_id (n - 1)) by (unfold is_u32; lia); [|lia].
  assert (Z.log2 (n - 1) = 31) as -> by (apply Z.log2_unique; lia). done.
Qed.

(** ** The invariant of the table *)
Definition is_head (size : Z) (h : lptr) : Prop :=
  match h with
  | LruHead i => (i < LRU_PROTO_MAX)%nat
  | BucketHead i => 0 <= i < size
  | _ => False
  end.

(** The connection is in a bucket. *)
Definition linked (st : conntrack) (A : lptr -> list lptr) (c : conn_id) : Prop :=
  exists i, 0 <= i < ct_size st /\ ConnList c ∈ A (BucketHead i).

Definition drop_conn (A : lptr -> list lptr) (c : conn_id) : lptr -> list lptr :=
  lists_remove (lists_remove A (ConnList c)) (ConnLru c).

Lemma elem_lists_remove A x h y : y ∈ lists_remove A x h <-> y <> x /\ y ∈ A h.
Proof. unfold lists_remove. by rewrite list_elem_of_filter. Qed.

Lemma elem_drop_conn A c h y :
  y ∈ drop_conn A c h <-> y <> ConnList c /\ y <> ConnLru c /\ y ∈ A h.
Proof. unfold drop_conn. rewrite !elem_lists_remove. tauto. Qed.

Lemma linked_drop st A c d : linked st (drop_conn A c) d <-> linked st A d /\ d <> c.
Proof.
  unfold linked. setoid_rewrite elem_drop_conn. split.
  - intros (i & Hi & Hn & _ & Hin). split; [by exists i|congruence].
  - intros [(i & Hi & Hin) Hn]. exists i. split_and!; [lia|lia|congruence|done|done].
Qed.

Lemma elem_lists_insert A h x h' y :
  y ∈ lists_insert A h x h' <-> y ∈ A h' \/ (h' = h /\ y = x).
Proof. unfold lists_insert. case_decide; set_solver. Qed.

Lemma linked_insert st A c i d :
  0 <= i < ct_size st ->
  linked st (lists_insert A (BucketHead i) (ConnList c)) d <-> linked st A d \/ d = c.
Proof.
  intros Hi. unfold linked. setoid_rewrite elem_lists_insert. split.
  - intros (j & Hj & [?|[_ [= ->]]]); [left; by exists j|by right].
  - intros [(j & Hj & ?)| ->]; [by eauto|]. exists i. auto.
Qed.

Section Table.
Context `{HostEndian} (tuple_hash : nfe_tuple -> Z) `{!FlowHash tuple_hash}.

(** The table [st], with [A] listing the members of every list: a power of two
    of buckets; bucket lists hold connections whose hash selects that bucket;
    LRU lists hold connections of the table; no flow is in the table twice;
    connections of the table have a positive reference count. *)
Record ct_wf (st : conntrack) (A : lptr -> list lptr) : Prop := {
  cw_size : exists k, 0 <= k <= 30 /\ ct_size st = 2 ^ k;
  cw_expiry : length (ct_expiry st) = LRU_PROTO_MAX;
  cw_lists : lists_wf (ct_links st) (is_head (ct_size st)) A;
  cw_bucket : forall i x, 0 <= i < ct_size st -> x ∈ A (BucketHead i) -> exists c, x = ConnList c;
  cw_lru : forall i x, (i < LRU_PROTO_MAX)%nat -> x ∈ A (LruHead i) ->
    exists c, x = ConnLru c /\ linked st A c;
  cw_nodes : forall c, (is_Some (ct_conns st !! c) <-> is_Some (ct_links st !! ConnList c)) /\
    (is_Some (ct_conns st !! c) <-> is_Some (ct_links st !! ConnLru c));
  cw_conn : forall i c, 0 <= i < ct_size st -> ConnList c ∈ A (BucketHead i) ->
    exists k, ct_conns st !! c = Some k /\ tuple_ok (c_tuple k) /\
      bucket_of st (tuple_hash (c_tuple k)) = BucketHead i /\ 1 <= c_lockref k < 2 ^ 32;
  cw_uniq : forall c c' k k', linked st A c -> linked st A c' ->
    ct_conns st !! c = Some k -> ct_conns st !! c' = Some k' ->
    nfe_tuple_equal (c_tuple k) (c_tuple k') = true -> c = c'
}.

Lemma bucket_of_head st A hash :
  ct_wf st A -> is_u32 hash -> exists i, bucket_of st hash = BucketHead i /\ 0 <= i < ct_size st.
Proof.
  intros W Hh. destruct (cw_size _ _ W) as (k & Hk & E). unfold bucket_of. rewrite E.
  assert (1 <= 2 ^ k) by (pose proof (Z.pow_pos_nonneg 2 k); lia).
  assert (2 ^ k <= 2 ^ 30) by (apply Z.pow_le_mono_r; lia).
  rewrite u32_id by (unfold is_u32; lia).
  replace (2 ^ k - 1) with (Z.ones k) by (rewrite Z.ones_equiv; lia).
  rewrite Z.land_ones by lia. eexists. split; [done|]. apply Z.mod_pos_bound. lia.
Qed.

(** *** Lookup *)
(** The first connection of a bucket list with an equal tuple. *)
Fixpoint bucket_find (st : conntrack) (tuple : nfe_tuple) (xs : list lptr) : option conn_id :=
  match xs with
  | ConnList c :: xs' =>
      match ct_conns st !! c with
      | Some k => if nfe_tuple_equal (c_tuple k) tuple then Some c else bucket_find st tuple xs'
      | None => None
      end
  | _ => None
  end.

Definition live_list (st : conntrack) (xs : list lptr) : Prop :=
  forall x, x ∈ xs -> exists c k, x = ConnList c /\ ct_conns st !! c = Some k.

Lemma bucket_walk_find n st h xs xs1 tuple :
  ring (ct_links st) h (xs1 ++ xs) -> live_list st xs -> (length xs < n)%nat ->
  bucket_walk n st h (default h (head xs)) tuple = Ok (bucket_find st tuple xs).
Proof.
  revert xs xs1. induction n as [|n IH]; intros xs xs1 Hr Hl Hn; [lia|].
  cbn [bucket_walk]. destruct xs as [|x xs]; [by rewrite bool_decide_eq_true_2|].
  destruct (Hl x) as (c & k & -> & Hk); [set_solver|]. cbn [default head].
  rewrite bool_decide_eq_false_2.
  2: { destruct Hr as [Hnd _]. apply NoDup_cons_1_1 in Hnd. cbn. set_solver. }
  cbn. unfold get_conn. rewrite Hk. cbn. destruct (nfe_tuple_equal _ _); [done|].
  rewrite (ld_next_Ok _ _ (default h (head xs))).
  2: { eapply (ring_next _ h (xs1 ++ ConnList c :: xs) (h :: xs1)); done. }
  cbn. apply (IH xs (xs1 ++ [ConnList c])); [by rewrite <- app_assoc| |cbn in Hn; lia].
  intros y Hy. apply Hl. set_solver.
Qed.

Lemma bucket_find_Some st tuple xs c :
  bucket_find st tuple xs = Some c -> exists k, ConnList c ∈ xs /\
    ct_conns st !! c = Some k /\ nfe_tuple_equal (c_tuple k) tuple = true.
Proof.
  induction xs as [|x xs IH]; cbn; [done|]. destruct x as [| |d|]; try done.
  destruct (ct_conns st !! d) as [k|] eqn:Ek; [|done].
  destruct (nfe_tuple_equal _ _) eqn:Et.
  - intros [= ->]. exists k. set_solver.
  - intros Hf. destruct (IH Hf) as (k' & Hin & ?). exists k'. set_solver.
Qed.

Lemma bucket_find_None st tuple xs :
  live_list st xs -> bucket_find st tuple xs = None ->
  forall c k, ConnList c ∈ xs -> ct_conns st !! c = Some k ->
    nfe_tuple_equal (c_tuple k) tuple = false.
Proof.
  intros Hl Hf c k Hc Hk. induction xs as [|x xs IH]; [set_solver|].
  destruct (Hl x) as (d & kd & -> & Hd); [set_solver|]. cbn in Hf. rewrite Hd in Hf.
  destruct (nfe_tuple_equal (c_tuple kd) tuple) eqn:Et; [done|].
  apply elem_of_cons in Hc as [[= ->]|Hc]; [congruence|].
  apply IH; [|done|done]. intros y Hy. apply Hl. set_solver.
Qed.

Lemma bucket_live st A i : ct_wf st A -> 0 <= i < ct_size st -> live_list st (A (BucketHead i)).
Proof.
  intros W Hi x Hx. destruct (cw_bucket _ _ W i x Hi Hx) as (c & ->).
  destruct (cw_conn _ _ W i c Hi Hx) as (k & Hk & _). eauto.
Qed.

Lemma same_flow_bucket st A c k tuple :
  ct_wf st A -> linked st A c -> ct_conns st !! c = Some k -> tuple_ok tuple ->
  nfe_tuple_equal (c_tuple k) tuple = true ->
  exists i, bucket_of st (tuple_hash tuple) = BucketHead i /\ 0 <= i < ct_size st /\
    ConnList c ∈ A (BucketHead i).
Proof.
  intros W (i & Hi & Hin) Hk Ht He.
  destruct (cw_conn _ _ W i c Hi Hin) as (k' & Hk' & Hok & Hb & _).
  rewrite Hk in Hk'. injection Hk' as <-. exists i. split; [|by split].
  assert (tuple_hash (c_tuple k) = tuple_hash tuple) as <-
    by (apply flow_hash_same; split; [exact Hok|split; [exact Ht|exact He]]).
  exact Hb.
Qed.

(** The lookup returns the connection of the flow and takes a reference, or
    reports that the table has none. *)
Lemma ct_lookup_cases st A tuple :
  ct_wf st A -> tuple_ok tuple ->
  (exists c k, linked st A c /\ ct_conns st !! c = Some k /\
     nfe_tuple_equal (c_tuple k) tuple = true /\
     ct_lookup_hash st tuple (tuple_hash tuple) =
       Ok (Some c, upd_conn st c (set_lockref (u32 (c_lockref k + 1)) k))) \/
  ((forall c k, linked st A c -> ct_conns st !! c = Some k ->
      nfe_tuple_equal (c_tuple k) tuple = false) /\
   ct_lookup_hash st tuple (tuple_hash tuple) = Ok (None, st)).
Proof.
  intros W Ht.
  destruct (bucket_of_head st A (tuple_hash tuple) W (flow_hash_range _)) as (i & Eb & Hi).
  pose proof (wf_ring _ _ _ (cw_lists _ _ W) (BucketHead i) Hi) as Hr.
  pose proof (bucket_live st A i W Hi) as Hl.
  unfold ct_lookup_hash. rewrite Eb.
  rewrite (ld_next_Ok _ _ (default (BucketHead i) (head (A (BucketHead i)))))
    by (eapply (ring_next _ _ _ []); [exact Hr|done]).
  cbind. rewrite (bucket_walk_find _ _ _ (A (BucketHead i)) []); [|done|done|].
  2: { pose proof (ring_length _ _ _ Hr). cbn in *. lia. }
  cbind. destruct (bucket_find st tuple _) as [c|] eqn:Ef.
  - left. destruct (bucket_find_Some _ _ _ _ Ef) as (k & Hin & Hk & He).
    exists c, k. split_and!; [by exists i|done|done|]. unfold get_conn. by rewrite Hk.
  - right. split; [|done]. intros c k Hlk Hk.
    destruct (nfe_tuple_equal (c_tuple k) tuple) eqn:Et; [|done]. rewrite <- Et.
    destruct (same_flow_bucket st A c k tuple W Hlk Hk Ht Et) as (j & Ej & _ & Hin).
    eapply bucket_find_None; [exact Hl|exact Ef| |exact Hk]. congruence.
Qed.

(** A lookup with any hash, right or wrong, is safe: it returns a connection of
    the table with an equal tuple, or none. *)
Lemma ct_lookup_any st A tuple hash :
  ct_wf st A -> is_u32 hash ->
  ct_lookup_hash st tuple hash = Ok (None, st) \/
  exists c k, linked st A c /\ ct_conns st !! c = Some k /\
    nfe_tuple_equal (c_tuple k) tuple = true /\
    ct_lookup_hash st tuple hash =
      Ok (Some c, upd_conn st c (set_lockref (u32 (c_lockref k + 1)) k)).
Proof.
  intros W Hh. destruct (bucket_of_head st A hash W Hh) as (i & Eb & Hi).
  pose proof (wf_ring _ _ _ (cw_lists _ _ W) (BucketHead i) Hi) as Hr.
  unfold ct_lookup_hash. rewrite Eb.
  rewrite (ld_next_Ok _ _ (default (BucketHead i) (head (A (BucketHead i)))))
    by (eapply (ring_next _ _ _ []); [exact Hr|done]).
  cbind. rewrite (bucket_walk_find _ _ _ (A (BucketHead i)) []); [|done|by apply bucket_live|].
  2: { pose proof (ring_length _ _ _ Hr). cbn in *. lia. }
  cbind. destruct (bucket_find st tuple _) as [c|] eqn:Ef; [right|by left].
  destruct (bucket_find_Some _ _ _ _ Ef) as (k & Hin & Hk & He).
  exists c, k. split_and!; [by exists i|done|done|]. unfold get_conn. by rewrite Hk.
Qed.

(** *** Updates of a connection *)
Lemma upd_conn_wf st A c k k' :
  ct_wf st A -> ct_conns st !! c = Some k -> c_tuple k' = c_tuple k ->
  (linked st A c -> 1 <= c_lockref k' < 2 ^ 32) -> ct_wf (upd_conn st c k') A.
Proof.
  intros W Hk Et Hl. destruct W as [W1 W2 W3 W4 W5 W6 W7 W8].
  split; cbn; [done|done|done|done|done| | |].
  - intros d. rewrite <- (proj1 (W6 d)), <- (proj2 (W6 d)).
    assert (is_Some (<[c:=k']> (ct_conns st) !! d) <-> is_Some (ct_conns st !! d)); [|done].
    rewrite <- !elem_of_dom, dom_insert_L. apply elem_of_dom_2 in Hk. set_solver.
  - intros i d Hi Hin. destruct (W7 i d Hi Hin) as (kd & Hd & Hok & Hb & Hr).
    rewrite lookup_insert. case_decide as E; [subst|by exists kd].
    exists k'. rewrite Et. replace k with kd by congruence.
    split_and!; [done|done|done|..]; apply Hl; by exists i.
  - intros d d' kd kd' Hd Hd'. rewrite !lookup_insert.
    repeat case_decide; intros [= ?] [= ?]; subst; rewrite ?Et; eauto.
Qed.

Lemma linked_conn st A c :
  ct_wf st A -> linked st A c -> exists k, ct_conns st !! c = Some k /\
    tuple_ok (c_tuple k) /\ 1 <= c_lockref k < 2 ^ 32.
Proof.
  intros W (i & Hi & Hin). destruct (cw_conn _ _ W i c Hi Hin) as (k & ? & ? & _ & ?). eauto.
Qed.

(** *** Removal from the table *)
Lemma unlink_nodes st A c k :
  ct_wf st A -> ct_conns st !! c = Some k -> exists L1 L2,
  nfe_list_remove (ct_links st) (ConnList c) = Ok L1 /\
  nfe_list_remove L1 (ConnLru c) = Ok L2 /\
  dom L2 = dom (ct_links st) /\
  lists_wf L2 (is_head (ct_size st)) (drop_conn A c) /\
  ring L2 (ConnList c) [] /\ ring L2 (ConnLru c) [].
Proof.
  intros W Hk. pose proof (cw_nodes _ _ W c) as [N1 N2].
  assert (is_Some (ct_conns st !! c)) as Hs by eauto.
  destruct (remove_wf (ct_links st) _ A (ConnList c) (cw_lists _ _ W)) as (L1 & E1 & D1 & W1 & R1);
    [by apply N1|by intros []|].
  destruct (remove_wf L1 _ _ (ConnLru c) W1) as (L2 & E2 & D2 & W2 & R2);
    [apply (links_some_dom (ct_links st)); [done|by apply N2]|by intros []|].
  exists L1, L2. split_and!; [done|done|congruence|done| |done].
  assert (is_Some (L2 !! ConnList c)) as Hs2
    by (apply (links_some_dom (ct_links st)); [congruence|by apply N1]).
  destruct (wf_node _ _ _ W2 (ConnList c) Hs2) as [[]|[(h & Hh & Hin)|]]; [|done].
  apply elem_drop_conn in Hin. tauto.
Qed.

Lemma free_conn_wf st A c k L :
  ct_wf st A -> ct_conns st !! c = Some k -> dom L = dom (ct_links st) ->
  lists_wf L (is_head (ct_size st)) (drop_conn A c) ->
  ring L (ConnList c) [] -> ring L (ConnLru c) [] ->
  ct_wf (set_conns (delete c (ct_conns st))
           (set_links (delete (ConnLru c) (delete (ConnList c) L)) st)) (drop_conn A c).
Proof.
  intros W Hk D WL R1 R2. destruct W as [W1 W2 W3 W4 W5 W6 W7 W8].
  split; cbn; [done|done| | | | | |].
  - apply free_wf; [apply free_wf; [done|done|by intros []]| |by intros []].
    apply ring_nil. apply ring_nil in R2. by rewrite lookup_delete_ne.
  - intros i x Hi Hx. apply elem_drop_conn in Hx as (_ & _ & Hx). eauto.
  - intros i x Hi Hx. apply elem_drop_conn in Hx as (_ & Hne & Hx).
    destruct (W5 i x Hi Hx) as (d & -> & Hd). exists d. split; [done|].
    apply (linked_drop st). split; [done|congruence].
  - intros d. assert (forall x, is_Some (L !! x) <-> is_Some (ct_links st !! x)) as HL
      by (intros x; by rewrite <- !elem_of_dom, D).
    destruct (decide (d = c)) as [->|Hne].
    + rewrite lookup_delete_eq, lookup_delete_eq.
      rewrite (lookup_delete_ne _ (ConnLru c)), lookup_delete_eq by done. done.
    + rewrite (lookup_delete_ne (ct_conns st)) by done.
      rewrite !(lookup_delete_ne _ (ConnLru c)), !(lookup_delete_ne _ (ConnList c)) by congruence.
      rewrite !HL. apply W6.
  - intros i d Hi Hin. apply elem_drop_conn in Hin as (Hne & _ & Hin).
    rewrite lookup_delete_ne by congruence. by apply W7.
  - intros d d' kd kd' [Hd Hdc]%(linked_drop st) [Hd' Hdc']%(linked_drop st).
    rewrite !lookup_delete_ne by congruence. eauto.
Qed.

(** Releasing a reference: the count drops, and the last reference unlinks the
    connection from its bucket and LRU list and frees it. *)
Lemma release_cases st A c k :
  ct_wf st A -> ct_conns st !! c = Some k -> 1 <= c_lockref k < 2 ^ 32 ->
  if c_lockref k =? 1 then
    exists st', nfe_conn_release st (Some c) = Ok st' /\
      ct_conns st' = delete c (ct_conns st) /\ ct_size st' = ct_size st /\
      ct_expiry st' = ct_expiry st /\ ct_wf st' (drop_conn A c)
  else
    nfe_conn_release st (Some c) = Ok (upd_conn st c (set_lockref (c_lockref k - 1) k)) /\
    ct_wf (upd_conn st c (set_lockref (c_lockref k - 1) k)) A.
Proof.
  intros W Hk Hr. unfold nfe_conn_release, get_conn. rewrite Hk. cbn [deref]. cbind.
  rewrite c_assert_Ok by (apply Z.leb_le; lia). cbind.
  rewrite u32_id by (unfold is_u32; lia).
  destruct (Z.eqb_spec (c_lockref k) 1) as [E1|E1].
  - rewrite E1. cbn [Z.sub Z.eqb Z.opp Z.add Z.pos_sub].
    destruct (unlink_nodes st A c k W Hk) as (L1 & L2 & R1 & R2 & D & WL & S1 & S2).
    cbn [upd_conn set_conns ct_links]. rewrite R1. cbind. rewrite R2. cbind.
    pose proof (free_conn_wf st A c k L2 W Hk D WL S1 S2) as Hw.
    eexists. split; [done|]. unfold set_conns, set_links, upd_conn in *. cbn in *.
    by rewrite delete_insert_eq.
  - rewrite (proj2 (Z.eqb_neq (c_lockref k - 1) 0)) by lia. split; [done|].
    eapply upd_conn_wf; [done|done|done|]. cbn. lia.
Qed.

(** *** Allocation and insertion *)
Section Alloc.
Variable ext_conn_alloc : gmap conn_id nfe_conn -> nfe_tuple -> option conn_id.
(** Memory that an allocator returns is not in use. *)
Hypothesis alloc_fresh : forall m t c, ext_conn_alloc m t = Some c -> m !! c = None.

Definition new_tuple (tuple : nfe_tuple) (invert : bool) : nfe_tuple :=
  if invert then nfe_tuple_copy tuple true else tuple.

Lemma conn_alloc_cases st A tuple invert :
  ct_wf st A ->
  nfe_conn_alloc ext_conn_alloc st tuple invert = (None, st) \/
  exists c st', nfe_conn_alloc ext_conn_alloc st tuple invert = (Some c, st') /\
    ct_conns st !! c = None /\ ct_size st' = ct_size st /\ ct_expiry st' = ct_expiry st /\
    ct_conns st' = <[c := mk_conn (new_tuple tuple invert) tcp_zero 0 0 0]> (ct_conns st) /\
    ct_wf st' A /\ ring (ct_links st') (ConnList c) [].
Proof.
  intros W. unfold nfe_conn_alloc. fold (new_tuple tuple invert).
  destruct (ext_conn_alloc _ _) as [c|] eqn:Ea; [|by left]. right.
  apply alloc_fresh in Ea as Hc. pose proof (cw_nodes _ _ W c) as [N1 N2].
  assert (ct_links st !! ConnList c = None) as F1.
  { destruct (ct_links st !! ConnList c) eqn:E; [|done]. rewrite Hc in N1.
    destruct (proj2 N1) as [? [=]]. eauto. }
  assert (ct_links st !! ConnLru c = None) as F2.
  { destruct (ct_links st !! ConnLru c) eqn:E; [|done]. rewrite Hc in N2.
    destruct (proj2 N2) as [? [=]]. eauto. }
  destruct (init_wf _ _ _ (ConnList c) (cw_lists _ _ W) F1) as [WL1 R1]; [by intros []|].
  destruct (init_wf _ _ _ (ConnLru c) WL1) as [WL2 R2];
    [unfold nfe_list_init; by rewrite lookup_insert_ne|by intros []|].
  rewrite copy_false. eexists c, _. split; [done|]. cbn [set_conns set_links ct_conns ct_links ct_size ct_expiry].
  split; [done|]. split; [done|]. split; [done|]. split; [done|]. split.
  - destruct W as [W1 W2 W3 W4 W5 W6 W7 W8]. split; cbn; [done|done|done|done|done| | |].
    + intros d. unfold nfe_list_init. rewrite !lookup_insert.
      repeat case_decide; simplify_eq; first [by split; split; eauto | apply W6].
    + intros i d Hi Hin. destruct (W7 i d Hi Hin) as (k & Hk & ?).
      exists k. rewrite lookup_insert_ne by congruence. done.
    + intros d d' k k' Hd Hd'.
      destruct (linked_conn st A d) as (kd & Ed & _); [by split|done|].
      destruct (linked_conn st A d') as (kd' & Ed' & _); [by split|done|].
      rewrite !lookup_insert_ne by congruence. eauto.
  - apply ring_nil. unfold nfe_list_init. rewrite lookup_insert_ne by done.
    apply lookup_insert_eq.
Qed.

(** A new connection enters the bucket of its hash with one reference. *)
Lemma link_conn_wf st A c k i :
  ct_wf st A -> ct_conns st !! c = Some k -> ring (ct_links st) (ConnList c) [] ->
  tuple_ok (c_tuple k) -> 0 <= i < ct_size st ->
  bucket_of st (tuple_hash (c_tuple k)) = BucketHead i ->
  (forall d kd, linked st A d -> ct_conns st !! d = Some kd ->
     nfe_tuple_equal (c_tuple kd) (c_tuple k) = false) ->
  exists L, nfe_list_insert (ct_links st) (BucketHead i) (ConnList c) = Ok L /\
    ct_wf (upd_conn (set_links L st) c (set_lockref 1 k))
          (lists_insert A (BucketHead i) (ConnList c)).
Proof.
  intros W Hk Hring Hok Hi Hb Hnew.
  destruct (insert_wf (ct_links st) _ A (BucketHead i) (ConnList c) (cw_lists _ _ W))
    as (L & E & D & WL); [done|by intros []|done|].
  exists L. split; [done|].
  pose proof (elem_lists_insert A (BucketHead i) (ConnList c)) as Hin.
  pose proof (fun d => linked_insert st A c i d Hi) as Hlk.
  assert (~ linked st A c) as Hnl.
  { intros (j & Hj & Hjn). revert Hjn.
    eapply detached_not_member; [exact (cw_lists _ _ W)|done|done|done]. }
  destruct W as [W1 W2 W3 W4 W5 W6 W7 W8]. split; cbn; [done|done|done| | | | |].
  - intros j x Hj [Hx|[_ ->]]%Hin; eauto.
  - intros j x Hj [Hx|[[=] _]]%Hin. destruct (W5 j x Hj Hx) as (d & -> & Hd).
    exists d. split; [done|]. apply Hlk. by left.
  - intros d. rewrite lookup_insert, <- !elem_of_dom, D, !elem_of_dom.
    case_decide as Ed; [|apply W6]. subst d. rewrite <- (proj1 (W6 c)), <- (proj2 (W6 c)).
    rewrite Hk. by split; split; eauto.
  - intros j d Hj [Hx|[[= ->] [= ->]]]%Hin.
    + assert (d <> c) by (intros ->; apply Hnl; by exists j).
      rewrite lookup_insert_ne by done. by apply W7.
    + exists (set_lockref 1 k). rewrite lookup_insert_eq. cbn. split_and!; try done.
  - assert (forall d kd, linked st A d -> <[c := set_lockref 1 k]> (ct_conns st) !! d = Some kd ->
      ct_conns st !! d = Some kd) as Hold.
    { intros d kd Hd. rewrite lookup_insert_ne; [done|]. by intros ->. }
    intros d d' kd kd' [Hd| ->]%Hlk [Hd'| ->]%Hlk Ed Ed' Heq; [by eauto| | |done].
    + rewrite lookup_insert_eq in Ed'. injection Ed' as <-. cbn in Heq.
      rewrite (Hnew d kd) in Heq; eauto; done.
    + rewrite lookup_insert_eq in Ed. injection Ed as <-. cbn in Heq.
      apply Hold in Ed'; [|done].
      destruct (linked_conn st A d') as (k2 & E2 & Hok2 & _); [by split|done|].
      assert (nfe_tuple_equal (c_tuple kd') (c_tuple k) = false) as Hf by eauto.
      assert (same_flow (c_tuple kd') (c_tuple k)) as (_ & _ & Hs); [|congruence].
      symmetry. split; [done|]. split; [congruence|done].
Qed.

Lemma new_tuple_flow t inv : tuple_ok t -> same_flow t (new_tuple t inv).
Proof. intros Ht. apply same_flow_alt. split; [done|]. destruct inv; auto. Qed.

(** What a lookup does to the table: [A] is updated when a connection is made. *)
Inductive lookup_outcome (st : conntrack) (A : lptr -> list lptr) (tuple : nfe_tuple)
    (policy : Z) : option conn_id -> conntrack -> (lptr -> list lptr) -> Prop :=
| lookup_hit c k :
    linked st A c -> ct_conns st !! c = Some k -> nfe_tuple_equal (c_tuple k) tuple = true ->
    lookup_outcome st A tuple policy (Some c)
      (upd_conn st c (set_lockref (c_lockref k + 1) k)) A
| lookup_miss :
    (forall c k, linked st A c -> ct_conns st !! c = Some k ->
       nfe_tuple_equal (c_tuple k) tuple = false) ->
    policy = NFE_ALLOC_POLICY_NONE \/
      ext_conn_alloc (ct_conns st) (new_tuple tuple (policy =? NFE_ALLOC_POLICY_INVERT)) = None ->
    lookup_outcome st A tuple policy None st A
| lookup_new c st' i :
    (forall c k, linked st A c -> ct_conns st !! c = Some k ->
       nfe_tuple_equal (c_tuple k) tuple = false) ->
    policy <> NFE_ALLOC_POLICY_NONE -> ct_conns st !! c = None ->
    ct_size st' = ct_size st -> ct_expiry st' = ct_expiry st -> 0 <= i < ct_size st ->
    ct_conns st' =
      <[c := mk_conn (new_tuple tuple (policy =? NFE_ALLOC_POLICY_INVERT)) tcp_zero 1 0 0]>
        (ct_conns st) ->
    lookup_outcome st A tuple policy (Some c) st' (lists_insert A (BucketHead i) (ConnList c)).

(** No reference count of the table is about to wrap. *)
Definition refs_bounded (st : conntrack) : Prop :=
  map_Forall (fun _ k => c_lockref k < 2 ^ 32 - 1) (ct_conns st).

Lemma refs_bounded_empty st : ct_conns st = ∅ -> refs_bounded st.
Proof. unfold refs_bounded. intros ->. apply map_Forall_empty. Qed.

Lemma lookup_new_spec st A tuple policy :
  ct_wf st A -> tuple_ok tuple -> policy <> NFE_ALLOC_POLICY_NONE ->
  (forall c k, linked st A c -> ct_conns st !! c = Some k ->
     nfe_tuple_equal (c_tuple k) tuple = false) ->
  exists r st' A',
    match nfe_conn_alloc ext_conn_alloc st tuple (policy =? NFE_ALLOC_POLICY_INVERT) with
    | (None, st) => Ok (None, st)
    | (Some c, st) =>
        L ← nfe_list_insert (ct_links st) (bucket_of st (tuple_hash tuple)) (ConnList c);
        conn ← get_conn (set_links L st) c;
        Ok (Some c, upd_conn (set_links L st) c (set_lockref (u32 (c_lockref conn + 1)) conn))
    end = Ok (r, st') /\ ct_wf st' A' /\ lookup_outcome st A tuple policy r st' A'.
Proof.
  intros W Ht Hp Hno.
  set (inv := policy =? NFE_ALLOC_POLICY_INVERT).
  pose proof (new_tuple_flow tuple inv Ht) as Hsf. pose proof Hsf as (_ & Hok & _).
  destruct (conn_alloc_cases st A tuple inv W) as [E|(c & st1 & E & Hc & Hs & He & Hm & W1 & R1)].
  { rewrite E. exists None, st, A. split_and!; [done|done|]. constructor; [done|].
    right. fold inv. revert E. unfold nfe_conn_alloc. fold (new_tuple tuple inv).
    by destruct (ext_conn_alloc _ _). }
  destruct (bucket_of_head st1 A (tuple_hash tuple) W1 (flow_hash_range _)) as (i & Eb & Hi).
  assert (ct_conns st1 !! c = Some (mk_conn (new_tuple tuple inv) tcp_zero 0 0 0)) as Hk
    by (rewrite Hm; apply lookup_insert_eq).
  destruct (link_conn_wf st1 A c _ i W1 Hk R1) as (L & EL & WL); [done|done| | |].
  - cbn. by rewrite <- (flow_hash_same _ _ Hsf).
  - intros d kd Hd. rewrite Hm, lookup_insert_ne.
    + intros Ed. assert (linked st A d) as Hd' by (unfold linked in *; by rewrite <- Hs).
      rewrite <- (Hno d kd Hd' Ed). symmetry. apply nfe_tuple_equal_proper; [|done].
      destruct (linked_conn st A d W Hd') as (k' & Ek & Hok' & _).
      replace kd with k' by congruence. apply same_flow_alt. auto.
    + intros ->. unfold linked in Hd. rewrite Hs in Hd.
      destruct (linked_conn st A d W Hd) as (? & ? & _). congruence.
  - rewrite E, Eb, EL. cbind. unfold get_conn. cbn [set_links ct_conns]. rewrite Hk. cbind.
    cbn [deref]. cbind. eexists (Some c), _, _. split; [done|]. split; [exact WL|].
    eapply lookup_new; try done; [by rewrite <- Hs|]. cbn. by rewrite Hm, insert_insert_eq.
Qed.

Lemma lookup_cases st A packet policy :
  ct_wf st A -> tuple_ok (p_tuple packet) -> p_hash packet = tuple_hash (p_tuple packet) ->
  refs_bounded st -> exists r st' A',
  nfe_conntrack_lookup ext_conn_alloc st packet policy = Ok (r, st') /\ ct_wf st' A' /\
  lookup_outcome st A (p_tuple packet) policy r st' A'.
Proof.
  intros W Ht Eh Hb. unfold nfe_conntrack_lookup. rewrite Eh.
  destruct (ct_lookup_cases st A _ W Ht) as [(c & k & Hl & Hk & He & E)|[Hno E]]; rewrite E; cbind.
  - destruct (linked_conn st A c W Hl) as (k' & Hk' & _ & Hr).
    replace k' with k in Hr by congruence. specialize (Hb c k Hk). cbn in Hb.
    rewrite u32_id by (unfold is_u32; lia). eexists _, _, A. split; [done|]. split.
    + apply (upd_conn_wf st A c k); [done|done|done|]. cbn. lia.
    + by constructor.
  - destruct (Z.eqb_spec policy NFE_ALLOC_POLICY_NONE) as [Ep|Ep].
    + eexists _, _, A. split; [done|]. split; [done|]. constructor; auto.
    + by apply lookup_new_spec.
Qed.

(** *** LRU lists *)
Lemma lru_update_wf st A lru c :
  ct_wf st A -> (lru < LRU_PROTO_MAX)%nat -> linked st A c -> exists L,
  nfe_conntrack_lru_update st lru c = Ok (set_links L st) /\
  ct_wf (set_links L st) (lists_insert (lists_remove A (ConnLru c)) (LruHead lru) (ConnLru c)).
Proof.
  intros W Hl Hc. destruct (linked_conn st A c W Hc) as (k & Hk & _).
  pose proof (cw_nodes _ _ W c) as [_ N2]. unfold nfe_conntrack_lru_update.
  destruct (remove_wf (ct_links st) _ A (ConnLru c) (cw_lists _ _ W)) as (L1 & E1 & D1 & W1 & R1);
    [apply N2; eauto|by intros []|]. rewrite E1. cbind.
  destruct (insert_wf L1 _ _ (LruHead lru) (ConnLru c) W1) as (L2 & E2 & D2 & W2);
    [done|by intros []|done|]. rewrite E2. cbind. exists L2. split; [done|].
  assert (forall i x, x ∈ lists_insert (lists_remove A (ConnLru c)) (LruHead lru) (ConnLru c)
    (BucketHead i) <-> x <> ConnLru c /\ x ∈ A (BucketHead i)) as Hb.
  { intros i x. rewrite elem_lists_insert, elem_lists_remove. naive_solver. }
  assert (forall d, linked (set_links L2 st) (lists_insert (lists_remove A (ConnLru c))
    (LruHead lru) (ConnLru c)) d <-> linked st A d) as Hlk.
  { intros d. unfold linked. setoid_rewrite Hb. naive_solver. }
  destruct W as [V1 V2 V3 V4 V5 V6 V7 V8]. split; cbn; [done|done|done| | | | |].
  - intros i x Hi [_ Hx]%Hb. eauto.
  - intros i x Hi. rewrite elem_lists_insert, elem_lists_remove.
    intros [[Hne Hx]|[_ ->]]; [|exists c; by rewrite Hlk].
    destruct (V5 i x Hi Hx) as (d & -> & Hd). exists d. by rewrite Hlk.
  - intros d. rewrite <- !(elem_of_dom L2), D2, D1, !elem_of_dom. apply V6.
  - intros i d Hi [_ Hx]%Hb. by apply V7.
  - intros d d' kd kd'. rewrite !Hlk. apply V8.
Qed.

(** The connection a lookup returns belongs to the flow and is in the table. *)
Lemma outcome_flow st A tuple policy c st' A' :
  ct_wf st A -> tuple_ok tuple -> lookup_outcome st A tuple policy (Some c) st' A' ->
  linked st' A' c /\ exists k, ct_conns st' !! c = Some k /\ same_flow (c_tuple k) tuple.
Proof.
  intros W Ht Ho. inversion Ho as [c' k Hl Hk He| |c' st1 i Hno Hp Hc Hs Hx Hi Hm]; subst.
  - split; [done|]. exists (set_lockref (c_lockref k + 1) k). split; [apply lookup_insert_eq|].
    destruct (linked_conn _ _ c W Hl) as (k' & Hk' & Hok & _).
    replace k' with k in Hok by congruence. done.
  - split.
    + apply (linked_insert st') ; [by rewrite Hs|by right].
    + eexists. rewrite Hm. split; [apply lookup_insert_eq|]. cbn. symmetry.
      by apply new_tuple_flow.
Qed.

(** After a lookup has returned a connection, every packet of the flow, in
    either direction and under any policy, finds that connection. *)
Lemma lookup_again st A p policy c st' A' p' policy' :
  ct_wf st A -> ct_wf st' A' -> lookup_outcome st A (p_tuple p) policy (Some c) st' A' ->
  refs_bounded st' -> same_flow (p_tuple p) (p_tuple p') ->
  p_hash p' = tuple_hash (p_tuple p') ->
  exists k, ct_conns st' !! c = Some k /\
    nfe_conntrack_lookup ext_conn_alloc st' p' policy' =
      Ok (Some c, upd_conn st' c (set_lockref (c_lockref k + 1) k)).
Proof.
  intros W W' Ho Hb Hsf Hh. pose proof Hsf as (Ht & Ht' & _).
  destruct (outcome_flow _ _ _ _ _ _ _ W Ht Ho) as (Hl & k & Hk & Hsk).
  assert (same_flow (c_tuple k) (p_tuple p')) as Hkf by (by etransitivity).
  exists k. split; [done|].
  destruct (lookup_cases st' A' p' policy' W' Ht' Hh Hb) as (r & st2 & A2 & E & _ & Ho2).
  rewrite E. inversion Ho2 as [c' k' Hl' Hk' He'|Hno| ? ? ? Hno]; subst.
  - assert (c' = c) as ->; [|by replace k' with k by congruence].
    eapply (cw_uniq _ _ W'); [done|done|done|done|].
    destruct (linked_conn st' A2 c' W' Hl') as (k2 & Hk2 & Hok2 & _).
    replace k2 with k' in Hok2 by congruence.
    assert (same_flow (c_tuple k') (c_tuple k)) as (_ & _ & ?); [|done].
    etransitivity; [|symmetry; exact Hkf]. done.
  - destruct Hkf as (_ & _ & He). by rewrite (Hno c k Hl Hk) in He.
  - destruct Hkf as (_ & _ & He). by rewrite (Hno c k Hl Hk) in He.
Qed.

(** The first connection of an empty table. *)
Lemma first_conn st tuple :
  ct_wf st (fun _ => []) -> ct_conns st = ∅ -> tuple_ok tuple ->
  is_Some (ext_conn_alloc (ct_conns st) (new_tuple tuple false)) -> exists st' A' c,
  ct_wf st' A' /\ lookup_outcome st (fun _ => []) tuple NFE_ALLOC_POLICY_CREATE (Some c) st' A' /\
  ct_conns st' = {[ c := mk_conn tuple tcp_zero 1 0 0 ]} /\ linked st' A' c /\
  A' (LruHead LRU_PROTO_UDP) = [] /\ ct_expiry st' = ct_expiry st.
Proof.
  intros W Hm Ht [c0 Ha].
  destruct (lookup_new_spec st (fun _ => []) tuple NFE_ALLOC_POLICY_CREATE W Ht) as (r & st' & A' & _ & W' & Ho);
    [done|by intros c k (i & _ & Hin); apply elem_of_nil in Hin|].
  pose proof Ho as Ho'.
  inversion Ho as [? ? _ Hk|? [Hp|Hn]|c st1 i _ _ _ Hs He Hi Hm1]; subst;
    [by rewrite Hm in Hk|done|change (ext_conn_alloc _ _) with (ext_conn_alloc (ct_conns st') (new_tuple tuple false)) in Hn; congruence|].
  exists st', (lists_insert (fun _ => []) (BucketHead i) (ConnList c)), c. split_and!; try done.
  - by rewrite Hm1, Hm.
  - apply (linked_insert st'); [by rewrite Hs|by right].
Qed.

End Alloc.

(** A packet of the flow of a linked connection finds it, with one more
    reference. *)
Lemma lookup_finds alloc st A c k packet policy :
  ct_wf st A -> linked st A c -> ct_conns st !! c = Some k ->
  same_flow (c_tuple k) (p_tuple packet) -> p_hash packet = tuple_hash (p_tuple packet) ->
  nfe_conntrack_lookup alloc st packet policy =
    Ok (Some c, upd_conn st c (set_lockref (u32 (c_lockref k + 1)) k)).
Proof.
  intros W Hl Hk Hsf Eh. pose proof Hsf as (_ & Ht & He). unfold nfe_conntrack_lookup. rewrite Eh.
  destruct (ct_lookup_cases st A _ W Ht) as [(c' & k' & Hl' & Hk' & He' & ->)|[Hno _]];
    [|by rewrite (Hno c k Hl Hk) in He].
  cbind. assert (c' = c) as ->; [|by replace k' with k by congruence].
  eapply (cw_uniq _ _ W); [done..|].
  destruct (linked_conn st A c' W Hl') as (k2 & Hk2 & Hok2 & _).
  replace k2 with k' in Hok2 by congruence.
  assert (same_flow (c_tuple k') (c_tuple k)) as (_ & _ & ?); [|done].
  etransitivity; [|symmetry; exact Hsf]. done.
Qed.

(** The connections of an LRU list, oldest first. *)
Definition lru_conns (xs : list lptr) : list conn_id :=
  omap (fun x => match x with ConnLru c => Some c | _ => None end) xs.

Definition conn_fresh (expiry timestamp : Z) (k : nfe_conn) : bool :=
  (timestamp <? c_timestamp k) || (u64 (timestamp - c_timestamp k) <? expiry).

(** What expiry promises, on the list alone: walk it from the oldest entry,
    drop one reference of every stale connection, stop at the first fresh one. *)
Fixpoint abs_expire (m : gmap conn_id nfe_conn) (expiry timestamp : Z) (cs : list conn_id)
    : gmap conn_id nfe_conn :=
  match cs with
  | [] => m
  | c :: cs' =>
      match m !! c with
      | None => m
      | Some k =>
          if conn_fresh expiry timestamp k then m
          else abs_expire (if c_lockref k =? 1 then delete c m
                           else <[c := set_lockref (c_lockref k - 1) k]> m)
                 expiry timestamp cs'
      end
  end.

Lemma drop_conn_lru A c lru pre xs :
  NoDup (LruHead lru :: A (LruHead lru)) -> A (LruHead lru) = pre ++ ConnLru c :: xs ->
  ConnList c ∉ A (LruHead lru) -> drop_conn A c (LruHead lru) = pre ++ xs.
Proof.
  intros Hnd E Hl. unfold drop_conn, lists_remove.
  rewrite (filter_ne_id (A _)) by done. rewrite E.
  apply NoDup_cons_1_2 in Hnd. rewrite E in Hnd.
  apply NoDup_app in Hnd as (_ & Hd & Hnd). apply NoDup_cons_1_1 in Hnd.
  apply filter_ne_split; [|done]. intros Hin. apply (Hd _ Hin). set_solver.
Qed.

(** A list node of the table belongs to a connection of the heap. *)
Definition alive (m : gmap conn_id nfe_conn) (x : lptr) : Prop :=
  match x with ConnList c | ConnLru c => is_Some (m !! c) | _ => True end.

#[global] Instance alive_dec m x : Decision (alive m x).
Proof. destruct x; cbn; apply _. Defined.

Lemma filter_ext_in (P Q : lptr -> Prop) `{!forall x, Decision (P x)} `{!forall x, Decision (Q x)} (xs : list lptr) :
  (forall x, x ∈ xs -> P x <-> Q x) -> filter P xs = filter Q xs.
Proof.
  induction xs as [|x xs IH]; intros Hx; [done|]. rewrite !filter_cons.
  rewrite (IH (fun y Hy => Hx y (list_elem_of_further _ _ _ Hy))).
  destruct (Hx x (list_elem_of_here _ _)). repeat case_decide; tauto.
Qed.

Lemma wf_alive st A h x :
  ct_wf st A -> is_head (ct_size st) h -> x ∈ A h -> alive (ct_conns st) x.
Proof.
  intros W Hh Hx. destruct h as [i|i| |]; cbn in Hh; try done.
  - destruct (cw_lru _ _ W i x Hh Hx) as (c & -> & Hl).
    destruct (linked_conn st A c W Hl) as (k & Hk & _). cbn. eauto.
  - destruct (bucket_live st A i W Hh x Hx) as (c & k & -> & Hk). cbn. eauto.
Qed.

Lemma filter_alive_id st A h :
  ct_wf st A -> is_head (ct_size st) h -> filter (alive (ct_conns st)) (A h) = A h.
Proof.
  intros W Hh. rewrite (filter_ext_in _ (fun _ => True)) by (intros x Hx; split; [done|];
    intros _; by apply (wf_alive st A h)).
  induction (A h) as [|x xs IH]; [done|]. by rewrite filter_cons, decide_True, IH.
Qed.

Lemma filter_alive_sub m1 m2 (xs : list lptr) :
  dom m2 ⊆ dom m1 -> filter (alive m2) (filter (alive m1) xs) = filter (alive m2) xs.
Proof.
  intros Hd. rewrite list_filter_filter. apply filter_ext_in. intros x _.
  split; [by intros []|]. intros H2. split; [done|]. destruct x; cbn in *; try done;
    apply elem_of_dom, Hd, elem_of_dom, H2.
Qed.

Lemma drop_conn_alive st A c h :
  ct_wf st A -> is_head (ct_size st) h ->
  drop_conn A c h = filter (alive (delete c (ct_conns st))) (A h).
Proof.
  intros W Hh. unfold drop_conn, lists_remove. rewrite list_filter_filter.
  apply filter_ext_in. intros x Hx. pose proof (wf_alive st A h x W Hh Hx) as Ha.
  destruct x as [| |d|d]; cbn in *; try by split.
  all: destruct (decide (c = d)) as [->|Hne];
    [rewrite lookup_delete_eq|rewrite lookup_delete_ne by done]; split.
  all: first [by intros [? ?]|by intros []|by intros _; split; congruence].
Qed.

Lemma abs_expire_dom m expiry ts cs : dom (abs_expire m expiry ts cs) ⊆ dom m.
Proof.
  revert m. induction cs as [|c cs IH]; intros m; cbn [abs_expire]; [done|].
  destruct (m !! c) as [k|] eqn:Hk; [|done]. destruct (conn_fresh _ _ _); [done|].
  etrans; [apply IH|]. apply elem_of_dom_2 in Hk. destruct (_ =? 1); set_solver.
Qed.

(** One release on the LRU list: every list keeps the nodes of the connections
    that are left, in their order. *)
Lemma release_lru st A lru c pre xs :
  ct_wf st A -> (lru < LRU_PROTO_MAX)%nat -> A (LruHead lru) = pre ++ ConnLru c :: xs ->
  exists k st' A' pre', ct_conns st !! c = Some k /\ 1 <= c_lockref k /\
    nfe_conn_release st (Some c) = Ok st' /\ ct_wf st' A' /\
    A' (LruHead lru) = pre' ++ xs /\ ct_expiry st' = ct_expiry st /\ ct_size st' = ct_size st /\
    (forall h, is_head (ct_size st) h -> A' h = filter (alive (ct_conns st')) (A h)) /\
    ct_conns st' = if c_lockref k =? 1 then delete c (ct_conns st)
                   else <[c := set_lockref (c_lockref k - 1) k]> (ct_conns st).
Proof.
  intros W Hl E.
  destruct (cw_lru _ _ W lru (ConnLru c) Hl) as (d & [= <-] & Hlk); [rewrite E; set_solver|].
  destruct (linked_conn st A c W Hlk) as (k & Hk & _ & Hr). exists k.
  pose proof (release_cases st A c k W Hk Hr) as Hrel. destruct (c_lockref k =? 1).
  - destruct Hrel as (st' & E' & Hm & Hs & He & W'). exists st', (drop_conn A c), pre.
    split_and!; try done; [lia| |].
    + apply drop_conn_lru; [|done|].
      * apply (wf_ring _ _ _ (cw_lists _ _ W) (LruHead lru) Hl).
      * intros Hin. by destruct (cw_lru _ _ W lru _ Hl Hin) as (? & [=] & _).
    + intros h Hh. rewrite Hm. by apply drop_conn_alive.
  - destruct Hrel as [E' W']. eexists _, A, (pre ++ [ConnLru c]).
    split_and!; [done|lia|exact E'|exact W'| |done|done| |done]; [by rewrite <- app_assoc|].
    intros h Hh. symmetry. by apply (filter_alive_id _ A h W').
Qed.

Lemma expire_loop_spec n st A lru ts pre xs tmp :
  ct_wf st A -> (lru < LRU_PROTO_MAX)%nat -> A (LruHead lru) = pre ++ xs ->
  (xs <> [] -> tmp = default (LruHead lru) (head (tail xs))) -> (length xs < n)%nat ->
  exists st' A', expire_loop n st lru ts (default (LruHead lru) (head xs)) tmp = Ok st' /\
    ct_wf st' A' /\ ct_size st' = ct_size st /\ ct_expiry st' = ct_expiry st /\
    ct_conns st' = abs_expire (ct_conns st) (nth lru (ct_expiry st) 0) ts (lru_conns xs) /\
    forall h, is_head (ct_size st) h -> A' h = filter (alive (ct_conns st')) (A h).
Proof.
  revert st A pre xs tmp. induction n as [|n IH]; intros st A pre xs tmp W Hl E Et Hn; [lia|].
  destruct xs as [|x xs].
  { cbn [expire_loop head default]. rewrite bool_decide_eq_true_2 by done. exists st, A.
    split_and!; try done. intros h Hh. by rewrite filter_alive_id. }
  specialize (Et ltac:(done)). cbn [head tail default id] in *.
  destruct (cw_lru _ _ W lru x Hl) as (c & -> & _); [rewrite E; set_solver|].
  destruct (release_lru st A lru c pre xs W Hl E)
    as (k & st1 & A1 & pre1 & Hk & Hr & E1 & W1 & EA & He & Hsz & HA1 & Hm).
  cbn [expire_loop id]. rewrite bool_decide_eq_false_2 by done.
  unfold get_conn. rewrite Hk. cbn [deref]. cbind. rewrite c_assert_Ok by lia. cbind.
  cbn [lru_conns omap list_omap abs_expire]. fold (lru_conns xs). rewrite Hk.
  fold (conn_fresh (nth lru (ct_expiry st) 0) ts k).
  destruct (conn_fresh _ ts k).
  { exists st, A. split_and!; try done. intros h Hh. by rewrite filter_alive_id. }
  rewrite E1. cbind.
  pose proof (wf_ring _ _ _ (cw_lists _ _ W1) (LruHead lru) Hl) as Hring.
  destruct (ring_seq_next _ _ _ _ _ Hring EA) as (t' & Et' & Ht'). subst tmp. rewrite Et'. cbind.
  destruct (IH st1 A1 pre1 xs t' W1 Hl EA Ht') as (st2 & A2 & E2 & W2 & Hs2 & He2 & Hm2 & HA2).
  { cbn in Hn. lia. }
  exists st2, A2. split_and!; [done|done|congruence|congruence|by rewrite Hm2, Hm, He|].
  intros h Hh. rewrite HA2, (HA1 h Hh) by congruence. apply filter_alive_sub.
  rewrite Hm2. apply abs_expire_dom.
Qed.

Lemma lru_expire_spec st A lru ts :
  ct_wf st A -> (lru < LRU_PROTO_MAX)%nat -> exists st' A',
  nfe_conntrack_lru_expire st lru ts = Ok st' /\ ct_wf st' A' /\
  ct_size st' = ct_size st /\ ct_expiry st' = ct_expiry st /\
  ct_conns st' = abs_expire (ct_conns st) (nth lru (ct_expiry st) 0) ts
                   (lru_conns (A (LruHead lru))) /\
  forall h, is_head (ct_size st) h -> A' h = filter (alive (ct_conns st')) (A h).
Proof.
  intros W Hl. unfold nfe_conntrack_lru_expire.
  pose proof (wf_ring _ _ _ (cw_lists _ _ W) (LruHead lru) Hl) as Hring.
  rewrite (ld_next_Ok _ _ _ (ring_next _ _ _ [] _ _ Hring eq_refl)). cbind.
  destruct (ring_seq_next _ _ _ [] _ Hring eq_refl) as (t' & Et' & Ht'). rewrite Et'. cbind.
  apply (expire_loop_spec _ st A lru ts [] (A (LruHead lru))); [done|done|done|done|].
  pose proof (ring_length _ _ _ Hring) as Hlen. cbn in Hlen. lia.
Qed.

(** A connection that was used within the expiry time stays as it is. *)
Lemma abs_expire_fresh m expiry ts cs c k :
  m !! c = Some k -> conn_fresh expiry ts k = true -> abs_expire m expiry ts cs !! c = Some k.
Proof.
  revert m. induction cs as [|d cs IH]; intros m Hk Hf; cbn [abs_expire]; [done|].
  destruct (m !! d) as [kd|] eqn:Hd; [|done].
  destruct (conn_fresh expiry ts kd) eqn:Ed; [done|].
  assert (d <> c) by congruence. apply IH; [|done].
  destruct (_ =? 1); [by rewrite lookup_delete_ne|by rewrite lookup_insert_ne].
Qed.

Lemma lru_expire_fresh st A lru ts c k :
  ct_wf st A -> (lru < LRU_PROTO_MAX)%nat -> linked st A c -> ct_conns st !! c = Some k ->
  conn_fresh (nth lru (ct_expiry st) 0) ts k = true -> exists st' A',
  nfe_conntrack_lru_expire st lru ts = Ok st' /\ ct_wf st' A' /\ ct_expiry st' = ct_expiry st /\
  linked st' A' c /\ ct_conns st' !! c = Some k.
Proof.
  intros W Hl (i & Hi & Hin) Hk Hf.
  destruct (lru_expire_spec st A lru ts W Hl) as (st' & A' & E & W' & Hs & He & Hm & HA).
  assert (ct_conns st' !! c = Some k) as Hk' by (rewrite Hm; by apply abs_expire_fresh).
  exists st', A'. split_and!; [done..| |done]. exists i. split; [by rewrite Hs|].
  rewrite HA by done. apply list_elem_of_filter. split; [by exists k|done].
Qed.

(** *** Creation *)
Lemma init_all_lookup hs x :
  foldr (fun x L => nfe_list_init L x) ∅ hs !! x = if decide (x ∈ hs) then Some (x, x) else None.
Proof.
  induction hs as [|h hs IH]; [done|]. cbn [foldr]. unfold nfe_list_init at 1.
  rewrite lookup_insert, IH. repeat case_decide; set_solver.
Qed.

Lemma elem_ct_heads size h : h ∈ ct_heads size <-> is_head size h.
Proof.
  unfold ct_heads. rewrite elem_of_app, !list_elem_of_fmap.
  setoid_rewrite elem_of_seq. setoid_rewrite elem_of_seqZ. split.
  - intros [(i & -> & Hi)|(i & -> & Hi)]; cbn; lia.
  - destruct h as [i|i| |]; cbn; intros Hh; [left|right|done|done]; exists i; (split; [done|lia]).
Qed.

Lemma create_wf cfg size : 1 <= size <= 2 ^ 30 -> exists st,
  nfe_conntrack_create cfg false true size = (0, Some st) /\ ct_wf st (fun _ => []) /\
  size <= ct_size st /\ ct_conns st = ∅ /\ ct_expiry st = lru_expiries cfg.
Proof.
  intros Hs. destruct (clp2_pow2 size) as (k & Hk & Ec & Hlo & Hhi); [lia|].
  assert (2 ^ k <= 2 ^ 30) as Hk30.
  { destruct (decide (size = 1)) as [->|]; [by replace (2 ^ k) with 1 by (rewrite <- Ec; done)|].
    destruct (Z.le_gt_cases k 30); [apply Z.pow_le_mono_r; lia|].
    assert (2 ^ 31 <= 2 ^ k) by (apply Z.pow_le_mono_r; lia). lia. }
  assert (0 < 2 ^ k) by (apply Z.pow_pos_nonneg; lia).
  assert (i32 (2 ^ k) = 2 ^ k) as Ei by (unfold i32; rewrite Z.mod_small; lia).
  assert (k <= 30) by (apply (Z.pow_le_mono_r_iff 2); lia).
  unfold nfe_conntrack_create. rewrite Ec. rewrite (proj2 (Z.eqb_neq _ 0)) by lia.
  cbn [orb negb]. eexists. split; [done|]. rewrite Ei.
  split; [|cbn; split_and!; done || lia].
  split; cbn [ct_size ct_expiry ct_links ct_conns]; try by intros; set_solver.
  - split; try by intros; set_solver.
    + intros h Hh%elem_ct_heads. apply ring_nil. by rewrite init_all_lookup, decide_True.
    + intros x. rewrite init_all_lookup. case_decide as Hx; [|by intros []].
      left. by apply elem_ct_heads.
  - intros c. rewrite !init_all_lookup, lookup_empty.
    by rewrite !decide_False by (rewrite elem_ct_heads; by intros []).
Qed.

(** *** Walks *)
Lemma lru_ring st A lru :
  ct_wf st A -> (lru < LRU_PROTO_MAX)%nat -> ring (ct_links st) (LruHead lru) (A (LruHead lru)).
Proof. intros W Hl. exact (wf_ring _ _ _ (cw_lists _ _ W) (LruHead lru) Hl). Qed.

Lemma dump_loop_spec n st A lru pre xs tmp :
  ct_wf st A -> (lru < LRU_PROTO_MAX)%nat -> A (LruHead lru) = pre ++ xs ->
  (xs <> [] -> tmp = default (LruHead lru) (head (tail xs))) -> (length xs < n)%nat ->
  dump_loop n st lru (default (LruHead lru) (head xs)) tmp = Ok (lru_conns xs).
Proof.
  revert pre xs tmp. induction n as [|n IH]; intros pre xs tmp W Hl E Et Hn; [lia|].
  destruct xs as [|x xs].
  { cbn [dump_loop head default]. by rewrite bool_decide_eq_true_2. }
  specialize (Et ltac:(done)). cbn [head tail default id] in *. subst tmp.
  destruct (cw_lru _ _ W lru x Hl) as (c & -> & _); [rewrite E; set_solver|].
  cbn [dump_loop id]. rewrite bool_decide_eq_false_2 by done.
  assert (A (LruHead lru) = (pre ++ [ConnLru c]) ++ xs) as E' by (by rewrite <- app_assoc).
  destruct (ring_seq_next _ _ _ _ _ (lru_ring st A lru W Hl) E') as (t' & Et' & Ht').
  rewrite Et'. cbind. rewrite (IH (pre ++ [ConnLru c]) xs t') by (done || cbn in Hn; lia). done.
Qed.

Lemma dump_from_spec k st A lru :
  ct_wf st A -> (lru + k = LRU_PROTO_MAX)%nat ->
  dump_from k st lru = Ok (concat (map (fun i => lru_conns (A (LruHead i))) (seq lru k))).
Proof.
  intros W. revert lru. induction k as [|k IH]; intros lru Hk; [done|].
  assert (lru < LRU_PROTO_MAX)%nat as Hl by lia.
  pose proof (lru_ring st A lru W Hl) as Hring. cbn [dump_from]. unfold dump_lru.
  rewrite (ld_next_Ok _ _ _ (ring_next _ _ _ [] _ _ Hring eq_refl)). cbind.
  destruct (ring_seq_next _ _ _ [] _ Hring eq_refl) as (t' & Et' & Ht'). rewrite Et'. cbind.
  rewrite (dump_loop_spec _ st A lru [] (A (LruHead lru))); [|done..|].
  - cbind. rewrite (IH (S lru)) by lia. done.
  - pose proof (ring_length _ _ _ Hring) as Hlen. cbn in Hlen. lia.
Qed.

(** One reference dropped, the connection freed with its last one. *)
Definition abs_release (m : gmap conn_id nfe_conn) (c : conn_id) : gmap conn_id nfe_conn :=
  match m !! c with
  | None => m
  | Some k => if c_lockref k =? 1 then delete c m else <[c := set_lockref (c_lockref k - 1) k]> m
  end.

Definition unlink_conn (A : lptr -> list lptr) (c : conn_id) : lptr -> list lptr :=
  lists_remove (lists_remove A (ConnLru c)) (ConnList c).

Lemma elem_unlink_conn A c h y :
  y ∈ unlink_conn A c h <-> y <> ConnList c /\ y <> ConnLru c /\ y ∈ A h.
Proof. unfold unlink_conn. rewrite !elem_lists_remove. tauto. Qed.

Lemma unlink_conn_wf st A c k :
  ct_wf st A -> ct_conns st !! c = Some k -> exists L1 L2,
  nfe_list_remove (ct_links st) (ConnLru c) = Ok L1 /\
  nfe_list_remove L1 (ConnList c) = Ok L2 /\ ct_wf (set_links L2 st) (unlink_conn A c).
Proof.
  intros W Hk. pose proof (cw_nodes _ _ W c) as [N1 N2].
  assert (is_Some (ct_conns st !! c)) as Hs by eauto.
  destruct (remove_wf (ct_links st) _ A (ConnLru c) (cw_lists _ _ W)) as (L1 & E1 & D1 & W1 & R1);
    [by apply N2|by intros []|].
  destruct (remove_wf L1 _ _ (ConnList c) W1) as (L2 & E2 & D2 & W2 & R2);
    [apply (links_some_dom (ct_links st)); [done|by apply N1]|by intros []|].
  exists L1, L2. split; [done|]. split; [done|].
  assert (forall d, linked (set_links L2 st) (unlink_conn A c) d <-> linked st A d /\ d <> c) as Hlk.
  { intros d. unfold linked. setoid_rewrite elem_unlink_conn. cbn. split.
    - intros (i & Hi & Hne & _ & Hin). split; [by exists i|congruence].
    - intros [(i & Hi & Hin) Hne]. exists i. split_and!; [lia|lia|congruence|done|done]. }
  destruct W as [V1 V2 V3 V4 V5 V6 V7 V8]. split; cbn; [done|done|done| | | | |].
  - intros i x Hi (_ & _ & Hx)%elem_unlink_conn. eauto.
  - intros i x Hi (_ & Hne & Hx)%elem_unlink_conn. destruct (V5 i x Hi Hx) as (d & -> & Hd).
    exists d. rewrite Hlk. split_and!; [done|done|congruence].
  - intros d. rewrite <- !(elem_of_dom L2), D2, D1, !elem_of_dom. apply V6.
  - intros i d Hi (_ & _ & Hx)%elem_unlink_conn. by apply V7.
  - intros d d' kd kd' [Hd _]%Hlk [Hd' _]%Hlk. by apply V8.
Qed.

Lemma lists_remove_id A x h : x ∉ A h -> lists_remove A x h = A h.
Proof. apply filter_ne_id. Qed.

(** One step of the destruction of a list: its first connection goes. *)
Lemma destroy_step st A lru c xs :
  ct_wf st A -> (lru < LRU_PROTO_MAX)%nat -> A (LruHead lru) = ConnLru c :: xs ->
  exists L1 L2 st' A', nfe_list_remove (ct_links st) (ConnLru c) = Ok L1 /\
  nfe_list_remove L1 (ConnList c) = Ok L2 /\
  nfe_conn_release (set_links L2 st) (Some c) = Ok st' /\ ct_wf st' A' /\
  ct_conns st' = abs_release (ct_conns st) c /\ A' (LruHead lru) = xs /\
  (forall j, (j < LRU_PROTO_MAX)%nat -> j <> lru -> A' (LruHead j) = A (LruHead j)).
Proof.
  intros W Hl E.
  assert (ConnLru c ∈ A (LruHead lru)) as Hin by (rewrite E; set_solver).
  destruct (cw_lru _ _ W lru (ConnLru c) Hl Hin) as (d & [= <-] & Hlk).
  destruct (linked_conn st A c W Hlk) as (k & Hk & _ & Hr).
  destruct (unlink_conn_wf st A c k W Hk) as (L1 & L2 & E1 & E2 & W2).
  assert (forall j, (j < LRU_PROTO_MAX)%nat -> ConnList c ∉ A (LruHead j)) as HnL.
  { intros j Hj Hc. by destruct (cw_lru _ _ W j _ Hj Hc) as (? & [=] & _). }
  assert (forall j, (j < LRU_PROTO_MAX)%nat ->
    unlink_conn A c (LruHead j) = if decide (j = lru) then xs else A (LruHead j)) as HU.
  { intros j Hj. unfold unlink_conn. rewrite lists_remove_id.
    2: { intros [_ ?]%elem_lists_remove. by apply (HnL j). }
    case_decide as Ej; [subst j|].
    - unfold lists_remove. rewrite E. apply (filter_ne_split []); [set_solver|].
      destruct (lru_ring st A lru W Hl) as [Hnd _]. rewrite E in Hnd.
      by apply NoDup_cons_1_2, NoDup_cons_1_1 in Hnd.
    - apply lists_remove_id. intros Hj'. apply Ej.
      assert (LruHead j = LruHead lru) as [= ->]; [|done].
      by apply (wf_disj _ _ _ (cw_lists _ _ W) _ _ (ConnLru c)). }
  assert (forall j, drop_conn (unlink_conn A c) c (LruHead j) = unlink_conn A c (LruHead j)) as HD.
  { intros j. unfold drop_conn. rewrite lists_remove_id, lists_remove_id; [done|..].
    - rewrite elem_unlink_conn. tauto.
    - rewrite elem_lists_remove, elem_unlink_conn. tauto. }
  exists L1, L2. pose proof (release_cases (set_links L2 st) _ c k W2 Hk Hr) as Hrel.
  unfold abs_release. rewrite Hk. destruct (c_lockref k =? 1).
  - destruct Hrel as (st' & E' & Hm & _ & _ & W'). eexists st', _.
    split_and!; [done|done|done|exact W'|done|..].
    + by rewrite HD, HU, decide_True.
    + intros j Hj Hne. by rewrite HD, HU, decide_False.
  - destruct Hrel as [E' W']. eexists _, _. split_and!; [done|done|exact E'|exact W'|done|..].
    + by rewrite HU, decide_True.
    + intros j Hj Hne. by rewrite HU, decide_False.
Qed.

Lemma destroy_loop_spec n st A lru xs tmp :
  ct_wf st A -> (lru < LRU_PROTO_MAX)%nat -> A (LruHead lru) = xs ->
  (xs <> [] -> tmp = default (LruHead lru) (head (tail xs))) -> (length xs < n)%nat ->
  exists st' A', destroy_loop n st lru (default (LruHead lru) (head xs)) tmp = Ok st' /\
    ct_wf st' A' /\ ct_conns st' = foldl abs_release (ct_conns st) (lru_conns xs) /\
    (forall j, (j < LRU_PROTO_MAX)%nat -> j <> lru -> A' (LruHead j) = A (LruHead j)).
Proof.
  revert st A xs tmp. induction n as [|n IH]; intros st A xs tmp W Hl E Et Hn; [lia|].
  destruct xs as [|x xs].
  { exists st, A. cbn [destroy_loop head default]. by rewrite bool_decide_eq_true_2. }
  specialize (Et ltac:(done)). cbn [head tail default id] in *. subst tmp.
  destruct (cw_lru _ _ W lru x Hl) as (c & -> & _); [rewrite E; set_solver|].
  destruct (destroy_step st A lru c xs W Hl E)
    as (L1 & L2 & st1 & A1 & E1 & E2 & E3 & W1 & Hm & EA & Hj).
  cbn [destroy_loop id]. rewrite bool_decide_eq_false_2 by done.
  rewrite E1. cbind. rewrite E2. cbind. rewrite E3. cbind.
  destruct (ring_seq_next _ _ _ [] _ (lru_ring st1 A1 lru W1 Hl) EA) as (t' & Et' & Ht').
  rewrite Et'. cbind.
  destruct (IH st1 A1 xs t' W1 Hl EA Ht') as (st2 & A2 & E4 & W2 & Hm2 & Hj2);
    [cbn in Hn; lia|].
  exists st2, A2. split_and!; [done|done|by rewrite Hm2, Hm|].
  intros j Hjl Hne. by rewrite Hj2, Hj.
Qed.

Lemma destroy_from_spec k st A lru :
  ct_wf st A -> (lru + k = LRU_PROTO_MAX)%nat -> exists st' A',
  destroy_from k st lru = Ok st' /\ ct_wf st' A' /\
  ct_conns st' = foldl abs_release (ct_conns st)
                   (concat (map (fun i => lru_conns (A (LruHead i))) (seq lru k))).
Proof.
  revert st A lru. induction k as [|k IH]; intros st A lru W Hk; [by exists st, A|].
  assert (lru < LRU_PROTO_MAX)%nat as Hl by lia.
  pose proof (lru_ring st A lru W Hl) as Hring. cbn [destroy_from].
  rewrite (ld_next_Ok _ _ _ (ring_next _ _ _ [] _ _ Hring eq_refl)). cbind.
  destruct (ring_seq_next _ _ _ [] _ Hring eq_refl) as (t' & Et' & Ht'). rewrite Et'. cbind.
  destruct (destroy_loop_spec (S (size (ct_links st))) st A lru _ t' W Hl eq_refl Ht')
    as (st1 & A1 & E1 & W1 & Hm1 & Hj1).
  { pose proof (ring_length _ _ _ Hring) as Hlen. cbn in Hlen. lia. }
  rewrite E1. cbind. destruct (IH st1 A1 (S lru) W1) as (st2 & A2 & E2 & W2 & Hm2); [lia|].
  exists st2, A2. split_and!; [done|done|]. rewrite Hm2, Hm1. cbn [seq map concat].
  rewrite foldl_app. f_equal. f_equal. apply map_ext_in. intros i Hi%in_seq.
  rewrite Hj1; [done|lia|lia].
Qed.

End Table.

(** ** The theorems of the table, for the hash of the engine *)

(** The samples run on a little-endian host. *)
#[local] Existing Instance little_endian.

(** [clp2] rounds a table size up to the next power of two, and gives 0
    (which [nfe_conntrack_create] refuses) when there is none in 32 bits. *)
Theorem clp2_correct n : is_u32 n ->
  if (1 <=? n) && (n <=? 2 ^ 31) then
    exists k, 0 <= k <= 31 /\ clp2 n = 2 ^ k /\ n <= 2 ^ k /\ (1 < n -> 2 ^ k < 2 * n)
  else clp2 n = 0.
Proof.
  intros Hn. destruct ((1 <=? n) && (n <=? 2 ^ 31)) eqn:E.
  - apply clp2_pow2. lia.
  - apply clp2_zero; [done|]. unfold is_u32 in Hn. lia.
Qed.

Lemma clp2_correct_witness :
  exists k, 0 <= k <= 31 /\ clp2 1000 = 2 ^ k /\ 1000 <= 2 ^ k /\ (1 < 1000 -> 2 ^ k < 2 * 1000).
Proof. apply (clp2_correct 1000). unfold is_u32. lia. Defined.

(** A created table is well formed, empty, at least as large as asked
    for, and carries the configured timeouts. *)
Theorem conntrack_create_wf `{HostEndian} cfg size : 1 <= size <= 2 ^ 30 -> exists st,
  nfe_conntrack_create cfg false true size = (0, Some st) /\
  ct_wf nfe_tuple_hash st (fun _ => []) /\
  size <= ct_size st /\ ct_conns st = ∅ /\ ct_expiry st = lru_expiries cfg.
Proof. exact (create_wf nfe_tuple_hash cfg size). Qed.

Lemma conntrack_create_wf_witness : exists st,
  nfe_conntrack_create nfe_config_default false true 3 = (0, Some st) /\
  ct_wf (@nfe_tuple_hash little_endian) st (fun _ => []) /\
  3 <= ct_size st /\ ct_conns st = ∅ /\ ct_expiry st = lru_expiries nfe_config_default.
Proof. apply (@conntrack_create_wf little_endian). lia. Defined.

(** A fresh key of the heap as the address an allocator returns. *)
Definition alloc_ok (m : gmap conn_id nfe_conn) (t : nfe_tuple) : option conn_id :=
  Some (fresh (dom m)).

Lemma alloc_ok_fresh m t c : alloc_ok m t = Some c -> m !! c = None.
Proof. intros [= <-]. apply not_elem_of_dom, is_fresh. Qed.

(** C1: On a well-formed table (where at most one linked connection has a
    given flow), for a packet whose tuple has fields in range and whose hash is
    the hash of its tuple, with an allocator that returns only unused memory or
    NULL and no reference count at its 32-bit limit, a lookup never faults and
    keeps the table well formed. When a linked connection has the packet's flow
    it is returned with one more reference and nothing else changes. When there
    is none the result is NULL and nothing changes if the policy says not to
    allocate or the allocator fails; otherwise a new connection with the tuple
    of the packet, reversed under the inverting policy, is put at the end of its
    bucket with one reference and returned. *)
Theorem conntrack_lookup_correct `{HostEndian} alloc st A packet policy :
  (forall m t c, alloc m t = Some c -> m !! c = None) ->
  ct_wf nfe_tuple_hash st A -> tuple_ok (p_tuple packet) ->
  p_hash packet = nfe_tuple_hash (p_tuple packet) -> refs_bounded st ->
  exists r st' A', nfe_conntrack_lookup alloc st packet policy = Ok (r, st') /\
    ct_wf nfe_tuple_hash st' A' /\ lookup_outcome alloc st A (p_tuple packet) policy r st' A'.
Proof. intros Ha. exact (lookup_cases nfe_tuple_hash alloc Ha st A packet policy). Qed.

Definition sample_tuple : nfe_tuple :=
  udp4_tuple [192; 168; 1; 10] [8; 8; 8; 8] [0xc0; 0x01] [0; 53].
Definition sample_packet : nfe_packet :=
  mk_packet sample_tuple 9 0 NFE_PACKET_TYPE_HOST NEXT_LOOKUP_UDP
    (nfe_tuple_hash sample_tuple) 0 45 42 (Some 34).

Lemma sample_tuple_ok : tuple_ok sample_tuple.
Proof. apply (bool_decide_unpack _). by vm_compute. Qed.

Lemma conntrack_lookup_correct_witness : exists st r st' A',
  nfe_conntrack_create nfe_config_default false true 8 = (0, Some st) /\
  nfe_conntrack_lookup alloc_ok st sample_packet NFE_ALLOC_POLICY_CREATE = Ok (r, st') /\
  ct_wf (@nfe_tuple_hash little_endian) st' A' /\
  lookup_outcome alloc_ok st (fun _ => []) sample_tuple NFE_ALLOC_POLICY_CREATE r st' A'.
Proof.
  destruct (create_wf nfe_tuple_hash nfe_config_default 8)
    as (st & E & W & _ & Hm & _); [lia|].
  destruct (@conntrack_lookup_correct little_endian alloc_ok st (fun _ => []) sample_packet
    NFE_ALLOC_POLICY_CREATE) as (r & st' & A' & E' & W' & Ho).
  - exact alloc_ok_fresh.
  - exact W.
  - exact sample_tuple_ok.
  - exact eq_refl.
  - by apply refs_bounded_empty.
  - exists st, r, st', A'. split_and!; [exact E|exact E'|exact W'|exact Ho].
Defined.

(** Round trip of the table: once a lookup has returned a connection, a
    later lookup of any packet of the same flow, in either direction and under
    any policy, returns the same connection with one more reference. *)
Theorem conntrack_lookup_roundtrip `{HostEndian} alloc st A p policy c st' A' p' policy' :
  (forall m t c, alloc m t = Some c -> m !! c = None) ->
  ct_wf nfe_tuple_hash st A -> ct_wf nfe_tuple_hash st' A' ->
  lookup_outcome alloc st A (p_tuple p) policy (Some c) st' A' ->
  refs_bounded st' -> same_flow (p_tuple p) (p_tuple p') ->
  p_hash p' = nfe_tuple_hash (p_tuple p') ->
  exists k, ct_conns st' !! c = Some k /\
    nfe_conntrack_lookup alloc st' p' policy' =
      Ok (Some c, upd_conn st' c (set_lockref (c_lockref k + 1) k)).
Proof.
  intros Ha. exact (lookup_again nfe_tuple_hash alloc Ha st A p policy c st' A' p' policy').
Qed.

(** The table after the first packet of a flow. *)
Lemma table_of tuple : tuple_ok tuple -> exists st st' A' c,
  ct_wf (@nfe_tuple_hash little_endian) st (fun _ => []) /\
  ct_wf (@nfe_tuple_hash little_endian) st' A' /\
  lookup_outcome alloc_ok st (fun _ => []) tuple NFE_ALLOC_POLICY_CREATE (Some c) st' A' /\
  ct_conns st' = {[ c := mk_conn tuple tcp_zero 1 0 0 ]} /\ linked st' A' c /\
  A' (LruHead LRU_PROTO_UDP) = [] /\ ct_expiry st' = lru_expiries nfe_config_default.
Proof.
  intros Ht. destruct (create_wf nfe_tuple_hash nfe_config_default 8)
    as (st & E & W & _ & Hm & Hx); [lia|].
  destruct (first_conn nfe_tuple_hash alloc_ok alloc_ok_fresh st tuple W Hm Ht)
    as (st' & A' & c & ? & ? & ? & ? & ? & He); [by eexists|].
  exists st, st', A', c. rewrite <- Hx. split_and!; assumption.
Qed.

(** The table after the first packet of the sample flow. *)
Lemma sample_table : exists st st' A' c,
  ct_wf (@nfe_tuple_hash little_endian) st (fun _ => []) /\
  ct_wf (@nfe_tuple_hash little_endian) st' A' /\
  lookup_outcome alloc_ok st (fun _ => []) sample_tuple NFE_ALLOC_POLICY_CREATE (Some c) st' A' /\
  ct_conns st' = {[ c := mk_conn sample_tuple tcp_zero 1 0 0 ]} /\ linked st' A' c /\
  A' (LruHead LRU_PROTO_UDP) = [].
Proof.
  destruct (table_of sample_tuple sample_tuple_ok)
    as (st & st' & A' & c & W & W' & Ho & Hm & Hl & HA & _).
  exists st, st', A', c. done.
Qed.

Lemma conntrack_lookup_roundtrip_witness : exists st' c k,
  ct_conns st' !! c = Some k /\
  nfe_conntrack_lookup alloc_ok st'
    (set_tuple (nfe_tuple_copy sample_tuple true) sample_packet) NFE_ALLOC_POLICY_NONE =
  Ok (Some c, upd_conn st' c (set_lockref (c_lockref k + 1) k)).
Proof.
  destruct sample_table as (st & st' & A' & c & W & W' & Ho & Hm & _). exists st', c.
  apply (@conntrack_lookup_roundtrip little_endian alloc_ok st (fun _ => []) sample_packet
    NFE_ALLOC_POLICY_CREATE c st' A'); [exact alloc_ok_fresh|exact W|exact W'|exact Ho|..].
  - unfold refs_bounded. rewrite Hm. apply map_Forall_singleton. cbn. lia.
  - apply same_flow_alt. split; [exact sample_tuple_ok|by right].
  - symmetry. apply hash_invert. exact sample_tuple_ok.
Defined.

(** [nfe_conn_release] on a connection of the table never faults: it
    drops one reference, and the last one unlinks the connection from its
    bucket and its LRU list and frees it, leaving a well-formed table. *)
Theorem conn_release_correct `{HostEndian} st A c k :
  ct_wf nfe_tuple_hash st A -> linked st A c -> ct_conns st !! c = Some k ->
  exists st' A', nfe_conn_release st (Some c) = Ok st' /\ ct_wf nfe_tuple_hash st' A' /\
    ct_conns st' = abs_release (ct_conns st) c /\
    (if c_lockref k =? 1 then ~ linked st' A' c else linked st' A' c).
Proof.
  intros W Hl Hk. destruct (linked_conn _ st A c W Hl) as (k' & Hk' & _ & Hr).
  replace k' with k in Hr by congruence.
  pose proof (release_cases _ st A c k W Hk Hr) as Hrel. unfold abs_release. rewrite Hk.
  destruct (c_lockref k =? 1).
  - destruct Hrel as (st' & E & Hm & Hs & _ & W'). exists st', (drop_conn A c).
    split_and!; [exact E|exact W'|exact Hm|]. unfold linked. rewrite Hs.
    intros Hd. apply (linked_drop st) in Hd. tauto.
  - destruct Hrel as [E W']. eexists _, A. split_and!; [exact E|exact W'|reflexivity|exact Hl].
Qed.

Lemma conn_release_correct_witness : exists st c st',
  ct_conns st = {[ c := mk_conn sample_tuple tcp_zero 1 0 0 ]} /\
  nfe_conn_release st (Some c) = Ok st' /\ ct_conns st' = ∅.
Proof.
  destruct sample_table as (_ & st & A & c & _ & W & _ & Hm & Hl & _).
  assert (ct_conns st !! c = Some (mk_conn sample_tuple tcp_zero 1 0 0)) as Hk
    by (rewrite Hm; apply lookup_singleton_eq).
  destruct (@conn_release_correct little_endian st A c _ W Hl Hk) as (st' & A' & E & _ & Ec & _).
  exists st, c, st'. split; [exact Hm|]. split; [exact E|]. rewrite Ec, Hm. unfold abs_release.
  rewrite lookup_singleton_eq. apply delete_singleton_eq.
Defined.

(** C11: Refinement of the expiry loop, on a well-formed table and one of its
    LRU lists. The pointer walk with its look-ahead never faults and computes
    [abs_expire]: from the oldest connection of the list on, up to the first
    one that is not stale, each loses one reference; those that had no other
    are freed, those that had one stay in the heap. Afterwards the table is well
    formed and every list of it, buckets and LRU lists alike, holds exactly the
    nodes of the connections still in the heap, in the order it had: a stale
    connection with another reference is left on its LRU list and in its
    bucket. *)
Theorem lru_expire_refines `{HostEndian} st A lru ts :
  ct_wf nfe_tuple_hash st A -> (lru < LRU_PROTO_MAX)%nat -> exists st' A',
  nfe_conntrack_lru_expire st lru ts = Ok st' /\ ct_wf nfe_tuple_hash st' A' /\
  ct_size st' = ct_size st /\ ct_expiry st' = ct_expiry st /\
  ct_conns st' = abs_expire (ct_conns st) (nth lru (ct_expiry st) 0) ts
                   (lru_conns (A (LruHead lru))) /\
  forall h, is_head (ct_size st) h -> A' h = filter (alive (ct_conns st')) (A h).
Proof. exact (lru_expire_spec nfe_tuple_hash st A lru ts). Qed.

(** The sample connection on the UDP list. *)
Lemma sample_table_lru : exists st A c,
  ct_wf (@nfe_tuple_hash little_endian) st A /\ lru_conns (A (LruHead LRU_PROTO_UDP)) = [c] /\
  ct_conns st = {[ c := mk_conn sample_tuple tcp_zero 1 0 0 ]}.
Proof.
  destruct sample_table as (_ & st & A & c & _ & W & _ & Hm & Hl & HA).
  destruct (lru_update_wf nfe_tuple_hash st A LRU_PROTO_UDP c W)
    as (L & _ & W'); [unfold LRU_PROTO_UDP, LRU_PROTO_MAX; lia|exact Hl|].
  eexists _, _, c. split; [exact W'|]. split; [|exact Hm].
  unfold lists_insert. rewrite decide_True by done.
  unfold lists_remove. rewrite HA. done.
Qed.

Lemma lru_expire_refines_witness : exists st st' c,
  ct_conns st = {[ c := mk_conn sample_tuple tcp_zero 1 0 0 ]} /\
  nfe_conntrack_lru_expire st LRU_PROTO_UDP (2 ^ 40) = Ok st' /\
  ct_conns st' = if 2 ^ 40 <? nth LRU_PROTO_UDP (ct_expiry st) 0 then ct_conns st else ∅.
Proof.
  destruct sample_table_lru as (st & A & c & W & Hl & Hm).
  destruct (@lru_expire_refines little_endian st A LRU_PROTO_UDP (2 ^ 40) W)
    as (st' & A' & E & _ & _ & _ & Ec & _); [unfold LRU_PROTO_UDP, LRU_PROTO_MAX; lia|].
  exists st, st', c. split; [exact Hm|]. split; [exact E|].
  rewrite Ec, Hl. cbn [abs_expire]. rewrite Hm, lookup_singleton_eq. unfold conn_fresh.
  cbn [c_timestamp c_lockref].
  change (2 ^ 40 <? 0) with false. change (u64 (2 ^ 40 - 0)) with (2 ^ 40).
  destruct (2 ^ 40 <? _); [reflexivity|]. apply delete_singleton_eq.
Defined.

(** The dump visits the connections of all LRU lists, list by list and
    oldest first, and returns their number. *)
Theorem conntrack_dump_correct `{HostEndian} st A :
  ct_wf nfe_tuple_hash st A ->
  let cs := concat (map (fun i => lru_conns (A (LruHead i))) (seq 0 LRU_PROTO_MAX)) in
  nfe_conntrack_dump (Some st) false = Ok (Z.of_nat (length cs), cs).
Proof.
  intros W cs. cbn [nfe_conntrack_dump].
  by rewrite (dump_from_spec nfe_tuple_hash LRU_PROTO_MAX st A 0 W eq_refl).
Qed.

Lemma conntrack_dump_correct_witness : exists st A,
  ct_wf (@nfe_tuple_hash little_endian) st A /\
  nfe_conntrack_dump (Some st) false =
    Ok (Z.of_nat (length (concat (map (fun i => lru_conns (A (LruHead i))) (seq 0 LRU_PROTO_MAX)))),
        concat (map (fun i => lru_conns (A (LruHead i))) (seq 0 LRU_PROTO_MAX))).
Proof.
  destruct sample_table_lru as (st & A & c & W & _ & _). exists st, A. split; [exact W|].
  exact (@conntrack_dump_correct little_endian st A W).
Defined.

(** Destroying a table drops one reference of every connection on its LRU
    lists and frees those whose last reference it was; it never faults. *)
Theorem conntrack_destroy_correct `{HostEndian} st A :
  ct_wf nfe_tuple_hash st A ->
  nfe_conntrack_destroy (Some st) =
    Ok (0, foldl abs_release (ct_conns st)
             (concat (map (fun i => lru_conns (A (LruHead i))) (seq 0 LRU_PROTO_MAX)))).
Proof.
  intros W. cbn [nfe_conntrack_destroy].
  destruct (destroy_from_spec nfe_tuple_hash LRU_PROTO_MAX st A 0 W eq_refl)
    as (st' & A' & E & _ & Hm). rewrite E. cbind. by rewrite Hm.
Qed.

Lemma conntrack_destroy_correct_witness : exists st A,
  ct_wf (@nfe_tuple_hash little_endian) st A /\
  nfe_conntrack_destroy (Some st) =
    Ok (0, foldl abs_release (ct_conns st)
             (concat (map (fun i => lru_conns (A (LruHead i))) (seq 0 LRU_PROTO_MAX)))).
Proof.
  destruct sample_table_lru as (st & A & c & W & _ & _). exists st, A. split; [exact W|].
  exact (@conntrack_destroy_correct little_endian st A W).
Defined.
