(* ===== verification/NfeTcp.v ===== *)
(** * NfeTcp: the TCP tracker of the flow engine

    Models [lib/nfe/src/nfe_tcp.c] below the header parser: the option scan for
    the MSS, the flag handlers and their table, sequence tracking, the state
    machine of a connection and [nfe_tcp_lookup].  Header fields are read from
    the captured buffer where the code reads them. *)
From S2P Require Import Prelude NfeTypes NfeJhash NfeFlow NfeList NfePacket NfeConntrack.

Definition TCP_DEFAULT_MSS := 1460.

Definition TCP_CONNECTING := 0.
Definition TCP_ESTABLISHED := 1.
Definition TCP_HALF_DISCONNECTED := 2.
Definition TCP_LAST_ACK := 3.
Definition TCP_CLOSED := 4.
Definition TCP_NUM_STATE := 5.

Definition F_TCP_RETRANSMIT := 1.
Definition F_TCP_OUTOFORDER := 2.
Definition F_TCP_HALF_OPEN := 1.
Definition F_TCP_HALF_CLOSED := 2.

Definition TCP_OPTION_EOL := 0.
Definition TCP_OPTION_NOOP := 1.
Definition TCP_OPTION_MSS := 2.

Definition TH_SYN := 2.
Definition TH_ACK := 16.

(** A flag test [x & f]. *)
Definition has (x f : Z) : bool := negb (Z.land x f =? 0).

(** Field updates of [struct nfe_tcp_half] and [struct nfe_tcp]. *)
Definition set_last_time v h := mk_half v (h_init_seq_sent h) (h_last_seq_sent h)
  (h_next_seq_sent h) (h_last_ack_sent h) (h_curr_seq_wrap h) (h_packets h) (h_flags h) (h_mss h).
Definition set_init_seq v h := mk_half (h_last_seq_time h) v (h_last_seq_sent h)
  (h_next_seq_sent h) (h_last_ack_sent h) (h_curr_seq_wrap h) (h_packets h) (h_flags h) (h_mss h).
Definition set_last_seq v h := mk_half (h_last_seq_time h) (h_init_seq_sent h) v
  (h_next_seq_sent h) (h_last_ack_sent h) (h_curr_seq_wrap h) (h_packets h) (h_flags h) (h_mss h).
Definition set_next_seq v h := mk_half (h_last_seq_time h) (h_init_seq_sent h) (h_last_seq_sent h)
  v (h_last_ack_sent h) (h_curr_seq_wrap h) (h_packets h) (h_flags h) (h_mss h).
Definition set_last_ack v h := mk_half (h_last_seq_time h) (h_init_seq_sent h) (h_last_seq_sent h)
  (h_next_seq_sent h) v (h_curr_seq_wrap h) (h_packets h) (h_flags h) (h_mss h).
Definition set_wrap v h := mk_half (h_last_seq_time h) (h_init_seq_sent h) (h_last_seq_sent h)
  (h_next_seq_sent h) (h_last_ack_sent h) v (h_packets h) (h_flags h) (h_mss h).
Definition set_packets v h := mk_half (h_last_seq_time h) (h_init_seq_sent h) (h_last_seq_sent h)
  (h_next_seq_sent h) (h_last_ack_sent h) (h_curr_seq_wrap h) v (h_flags h) (h_mss h).
Definition set_hflags v h := mk_half (h_last_seq_time h) (h_init_seq_sent h) (h_last_seq_sent h)
  (h_next_seq_sent h) (h_last_ack_sent h) (h_curr_seq_wrap h) (h_packets h) v (h_mss h).
Definition set_mss v h := mk_half (h_last_seq_time h) (h_init_seq_sent h) (h_last_seq_sent h)
  (h_next_seq_sent h) (h_last_ack_sent h) (h_curr_seq_wrap h) (h_packets h) (h_flags h) v.

Definition set_state v t := mk_tcp (tcp_half0 t) (tcp_half1 t) v (tcp_flags t).
Definition set_tflags v t := mk_tcp (tcp_half0 t) (tcp_half1 t) (tcp_state t) v.

(** [tcp->half[dir]], the direction 0 or 1 as a boolean. *)
Definition half (t : nfe_tcp) (dir : bool) : nfe_tcp_half :=
  if dir then tcp_half1 t else tcp_half0 t.
Definition upd_half (t : nfe_tcp) (dir : bool) (f : nfe_tcp_half -> nfe_tcp_half) : nfe_tcp :=
  if dir then mk_tcp (tcp_half0 t) (f (tcp_half1 t)) (tcp_state t) (tcp_flags t)
  else mk_tcp (f (tcp_half0 t)) (tcp_half1 t) (tcp_state t) (tcp_flags t).

Section Tcp.
Variable buf : list Z.

(** ** Options *)

(** The loop of [tcp_mss]; [hdr_len] bytes of options left at [opt_ptr]. *)
Fixpoint tcp_mss_loop (n : nat) (hdr_len opt_ptr : Z) : res Z :=
  match n with
  | O => Err FFuel
  | S n' =>
      if hdr_len <=? 0 then Ok TCP_DEFAULT_MSS else
      kind ← rd8 buf opt_ptr;
      if kind =? TCP_OPTION_EOL then Ok TCP_DEFAULT_MSS else
      if kind =? TCP_OPTION_NOOP then tcp_mss_loop n' (hdr_len - 1) (opt_ptr + 1) else
      opt_len ← rd8 buf (opt_ptr + 1);
      if (hdr_len <? opt_len) || (opt_len <? 2) then Ok TCP_DEFAULT_MSS else
      if kind =? TCP_OPTION_MSS then read16 buf (opt_ptr + 2) else
      tcp_mss_loop n' (hdr_len - opt_len) (opt_ptr + opt_len)
  end.

(** The option space is at most 40 bytes, so 41 rounds are enough. *)
Definition tcp_mss (th : Z) : res Z :=
  offres ← rd8 buf (th + 12);
  let hdr_len := Z.shiftl (Z.shiftr (Z.land offres 0xf0) 4) 2 - 20 in
  tcp_mss_loop 41 hdr_len (th + 20).

(** ** Handlers of segments with FIN, SYN or RST *)
Definition tcp_handler : Type := Z -> nfe_tcp -> bool -> Z -> res nfe_tcp.

Definition tcp_rcv_err : tcp_handler := fun _ tcp _ _ => Ok (set_state TCP_CLOSED tcp).

Definition tcp_rcv_rst : tcp_handler := fun _ tcp _ _ =>
  let close h := set_hflags (Z.lor (h_flags h) F_TCP_HALF_CLOSED) h in
  Ok (set_state TCP_CLOSED (upd_half (upd_half tcp false close) true close)).

Definition tcp_rcv_syn : tcp_handler := fun th tcp dir datalen =>
  let tcp := if has (h_flags (half tcp dir)) F_TCP_HALF_OPEN
             then set_tflags (Z.lor (tcp_flags tcp) F_TCP_RETRANSMIT) tcp else tcp in
  seq ← be32_at buf (th + 4);
  let tcp := upd_half tcp dir (fun h =>
    set_next_seq (u32 (seq + 1 + datalen)) (set_last_seq seq (set_init_seq seq h))) in
  mss ← tcp_mss th;
  let tcp := upd_half tcp dir (fun h =>
    set_hflags (Z.lor (h_flags h) F_TCP_HALF_OPEN) (set_mss mss h)) in
  flags ← rd8 buf (th + 13);
  if negb (has flags TH_ACK) then Ok tcp else
  ack ← be32_at buf (th + 8);
  let tcp := upd_half tcp dir (set_last_ack ack) in
  Ok (upd_half tcp (negb dir) (set_last_ack (h_next_seq_sent (half tcp dir)))).

Definition tcp_rcv_fin : tcp_handler := fun th tcp dir datalen =>
  let tcp := if has (h_flags (half tcp dir)) F_TCP_HALF_CLOSED
             then set_tflags (Z.lor (tcp_flags tcp) F_TCP_RETRANSMIT) tcp else tcp in
  seq ← be32_at buf (th + 4);
  ack ← be32_at buf (th + 8);
  Ok (upd_half tcp dir (fun h =>
    set_last_ack ack (set_next_seq (u32 (seq + 1 + datalen))
      (set_hflags (Z.lor (h_flags h) F_TCP_HALF_CLOSED) h)))).

Definition nfe_tcpfsm : list (list tcp_handler) :=
  (* Fin, Syn, Rst *)
  [[tcp_rcv_err; tcp_rcv_syn; tcp_rcv_rst];
   [tcp_rcv_fin; tcp_rcv_syn; tcp_rcv_rst];
   [tcp_rcv_fin; tcp_rcv_err; tcp_rcv_rst];
   [tcp_rcv_fin; tcp_rcv_err; tcp_rcv_rst];
   [tcp_rcv_err; tcp_rcv_err; tcp_rcv_err]].

(** [nfe_tcpfsm[state][i]]: the array is [TCP_NUM_STATE] by 3. *)
Definition nfe_tcpfsm_at (state i : Z) : res tcp_handler :=
  match row ← nfe_tcpfsm !! Z.to_nat state; row !! Z.to_nat i with
  | Some f => Ok f
  | None => Err FIndex
  end.

(** ** Sequence numbers *)
Definition tcp_seq_is_after (seq other : Z) : bool := 0 <? i32 (seq - other).

Definition tcp_zero_window_probe (th : Z) (tcp : nfe_tcp) (dir : bool) (datalen : Z) : res bool :=
  seq ← be32_at buf (th + 4);
  if (datalen =? 1) && (seq =? h_next_seq_sent (half tcp dir)) then
    w ← read16 buf (th + 14); Ok (w =? 0)
  else Ok false.

Definition tcp_keepalive (th : Z) (tcp : nfe_tcp) (dir : bool) (datalen : Z) : res bool :=
  seq ← be32_at buf (th + 4);
  Ok ((datalen <=? 1) && (seq =? u32 (h_next_seq_sent (half tcp dir) - 1))).

(** The [int64_t] arithmetic does not overflow while [curr_seq_wrap < 2^31]. *)
Definition tcp_data_offset (flags : Z) (tcp : nfe_tcp) (dir : bool) : Z :=
  let h := half tcp dir in
  (h_last_seq_sent h + h_curr_seq_wrap h * 0x100000000)
  - u32 (h_init_seq_sent h + (if has flags TH_SYN then 0 else 1)).

(** ** The parts of [nfe_tcpfsm_input] *)

(** The first segment of a direction initialises it. *)
Definition tcp_count (seq ack : Z) (h : nfe_tcp_half) : nfe_tcp_half :=
  let n := h_packets h in
  let h := set_packets (u32 (n + 1)) h in
  if n =? 0 then
    set_last_ack ack (set_next_seq seq (set_init_seq (u32 (seq - 1)) (set_last_seq seq h)))
  else h.

(** Classification of the segment, up to the update of [last_seq_time]; also
    gives the data length to go on with. *)
Definition tcp_classify (th flags seq ack ts datalen : Z) (dir : bool) (tcp : nfe_tcp)
    : res (nfe_tcp * Z) :=
  let tcpf := Z.land flags 7 in
  if negb (tcpf =? 0) then
    f ← nfe_tcpfsm_at (tcp_state tcp) (Z.shiftr tcpf 1);
    tcp ← f th tcp dir (u16 datalen);
    Ok (tcp, datalen)
  else
    ka ← tcp_keepalive th tcp dir (u16 datalen);
    if ka : bool then Ok (tcp, 0) else
    zw ← tcp_zero_window_probe th tcp dir (u16 datalen);
    if zw : bool then Ok (tcp, 0) else
    if seq =? h_next_seq_sent (half tcp dir) then
      let tcp := upd_half tcp dir (fun h =>
        set_last_ack ack (set_next_seq (u32 (seq + datalen)) h)) in
      Ok (set_tflags (Z.land (tcp_flags tcp)
            (Z.lnot (Z.lor F_TCP_RETRANSMIT F_TCP_OUTOFORDER))) tcp, datalen)
    else if negb (tcp_seq_is_after seq (h_next_seq_sent (half tcp dir))) then
      if 30 <? u64 (h_last_seq_time (half tcp dir) - ts)
      then Ok (set_tflags (Z.lor (tcp_flags tcp) F_TCP_RETRANSMIT) tcp, datalen)
      else Ok (set_tflags (Z.lor (tcp_flags tcp) F_TCP_OUTOFORDER) tcp, datalen)
    else
      let tcp := set_tflags (Z.lor (tcp_flags tcp) F_TCP_OUTOFORDER) tcp in
      Ok (upd_half tcp dir (fun h =>
            set_last_ack ack (set_next_seq (u32 (seq + datalen)) h)), datalen).

(** The state transition: the next state, and whether the connection is released. *)
Definition tcp_transition (flags datalen : Z) (dir : bool) (tcp : nfe_tcp) : Z * bool :=
  let s := tcp_state tcp in
  let flagged d f := has (h_flags (half tcp d)) f in
  if s =? TCP_CONNECTING then
    if negb (has flags TH_SYN) && (negb (datalen =? 0) ||
         (flagged false F_TCP_HALF_OPEN && flagged true F_TCP_HALF_OPEN))
    then (TCP_ESTABLISHED, false) else (s, false)
  else if s =? TCP_ESTABLISHED then
    if flagged false F_TCP_HALF_CLOSED || flagged true F_TCP_HALF_CLOSED then
      if h_packets (half tcp (negb dir)) =? 0 then (TCP_LAST_ACK, false)
      else (TCP_HALF_DISCONNECTED, false)
    else (s, false)
  else if s =? TCP_HALF_DISCONNECTED then
    if flagged false F_TCP_HALF_CLOSED && flagged true F_TCP_HALF_CLOSED
    then (TCP_LAST_ACK, false) else (s, false)
  else if s =? TCP_LAST_ACK then
    if (h_packets (half tcp (negb dir)) =? 0) ||
       ((h_last_ack_sent (half tcp dir) =? h_next_seq_sent (half tcp (negb dir))) &&
        (h_last_ack_sent (half tcp (negb dir)) =? h_next_seq_sent (half tcp dir)))
    then (TCP_CLOSED, true) else (s, false)
  else if s =? TCP_CLOSED then (s, true)
  else (s, false).

(** The update of [last_seq_sent] and of the wrap count. *)
Definition tcp_advance (seq : Z) (h : nfe_tcp_half) : nfe_tcp_half :=
  if tcp_seq_is_after seq (h_last_seq_sent h) then
    let h := if seq <? h_last_seq_sent h then set_wrap (u32 (h_curr_seq_wrap h + 1)) h else h in
    set_last_seq seq h
  else h.

Section Input.
Context `{HostEndian}.
Variable cfg : nfe_config.
Variable ext_conn_alloc : gmap conn_id nfe_conn -> nfe_tuple -> option conn_id.

Definition tcp_policy (flags : Z) : Z :=
  if has flags TH_SYN then
    if has flags TH_ACK then NFE_ALLOC_POLICY_INVERT else NFE_ALLOC_POLICY_CREATE
  else if negb (cfg_tcp_midflow cfg =? 0) then NFE_ALLOC_POLICY_CREATE else NFE_ALLOC_POLICY_NONE.

(** The list a segment's connection is expired from, and the one it moves to. *)
Definition tcp_lru_expired (flags : Z) : nat :=
  if has flags TH_SYN then LRU_PROTO_TCP_SYN else LRU_PROTO_TCP_EST.
Definition tcp_lru (flags : Z) : nat :=
  if has flags TH_SYN then if has flags TH_ACK then LRU_PROTO_TCP_EST else LRU_PROTO_TCP_SYN
  else LRU_PROTO_TCP_EST.

(** The direction of a packet relative to its connection. *)
Definition conn_dir (conn_tuple : nfe_tuple) (packet_tuple : nfe_tuple) : bool :=
  negb (memcmp (t_addr0 conn_tuple) (t_addr0 packet_tuple)
          (domain_len (t_domain conn_tuple)) =? 0).

(** From the state transition to the return: the connection may be released
    here, and is accessed again after [TCP_LAST_ACK]. *)
Definition tcp_finish (st : conntrack) (c : conn_id) (flags seq datalen : Z) (dir : bool)
    : res (Z * conntrack) :=
  k ← get_conn st c;
  let tcp := c_tcp k in
  if has (tcp_flags tcp) F_TCP_RETRANSMIT then Ok (0, st) else
  let '(s, release) := tcp_transition flags datalen dir tcp in
  let st := upd_conn st c (set_tcp (set_state s tcp) k) in
  st ← (if release : bool then nfe_conn_release st (Some c) else Ok st);
  if tcp_state tcp =? TCP_CLOSED then Ok (0, st) else
  k ← get_conn st c;
  let tcp := upd_half (c_tcp k) dir (tcp_advance seq) in
  Ok (tcp_data_offset flags tcp dir, upd_conn st c (set_tcp tcp k)).

Definition nfe_tcpfsm_input (st : conntrack) (packet : nfe_packet)
    : res (Z * option conn_id * nfe_packet * conntrack) :=
  th ← deref (p_prot packet);
  flags ← rd8 buf (th + 13);
  st ← nfe_conntrack_lru_expire st (tcp_lru_expired flags) (p_timestamp packet);
  let policy := tcp_policy flags in
  let packet := set_direction (if policy =? NFE_ALLOC_POLICY_INVERT then 1 else 0) packet in
  '(conn, st) ← nfe_conntrack_lookup ext_conn_alloc st packet policy;
  match conn with
  | None => Ok (-1, None, packet, st)
  | Some c =>
      k ← get_conn st c;
      let k := set_timestamp (p_timestamp packet) k in
      let dir := conn_dir (c_tuple k) (p_tuple packet) in
      let packet := set_direction (if dir then 1 else 0) packet in
      seq ← be32_at buf (th + 4);
      ack ← be32_at buf (th + 8);
      let datalen := u64 (p_tail packet - p_data packet) in
      st ← nfe_conntrack_lru_update (upd_conn st c k) (tcp_lru flags) c;
      let tcp := upd_half (c_tcp k) dir (tcp_count seq ack) in
      '(tcp, datalen) ← tcp_classify th flags seq ack (p_timestamp packet) datalen dir tcp;
      let tcp := upd_half tcp dir (set_last_time (p_timestamp packet)) in
      let st := upd_conn st c (set_tcp tcp k) in
      '(off, st) ← tcp_finish st c flags seq datalen dir;
      Ok (off, Some c, packet, st)
  end.

Definition nfe_tcp_lookup (st : conntrack) (packet : nfe_packet)
    : res (option conn_id * nfe_packet * conntrack) :=
  '(off, conn, packet, st) ← nfe_tcpfsm_input st packet;
  let packet := set_prot None (set_next 0 packet) in
  if off =? -1 then Ok (conn, packet, st) else
  match conn with
  | None => Err FDangling
  | Some c =>
      k ← get_conn st c;
      if has (tcp_flags (c_tcp k)) (Z.lor F_TCP_OUTOFORDER F_TCP_RETRANSMIT) then
        let tcp := set_tflags (Z.land (tcp_flags (c_tcp k))
          (Z.lnot (Z.lor F_TCP_OUTOFORDER F_TCP_RETRANSMIT))) (c_tcp k) in
        Ok (Some c, set_data (p_tail packet) packet, upd_conn st c (set_tcp tcp k))
      else Ok (Some c, packet, st)
  end.

End Input.
End Tcp.

(** ** Options: termination and bounds of the scan *)
Lemma tcp_mss_loop_ok buf n hdr opt :
  bytes_ok buf -> Z.max 0 hdr < Z.of_nat n -> 0 <= opt ->
  hdr <= 0 \/ opt + hdr + 2 <= Z.of_nat (length buf) ->
  exists v, tcp_mss_loop buf n hdr opt = Ok v /\ is_u16 v.
Proof.
  intros Hb. revert hdr opt. induction n as [|n IH]; intros hdr opt Hn Ho Hl; [lia|].
  cbn [tcp_mss_loop]. destruct (Z.leb_spec hdr 0); [by exists TCP_DEFAULT_MSS|].
  destruct (rd8_Ok buf opt) as (kind & Ek & _); [lia|]. rewrite Ek. cbind.
  destruct (kind =? TCP_OPTION_EOL); [by exists TCP_DEFAULT_MSS|].
  destruct (kind =? TCP_OPTION_NOOP); [apply IH; lia|].
  destruct (rd8_Ok buf (opt + 1)) as (len & El & _); [lia|]. rewrite El. cbind.
  pose proof (rd8_u8 _ _ _ Hb El) as Hlen. unfold is_u8 in Hlen.
  destruct ((hdr <? len) || (len <? 2)) eqn:Es; [by exists TCP_DEFAULT_MSS|].
  apply orb_false_iff in Es as [?%Z.ltb_ge ?%Z.ltb_ge].
  destruct (kind =? TCP_OPTION_MSS); [|apply IH; lia].
  unfold read16. destruct (rd8_Ok buf (opt + 2)) as (b0 & E0 & _); [lia|].
  destruct (rd8_Ok buf (opt + 2 + 1)) as (b1 & E1 & _); [lia|].
  rewrite E0, E1. cbind. eauto with machine.
Qed.

Lemma th_off_range b : 0 <= Z.shiftl (Z.shiftr (Z.land b 0xf0) 4) 2 <= 60.
Proof.
  rewrite Z.shiftr_land. change (Z.shiftr 0xf0 4) with (Z.ones 4).
  rewrite Z.land_ones, Z.shiftl_mul_pow2 by lia.
  pose proof (Z.mod_pos_bound (Z.shiftr b 4) (2 ^ 4) ltac:(lia)). lia.
Qed.

(** The header length a TCP header announces. *)
Definition th_len (buf : list Z) (th : Z) : Z :=
  match rd8 buf (th + 12) with
  | Ok b => Z.shiftl (Z.shiftr (Z.land b 0xf0) 4) 2
  | Err _ => 0
  end.

(** The option scan always ends (41 rounds are enough whatever the
    option lengths) and stays within two bytes of the announced header. *)
Theorem tcp_mss_total buf th :
  bytes_ok buf -> 0 <= th -> th + Z.max 20 (th_len buf th) + 2 <= Z.of_nat (length buf) ->
  exists v, tcp_mss buf th = Ok v /\ is_u16 v.
Proof.
  intros Hb Ht Hl. unfold tcp_mss, th_len in *.
  destruct (rd8_Ok buf (th + 12)) as (b & Eb & _); [lia|]. rewrite Eb in *. cbind.
  pose proof (th_off_range b).
  apply tcp_mss_loop_ok; [done|lia|lia|]. right. lia.
Qed.

(** A SYN with MSS 1400, NOP and a truncated option. *)
Definition sample_syn_hdr : list Z :=
  [0xc0; 0x01; 0; 80; 0; 0; 3; 0xe8; 0; 0; 0; 0; 0x70; 2; 0xff; 0xff; 0; 0; 0; 0;
   1; 2; 4; 0x05; 0x78; 1; 1; 3].

Lemma tcp_mss_total_witness :
  exists v, tcp_mss (sample_syn_hdr ++ [0; 0]) 0 = Ok v /\ is_u16 v.
Proof.
  apply tcp_mss_total; [|lia|vm_compute; discriminate].
  apply (bool_decide_unpack _). by vm_compute.
Defined.

Example tcp_mss_sample : tcp_mss sample_syn_hdr 0 = Ok 1400.
Proof. reflexivity. Qed.

(** The scan reads past the header: when the last option byte is a kind
    other than EOL and NOP, its length is read beyond the header, which is a
    fault when the capture ends there. *)
Theorem tcp_mss_reads_past_header :
  tcp_mss (take 20 (<[12%nat := 0x60]> sample_syn_hdr) ++ [1; 1; 1; 3]) 0 = Err FOob.
Proof. reflexivity. Qed.

(** ** The state machine *)

(** The transitions of a tracked connection. *)
Inductive tcp_edge : Z -> Z -> Prop :=
| edge_stay s : tcp_edge s s
| edge_open : tcp_edge TCP_CONNECTING TCP_ESTABLISHED
| edge_half : tcp_edge TCP_ESTABLISHED TCP_HALF_DISCONNECTED
| edge_asym : tcp_edge TCP_ESTABLISHED TCP_LAST_ACK
| edge_both : tcp_edge TCP_HALF_DISCONNECTED TCP_LAST_ACK
| edge_close s : tcp_edge s TCP_CLOSED.

Lemma half_upd_same t d f : half (upd_half t d f) d = f (half t d).
Proof. by destruct d. Qed.
Lemma half_upd_other t d f : half (upd_half t d f) (negb d) = half t (negb d).
Proof. by destruct d. Qed.
Lemma state_upd_half t d f : tcp_state (upd_half t d f) = tcp_state t.
Proof. by destruct d. Qed.
Lemma flags_upd_half t d f : tcp_flags (upd_half t d f) = tcp_flags t.
Proof. by destruct d. Qed.
Lemma half_set_tflags v t d : half (set_tflags v t) d = half t d.
Proof. by destruct d. Qed.
Create HintDb tcp.
Create Rewrite HintDb tcp_rw.
#[export] Hint Rewrite half_upd_same half_upd_other state_upd_half flags_upd_half
  half_set_tflags : tcp_rw.

Lemma transition_edge flags d dir tcp :
  tcp_edge (tcp_state tcp) (fst (tcp_transition flags d dir tcp)) /\
  (snd (tcp_transition flags d dir tcp) = true ->
     fst (tcp_transition flags d dir tcp) = TCP_CLOSED).
Proof.
  unfold tcp_transition.
  repeat match goal with |- context [if (?x =? ?y) then _ else _] =>
    destruct (Z.eqb_spec x y) as [->|] end;
    repeat case_match; cbn; split; try done; constructor.
Qed.

(** A handler leaves the state alone or closes the connection. *)
Definition handler_states (f : tcp_handler) : Prop := forall th tcp dir d tcp',
  f th tcp dir d = Ok tcp' -> tcp_state tcp' = tcp_state tcp \/ tcp_state tcp' = TCP_CLOSED.

Lemma tcp_rcv_err_states : handler_states tcp_rcv_err.
Proof. intros th tcp dir d tcp' [= <-]. by right. Qed.
Lemma tcp_rcv_rst_states : handler_states tcp_rcv_rst.
Proof. intros th tcp dir d tcp' [= <-]. by right. Qed.
Lemma tcp_rcv_syn_states buf : handler_states (tcp_rcv_syn buf).
Proof.
  intros th tcp dir d tcp'. unfold tcp_rcv_syn. intros Hf. inv_ok Hf. left.
  destruct (has v1 TH_ACK); cbn [negb] in Hf; inv_ok Hf; injection Hf as <-;
    autorewrite with tcp_rw; by case_match.
Qed.
Lemma tcp_rcv_fin_states buf : handler_states (tcp_rcv_fin buf).
Proof.
  intros th tcp dir d tcp'. unfold tcp_rcv_fin. intros Hf. inv_ok Hf. left.
  injection Hf as <-. autorewrite with tcp_rw. by case_match.
Qed.
#[export] Hint Resolve tcp_rcv_err_states tcp_rcv_rst_states tcp_rcv_syn_states
  tcp_rcv_fin_states : tcp.

Lemma nfe_tcpfsm_states buf s i f : nfe_tcpfsm_at buf s i = Ok f -> handler_states f.
Proof.
  assert (Forall (Forall handler_states) (nfe_tcpfsm buf)) as HF.
  { unfold nfe_tcpfsm. repeat (apply Forall_cons; split); auto with tcp; apply Forall_nil; done. }
  unfold nfe_tcpfsm_at. destruct (nfe_tcpfsm buf !! Z.to_nat s) as [row|] eqn:Er; [|done]. cbn.
  destruct (row !! Z.to_nat i) as [g|] eqn:Eg; [|done]. intros [= <-].
  rewrite Forall_lookup in HF. specialize (HF _ _ Er). rewrite Forall_lookup in HF. eauto.
Qed.

Lemma classify_states buf th flags seq ack ts d dir tcp tcp' d' :
  tcp_classify buf th flags seq ack ts d dir tcp = Ok (tcp', d') ->
  tcp_state tcp' = tcp_state tcp \/ tcp_state tcp' = TCP_CLOSED.
Proof.
  unfold tcp_classify. intros Hc.
  destruct (negb _).
  - apply bind_Ok in Hc as (f & Ef & Hc). apply bind_Ok in Hc as (t & Et & [= -> <-]).
    eapply nfe_tcpfsm_states; eauto.
  - left. apply bind_Ok in Hc as (ka & _ & Hc). destruct ka; [by injection Hc as -> _|].
    apply bind_Ok in Hc as (zw & _ & Hc). destruct zw; [by injection Hc as -> _|].
    repeat case_match; simplify_eq; cbn [tcp_state set_tflags]; by autorewrite with tcp_rw.
Qed.

(** C32: Whatever the segment, a tracked connection only moves along the edges
    connecting - established - half disconnected - last ack - closed (or straight
    to closed), never back, and is released only in the state closed. *)
Theorem tcp_state_edges buf th flags seq ack ts d dir tcp tcp' d' :
  tcp_classify buf th flags seq ack ts d dir tcp = Ok (tcp', d') ->
  let tcp1 := upd_half tcp' dir (set_last_time ts) in
  let '(s, release) := tcp_transition flags d' dir tcp1 in
  tcp_edge (tcp_state tcp) s /\
  (0 <= tcp_state tcp < TCP_NUM_STATE -> tcp_state tcp <= s < TCP_NUM_STATE) /\
  (release = true -> s = TCP_CLOSED).
Proof.
  intros Hc tcp1. pose proof (transition_edge flags d' dir tcp1) as [He Hr].
  destruct (tcp_transition flags d' dir tcp1) as [s r]. cbn [fst snd] in *.
  assert (tcp_edge (tcp_state tcp) s) as Hs.
  { subst tcp1. rewrite state_upd_half in He.
    destruct (classify_states _ _ _ _ _ _ _ _ _ _ _ Hc) as [E|E]; rewrite E in He; [done|].
    inversion He; subst; constructor. }
  split; [done|]. split; [|done]. unfold TCP_NUM_STATE.
  inversion Hs; subst; unfold TCP_CONNECTING, TCP_ESTABLISHED, TCP_HALF_DISCONNECTED,
    TCP_LAST_ACK, TCP_CLOSED in *; lia.
Qed.

(** A bare RST on an established connection. *)
Lemma tcp_state_edges_witness :
  let tcp1 := upd_half (set_state TCP_CLOSED (mk_tcp (set_hflags 2 half_zero)
                (set_hflags 2 half_zero) TCP_ESTABLISHED 0)) false (set_last_time 7) in
  let '(s, release) := tcp_transition 4 0 false tcp1 in
  tcp_edge TCP_ESTABLISHED s /\
  (0 <= TCP_ESTABLISHED < TCP_NUM_STATE -> TCP_ESTABLISHED <= s < TCP_NUM_STATE) /\
  (release = true -> s = TCP_CLOSED).
Proof.
  apply (tcp_state_edges [] 0 4 0 0 7 0 false (mk_tcp half_zero half_zero TCP_ESTABLISHED 0)).
  reflexivity.
Defined.

(** The three low flag bits as a column of the table. *)
Lemma low_flags flags : exists m, Z.land flags 7 = m /\ 0 <= m < 8 /\
  has flags 2 = negb (Z.land m 2 =? 0) /\ has flags 4 = negb (Z.land m 4 =? 0).
Proof.
  exists (Z.land flags 7). split; [done|]. split.
  - change 7 with (Z.ones 3). rewrite Z.land_ones by lia. apply Z.mod_pos_bound. lia.
  - unfold has. rewrite <- !Z.land_assoc. done.
Qed.

Lemma octet_cases m : 0 <= m < 8 ->
  m = 0 \/ m = 1 \/ m = 2 \/ m = 3 \/ m = 4 \/ m = 5 \/ m = 6 \/ m = 7.
Proof. lia. Qed.

Lemma tcp_syn_column flags : has flags 2 = true -> has flags 4 = false ->
  (Z.land flags 7 =? 0) = false /\ Z.shiftr (Z.land flags 7) 1 = 1.
Proof.
  destruct (low_flags flags) as (m & -> & Hm & -> & ->).
  destruct (octet_cases m Hm) as [->|[->|[->|[->|[->|[->|[->| ->]]]]]]]; done.
Qed.

Lemma tcp_syn_rst_fault buf th flags seq ack ts d dir tcp :
  has flags 2 = true -> has flags 4 = true ->
  tcp_classify buf th flags seq ack ts d dir tcp = Err FIndex.
Proof.
  intros H2 H4. unfold tcp_classify.
  assert ((Z.land flags 7 =? 0) = false /\ Z.shiftr (Z.land flags 7) 1 = 3) as [-> ->].
  { destruct (low_flags flags) as (m & -> & Hm & E2 & E4). rewrite E2 in H2. rewrite E4 in H4.
    destruct (octet_cases m Hm) as [->|[->|[->|[->|[->|[->|[->| ->]]]]]]]; done. }
  cbn [negb]. unfold nfe_tcpfsm_at, nfe_tcpfsm.
  generalize (Z.to_nat (tcp_state tcp)). intros n.
  do 5 (destruct n as [|n]; [reflexivity|]). reflexivity.
Qed.

(** A segment with both SYN and RST indexes the handler table out of its
    three columns, whatever the state of the connection. *)
Theorem tcp_syn_rst_index_fault buf th flags seq ack ts d dir tcp :
  has flags 2 = true -> has flags 4 = true ->
  tcp_classify buf th flags seq ack ts d dir tcp = Err FIndex.
Proof. apply tcp_syn_rst_fault. Qed.

Lemma tcp_syn_rst_index_fault_witness :
  tcp_classify [] 0 6 0 0 0 0 false tcp_zero = Err FIndex.
Proof. apply tcp_syn_rst_index_fault; reflexivity. Defined.

(** ** Retransmissions *)

(** A data segment from the past is marked as a retransmission as soon as
    any time has passed since the previous segment of its direction, because
    [last_seq_time - timestamp] is an unsigned difference of an earlier and a
    later time; only with equal or decreasing timestamps can the 30 time units
    of the code matter. *)
Theorem past_segment_is_retransmit buf th flags seq ack ts d dir tcp :
  Z.land flags 7 = 0 -> be32_at buf (th + 4) = Ok seq -> 2 <= d < 2 ^ 16 ->
  seq <> h_next_seq_sent (half tcp dir) ->
  tcp_seq_is_after seq (h_next_seq_sent (half tcp dir)) = false ->
  0 <= h_last_seq_time (half tcp dir) < ts -> ts < 2 ^ 63 ->
  tcp_classify buf th flags seq ack ts d dir tcp =
    Ok (set_tflags (Z.lor (tcp_flags tcp) F_TCP_RETRANSMIT) tcp, d).
Proof.
  intros Hf Hs Hd Hne Ha Ht Hts. unfold tcp_classify. rewrite Hf. cbn [negb Z.eqb].
  unfold tcp_keepalive, tcp_zero_window_probe. rewrite Hs. cbind.
  rewrite u16_id by (unfold is_u16; lia). rewrite (proj2 (Z.leb_gt d 1)) by lia. cbn [andb].
  rewrite (proj2 (Z.eqb_neq d 1)) by lia. cbn [andb]. cbind.
  rewrite (proj2 (Z.eqb_neq seq _) Hne), Ha. cbn [negb].
  replace (30 <? _) with true; [done|]. symmetry. apply Z.ltb_lt. unfold u64.
  rewrite <- (Z_mod_plus_full _ 1), Z.mod_small; lia.
Qed.

Lemma past_segment_is_retransmit_witness :
  tcp_classify [0; 0; 0; 0; 0; 0; 0; 5] 0 16 5 0 1001 100 false
    (mk_tcp (mk_half 1000 0 5 105 0 0 1 1 1460) half_zero TCP_ESTABLISHED 0) =
  Ok (mk_tcp (mk_half 1000 0 5 105 0 0 1 1 1460) half_zero TCP_ESTABLISHED 1, 100).
Proof.
  apply (past_segment_is_retransmit _ 0 16 5 0 1001 100 false
    (mk_tcp (mk_half 1000 0 5 105 0 0 1 1 1460) half_zero TCP_ESTABLISHED 0));
    first [reflexivity | cbn; lia].
Defined.

(** ** Sequence tracking *)

(** The half has seen [n] bytes after an initial sequence number [isn], the
    last segment starting at byte [m] ([m = -1] after the SYN). *)
Record tracks (h : nfe_tcp_half) (isn n m : Z) : Prop := {
  tr_isn : h_init_seq_sent h = isn;
  tr_next : h_next_seq_sent h = u32 (isn + 1 + n);
  tr_last : h_last_seq_sent h + 2 ^ 32 * h_curr_seq_wrap h = isn + 1 + m;
  tr_lastr : is_u32 (h_last_seq_sent h);
  tr_wrap : 0 <= h_curr_seq_wrap h;
  tr_pkts : 0 < h_packets h < 2 ^ 32 - 1;
  tr_mn : 0 <= n - m < 2 ^ 31;
  tr_n : 0 <= n < 2 ^ 62
}.

Lemma advance_tracks h isn n m :
  is_u32 isn -> tracks h isn n m ->
  tracks (tcp_advance (u32 (isn + 1 + n)) h) isn n n /\
  h_curr_seq_wrap (tcp_advance (u32 (isn + 1 + n)) h) =
    (isn + 1 + n) / 2 ^ 32.
Proof.
  intros Hi [E1 E2 E3 E4 E5 E6 E7 E8]. unfold is_u32 in *. unfold tcp_advance, tcp_seq_is_after.
  set (last := h_last_seq_sent h) in *. set (w := h_curr_seq_wrap h) in *.
  assert (last = (isn + 1 + m) mod 2 ^ 32 /\ w = (isn + 1 + m) / 2 ^ 32) as [El Ew].
  { rewrite <- E3. rewrite Z.mul_comm, Z_mod_plus_full, Z.mod_small by lia.
    rewrite Z.div_add by lia. rewrite Z.div_small by lia. lia. }
  assert (i32 (u32 (isn + 1 + n) - last) = n - m) as Ed.
  { unfold i32, u32. rewrite El.
    replace (n - m) with ((n - m + 2 ^ 31) mod 2 ^ 32 - 2 ^ 31) by (rewrite Z.mod_small; lia).
    f_equal. rewrite <- Zplus_mod_idemp_l, <- Zminus_mod, Zplus_mod_idemp_l. f_equal. lia. }
  rewrite Ed. pose proof (Z.div_mod (isn + 1 + n) (2 ^ 32) ltac:(lia)) as Hdm.
  pose proof (Z.mod_pos_bound (isn + 1 + n) (2 ^ 32) ltac:(lia)) as Hmb.
  fold (u32 (isn + 1 + n)) in Hdm, Hmb.
  destruct (Z.ltb_spec 0 (n - m)).
  - assert (w + 1 < 2 ^ 32) by lia.
    destruct (Z.ltb_spec (u32 (isn + 1 + n)) last);
        cbn [set_last_seq set_wrap h_curr_seq_wrap];
      [assert ((isn + 1 + n) / 2 ^ 32 = w + 1) as Eq by lia
      |assert ((isn + 1 + n) / 2 ^ 32 = w) as Eq by lia].
    + fold w. rewrite (u32_id (w + 1)) by (unfold is_u32; lia). split; [|lia].
      split; cbn [set_last_seq set_wrap h_init_seq_sent h_next_seq_sent h_last_seq_sent
        h_curr_seq_wrap h_packets]; unfold is_u32; done || lia.
    + fold w. split; [|lia]. split; cbn [set_last_seq h_init_seq_sent h_next_seq_sent
        h_last_seq_sent h_curr_seq_wrap h_packets]; fold w; unfold is_u32; done || lia.
  - assert (n = m) as -> by lia. split; [|by fold w]. by split.
Qed.

(** A captured packet that is handed to the tracker, and whether the caller gives
    back the reference to the connection afterwards. *)
Record tcp_seg := mk_seg { sg_buf : list Z; sg_packet : nfe_packet; sg_release : bool }.

(** Its header position, flags, acknowledgement, time and data length. *)
Definition res_value (r : res Z) : Z := match r with Ok v => v | Err _ => 0 end.
Definition sg_th (g : tcp_seg) : Z := default 0 (p_prot (sg_packet g)).
Definition sg_flags (g : tcp_seg) : Z := res_value (rd8 (sg_buf g) (sg_th g + 13)).
Definition sg_ack (g : tcp_seg) : Z := res_value (be32_at (sg_buf g) (sg_th g + 8)).
Definition sg_ts (g : tcp_seg) : Z := p_timestamp (sg_packet g).
Definition sg_len (g : tcp_seg) : Z := u64 (p_tail (sg_packet g) - p_data (sg_packet g)).

(** A data segment with sequence number [seq]: no SYN, FIN or RST, and no
    zero-window probe. *)
Definition data_seg (g : tcp_seg) (seq : Z) : Prop :=
  Z.land (sg_flags g) 7 = 0 /\ be32_at (sg_buf g) (sg_th g + 4) = Ok seq /\
  0 <= sg_len g < 2 ^ 16 /\
  (sg_len g = 1 -> exists w, read16 (sg_buf g) (sg_th g + 14) = Ok w /\ w <> 0).

Lemma classify_inorder g seq dir tcp :
  data_seg g seq -> is_u32 seq -> h_next_seq_sent (half tcp dir) = seq ->
  tcp_classify (sg_buf g) (sg_th g) (sg_flags g) seq (sg_ack g) (sg_ts g) (sg_len g) dir tcp =
  Ok (set_tflags (Z.land (tcp_flags tcp) (Z.lnot 3))
        (upd_half tcp dir (fun h =>
           set_last_ack (sg_ack g) (set_next_seq (u32 (seq + sg_len g)) h))), sg_len g).
Proof.
  intros (Hf & Hs & Hl & Hw) Hu Hn. unfold tcp_classify. rewrite Hf. cbn [negb Z.eqb].
  unfold tcp_keepalive, tcp_zero_window_probe. rewrite Hs. cbind. rewrite Hn, Z.eqb_refl.
  rewrite u16_id by (unfold is_u16; lia).
  assert (seq <> u32 (seq - 1)) as Hne.
  { unfold is_u32 in Hu. destruct (decide (seq = 0)) as [->|]; [done|].
    rewrite u32_id by (unfold is_u32; lia). lia. }
  rewrite (proj2 (Z.eqb_neq _ _) Hne), andb_false_r.
  destruct (Z.eqb_spec (sg_len g) 1) as [E1|E1]; cbn [andb].
  - destruct (Hw E1) as (w & -> & Hw0). cbind. rewrite (proj2 (Z.eqb_neq _ _) Hw0).
    by rewrite flags_upd_half.
  - cbind. by rewrite flags_upd_half.
Qed.

Lemma count_seen seq ack h :
  0 < h_packets h < 2 ^ 32 - 1 -> tcp_count seq ack h = set_packets (h_packets h + 1) h.
Proof.
  intros Hp. unfold tcp_count. rewrite (proj2 (Z.eqb_neq _ 0)) by lia.
  by rewrite u32_id by (unfold is_u32; lia).
Qed.

(** Both directions are open. *)
Definition both_open (tcp : nfe_tcp) : Prop :=
  tcp_state tcp = TCP_ESTABLISHED /\
  forall d, has (h_flags (half tcp d)) F_TCP_HALF_CLOSED = false.

Lemma transition_open flags d dir tcp :
  both_open tcp -> tcp_transition flags d dir tcp = (TCP_ESTABLISHED, false).
Proof.
  intros [Hs Hf]. unfold tcp_transition. rewrite Hs. cbn [Z.eqb].
  rewrite !Hf. done.
Qed.

Lemma both_open_upd tcp dir f :
  (forall h, h_flags (f h) = h_flags h) -> both_open tcp -> both_open (upd_half tcp dir f).
Proof.
  intros Hf [Hs Ho]. split; [by rewrite state_upd_half|]. intros d.
  destruct (decide (d = dir)) as [->|Hd]; [by rewrite half_upd_same, Hf|].
  assert (d = negb dir) as -> by (by destruct d, dir). by rewrite half_upd_other.
Qed.

Lemma advance_flags seq h : h_flags (tcp_advance seq h) = h_flags h.
Proof. unfold tcp_advance. by repeat case_match. Qed.

(** The end of the function on a connection that stays open. *)
Lemma tcp_finish_open st c k flags seq d dir :
  ct_conns st !! c = Some k -> both_open (c_tcp k) ->
  has (tcp_flags (c_tcp k)) F_TCP_RETRANSMIT = false ->
  tcp_finish st c flags seq d dir =
    let tcp := upd_half (set_state TCP_ESTABLISHED (c_tcp k)) dir (tcp_advance seq) in
    Ok (tcp_data_offset flags tcp dir, upd_conn st c (set_tcp tcp k)).
Proof.
  intros Hk Ho Hr. unfold tcp_finish, get_conn. rewrite Hk. cbn [deref]. cbind.
  rewrite Hr, (transition_open _ _ _ _ Ho). cbind.
  rewrite (proj2 (Z.eqb_neq _ TCP_CLOSED)) by (rewrite (proj1 Ho); done).
  cbn [upd_conn set_conns ct_conns]. rewrite lookup_insert_eq. cbn [deref]. cbind.
  cbn [c_tcp set_tcp]. do 2 f_equal. unfold upd_conn, set_conns. cbn. by rewrite insert_insert_eq.
Qed.

(** One in-order segment: its offset is the number of bytes before it. *)
Lemma segment_inorder g isn n m dir st c k :
  is_u32 isn -> isn <> 2 ^ 32 - 1 -> both_open (c_tcp k) ->
  tracks (half (c_tcp k) dir) isn n m -> n + sg_len g < 2 ^ 62 ->
  h_packets (half (c_tcp k) dir) < 2 ^ 32 - 2 -> data_seg g (u32 (isn + 1 + n)) ->
  exists tcp',
    ('(tcp, d) ← tcp_classify (sg_buf g) (sg_th g) (sg_flags g) (u32 (isn + 1 + n)) (sg_ack g)
        (sg_ts g) (sg_len g) dir
        (upd_half (c_tcp k) dir (tcp_count (u32 (isn + 1 + n)) (sg_ack g)));
     tcp_finish (upd_conn st c (set_tcp (upd_half tcp dir (set_last_time (sg_ts g))) k)) c
       (sg_flags g) (u32 (isn + 1 + n)) d dir) = Ok (n, upd_conn st c (set_tcp tcp' k)) /\
    both_open tcp' /\ tracks (half tcp' dir) isn (n + sg_len g) n /\
    h_packets (half tcp' dir) = h_packets (half (c_tcp k) dir) + 1.
Proof.
  set (tcp := c_tcp k).
  intros Hi Hmax Ho Ht Hn62 Hp Hg. set (seq := u32 (isn + 1 + n)) in *.
  pose proof Ht as [T1 T2 T3 T4 T5 T6 T7 T8]. pose proof Hg as (Hf7 & _ & Hl & _).
  rewrite (classify_inorder g seq dir); [|done|apply u32_range|].
  2: { rewrite half_upd_same, count_seen by lia. done. }
  cbind. set (t1 := set_tflags _ _).
  assert (h_packets (half tcp dir) < 2 ^ 32 - 1) as Hp' by lia.
  assert (both_open (upd_half t1 dir (set_last_time (sg_ts g)))) as Ho1.
  { apply both_open_upd; [done|]. subst t1. split; [cbn; rewrite !state_upd_half; apply Ho|].
    intros d. rewrite half_set_tflags. apply both_open_upd; [done|].
    apply both_open_upd; [|done]. intros h. unfold tcp_count. by case_match. }
  rewrite (tcp_finish_open _ _ (set_tcp (upd_half t1 dir (set_last_time (sg_ts g))) k));
    [|by apply lookup_insert_eq|done|].
  2: { subst t1. cbn [c_tcp set_tcp]. rewrite flags_upd_half. cbn [tcp_flags set_tflags].
       unfold has. rewrite <- Z.land_assoc. change (Z.land (Z.lnot 3) F_TCP_RETRANSMIT) with 0.
       by rewrite Z.land_0_r. }
  cbn [c_tcp set_tcp].
  set (t2 := set_state _ _).
  assert (half t2 dir = set_last_time (sg_ts g) (set_last_ack (sg_ack g)
    (set_next_seq (u32 (seq + sg_len g)) (set_packets (h_packets (half tcp dir) + 1) (half tcp dir))))) as E2.
  { subst t2 t1. unfold set_state. destruct dir; cbn [half upd_half tcp_half0 tcp_half1 set_tflags];
    cbn [half] in *; rewrite count_seen by lia; done. }
  destruct (advance_tracks (set_next_seq seq (half t2 dir)) isn n m Hi) as [Hadv Hw].
  { rewrite E2. by split; cbn; try done; lia. }
  fold seq in Hadv, Hw.
  assert (tcp_advance seq (half t2 dir) = set_next_seq (u32 (seq + sg_len g))
    (tcp_advance seq (set_next_seq seq (half t2 dir)))) as Ea.
  { unfold tcp_advance. rewrite E2. cbn. by repeat case_match. }
  exists (upd_half t2 dir (tcp_advance seq)). split; [|split; [|split]].
  - f_equal. f_equal.
    + unfold tcp_data_offset. rewrite half_upd_same, Ea.
      destruct Hadv as [V1 V2 V3 V4 V5 V6 V7 V8]. cbn in V1, V3 |- *.
      replace (has (sg_flags g) TH_SYN) with false.
      2: { unfold has. change TH_SYN with (Z.land 7 2). by rewrite Z.land_assoc, Hf7. }
      rewrite V1. rewrite u32_id by (unfold is_u32 in *; lia). lia.
    + unfold upd_conn, set_conns. cbn [ct_conns ct_size ct_expiry ct_links].
      by rewrite insert_insert_eq.
  - apply both_open_upd; [apply advance_flags|]. subst t2. split; [done|]. apply Ho1.
  - rewrite half_upd_same, Ea. destruct Hadv as [V1 V2 V3 V4 V5 V6 V7 V8].
    split; cbn; try done; [|lia|lia].
    subst seq. rewrite u32_add_l. f_equal. lia.
  - rewrite half_upd_same, E2. unfold tcp_advance. by repeat case_match.
Qed.

Section Stream.
Context `{HostEndian}.
Variable cfg : nfe_config.
Variable ext_conn_alloc : gmap conn_id nfe_conn -> nfe_tuple -> option conn_id.

(** The packets handed to [nfe_tcpfsm_input] one after the other, with the offsets
    and connections it reports. *)
Fixpoint tcp_inputs (st : conntrack) (gs : list tcp_seg)
    : res (list (Z * option conn_id) * conntrack) :=
  match gs with
  | [] => Ok ([], st)
  | g :: gs' =>
      '(off, conn, _, st) ← nfe_tcpfsm_input (sg_buf g) cfg ext_conn_alloc st (sg_packet g);
      st ← (if sg_release g then nfe_conn_release st conn else Ok st);
      '(rs, st) ← tcp_inputs st gs';
      Ok ((off, conn) :: rs, st)
  end.

(** A packet of the connection's flow in direction [dir], with its header inside
    the capture, that comes before the connection last used at [ts] expires. *)
Definition flow_seg (tuple : nfe_tuple) (dir : bool) (expiry ts : Z) (g : tcp_seg) : Prop :=
  same_flow tuple (p_tuple (sg_packet g)) /\ conn_dir tuple (p_tuple (sg_packet g)) = dir /\
  p_hash (sg_packet g) = nfe_tuple_hash (p_tuple (sg_packet g)) /\
  p_prot (sg_packet g) = Some (sg_th g) /\
  rd8 (sg_buf g) (sg_th g + 13) = Ok (sg_flags g) /\
  be32_at (sg_buf g) (sg_th g + 8) = Ok (sg_ack g) /\
  (sg_ts g <? ts) || (u64 (sg_ts g - ts) <? expiry) = true.

(** A stream of in-order data segments of a flow, from byte [n] on. *)
Fixpoint stream_ok (tuple : nfe_tuple) (dir : bool) (expiry isn n ts : Z) (gs : list tcp_seg)
    : Prop :=
  match gs with
  | [] => True
  | g :: gs' =>
      data_seg g (u32 (isn + 1 + n)) /\ flow_seg tuple dir expiry ts g /\
      stream_ok tuple dir expiry isn (n + sg_len g) (sg_ts g) gs'
  end.

(** A connection of the table that has followed [n] bytes of direction [dir]. *)
Record follows (st : conntrack) (c : conn_id) (k : nfe_conn) (dir : bool) (isn n m : Z) : Prop := {
  fo_wf : exists A, ct_wf nfe_tuple_hash st A /\ linked st A c;
  fo_conn : ct_conns st !! c = Some k;
  fo_open : both_open (c_tcp k);
  fo_tracks : tracks (half (c_tcp k) dir) isn n m
}.

(** A data segment is no SYN. *)
Lemma data_no_syn g seq : data_seg g seq -> has (sg_flags g) TH_SYN = false.
Proof.
  intros (Hf & _). unfold has. change TH_SYN with (Z.land 7 2).
  by rewrite Z.land_assoc, Hf.
Qed.

Lemma input_inorder g isn n m dir st c k :
  follows st c k dir isn n m -> is_u32 isn -> isn <> 2 ^ 32 - 1 ->
  data_seg g (u32 (isn + 1 + n)) ->
  flow_seg (c_tuple k) dir (nth LRU_PROTO_TCP_EST (ct_expiry st) 0) (c_timestamp k) g ->
  n + sg_len g < 2 ^ 62 -> h_packets (half (c_tcp k) dir) < 2 ^ 32 - 2 ->
  c_lockref k < 2 ^ 32 - 1 ->
  exists packet' st' k',
    nfe_tcpfsm_input (sg_buf g) cfg ext_conn_alloc st (sg_packet g) = Ok (n, Some c, packet', st') /\
    follows st' c k' dir isn (n + sg_len g) n /\ ct_expiry st' = ct_expiry st /\
    c_tuple k' = c_tuple k /\ c_timestamp k' = sg_ts g /\ c_lockref k' = c_lockref k + 1 /\
    h_packets (half (c_tcp k') dir) = h_packets (half (c_tcp k) dir) + 1.
Proof.
  intros [(A & W & Hl) Hk Ho Ht] Hi Hmax Hg (Hsf & Hd & Hh & Hth & Hfl & Hack & Hfr) Hn Hp Hr.
  destruct (linked_conn _ st A c W Hl) as (k0 & Hk0 & _ & Hr0).
  assert (k0 = k) as -> by congruence. pose proof (data_no_syn _ _ Hg) as Hsyn.
  unfold nfe_tcpfsm_input. rewrite Hth. cbn [deref]. cbind. rewrite Hfl. cbind.
  unfold tcp_lru_expired, tcp_lru. rewrite Hsyn.
  destruct (lru_expire_fresh nfe_tuple_hash st A LRU_PROTO_TCP_EST (sg_ts g) c k W)
    as (st1 & A1 & E1 & W1 & He1 & Hl1 & Hk1); [unfold LRU_PROTO_TCP_EST, LRU_PROTO_MAX; lia|done..|].
  unfold sg_ts in E1. rewrite E1. cbind.
  rewrite (lookup_finds nfe_tuple_hash _ st1 A1 c k) by done. cbind.
  rewrite u32_id by (unfold is_u32; lia). set (k1 := set_lockref _ k).
  assert (ct_wf nfe_tuple_hash (upd_conn st1 c k1) A1) as W2.
  { apply (upd_conn_wf _ st1 A1 c k); [done..|]. intros _. cbn. lia. }
  unfold get_conn at 1. cbn [upd_conn set_conns ct_conns]. rewrite lookup_insert_eq. cbn [deref]. cbind.
  fold (set_conns (<[c:=k1]> (ct_conns st1)) st1). fold (upd_conn st1 c k1).
  pose proof Hg as (_ & Hseq & _).
  cbn [set_timestamp c_tuple k1 set_lockref p_tuple p_timestamp p_tail p_data set_direction].
  rewrite Hd, Hseq. cbind. rewrite Hack. cbind. fold (sg_ts g) (sg_len g).
  set (k2 := set_timestamp (sg_ts g) k1).
  assert (ct_wf nfe_tuple_hash (upd_conn (upd_conn st1 c k1) c k2) A1) as W3.
  { apply (upd_conn_wf _ _ A1 c k1); [done|by apply lookup_insert_eq|done|]. intros _. cbn. lia. }
  destruct (lru_update_wf _ _ A1 LRU_PROTO_TCP_EST c W3) as (L & -> & W4);
    [unfold LRU_PROTO_TCP_EST, LRU_PROTO_MAX; lia|done|]. cbind.
  set (st4 := set_links L _) in *. set (A4 := lists_insert _ _ _) in *.
  assert (ct_conns st4 !! c = Some k2) as Hk4.
  { unfold st4. cbn [set_links upd_conn set_conns ct_conns]. apply lookup_insert_eq. }
  change (c_tcp k) with (c_tcp k2) in *.
  destruct (segment_inorder g isn n m dir st4 c k2) as (tcp' & E & Ho' & Ht' & Hp');
    [done..|]. revert E.
  destruct (tcp_classify _ _ _ _ _ _ _ _ _) as [[tcp d]|]; [|done]. cbind. intros E.
  change (mk_conn _ _ _ _ _) with k2. rewrite E. cbind.
  eexists _, (upd_conn st4 c (set_tcp tcp' k2)), (set_tcp tcp' k2).
  split; [done|]. split; [|by split_and!].
  assert (linked st4 A4 c) as Hl4.
  { destruct Hl1 as (i & Hi1 & Hin). exists i. split; [done|].
    apply elem_lists_insert. left. apply elem_lists_remove. split; [discriminate|exact Hin]. }
  split; [exists A4|apply lookup_insert_eq|exact Ho'|exact Ht']. split; [|exact Hl4].
  apply (upd_conn_wf _ st4 A4 c k2); [exact W4|exact Hk4|reflexivity|].
  intros _. cbn. lia.
Qed.

(** The caller gives its reference back: the table keeps the connection. *)
Lemma follows_release st c k dir isn n m :
  follows st c k dir isn n m -> 2 <= c_lockref k -> exists st',
  nfe_conn_release st (Some c) = Ok st' /\
  follows st' c (set_lockref (c_lockref k - 1) k) dir isn n m /\ ct_expiry st' = ct_expiry st.
Proof.
  intros [(A & W & Hl) Hk Ho Ht] H2. destruct (linked_conn _ st A c W Hl) as (k0 & Hk0 & _ & Hr0).
  assert (k0 = k) as -> by congruence. pose proof (release_cases _ st A c k W Hk Hr0) as Hrel.
  rewrite (proj2 (Z.eqb_neq _ 1)) in Hrel by lia. destruct Hrel as [E W'].
  eexists. split; [exact E|]. split; [|done].
  split; [by exists A|by apply lookup_insert_eq|done|done].
Qed.
End Stream.

(** The byte positions of consecutive segments. *)
Fixpoint positions (n : Z) (gs : list tcp_seg) : list Z :=
  match gs with [] => [] | g :: gs' => n :: positions (n + sg_len g) gs' end.

(** C31: An established connection of a well-formed table whose halves are both
    open and whose direction [dir] has followed [n] bytes after an initial sequence
    number other than [0xffffffff] is given in-order data segments of that direction
    through [nfe_tcpfsm_input]: each segment has none of SYN, FIN and RST, fewer
    than [2^16] bytes, a header within the capture, is no probe of one byte for a
    zero window, has the connection's flow and hash, and comes before the connection
    expires; the caller keeps the reference it gets or gives it back.  Then no call
    faults, every call returns this connection, and the offset it reports is the
    number of bytes before the segment, also after the 32-bit sequence number has
    wrapped any number of times (up to [2^62] bytes, and as long as the 32-bit counts
    of packets and references do not wrap). *)
Theorem tcp_stream_offsets `{HostEndian} cfg alloc gs isn n m dir st c k :
  follows st c k dir isn n m -> is_u32 isn -> isn <> 2 ^ 32 - 1 ->
  stream_ok (c_tuple k) dir (nth LRU_PROTO_TCP_EST (ct_expiry st) 0) isn n (c_timestamp k) gs ->
  n + Z.of_nat (length gs) * 2 ^ 16 < 2 ^ 62 ->
  h_packets (half (c_tcp k) dir) + Z.of_nat (length gs) < 2 ^ 32 - 1 ->
  c_lockref k + Z.of_nat (length gs) < 2 ^ 32 ->
  exists st', tcp_inputs cfg alloc st gs =
    Ok (map (fun off => (off, Some c)) (positions n gs), st').
Proof.
  intros Hf Hi Hmax. revert n m st k Hf.
  induction gs as [|g gs IH]; intros n m st k Hf Hs Hn Hp Hr; [by eexists|].
  destruct Hs as (Hg & Hfl & Hs). pose proof Hg as (_ & _ & Hl & _). cbn [length] in *.
  destruct (input_inorder cfg alloc g isn n m dir st c k)
    as (p' & st1 & k1 & E & Hf1 & He & Et & Ets & Er & Ep); [assumption || lia..|].
  assert (exists st2 k2, (if sg_release g then nfe_conn_release st1 (Some c) else Ok st1) = Ok st2 /\
    follows st2 c k2 dir isn (n + sg_len g) n /\ ct_expiry st2 = ct_expiry st /\
    c_tuple k2 = c_tuple k /\ c_timestamp k2 = sg_ts g /\ c_lockref k2 <= c_lockref k + 1 /\
    c_tcp k2 = c_tcp k1) as (st2 & k2 & E2 & Hf2 & He2 & Et2 & Ets2 & Er2 & Ec2).
  { destruct (sg_release g); [|exists st1, k1; split_and!; assumption || lia || done].
    assert (1 <= c_lockref k) as Hk1.
    { destruct Hf as [(A & W & Hlk) Hk _ _].
      destruct (linked_conn _ st A c W Hlk) as (k0 & Hk0 & _ & ?).
      assert (k0 = k) as -> by congruence. lia. }
    destruct (follows_release st1 c k1 dir isn (n + sg_len g) n Hf1) as (st2 & E2 & Hf2 & He2); [lia|].
    exists st2, (set_lockref (c_lockref k1 - 1) k1). rewrite He2. split_and!; try assumption || done.
    cbn. lia. }
  rewrite <- He2, <- Et2, <- Ets2 in Hs. rewrite <- Ec2 in Ep.
  destruct (IH _ _ st2 k2 Hf2 Hs) as (st3 & E3); [lia..|].
  exists st3. cbn [tcp_inputs]. rewrite E. cbind. rewrite E2. cbind. rewrite E3. done.
Qed.

(** Two packets of 16 bytes of data, the second starting at sequence number 7 after
    the wrap; the caller gives back the first reference. *)
Definition sample_tcp_tuple : nfe_tuple :=
  mk_tuple (ipaddr_copy_in4 [192; 168; 1; 10]) (ipaddr_copy_in4 [8; 8; 8; 8]) 0x01c0 0x5000
    IPPROTO_TCP NFE_AF_INET 0.
Definition sample_seg (seq : list Z) (release : bool) : tcp_seg :=
  mk_seg ([0; 80; 1; 1] ++ seq ++ [0; 0; 0; 9; 0x50; 16; 1; 0; 0; 0; 0; 0])
    (mk_packet sample_tcp_tuple 5 0 NFE_PACKET_TYPE_HOST NEXT_LOOKUP_TCP
       (@nfe_tuple_hash little_endian sample_tcp_tuple) 0 36 20 (Some 0)) release.
Definition sample_tcp (isn : Z) : nfe_tcp :=
  mk_tcp (mk_half 0 isn isn (u32 (isn + 1)) 9 0 1 1 1460) half_zero TCP_ESTABLISHED 0.

#[local] Existing Instance little_endian.

Lemma sample_tcp_tuple_ok : tuple_ok sample_tcp_tuple.
Proof. apply (bool_decide_unpack _). by vm_compute. Qed.

Lemma sample_flow_seg seq release expiry ts :
  5 <? ts = true \/ u64 (5 - ts) <? expiry = true -> length seq = 4%nat ->
  flow_seg sample_tcp_tuple false expiry ts (sample_seg seq release).
Proof.
  intros Ht Hs. destruct seq as [|a [|b [|c [|d [|]]]]]; try discriminate Hs.
  split; [apply same_flow_alt; split; [apply sample_tcp_tuple_ok|by left]|].
  do 5 (split; [reflexivity|]).
  unfold sg_ts. cbn [sample_seg sg_packet p_timestamp]. by apply orb_true_iff.
Qed.

Lemma tcp_stream_offsets_witness : exists st c st',
  ct_conns st !! c = Some (mk_conn sample_tcp_tuple (sample_tcp 0xfffffff6) 1 0 0) /\
  tcp_inputs nfe_config_default alloc_ok st
    [sample_seg [255; 255; 255; 0xf7] true; sample_seg [0; 0; 0; 7] false] =
  Ok ([(0, Some c); (16, Some c)], st').
Proof.
  destruct (table_of sample_tcp_tuple) as (_ & st0 & A & c & _ & W & _ & Hm & Hl & _ & Hx);
    [exact sample_tcp_tuple_ok|].
  set (k := mk_conn sample_tcp_tuple (sample_tcp 0xfffffff6) 1 0 0).
  destruct (@tcp_stream_offsets little_endian nfe_config_default alloc_ok
    [sample_seg [255; 255; 255; 0xf7] true; sample_seg [0; 0; 0; 7] false]
    0xfffffff6 0 (-1) false (upd_conn st0 c k) c k) as (st' & E).
  - split; [exists A; split; [|exact Hl]|apply lookup_insert_eq|by split; [|intros []]|done].
    apply (upd_conn_wf _ st0 A c (mk_conn sample_tcp_tuple tcp_zero 1 0 0));
      [exact W|rewrite Hm; apply lookup_singleton_eq|reflexivity|]. intros _. cbn. lia.
  - done.
  - done.
  - cbn [upd_conn set_conns ct_expiry]. rewrite Hx.
    split; [by split_and!|]. split; [apply sample_flow_seg; [by right|done]|].
    split; [by split_and!|]. split; [apply sample_flow_seg; [by right|done]|exact I].
  - done.
  - done.
  - done.
  - exists (upd_conn st0 c k), c, st'. split; [apply lookup_insert_eq|exact E].
Defined.

(** The offsets reported for some packets of a connection that has just been
    established with an initial sequence number. *)
Definition sample_offsets (isn : Z) (gs : list tcp_seg) : res (list Z) :=
  st ← deref (snd (nfe_conntrack_create nfe_config_default false true 8));
  '(conn, st) ← nfe_conntrack_lookup alloc_ok st (sg_packet (sample_seg [] false))
                  NFE_ALLOC_POLICY_CREATE;
  c ← deref conn;
  k ← get_conn st c;
  '(rs, _) ← tcp_inputs nfe_config_default alloc_ok (upd_conn st c (set_tcp (sample_tcp isn) k)) gs;
  Ok (map fst rs).

(** With the initial sequence number [0xffffffff] the first data byte is
    reported at offset [2^32]: [isn + 1] wraps to 0 in 32 bits while the wrap
    counter counts the same wrap. *)
Theorem tcp_offset_isn_max :
  sample_offsets 0xffffffff [sample_seg [0; 0; 0; 0] false] = Ok [2 ^ 32] /\
  sample_offsets 0xfffffffe [sample_seg [255; 255; 255; 255] false] = Ok [0].
Proof. by vm_compute. Qed.

(** While the connection is not released, [tcp_finish] moves it along an edge. *)
Lemma tcp_finish_track st c k flags seq d dir :
  ct_conns st !! c = Some k ->
  snd (tcp_transition flags d dir (c_tcp k)) = false ->
  exists tcp' off, tcp_finish st c flags seq d dir = Ok (off, upd_conn st c (set_tcp tcp' k)) /\
    tcp_edge (tcp_state (c_tcp k)) (tcp_state tcp').
Proof.
  intros Hk Hr. unfold tcp_finish, get_conn. rewrite Hk. cbn [deref]. cbind.
  pose proof (transition_edge flags d dir (c_tcp k)) as [He _].
  destruct (has _ F_TCP_RETRANSMIT).
  { exists (c_tcp k), 0. split; [|constructor]. do 2 f_equal. unfold upd_conn, set_conns.
    rewrite insert_id; [by destruct st|]. rewrite Hk. by destruct k. }
  destruct (tcp_transition flags d dir (c_tcp k)) as [s r] eqn:Et. cbn [snd fst] in *. subst r.
  cbind. cbn [upd_conn set_conns ct_conns].
  destruct (tcp_state (c_tcp k) =? TCP_CLOSED).
  - by eexists _, _.
  - rewrite lookup_insert_eq. cbn [deref]. cbind. eexists _, _. split.
    + unfold upd_conn, set_conns. cbn. by rewrite insert_insert_eq.
    + by rewrite state_upd_half.
Qed.

(** A release that leaves a reference: the rest of the function sees the
    connection, one reference down and closed. *)
Lemma tcp_finish_release st c k flags seq d dir :
  ct_conns st !! c = Some k -> 2 <= c_lockref k < 2 ^ 32 ->
  snd (tcp_transition flags d dir (c_tcp k)) = true ->
  exists tcp' n off, tcp_finish st c flags seq d dir =
      Ok (off, upd_conn st c (set_tcp tcp' (set_lockref n k))) /\
    1 <= n < 2 ^ 32 /\ (tcp_state tcp' = tcp_state (c_tcp k) \/ tcp_state tcp' = TCP_CLOSED).
Proof.
  intros Hk Hn Hr. unfold tcp_finish, get_conn. rewrite Hk. cbn [deref]. cbind.
  destruct (has _ F_TCP_RETRANSMIT).
  { exists (c_tcp k), (c_lockref k), 0. split; [|split; [lia|by left]]. do 2 f_equal.
    unfold upd_conn, set_conns. rewrite insert_id; [by destruct st|]. rewrite Hk. by destruct k. }
  pose proof (transition_edge flags d dir (c_tcp k)) as [_ Hc].
  destruct (tcp_transition flags d dir (c_tcp k)) as [s r] eqn:Et. cbn [snd fst] in *. subst r.
  rewrite (Hc eq_refl). unfold nfe_conn_release, get_conn.
  cbn [upd_conn set_conns ct_conns]. rewrite lookup_insert_eq. cbn [deref]. cbind.
  cbn [c_lockref set_tcp]. rewrite c_assert_Ok by (apply Z.leb_le; lia). cbind.
  rewrite u32_id by (unfold is_u32; lia). rewrite (proj2 (Z.eqb_neq _ 0)) by lia. cbind.
  cbn [upd_conn set_conns ct_conns].
  destruct (tcp_state (c_tcp k) =? TCP_CLOSED).
  - exists (set_state TCP_CLOSED (c_tcp k)), (c_lockref k - 1), 0.
    split; [|split; [lia|by right]]. unfold upd_conn, set_conns. cbn. by rewrite insert_insert_eq.
  - rewrite lookup_insert_eq. cbn [deref]. cbind.
    exists (upd_half (set_state TCP_CLOSED (c_tcp k)) dir (tcp_advance seq)), (c_lockref k - 1).
    eexists. split; [|split; [lia|]].
    + unfold upd_conn, set_conns. cbn. by rewrite !insert_insert_eq.
    + right. by rewrite state_upd_half.
Qed.

(** ** Faults of the tracker *)
Definition tcp_fault (f : fault) : Prop := f = FOob \/ f = FIndex.

#[local] Ltac wp_read lem := apply wp_bind; eapply wp_mono; [apply lem; by left|intros ? _].

Lemma wp_tcp_mss_loop buf n hdr opt :
  bytes_ok buf -> Z.max 0 hdr < Z.of_nat n ->
  wp tcp_fault (tcp_mss_loop buf n hdr opt) (fun _ => True).
Proof.
  intros Hb. revert hdr opt. induction n as [|n IH]; intros hdr opt Hn; [lia|].
  cbn [tcp_mss_loop]. destruct (Z.leb_spec hdr 0); [done|].
  wp_read wp_rd8. destruct (_ =? _); [done|]. destruct (_ =? _); [apply IH; lia|].
  apply wp_bind. destruct (rd8 buf (opt + 1)) as [len|f] eqn:El.
  - pose proof (rd8_u8 _ _ _ Hb El) as Hlen. unfold is_u8 in Hlen. cbn [wp].
    destruct (_ || _) eqn:Es; [done|]. apply orb_false_iff in Es as [?%Z.ltb_ge ?%Z.ltb_ge].
    destruct (_ =? _); [apply wp_read16; by left|]. apply IH. lia.
  - pose proof (wp_rd8 tcp_fault buf (opt + 1)) as Hw. rewrite El in Hw. apply Hw. by left.
Qed.

Lemma wp_tcp_mss buf th : bytes_ok buf -> wp tcp_fault (tcp_mss buf th) (fun _ => True).
Proof.
  intros Hb. unfold tcp_mss. wp_read wp_rd8. apply wp_tcp_mss_loop; [done|].
  pose proof (th_off_range a). lia.
Qed.

Definition handler_wp (f : tcp_handler) : Prop := forall th tcp dir d,
  wp tcp_fault (f th tcp dir d) (fun tcp' => tcp_state tcp' = tcp_state tcp \/
                                            tcp_state tcp' = TCP_CLOSED).

Lemma tcp_rcv_syn_wp buf th tcp dir d : bytes_ok buf ->
  wp tcp_fault (tcp_rcv_syn buf th tcp dir d) (fun tcp' => tcp_state tcp' = tcp_state tcp).
Proof.
  intros Hb. unfold tcp_rcv_syn. wp_read wp_be32_at.
  apply wp_bind. eapply wp_mono; [by apply wp_tcp_mss|]. intros mss _.
  wp_read wp_rd8. destruct (has _ TH_ACK); cbn [negb].
  - wp_read wp_be32_at. cbn [wp]. autorewrite with tcp_rw. by case_match.
  - cbn [wp]. autorewrite with tcp_rw. by case_match.
Qed.

Lemma tcp_rcv_fin_wp buf th tcp dir d :
  wp tcp_fault (tcp_rcv_fin buf th tcp dir d) (fun tcp' => tcp_state tcp' = tcp_state tcp).
Proof.
  unfold tcp_rcv_fin. wp_read wp_be32_at. wp_read wp_be32_at. cbn [wp].
  autorewrite with tcp_rw. by case_match.
Qed.

Lemma nfe_tcpfsm_wp buf s i :
  bytes_ok buf -> wp tcp_fault (nfe_tcpfsm_at buf s i) handler_wp.
Proof.
  intros Hb.
  assert (Forall (Forall handler_wp) (nfe_tcpfsm buf)) as HF.
  { assert (handler_wp tcp_rcv_err) by (intros ????; by right).
    assert (handler_wp tcp_rcv_rst) by (intros ????; by right).
    assert (handler_wp (tcp_rcv_syn buf)).
    { intros ????. eapply wp_mono; [by apply tcp_rcv_syn_wp|]. auto. }
    assert (handler_wp (tcp_rcv_fin buf)).
    { intros ????. eapply wp_mono; [apply tcp_rcv_fin_wp|]. auto. }
    unfold nfe_tcpfsm. repeat (apply Forall_cons; split); auto; apply Forall_nil; done. }
  unfold nfe_tcpfsm_at. destruct (nfe_tcpfsm buf !! Z.to_nat s) as [row|] eqn:Er; [|by right].
  cbn. destruct (row !! Z.to_nat i) as [g|] eqn:Eg; [|by right]. cbn [wp].
  rewrite Forall_lookup in HF. specialize (HF _ _ Er). rewrite Forall_lookup in HF. eauto.
Qed.

Lemma classify_wp buf th flags seq ack ts d dir tcp :
  bytes_ok buf -> wp tcp_fault (tcp_classify buf th flags seq ack ts d dir tcp)
    (fun '(tcp', _) => tcp_state tcp' = tcp_state tcp \/ tcp_state tcp' = TCP_CLOSED).
Proof.
  intros Hb. unfold tcp_classify. destruct (negb _).
  - apply wp_bind. eapply wp_mono; [by apply nfe_tcpfsm_wp|]. intros f Hf.
    apply wp_bind. eapply wp_mono; [apply Hf|]. done.
  - apply wp_bind. apply (wp_mono _ _ (fun _ => True)).
    { unfold tcp_keepalive. wp_read wp_be32_at. exact I. }
    intros [] _; [by left|]. apply wp_bind. apply (wp_mono _ _ (fun _ => True)).
    { unfold tcp_zero_window_probe. wp_read wp_be32_at. destruct (_ && _); [|exact I].
      wp_read wp_read16. exact I. }
    intros [] _; [by left|]. repeat case_match; left; cbn [tcp_state set_tflags];
      by autorewrite with tcp_rw.
Qed.

(** The first segment of a connection the table just made is a SYN (when
    connections are not picked up in mid-flow): the connection stays in the
    state connecting and is not released. *)
Lemma classify_new_syn buf th flags seq ack ts d dir tcp :
  bytes_ok buf -> has flags TH_SYN = true -> tcp_state tcp = TCP_CONNECTING ->
  wp tcp_fault (tcp_classify buf th flags seq ack ts d dir tcp)
    (fun '(tcp', _) => tcp_state tcp' = TCP_CONNECTING).
Proof.
  intros Hb Hsyn Hst. destruct (has flags 4) eqn:Hrst.
  { rewrite tcp_syn_rst_fault by done. by right. }
  unfold tcp_classify. destruct (tcp_syn_column flags Hsyn Hrst) as [-> ->]. cbn [negb].
  rewrite Hst. cbn [nfe_tcpfsm_at].
  change (nfe_tcpfsm_at buf TCP_CONNECTING 1) with (Ok (tcp_rcv_syn buf)). cbind.
  apply wp_bind. eapply wp_mono; [by apply tcp_rcv_syn_wp|]. cbn. congruence.
Qed.
