(* ===== verification/Nfe.v ===== *)
(** * Nfe: the lookups of the flow engine, from packet to connection

    Models [nfe_udp_lookup], [nfe_icmp_lookup], [nfe_icmp_bypass],
    [nfe_ether_lookup], [nfe_eth_bypass], [nfe_conn_lookup_next],
    [nfe_conn_lookup] and [nfe_conn_lookup_by_tuple] of [lib/nfe/src], and
    proves what the engine promises its users: no lookup breaks the table. *)
From S2P Require Import Prelude NfeTypes NfeJhash NfeFlow NfeList NfePacket NfeConntrack NfeTcp.

Section Lookup.
Context `{HostEndian}.
Variable buf : list Z.
Variable cfg : nfe_config.
Variable ext_conn_alloc : gmap conn_id nfe_conn -> nfe_tuple -> option conn_id.

(** A lookup returns the connection, the packet descriptor and the table. *)
Abbreviation lookup_result := (res (option conn_id * nfe_packet * conntrack)).

Definition nfe_udp_lookup (st : conntrack) (packet : nfe_packet) : lookup_result :=
  st ← nfe_conntrack_lru_expire st LRU_PROTO_UDP (p_timestamp packet);
  '(conn, st) ← nfe_conntrack_lookup ext_conn_alloc st packet NFE_ALLOC_POLICY_CREATE;
  match conn with
  | None => Ok (None, set_prot None (set_next 0 packet), st)
  | Some c =>
      k ← get_conn st c;
      let st := upd_conn st c (set_timestamp (p_timestamp packet) k) in
      let packet :=
        set_direction (if conn_dir (c_tuple k) (p_tuple packet) then 1 else 0) packet in
      st ← nfe_conntrack_lru_update st LRU_PROTO_UDP c;
      Ok (Some c, set_prot None (set_next 0 packet), st)
  end.

Definition nfe_icmp_lookup (st : conntrack) (packet : nfe_packet) : lookup_result :=
  st ← nfe_conntrack_lru_expire st LRU_PROTO_ICMP (p_timestamp packet);
  '(conn, st) ← nfe_conntrack_lookup ext_conn_alloc st packet NFE_ALLOC_POLICY_CREATE;
  match conn with
  | None => Ok (None, packet, st)
  | Some c =>
      k ← get_conn st c;
      let st := upd_conn st c (set_timestamp (p_timestamp packet) k) in
      st ← nfe_conntrack_lru_update st LRU_PROTO_ICMP c;
      Ok (Some c, packet, st)
  end.

Definition nfe_ether_lookup (st : conntrack) (packet : nfe_packet) : lookup_result :=
  st ← nfe_conntrack_lru_expire st LRU_PROTO_ETHER (p_timestamp packet);
  '(conn, st) ← nfe_conntrack_lookup ext_conn_alloc st packet NFE_ALLOC_POLICY_CREATE;
  match conn with
  | None => Ok (None, set_prot None (set_next 0 packet), st)
  | Some c =>
      k ← get_conn st c;
      let st := upd_conn st c (set_timestamp (p_timestamp packet) k) in
      st ← nfe_conntrack_lru_update st LRU_PROTO_ETHER c;
      Ok (Some c, set_prot None (set_next 0 packet), st)
  end.

Definition nfe_eth_bypass (st : conntrack) (p : nfe_packet) : lookup_result :=
  let '(conn, st) := nfe_conn_alloc ext_conn_alloc st (p_tuple p) false in
  Ok (conn, p, st).

(** The reaction to "destination unreachable": the connection of the quoted
    packet loses the reference of the lookup and one more. *)
Definition icmp_unreachable (fuel : nat) (st : conntrack) (p : nfe_packet) : res conntrack :=
  let data := p_data p + 8 in
  b ← rd8 buf data;
  let eth_type := eth_type_from_ip b in
  if eth_type =? 0 then Ok st else
  '(_, packet) ← nfe_packet_hash buf fuel (Some (packet_init 0 0 0)) eth_type (Some data)
                   (p_tail p - data) (p_timestamp p);
  packet ← deref packet;
  '(conn, st) ← nfe_conntrack_lookup ext_conn_alloc st packet NFE_ALLOC_POLICY_NONE;
  match conn with
  | None => Ok st
  | Some c => st ← nfe_conn_release st (Some c); nfe_conn_release st (Some c)
  end.

Definition nfe_icmp_bypass (fuel : nat) (st : conntrack) (p : nfe_packet) : lookup_result :=
  if size_t (remaining p) <? 8 then Ok (None, p, st) else
  type ← rd8 buf (p_data p);
  st ← (if type =? 3 then icmp_unreachable fuel st p else Ok st);
  let '(conn, st) := nfe_conn_alloc ext_conn_alloc st (p_tuple p) false in
  Ok (conn, p, st).

Definition nfe_conn_lookup_next (fuel : nat) (st : conntrack) (packet : nfe_packet)
    : lookup_result :=
  if p_next packet =? NEXT_LOOKUP_TCP then nfe_tcp_lookup buf cfg ext_conn_alloc st packet
  else if p_next packet =? NEXT_LOOKUP_UDP then nfe_udp_lookup st packet
  else if p_next packet =? NEXT_LOOKUP_ICMP then nfe_icmp_lookup st packet
  else if p_next packet =? NEXT_BYPASS_ICMP then nfe_icmp_bypass fuel st packet
  else if p_next packet =? NEXT_BYPASS_ETH then nfe_ether_lookup st packet
  else Ok (None, packet, st).

(** [nfe_conn_lookup] on non-NULL arguments (with NULL it returns NULL). *)
Definition nfe_conn_lookup (fuel : nat) (st : conntrack) (packet : nfe_packet) : lookup_result :=
  if negb (p_next packet =? 0) then
    if negb (p_type packet =? NFE_PACKET_TYPE_BROADCAST)
    then nfe_conn_lookup_next fuel st packet
    else nfe_ether_lookup st packet
  else Ok (None, packet, st).

(** [nfe_conn_lookup_by_tuple]: the connection and the direction stored through
    [dir]. *)
Definition nfe_conn_lookup_by_tuple (st : conntrack) (tuple : nfe_tuple) (timestamp : Z)
    : res (option (conn_id * Z) * conntrack) :=
  let go st lru :=
    st ← nfe_conntrack_lru_expire st lru timestamp;
    '(conn, st) ← nfe_conntrack_lookup_hash st tuple (nfe_tuple_hash tuple);
    match conn with
    | None => Ok (None, st)
    | Some c =>
        st ← nfe_conntrack_lru_update st lru c;
        k ← get_conn st c;
        Ok (Some (c, if memcmp (t_addr0 (c_tuple k)) (t_addr0 tuple)
                          (domain_len (t_domain tuple)) =? 0 then 0 else 1), st)
    end in
  if t_proto tuple =? IPPROTO_ICMP then go st LRU_PROTO_ICMP
  else if t_proto tuple =? IPPROTO_TCP then
    st ← nfe_conntrack_lru_expire st LRU_PROTO_TCP_SYN timestamp; go st LRU_PROTO_TCP_EST
  else if t_proto tuple =? IPPROTO_UDP then go st LRU_PROTO_UDP
  else if t_proto tuple =? IPPROTO_IP then go st LRU_PROTO_ETHER
  else Ok (None, st).

End Lookup.

(** ** Lookups keep the table well formed *)
#[local] Opaque nfe_tuple_hash.

(** The faults a lookup may commit: reads past the capture, the index fault of
    the TCP table, and the divergence of the parser on a quoted packet.  Not
    among them: a failing assertion, and the use of a freed connection. *)
Definition engine_fault (f : fault) : Prop := f = FOob \/ f = FIndex \/ f = FFuel.

Definition states_ok (st : conntrack) : Prop :=
  map_Forall (fun _ k => 0 <= tcp_state (c_tcp k) < TCP_NUM_STATE) (ct_conns st).

Lemma abs_expire_forall (P : conn_id -> nfe_conn -> Prop) m expiry ts cs :
  (forall c k, P c k -> P c (set_lockref (c_lockref k - 1) k)) ->
  map_Forall P m -> map_Forall P (abs_expire m expiry ts cs).
Proof.
  intros Hd. revert m. induction cs as [|c cs IH]; intros m Hm; [done|]. cbn.
  destruct (m !! c) as [k|] eqn:Hk; [|done]. destruct (conn_fresh _ _ _); [done|].
  apply IH. destruct (_ =? _); [by apply map_Forall_delete|].
  apply map_Forall_insert_2; [|done]. apply Hd. by apply Hm.
Qed.

Section Safe.
Context `{HostEndian} (tuple_hash : nfe_tuple -> Z) `{!FlowHash tuple_hash}.
Variable ext_conn_alloc : gmap conn_id nfe_conn -> nfe_tuple -> option conn_id.
Hypothesis alloc_fresh : forall m t c, ext_conn_alloc m t = Some c -> m !! c = None.

Abbreviation wf := (ct_wf tuple_hash).

(** A table in use: well formed, reference counts and TCP states in range. *)
Definition table_ok (st : conntrack) : Prop :=
  (exists A, wf st A) /\ refs_bounded st /\ states_ok st.

(** A table after a lookup, where one count may have grown. *)
Definition table_after (st : conntrack) : Prop := (exists A, wf st A) /\ states_ok st.

Lemma expire_ok st lru ts : table_ok st -> (lru < LRU_PROTO_MAX)%nat -> exists st',
  nfe_conntrack_lru_expire st lru ts = Ok st' /\ table_ok st'.
Proof.
  intros ((A & W) & Hr & Hs) Hl.
  destruct (lru_expire_spec tuple_hash st A lru ts W Hl) as (st' & A' & E & W' & _ & _ & Em & _).
  exists st'. split; [exact E|]. split; [eauto|]. unfold refs_bounded, states_ok. rewrite Em.
  split; apply abs_expire_forall; try done. intros c k Hk. cbn. lia.
Qed.

(** What a lookup hands to its caller: a connection of the table, either held
    by the table as well or just made. *)
Definition handed (policy : Z) (st : conntrack) (A : lptr -> list lptr) (c : conn_id)
    (k : nfe_conn) : Prop :=
  ct_conns st !! c = Some k /\ linked st A c /\ tuple_ok (c_tuple k) /\
  1 <= c_lockref k < 2 ^ 32 /\
  (2 <= c_lockref k \/ (c_tcp k = tcp_zero /\ policy <> NFE_ALLOC_POLICY_NONE)).

Lemma lookup_ok st packet policy :
  table_ok st -> tuple_ok (p_tuple packet) -> p_hash packet = tuple_hash (p_tuple packet) ->
  exists r st' A', nfe_conntrack_lookup ext_conn_alloc st packet policy = Ok (r, st') /\
    wf st' A' /\ states_ok st' /\
    match r with None => st' = st | Some c => exists k, handed policy st' A' c k end.
Proof.
  intros ((A & W) & Hr & Hs) Ht Hh.
  destruct (lookup_cases tuple_hash ext_conn_alloc alloc_fresh st A packet policy W Ht Hh Hr)
    as (r & st' & A' & E & W' & Ho). exists r, st', A'. split; [exact E|]. split; [exact W'|].
  destruct Ho as [c k Hl Hk He|Hno Hp|c st' i Hno Hp Hc Hsz Hex Hi Hm].
  - destruct (linked_conn tuple_hash st A c W Hl) as (k' & Hk' & Hok & Hlr).
    replace k' with k in * by congruence. specialize (Hr c k Hk) as Hb. cbn in Hb. split.
    + apply map_Forall_insert_2; [|done]. exact (Hs c k Hk).
    + exists (set_lockref (c_lockref k + 1) k). split_and!; try done; try (cbn; lia).
      apply lookup_insert_eq.
  - done.
  - split.
    + unfold states_ok. rewrite Hm. apply map_Forall_insert_2; [|done]. done.
    + eexists. split; [rewrite Hm; apply lookup_insert_eq|]. split_and!; try done.
      * apply (linked_insert st'); [by rewrite Hsz|by right].
      * apply (new_tuple_flow (p_tuple packet)). exact Ht.
      * by right.
Qed.

Lemma states_upd st c k : states_ok st -> 0 <= tcp_state (c_tcp k) < TCP_NUM_STATE ->
  states_ok (upd_conn st c k).
Proof. intros Hs Hk. by apply map_Forall_insert_2. Qed.

Lemma lru_update_ok st A lru c :
  wf st A -> (lru < LRU_PROTO_MAX)%nat -> linked st A c -> exists st' A',
  nfe_conntrack_lru_update st lru c = Ok st' /\ wf st' A' /\ ct_conns st' = ct_conns st /\
  linked st' A' c.
Proof.
  intros W Hl Hc. destruct (lru_update_wf tuple_hash st A lru c W Hl Hc) as (L & E & W').
  eexists _, _. split; [exact E|]. split; [exact W'|]. split; [done|].
  destruct Hc as (i & Hi & Hin). exists i. split; [done|].
  rewrite elem_lists_insert, elem_lists_remove. by left.
Qed.

(** The common tail of the UDP, ICMP and Ethernet lookups. *)
Lemma touch_ok policy st A c k ts lru :
  wf st A -> states_ok st -> handed policy st A c k -> (lru < LRU_PROTO_MAX)%nat ->
  exists st' A', nfe_conntrack_lru_update (upd_conn st c (set_timestamp ts k)) lru c = Ok st' /\
    wf st' A' /\ states_ok st' /\ handed policy st' A' c (set_timestamp ts k) /\
    ct_conns st' = <[c := set_timestamp ts k]> (ct_conns st).
Proof.
  intros W Hs (Hk & Hl & Hok & Hr & Hc) Hlru.
  assert (wf (upd_conn st c (set_timestamp ts k)) A) as W1
    by (apply (upd_conn_wf tuple_hash st A c k); done).
  destruct (lru_update_ok _ A lru c W1 Hlru Hl) as (st' & A' & E & W' & Hm & Hl').
  exists st', A'. cbn in Hm. split; [exact E|]. split; [exact W'|]. split.
  - unfold states_ok. rewrite Hm. apply map_Forall_insert_2; [|done]. exact (Hs c k Hk).
  - unfold handed. rewrite Hm, lookup_insert_eq. done.
Qed.

(** What every lookup establishes: the table is well formed, and the
    connection returned is not a dangling pointer. *)
Definition lookup_post (r : option conn_id * nfe_packet * conntrack) : Prop :=
  let '(conn, _, st') := r in
  table_after st' /\ match conn with None => True | Some c => is_Some (ct_conns st' !! c) end.

Lemma table_ok_after st : table_ok st -> table_after st.
Proof. intros (W & _ & Hs). by split. Qed.

(** The three lookups without per-protocol state: expire the list, look up or
    create, stamp the connection and move it to the end of the list. *)
Lemma touch_lookup_ok lru st p (f : option nfe_conn -> nfe_packet) :
  table_ok st -> tuple_ok (p_tuple p) -> p_hash p = tuple_hash (p_tuple p) ->
  (lru < LRU_PROTO_MAX)%nat ->
  wp (fun _ => False)
    (st ← nfe_conntrack_lru_expire st lru (p_timestamp p);
     '(conn, st) ← nfe_conntrack_lookup ext_conn_alloc st p NFE_ALLOC_POLICY_CREATE;
     match conn with
     | None => Ok (None, f None, st)
     | Some c =>
         k ← get_conn st c;
         st ← nfe_conntrack_lru_update (upd_conn st c (set_timestamp (p_timestamp p) k)) lru c;
         Ok (Some c, f (Some k), st)
     end) lookup_post.
Proof.
  intros T Ht Hh Hl.
  destruct (expire_ok st lru (p_timestamp p) T Hl) as (st1 & E1 & T1). eapply wp_step; [exact E1|].
  destruct (lookup_ok st1 p NFE_ALLOC_POLICY_CREATE T1 Ht Hh) as (r & st2 & A2 & E2 & W2 & S2 & Hr).
  eapply wp_step; [exact E2|]. destruct r as [c|]; [|split; [|done]; split; [by exists A2|done]].
  destruct Hr as (k & Hk). eapply wp_step; [unfold get_conn; by rewrite (proj1 Hk)|].
  destruct (touch_ok _ st2 A2 c k (p_timestamp p) lru W2 S2 Hk Hl)
    as (st3 & A3 & E3 & W3 & S3 & Hk3 & _).
  eapply wp_step; [exact E3|]. split; [by split; [exists A3|]|].
  exists (set_timestamp (p_timestamp p) k). apply Hk3.
Qed.

Lemma udp_lookup_ok st p :
  table_ok st -> tuple_ok (p_tuple p) -> p_hash p = tuple_hash (p_tuple p) ->
  wp (fun _ => False) (nfe_udp_lookup ext_conn_alloc st p) lookup_post.
Proof.
  intros T Ht Hh. apply (touch_lookup_ok LRU_PROTO_UDP st p (fun o => set_prot None (set_next 0
    match o with
    | None => p
    | Some k => set_direction (if conn_dir (c_tuple k) (p_tuple p) then 1 else 0) p
    end)) T Ht Hh). unfold LRU_PROTO_UDP, LRU_PROTO_MAX. lia.
Qed.

Lemma icmp_lookup_ok st p :
  table_ok st -> tuple_ok (p_tuple p) -> p_hash p = tuple_hash (p_tuple p) ->
  wp (fun _ => False) (nfe_icmp_lookup ext_conn_alloc st p) lookup_post.
Proof.
  intros T Ht Hh. apply (touch_lookup_ok LRU_PROTO_ICMP st p (fun _ => p) T Ht Hh).
  unfold LRU_PROTO_ICMP, LRU_PROTO_MAX. lia.
Qed.

Lemma ether_lookup_ok st p :
  table_ok st -> tuple_ok (p_tuple p) -> p_hash p = tuple_hash (p_tuple p) ->
  wp (fun _ => False) (nfe_ether_lookup ext_conn_alloc st p) lookup_post.
Proof.
  intros T Ht Hh.
  apply (touch_lookup_ok LRU_PROTO_ETHER st p (fun _ => set_prot None (set_next 0 p)) T Ht Hh).
  unfold LRU_PROTO_ETHER, LRU_PROTO_MAX. lia.
Qed.

(** *** TCP *)
Variable buf : list Z.
Variable cfg : nfe_config.
Hypothesis buf_bytes : bytes_ok buf.
Hypothesis no_midflow : cfg_tcp_midflow cfg = 0.

Lemma edge_range s s' : tcp_edge s s' -> 0 <= s < TCP_NUM_STATE -> 0 <= s' < TCP_NUM_STATE.
Proof. intros [] ?; done || lia. Qed.

Lemma tcp_finish_ok st A c k flags seq d dir :
  ct_wf tuple_hash st A -> states_ok st -> linked st A c -> ct_conns st !! c = Some k ->
  1 <= c_lockref k < 2 ^ 32 ->
  2 <= c_lockref k \/ snd (tcp_transition flags d dir (c_tcp k)) = false ->
  exists off st', tcp_finish st c flags seq d dir = Ok (off, st') /\
    table_after st' /\ is_Some (ct_conns st' !! c).
Proof.
  intros W S Hl Hk Hr Hc. specialize (S c k Hk) as Sk. cbn in Sk.
  destruct (snd (tcp_transition flags d dir (c_tcp k))) eqn:Et.
  - destruct Hc as [Hc|]; [|done].
    destruct (tcp_finish_release st c k flags seq d dir Hk) as (tcp' & n & off & E & Hn & Hs);
      [lia|done|]. eexists _, _. split; [exact E|]. split; [split|].
    + exists A. by apply (upd_conn_wf tuple_hash st A c k).
    + apply states_upd; [done|]. cbn. destruct Hs as [-> | ->]; done.
    + eexists. apply lookup_insert_eq.
  - destruct (tcp_finish_track st c k flags seq d dir Hk Et) as (tcp' & off & E & He).
    eexists _, _. split; [exact E|]. split; [split|].
    + exists A. by apply (upd_conn_wf tuple_hash st A c k).
    + apply states_upd; [done|]. cbn. by eapply edge_range.
    + eexists. apply lookup_insert_eq.
Qed.

Lemma transition_syn flags d dir tcp :
  has flags TH_SYN = true -> tcp_state tcp = TCP_CONNECTING ->
  snd (tcp_transition flags d dir tcp) = false.
Proof. intros Hs Ht. unfold tcp_transition. by rewrite Ht, Hs. Qed.

(** Tracking and finishing a segment of a connection handed out by a lookup. *)
Lemma tcp_segment_ok policy st A c k th flags seq ack ts d dir :
  ct_wf tuple_hash st A -> states_ok st -> handed policy st A c k ->
  policy = tcp_policy cfg flags ->
  wp tcp_fault
    ('(tcp, datalen) ← tcp_classify buf th flags seq ack ts d dir
                         (upd_half (c_tcp k) dir (tcp_count seq ack));
     tcp_finish (upd_conn st c (set_tcp (upd_half tcp dir (set_last_time ts)) k))
       c flags seq datalen dir)
    (fun '(_, st') => table_after st' /\ is_Some (ct_conns st' !! c)).
Proof.
  intros W S (Hk & Hl & Hok & Hr & Hc) Hp. apply wp_bind.
  assert (forall tcp datalen, 0 <= tcp_state tcp < TCP_NUM_STATE ->
    2 <= c_lockref k \/ (has flags TH_SYN = true /\ tcp_state tcp = TCP_CONNECTING) ->
    wp tcp_fault (tcp_finish (upd_conn st c (set_tcp (upd_half tcp dir (set_last_time ts)) k))
       c flags seq datalen dir)
      (fun '(_, st') => table_after st' /\ is_Some (ct_conns st' !! c))) as Hfin.
  { intros tcp dl Hs Hrel.
    destruct (tcp_finish_ok (upd_conn st c (set_tcp (upd_half tcp dir (set_last_time ts)) k)) A c
      (set_tcp (upd_half tcp dir (set_last_time ts)) k) flags seq dl dir) as (off & st' & E & P).
    - by apply (upd_conn_wf tuple_hash st A c k).
    - apply states_upd; [done|]. cbn. by rewrite state_upd_half.
    - done.
    - apply lookup_insert_eq.
    - done.
    - destruct Hrel as [?|[? ?]]; [by left|]. right. apply transition_syn; [done|].
      cbn. by rewrite state_upd_half.
    - by rewrite E. }
  specialize (S c k Hk) as Sk. cbn in Sk. destruct Hc as [Hc|[Hz Hc]].
  - eapply wp_mono; [by apply classify_wp|]. intros [tcp dl] Hst. apply Hfin; [|by left].
    rewrite state_upd_half in Hst. destruct Hst as [-> | ->]; done.
  - assert (has flags TH_SYN = true) as Hsyn.
    { subst policy. unfold tcp_policy in Hc. destruct (has flags TH_SYN); [done|].
      by rewrite no_midflow in Hc. }
    eapply wp_mono; [apply classify_new_syn; [done|done|by rewrite state_upd_half, Hz]|].
    intros [tcp dl] Hst. cbn in Hst. apply Hfin; [by rewrite Hst|by right].
Qed.

Lemma tcpfsm_input_ok st p :
  table_ok st -> tuple_ok (p_tuple p) -> p_hash p = tuple_hash (p_tuple p) ->
  is_Some (p_prot p) ->
  wp tcp_fault (nfe_tcpfsm_input buf cfg ext_conn_alloc st p)
    (fun '(off, conn, _, st') => table_after st' /\
       match conn with None => off = -1 | Some c => is_Some (ct_conns st' !! c) end).
Proof.
  intros T Ht Hh [th Hth]. unfold nfe_tcpfsm_input.
  eapply wp_step; [by rewrite Hth|]. apply wp_bind. eapply wp_mono; [apply wp_rd8; by left|].
  intros flags _. destruct (expire_ok st (tcp_lru_expired flags) (p_timestamp p) T)
    as (st1 & E1 & T1).
  { unfold tcp_lru_expired, LRU_PROTO_TCP_SYN, LRU_PROTO_TCP_EST, LRU_PROTO_MAX.
    case_match; lia. }
  eapply wp_step; [exact E1|].
  destruct (lookup_ok st1 (set_direction (if tcp_policy cfg flags =? NFE_ALLOC_POLICY_INVERT
    then 1 else 0) p) (tcp_policy cfg flags) T1 Ht Hh) as (r & st2 & A2 & E2 & W2 & S2 & Hr).
  eapply wp_step; [exact E2|]. destruct r as [c|]; [|split; [|done]; split; [by exists A2|done]].
  destruct Hr as (k & Hk). eapply wp_step; [unfold get_conn; by rewrite (proj1 Hk)|].
  apply wp_bind. eapply wp_mono; [apply wp_be32_at; by left|]. intros seq _.
  apply wp_bind. eapply wp_mono; [apply wp_be32_at; by left|]. intros ack _.
  destruct (touch_ok _ st2 A2 c k (p_timestamp p) (tcp_lru flags) W2 S2 Hk)
    as (st3 & A3 & E3 & W3 & S3 & Hk3 & _).
  { unfold tcp_lru, LRU_PROTO_TCP_SYN, LRU_PROTO_TCP_EST, LRU_PROTO_MAX.
    repeat case_match; lia. }
  eapply wp_step; [exact E3|].
  set (dir := conn_dir _ _). set (d := u64 _).
  pose proof (tcp_segment_ok _ st3 A3 c _ th flags seq ack (p_timestamp p) d dir W3 S3 Hk3 eq_refl)
    as Hseg. revert Hseg. cbn [c_tcp set_timestamp set_direction p_timestamp].
  destruct (tcp_classify _ _ _ _ _ _ _ _ _) as [[tcp dl]|f]; [|done]. cbind.
  destruct (tcp_finish _ _ _ _ _ _) as [[off st4]|f]; done.
Qed.

Lemma tcp_lookup_ok st p :
  table_ok st -> tuple_ok (p_tuple p) -> p_hash p = tuple_hash (p_tuple p) ->
  is_Some (p_prot p) ->
  wp tcp_fault (nfe_tcp_lookup buf cfg ext_conn_alloc st p) lookup_post.
Proof.
  intros T Ht Hh Hp. unfold nfe_tcp_lookup. apply wp_bind.
  eapply wp_mono; [by apply tcpfsm_input_ok|].
  intros [[[off conn] q] st'] [((A & W) & S) Hc]. destruct (Z.eqb_spec off (-1)) as [->|Ho].
  - split; [split; [by exists A|done]|]. by destruct conn.
  - destruct conn as [c|]; [|done]. destruct Hc as [k Hk].
    eapply wp_step; [unfold get_conn; by rewrite Hk|].
    destruct (has _ _); [|split; [split; [by exists A|done]|by exists k]].
    specialize (S c k Hk) as Sk. cbn in Sk. split; [split|].
    + exists A. apply (upd_conn_wf tuple_hash st' A c k); [done..|]. intros Hl.
      destruct (linked_conn tuple_hash st' A c W Hl) as (k' & Hk' & _ & ?). by simplify_eq.
    + by apply states_upd.
    + eexists. apply lookup_insert_eq.
Qed.

(** *** ICMP *)
Lemma alloc_ok_after st tuple inv : table_after st ->
  table_after (snd (nfe_conn_alloc ext_conn_alloc st tuple inv)) /\
  match fst (nfe_conn_alloc ext_conn_alloc st tuple inv) with
  | None => True
  | Some c => is_Some (ct_conns (snd (nfe_conn_alloc ext_conn_alloc st tuple inv)) !! c)
  end.
Proof.
  intros ((A & W) & S).
  destruct (conn_alloc_cases tuple_hash ext_conn_alloc alloc_fresh st A tuple inv W)
    as [E|(c & st' & E & Hc & _ & _ & Hm & W' & _)]; rewrite E; cbn [fst snd].
  - split; [|done]. split; [by exists A|done].
  - split; [split; [by exists A|]|].
    + unfold states_ok. rewrite Hm. by apply map_Forall_insert_2.
    + rewrite Hm, lookup_insert_eq. by eexists.
Qed.

(** Two releases after a lookup hit: the second may free the connection. *)
Lemma release_twice_ok st A c k :
  ct_wf tuple_hash st A -> states_ok st -> linked st A c -> ct_conns st !! c = Some k ->
  2 <= c_lockref k < 2 ^ 32 -> exists st1 st2,
  nfe_conn_release st (Some c) = Ok st1 /\ nfe_conn_release st1 (Some c) = Ok st2 /\
  table_after st2.
Proof.
  intros W S Hl Hk Hr. specialize (S c k Hk) as Sk. cbn in Sk.
  pose proof (release_cases tuple_hash st A c k W Hk ltac:(lia)) as R1.
  rewrite (proj2 (Z.eqb_neq _ 1)) in R1 by lia. destruct R1 as [E1 W1].
  set (k1 := set_lockref (c_lockref k - 1) k) in *.
  assert (ct_conns (upd_conn st c k1) !! c = Some k1) as Hk1 by apply lookup_insert_eq.
  pose proof (release_cases tuple_hash _ A c k1 W1 Hk1) as R2.
  assert (states_ok (upd_conn st c k1)) as S1 by (by apply states_upd).
  exists (upd_conn st c k1). destruct (c_lockref k1 =? 1).
  - destruct R2 as (st2 & E2 & Hm & _ & _ & W2); [cbn; lia|]. exists st2.
    split_and!; [done|done|]. split; [by eexists|]. unfold states_ok. rewrite Hm.
    by apply map_Forall_delete.
  - destruct R2 as [E2 W2]; [cbn; lia|]. eexists. split_and!; [done|exact E2|].
    split; [by eexists|]. by apply states_upd.
Qed.

(** The lookup of a quoted packet, whose hash is 0 when it does not parse. *)
Lemma quoted_lookup_ok st q :
  table_ok st -> is_u32 (p_hash q) ->
  wp engine_fault
    ('(conn, st) ← nfe_conntrack_lookup ext_conn_alloc st q NFE_ALLOC_POLICY_NONE;
     match conn with
     | None => Ok st
     | Some c => st ← nfe_conn_release st (Some c); nfe_conn_release st (Some c)
     end) table_after.
Proof.
  intros ((A & W) & Rf & S) Hh. unfold nfe_conntrack_lookup.
  destruct (ct_lookup_any tuple_hash st A (p_tuple q) (p_hash q) W Hh)
    as [->|(c & k & Hl & Hk & _ & ->)]; cbind; [split; [by eexists|done]|].
  destruct (linked_conn tuple_hash st A c W Hl) as (k' & Hk' & _ & Hr).
  replace k' with k in Hr by congruence. specialize (Rf c k Hk). cbn in Rf.
  rewrite u32_id by (unfold is_u32; lia).
  set (k1 := set_lockref (c_lockref k + 1) k).
  destruct (release_twice_ok (upd_conn st c k1) A c k1) as (st1 & st2 & -> & E2 & T2).
  - apply (upd_conn_wf tuple_hash st A c k); [done..|]. cbn. lia.
  - apply states_upd; [done|]. exact (S c k Hk).
  - done.
  - apply lookup_insert_eq.
  - cbn. lia.
  - cbind. by rewrite E2.
Qed.

End Safe.

(** *** The engine *)
Section Engine.
Context `{HostEndian}.
Variable buf : list Z.
Variable cfg : nfe_config.
Variable ext_conn_alloc : gmap conn_id nfe_conn -> nfe_tuple -> option conn_id.

Lemma icmp_unreachable_ok fuel st p :
  buf_ok buf -> 0 <= p_data p -> table_ok nfe_tuple_hash st ->
  wp engine_fault (icmp_unreachable buf ext_conn_alloc fuel st p) (table_after nfe_tuple_hash).
Proof.
  intros Hb H0 T. unfold icmp_unreachable.
  apply wp_bind. eapply wp_mono; [apply wp_rd8; by left|]. intros b _.
  destruct (eth_type_from_ip b =? 0); [exact (table_ok_after _ st T)|].
  pose proof (packet_hash_post buf fuel (packet_init 0 0 0) (eth_type_from_ip b) (p_data p + 8)
    (p_tail p - (p_data p + 8)) (p_timestamp p) Hb ltac:(lia)) as Hpost.
  destruct (nfe_packet_hash _ _ _ _ _ _ _) as [[e [q|]]|f]; cbn [hash_post] in Hpost.
  - cbind. cbn [deref]. cbind. apply (quoted_lookup_ok nfe_tuple_hash); [exact T|].
    destruct Hpost as (_ & _ & _ & _ & _ & Eh & _). rewrite Eh.
    destruct (e =? 0); [apply nfe_tuple_hash_range|unfold is_u32; lia].
  - destruct Hpost.
  - cbn. unfold engine_fault. destruct Hpost as [->| ->]; auto.
Qed.

Hypothesis alloc_fresh : forall m t c, ext_conn_alloc m t = Some c -> m !! c = None.
Hypothesis buf_valid : buf_ok buf.
Hypothesis no_midflow : cfg_tcp_midflow cfg = 0.

Lemma icmp_bypass_ok fuel st p : table_ok nfe_tuple_hash st ->
  wp engine_fault (nfe_icmp_bypass buf ext_conn_alloc fuel st p) (lookup_post nfe_tuple_hash).
Proof.
  intros T. unfold nfe_icmp_bypass.
  destruct (size_t _ <? 8); [by split; [exact (table_ok_after _ st T)|]|].
  apply wp_bind. destruct (rd8 buf (p_data p)) as [type|f] eqn:Et.
  2: { pose proof (wp_rd8 engine_fault buf (p_data p)) as Hf. rewrite Et in Hf. apply Hf.
       by left. }
  cbn [wp]. apply rd8_Ok_inv in Et as [Hd _]. apply wp_bind.
  apply (wp_mono _ _ (table_after nfe_tuple_hash)).
  { destruct (type =? 3); [apply icmp_unreachable_ok; [exact buf_valid|lia|exact T]|].
    exact (table_ok_after _ st T). }
  intros st1 T1.
  pose proof (alloc_ok_after nfe_tuple_hash ext_conn_alloc alloc_fresh st1 (p_tuple p) false T1)
    as [T2 Hc].
  destruct (nfe_conn_alloc _ st1 _ _) as [conn st2]. cbn [fst snd] in *. by split.
Qed.

(** No lookup of a parsed packet breaks the table. *)
Lemma conn_lookup_safe fuel st p :
  table_ok nfe_tuple_hash st -> tuple_ok (p_tuple p) -> p_hash p = nfe_tuple_hash (p_tuple p) ->
  (p_next p = NEXT_LOOKUP_TCP -> is_Some (p_prot p)) ->
  wp engine_fault (nfe_conn_lookup buf cfg ext_conn_alloc fuel st p) (lookup_post nfe_tuple_hash).
Proof.
  intros T Ht Hh Hp. unfold nfe_conn_lookup, nfe_conn_lookup_next.
  pose proof (fun m => wp_weaken (fun _ => False) engine_fault m (lookup_post nfe_tuple_hash)
    (fun f => False_ind (engine_fault f))) as Hno.
  assert (wp engine_fault (Ok (None, p, st)) (lookup_post nfe_tuple_hash)) as Hnone
    by (split; [exact (table_ok_after _ st T)|exact I]).
  pose proof (Hno _ (ether_lookup_ok nfe_tuple_hash ext_conn_alloc alloc_fresh st p T Ht Hh)) as He.
  destruct (negb (p_next p =? 0)); [|exact Hnone].
  destruct (negb (p_type p =? _)); [|exact He].
  destruct (Z.eqb_spec (p_next p) NEXT_LOOKUP_TCP) as [En|_].
  { pose proof (tcp_lookup_ok nfe_tuple_hash ext_conn_alloc alloc_fresh buf cfg (proj1 buf_valid)
      no_midflow st p T Ht Hh (Hp En)) as Htcp.
    revert Htcp. apply wp_weaken. unfold tcp_fault, engine_fault. clear. intros f. tauto. }
  destruct (_ =? NEXT_LOOKUP_UDP); [apply Hno; exact (udp_lookup_ok _ _ alloc_fresh st p T Ht Hh)|].
  destruct (_ =? NEXT_LOOKUP_ICMP); [apply Hno; exact (icmp_lookup_ok _ _ alloc_fresh st p T Ht Hh)|].
  destruct (_ =? NEXT_BYPASS_ICMP); [exact (icmp_bypass_ok fuel st p T)|].
  destruct (_ =? NEXT_BYPASS_ETH); [exact He|exact Hnone].
Qed.

End Engine.

(** A frame through the engine: the caller parses it and, when that succeeds,
    looks up its connection. *)
Definition nfe_engine `{HostEndian} (buf : list Z) (cfg : nfe_config) alloc (fuel : nat)
    (st : conntrack) (len ts : Z) : res (option conn_id * nfe_packet * conntrack) :=
  '(e, p) ← nfe_packet_hash buf fuel (Some (packet_init 0 0 0)) 0 (Some 0) len ts;
  p ← deref p;
  if e =? 0 then nfe_conn_lookup buf cfg alloc fuel st p else Ok (None, p, st).

(** C2: The engine is memory safe on its own data: whatever bytes a captured
    frame holds, with mid-flow pickup off (the default), parsing it and looking up
    its connection on a well-formed table leaves a well-formed table and returns no dangling connection; it never fails
    an assertion and never uses a freed connection or list node (the faults left
    are reads past the capture, the SYN-and-RST index and the parser's loop). *)
Theorem nfe_engine_safe `{HostEndian} buf cfg alloc fuel st len ts :
  (forall m t c, alloc m t = Some c -> m !! c = None) ->
  buf_ok buf -> cfg_tcp_midflow cfg = 0 -> table_ok nfe_tuple_hash st ->
  wp engine_fault (nfe_engine buf cfg alloc fuel st len ts) (lookup_post nfe_tuple_hash).
Proof.
  intros Ha Hb Hm T. unfold nfe_engine.
  pose proof (packet_hash_post buf fuel (packet_init 0 0 0) 0 0 len ts Hb ltac:(lia)) as Hpost.
  destruct (nfe_packet_hash _ _ _ _ _ _ _) as [[e [q|]]|f]; cbn [hash_post] in Hpost.
  - cbind. cbn [deref]. cbind. destruct Hpost as (_ & Ht & _ & _ & _ & Eh & Hn).
    destruct (Z.eqb_spec e 0) as [->|Hne].
    + apply conn_lookup_safe; [exact Ha|exact Hb|exact Hm|exact T|exact Ht|exact Eh|].
      intros En. apply Hn; [exact eq_refl|]. rewrite En. apply elem_of_cons. left. reflexivity.
    + split; [exact (table_ok_after _ st T)|exact I].
  - destruct Hpost.
  - cbn. unfold engine_fault. destruct Hpost as [->| ->]; auto.
Qed.

(** ** Samples and findings *)
#[local] Existing Instance little_endian.

Lemma created_table_ok cfg size st :
  1 <= size <= 2 ^ 30 -> nfe_conntrack_create cfg false true size = (0, Some st) ->
  table_ok nfe_tuple_hash st.
Proof.
  intros Hs E. destruct (create_wf nfe_tuple_hash cfg size Hs) as (st' & E' & W & _ & Hm & _).
  rewrite E in E'. injection E' as <-. split; [by eexists|].
  unfold refs_bounded, states_ok. rewrite Hm. split; apply map_Forall_empty.
Qed.

Definition table8 : conntrack :=
  match snd (nfe_conntrack_create nfe_config_default false true 8) with
  | Some st => st
  | None => mk_ct 0 [] ∅ ∅
  end.

Lemma table8_ok : table_ok nfe_tuple_hash table8.
Proof. apply (created_table_ok nfe_config_default 8); [lia|reflexivity]. Qed.

Lemma nfe_engine_safe_witness :
  wp engine_fault (nfe_engine sample_udp nfe_config_default alloc_ok 5 table8 45 7)
    (lookup_post nfe_tuple_hash).
Proof.
  apply (nfe_engine_safe sample_udp nfe_config_default alloc_ok 5 table8 45 7).
  - exact alloc_ok_fresh.
  - split; [|cbn; lia]. apply (bool_decide_unpack _). vm_compute. exact I.
  - reflexivity.
  - exact table8_ok.
Defined.

(** A TCP segment over IPv4 and Ethernet with the given flags. *)
Definition sample_tcp (flags : Z) : list Z :=
  sample_macs ++ [8; 0] ++
  [0x45; 0; 0; 40; 0; 0; 0; 0; 64; 6; 0; 0; 10; 0; 0; 1; 10; 0; 0; 2] ++
  [0xc0; 1; 0; 80; 0; 0; 0; 9; 0; 0; 0; 0; 0x50; flags; 1; 0; 0; 0; 0; 0].

(** With mid-flow pickup enabled, a RST that opens a connection is a use
    after free: the tracker releases the only reference of the connection it has
    just made, and [nfe_tcp_lookup] then reads it. *)
Theorem midflow_rst_use_after_free :
  nfe_engine (sample_tcp 4) (mk_config 1 60 3600 180 30 30) alloc_ok 5 table8 54 7 =
  Err FDangling.
Proof. vm_compute. reflexivity. Qed.

(** The same frame with mid-flow pickup disabled finds no connection, and a SYN
    opens one. *)
Example midflow_off_rst :
  match nfe_engine (sample_tcp 4) nfe_config_default alloc_ok 5 table8 54 7 with
  | Ok (None, _, st) => bool_decide (ct_conns st = ∅)
  | _ => false
  end = true.
Proof. vm_compute. reflexivity. Qed.

Example syn_opens :
  match nfe_engine (sample_tcp 2) nfe_config_default alloc_ok 5 table8 54 7 with
  | Ok (Some c, _, st) => match ct_conns st !! c with
                          | Some k => (c_lockref k =? 1) && (tcp_state (c_tcp k) =? TCP_CONNECTING)
                          | None => false
                          end
  | _ => false
  end = true.
Proof. vm_compute. reflexivity. Qed.

(** A connection made by the ICMP or Ethernet bypass cannot be released:
    it has no reference, so the [nfe_conn_release] that the interface asks the
    caller for fails its assertion. *)
Theorem bypass_release_asserts alloc st tuple invert c st' :
  nfe_conn_alloc alloc st tuple invert = (Some c, st') ->
  nfe_conn_release st' (Some c) = Err FAssert.
Proof.
  unfold nfe_conn_alloc. destruct (alloc _ _) as [d|]; [|done]. intros [= -> <-].
  unfold nfe_conn_release, get_conn. cbn [set_conns set_links ct_conns].
  by rewrite lookup_insert_eq.
Qed.

Lemma bypass_release_asserts_witness :
  nfe_conn_release (snd (nfe_conn_alloc alloc_ok table8 tuple_zero false)) (Some 1%positive) =
  Err FAssert.
Proof. apply (bypass_release_asserts alloc_ok table8 tuple_zero false). reflexivity. Defined.

(** A new connection does not survive its first user: the creating
    lookup leaves one reference, so the caller's release (asked for by the
    interface) unlinks and frees the connection of the flow just seen. *)
Theorem new_conn_release_frees alloc st A tuple policy c st' A' :
  ct_wf nfe_tuple_hash st A -> ct_wf nfe_tuple_hash st' A' -> ct_conns st !! c = None ->
  lookup_outcome alloc st A tuple policy (Some c) st' A' ->
  exists st2, nfe_conn_release st' (Some c) = Ok st2 /\ ct_conns st2 = ct_conns st.
Proof.
  intros W W' Hc Ho. inversion Ho as [c' k Hl Hk|?|c' st1 i Hno Hp Hf Hs Hx Hi Hm]; subst;
    [congruence|].
  assert (ct_conns st' !! c = Some (mk_conn
    (new_tuple tuple (policy =? NFE_ALLOC_POLICY_INVERT)) tcp_zero 1 0 0)) as Hk
    by (rewrite Hm; apply lookup_insert_eq).
  pose proof (release_cases nfe_tuple_hash st' _ c _ W' Hk ltac:(cbn; lia)) as Hr.
  cbn [c_lockref Z.eqb Pos.eqb] in Hr. destruct Hr as (st2 & E & Hm2 & _).
  exists st2. split; [exact E|]. rewrite Hm2, Hm. by apply delete_insert_id.
Qed.

Lemma new_conn_release_frees_witness : exists st' c st2,
  nfe_conn_release st' (Some c) = Ok st2 /\ ct_conns st2 = ct_conns table8.
Proof.
  destruct table8_ok as [[A W] [Hr _]].
  destruct (lookup_cases nfe_tuple_hash alloc_ok alloc_ok_fresh table8 A sample_packet
    NFE_ALLOC_POLICY_CREATE W sample_tuple_ok eq_refl Hr) as ([c|] & st' & A' & E & W' & Ho).
  - exists st', c.
    apply (new_conn_release_frees alloc_ok table8 A sample_tuple NFE_ALLOC_POLICY_CREATE c st' A');
      [exact W|exact W'|reflexivity|exact Ho].
  - exfalso. inversion Ho as [|? [?|?]|]; discriminate.
Defined.
