(* ===== verification/CString.v ===== *)
(** * CString: the C string functions the policy code uses

    C strings are [string]s (the characters before the terminating NUL).  Models
    [strncmp] as far as its callers use it (equal or not), pointer arithmetic
    into a string, [strtok_r] with the delimiter ["."], [strtol] in base 10 and
    the [strscpy] of [lib/common/src/util.c]. *)
From S2P Require Import Prelude.
From stdpp Require Export strings.
From Stdlib Require Import Ascii.
Open Scope Z_scope.

(** The characters of a string, as bytes. *)
Definition str_bytes (s : string) : list Z := (fun c => Z.of_nat (Ascii.nat_of_ascii c)) <$> String.list_ascii_of_string s.

(** [strncmp(a, b, n) == 0] *)
Fixpoint strncmp_eq (a b : string) (n : nat) : bool :=
  match n with
  | O => true
  | S n' =>
      match a, b with
      | EmptyString, EmptyString => true
      | String x a', String y b' => Ascii.eqb x y && strncmp_eq a' b' n'
      | _, _ => false
      end
  end.

(** [s + n], for [n] at most the length of [s]. *)
Fixpoint str_drop (n : nat) (s : string) : string :=
  match n, s with
  | S n', String _ s' => str_drop n' s'
  | _, _ => s
  end.

Fixpoint str_take (n : nat) (s : string) : string :=
  match n, s with
  | S n', String c s' => String c (str_take n' s')
  | _, _ => EmptyString
  end.

(** [strscpy(dest, src, size)]: the string left in [dest]. *)
Definition strscpy (src : string) (size : nat) : string := str_take (size - 1) src.

(** ** [strtok_r(s, ".", &save)] *)
Definition is_dot (c : ascii) : bool := Ascii.eqb c "."%char.

Fixpoint skip_dots (s : string) : string :=
  match s with
  | String c s' => if is_dot c then skip_dots s' else s
  | EmptyString => EmptyString
  end.

(** The token at the start of [s] and what follows its delimiter. *)
Fixpoint take_token (s : string) : string * string :=
  match s with
  | EmptyString => (EmptyString, EmptyString)
  | String c s' =>
      if is_dot c then (EmptyString, s')
      else let '(t, r) := take_token s' in (String c t, r)
  end.

Definition strtok_dot (s : string) : option (string * string) :=
  match skip_dots s with
  | EmptyString => None
  | s' => Some (take_token s')
  end.

(** All the tokens of a string, in order. *)
Fixpoint tokens_fuel (n : nat) (s : string) : list string :=
  match n with
  | O => []
  | S n' => match strtok_dot s with None => [] | Some (t, r) => t :: tokens_fuel n' r end
  end.
Definition tokens (s : string) : list string := tokens_fuel (S (String.length s)) s.

(** ** [strtol(s, NULL, 10)]: the value and whether [errno] is set *)
Definition is_space (c : ascii) : bool :=
  let n := nat_of_ascii c in (n =? 32)%nat || ((9 <=? n)%nat && (n <=? 13)%nat).
Definition digit_val (c : ascii) : option Z :=
  let n := Z.of_nat (nat_of_ascii c) in
  if (48 <=? n) && (n <=? 57) then Some (n - 48) else None.

Fixpoint skip_spaces (s : string) : string :=
  match s with
  | String c s' => if is_space c then skip_spaces s' else s
  | EmptyString => EmptyString
  end.

Fixpoint digits_val (acc : Z) (s : string) : Z :=
  match s with
  | String c s' => match digit_val c with Some d => digits_val (acc * 10 + d) s' | None => acc end
  | EmptyString => acc
  end.

Definition strtol (s : string) : Z * bool :=
  let '(neg, s) :=
    match skip_spaces s with
    | String "-"%char s' => (true, s')
    | String "+"%char s' => (false, s')
    | s' => (false, s')
    end in
  let v := digits_val 0 s in
  if neg then if v <=? 2 ^ 63 then (- v, false) else (- 2 ^ 63, true)
  else if v <? 2 ^ 63 then (v, false) else (2 ^ 63 - 1, true).

(** ** Printing a MAC address: [PRI_os_macaddr_lower_t] *)
Definition hex_digit (n : Z) : ascii :=
  ascii_of_nat (Z.to_nat (if n <? 10 then 48 + n else 87 + n)).
Definition hex_byte (b : Z) : string :=
  String (hex_digit (b / 16)) (String (hex_digit (b mod 16)) EmptyString).
Definition mac_lower (mac : list Z) : string :=
  match map hex_byte mac with
  | [] => EmptyString
  | b :: bs => foldl (fun s x => (s +:+ String ":"%char x)%string) b bs
  end.

(** ** Lemmas *)
Lemma strncmp_prefix a b :
  strncmp_eq a b (String.length b) = true <-> String.prefix b a = true.
Proof.
  revert a. induction b as [|y b IH]; intros a; [by destruct a|]. cbn.
  destruct a as [|x a]; [done|]. cbn. rewrite andb_true_iff, IH.
  destruct (Ascii.eqb_spec x y), (ascii_dec y x); naive_solver.
Qed.

Lemma str_drop_length n s : String.length (str_drop n s) = (String.length s - n)%nat.
Proof. revert s. induction n as [|n IH]; intros [|c s]; cbn; first [done | apply IH]. Qed.

Lemma str_take_drop n s : (str_take n s +:+ str_drop n s)%string = s.
Proof.
  revert s. induction n as [|n IH]; intros [|c s]; try done. exact (f_equal (String c) (IH s)).
Qed.

Lemma str_length_app a b : String.length (a +:+ b) = (String.length a + String.length b)%nat.
Proof. induction a as [|c a IH]; [done|]. exact (f_equal S IH). Qed.

Lemma prefix_same_length a b :
  String.length a = String.length b -> String.prefix b a = true -> a = b.
Proof.
  revert a. induction b as [|y b IH]; intros [|x a]; cbn; try done.
  intros [= Hl]. destruct (ascii_dec y x) as [->|]; [|done]. intros Hp. by rewrite (IH a).
Qed.

Lemma prefix_refl s : String.prefix s s = true.
Proof. induction s as [|c s IH]; cbn; [done|]. by destruct (ascii_dec c c). Qed.

Lemma skip_dots_le s : (String.length (skip_dots s) <= String.length s)%nat.
Proof. induction s as [|c s IH]; cbn; [done|]. destruct (is_dot c); cbn; lia. Qed.

Lemma take_token_le s : (String.length (take_token s).2 <= String.length s)%nat.
Proof.
  induction s as [|c s IH]; cbn; [done|]. destruct (is_dot c); cbn; [lia|].
  destruct (take_token s); cbn in *. lia.
Qed.

Lemma strtok_shorter s t r :
  strtok_dot s = Some (t, r) -> (String.length r < String.length s)%nat.
Proof.
  unfold strtok_dot. pose proof (skip_dots_le s) as Hs.
  destruct (skip_dots s) as [|c s'] eqn:E; [done|]. intros [= Ht].
  cbn in Ht. destruct (is_dot c) eqn:Ec.
  - exfalso. clear -E Ec. revert E. induction s as [|d s IH]; cbn; [done|].
    destruct (is_dot d) eqn:Ed; [done|]. intros [= -> _]. congruence.
  - pose proof (take_token_le s') as Hl. destruct (take_token s') as [u v]. cbn in *.
    injection Ht as _ <-. lia.
Qed.

Lemma tokens_fuel_enough n m s :
  (String.length s < n)%nat -> (String.length s < m)%nat -> tokens_fuel n s = tokens_fuel m s.
Proof.
  revert m s. induction n as [|n IH]; intros m s Hn Hm; [lia|].
  destruct m as [|m]; [lia|]. cbn. destruct (strtok_dot s) as [[t r]|] eqn:E; [|done].
  apply strtok_shorter in E. f_equal. apply IH; lia.
Qed.

Lemma tokens_unfold s :
  tokens s = match strtok_dot s with None => [] | Some (t, r) => t :: tokens r end.
Proof.
  unfold tokens at 1. cbn [tokens_fuel]. destruct (strtok_dot s) as [[t r]|] eqn:E; [|done].
  apply strtok_shorter in E. f_equal. apply tokens_fuel_enough; lia.
Qed.
