(* ===== verification/FsmTypes.v ===== *)
(** * FsmTypes: data of the FSM policy engine

    The constants and structures of [lib/fsm_policy/inc/fsm_policy.h] (and the
    service identifiers of [lib/dns_cache/inc/dns_cache.h]) that the policy code
    uses, with one update function per field it writes. *)
From S2P Require Import Prelude CString.

(** ** Constants of [fsm_policy.h] *)
Definition FSM_ACTION_NONE := 0.
Definition FSM_BLOCK := 1.
Definition FSM_ALLOW := 2.
Definition FSM_OBSERVED := 3.
Definition FSM_NO_MATCH := 4.
Definition FSM_REDIRECT := 5.
Definition FSM_REDIRECT_ALLOW := 6.
Definition FSM_FORWARD := 7.
Definition FSM_UPDATE_TAG := 8.
Definition FSM_GATEKEEPER_REQ := 9.
Definition FSM_FLUSH_CACHE := 10.
Definition FSM_FLUSH_ALL_CACHE := 11.
Definition FSM_NOANSWER := 12.
Definition FSM_NUM_ACTIONS := 13.

Definition FSM_REPORT_NONE := 0.
Definition FSM_REPORT_BLOCKED := 1.
Definition FSM_REPORT_ALL := 2.

Definition FSM_FQDN_CAT_NOP := 0.
Definition FSM_FQDN_CAT_FAILED := 1.
Definition FSM_FQDN_CAT_PENDING := 2.
Definition FSM_FQDN_CAT_SUCCESS := 3.

Definition FSM_FQDN_OP_XM := 0.
Definition FSM_FQDN_OP_SFR := 1.
Definition FSM_FQDN_OP_SFL := 2.
Definition FSM_FQDN_OP_WILD := 3.

Definition IPv4_REDIRECT := 0.
Definition IPv6_REDIRECT := 1.
Definition FQDN_REDIRECT := 2.

Definition MAC_OP_OUT := 0.
Definition MAC_OP_IN := 1.

Definition FQDN_OP_IN := 0.
Definition FQDN_OP_SFR_IN := 1.
Definition FQDN_OP_SFL_IN := 2.
Definition FQDN_OP_WILD_IN := 3.
Definition FQDN_OP_OUT := 4.
Definition FQDN_OP_SFR_OUT := 5.
Definition FQDN_OP_SFL_OUT := 6.
Definition FQDN_OP_WILD_OUT := 7.

Definition CAT_OP_OUT := 0.
Definition CAT_OP_IN := 1.

Definition APP_OP_OUT := 0.
Definition APP_OP_IN := 1.

Definition RISK_OP_EQ := 0.
Definition RISK_OP_NEQ := 1.
Definition RISK_OP_GT := 2.
Definition RISK_OP_LT := 3.
Definition RISK_OP_GTE := 4.
Definition RISK_OP_LTE := 5.

Definition IP_OP_OUT := 0.
Definition IP_OP_IN := 1.

Definition FSM_INLINE_REPLY := 0.
Definition FSM_ASYNC_REPLY := 1.

Definition IP2ACTION_BC_SVC := 0.
Definition IP2ACTION_GK_SVC := 1.

Definition FSM_IPV4_REQ := 4.
Definition FSM_IPV6_REQ := 5.
Definition FSM_MAX_POLICIES := 60.
Definition URL_REPORT_MAX_ELEMS := 8.
Definition MAX_DOTS := 10%nat.

(** ** Data *)

(** [struct fsm_policy_rules]; a set is NULL or the list of its elements. *)
Record fsm_policy_rules := mk_rules {
  mac_rule_present : bool;
  mac_op : Z;
  macs : option (list string);
  fqdn_rule_present : bool;
  fqdn_op : Z;
  fqdns : option (list string);
  cat_rule_present : bool;
  cat_op : Z;
  categories : option (list Z);
  risk_rule_present : bool;
  risk_op : Z;
  risk_level : Z;
  ip_rule_present : bool;
  ip_op : Z;
  ipaddrs : option (list string);
  app_rule_present : bool;
  app_op : Z;
  apps : option (list string)
}.

(** [struct fsm_policy]; the table pointer is the name of the table. *)
Record fsm_policy := mk_policy {
  p_table_name : string;
  p_idx : Z;
  p_rule_name : string;
  p_rules : fsm_policy_rules;
  p_redirects : option (list string);
  p_next_tree : option (gmap string Z);
  p_other_config : option (gmap string string);
  p_action : Z;
  p_report_type : Z;
  p_jump_table : bool;
  p_next_table : option string;
  p_next_table_index : Z;
  p_lookup_prev : Z;
  p_lookup_next : Z
}.

(** [struct fsm_url_reply]; the members of the union, which the code selects by
    [service_id], side by side. *)
Record fsm_url_reply := mk_url_reply {
  ur_service_id : Z;
  ur_lookup_status : Z;
  ur_connection_error : bool;
  ur_error : Z;
  ur_nelems : Z;
  ur_categories : list Z;
  ur_bc_confidence : list Z;
  ur_bc_reputation : Z;
  ur_gk_confidence : Z;
  ur_gk_category : Z;
  ur_gk_policy : option string
}.

(** [req_info] of a pending request and its [reply] *)
Record fsm_url_request := mk_url_request { ui_reply : option fsm_url_reply }.
Record fqdn_pending_req := mk_pending { pr_req_info : option fsm_url_request }.

(** The flow accumulator: the IP version of its key, and the direction. *)
Record net_acc := mk_acc { acc_key : option Z; acc_direction : Z }.

(** [struct fsm_policy_req] *)
Record fsm_policy_req := mk_req {
  rq_device_id : option (list Z);
  rq_req_type : Z;
  rq_url : option string;
  rq_ip_addr : list Z;
  rq_acc : option net_acc;
  rq_fqdn_req : option fqdn_pending_req;
  rq_policy : option fsm_policy;
  rq_rule_name : option string;
  rq_action : Z;
  rq_policy_index : Z;
  rq_report : bool;
  rq_supported_features : Z
}.

(** The fields of [struct fsm_policy_reply] that the policy code writes or reads. *)
Record fsm_policy_reply := mk_reply {
  rp_cat_match : Z;
  rp_reply_type : Z;
  rp_action : Z;
  rp_log_action : option string;
  rp_rd_ttl : Z;
  rp_cache_ttl : Z;
  rp_categorized : Z;
  rp_log : Z;
  rp_policy : option string;
  rp_policy_idx : Z;
  rp_rule_name : option string;
  rp_updatev4_tag : option string;
  rp_updatev6_tag : option string;
  rp_excluded_devices : option string;
  rp_redirect : bool;
  rp_redirects : list string;
  rp_risk_level : Z;
  rp_fsm_checked : bool;
  rp_from_cache : bool;
  rp_cat_unknown : bool;
  rp_to_report : bool
}.

Definition with_rq_fqdn_req v r := mk_req (rq_device_id r) (rq_req_type r) (rq_url r) (rq_ip_addr
  r) (rq_acc r) v (rq_policy r) (rq_rule_name r) (rq_action r) (rq_policy_index r) (rq_report r)
  (rq_supported_features r).
Definition with_rq_policy v r := mk_req (rq_device_id r) (rq_req_type r) (rq_url r) (rq_ip_addr r)
  (rq_acc r) (rq_fqdn_req r) v (rq_rule_name r) (rq_action r) (rq_policy_index r) (rq_report r)
  (rq_supported_features r).
Definition with_rq_rule_name v r := mk_req (rq_device_id r) (rq_req_type r) (rq_url r) (rq_ip_addr
  r) (rq_acc r) (rq_fqdn_req r) (rq_policy r) v (rq_action r) (rq_policy_index r) (rq_report r)
  (rq_supported_features r).
Definition with_rq_action v r := mk_req (rq_device_id r) (rq_req_type r) (rq_url r) (rq_ip_addr r)
  (rq_acc r) (rq_fqdn_req r) (rq_policy r) (rq_rule_name r) v (rq_policy_index r) (rq_report r)
  (rq_supported_features r).
Definition with_rq_policy_index v r := mk_req (rq_device_id r) (rq_req_type r) (rq_url r)
  (rq_ip_addr r) (rq_acc r) (rq_fqdn_req r) (rq_policy r) (rq_rule_name r) (rq_action r) v
  (rq_report r) (rq_supported_features r).
Definition with_rq_report v r := mk_req (rq_device_id r) (rq_req_type r) (rq_url r) (rq_ip_addr r)
  (rq_acc r) (rq_fqdn_req r) (rq_policy r) (rq_rule_name r) (rq_action r) (rq_policy_index r) v
  (rq_supported_features r).
Definition with_rq_supported_features v r := mk_req (rq_device_id r) (rq_req_type r) (rq_url r)
  (rq_ip_addr r) (rq_acc r) (rq_fqdn_req r) (rq_policy r) (rq_rule_name r) (rq_action r)
  (rq_policy_index r) (rq_report r) v.

Definition with_rp_cat_match v r := mk_reply v (rp_reply_type r) (rp_action r) (rp_log_action r)
  (rp_rd_ttl r) (rp_cache_ttl r) (rp_categorized r) (rp_log r) (rp_policy r) (rp_policy_idx r)
  (rp_rule_name r) (rp_updatev4_tag r) (rp_updatev6_tag r) (rp_excluded_devices r) (rp_redirect r)
  (rp_redirects r) (rp_risk_level r) (rp_fsm_checked r) (rp_from_cache r) (rp_cat_unknown r)
  (rp_to_report r).
Definition with_rp_action v r := mk_reply (rp_cat_match r) (rp_reply_type r) v (rp_log_action r)
  (rp_rd_ttl r) (rp_cache_ttl r) (rp_categorized r) (rp_log r) (rp_policy r) (rp_policy_idx r)
  (rp_rule_name r) (rp_updatev4_tag r) (rp_updatev6_tag r) (rp_excluded_devices r) (rp_redirect r)
  (rp_redirects r) (rp_risk_level r) (rp_fsm_checked r) (rp_from_cache r) (rp_cat_unknown r)
  (rp_to_report r).
Definition with_rp_log_action v r := mk_reply (rp_cat_match r) (rp_reply_type r) (rp_action r) v
  (rp_rd_ttl r) (rp_cache_ttl r) (rp_categorized r) (rp_log r) (rp_policy r) (rp_policy_idx r)
  (rp_rule_name r) (rp_updatev4_tag r) (rp_updatev6_tag r) (rp_excluded_devices r) (rp_redirect r)
  (rp_redirects r) (rp_risk_level r) (rp_fsm_checked r) (rp_from_cache r) (rp_cat_unknown r)
  (rp_to_report r).
Definition with_rp_rd_ttl v r := mk_reply (rp_cat_match r) (rp_reply_type r) (rp_action r)
  (rp_log_action r) v (rp_cache_ttl r) (rp_categorized r) (rp_log r) (rp_policy r) (rp_policy_idx
  r) (rp_rule_name r) (rp_updatev4_tag r) (rp_updatev6_tag r) (rp_excluded_devices r) (rp_redirect
  r) (rp_redirects r) (rp_risk_level r) (rp_fsm_checked r) (rp_from_cache r) (rp_cat_unknown r)
  (rp_to_report r).
Definition with_rp_categorized v r := mk_reply (rp_cat_match r) (rp_reply_type r) (rp_action r)
  (rp_log_action r) (rp_rd_ttl r) (rp_cache_ttl r) v (rp_log r) (rp_policy r) (rp_policy_idx r)
  (rp_rule_name r) (rp_updatev4_tag r) (rp_updatev6_tag r) (rp_excluded_devices r) (rp_redirect r)
  (rp_redirects r) (rp_risk_level r) (rp_fsm_checked r) (rp_from_cache r) (rp_cat_unknown r)
  (rp_to_report r).
Definition with_rp_log v r := mk_reply (rp_cat_match r) (rp_reply_type r) (rp_action r)
  (rp_log_action r) (rp_rd_ttl r) (rp_cache_ttl r) (rp_categorized r) v (rp_policy r)
  (rp_policy_idx r) (rp_rule_name r) (rp_updatev4_tag r) (rp_updatev6_tag r) (rp_excluded_devices
  r) (rp_redirect r) (rp_redirects r) (rp_risk_level r) (rp_fsm_checked r) (rp_from_cache r)
  (rp_cat_unknown r) (rp_to_report r).
Definition with_rp_policy v r := mk_reply (rp_cat_match r) (rp_reply_type r) (rp_action r)
  (rp_log_action r) (rp_rd_ttl r) (rp_cache_ttl r) (rp_categorized r) (rp_log r) v (rp_policy_idx
  r) (rp_rule_name r) (rp_updatev4_tag r) (rp_updatev6_tag r) (rp_excluded_devices r) (rp_redirect
  r) (rp_redirects r) (rp_risk_level r) (rp_fsm_checked r) (rp_from_cache r) (rp_cat_unknown r)
  (rp_to_report r).
Definition with_rp_policy_idx v r := mk_reply (rp_cat_match r) (rp_reply_type r) (rp_action r)
  (rp_log_action r) (rp_rd_ttl r) (rp_cache_ttl r) (rp_categorized r) (rp_log r) (rp_policy r) v
  (rp_rule_name r) (rp_updatev4_tag r) (rp_updatev6_tag r) (rp_excluded_devices r) (rp_redirect r)
  (rp_redirects r) (rp_risk_level r) (rp_fsm_checked r) (rp_from_cache r) (rp_cat_unknown r)
  (rp_to_report r).
Definition with_rp_rule_name v r := mk_reply (rp_cat_match r) (rp_reply_type r) (rp_action r)
  (rp_log_action r) (rp_rd_ttl r) (rp_cache_ttl r) (rp_categorized r) (rp_log r) (rp_policy r)
  (rp_policy_idx r) v (rp_updatev4_tag r) (rp_updatev6_tag r) (rp_excluded_devices r) (rp_redirect
  r) (rp_redirects r) (rp_risk_level r) (rp_fsm_checked r) (rp_from_cache r) (rp_cat_unknown r)
  (rp_to_report r).
Definition with_rp_updatev4_tag v r := mk_reply (rp_cat_match r) (rp_reply_type r) (rp_action r)
  (rp_log_action r) (rp_rd_ttl r) (rp_cache_ttl r) (rp_categorized r) (rp_log r) (rp_policy r)
  (rp_policy_idx r) (rp_rule_name r) v (rp_updatev6_tag r) (rp_excluded_devices r) (rp_redirect r)
  (rp_redirects r) (rp_risk_level r) (rp_fsm_checked r) (rp_from_cache r) (rp_cat_unknown r)
  (rp_to_report r).
Definition with_rp_updatev6_tag v r := mk_reply (rp_cat_match r) (rp_reply_type r) (rp_action r)
  (rp_log_action r) (rp_rd_ttl r) (rp_cache_ttl r) (rp_categorized r) (rp_log r) (rp_policy r)
  (rp_policy_idx r) (rp_rule_name r) (rp_updatev4_tag r) v (rp_excluded_devices r) (rp_redirect r)
  (rp_redirects r) (rp_risk_level r) (rp_fsm_checked r) (rp_from_cache r) (rp_cat_unknown r)
  (rp_to_report r).
Definition with_rp_excluded_devices v r := mk_reply (rp_cat_match r) (rp_reply_type r) (rp_action
  r) (rp_log_action r) (rp_rd_ttl r) (rp_cache_ttl r) (rp_categorized r) (rp_log r) (rp_policy r)
  (rp_policy_idx r) (rp_rule_name r) (rp_updatev4_tag r) (rp_updatev6_tag r) v (rp_redirect r)
  (rp_redirects r) (rp_risk_level r) (rp_fsm_checked r) (rp_from_cache r) (rp_cat_unknown r)
  (rp_to_report r).
Definition with_rp_redirect v r := mk_reply (rp_cat_match r) (rp_reply_type r) (rp_action r)
  (rp_log_action r) (rp_rd_ttl r) (rp_cache_ttl r) (rp_categorized r) (rp_log r) (rp_policy r)
  (rp_policy_idx r) (rp_rule_name r) (rp_updatev4_tag r) (rp_updatev6_tag r) (rp_excluded_devices
  r) v (rp_redirects r) (rp_risk_level r) (rp_fsm_checked r) (rp_from_cache r) (rp_cat_unknown r)
  (rp_to_report r).
Definition with_rp_redirects v r := mk_reply (rp_cat_match r) (rp_reply_type r) (rp_action r)
  (rp_log_action r) (rp_rd_ttl r) (rp_cache_ttl r) (rp_categorized r) (rp_log r) (rp_policy r)
  (rp_policy_idx r) (rp_rule_name r) (rp_updatev4_tag r) (rp_updatev6_tag r) (rp_excluded_devices
  r) (rp_redirect r) v (rp_risk_level r) (rp_fsm_checked r) (rp_from_cache r) (rp_cat_unknown r)
  (rp_to_report r).
Definition with_rp_from_cache v r := mk_reply (rp_cat_match r) (rp_reply_type r) (rp_action r)
  (rp_log_action r) (rp_rd_ttl r) (rp_cache_ttl r) (rp_categorized r) (rp_log r) (rp_policy r)
  (rp_policy_idx r) (rp_rule_name r) (rp_updatev4_tag r) (rp_updatev6_tag r) (rp_excluded_devices
  r) (rp_redirect r) (rp_redirects r) (rp_risk_level r) (rp_fsm_checked r) v (rp_cat_unknown r)
  (rp_to_report r).
Definition with_rp_cat_unknown v r := mk_reply (rp_cat_match r) (rp_reply_type r) (rp_action r)
  (rp_log_action r) (rp_rd_ttl r) (rp_cache_ttl r) (rp_categorized r) (rp_log r) (rp_policy r)
  (rp_policy_idx r) (rp_rule_name r) (rp_updatev4_tag r) (rp_updatev6_tag r) (rp_excluded_devices
  r) (rp_redirect r) (rp_redirects r) (rp_risk_level r) (rp_fsm_checked r) (rp_from_cache r) v
  (rp_to_report r).

(** One update function per rule: presence, operation, set. *)
Definition with_mac_rule a b c r := mk_rules a b c (fqdn_rule_present r) (fqdn_op r) (fqdns r)
  (cat_rule_present r) (cat_op r) (categories r) (risk_rule_present r) (risk_op r) (risk_level r)
  (ip_rule_present r) (ip_op r) (ipaddrs r) (app_rule_present r) (app_op r) (apps r).
Definition with_fqdn_rule a b c r := mk_rules (mac_rule_present r) (mac_op r) (macs r) a b c
  (cat_rule_present r) (cat_op r) (categories r) (risk_rule_present r) (risk_op r) (risk_level r)
  (ip_rule_present r) (ip_op r) (ipaddrs r) (app_rule_present r) (app_op r) (apps r).
Definition with_cat_rule a b c r := mk_rules (mac_rule_present r) (mac_op r) (macs r)
  (fqdn_rule_present r) (fqdn_op r) (fqdns r) a b c (risk_rule_present r) (risk_op r) (risk_level
  r) (ip_rule_present r) (ip_op r) (ipaddrs r) (app_rule_present r) (app_op r) (apps r).
Definition with_risk_rule a b c r := mk_rules (mac_rule_present r) (mac_op r) (macs r)
  (fqdn_rule_present r) (fqdn_op r) (fqdns r) (cat_rule_present r) (cat_op r) (categories r) a b c
  (ip_rule_present r) (ip_op r) (ipaddrs r) (app_rule_present r) (app_op r) (apps r).
Definition with_ip_rule a b c r := mk_rules (mac_rule_present r) (mac_op r) (macs r)
  (fqdn_rule_present r) (fqdn_op r) (fqdns r) (cat_rule_present r) (cat_op r) (categories r)
  (risk_rule_present r) (risk_op r) (risk_level r) a b c (app_rule_present r) (app_op r) (apps r).
Definition with_app_rule a b c r := mk_rules (mac_rule_present r) (mac_op r) (macs r)
  (fqdn_rule_present r) (fqdn_op r) (fqdns r) (cat_rule_present r) (cat_op r) (categories r)
  (risk_rule_present r) (risk_op r) (risk_level r) (ip_rule_present r) (ip_op r) (ipaddrs r) a b
  c.

Definition with_p_rules v r := mk_policy (p_table_name r) (p_idx r) (p_rule_name r) v (p_redirects
  r) (p_next_tree r) (p_other_config r) (p_action r) (p_report_type r) (p_jump_table r)
  (p_next_table r) (p_next_table_index r) (p_lookup_prev r) (p_lookup_next r).
Definition with_p_redirects v r := mk_policy (p_table_name r) (p_idx r) (p_rule_name r) (p_rules
  r) v (p_next_tree r) (p_other_config r) (p_action r) (p_report_type r) (p_jump_table r)
  (p_next_table r) (p_next_table_index r) (p_lookup_prev r) (p_lookup_next r).
Definition with_p_next_tree v r := mk_policy (p_table_name r) (p_idx r) (p_rule_name r) (p_rules
  r) (p_redirects r) v (p_other_config r) (p_action r) (p_report_type r) (p_jump_table r)
  (p_next_table r) (p_next_table_index r) (p_lookup_prev r) (p_lookup_next r).
Definition with_p_other_config v r := mk_policy (p_table_name r) (p_idx r) (p_rule_name r)
  (p_rules r) (p_redirects r) (p_next_tree r) v (p_action r) (p_report_type r) (p_jump_table r)
  (p_next_table r) (p_next_table_index r) (p_lookup_prev r) (p_lookup_next r).
Definition with_p_action v r := mk_policy (p_table_name r) (p_idx r) (p_rule_name r) (p_rules r)
  (p_redirects r) (p_next_tree r) (p_other_config r) v (p_report_type r) (p_jump_table r)
  (p_next_table r) (p_next_table_index r) (p_lookup_prev r) (p_lookup_next r).
Definition with_p_report_type v r := mk_policy (p_table_name r) (p_idx r) (p_rule_name r) (p_rules
  r) (p_redirects r) (p_next_tree r) (p_other_config r) (p_action r) v (p_jump_table r)
  (p_next_table r) (p_next_table_index r) (p_lookup_prev r) (p_lookup_next r).
Definition with_p_jump_table v r := mk_policy (p_table_name r) (p_idx r) (p_rule_name r) (p_rules
  r) (p_redirects r) (p_next_tree r) (p_other_config r) (p_action r) (p_report_type r) v
  (p_next_table r) (p_next_table_index r) (p_lookup_prev r) (p_lookup_next r).
Definition with_p_next_table v r := mk_policy (p_table_name r) (p_idx r) (p_rule_name r) (p_rules
  r) (p_redirects r) (p_next_tree r) (p_other_config r) (p_action r) (p_report_type r)
  (p_jump_table r) v (p_next_table_index r) (p_lookup_prev r) (p_lookup_next r).
Definition with_p_next_table_index v r := mk_policy (p_table_name r) (p_idx r) (p_rule_name r)
  (p_rules r) (p_redirects r) (p_next_tree r) (p_other_config r) (p_action r) (p_report_type r)
  (p_jump_table r) (p_next_table r) v (p_lookup_prev r) (p_lookup_next r).
Definition with_p_lookup_prev v r := mk_policy (p_table_name r) (p_idx r) (p_rule_name r) (p_rules
  r) (p_redirects r) (p_next_tree r) (p_other_config r) (p_action r) (p_report_type r)
  (p_jump_table r) (p_next_table r) (p_next_table_index r) v (p_lookup_next r).
Definition with_p_lookup_next v r := mk_policy (p_table_name r) (p_idx r) (p_rule_name r) (p_rules
  r) (p_redirects r) (p_next_tree r) (p_other_config r) (p_action r) (p_report_type r)
  (p_jump_table r) (p_next_table r) (p_next_table_index r) (p_lookup_prev r) v.
