(* ===== verification/FsmPolicy.v ===== *)
(** * FsmPolicy: evaluation of FSM policies

    Models [lib/fsm_policy/src/fsm_policy.c]: the checks of a policy rule (MAC,
    FQDN, IP address, category, risk level), the setters that fill the reply,
    the gatekeeper path and [fsm_apply_policies].  The tag store ([om_tag_in]),
    the DNS cache lookup, [fnmatch] and the provider callbacks are arguments; a
    NULL pointer the code dereferences is the fault [FDangling], an array index
    out of range the fault [FIndex]. *)
From S2P Require Import Prelude CString FsmTypes.
From Stdlib Require Import Ascii.
Open Scope Z_scope.

(** ** Tables of strings *)
Definition redirect_prefix : list string := ["A-"; "4A-"; "C-"].

(** The redirect target without its prefix, or NULL. *)
Definition fsm_dns_check_redirect (redirect : string) (id : Z) : res (option string) :=
  match redirect_prefix !! Z.to_nat id with
  | None => Err FIndex
  | Some cmp =>
      let n := String.length cmp in
      Ok (if strncmp_eq redirect cmp n then Some (str_drop n redirect) else None)
  end.

Definition fsm_action_str : list string :=
  ["none"; "blocked"; "allowed"; "observed"; "not matched"; "blocked"; "redirect"; "forward";
   "update tag"; "gk req"; "flush cache"; "flush all cache"; "no error no answer"].
Definition cache_lookup_failure := "cacheLookupFailed".
Definition remote_lookup_failure := "remoteLookupFailed".

Definition fsm_policy_get_action_str (action : Z) : res string :=
  if action <? 0 then Err FIndex else
  match fsm_action_str !! Z.to_nat action with Some s => Ok s | None => Err FIndex end.

Section Policy.
(** [om_tag_in(value, tag)] of [lib/policy_tags] *)
Variable om_tag_in : string -> string -> bool.
(** [fnmatch(pattern, string, 0) == 0] *)
Variable fnmatch : string -> string -> bool.

(** ** The MAC rule *)
Fixpoint mac_in_list (mac_s : string) (macs_set : list string) : bool :=
  match macs_set with
  | [] => false
  | set_entry :: rest =>
      if om_tag_in mac_s set_entry then true
      else if strncmp_eq mac_s set_entry (String.length mac_s) then true
      else mac_in_list mac_s rest
  end.

Definition find_mac_in_set (mac : list Z) (macs_set : list string) : bool :=
  mac_in_list (mac_lower mac) macs_set.

Definition fsm_device_in_set (req : fsm_policy_req) (p : fsm_policy) : res bool :=
  match macs (p_rules p) with
  | None => Ok false
  | Some macs_set => mac ← deref (rq_device_id req); Ok (find_mac_in_set mac macs_set)
  end.

Definition fsm_mac_check (req : fsm_policy_req) (policy : fsm_policy) : res bool :=
  let rules := p_rules policy in
  if negb (mac_rule_present rules) then Ok true else
  rc ← fsm_device_in_set req policy;
  if rc && (mac_op rules =? MAC_OP_OUT) then Ok false
  else if negb rc && (mac_op rules =? MAC_OP_IN) then Ok false
  else Ok true.

(** ** The FQDN rule *)

(** The loop of [fsm_policy_wildmatch] over the labels of both names; [None]
    when [MAX_DOTS] rounds were not enough. *)
Fixpoint wild_loop (n : nat) (pattern domain : string) : option bool :=
  match n with
  | O => None
  | S n' =>
      match strtok_dot pattern, strtok_dot domain with
      | None, None => Some true
      | None, Some _ | Some _, None => Some false
      | Some (pattern_sub, pattern), Some (domain_sub, domain) =>
          if fnmatch pattern_sub domain_sub then wild_loop n' pattern domain else Some false
      end
  end.

Definition fsm_policy_wildmatch (pattern domain : string) : bool :=
  default false (wild_loop MAX_DOTS pattern domain).

(** The loop of [fsm_fqdn_in_set] over the entries of the set. *)
Fixpoint fqdn_in_list (url : string) (op : Z) (fqdns_set : list string) : bool :=
  match fqdns_set with
  | [] => false
  | entry_set :: rest =>
      let entry_set_len := String.length entry_set in
      let fqdn_req_len := String.length url in
      if (fqdn_req_len <? entry_set_len)%nat then fqdn_in_list url op rest
      else if op =? FSM_FQDN_OP_WILD then fsm_policy_wildmatch entry_set url
      else
        let fqdn_req :=
          if op =? FSM_FQDN_OP_SFR then str_drop (fqdn_req_len - entry_set_len) url else url in
        if strncmp_eq fqdn_req entry_set entry_set_len then true
        else fqdn_in_list url op rest
  end.

Definition fsm_fqdn_in_set (req : fsm_policy_req) (p : fsm_policy) (op : Z) : res bool :=
  match fqdns (p_rules p) with
  | None => Ok false
  | Some [] => Ok false
  | Some fqdns_set => url ← deref (rq_url req); Ok (fqdn_in_list url op fqdns_set)
  end.

Definition fqdn_in_policy (o : Z) : bool :=
  (o =? FQDN_OP_IN) || (o =? FQDN_OP_SFR_IN) || (o =? FQDN_OP_SFL_IN) || (o =? FQDN_OP_WILD_IN).

(** The lookup operation of a policy operation. *)
Definition fqdn_lookup_op (o : Z) : Z :=
  let op := FSM_FQDN_OP_XM in
  let op := if (o =? FQDN_OP_SFR_IN) || (o =? FQDN_OP_SFR_OUT) then FSM_FQDN_OP_SFR else op in
  let op := if (o =? FQDN_OP_SFL_IN) || (o =? FQDN_OP_SFL_OUT) then FSM_FQDN_OP_SFL else op in
  if (o =? FQDN_OP_WILD_IN) || (o =? FQDN_OP_WILD_OUT) then FSM_FQDN_OP_WILD else op.

Definition fsm_fqdn_check (req : fsm_policy_req) (policy : fsm_policy) : res bool :=
  let rules := p_rules policy in
  if negb (fqdn_rule_present rules) then Ok true else
  let in_policy := fqdn_in_policy (fqdn_op rules) in
  rc ← fsm_fqdn_in_set req policy (fqdn_lookup_op (fqdn_op rules));
  if rc && negb in_policy then Ok false
  else if negb rc && in_policy then Ok false
  else Ok true.

(** ** Categories *)
Definition fsm_cat_cmp (i j : Z) : Z := i - j.

(** [bsearch(&val, array, nelems, sizeof(int), fsm_cat_cmp) != NULL] *)
Fixpoint bsearch (n : nat) (val : Z) (array : list Z) (l u : nat) : bool :=
  match n with
  | O => false
  | S n' =>
      if (l <? u)%nat then
        let idx := ((l + u) / 2)%nat in
        let c := fsm_cat_cmp val (nth idx array 0) in
        if c <? 0 then bsearch n' val array l idx
        else if 0 <? c then bsearch n' val array (S idx) u
        else true
      else false
  end.

Definition cat_search (val : Z) (p : fsm_policy) : bool :=
  match categories (p_rules p) with
  | None => false
  | Some categories_set =>
      let nmemb := length categories_set in bsearch (S nmemb) val categories_set 0 nmemb
  end.

(** [req->fqdn_req->req_info], and its [reply] when that is not NULL *)
Definition req_info (req : fsm_policy_req) : res fsm_url_request :=
  fq ← deref (rq_fqdn_req req); deref (pr_req_info fq).

(** The first of the first [n] categories that is in the policy's set. *)
Fixpoint first_cat (n : nat) (p : fsm_policy) (cats : list Z) : option Z :=
  match n, cats with
  | S n', c :: cats' => if cat_search c p then Some c else first_cat n' p cats'
  | _, _ => None
  end.

Definition fsm_fqdncats_in_set (req : fsm_policy_req) (p : fsm_policy)
    (policy_reply : fsm_policy_reply) : res (bool * fsm_policy_reply) :=
  info ← req_info req;
  reply ← deref (ui_reply info);
  match first_cat (Z.to_nat (ur_nelems reply)) p (ur_categories reply) with
  | Some c => Ok (true, with_rp_cat_match c policy_reply)
  | None =>
      if URL_REPORT_MAX_ELEMS <? ur_nelems reply then Err FIndex else Ok (false, policy_reply)
  end.

(** ** The IP rule *)
Fixpoint ip_in_list (url : string) (ips_set : list string) : bool :=
  match ips_set with
  | [] => false
  | entry_set :: rest =>
      let len := String.length entry_set in
      if negb (len =? String.length url)%nat then ip_in_list url rest
      else if strncmp_eq url entry_set len then true
      else ip_in_list url rest
  end.

Definition fsm_ip_in_set (req : fsm_policy_req) (p : fsm_policy) : res bool :=
  acc ← deref (rq_acc req);
  ip_version ← deref (acc_key acc);
  if negb ((ip_version =? 4) || (ip_version =? 6)) then Ok false else
  match ipaddrs (p_rules p) with
  | None => Ok false
  | Some ips_set => url ← deref (rq_url req); Ok (ip_in_list url ips_set)
  end.

Definition fsm_ip_check (req : fsm_policy_req) (policy : fsm_policy) : res bool :=
  let rules := p_rules policy in
  if negb (ip_rule_present rules) then Ok true else
  let in_policy := ip_op rules =? IP_OP_IN in
  rc ← fsm_ip_in_set req policy;
  if rc && negb in_policy then Ok false
  else if negb rc && in_policy then Ok false
  else Ok true.

(** ** Filling the reply *)
Definition set_log_action (req : fsm_policy_req) (policy_reply : fsm_policy_reply)
    : res fsm_policy_reply :=
  if negb (rp_categorized policy_reply =? FSM_FQDN_CAT_FAILED) then
    let a := rp_action policy_reply in
    let action :=
      if (a =? FSM_BLOCK) || (a =? FSM_REDIRECT) || (a =? FSM_REDIRECT_ALLOW) then a
      else if rq_action req =? FSM_OBSERVED then rq_action req
      else a in
    s ← fsm_policy_get_action_str action;
    Ok (with_rp_log_action (Some s) policy_reply)
  else
    url_info ← req_info req;
    let failed := match ui_reply url_info with
                  | None => true
                  | Some cat_reply => negb (ur_lookup_status cat_reply =? 0)
                  end in
    Ok (with_rp_log_action
          (Some (if failed then cache_lookup_failure else remote_lookup_failure)) policy_reply).

Definition set_action (p : fsm_policy) (policy_reply : fsm_policy_reply) : fsm_policy_reply :=
  if p_action p =? FSM_GATEKEEPER_REQ then policy_reply
  else if p_action p =? FSM_ACTION_NONE then with_rp_action FSM_OBSERVED policy_reply
  else if rp_from_cache policy_reply && (rp_action policy_reply =? FSM_ALLOW) then policy_reply
  else with_rp_action (p_action p) policy_reply.

Definition set_excluded_devices_tag (p : fsm_policy) (policy_reply : fsm_policy_reply)
    : fsm_policy_reply :=
  match p_other_config p with
  | None => policy_reply
  | Some tree =>
      match tree !! "excluded_devices" with
      | None => policy_reply
      | Some value => with_rp_excluded_devices (Some value) policy_reply
      end
  end.

Definition set_tag_update (p : fsm_policy) (policy_reply : fsm_policy_reply) : fsm_policy_reply :=
  match p_other_config p with
  | None => policy_reply
  | Some tree =>
      match tree !! "tagv4_name" with
      | None => policy_reply
      | Some v4 =>
          let policy_reply := with_rp_updatev4_tag (Some v4) policy_reply in
          match tree !! "tagv6_name" with
          | None => policy_reply
          | Some v6 => with_rp_updatev6_tag (Some v6) policy_reply
          end
      end
  end.

Definition set_reporting (p : fsm_policy) (policy_reply : fsm_policy_reply) : fsm_policy_reply :=
  let reporting := p_report_type p in
  with_rp_log (if rp_log policy_reply <? reporting then reporting else rp_log policy_reply)
    policy_reply.

Definition set_policy_record (p : fsm_policy) (policy_reply : fsm_policy_reply)
    : fsm_policy_reply :=
  with_rp_rule_name (Some (p_rule_name p))
    (with_rp_policy_idx (p_idx p) (with_rp_policy (Some (p_table_name p)) policy_reply)).

(** Copies the redirects into [redirects[2][256]]. *)
Fixpoint copy_redirects (i : nat) (src : list string) (dst : list string) : res (list string) :=
  match src with
  | [] => Ok dst
  | s :: src' =>
      if (i <? 2)%nat then copy_redirects (S i) src' (<[i := strscpy s 256]> dst) else Err FIndex
  end.

Definition set_policy_redirects (p : fsm_policy) (policy_reply : fsm_policy_reply)
    : res fsm_policy_reply :=
  if p_action p =? FSM_GATEKEEPER_REQ then Ok policy_reply else
  let policy_reply := with_rp_rd_ttl (-1) (with_rp_redirect false policy_reply) in
  let rd_ttl :=
    match p_other_config p with
    | None => Some (-1)
    | Some tree =>
        match tree !! "rd_ttl" with
        | None => None
        | Some value => let '(v, errno) := strtol value in if errno : bool then None else Some (i32 v)
        end
    end in
  match rd_ttl, p_redirects p with
  | None, _ | _, None => Ok policy_reply
  | Some rd_ttl, Some redirects =>
      dst ← copy_redirects 0 redirects (rp_redirects policy_reply);
      Ok (with_rp_rd_ttl rd_ttl (with_rp_redirect true (with_rp_redirects dst policy_reply)))
  end.

(** ** Risk level *)
Definition reply_risk_level (reply : fsm_url_reply) : Z :=
  if ur_service_id reply =? IP2ACTION_BC_SVC then ur_bc_reputation reply
  else if ur_service_id reply =? IP2ACTION_GK_SVC then i32 (ur_gk_confidence reply)
  else -1.

Definition risk_level_compare (reply : fsm_url_reply) (policy : fsm_policy) : bool :=
  let level := reply_risk_level reply in
  let op := risk_op (p_rules policy) in
  let policy_level := risk_level (p_rules policy) in
  if op =? RISK_OP_EQ then level =? policy_level
  else if op =? RISK_OP_GT then policy_level <? level
  else if op =? RISK_OP_GTE then policy_level <=? level
  else if op =? RISK_OP_LT then level <? policy_level
  else if op =? RISK_OP_LTE then level <=? policy_level
  else if op =? RISK_OP_NEQ then negb (level =? policy_level)
  else false.

(** ** The DNS cache *)

(** What [dns_cache_ip2action_lookup] fills in on success. *)
Record ip2action := mk_ip2action {
  i2a_action : Z; i2a_service_id : Z; i2a_nelems : Z; i2a_categories : list Z;
  i2a_cat_unknown : bool; i2a_bc_confidence : list Z; i2a_bc_reputation : Z;
  i2a_gk_confidence : Z; i2a_gk_category : Z; i2a_gk_policy : option string
}.
(** The lookup by device, address and direction: NULL (None) or a hit. *)
Variable dns_cache_ip2action_lookup : option (list Z) -> list Z -> Z -> option ip2action.

(** [dst[i] = src[i]] for [i < n], over arrays of [URL_REPORT_MAX_ELEMS]. *)
Definition copy_elems (n : Z) (src : list Z) : res (list Z) :=
  if URL_REPORT_MAX_ELEMS <? n then Err FIndex
  else Ok (take (Z.to_nat n) src ++ replicate (8 - Z.to_nat n) 0).

Definition url_reply_zero : fsm_url_reply :=
  mk_url_reply 0 0 false 0 0 (replicate 8 0) (replicate 8 0) 0 0 0 None.

(** [populate_bc_cache_entry] and [populate_gk_cache_entry] on a zeroed reply. *)
Definition populate_bc_cache_entry (reply : fsm_url_reply) (hit : ip2action) : res fsm_url_reply :=
  conf ← copy_elems (i2a_nelems hit) (i2a_bc_confidence hit);
  Ok (mk_url_reply (ur_service_id reply) (ur_lookup_status reply) (ur_connection_error reply)
        (ur_error reply) (ur_nelems reply) (ur_categories reply) conf (i2a_bc_reputation hit)
        (ur_gk_confidence reply) (ur_gk_category reply) (ur_gk_policy reply)).

Definition populate_gk_cache_entry (reply : fsm_url_reply) (hit : ip2action) : fsm_url_reply :=
  mk_url_reply (ur_service_id reply) (ur_lookup_status reply) (ur_connection_error reply)
    (ur_error reply) (ur_nelems reply) (ur_categories reply) (ur_bc_confidence reply)
    (ur_bc_reputation reply) (i2a_gk_confidence hit) (i2a_gk_category hit)
    (match i2a_gk_policy hit with Some s => Some s | None => ur_gk_policy reply end).

(** The reply built from a cache hit. *)
Definition url_reply_of (hit : ip2action) : res fsm_url_reply :=
  cats ← copy_elems (i2a_nelems hit) (i2a_categories hit);
  let reply := mk_url_reply (i2a_service_id hit) 0 false 0 (i2a_nelems hit) cats
                 (replicate 8 0) 0 0 0 None in
  if i2a_service_id hit =? IP2ACTION_BC_SVC then populate_bc_cache_entry reply hit
  else if i2a_service_id hit =? IP2ACTION_GK_SVC then Ok (populate_gk_cache_entry reply hit)
  else Ok reply.

Definition fsm_dns_cache_lookup (req : fsm_policy_req) (policy_reply : fsm_policy_reply)
    : res (bool * fsm_policy_req * fsm_policy_reply) :=
  if negb ((rq_req_type req =? FSM_IPV4_REQ) || (rq_req_type req =? FSM_IPV6_REQ))
  then Ok (false, req, policy_reply)
  else if rp_from_cache policy_reply then Ok (true, req, policy_reply)
  else
    let direction := match rq_acc req with Some acc => acc_direction acc | None => 0 end in
    match dns_cache_ip2action_lookup (rq_device_id req) (rq_ip_addr req) direction with
    | None => Ok (false, req, policy_reply)
    | Some hit =>
        let policy_reply := with_rp_action (i2a_action hit)
          (with_rp_cat_unknown (i2a_cat_unknown hit) (with_rp_from_cache true policy_reply)) in
        _ ← req_info req;
        reply ← url_reply_of hit;
        Ok (true, with_rq_fqdn_req (Some (mk_pending (Some (mk_url_request (Some reply))))) req,
            with_rp_categorized FSM_FQDN_CAT_SUCCESS policy_reply)
    end.

(** ** Providers *)

(** The callbacks of the reply: NULL, or code of the web categorization and
    gatekeeper plugins, which may update the request and the reply. *)
Record providers := mk_providers {
  categories_check :
    option (fsm_policy_req -> fsm_policy -> fsm_policy_reply ->
            bool * fsm_policy_req * fsm_policy_reply);
  risk_level_check :
    option (fsm_policy_req -> fsm_policy -> fsm_policy_reply ->
            bool * fsm_policy_req * fsm_policy_reply);
  gatekeeper_req :
    option (fsm_policy_req -> fsm_policy_reply -> bool * fsm_policy_req * fsm_policy_reply)
}.
Variable prov : providers.

Definition fsm_cat_check (req : fsm_policy_req) (policy : fsm_policy)
    (policy_reply : fsm_policy_reply) : res (bool * fsm_policy_req * fsm_policy_reply) :=
  '(_, req, policy_reply) ← fsm_dns_cache_lookup req policy_reply;
  let rules := p_rules policy in
  if negb (cat_rule_present rules) then Ok (true, req, policy_reply) else
  match categories_check prov with
  | None => Ok (false, req, policy_reply)
  | Some check =>
      if negb (rp_categorized policy_reply =? FSM_FQDN_CAT_NOP) then
        '(rc, policy_reply) ← fsm_fqdncats_in_set req policy policy_reply;
        if (rc : bool) && (cat_op rules =? CAT_OP_OUT) then Ok (false, req, policy_reply)
        else if negb rc && (cat_op rules =? CAT_OP_IN) then Ok (false, req, policy_reply)
        else Ok (true, req, policy_reply)
      else Ok (check req policy policy_reply)
  end.

Definition fsm_risk_level_check (req : fsm_policy_req) (policy : fsm_policy)
    (policy_reply : fsm_policy_reply) : res (bool * fsm_policy_req * fsm_policy_reply) :=
  let rules := p_rules policy in
  if negb (risk_rule_present rules) then Ok (true, req, policy_reply) else
  match risk_level_check prov with
  | None => Ok (false, req, policy_reply)
  | Some check =>
      '(rc, req, policy_reply) ← fsm_dns_cache_lookup req policy_reply;
      if rc : bool then
        if negb (rp_action policy_reply =? FSM_ALLOW) then
          info ← req_info req;
          reply ← deref (ui_reply info);
          Ok (risk_level_compare reply policy, req, policy_reply)
        else Ok (true, req, policy_reply)
      else Ok (check req policy policy_reply)
  end.

Definition fsm_gatekeeper_check (req : fsm_policy_req) (p : fsm_policy)
    (policy_reply : fsm_policy_reply) : bool * fsm_policy_req * fsm_policy_reply :=
  if negb (p_action p =? FSM_GATEKEEPER_REQ) then (true, req, policy_reply) else
  match gatekeeper_req prov with
  | None => (false, req, policy_reply)
  | Some check =>
      let req := with_rq_policy (Some p) req in
      let '(rc, req, policy_reply) := check req policy_reply in
      if rc : bool then (rc, req, policy_reply)
      else (rc, req, with_rp_log FSM_REPORT_NONE (with_rp_action FSM_NO_MATCH policy_reply))
  end.

Definition fsm_gk_check_required (policy : fsm_policy) : bool :=
  (p_action policy =? FSM_GATEKEEPER_REQ) &&
  match gatekeeper_req prov with Some _ => true | None => false end.

(** ** Applying the policies *)

(** The five checks of one policy, in order, each only when those before it
    succeeded. *)
Definition policy_checks (req : fsm_policy_req) (p : fsm_policy) (policy_reply : fsm_policy_reply)
    : res (bool * fsm_policy_req * fsm_policy_reply) :=
  rc ← fsm_mac_check req p;
  if negb rc then Ok (false, req, policy_reply) else
  rc ← fsm_fqdn_check req p;
  if negb rc then Ok (false, req, policy_reply) else
  rc ← fsm_ip_check req p;
  if negb rc then Ok (false, req, policy_reply) else
  '(rc, req, policy_reply) ← fsm_cat_check req p policy_reply;
  if negb rc then Ok (false, req, policy_reply) else
  fsm_risk_level_check req p policy_reply.

(** The bookkeeping of a match in the request. *)
Definition record_match (req : fsm_policy_req) (p : fsm_policy) : fsm_policy_req :=
  if negb (p_action p =? FSM_GATEKEEPER_REQ) then
    let report := p_report_type p =? FSM_REPORT_ALL in
    with_rq_action (if p_action p =? FSM_ACTION_NONE then FSM_OBSERVED else p_action p)
      (with_rq_policy_index (i32 (p_idx p)) (with_rq_rule_name (Some (p_rule_name p))
         (with_rq_report (rq_report req || report) req)))
  else req.

(** The loop of [fsm_apply_policies] over the lookup array: the last matching
    policy, the request and the reply. *)
Fixpoint policies_loop (arr : list (option fsm_policy)) (last : option fsm_policy)
    (req : fsm_policy_req) (policy_reply : fsm_policy_reply)
    : res (option fsm_policy * fsm_policy_req * fsm_policy_reply) :=
  match arr with
  | [] => Ok (last, req, policy_reply)
  | None :: arr' => policies_loop arr' last req policy_reply
  | Some p :: arr' =>
      '(rc, req, policy_reply) ← policy_checks req p policy_reply;
      if negb rc then policies_loop arr' last req policy_reply else
      let req := record_match req p in
      if negb (p_action p =? FSM_ACTION_NONE) then Ok (Some p, req, policy_reply)
      else policies_loop arr' (Some p) req policy_reply
  end.

(** The setters applied to the last match, in the order of the code. *)
Definition apply_setters (req : fsm_policy_req) (p : fsm_policy) (policy_reply : fsm_policy_reply)
    : res fsm_policy_reply :=
  let policy_reply := set_reporting p policy_reply in
  let policy_reply := set_tag_update p policy_reply in
  let policy_reply := set_excluded_devices_tag p policy_reply in
  let policy_reply := set_action p policy_reply in
  policy_reply ← set_log_action req policy_reply;
  let policy_reply := set_policy_record p policy_reply in
  set_policy_redirects p policy_reply.

(** [fsm_apply_policies] up to the call of the response callback: the action
    returned, and the request and reply the callback is given. *)
Definition fsm_apply_policies (table : option (list (option fsm_policy)))
    (req : fsm_policy_req) (policy_reply : fsm_policy_reply)
    : res (Z * fsm_policy_req * fsm_policy_reply) :=
  match table with
  | None =>
      Ok (FSM_NO_MATCH, req,
          with_rp_log FSM_REPORT_NONE (with_rp_action FSM_NO_MATCH policy_reply))
  | Some lookup_array =>
      let req := with_rq_report false req in
      '(last, req, policy_reply) ← policies_loop lookup_array None req policy_reply;
      match last with
      | Some p =>
          let '(_, req, policy_reply) :=
            if fsm_gk_check_required p then fsm_gatekeeper_check req p policy_reply
            else (true, req, policy_reply) in
          policy_reply ← apply_setters req p policy_reply;
          Ok (rp_action policy_reply, req, policy_reply)
      | None =>
          let policy_reply := with_rp_log FSM_REPORT_NONE (with_rp_action FSM_NO_MATCH policy_reply) in
          Ok (rp_action policy_reply, req, policy_reply)
      end
  end.

(** ** The asynchronous gatekeeper response *)
Definition fsm_gk_reply_updates (req : fsm_policy_req) (policy_reply : fsm_policy_reply)
    : res fsm_policy_reply :=
  match rq_policy req with
  | None => Ok policy_reply
  | Some policy =>
      let policy_reply := set_reporting policy policy_reply in
      let policy_reply := set_tag_update policy policy_reply in
      let policy_reply := set_excluded_devices_tag policy policy_reply in
      let policy_reply := set_action policy policy_reply in
      let policy_reply := set_policy_record policy policy_reply in
      set_policy_redirects policy policy_reply
  end.

(** [process_gk_response_cb]: the reply handed to the response callback. *)
Definition process_gk_response_cb (req : fsm_policy_req) (policy_reply : fsm_policy_reply)
    : res fsm_policy_reply :=
  if rp_categorized policy_reply =? FSM_FQDN_CAT_SUCCESS
  then fsm_gk_reply_updates req policy_reply else Ok policy_reply.

(** ** Requests and replies *)
Definition fsm_policy_initialize_reply : fsm_policy_reply :=
  mk_reply (-1) FSM_INLINE_REPLY 0 None (-1) 0 0 0 None 0 None None None None false [""; ""] (-1)
    false false false false.

(** [fsm_policy_initialize_pending_req] and [fsm_policy_initialize_request] on
    the arguments of a request: the device and the accumulator. *)
Definition fsm_policy_initialize_pending_req (device_id : option (list Z))
    : option fqdn_pending_req :=
  match device_id with
  | None => None
  | Some _ => Some (mk_pending (Some (mk_url_request None)))
  end.

Definition fsm_policy_initialize_request (args : option (option (list Z) * option net_acc))
    : option fsm_policy_req :=
  match args with
  | None => None
  | Some (device_id, acc) =>
      match fsm_policy_initialize_pending_req device_id with
      | None => None
      | Some pending_req =>
          Some (mk_req device_id 0 None (replicate 128 0) acc (Some pending_req) None None 0 0
                  false 0)
      end
  end.

Definition fsm_policy_set_supported_feature (req : fsm_policy_req) (feature : Z) : fsm_policy_req :=
  with_rq_supported_features (u64 (Z.lor (rq_supported_features req) feature)) req.

End Policy.

(** ** Names and sets of names *)

(** Wildcard matching compares the two names label by label: it succeeds
    exactly when they have the same number of labels, fewer than [MAX_DOTS], and
    every label of the domain matches the label of the pattern.  The loop's bound
    never cuts a shorter comparison off. *)
Theorem fsm_policy_wildmatch_spec fnmatch pattern domain :
  fsm_policy_wildmatch fnmatch pattern domain = true <->
  (length (tokens pattern) < MAX_DOTS)%nat /\
  Forall2 (fun p d => fnmatch p d = true) (tokens pattern) (tokens domain).
Proof.
  unfold fsm_policy_wildmatch. generalize MAX_DOTS. intros n. revert pattern domain.
  induction n as [|n IH]; intros pattern domain; [cbn; split; [done|lia]|].
  cbn [wild_loop]. rewrite (tokens_unfold pattern), (tokens_unfold domain).
  destruct (strtok_dot pattern) as [[ps pr]|], (strtok_dot domain) as [[ds dr]|];
    cbn [default id length].
  - destruct (fnmatch ps ds) eqn:Ef.
    + rewrite IH. split; intros [Hl HF]; (split; [lia|]); [by constructor|by inversion HF].
    + cbn. split; [done|]. intros [_ HF]. inversion HF. congruence.
  - split; [done|]. intros [_ HF]. inversion HF.
  - split; [done|]. intros [_ HF]. inversion HF.
  - split; [|done]. intros _. split; [lia|constructor].
Qed.

Lemma prefix_app e url :
  String.prefix e url = true <-> exists post, url = (e +:+ post)%string.
Proof.
  revert url. induction e as [|c e IH]; intros url.
  - split; [by exists url|by destruct url].
  - destruct url as [|d url]; cbn; [split; [done|by intros []]|].
    destruct (ascii_dec c d) as [->|Hne].
    + rewrite IH. split; [intros [q ->]; by exists q|intros [q [= ->]]; by exists q].
    + split; [done|]. intros [q [= ? _]]. done.
Qed.

Lemma suffix_drop e url :
  (String.length e <= String.length url)%nat ->
  str_drop (String.length url - String.length e) url = e <-> exists pre, url = (pre +:+ e)%string.
Proof.
  intros Hl. split.
  - set (n := (String.length url - String.length e)%nat). intros Hd. exists (str_take n url).
    rewrite <- (str_take_drop n url) at 1. by rewrite Hd.
  - intros [pre ->]. rewrite str_length_app.
    replace (String.length pre + String.length e - String.length e)%nat
      with (String.length pre) by lia.
    clear. induction pre as [|c pre IH]; cbn; [by destruct e|done].
Qed.

(** What one entry of an FQDN set matches, apart from wildcards. *)
Definition fqdn_entry_matches (op : Z) (url e : string) : Prop :=
  if op =? FSM_FQDN_OP_SFR then exists pre, url = (pre +:+ e)%string
  else exists post, url = (e +:+ post)%string.

Lemma fqdn_entry_long op url e :
  fqdn_entry_matches op url e -> (String.length e <= String.length url)%nat.
Proof.
  unfold fqdn_entry_matches. destruct (op =? _); intros [q ->]; rewrite str_length_app; lia.
Qed.

Lemma fqdn_entry_test op url e :
  (String.length e <= String.length url)%nat ->
  strncmp_eq (if op =? FSM_FQDN_OP_SFR
              then str_drop (String.length url - String.length e) url else url)
    e (String.length e) = true <-> fqdn_entry_matches op url e.
Proof.
  intros Hl. unfold fqdn_entry_matches. rewrite strncmp_prefix. destruct (op =? _).
  - rewrite <- suffix_drop by done. split; [|intros ->; apply prefix_refl].
    apply prefix_same_length. rewrite str_drop_length. lia.
  - apply prefix_app.
Qed.

Lemma fqdn_in_list_spec fnmatch url op set :
  op <> FSM_FQDN_OP_WILD ->
  fqdn_in_list fnmatch url op set = true <-> exists e, e ∈ set /\ fqdn_entry_matches op url e.
Proof.
  intros Hop. induction set as [|e set IH].
  { cbn. split; [done|]. intros (? & ?%elem_of_nil & _). done. }
  cbn [fqdn_in_list]. rewrite (proj2 (Z.eqb_neq _ _) Hop).
  destruct (Nat.ltb_spec (String.length url) (String.length e)) as [Hlt|Hle].
  - rewrite IH. split; [intros (x & Hx & Hm); exists x; set_solver|].
    intros (x & [->|Hx]%elem_of_cons & Hm); [apply fqdn_entry_long in Hm; lia|eauto].
  - destruct (strncmp_eq _ e _) eqn:Es.
    + split; [|done]. intros _. exists e. split; [set_solver|]. by apply fqdn_entry_test.
    + rewrite IH. split; [intros (x & Hx & Hm); exists x; set_solver|].
      intros (x & [->|Hx]%elem_of_cons & Hm); [|eauto].
      apply fqdn_entry_test in Hm; [congruence|done].
Qed.

(** A name is in the FQDN set exactly when it ends with an entry
    ("start from right") or starts with one (the other two operations). *)
Theorem fsm_fqdn_in_set_spec fnmatch req p op url set :
  rq_url req = Some url -> fqdns (p_rules p) = Some set -> op <> FSM_FQDN_OP_WILD ->
  exists b, fsm_fqdn_in_set fnmatch req p op = Ok b /\
    (b = true <-> exists e, e ∈ set /\ fqdn_entry_matches op url e).
Proof.
  intros Hu Hs Hop. unfold fsm_fqdn_in_set. rewrite Hs, Hu.
  exists (fqdn_in_list fnmatch url op set). split; [by destruct set|].
  by apply fqdn_in_list_spec.
Qed.

(** A sample request and sample policies. *)
Definition sample_req (url : string) : fsm_policy_req :=
  mk_req (Some [0xaa; 1; 2; 3; 4; 5]) 0 (Some url) [] (Some (mk_acc (Some 4) 0))
    (Some (mk_pending (Some (mk_url_request None)))) None None 0 0 false 0.

Definition no_rules : fsm_policy_rules :=
  mk_rules false 0 None false 0 None false 0 None false 0 0 false 0 None false 0 None.
Definition fqdn_rules (op : Z) (set : list string) : fsm_policy_rules :=
  mk_rules false 0 None true op (Some set) false 0 None false 0 0 false 0 None false 0 None.
Definition sample_policy (name : string) (idx action report : Z) (r : fsm_policy_rules)
    : fsm_policy :=
  mk_policy "default" idx name r None None None action report false None 0 0 0.

Lemma fsm_fqdn_in_set_spec_witness :
  exists b, fsm_fqdn_in_set (fun _ _ => false) (sample_req "www.a.com")
      (sample_policy "r" 1 1 0 (fqdn_rules FQDN_OP_SFR_IN ["b.org"; "a.com"])) FSM_FQDN_OP_SFR = Ok b /\
    (b = true <-> exists e, e ∈ ["b.org"; "a.com"] /\
                   fqdn_entry_matches FSM_FQDN_OP_SFR "www.a.com" e).
Proof. apply fsm_fqdn_in_set_spec; reflexivity || discriminate. Defined.

(** The operation documented as an exact match is a prefix match: every
    name that extends an entry of the set is in it. *)
Theorem fqdn_exact_match_is_prefix fnmatch req p e rest :
  rq_url req = Some (e +:+ rest)%string -> fqdns (p_rules p) = Some [e] ->
  fqdn_rule_present (p_rules p) = true -> fqdn_op (p_rules p) = FQDN_OP_IN ->
  fsm_fqdn_check fnmatch req p = Ok true.
Proof.
  intros Hu Hs Hp Ho. unfold fsm_fqdn_check, fsm_fqdn_in_set. rewrite Hp, Ho, Hs, Hu.
  cbn [negb deref]. cbind. replace (fqdn_in_list _ _ _ _) with true; [done|]. symmetry.
  apply fqdn_in_list_spec; [done|]. exists e. split; [set_solver|]. by exists rest.
Qed.

Lemma fqdn_exact_match_is_prefix_witness :
  fsm_fqdn_check (fun _ _ => false) (sample_req "google.com.evil.org")
    (sample_policy "r" 1 1 0 (fqdn_rules FQDN_OP_IN ["google.com"])) = Ok true.
Proof. apply (fqdn_exact_match_is_prefix _ _ _ "google.com" ".evil.org"); reflexivity. Defined.

(** A wildcard set is decided by its first entry that is not longer than
    the name: the entries after it are never tried. *)
Theorem fqdn_wild_first_entry_only fnmatch url e set :
  (String.length e <= String.length url)%nat ->
  fqdn_in_list fnmatch url FSM_FQDN_OP_WILD (e :: set) = fsm_policy_wildmatch fnmatch e url.
Proof.
  intros Hl. cbn [fqdn_in_list].
  by rewrite (proj2 (Nat.ltb_ge (String.length url) (String.length e))).
Qed.

Lemma fqdn_wild_first_entry_only_witness :
  fqdn_in_list (fun p d => String.eqb p "*" || String.eqb p d) "x.b.com" FSM_FQDN_OP_WILD
    ["*.a.com"; "*.b.com"] = false.
Proof.
  rewrite (fqdn_wild_first_entry_only _ "x.b.com" "*.a.com" ["*.b.com"]); [reflexivity|].
  cbn. lia.
Defined.

(** ** The rules *)

(** The pattern of every rule: absent, or the object is in the set exactly
    when the policy applies to the members of the set. *)
Definition rule_ok (present is_in found : bool) : bool :=
  negb present || Bool.eqb is_in found.

Lemma ip_in_list_elem url set : ip_in_list url set = bool_decide (url ∈ set).
Proof.
  induction set as [|e set IH]; [done|]. cbn [ip_in_list].
  destruct (Nat.eqb_spec (String.length e) (String.length url)) as [Hl|Hl]; cbn [negb].
  - destruct (strncmp_eq url e _) eqn:Es.
    + apply strncmp_prefix, prefix_same_length in Es as ->; [|done].
      symmetry. apply bool_decide_eq_true. set_solver.
    + rewrite IH. apply bool_decide_ext. rewrite elem_of_cons. split; [tauto|].
      intros [->|?]; [|done]. exfalso. revert Es.
      by rewrite (proj2 (strncmp_prefix e e) (prefix_refl e)).
  - rewrite IH. apply bool_decide_ext. rewrite elem_of_cons. split; [tauto|].
    intros [->|?]; done.
Qed.

Lemma rule_ok_dual found : rule_ok true true found = negb (rule_ok true false found).
Proof. by destruct found. Qed.

Section Checks.
Variable om_tag_in : string -> string -> bool.
Variable fnmatch : string -> string -> bool.

Definition mac_ok (mac : list Z) (p : fsm_policy) : bool :=
  rule_ok (mac_rule_present (p_rules p)) (mac_op (p_rules p) =? MAC_OP_IN)
    (match macs (p_rules p) with Some s => find_mac_in_set om_tag_in mac s | None => false end).

Definition fqdn_ok (url : string) (p : fsm_policy) : bool :=
  rule_ok (fqdn_rule_present (p_rules p)) (fqdn_in_policy (fqdn_op (p_rules p)))
    (match fqdns (p_rules p) with
     | Some s => fqdn_in_list fnmatch url (fqdn_lookup_op (fqdn_op (p_rules p))) s
     | None => false
     end).

Definition ip_ok (version : Z) (url : string) (p : fsm_policy) : bool :=
  rule_ok (ip_rule_present (p_rules p)) (ip_op (p_rules p) =? IP_OP_IN)
    (if (version =? 4) || (version =? 6) then
       match ipaddrs (p_rules p) with Some s => ip_in_list url s | None => false end
     else false).

(** The pointers of a request that the checks dereference. *)
Record req_complete (req : fsm_policy_req) (mac : list Z) (url : string) (version dir : Z) : Prop := {
  rc_mac : rq_device_id req = Some mac;
  rc_url : rq_url req = Some url;
  rc_acc : rq_acc req = Some (mk_acc (Some version) dir)
}.

Lemma mac_check_ok req p mac url version dir :
  req_complete req mac url version dir -> mac_op (p_rules p) ∈ [MAC_OP_OUT; MAC_OP_IN] ->
  fsm_mac_check om_tag_in req p = Ok (mac_ok mac p).
Proof.
  intros [Hm _ _] Hop. unfold fsm_mac_check, fsm_device_in_set, mac_ok, rule_ok. rewrite Hm.
  destruct (mac_rule_present _); [|done]. cbn [negb orb deref].
  apply elem_of_cons in Hop as [Hop|Hop%list_elem_of_singleton]; rewrite Hop;
    (destruct (macs (p_rules p)) as [s|]; [|done]); cbn [deref]; cbind;
    by destruct (find_mac_in_set _ _ _).
Qed.

Lemma fqdn_check_ok req p mac url version dir :
  req_complete req mac url version dir -> fsm_fqdn_check fnmatch req p = Ok (fqdn_ok url p).
Proof.
  intros [_ Hu _]. unfold fsm_fqdn_check, fsm_fqdn_in_set, fqdn_ok, rule_ok. rewrite Hu.
  destruct (fqdn_rule_present _); [|done]. cbn [negb orb].
  destruct (fqdns (p_rules p)) as [[|e s]|]; cbn [deref]; cbind;
    try destruct (fqdn_in_list _ _ _ (_ :: _)); by destruct (fqdn_in_policy _).
Qed.

Lemma ip_check_ok req p mac url version dir :
  req_complete req mac url version dir -> fsm_ip_check req p = Ok (ip_ok version url p).
Proof.
  intros [_ Hu Ha]. unfold fsm_ip_check, fsm_ip_in_set, ip_ok, rule_ok. rewrite Ha, Hu.
  destruct (ip_rule_present _); [|done]. cbn [negb orb deref acc_key]. cbind. cbn [deref acc_key]. cbind.
  destruct ((version =? 4) || (version =? 6)); cbn [negb]; cbind;
    [destruct (ipaddrs (p_rules p)) as [s|]; cbn [deref]; cbind;
     [destruct (ip_in_list url s)|]|]; by destruct (ip_op _ =? IP_OP_IN).
Qed.

End Checks.

(** The IP rule holds exactly when it is absent, or when membership of the
    address, as text, in the policy's set agrees with the policy's operation. *)
Theorem fsm_ip_check_spec req p mac url version dir set :
  req_complete req mac url version dir -> version = 4 \/ version = 6 ->
  ipaddrs (p_rules p) = Some set ->
  fsm_ip_check req p =
    Ok (negb (ip_rule_present (p_rules p)) ||
        Bool.eqb (ip_op (p_rules p) =? IP_OP_IN) (bool_decide (url ∈ set))).
Proof.
  intros Hr Hv Hs. rewrite (ip_check_ok req p mac url version dir Hr).
  unfold ip_ok, rule_ok. rewrite Hs, ip_in_list_elem. by destruct Hv as [->| ->].
Qed.

Lemma fsm_ip_check_spec_witness :
  fsm_ip_check (sample_req "10.0.0.1")
    (sample_policy "r" 1 1 0 (mk_rules false 0 None false 0 None false 0 None false 0 0
       true IP_OP_OUT (Some ["10.0.0.2"]) false 0 None)) = Ok true.
Proof.
  rewrite (fsm_ip_check_spec _ _ [0xaa; 1; 2; 3; 4; 5] "10.0.0.1" 4 0 ["10.0.0.2"]);
    [reflexivity|by split|by left|reflexivity].
Defined.

(** "in" and "out" are complementary: for a present rule over the same
    set, a policy that applies to members matches exactly when the policy that
    applies to non-members does not, for the MAC rule, the IP rule and each of
    the four FQDN operations. *)
Theorem rules_in_out_dual om_tag_in fnmatch mac url version p q :
  let r := p_rules p in let s := p_rules q in
  (mac_rule_present r = true -> mac_rule_present s = true -> macs r = macs s ->
   mac_op r = MAC_OP_IN -> mac_op s = MAC_OP_OUT ->
   mac_ok om_tag_in mac p = negb (mac_ok om_tag_in mac q)) /\
  (ip_rule_present r = true -> ip_rule_present s = true -> ipaddrs r = ipaddrs s ->
   ip_op r = IP_OP_IN -> ip_op s = IP_OP_OUT ->
   ip_ok version url p = negb (ip_ok version url q)) /\
  (fqdn_rule_present r = true -> fqdn_rule_present s = true -> fqdns r = fqdns s ->
   0 <= fqdn_op r < 4 -> fqdn_op s = fqdn_op r + 4 ->
   fqdn_ok fnmatch url p = negb (fqdn_ok fnmatch url q)).
Proof.
  intros r s. unfold mac_ok, ip_ok, fqdn_ok. fold r s. split_and!.
  - intros -> -> -> -> ->. apply rule_ok_dual.
  - intros -> -> -> -> ->. apply rule_ok_dual.
  - intros -> -> -> Hr ->.
    assert (fqdn_op r = 0 \/ fqdn_op r = 1 \/ fqdn_op r = 2 \/ fqdn_op r = 3) as Hc by lia.
    destruct Hc as [->|[->|[->| ->]]]; apply rule_ok_dual.
Qed.

Lemma rules_in_out_dual_witness :
  fqdn_ok (fun _ _ => true) "www.a.com" (sample_policy "r" 1 1 0 (fqdn_rules 1 ["a.com"])) =
  negb (fqdn_ok (fun _ _ => true) "www.a.com" (sample_policy "r" 1 1 0 (fqdn_rules 5 ["a.com"]))).
Proof.
  apply (rules_in_out_dual (fun _ _ => true) (fun _ _ => true) [] "www.a.com" 4
    (sample_policy "r" 1 1 0 (fqdn_rules 1 ["a.com"]))
    (sample_policy "r" 1 1 0 (fqdn_rules 5 ["a.com"]))); reflexivity || (cbn; lia).
Defined.

(** ** The selection of a policy *)

(** The policy a walk in index order selects among those that match: the first
    one with an action, or else the last one without. *)
Definition selected (ok : fsm_policy -> bool) (ps : list fsm_policy) (p : fsm_policy) : Prop :=
  exists l1 l2, ps = l1 ++ p :: l2 /\ ok p = true /\
    (forall q, q ∈ l1 -> ok q = true -> p_action q = FSM_ACTION_NONE) /\
    (p_action p = FSM_ACTION_NONE -> forall q, q ∈ l2 -> ok q = false).

Definition none_matches (ok : fsm_policy -> bool) (ps : list fsm_policy) : Prop :=
  forall q, q ∈ ps -> ok q = false.

(** A policy that needs no provider: no category or risk rule, an action of the
    schema other than the gatekeeper's, at most two redirects. *)
Record plain_policy (p : fsm_policy) : Prop := {
  pl_cat : cat_rule_present (p_rules p) = false;
  pl_risk : risk_rule_present (p_rules p) = false;
  pl_mac : mac_op (p_rules p) ∈ [MAC_OP_OUT; MAC_OP_IN];
  pl_action : 0 <= p_action p < FSM_NUM_ACTIONS;
  pl_gk : p_action p <> FSM_GATEKEEPER_REQ;
  pl_redirects : match p_redirects p with Some l => (length l <= 2)%nat | None => True end
}.

(** A request for a name: no DNS cache lookup by address. *)
Definition name_request (req : fsm_policy_req) : Prop :=
  rq_req_type req <> FSM_IPV4_REQ /\ rq_req_type req <> FSM_IPV6_REQ.

Lemma redirects_ok p reply :
  match p_redirects p with Some l => (length l <= 2)%nat | None => True end ->
  exists reply', set_policy_redirects p reply = Ok reply' /\ rp_action reply' = rp_action reply /\
    rp_log reply' = rp_log reply /\ rp_policy reply' = rp_policy reply /\
    rp_policy_idx reply' = rp_policy_idx reply /\ rp_rule_name reply' = rp_rule_name reply.
Proof.
  intros Hr. unfold set_policy_redirects. destruct (p_action p =? FSM_GATEKEEPER_REQ); [by eexists|].
  set (ttl := match p_other_config p with None => _ | Some _ => _ end).
  destruct ttl as [ttl|]; [|by eexists]. destruct (p_redirects p) as [l|]; [|by eexists].
  destruct l as [|a [|b [|c l]]]; cbn in *; [by eexists..|lia].
Qed.

Lemma action_str_ok a : 0 <= a < FSM_NUM_ACTIONS -> exists s, fsm_policy_get_action_str a = Ok s.
Proof.
  intros Ha. unfold fsm_policy_get_action_str. rewrite (proj2 (Z.ltb_ge a 0)) by lia.
  destruct (lookup_lt_is_Some_2 fsm_action_str (Z.to_nat a)) as [s ->]; [|by exists s].
  cbn. unfold FSM_NUM_ACTIONS in Ha. lia.
Qed.

Lemma log_action_ok req reply :
  rp_categorized reply <> FSM_FQDN_CAT_FAILED -> 0 <= rp_action reply < FSM_NUM_ACTIONS ->
  exists s, set_log_action req reply = Ok (with_rp_log_action (Some s) reply).
Proof.
  intros Hc Ha. unfold set_log_action. rewrite (proj2 (Z.eqb_neq _ _) Hc). cbn [negb].
  set (a := if _ || _ then _ else _).
  assert (0 <= a < FSM_NUM_ACTIONS) as Hr.
  { subst a. destruct (_ || _); [done|].
    destruct (Z.eqb_spec (rq_action req) FSM_OBSERVED) as [->|]; done. }
  destruct (action_str_ok a Hr) as [s ->]. by exists s.
Qed.

Section Select.
Variable om_tag_in : string -> string -> bool.
Variable fnmatch : string -> string -> bool.
Variable dns_cache_ip2action_lookup : option (list Z) -> list Z -> Z -> option ip2action.
Variable prov : providers.
Variables (mac : list Z) (url : string) (version dir : Z).

Definition policy_ok (p : fsm_policy) : bool :=
  mac_ok om_tag_in mac p && fqdn_ok fnmatch url p && ip_ok version url p.

Lemma policy_checks_plain req p reply :
  req_complete req mac url version dir -> name_request req -> plain_policy p ->
  policy_checks om_tag_in fnmatch dns_cache_ip2action_lookup prov req p reply =
    Ok (policy_ok p, req, reply).
Proof.
  intros Hc [H4 H6] Hp. unfold policy_checks, policy_ok.
  rewrite (mac_check_ok om_tag_in req p mac url version dir Hc (pl_mac _ Hp)). cbind.
  destruct (mac_ok _ mac p); [|done]. cbn [negb andb].
  rewrite (fqdn_check_ok fnmatch req p mac url version dir Hc). cbind.
  destruct (fqdn_ok _ url p); [|done]. cbn [negb andb].
  rewrite (ip_check_ok req p mac url version dir Hc). cbind.
  destruct (ip_ok version url p); [|done]. cbn [negb].
  unfold fsm_cat_check, fsm_dns_cache_lookup.
  rewrite (proj2 (Z.eqb_neq _ _) H4), (proj2 (Z.eqb_neq _ _) H6). cbn [orb negb]. cbind.
  rewrite (pl_cat _ Hp). cbn [negb]. cbind. cbn [negb].
  unfold fsm_risk_level_check. by rewrite (pl_risk _ Hp).
Qed.

Lemma record_match_complete req p :
  req_complete req mac url version dir -> req_complete (record_match req p) mac url version dir.
Proof. intros [H1 H2 H3]. unfold record_match. by case_match; split. Qed.

Lemma record_match_name req p : name_request req -> name_request (record_match req p).
Proof. unfold record_match. by case_match. Qed.

Lemma policies_loop_plain arr : forall seen last req reply,
  req_complete req mac url version dir -> name_request req ->
  Forall plain_policy (omap id arr) ->
  (forall q, q ∈ seen -> policy_ok q = true -> p_action q = FSM_ACTION_NONE) ->
  match last with
  | None => none_matches policy_ok seen
  | Some p => selected policy_ok seen p /\ p_action p = FSM_ACTION_NONE
  end ->
  exists last' req', policies_loop om_tag_in fnmatch dns_cache_ip2action_lookup prov arr last req reply
      = Ok (last', req', reply) /\
    match last' with
    | None => none_matches policy_ok (seen ++ omap id arr)
    | Some p => selected policy_ok (seen ++ omap id arr) p
    end.
Proof.
  induction arr as [|[p|] arr IH]; intros seen last req reply Hc Hn HF Hseen Hlast.
  - exists last, req. split; [done|]. cbn. rewrite app_nil_r. destruct last; [apply Hlast|done].
  - cbn [omap list_omap id] in *. apply Forall_cons_1 in HF as [Hp HF]. cbn [policies_loop].
    rewrite (policy_checks_plain req p reply Hc Hn Hp). cbind.
    rewrite (cons_middle p seen), app_assoc.
    destruct (policy_ok p) eqn:Ho; cbn [negb].
    + destruct (Z.eqb_spec (p_action p) FSM_ACTION_NONE) as [Ha|Ha]; cbn [negb].
      * apply IH; [by apply record_match_complete|by apply record_match_name|done|set_solver|].
        split; [|done]. exists seen, []. split_and!; try done. set_solver.
      * eexists _, _. split; [done|]. exists seen, (omap id arr).
        rewrite <- app_assoc. split_and!; done.
    + apply IH; try done.
      { intros q [Hq| ->%list_elem_of_singleton]%elem_of_app; [by apply Hseen|congruence]. }
      destruct last as [l|].
      * destruct Hlast as [(l1 & l2 & -> & Hl & H1 & H2) Hla]. split; [|done].
        exists l1, (l2 ++ [p]). split_and!; try done; [by rewrite <- app_assoc|].
        intros _ q [Hq| ->%list_elem_of_singleton]%elem_of_app; [by apply H2|done].
      * intros q [Hq| ->%list_elem_of_singleton]%elem_of_app; [by apply Hlast|done].
  - cbn [omap list_omap id] in *. cbn [policies_loop]. apply IH; done.
Qed.

(** The reply for the selected policy. *)
Lemma apply_setters_plain req p reply :
  plain_policy p -> rp_from_cache reply = false -> rp_categorized reply <> FSM_FQDN_CAT_FAILED ->
  exists reply', apply_setters req p reply = Ok reply' /\
    rp_action reply' = (if p_action p =? FSM_ACTION_NONE then FSM_OBSERVED else p_action p) /\
    rp_log reply' = Z.max (rp_log reply) (p_report_type p) /\
    rp_policy reply' = Some (p_table_name p) /\ rp_policy_idx reply' = p_idx p /\
    rp_rule_name reply' = Some (p_rule_name p).
Proof.
  intros Hp Hf Hcat. unfold apply_setters.
  set (r1 := set_excluded_devices_tag p (set_tag_update p (set_reporting p reply))).
  assert (rp_log r1 = Z.max (rp_log reply) (p_report_type p) /\ rp_from_cache r1 = false /\
    rp_categorized r1 = rp_categorized reply) as (L1 & F1 & C1).
  { assert (rp_log (set_reporting p reply) = Z.max (rp_log reply) (p_report_type p)) as <-
      by (cbn; destruct (Z.ltb_spec (rp_log reply) (p_report_type p)); lia).
    subst r1. unfold set_excluded_devices_tag, set_tag_update.
    repeat case_match; by rewrite <- ?Hf. }
  set (r2 := set_action p r1).
  assert (rp_action r2 = (if p_action p =? FSM_ACTION_NONE then FSM_OBSERVED else p_action p) /\
    rp_log r2 = rp_log r1 /\ rp_categorized r2 = rp_categorized r1) as (A2 & L2 & C2).
  { subst r2. unfold set_action. rewrite (proj2 (Z.eqb_neq _ _) (pl_gk _ Hp)), F1.
    by destruct (p_action p =? FSM_ACTION_NONE). }
  destruct (log_action_ok req r2) as (s & E).
  { by rewrite C2, C1. }
  { rewrite A2. pose proof (pl_action _ Hp). by destruct (_ =? _). }
  fold r1. fold r2. rewrite E. cbind.
  destruct (redirects_ok p (set_policy_record p (with_rp_log_action (Some s) r2))
    (pl_redirects _ Hp)) as (r3 & E3 & A3 & L3 & P3 & I3 & N3).
  exists r3. rewrite E3. cbn in *. split_and!; try done; congruence.
Qed.

End Select.

(** ** Names as documented *)
Section Names.
Variable fnmatch : string -> string -> bool.

(** What [fsm_policy.h] says of the four lookups: an exact match, a match from the
    right, from the left, and of a pattern. *)
Definition name_matches (op : Z) (url e : string) : bool :=
  if op =? FSM_FQDN_OP_WILD then
    (String.length e <=? String.length url)%nat && fsm_policy_wildmatch fnmatch e url
  else if op =? FSM_FQDN_OP_SFR then
    (String.length e <=? String.length url)%nat &&
    String.eqb (str_drop (String.length url - String.length e) url) e
  else if op =? FSM_FQDN_OP_SFL then String.prefix e url
  else String.eqb e url.

Definition name_ok (url : string) (p : fsm_policy) : bool :=
  rule_ok (fqdn_rule_present (p_rules p)) (fqdn_in_policy (fqdn_op (p_rules p)))
    (match fqdns (p_rules p) with
     | Some s => existsb (name_matches (fqdn_lookup_op (fqdn_op (p_rules p))) url) s
     | None => false
     end).

(** Policies on which the code keeps to that: no entry of a set for exact matches is
    a proper prefix of the name, and a set of patterns has one entry. *)
Definition clear_names (url : string) (p : fsm_policy) : Prop :=
  match fqdns (p_rules p) with
  | None => True
  | Some s =>
      let op := fqdn_lookup_op (fqdn_op (p_rules p)) in
      if op =? FSM_FQDN_OP_WILD then (length s <= 1)%nat
      else if (op =? FSM_FQDN_OP_SFR) || (op =? FSM_FQDN_OP_SFL) then True
      else Forall (fun e => String.prefix e url = true -> e = url) s
  end.

Lemma entry_matches_name op url e :
  op <> FSM_FQDN_OP_WILD ->
  (op <> FSM_FQDN_OP_SFR -> op <> FSM_FQDN_OP_SFL -> String.prefix e url = true -> e = url) ->
  fqdn_entry_matches op url e <-> name_matches op url e = true.
Proof.
  intros Hw Hc. unfold fqdn_entry_matches, name_matches. rewrite (proj2 (Z.eqb_neq _ _) Hw).
  destruct (Z.eqb_spec op FSM_FQDN_OP_SFR) as [->|Hr].
  - rewrite andb_true_iff, Nat.leb_le, String.eqb_eq. split.
    + intros [pre ->]. split; [rewrite str_length_app; lia|].
      apply suffix_drop; [rewrite str_length_app; lia|by exists pre].
    + intros [Hl Hd]. by apply suffix_drop.
  - rewrite <- prefix_app. destruct (Z.eqb_spec op FSM_FQDN_OP_SFL) as [->|Hl]; [done|].
    rewrite String.eqb_eq. split; [by apply Hc|]. intros ->. apply prefix_refl.
Qed.

Lemma name_ok_eq url p : clear_names url p -> fqdn_ok fnmatch url p = name_ok url p.
Proof.
  unfold clear_names, fqdn_ok, name_ok. destruct (fqdns (p_rules p)) as [s|]; [|done].
  set (op := fqdn_lookup_op _). intros Hc. f_equal.
  destruct (Z.eqb_spec op FSM_FQDN_OP_WILD) as [Ew|Ew].
  - destruct s as [|e [|]]; [done| |cbn in Hc; lia]. cbn [fqdn_in_list existsb]. unfold name_matches.
    rewrite Ew. destruct (Nat.ltb_spec (String.length url) (String.length e)) as [Hl|Hl].
    + by rewrite (proj2 (Nat.leb_gt _ _)).
    + rewrite (proj2 (Nat.leb_le _ _)) by done. cbn. by rewrite orb_false_r.
  - apply eq_true_iff_eq. rewrite (fqdn_in_list_spec fnmatch url op s Ew), existsb_exists.
    assert (forall e, e ∈ s -> op <> FSM_FQDN_OP_SFR -> op <> FSM_FQDN_OP_SFL ->
      String.prefix e url = true -> e = url) as He.
    { intros e Hin Hr Hl. rewrite (proj2 (Z.eqb_neq _ _) Hr), (proj2 (Z.eqb_neq _ _) Hl) in Hc.
      cbn [orb] in Hc. rewrite Forall_forall in Hc. by apply Hc. }
    split; intros (e & Hin & Hm); exists e; rewrite ?list_elem_of_In in *; (split; [done|]);
      apply (entry_matches_name op url e Ew); try done; apply He; by apply list_elem_of_In.
Qed.
End Names.

(** The policy applies to the device, the name and the address of a request. *)
Definition policy_applies (om_tag_in fnmatch : string -> string -> bool) (mac : list Z) (url : string)
    (version : Z) (p : fsm_policy) : bool :=
  mac_ok om_tag_in mac p && name_ok fnmatch url p && ip_ok version url p.

Lemma selected_ext ok ok' ps p :
  (forall q, q ∈ ps -> ok q = ok' q) -> selected ok ps p -> selected ok' ps p.
Proof.
  intros He (l1 & l2 & -> & Hp & H1 & H2). exists l1, l2. split_and!; [done| | |].
  - rewrite <- He by set_solver. done.
  - intros q Hq Hok. apply H1; [done|]. rewrite He by set_solver. done.
  - intros Ha q Hq. rewrite <- He by set_solver. by apply H2.
Qed.


(** Three policies: an observing one for every device, one that drops a domain
    and one that allows everything. *)
Definition sample_table : list (option fsm_policy) :=
  [None; Some (sample_policy "observe" 1 FSM_ACTION_NONE FSM_REPORT_ALL no_rules); None;
   Some (sample_policy "drop" 3 FSM_BLOCK FSM_REPORT_BLOCKED (fqdn_rules FQDN_OP_SFR_IN ["ads.com"]));
   Some (sample_policy "rest" 4 FSM_ALLOW FSM_REPORT_NONE no_rules)].

Lemma sample_table_plain : Forall plain_policy (omap id sample_table).
Proof.
  repeat (apply Forall_cons; split; [split; try done; apply (bool_decide_unpack _); done|]).
  apply Forall_nil. done.
Qed.

Definition no_provider : providers := mk_providers None None None.


(** The action, the report level and the index of the sample decision. *)
Example sample_decision :
  match fsm_apply_policies (fun _ _ => false) (fun _ _ => false) (fun _ _ _ => None) no_provider
          (Some sample_table) (sample_req "x.ads.com") fsm_policy_initialize_reply with
  | Ok (a, _, r) => (a, rp_log r, rp_policy_idx r)
  | Err _ => (0, 0, 0)
  end = (FSM_BLOCK, FSM_REPORT_BLOCKED, 3).
Proof. reflexivity. Qed.

(** The report level is that of the last match alone, not the highest of
    the policies that apply: here a policy that reports everything matches before
    the one that blocks, and the reply still only reports blocked requests. *)
Theorem report_level_of_last_match_only :
  exists p, p ∈ omap id sample_table /\ p_report_type p = FSM_REPORT_ALL /\
    policy_ok (fun _ _ => false) (fun _ _ => false) [0xaa; 1; 2; 3; 4; 5] "x.ads.com" 4 p = true /\
  exists action req' reply',
    fsm_apply_policies (fun _ _ => false) (fun _ _ => false) (fun _ _ _ => None) no_provider
      (Some sample_table) (sample_req "x.ads.com") fsm_policy_initialize_reply =
    Ok (action, req', reply') /\ rp_log reply' < FSM_REPORT_ALL.
Proof.
  exists (sample_policy "observe" 1 FSM_ACTION_NONE FSM_REPORT_ALL no_rules).
  split; [apply list_elem_of_here|]. split; [done|]. split; [done|].
  eexists _, _, _. split; [reflexivity|]. done.
Qed.

(** ** Categories *)
Lemma bsearch_spec n v arr l u :
  (forall i j a b, (i <= j)%nat -> arr !! i = Some a -> arr !! j = Some b -> a <= b) ->
  (u <= length arr)%nat -> (u - l < n)%nat ->
  bsearch n v arr l u = true <-> exists i, (l <= i < u)%nat /\ arr !! i = Some v.
Proof.
  intros Hs. revert l u. induction n as [|n IH]; intros l u Hu Hn; [lia|]. cbn [bsearch].
  destruct (Nat.ltb_spec l u) as [Hlt|Hge].
  2: { split; [done|]. intros (i & Hi & _). lia. }
  pose proof (Nat.div_mod (l + u) 2 ltac:(lia)) as Hd.
  pose proof (Nat.mod_upper_bound (l + u) 2 ltac:(lia)) as Hm.
  set (idx := ((l + u) / 2)%nat) in *.
  destruct (lookup_lt_is_Some_2 arr idx) as [w Hw]; [lia|].
  rewrite (nth_lookup_Some _ _ 0 w Hw). unfold fsm_cat_cmp.
  destruct (Z.ltb_spec (v - w) 0); [|destruct (Z.ltb_spec 0 (v - w))].
  - rewrite IH by lia. split; intros (i & Hi & Ei); exists i; (split; [|done]); [lia|].
    destruct (Nat.lt_ge_cases i idx); [lia|]. specialize (Hs idx i w v ltac:(lia) Hw Ei). lia.
  - rewrite IH by lia. split; intros (i & Hi & Ei); exists i; (split; [|done]); [lia|].
    destruct (Nat.lt_ge_cases idx i); [lia|]. specialize (Hs i idx v w ltac:(lia) Ei Hw). lia.
  - split; [|done]. intros _. exists idx. split; [lia|]. rewrite Hw. f_equal. lia.
Qed.

Lemma cat_search_elem v p cats :
  categories (p_rules p) = Some cats ->
  (forall i j a b, (i <= j)%nat -> cats !! i = Some a -> cats !! j = Some b -> a <= b) ->
  cat_search v p = bool_decide (v ∈ cats).
Proof.
  intros Hc Hs. unfold cat_search. rewrite Hc. apply eq_true_iff_eq.
  rewrite bool_decide_eq_true, bsearch_spec by (done || lia). rewrite list_elem_of_lookup.
  split; [intros (i & _ & Hi); by exists i|]. intros (i & Hi). exists i. split; [|done].
  pose proof (lookup_lt_Some _ _ _ Hi). lia.
Qed.

(** ** Redirects *)

(** Copying the redirects of a policy into the reply overruns its two
    slots exactly when the policy has more than two; up to two, the reply gets
    each of them (cut to 255 characters), in order. *)
Theorem redirects_fit p reply l :
  p_action p <> FSM_GATEKEEPER_REQ -> p_other_config p = None -> p_redirects p = Some l ->
  length (rp_redirects reply) = 2%nat ->
  if (length l <=? 2)%nat then
    exists reply', set_policy_redirects p reply = Ok reply' /\ rp_redirect reply' = true /\
      rp_rd_ttl reply' = -1 /\
      rp_redirects reply' = map (fun s => strscpy s 256) l ++ drop (length l) (rp_redirects reply)
  else set_policy_redirects p reply = Err FIndex.
Proof.
  intros Ha Ho Hr Hl. unfold set_policy_redirects. rewrite (proj2 (Z.eqb_neq _ _) Ha), Ho, Hr.
  destruct (rp_redirects reply) as [|x [|y [|? ?]]] eqn:E; try done.
  destruct l as [|a [|b [|c l]]]; cbn; rewrite ?E; try (eexists; split; [done|]; cbn; by rewrite ?E).
  done.
Qed.

Lemma redirects_fit_witness :
  exists reply', set_policy_redirects
      (mk_policy "t" 1 "r" no_rules (Some ["A-1.2.3.4"; "4A-::1"]) None None FSM_REDIRECT 0
         false None 0 0 0) fsm_policy_initialize_reply = Ok reply' /\
    rp_redirect reply' = true /\ rp_rd_ttl reply' = -1 /\
    rp_redirects reply' = ["A-1.2.3.4"; "4A-::1"].
Proof.
  apply (redirects_fit (mk_policy "t" 1 "r" no_rules (Some ["A-1.2.3.4"; "4A-::1"]) None None
    FSM_REDIRECT 0 false None 0 0 0) fsm_policy_initialize_reply ["A-1.2.3.4"; "4A-::1"]);
    reflexivity || discriminate.
Defined.
