(* ===== verification/FsmPolicyOvsdb.v ===== *)
(** * FsmPolicyOvsdb: the store of FSM policies

    Models [lib/fsm_policy/src/fsm_policy_ovsdb.c] (translation of the rows of
    the OVSDB table [FSM_Policy] and maintenance of the policy tables),
    [fsm_policy_client.c] (the clients of a table and their notification) and
    the conversions of [lib/ovsdb/src/ovsdb_utils.c] they use.  The manager's
    state is threaded through the operations; the calls into client callbacks
    are recorded as events. *)
From S2P Require Import Prelude CString FsmTypes FsmPolicy.
From stdpp Require Import sorting.
Open Scope Z_scope.

(** ** Rows of [FSM_Policy]; an optional column is an [option] *)
Record schema_FSM_Policy := mk_schema {
  sc_name : string; sc_idx : Z; sc_policy : option string;
  sc_mac_op : option string; sc_macs : list string;
  sc_fqdn_op : option string; sc_fqdns : list string;
  sc_fqdncat_op : option string; sc_fqdncats : list Z;
  sc_risk_op : option string; sc_risk_level : Z;
  sc_ipaddr_op : option string; sc_ipaddrs : list string;
  sc_app_op : option string; sc_apps : list string;
  sc_log : option string; sc_action : option string;
  sc_next : list (string * Z); sc_redirect : list string;
  sc_other_config : list (string * string)
}.

(** ** [ovsdb_utils.c]: from columns to sets and trees *)
Definition schema2str_set (l : list string) : option (list string) :=
  match l with [] => None | _ => Some l end.
Definition schema2int_set (l : list Z) : option (list Z) := Some l.
Definition schema2tree (l : list (string * string)) : option (gmap string string) :=
  match l with [] => None | _ => Some (foldl (fun m kv => <[kv.1 := kv.2]> m) ∅ l) end.

(** The keys of a map column: an array of rows of 64 bytes, each a string in
    zeroed memory.  [key_at keys off] is the C string at byte [off] of it. *)
Definition PJS_OVS_MAP_KEYSZ := 64%nat.
Definition key_at (keys : list string) (off : nat) : string :=
  match keys !! (off / PJS_OVS_MAP_KEYSZ)%nat with
  | Some k => str_drop (off mod PJS_OVS_MAP_KEYSZ) k
  | None => ""
  end.
(** [schema2itree(elem_size, nelems, keys, values)]: the [i]th key is read at
    byte [elem_size * i] of the keys.  Of equal keys the one inserted last
    comes first in the tree. *)
Definition schema2itree (elem_size : nat) (l : list (string * Z)) : option (gmap string Z) :=
  match l with
  | [] => None
  | _ => Some (foldl (fun m kv => <[kv.1 := kv.2]> m) ∅
                 (imap (fun i kv => (key_at l.*1 (elem_size * i), kv.2)) l))
  end.

(** [free_str_tree] on a tree of integers: [free_str_pair] frees the value of
    each pair, an [int] in the place of a pointer, unless it is 0. *)
Fixpoint free_str_tree_ints (values : list Z) : res () :=
  match values with
  | [] => Ok ()
  | v :: values => if v =? 0 then free_str_tree_ints values else Err FDangling
  end.

(** [ds_tree_head] of a tree ordered by [strcmp] *)
Definition tree_head (m : gmap string Z) : option (string * Z) :=
  foldr (fun kv acc =>
    match acc with
    | None => Some kv
    | Some kv' => match String.compare kv.1 kv'.1 with Lt => Some kv | _ => acc end
    end) None (map_to_list m).

(** ** Translation of the rules *)
Definition rules_zero : fsm_policy_rules :=
  mk_rules false 0 None false 0 None false 0 None false 0 0 false 0 None false 0 None.

(** The operation a string names, by a sequence of [strcmp]: the last one wins. *)
Definition op_of (names : list (string * Z)) (s : string) : Z :=
  foldl (fun op nv => if String.eqb s nv.1 then nv.2 else op) (-1) names.

Definition fsm_check_conversion {A} (converted : option A) (len : nat) : bool :=
  match len, converted with O, _ => true | _, None => false | _, Some _ => true end.

Definition fsm_set_mac_rules (rules : fsm_policy_rules) (sp : schema_FSM_Policy)
    : bool * fsm_policy_rules :=
  match sc_mac_op sp with
  | None => (true, with_mac_rule false (mac_op rules) (macs rules) rules)
  | Some s =>
      let op := op_of [("in", MAC_OP_IN); ("out", MAC_OP_OUT)] s in
      if op =? -1 then (false, with_mac_rule true op (macs rules) rules) else
      let set := schema2str_set (sc_macs sp) in
      (fsm_check_conversion set (length (sc_macs sp)), with_mac_rule true op set rules)
  end.

Definition fqdn_op_names : list (string * Z) :=
  [("in", FQDN_OP_IN); ("out", FQDN_OP_OUT); ("sfr_in", FQDN_OP_SFR_IN);
   ("sfr_out", FQDN_OP_SFR_OUT); ("sfl_in", FQDN_OP_SFL_IN); ("sfl_out", FQDN_OP_SFL_OUT);
   ("wild_in", FQDN_OP_WILD_IN); ("wild_out", FQDN_OP_WILD_OUT)].

Definition fsm_set_fqdn_rules (rules : fsm_policy_rules) (sp : schema_FSM_Policy)
    : bool * fsm_policy_rules :=
  match sc_fqdn_op sp with
  | None => (true, with_fqdn_rule false (fqdn_op rules) (fqdns rules) rules)
  | Some s =>
      let op := op_of fqdn_op_names s in
      if op =? -1 then (false, with_fqdn_rule true op (fqdns rules) rules) else
      let set := schema2str_set (sc_fqdns sp) in
      (fsm_check_conversion set (length (sc_fqdns sp)), with_fqdn_rule true op set rules)
  end.

Definition fsm_set_cats_rules (rules : fsm_policy_rules) (sp : schema_FSM_Policy)
    : bool * fsm_policy_rules :=
  match sc_fqdncat_op sp with
  | None => (true, with_cat_rule false (cat_op rules) (categories rules) rules)
  | Some s =>
      let op := op_of [("in", CAT_OP_IN); ("out", CAT_OP_OUT)] s in
      if op =? -1 then (false, with_cat_rule true op (categories rules) rules) else
      let set := schema2int_set (sc_fqdncats sp) in
      (fsm_check_conversion set (length (sc_fqdncats sp)), with_cat_rule true op set rules)
  end.

Definition risk_op_names : list (string * Z) :=
  [("eq", RISK_OP_EQ); ("neq", RISK_OP_NEQ); ("gt", RISK_OP_GT); ("lt", RISK_OP_LT);
   ("gte", RISK_OP_GTE); ("lte", RISK_OP_LTE)].

Definition fsm_set_risk_level_rules (rules : fsm_policy_rules) (sp : schema_FSM_Policy)
    : bool * fsm_policy_rules :=
  match sc_risk_op sp with
  | None => (true, with_risk_rule false (risk_op rules) (-1) rules)
  | Some s =>
      let op := op_of risk_op_names s in
      if op =? -1 then (false, with_risk_rule true op (-1) rules)
      else (true, with_risk_rule true op (sc_risk_level sp) rules)
  end.

Definition fsm_set_ip_rules (rules : fsm_policy_rules) (sp : schema_FSM_Policy)
    : bool * fsm_policy_rules :=
  match sc_ipaddr_op sp with
  | None => (true, with_ip_rule false (ip_op rules) (ipaddrs rules) rules)
  | Some s =>
      let op := op_of [("in", IP_OP_IN); ("out", IP_OP_OUT)] s in
      if op =? -1 then (false, with_ip_rule true op (ipaddrs rules) rules) else
      let set := schema2str_set (sc_ipaddrs sp) in
      (fsm_check_conversion set (length (sc_ipaddrs sp)), with_ip_rule true op set rules)
  end.

Definition fsm_set_app_rules (rules : fsm_policy_rules) (sp : schema_FSM_Policy)
    : bool * fsm_policy_rules :=
  match sc_app_op sp with
  | None => (true, with_app_rule false (app_op rules) (apps rules) rules)
  | Some s =>
      let op := op_of [("in", APP_OP_IN); ("out", APP_OP_OUT)] s in
      if op =? -1 then (false, with_app_rule true op (apps rules) rules) else
      let set := schema2str_set (sc_apps sp) in
      (fsm_check_conversion set (length (sc_apps sp)), with_app_rule true op set rules)
  end.

(** [fsm_free_rules]; the pointers to the freed sets are dead afterwards. *)
Definition fsm_free_rules : fsm_policy_rules :=
  mk_rules false (-1) None false (-1) None false (-1) None false (-1) (-1) false (-1) None
    false (-1) None.

Definition fsm_set_rules (rules : fsm_policy_rules) (sp : schema_FSM_Policy)
    : bool * fsm_policy_rules :=
  let '(ret, rules) := fsm_set_mac_rules rules sp in
  if negb ret then (false, fsm_free_rules) else
  let '(ret, rules) := fsm_set_fqdn_rules rules sp in
  if negb ret then (false, fsm_free_rules) else
  let '(ret, rules) := fsm_set_cats_rules rules sp in
  if negb ret then (false, fsm_free_rules) else
  let '(ret, rules) := fsm_set_risk_level_rules rules sp in
  if negb ret then (false, fsm_free_rules) else
  let '(ret, rules) := fsm_set_ip_rules rules sp in
  if negb ret then (false, fsm_free_rules) else
  let '(ret, rules) := fsm_set_app_rules rules sp in
  if negb ret then (false, fsm_free_rules) else (true, rules).

Definition fsm_policy_set_action (p : fsm_policy) (sp : schema_FSM_Policy) : fsm_policy :=
  match sc_action sp with
  | None => with_p_action FSM_ACTION_NONE p
  | Some s =>
      if String.eqb s "allow" then with_p_action FSM_ALLOW p
      else if String.eqb s "drop" then with_p_action FSM_BLOCK p
      else if String.eqb s "update_tag" then with_p_action FSM_UPDATE_TAG p
      else if String.eqb s "gatekeeper" then with_p_action FSM_GATEKEEPER_REQ p
      else if String.eqb s "flush" then with_p_action FSM_FLUSH_CACHE p
      else if String.eqb s "flush_all" then with_p_action FSM_FLUSH_ALL_CACHE p
      else with_p_action FSM_ACTION_NONE p
  end.

Definition fsm_policy_set_log (p : fsm_policy) (sp : schema_FSM_Policy) : fsm_policy :=
  match sc_log sp with
  | None => with_p_report_type FSM_REPORT_NONE p
  | Some s =>
      if String.eqb s "none" then with_p_report_type FSM_REPORT_NONE p
      else if String.eqb s "all" then with_p_report_type FSM_REPORT_ALL p
      else if String.eqb s "blocked" then with_p_report_type FSM_REPORT_BLOCKED p
      else p
  end.

(** [qsort] with [fsm_cat_cmp]: for integers, the sorted permutation. *)
Definition fsm_policy_sort_cats (p : fsm_policy) : fsm_policy :=
  match categories (p_rules p) with
  | None => p
  | Some cats =>
      let r := p_rules p in
      with_p_rules (with_cat_rule (cat_rule_present r) (cat_op r)
        (Some (merge_sort Z.le cats)) r) p
  end.

(** [fsm_redirects_fqdn_to_ip] is compiled out. *)
Definition fsm_prepare_policy (p : fsm_policy) : fsm_policy := fsm_policy_sort_cats p.

(** ** The manager *)
Record policy_table := mk_table {
  pt_name : string; pt_policies : gset Z; pt_lookup : list (option fsm_policy)
}.

(** [struct fsm_policy_client]; the session is an address (0 for NULL), the
    table pointer the name of the table, a callback is set or not. *)
Record fsm_policy_client := mk_client {
  cl_session : Z; cl_name : option string; cl_table : option string;
  cl_update : bool; cl_flush : bool
}.

(** Calls of client callbacks, and of [dns_cache_cleanup]. *)
Inductive event :=
| EvUpdate (session : Z) (table : string)
| EvFlush (session : Z) (p : fsm_policy)
| EvCleanup.

Record fsm_policy_session := mk_mgr {
  m_initialized : bool; m_tables : gmap string policy_table;
  m_clients : list fsm_policy_client; m_events : list event
}.

Definition mgr_zero : fsm_policy_session := mk_mgr false ∅ [] [].
Definition with_tables v m := mk_mgr (m_initialized m) v (m_clients m) (m_events m).
Definition with_clients v m := mk_mgr (m_initialized m) (m_tables m) v (m_events m).
Definition add_events v m := mk_mgr (m_initialized m) (m_tables m) (m_clients m) (m_events m ++ v).

(** [fsm_init_manager], with [fsm_policy_client_init] *)
Definition fsm_init_manager (m : fsm_policy_session) : fsm_policy_session :=
  if m_initialized m then m else mk_mgr true ∅ [] (m_events m).

Definition POLICY_NAME_SIZE := 32%nat.

(** [ds_tree_find(&mgr->policy_tables, name)]: the stored names have at most 31
    characters and [table_name_cmp] compares 32, so a longer name is not found. *)
Definition fsm_policy_find_table (m : fsm_policy_session) (name : string) : option policy_table :=
  if (String.length name <? POLICY_NAME_SIZE)%nat then m_tables m !! name else None.

Definition table_new (name : string) : policy_table :=
  mk_table name ∅ (replicate (Z.to_nat FSM_MAX_POLICIES) None).

(** Creation of a table under its (cut) name.  With a long name whose first 31
    characters are the name of a table, the tree would hold two tables under one
    key: the model stops there. *)
Definition create_table (m : fsm_policy_session) (name : string)
    : res (string * fsm_policy_session) :=
  let name := strscpy name POLICY_NAME_SIZE in
  match m_tables m !! name with
  | Some _ => Err FModel
  | None => Ok (name, with_tables (<[name := table_new name]> (m_tables m)) m)
  end.

Definition find_or_create_table (m : fsm_policy_session) (name : string)
    : res (string * fsm_policy_session) :=
  match fsm_policy_find_table m name with
  | Some t => Ok (pt_name t, m)
  | None => create_table m name
  end.

Definition fsm_policy_set_next (m : fsm_policy_session) (p : fsm_policy)
    : res (fsm_policy * fsm_policy_session) :=
  let p := with_p_jump_table false p in
  match p_next_tree p with
  | None => Ok (p, m)
  | Some tree =>
      '(key, value) ← deref (tree_head tree);
      let p := with_p_jump_table true
                 (with_p_next_table_index value (with_p_next_table (Some key) p)) in
      '(_, m) ← find_or_create_table m key;
      Ok (p, m)
  end.

(** [table->lookup_array[idx]]; the index is a [size_t] or an [int]. *)
Definition lookup_at (t : policy_table) (idx : Z) : res (option fsm_policy) :=
  if (0 <=? idx) && (idx <? FSM_MAX_POLICIES)
  then match pt_lookup t !! Z.to_nat idx with Some o => Ok o | None => Err FIndex end
  else Err FIndex.

Fixpoint prev_loop (n : nat) (t : policy_table) (idx : Z) : res Z :=
  match n with
  | O => Err FFuel
  | S n' =>
      if idx =? 0 then Ok idx else
      o ← lookup_at t idx;
      match o with Some _ => prev_loop n' t (idx - 1) | None => Ok idx end
  end.

(** At most 60 slots are walked. *)
Definition fsm_policy_get_prev (t : policy_table) (p : fsm_policy) : res fsm_policy :=
  idx ← prev_loop 61 t (u64 (p_idx p - 1));
  Ok (with_p_lookup_prev idx p).

Fixpoint next_loop (n : nat) (t : policy_table) (idx : Z) : res Z :=
  match n with
  | O => Err FFuel
  | S n' =>
      if negb (idx <? FSM_MAX_POLICIES) then Ok idx else
      o ← lookup_at t idx;
      match o with Some _ => next_loop n' t (idx + 1) | None => Ok idx end
  end.

(** The index found is stored in [lookup_prev], as the code does. *)
Definition fsm_policy_get_next (t : policy_table) (p : fsm_policy) : res fsm_policy :=
  let p := with_p_lookup_next FSM_MAX_POLICIES p in
  idx ← next_loop 61 t (p_idx p + 1);
  Ok (with_p_lookup_prev idx p).

(** [table->lookup_array[idx] = o] *)
Definition set_lookup (t : policy_table) (idx : Z) (o : option fsm_policy) : policy_table :=
  mk_table (pt_name t) (pt_policies t) (<[Z.to_nat idx := o]> (pt_lookup t)).

Definition policy_zero (table_name : string) (idx : Z) (rule_name : string) : fsm_policy :=
  mk_policy table_name idx rule_name rules_zero None None None 0 0 false None 0 0 0.

(** [sizeof(spolicy->next[0])], the size of a value and not of a key. *)
Definition sizeof_next := 4%nat.

(** [fsm_policy_insert_schema_p]: NULL ([None]) when a rule is not understood;
    the error path then frees the tree [next] as a tree of strings. *)
Definition fsm_policy_insert_schema_p (m : fsm_policy_session) (tname : string)
    (sp : schema_FSM_Policy) : res (option fsm_policy * fsm_policy_session) :=
  let p := policy_zero tname (sc_idx sp) (sc_name sp) in
  let p := with_p_redirects (schema2str_set (sc_redirect sp)) p in
  let p := with_p_next_tree (schema2itree sizeof_next (sc_next sp)) p in
  '(p, m) ← fsm_policy_set_next m p;
  let p := with_p_other_config (schema2tree (sc_other_config sp)) p in
  let p := fsm_policy_set_log (fsm_policy_set_action p sp) sp in
  let '(ret, rules) := fsm_set_rules (p_rules p) sp in
  if negb ret then _ ← free_str_tree_ints (sc_next sp).*2; Ok (None, m) else
  let p := with_p_rules rules p in
  t ← deref (m_tables m !! tname);
  let t := set_lookup t (p_idx p) (Some p) in
  p ← fsm_policy_get_prev t p;
  p ← fsm_policy_get_next t p;
  let t := set_lookup t (p_idx p) (Some p) in
  let t := mk_table (pt_name t) ({[p_idx p]} ∪ pt_policies t) (pt_lookup t) in
  Ok (Some p, with_tables (<[tname := t]> (m_tables m)) m).

(** ** Clients *)
Definition default_name : string := "default".
Definition client_name (c : fsm_policy_client) : string := default default_name (cl_name c).

Definition client_cmp (a b : fsm_policy_client) : comparison :=
  match cl_session a ?= cl_session b with
  | Eq => String.compare (client_name a) (client_name b)
  | c => c
  end.

Definition client_eqb (a b : fsm_policy_client) : bool :=
  match client_cmp a b with Eq => true | _ => false end.

Definition find_client (cs : list fsm_policy_client) (c : fsm_policy_client)
    : option fsm_policy_client :=
  snd <$> list_find (fun x => client_eqb x c = true) cs.

(** Insertion in the order of [client_cmp]. *)
Fixpoint insert_client (c : fsm_policy_client) (cs : list fsm_policy_client)
    : list fsm_policy_client :=
  match cs with
  | [] => [c]
  | x :: cs' => match client_cmp x c with Lt => x :: insert_client c cs' | _ => c :: x :: cs' end
  end.

(** [fsm_policy_register_client]: the caller's client with its table, and the
    manager. *)
Definition fsm_policy_register_client (m : fsm_policy_session) (c : fsm_policy_client)
    : fsm_policy_client * fsm_policy_session :=
  if cl_session c =? 0 then (c, m) else
  match find_client (m_clients m) c with
  | Some p =>
      let p' := mk_client (cl_session p) (cl_name p) (cl_table p) (cl_update c) (cl_flush c) in
      (mk_client (cl_session c) (cl_name c) (cl_table p) (cl_update c) (cl_flush c),
       with_clients (map (fun x => if client_eqb x c then p' else x) (m_clients m)) m)
  | None =>
      let table := pt_name <$> fsm_policy_find_table m (client_name c) in
      let p := mk_client (cl_session c) (Some (client_name c)) table (cl_update c) (cl_flush c) in
      (mk_client (cl_session c) (cl_name c) table (cl_update c) (cl_flush c),
       with_clients (insert_client p (m_clients m)) m)
  end.

Definition fsm_policy_deregister_client (m : fsm_policy_session) (c : fsm_policy_client)
    : fsm_policy_client * fsm_policy_session :=
  if cl_session c =? 0 then (c, m) else
  match find_client (m_clients m) c with
  | None => (c, m)
  | Some _ =>
      (mk_client 0 None None (cl_update c) (cl_flush c),
       with_clients (filter (fun x => client_eqb x c = false) (m_clients m)) m)
  end.

(** [client->update_client] is called for the clients of the table. *)
Definition client_updated (tname : string) (c : fsm_policy_client) : bool :=
  String.eqb (client_name c) tname && cl_update c.

Definition fsm_policy_update_clients (m : fsm_policy_session) (tname : string)
    : fsm_policy_session :=
  let upd c := if client_updated tname c
               then mk_client (cl_session c) (cl_name c) (Some tname) (cl_update c) (cl_flush c)
               else c in
  add_events
    (omap (fun c => if client_updated tname c then Some (EvUpdate (cl_session c) tname) else None)
       (m_clients m))
    (with_clients (map upd (m_clients m)) m).

Definition fsm_policy_flush_cache (m : fsm_policy_session) (p : fsm_policy) : fsm_policy_session :=
  add_events (omap (fun c => if cl_flush c then Some (EvFlush (cl_session c) p) else None)
                (m_clients m)) m.

(** ** Adding, deleting and updating policies *)
Definition policy_of (sp : schema_FSM_Policy) : string := default default_name (sc_policy sp).

Definition fsm_policy_lookup (m : fsm_policy_session) (sp : schema_FSM_Policy)
    : res (option fsm_policy) :=
  match fsm_policy_find_table m (policy_of sp) with
  | None => Ok None
  | Some t => lookup_at t (sc_idx sp)
  end.

(** [fsm_policy_request_flush]: translate the row and broadcast it. *)
Definition fsm_policy_request_flush (m : fsm_policy_session) (sp : schema_FSM_Policy)
    : fsm_policy_session :=
  let p := policy_zero "" (sc_idx sp) (sc_name sp) in
  let p := with_p_other_config (schema2tree (sc_other_config sp)) p in
  let p := fsm_policy_set_log (fsm_policy_set_action p sp) sp in
  let '(ret, rules) := fsm_set_rules (p_rules p) sp in
  if negb ret then m else fsm_policy_flush_cache m (with_p_rules rules p).

Definition fsm_policy_is_flush_request (sp : schema_FSM_Policy) : bool :=
  match sc_action sp with
  | None => false
  | Some s => String.eqb s "flush" || String.eqb s "flush_all"
  end.

Definition fsm_policy_get (m : fsm_policy_session) (sp : schema_FSM_Policy)
    : res (option fsm_policy * fsm_policy_session) :=
  '(tname, m) ← find_or_create_table m (policy_of sp);
  t ← deref (m_tables m !! tname);
  o ← lookup_at t (sc_idx sp);
  '(o, m) ← match o with
            | Some p => Ok (Some p, m)
            | None => fsm_policy_insert_schema_p m tname sp
            end;
  Ok (o, fsm_policy_update_clients m tname).

(** The in-place change of a stored policy. *)
Definition store_policy (m : fsm_policy_session) (p : fsm_policy) : fsm_policy_session :=
  match m_tables m !! p_table_name p with
  | None => m
  | Some t => with_tables (<[p_table_name p := set_lookup t (p_idx p) (Some p)]> (m_tables m)) m
  end.

Definition fsm_add_policy (m : fsm_policy_session) (sp : schema_FSM_Policy)
    : res fsm_policy_session :=
  let idx := sc_idx sp in
  if (idx <? 0) || (FSM_MAX_POLICIES <=? idx) then Ok m else
  if fsm_policy_is_flush_request sp then Ok (fsm_policy_request_flush m sp) else
  '(o, m) ← fsm_policy_get m sp;
  match o with
  | None => Ok m
  | Some p => Ok (store_policy m (fsm_prepare_policy p))
  end.

Definition fsm_free_policy (m : fsm_policy_session) (p : fsm_policy) : res fsm_policy_session :=
  t ← deref (m_tables m !! p_table_name p);
  let t := set_lookup t (p_idx p) None in
  let t := mk_table (pt_name t) (pt_policies t ∖ {[p_idx p]}) (pt_lookup t) in
  Ok (with_tables (<[p_table_name p := t]> (m_tables m)) m).

(** No check of the index here. *)
Definition fsm_delete_policy (m : fsm_policy_session) (sp : schema_FSM_Policy)
    : res fsm_policy_session :=
  o ← fsm_policy_lookup m sp;
  match o with None => Ok m | Some p => fsm_free_policy m p end.

Definition fsm_update_policy (m : fsm_policy_session) (sp : schema_FSM_Policy)
    : res fsm_policy_session :=
  let idx := sc_idx sp in
  if (idx <? 0) || (FSM_MAX_POLICIES <=? idx) then Ok m else
  m ← fsm_delete_policy m sp;
  fsm_add_policy m sp.

Inductive mon_type := OVSDB_UPDATE_NEW | OVSDB_UPDATE_DEL | OVSDB_UPDATE_MODIFY.

Definition callback_FSM_Policy (m : fsm_policy_session) (mon : mon_type)
    (old_rec sp : schema_FSM_Policy) : res fsm_policy_session :=
  m ← match mon with
      | OVSDB_UPDATE_NEW => fsm_add_policy m sp
      | OVSDB_UPDATE_DEL => fsm_delete_policy m old_rec
      | OVSDB_UPDATE_MODIFY => fsm_update_policy m sp
      end;
  Ok (add_events [EvCleanup] m).

(** ** The invariant of the store *)
Record table_wf (key : string) (t : policy_table) : Prop := {
  tw_name : pt_name t = key;
  tw_short : (String.length key < POLICY_NAME_SIZE)%nat;
  tw_len : length (pt_lookup t) = Z.to_nat FSM_MAX_POLICIES;
  tw_slot : forall i p, pt_lookup t !! i = Some (Some p) ->
    p_idx p = Z.of_nat i /\ p_table_name p = key;
  tw_tree : forall z, z ∈ pt_policies t <->
    0 <= z /\ exists p, pt_lookup t !! Z.to_nat z = Some (Some p)
}.

Definition mgr_wf (m : fsm_policy_session) : Prop := map_Forall table_wf (m_tables m).

(** The policy in a slot of a table. *)
Definition view (m : fsm_policy_session) (tname : string) (idx : Z) : option fsm_policy :=
  t ← m_tables m !! tname; mjoin (pt_lookup t !! Z.to_nat idx).

Definition slot_ok (idx : Z) : Prop := 0 <= idx < FSM_MAX_POLICIES.

Definition full_len (t : policy_table) : Prop :=
  length (pt_lookup t) = Z.to_nat FSM_MAX_POLICIES.

Lemma lookup_at_ok t idx :
  full_len t -> slot_ok idx -> lookup_at t idx = Ok (mjoin (pt_lookup t !! Z.to_nat idx)).
Proof.
  intros W Hi. unfold lookup_at, slot_ok in *.
  rewrite (proj2 (Z.leb_le 0 idx)), (proj2 (Z.ltb_lt idx _)) by lia. cbn [andb].
  destruct (lookup_lt_is_Some_2 (pt_lookup t) (Z.to_nat idx)) as [o ->]; [|done].
  rewrite W. unfold FSM_MAX_POLICIES in *. lia.
Qed.

Lemma table_new_wf name :
  (String.length name < POLICY_NAME_SIZE)%nat -> table_wf name (table_new name).
Proof.
  intros Hn. split; cbn [pt_name pt_lookup pt_policies table_new]; try done.
  - intros i p [Hc _]%lookup_replicate. done.
  - intros z. split; [set_solver|]. intros (_ & p & [Hc _]%lookup_replicate). done.
Qed.

Lemma strscpy_short s : (String.length s < POLICY_NAME_SIZE)%nat -> strscpy s POLICY_NAME_SIZE = s.
Proof.
  unfold strscpy, POLICY_NAME_SIZE. intros Hs. assert (String.length s <= 31)%nat as H by lia.
  cbn [Nat.sub]. revert H. generalize 31%nat. clear Hs. induction s as [|c s IH]; intros [|n] H;
    try done; [cbn in H; lia|]. cbn. f_equal. apply IH. cbn in H. lia.
Qed.

(** Storing or clearing a slot keeps a table well formed. *)
Lemma set_slot_wf key t idx p :
  table_wf key t -> slot_ok idx -> p_idx p = idx -> p_table_name p = key ->
  table_wf key (mk_table (pt_name t) ({[idx]} ∪ pt_policies t)
                  (<[Z.to_nat idx := Some p]> (pt_lookup t))).
Proof.
  intros [W1 W2 W3 W4 W5] Hi Hp Ht. unfold slot_ok, FSM_MAX_POLICIES in *.
  split; cbn; [done|done|by rewrite length_insert| |].
  - intros i q Hq. destruct (decide (i = Z.to_nat idx)) as [->|Hne].
    + rewrite list_lookup_insert_eq in Hq by lia. injection Hq as <-. split; [lia|done].
    + rewrite list_lookup_insert_ne in Hq by done. by apply W4.
  - intros z. rewrite elem_of_union, elem_of_singleton, W5.
    destruct (decide (z = idx)) as [->|Hne].
    + rewrite list_lookup_insert_eq by lia. split; [|auto]. intros _. split; [lia|by exists p].
    + split.
      * intros [?|(Hz & q & Hq)]; [done|]. split; [done|].
        rewrite list_lookup_insert_ne by lia. by exists q.
      * intros (Hz & q & Hq). right. split; [done|].
        rewrite list_lookup_insert_ne in Hq by lia. by exists q.
Qed.

Lemma clear_slot_wf key t idx :
  table_wf key t -> slot_ok idx ->
  table_wf key (mk_table (pt_name t) (pt_policies t ∖ {[idx]})
                  (<[Z.to_nat idx := None]> (pt_lookup t))).
Proof.
  intros [W1 W2 W3 W4 W5] Hi. unfold slot_ok, FSM_MAX_POLICIES in *.
  split; cbn; [done|done|by rewrite length_insert| |].
  - intros i q Hq. destruct (decide (i = Z.to_nat idx)) as [->|Hne].
    + rewrite list_lookup_insert_eq in Hq by lia. done.
    + rewrite list_lookup_insert_ne in Hq by done. by apply W4.
  - intros z. rewrite elem_of_difference, elem_of_singleton, W5.
    destruct (decide (z = idx)) as [->|Hne].
    + rewrite list_lookup_insert_eq by lia. split; [intros [_ ?]; done|]. intros (_ & q & [=]).
    + split.
      * intros [(Hz & q & Hq) _]. split; [done|]. rewrite list_lookup_insert_ne by lia. by exists q.
      * intros (Hz & q & Hq). split; [|done]. split; [done|].
        rewrite list_lookup_insert_ne in Hq by lia. by exists q.
Qed.

(** Slots of a manager after one slot of one table was set. *)
Lemma view_set m key t idx o pol tn i :
  m_tables m !! key = Some t -> (Z.to_nat idx < length (pt_lookup t))%nat -> 0 <= i -> 0 <= idx ->
  view (with_tables (<[key := mk_table (pt_name t) pol (<[Z.to_nat idx := o]> (pt_lookup t))]>
         (m_tables m)) m) tn i =
  if decide (tn = key /\ i = idx) then o else view m tn i.
Proof.
  intros Hk Hl Hi Hx. unfold view. cbn [m_tables with_tables].
  destruct (decide (tn = key)) as [->|Hne].
  - rewrite lookup_insert_eq, Hk. cbn [pt_lookup mbind option_bind].
    destruct (decide (i = idx)) as [->|Hni].
    + rewrite decide_True by done. by rewrite list_lookup_insert_eq.
    + rewrite decide_False by tauto. by rewrite list_lookup_insert_ne by lia.
  - rewrite lookup_insert_ne by done. rewrite decide_False by tauto. done.
Qed.

(** The walks over the lookup array end. *)
Lemma prev_loop_ok t n idx :
  full_len t -> slot_ok idx -> idx < Z.of_nat n ->
  exists j, prev_loop n t idx = Ok j /\ 0 <= j <= idx.
Proof.
  intros W. revert idx. induction n as [|n IH]; intros idx Hi Hn; [unfold slot_ok in Hi; lia|].
  cbn [prev_loop]. destruct (Z.eqb_spec idx 0); [exists idx; split; [done|lia]|].
  rewrite (lookup_at_ok t idx W Hi). cbind. unfold slot_ok in *.
  destruct (mjoin _); [|exists idx; split; [done|lia]].
  destruct (IH (idx - 1)) as (j & E & Hj); [lia|lia|]. exists j. split; [done|lia].
Qed.

Lemma next_loop_ok t n idx :
  full_len t -> 0 <= idx <= FSM_MAX_POLICIES -> FSM_MAX_POLICIES - idx < Z.of_nat n ->
  exists j, next_loop n t idx = Ok j /\ idx <= j <= FSM_MAX_POLICIES.
Proof.
  intros W. revert idx. induction n as [|n IH]; intros idx Hi Hn; [lia|].
  cbn [next_loop]. destruct (Z.ltb_spec idx FSM_MAX_POLICIES); cbn [negb];
    [|exists idx; split; [done|lia]].
  rewrite (lookup_at_ok t idx W) by (unfold slot_ok; lia). cbind.
  destruct (mjoin _); [|exists idx; split; [done|lia]].
  destruct (IH (idx + 1)) as (j & E & Hj); [lia|lia|]. exists j. split; [done|lia].
Qed.

(** ** Which rows are accepted *)
Definition in_out : list string := ["in"; "out"].

(** An operation column is understood: absent or one of the names. *)
Definition op_known (names : list string) (op : option string) : bool :=
  match op with None => true | Some s => bool_decide (s ∈ names) end.

Lemma op_of_known names s :
  Forall (fun nv => nv.2 <> -1) names -> (op_of names s =? -1) = negb (bool_decide (s ∈ names.*1)).
Proof.
  intros Hn. unfold op_of. induction names as [|[n v] names IH] using rev_ind; [done|].
  apply Forall_app in Hn as [Hn Hv]. rewrite foldl_app, fmap_app. cbn.
  destruct (String.eqb_spec s n) as [->|Hne].
  - rewrite bool_decide_true by set_solver. apply Z.eqb_neq. by inversion Hv.
  - rewrite IH by done. f_equal. apply bool_decide_ext. set_solver.
Qed.

Lemma str_set_converts l : fsm_check_conversion (schema2str_set l) (length l) = true.
Proof. by destruct l. Qed.

Lemma int_set_converts l : fsm_check_conversion (schema2int_set l) (length l) = true.
Proof. by destruct l. Qed.

(** One column: [solve_op] reduces its translation to the test of the name. *)
Ltac solve_op f op :=
  unfold f, op_known; destruct op; [|done];
  rewrite op_of_known by (repeat constructor; discriminate);
  rewrite ?str_set_converts, ?int_set_converts; cbn [fst fmap list_fmap in_out];
  by destruct (bool_decide _).

Lemma set_mac_fst r sp : (fsm_set_mac_rules r sp).1 = op_known in_out (sc_mac_op sp).
Proof. solve_op fsm_set_mac_rules (sc_mac_op sp). Qed.
Lemma set_fqdn_fst r sp : (fsm_set_fqdn_rules r sp).1 = op_known fqdn_op_names.*1 (sc_fqdn_op sp).
Proof. solve_op fsm_set_fqdn_rules (sc_fqdn_op sp). Qed.
Lemma set_cats_fst r sp : (fsm_set_cats_rules r sp).1 = op_known in_out (sc_fqdncat_op sp).
Proof. solve_op fsm_set_cats_rules (sc_fqdncat_op sp). Qed.
Lemma set_risk_fst r sp : (fsm_set_risk_level_rules r sp).1 = op_known risk_op_names.*1 (sc_risk_op sp).
Proof. solve_op fsm_set_risk_level_rules (sc_risk_op sp). Qed.
Lemma set_ip_fst r sp : (fsm_set_ip_rules r sp).1 = op_known in_out (sc_ipaddr_op sp).
Proof. solve_op fsm_set_ip_rules (sc_ipaddr_op sp). Qed.
Lemma set_app_fst r sp : (fsm_set_app_rules r sp).1 = op_known in_out (sc_app_op sp).
Proof. solve_op fsm_set_app_rules (sc_app_op sp). Qed.

(** The six columns name known operations. *)
Definition row_understood (sp : schema_FSM_Policy) : bool :=
  op_known in_out (sc_mac_op sp) && op_known fqdn_op_names.*1 (sc_fqdn_op sp) &&
  op_known in_out (sc_fqdncat_op sp) && op_known risk_op_names.*1 (sc_risk_op sp) &&
  op_known in_out (sc_ipaddr_op sp) && op_known in_out (sc_app_op sp).

Lemma set_rules_fst r sp : (fsm_set_rules r sp).1 = row_understood sp.
Proof.
  unfold fsm_set_rules, row_understood.
  rewrite <- (set_mac_fst r). destruct (fsm_set_mac_rules r sp) as [[] r1]; [|done]. cbn [fst negb andb].
  rewrite <- (set_fqdn_fst r1). destruct (fsm_set_fqdn_rules r1 sp) as [[] r2]; [|done].
  cbn [fst negb andb].
  rewrite <- (set_cats_fst r2). destruct (fsm_set_cats_rules r2 sp) as [[] r3]; [|done].
  cbn [fst negb andb].
  rewrite <- (set_risk_fst r3). destruct (fsm_set_risk_level_rules r3 sp) as [[] r4]; [|done].
  cbn [fst negb andb].
  rewrite <- (set_ip_fst r4). destruct (fsm_set_ip_rules r4 sp) as [[] r5]; [|done].
  cbn [fst negb andb].
  rewrite <- (set_app_fst r5). by destruct (fsm_set_app_rules r5 sp) as [[] r6].
Qed.

(** ** Tables *)
Definition short (s : string) : Prop := (String.length s < POLICY_NAME_SIZE)%nat.

(** A row in a slot other than 0 whose names fit the table's name field, with at
    most one [next] entry; a row with an operation that is not understood has no
    [next] entry other than 0. *)
Record row_ok (sp : schema_FSM_Policy) : Prop := {
  ro_policy : short (policy_of sp);
  ro_next : Forall (fun kv => short kv.1) (sc_next sp);
  ro_one : (length (sc_next sp) <= 1)%nat;
  ro_free : row_understood sp = true \/ Forall (fun kv => kv.2 = 0) (sc_next sp);
  ro_idx : 1 <= sc_idx sp < FSM_MAX_POLICIES
}.

Lemma find_or_create_ok m name :
  mgr_wf m -> short name -> exists m', find_or_create_table m name = Ok (name, m') /\ mgr_wf m' /\
    is_Some (m_tables m' !! name) /\ m_clients m' = m_clients m /\ m_events m' = m_events m /\
    (forall tn i, view m' tn i = view m tn i) /\
    (forall tn, is_Some (m_tables m !! tn) -> is_Some (m_tables m' !! tn)).
Proof.
  intros W Hn. unfold find_or_create_table, fsm_policy_find_table.
  rewrite (proj2 (Nat.ltb_lt _ _) Hn). destruct (m_tables m !! name) as [t|] eqn:Et.
  - exists m. rewrite (tw_name _ _ (W _ _ Et)), Et. split_and!; done.
  - unfold create_table. rewrite (strscpy_short name Hn), Et. eexists. split; [done|].
    cbn [m_tables with_tables]. split_and!; try done.
    + apply map_Forall_insert_2; [by apply table_new_wf|done].
    + rewrite lookup_insert_eq. by eexists.
    + intros tn i. unfold view. cbn [m_tables with_tables].
      destruct (decide (tn = name)) as [->|Hne]; [|by rewrite lookup_insert_ne].
      rewrite lookup_insert_eq, Et. cbn.
      destruct (replicate _ _ !! _) as [o|] eqn:Eo; [|done].
      apply lookup_replicate in Eo as [-> _]. done.
    + intros tn Ht. apply lookup_insert_is_Some'. by right.
Qed.

Lemma tree_head_singleton k v : tree_head {[k := v]} = Some (k, v).
Proof. unfold tree_head. by rewrite map_to_list_singleton. Qed.

Lemma free_zeros l : Forall (fun kv : string * Z => kv.2 = 0) l -> free_str_tree_ints l.*2 = Ok ().
Proof. induction 1 as [|[k v] l Hv _ IH]; [done|]. cbn in *. by rewrite Hv. Qed.

(** ** Reference translation of a row *)

(** The jump of a row: the entry of its [next] column. *)
Definition next_of (sp : schema_FSM_Policy) : option (string * Z) := head (sc_next sp).
Definition next_tree_of (sp : schema_FSM_Policy) : option (gmap string Z) :=
  (fun kv => {[kv.1 := kv.2]}) <$> next_of sp.

Lemma schema2itree_one sp :
  row_ok sp -> schema2itree sizeof_next (sc_next sp) = next_tree_of sp.
Proof.
  intros Hr. pose proof (ro_one _ Hr) as H1. unfold next_tree_of, next_of.
  destruct (sc_next sp) as [|kv [|]]; [done| |cbn in H1; lia]. by destruct kv.
Qed.

(** What a row asks for, written field by field; the neighbour indices, which
    depend on the table, are left at 0. *)
Fixpoint named (names : list (string * Z)) (s : string) : option Z :=
  match names with
  | [] => None
  | (n, v) :: names' => if String.eqb s n then Some v else named names' s
  end.

Definition action_names : list (string * Z) :=
  [("allow", FSM_ALLOW); ("drop", FSM_BLOCK); ("update_tag", FSM_UPDATE_TAG);
   ("gatekeeper", FSM_GATEKEEPER_REQ); ("flush", FSM_FLUSH_CACHE);
   ("flush_all", FSM_FLUSH_ALL_CACHE)].

Definition row_action (sp : schema_FSM_Policy) : Z :=
  default FSM_ACTION_NONE (sc_action sp ≫= named action_names).

Definition log_names : list (string * Z) :=
  [("none", FSM_REPORT_NONE); ("all", FSM_REPORT_ALL); ("blocked", FSM_REPORT_BLOCKED)].

(** Without the column nothing is reported; an unknown value leaves the zero of
    the allocation. *)
Definition row_report (sp : schema_FSM_Policy) : Z :=
  match sc_log sp with
  | None => FSM_REPORT_NONE
  | Some s => default 0 (named log_names s)
  end.

Definition row_policy (tname : string) (rules : fsm_policy_rules) (sp : schema_FSM_Policy)
    : fsm_policy :=
  mk_policy tname (sc_idx sp) (sc_name sp) rules (schema2str_set (sc_redirect sp))
    (next_tree_of sp) (schema2tree (sc_other_config sp)) (row_action sp) (row_report sp)
    (match next_of sp with Some _ => true | None => false end) (fst <$> next_of sp)
    (default 0 (snd <$> next_of sp)) 0 0.

Definition clear_lookup (p : fsm_policy) : fsm_policy :=
  with_p_lookup_prev 0 (with_p_lookup_next 0 p).

Lemma set_action_eq p sp : fsm_policy_set_action p sp = with_p_action (row_action sp) p.
Proof.
  unfold fsm_policy_set_action, row_action. destruct (sc_action sp) as [s|]; [|done].
  cbn [mbind option_bind named action_names].
  repeat (destruct (String.eqb s _); [done|]). done.
Qed.

Lemma set_log_eq p sp :
  p_report_type p = 0 -> fsm_policy_set_log p sp = with_p_report_type (row_report sp) p.
Proof.
  unfold fsm_policy_set_log, row_report. intros Hp. destruct (sc_log sp) as [s|]; [|done].
  cbn [named log_names]. repeat (destruct (String.eqb s _); [done|]).
  destruct p. cbn in Hp. by subst.
Qed.

(** ** Insertion of a row *)
Lemma set_next_ok m sp p :
  mgr_wf m -> row_ok sp -> p_next_tree p = next_tree_of sp ->
  p_next_table p = None -> p_next_table_index p = 0 ->
  exists m', fsm_policy_set_next m p =
      Ok (with_p_jump_table (match next_of sp with Some _ => true | None => false end)
           (with_p_next_table_index (default 0 (snd <$> next_of sp))
             (with_p_next_table (fst <$> next_of sp) p)), m') /\
    mgr_wf m' /\ m_clients m' = m_clients m /\ m_events m' = m_events m /\
    (forall tn i, view m' tn i = view m tn i) /\
    (forall tn, is_Some (m_tables m !! tn) -> is_Some (m_tables m' !! tn)).
Proof.
  intros W Hr Hn H1 H2. unfold fsm_policy_set_next. cbn [p_next_tree with_p_jump_table].
  rewrite Hn. pose proof (ro_next _ Hr) as Hs. unfold next_tree_of, next_of in *.
  destruct (sc_next sp) as [|[k v] l].
  { exists m. split_and!; try done. cbn. destruct p. cbn in *. by subst. }
  cbn [head fmap option_fmap option_map fst snd]. rewrite tree_head_singleton. cbn [deref]. cbind.
  apply Forall_cons in Hs as [Hk _].
  destruct (find_or_create_ok m k W Hk) as (m' & E & Hrest).
  rewrite E. cbind. exists m'. destruct Hrest as (? & _ & ? & ? & ? & ?). split_and!; done.
Qed.

Lemma get_prev_ok t p :
  full_len t -> 1 <= p_idx p < FSM_MAX_POLICIES ->
  exists j, fsm_policy_get_prev t p = Ok (with_p_lookup_prev j p).
Proof.
  intros Hl Hi. unfold fsm_policy_get_prev, FSM_MAX_POLICIES in *.
  rewrite u64_id by (unfold is_u64; lia).
  destruct (prev_loop_ok t 61 (p_idx p - 1) Hl) as (j & E & _);
    [unfold slot_ok, FSM_MAX_POLICIES; lia|lia|]. rewrite E. by exists j.
Qed.

Lemma get_next_ok t p :
  full_len t -> slot_ok (p_idx p) -> exists j,
  fsm_policy_get_next t p = Ok (with_p_lookup_prev j (with_p_lookup_next FSM_MAX_POLICIES p)).
Proof.
  intros Hl Hi. unfold fsm_policy_get_next.
  destruct (next_loop_ok t 61 (p_idx p + 1) Hl) as (j & E & _);
    [unfold slot_ok, FSM_MAX_POLICIES in *; lia..|].
  cbn [p_idx with_p_lookup_next]. rewrite E. by exists j.
Qed.

Lemma insert_ok m tname sp :
  mgr_wf m -> row_ok sp -> is_Some (m_tables m !! tname) -> view m tname (sc_idx sp) = None ->
  exists o m', fsm_policy_insert_schema_p m tname sp = Ok (o, m') /\ mgr_wf m' /\
    m_clients m' = m_clients m /\ m_events m' = m_events m /\ is_Some (m_tables m' !! tname) /\
    (forall tn i, 0 <= i ->
       view m' tn i = if decide (tn = tname /\ i = sc_idx sp) then o else view m tn i) /\
    let '(ret, rules) := fsm_set_rules rules_zero sp in
    if ret then exists p, o = Some p /\ clear_lookup p = row_policy tname rules sp else o = None.
Proof.
  intros W Hr Ht Hv. unfold fsm_policy_insert_schema_p. rewrite (schema2itree_one sp Hr).
  set (p0 := with_p_next_tree (next_tree_of sp) _).
  destruct (set_next_ok m sp p0 W Hr eq_refl eq_refl eq_refl) as (m1 & -> & W1 & Hc & He & Hv1 & Hm).
  cbind. rewrite set_action_eq, set_log_eq by done. cbn [p_rules with_p_report_type with_p_action
    with_p_other_config with_p_jump_table with_p_next_table_index with_p_next_table p0
    with_p_next_tree with_p_redirects policy_zero].
  destruct (fsm_set_rules rules_zero sp) as [[] rules] eqn:Er; cbn [negb].
  2: { assert (free_str_tree_ints (sc_next sp).*2 = Ok ()) as ->.
       { pose proof (set_rules_fst rules_zero sp) as Hu. rewrite Er in Hu. cbn in Hu.
         destruct (ro_free _ Hr) as [?|Hz]; [congruence|by apply free_zeros]. }
       cbind. exists None, m1. split_and!; try done; [by apply Hm|]. intros tn i Hi. rewrite Hv1.
       destruct (decide _) as [[-> ->]|]; done. }
  set (p1 := with_p_rules rules _).
  assert (p_idx p1 = sc_idx sp) as Hi1 by done.
  destruct (Hm _ Ht) as [t Et]. rewrite Et. cbn [deref]. cbind.
  pose proof (W1 _ _ Et) as Wt. pose proof (tw_len _ _ Wt) as Hl.
  assert (forall o, full_len (set_lookup t (p_idx p1) o)) as Hf
    by (intros; unfold full_len, set_lookup; cbn; by rewrite length_insert).
  destruct (get_prev_ok (set_lookup t (p_idx p1) (Some p1)) p1) as (j1 & ->);
    [done|exact (ro_idx _ Hr)|]. cbind.
  destruct (get_next_ok (set_lookup t (p_idx p1) (Some p1)) (with_p_lookup_prev j1 p1)) as (j2 & ->);
    [done|pose proof (ro_idx _ Hr); unfold slot_ok; cbn; lia|]. cbind.
  set (p2 := with_p_lookup_prev j2 _). assert (p_idx p2 = sc_idx sp) as Hi2 by done.
  eexists _, _. split; [reflexivity|].
  unfold set_lookup; cbn [pt_name pt_policies pt_lookup]. rewrite Hi1, Hi2, list_insert_insert_eq.
  pose proof (ro_idx _ Hr) as Hx.
  split_and!.
  - apply map_Forall_insert_2; [|done]. apply set_slot_wf; try done. unfold slot_ok. lia.
  - done.
  - done.
  - cbn. rewrite lookup_insert_eq. by eexists.
  - intros tn i Hi. rewrite (view_set m1 tname t (sc_idx sp) (Some p2)); [|done| |lia|lia].
    + destruct (decide _); [done|apply Hv1].
    + rewrite Hl. unfold FSM_MAX_POLICIES in *. lia.
  - exists p2. split; [done|]. unfold row_policy, clear_lookup, p2, p1, p0. cbn. done.
Qed.

(** ** The abstract store: a partial map from (table, index) to policies *)
Definition store := string -> Z -> option fsm_policy.

Definition abs (m : fsm_policy_session) : store := fun tn i => clear_lookup <$> view m tn i.

(** What a row is translated to, [None] when a rule is not understood. *)
Definition translated (sp : schema_FSM_Policy) : option fsm_policy :=
  let '(ret, rules) := fsm_set_rules rules_zero sp in
  if ret then Some (fsm_prepare_policy (row_policy (policy_of sp) rules sp)) else None.

Definition at_row (sp : schema_FSM_Policy) (tn : string) (i : Z) : Prop :=
  tn = policy_of sp /\ i = sc_idx sp.
#[export] Instance at_row_dec sp tn i : Decision (at_row sp tn i).
Proof. unfold at_row. apply _. Defined.

(** Adding fills a free slot and leaves a used one. *)
Definition spec_add (sp : schema_FSM_Policy) (f : store) : store := fun tn i =>
  if decide (at_row sp tn i) then
    if fsm_policy_is_flush_request sp then f tn i else
    match f tn i with Some p => Some (fsm_prepare_policy p) | None => translated sp end
  else f tn i.

Definition spec_delete (sp : schema_FSM_Policy) (f : store) : store := fun tn i =>
  if decide (at_row sp tn i) then None else f tn i.

Definition spec_callback (mon : mon_type) (old_rec sp : schema_FSM_Policy) (f : store) : store :=
  match mon with
  | OVSDB_UPDATE_NEW => spec_add sp f
  | OVSDB_UPDATE_DEL => spec_delete old_rec f
  | OVSDB_UPDATE_MODIFY => spec_add sp (spec_delete sp f)
  end.

Lemma prepare_clear p : clear_lookup (fsm_prepare_policy p) = fsm_prepare_policy (clear_lookup p).
Proof.
  unfold fsm_prepare_policy, fsm_policy_sort_cats.
  change (p_rules (clear_lookup p)) with (p_rules p). by destruct (categories (p_rules p)).
Qed.

Lemma prepare_fields p :
  p_idx (fsm_prepare_policy p) = p_idx p /\ p_table_name (fsm_prepare_policy p) = p_table_name p.
Proof. unfold fsm_prepare_policy, fsm_policy_sort_cats. by destruct (categories (p_rules p)). Qed.

Lemma view_table m tn i p : view m tn i = Some p -> exists t, m_tables m !! tn = Some t /\
  pt_lookup t !! Z.to_nat i = Some (Some p).
Proof.
  unfold view. destruct (m_tables m !! tn) as [t|]; [|done]. cbn. intros Hv. exists t. split; [done|].
  destruct (pt_lookup t !! Z.to_nat i) as [[q|]|]; [|done..]. cbn in Hv. by injection Hv as ->.
Qed.

Lemma view_fields m tn i p : mgr_wf m -> 0 <= i -> view m tn i = Some p ->
  p_idx p = i /\ p_table_name p = tn /\ slot_ok i /\ short tn.
Proof.
  intros W Hi (t & Ht & Hp)%view_table. pose proof (W _ _ Ht) as Wt.
  destruct (tw_slot _ _ Wt _ _ Hp) as [H1 H2]. pose proof (lookup_lt_Some _ _ _ Hp) as Hl.
  rewrite (tw_len _ _ Wt) in Hl. unfold slot_ok, FSM_MAX_POLICIES in *.
  split_and!; [lia|done|lia|lia|exact (tw_short _ _ Wt)].
Qed.

Lemma store_policy_ok m tn i p q :
  mgr_wf m -> 0 <= i -> view m tn i = Some p -> p_idx q = i -> p_table_name q = tn ->
  mgr_wf (store_policy m q) /\ m_clients (store_policy m q) = m_clients m /\
  m_events (store_policy m q) = m_events m /\
  forall tn' i', 0 <= i' -> view (store_policy m q) tn' i' =
    if decide (tn' = tn /\ i' = i) then Some q else view m tn' i'.
Proof.
  intros W Hi Hv Hq Ht. destruct (view_fields _ _ _ _ W Hi Hv) as (_ & _ & Hs & _).
  apply view_table in Hv as (t & Et & Hp). unfold store_policy. rewrite Ht, Et, Hq.
  pose proof (W _ _ Et) as Wt. split_and!; try done.
  - apply map_Forall_insert_2; [|done]. unfold set_lookup.
    replace (pt_policies t) with ({[i]} ∪ pt_policies t); [by apply set_slot_wf|].
    apply leibniz_equiv. assert (i ∈ pt_policies t); [|set_solver].
    apply (tw_tree _ _ Wt). split; [done|]. by exists p.
  - intros tn' i' Hi'. apply (view_set m tn t i (Some q)); try done. by eapply lookup_lt_Some.
Qed.

Lemma get_ok m sp :
  mgr_wf m -> row_ok sp ->
  exists o m', fsm_policy_get m sp = Ok (o, m') /\ mgr_wf m' /\
    (forall tn i, 0 <= i -> view m' tn i = if decide (at_row sp tn i) then o else view m tn i) /\
    match view m (policy_of sp) (sc_idx sp), fsm_set_rules rules_zero sp with
    | Some p, _ => o = Some p
    | None, (true, rules) => exists p, o = Some p /\ clear_lookup p = row_policy (policy_of sp) rules sp
    | None, (false, _) => o = None
    end.
Proof.
  intros W Hr. unfold fsm_policy_get. pose proof (ro_idx _ Hr) as Hx.
  destruct (find_or_create_ok m _ W (ro_policy _ Hr)) as (m1 & -> & W1 & Ht & _ & _ & Hv & _). cbind.
  destruct Ht as [t Et]. rewrite Et. cbn [deref]. cbind.
  rewrite lookup_at_ok; [|exact (tw_len _ _ (W1 _ _ Et))|unfold slot_ok; lia]. cbind.
  rewrite <- Hv. assert (view m1 (policy_of sp) (sc_idx sp) =
    mjoin (pt_lookup t !! Z.to_nat (sc_idx sp))) as Ev by (unfold view; by rewrite Et).
  rewrite Ev. destruct (mjoin _) as [p|] eqn:Ep.
  - cbind. exists (Some p). eexists. split; [reflexivity|]. split_and!; [done| |done].
    intros tn i Hi. change (view (fsm_policy_update_clients m1 _) tn i) with (view m1 tn i).
    rewrite <- Hv. destruct (decide _) as [[-> ->]|]; done.
  - destruct (insert_ok m1 (policy_of sp) sp W1 Hr) as (o & m2 & E & W2 & _ & _ & _ & Hv2 & Ho);
      [by eexists|done|]. rewrite E. cbind. exists o. eexists. split; [reflexivity|].
    split_and!; [done| |].
    + intros tn i Hi. change (view (fsm_policy_update_clients m2 _) tn i) with (view m2 tn i).
      rewrite Hv2, <- Hv by done. unfold at_row. done.
    + by destruct (fsm_set_rules rules_zero sp) as [[] rules].
Qed.

Lemma add_ok m sp :
  mgr_wf m -> row_ok sp ->
  exists m', fsm_add_policy m sp = Ok m' /\ mgr_wf m' /\
    forall tn i, 0 <= i -> abs m' tn i = spec_add sp (abs m) tn i.
Proof.
  intros W Hr. unfold fsm_add_policy. pose proof (ro_idx _ Hr) as Hx.
  rewrite (proj2 (Z.ltb_ge (sc_idx sp) 0)), (proj2 (Z.leb_gt FSM_MAX_POLICIES _)) by lia. cbn [orb].
  unfold spec_add. destruct (fsm_policy_is_flush_request sp).
  { eexists. split; [reflexivity|]. unfold fsm_policy_request_flush.
    destruct (fsm_set_rules _ sp) as [[] r]; (split; [done|]); intros tn i _; by destruct (decide _). }
  destruct (get_ok m sp W Hr) as (o & m1 & -> & W1 & Hv & Ho). cbind.
  assert (view m1 (policy_of sp) (sc_idx sp) = o) as Hvo.
  { rewrite Hv by lia. by rewrite decide_True by done. }
  destruct o as [p|].
  - destruct (view_fields m1 _ (sc_idx sp) _ W1 ltac:(lia) Hvo) as (F1 & F2 & _).
    destruct (prepare_fields p) as [G1 G2].
    destruct (store_policy_ok m1 (policy_of sp) (sc_idx sp) p (fsm_prepare_policy p))
      as (W2 & _ & _ & Hv2); [done|lia|done|congruence..|].
    eexists. split; [reflexivity|]. split; [done|]. intros tn i Hi. unfold abs at 1.
    rewrite Hv2 by done. unfold abs.
    destruct (decide (tn = policy_of sp /\ i = sc_idx sp)) as [[-> ->]|Hne].
    2: { rewrite Hv by done. by rewrite !decide_False by done. }
    rewrite decide_True by done. cbn. rewrite prepare_clear.
    destruct (view m (policy_of sp) (sc_idx sp)) as [q|]; [by injection Ho as ->|].
    unfold translated. cbn. destruct (fsm_set_rules rules_zero sp) as [[] r]; [|done].
    destruct Ho as (q & [= ->] & ->). done.
  - eexists. split; [reflexivity|]. split; [done|]. intros tn i Hi. unfold abs.
    rewrite Hv by done. destruct (decide (at_row sp tn i)) as [[-> ->]|Hne]; [|done].
    destruct (view m (policy_of sp) (sc_idx sp)) as [q|]; [done|]. cbn.
    unfold translated. destruct (fsm_set_rules rules_zero sp) as [[] r]; [|done].
    by destruct Ho as (q & ? & _).
Qed.

Lemma delete_ok m sp :
  mgr_wf m -> slot_ok (sc_idx sp) ->
  exists m', fsm_delete_policy m sp = Ok m' /\ mgr_wf m' /\
    forall tn i, 0 <= i -> view m' tn i = if decide (at_row sp tn i) then None else view m tn i.
Proof.
  intros W Hs. assert (fsm_policy_lookup m sp = Ok (view m (policy_of sp) (sc_idx sp))) as El.
  { unfold fsm_policy_lookup, fsm_policy_find_table, view.
    destruct (m_tables m !! policy_of sp) as [t|] eqn:Et; [|by destruct (_ <? _)%nat].
    pose proof (W _ _ Et) as Wt. rewrite (proj2 (Nat.ltb_lt _ _) (tw_short _ _ Wt)).
    by rewrite lookup_at_ok by (done || exact (tw_len _ _ Wt)). }
  unfold fsm_delete_policy. rewrite El. cbind.
  destruct (view m (policy_of sp) (sc_idx sp)) as [p|] eqn:Ev.
  - destruct (view_fields m _ _ _ W (proj1 Hs) Ev) as (F1 & F2 & _).
    apply view_table in Ev as (t & Et & Hp). unfold fsm_free_policy. rewrite F2, Et. cbn [deref].
    cbind. eexists. split; [reflexivity|]. unfold set_lookup. cbn [pt_name pt_lookup pt_policies].
    rewrite F1. split.
    + apply map_Forall_insert_2; [|done]. by apply clear_slot_wf; [apply W|].
    + intros tn i Hi. rewrite (view_set m (policy_of sp) t (sc_idx sp) None); try done.
      * by eapply lookup_lt_Some.
      * apply Hs.
  - exists m. split_and!; [done..|]. intros tn i Hi. destruct (decide _) as [[-> ->]|]; done.
Qed.

Lemma update_ok m sp :
  mgr_wf m -> row_ok sp ->
  exists m', fsm_update_policy m sp = Ok m' /\ mgr_wf m' /\
    forall tn i, 0 <= i -> abs m' tn i = spec_add sp (spec_delete sp (abs m)) tn i.
Proof.
  intros W Hr. unfold fsm_update_policy. pose proof (ro_idx _ Hr) as Hx.
  rewrite (proj2 (Z.ltb_ge (sc_idx sp) 0)), (proj2 (Z.leb_gt FSM_MAX_POLICIES _)) by lia. cbn [orb].
  destruct (delete_ok m sp W) as (m1 & -> & W1 & Hv1); [unfold slot_ok; lia|]. cbind.
  destruct (add_ok m1 sp W1 Hr) as (m2 & E & W2 & Hv2). exists m2. split_and!; [done..|].
  intros tn i Hi. rewrite Hv2 by done. unfold spec_add, spec_delete, abs.
  rewrite Hv1 by done. destruct (decide (at_row sp tn i)); done.
Qed.

(** ** The monitor of the table *)
Record update := mk_update { up_mon : mon_type; up_old : schema_FSM_Policy; up_new : schema_FSM_Policy }.

(** A sequence of notifications of [FSM_Policy]. *)
Fixpoint FSM_Policy_updates (m : fsm_policy_session) (l : list update) : res fsm_policy_session :=
  match l with
  | [] => Ok m
  | u :: l' =>
      m ← callback_FSM_Policy m (up_mon u) (up_old u) (up_new u);
      FSM_Policy_updates m l'
  end.

Definition update_ok_rows (u : update) : Prop :=
  match up_mon u with
  | OVSDB_UPDATE_DEL => slot_ok (sc_idx (up_old u))
  | _ => row_ok (up_new u)
  end.

Definition spec_updates (f : store) (l : list update) : store :=
  foldl (fun f u => spec_callback (up_mon u) (up_old u) (up_new u) f) f l.

(** Stores that agree on every slot. *)
Definition store_eq (f g : store) : Prop := forall tn i, 0 <= i -> f tn i = g tn i.

#[export] Instance store_eq_equiv : Equivalence store_eq.
Proof.
  split; [by intros f tn i|by intros f g H tn i Hi; rewrite H|].
  intros f g h H1 H2 tn i Hi. by rewrite H1, H2.
Qed.

#[export] Instance spec_add_proper sp : Proper (store_eq ==> store_eq) (spec_add sp).
Proof. intros f g H tn i Hi. unfold spec_add. by rewrite H. Qed.

#[export] Instance spec_delete_proper sp : Proper (store_eq ==> store_eq) (spec_delete sp).
Proof. intros f g H tn i Hi. unfold spec_delete. by rewrite H. Qed.

#[export] Instance spec_callback_proper mon o n : Proper (store_eq ==> store_eq) (spec_callback mon o n).
Proof. intros f g H. destruct mon; cbn; by rewrite H. Qed.

#[export] Instance spec_updates_proper : Proper (store_eq ==> (=) ==> store_eq) spec_updates.
Proof.
  intros f g H l _ <-. revert f g H. induction l as [|u l IH]; intros f g H; [done|].
  cbn. apply IH. by rewrite H.
Qed.

Lemma callback_ok m u :
  mgr_wf m -> update_ok_rows u ->
  exists m', callback_FSM_Policy m (up_mon u) (up_old u) (up_new u) = Ok m' /\ mgr_wf m' /\
    store_eq (abs m') (spec_callback (up_mon u) (up_old u) (up_new u) (abs m)).
Proof.
  intros W Hu. unfold callback_FSM_Policy, update_ok_rows in *. destruct (up_mon u); cbn.
  - destruct (add_ok m _ W Hu) as (m1 & -> & W1 & Hv). eexists. by split; [reflexivity|].
  - destruct (delete_ok m _ W Hu) as (m1 & -> & W1 & Hv). eexists. split; [reflexivity|].
    split; [done|]. intros tn i Hi. unfold spec_delete, abs. change (view (add_events _ m1) tn i)
      with (view m1 tn i). rewrite Hv by done. by destruct (decide _).
  - destruct (update_ok m _ W Hu) as (m1 & -> & W1 & Hv). eexists. by split; [reflexivity|].
Qed.

(** C13: A sequence of notifications of the [FSM_Policy] table is processed
    without a fault, keeps the tables well formed (tree and lookup array in step)
    and leaves in the slots exactly the policies of the abstract store: the
    translation of the row where a free slot was filled by a row whose operations
    are all known, nothing where a row was removed or not understood, every other
    slot untouched.  It is assumed that new and modified rows have an index from 1
    to 59, names of at most 31 characters and at most one [next] entry, and no
    [next] entry other than 0 when an operation is unknown; and that removed rows
    have an index from 0 to 59.  As in the code, the row of an update replaces the
    policy of its own slot, not that of the old row. *)
Theorem FSM_Policy_updates_refine m l :
  mgr_wf m -> Forall update_ok_rows l ->
  exists m', FSM_Policy_updates m l = Ok m' /\ mgr_wf m' /\
    store_eq (abs m') (spec_updates (abs m) l).
Proof.
  intros W Hl. revert m W. induction Hl as [|u l Hu Hl IH]; intros m W; [by exists m|].
  cbn [FSM_Policy_updates]. destruct (callback_ok m u W Hu) as (m1 & -> & W1 & Hv). cbind.
  destruct (IH m1 W1) as (m2 & E & W2 & Hv2). exists m2. split_and!; [done..|].
  rewrite Hv2, Hv. done.
Qed.

Definition row_ex (idx : Z) (cats : list Z) : schema_FSM_Policy :=
  mk_schema "r" idx (Some "web") None [] (Some "in") ["a.com"] (Some "in") cats None 0 None [] None []
    (Some "all") (Some "drop") [("next", 3)] ["A-1.2.3.4"] [].

Lemma row_ex_ok idx cats : 1 <= idx < FSM_MAX_POLICIES -> row_ok (row_ex idx cats).
Proof.
  intros Hi. split; [| | |by left|done]; repeat constructor; unfold short, POLICY_NAME_SIZE; cbn; lia.
Qed.

(** A row with an operation that has no name, and without a [next] column. *)
Definition row_unknown (next : list (string * Z)) : schema_FSM_Policy :=
  mk_schema "u" 4 (Some "web") (Some "maybe") [] None [] None [] None 0 None [] None []
    None None next [] [].
Lemma row_unknown_ok : row_ok (row_unknown []).
Proof.
  split; [| | |by right|]; repeat constructor; unfold short, POLICY_NAME_SIZE, FSM_MAX_POLICIES; cbn; lia.
Qed.

Lemma mgr_init_wf : mgr_wf (fsm_init_manager mgr_zero).
Proof. by intros ? ? ?. Qed.

Definition updates_ex : list update :=
  [mk_update OVSDB_UPDATE_NEW (row_ex 1 []) (row_ex 1 [7; 3]);
   mk_update OVSDB_UPDATE_NEW (row_unknown []) (row_unknown []);
   mk_update OVSDB_UPDATE_MODIFY (row_ex 1 []) (row_ex 2 [5]);
   mk_update OVSDB_UPDATE_DEL (row_ex 1 []) (row_ex 1 [])].

Lemma FSM_Policy_updates_refine_witness :
  exists m', FSM_Policy_updates (fsm_init_manager mgr_zero) updates_ex = Ok m' /\ mgr_wf m' /\
    store_eq (abs m') (spec_updates (abs (fsm_init_manager mgr_zero)) updates_ex).
Proof.
  apply FSM_Policy_updates_refine; [exact mgr_init_wf|].
  repeat (apply Forall_cons; split); try exact (Forall_nil_2 _); try exact I; unfold update_ok_rows; cbn [up_mon up_new up_old].
  - apply row_ex_ok. unfold FSM_MAX_POLICIES. lia.
  - exact row_unknown_ok.
  - apply row_ex_ok. unfold FSM_MAX_POLICIES. lia.
  - unfold slot_ok, FSM_MAX_POLICIES. cbn. lia.
Defined.

(** Later columns leave the categories alone. *)
Definition cat_part (r : fsm_policy_rules) := (cat_rule_present r, categories r).

Lemma risk_keeps_cats r sp : cat_part (fsm_set_risk_level_rules r sp).2 = cat_part r.
Proof. unfold fsm_set_risk_level_rules. by repeat case_match. Qed.
Lemma ip_keeps_cats r sp : cat_part (fsm_set_ip_rules r sp).2 = cat_part r.
Proof. unfold fsm_set_ip_rules. by repeat case_match. Qed.
Lemma app_keeps_cats r sp : cat_part (fsm_set_app_rules r sp).2 = cat_part r.
Proof. unfold fsm_set_app_rules. by repeat case_match. Qed.

Lemma cats_sets r sp op :
  sc_fqdncat_op sp = Some op -> (fsm_set_cats_rules r sp).1 = true ->
  cat_part (fsm_set_cats_rules r sp).2 = (true, Some (sc_fqdncats sp)).
Proof. unfold fsm_set_cats_rules. intros ->. by destruct (_ =? _). Qed.

(** The translated rules carry the categories of the row. *)
Lemma set_rules_cats r sp r' op :
  fsm_set_rules r sp = (true, r') -> sc_fqdncat_op sp = Some op ->
  cat_part r' = (true, Some (sc_fqdncats sp)).
Proof.
  unfold fsm_set_rules. intros H Ho.
  destruct (fsm_set_mac_rules r sp) as [[] r1]; [|done]. cbn [negb] in H.
  destruct (fsm_set_fqdn_rules r1 sp) as [[] r2]; [|done]. cbn [negb] in H.
  pose proof (cats_sets r2 sp op Ho) as H3.
  destruct (fsm_set_cats_rules r2 sp) as [[] r3]; [|done]. cbn [negb] in H.
  pose proof (risk_keeps_cats r3 sp) as H4.
  destruct (fsm_set_risk_level_rules r3 sp) as [[] r4]; [|done]. cbn [negb] in H.
  pose proof (ip_keeps_cats r4 sp) as H5.
  destruct (fsm_set_ip_rules r4 sp) as [[] r5]; [|done]. cbn [negb] in H.
  pose proof (app_keeps_cats r5 sp) as H6.
  destruct (fsm_set_app_rules r5 sp) as [[] r6]; [|done]. cbn [negb] in H. injection H as <-.
  cbn [fst snd] in *. by rewrite H6, H5, H4, H3.
Qed.

Lemma understood_translates sp :
  row_understood sp = bool_decide (is_Some (translated sp)).
Proof.
  unfold translated. pose proof (set_rules_fst rules_zero sp) as Hf.
  destruct (fsm_set_rules rules_zero sp) as [[] rules]; cbn in Hf; rewrite <- Hf.
  - by rewrite bool_decide_true.
  - rewrite bool_decide_false; [done|]. by intros [? ?].
Qed.

(** C40: Adding a row to a free slot of a well-formed store stores a policy
    exactly when each of the row's operation columns is absent or one of its
    documented names ([in], [out] and for names the prefix, suffix and wildcard
    forms, for risk the six comparisons); otherwise the slot stays free, and
    either way there is no fault.  The row is not a flush request, its index is 1
    to 59, its names have at most 31 characters, it has at most one [next] entry,
    and none other than 0 when an operation is unknown ([refused_row_frees_int]
    shows what happens then). *)
Theorem add_stores_iff_understood m sp :
  mgr_wf m -> row_ok sp -> fsm_policy_is_flush_request sp = false ->
  view m (policy_of sp) (sc_idx sp) = None ->
  exists m', fsm_add_policy m sp = Ok m' /\
    (is_Some (view m' (policy_of sp) (sc_idx sp)) <-> row_understood sp = true).
Proof.
  intros W Hr Hf Hv. destruct (add_ok m sp W Hr) as (m' & E & _ & Ha). exists m'. split; [done|].
  specialize (Ha (policy_of sp) (sc_idx sp) ltac:(pose proof (ro_idx _ Hr); lia)).
  unfold spec_add in Ha. rewrite decide_True, Hf in Ha by done. unfold abs in Ha. rewrite Hv in Ha.
  cbn in Ha. rewrite understood_translates, bool_decide_eq_true, <- Ha. by rewrite fmap_is_Some.
Qed.

Lemma add_stores_iff_understood_witness :
  (exists m', fsm_add_policy (fsm_init_manager mgr_zero) (row_ex 1 [7; 3]) = Ok m' /\ is_Some (view m' "web" 1)) /\
  (exists m', fsm_add_policy (fsm_init_manager mgr_zero) (row_unknown []) = Ok m' /\ ~ is_Some (view m' "web" 4)).
Proof.
  split.
  - destruct (add_stores_iff_understood (fsm_init_manager mgr_zero) (row_ex 1 [7; 3])) as (m' & E & Hs);
      [exact mgr_init_wf|apply row_ex_ok; unfold FSM_MAX_POLICIES; lia|reflexivity..|].
    exists m'. split; [exact E|]. apply Hs. reflexivity.
  - destruct (add_stores_iff_understood (fsm_init_manager mgr_zero) (row_unknown [])) as (m' & E & Hs);
      [exact mgr_init_wf|exact row_unknown_ok|reflexivity..|].
    exists m'. split; [exact E|]. intros Hc. apply Hs in Hc. discriminate Hc.
Defined.

Lemma sorted_le_lookup (l : list Z) i j a b :
  StronglySorted Z.le l -> (i <= j)%nat -> l !! i = Some a -> l !! j = Some b -> a <= b.
Proof.
  intros Hs. revert i j. induction Hs as [|x l Hs IH Hx]; intros [|i] [|j] Hij Ha Hb; cbn in *;
    try done; try lia.
  - injection Ha as <-. injection Hb as <-. lia.
  - injection Ha as <-. apply (proj1 (Forall_forall _ _) Hx). by eapply list_elem_of_lookup_2.
  - eapply IH; [|done..]. lia.
Qed.

Lemma merge_sort_le l : StronglySorted Z.le (merge_sort Z.le l).
Proof. apply StronglySorted_merge_sort; apply _. Qed.

(** The binary search of the category check is right on stored policies: a
    row with a category operation, added to a free slot, is stored with its
    categories sorted, so that [cat_search] finds a category exactly when the row
    lists it. *)
Theorem stored_categories m sp op :
  mgr_wf m -> row_ok sp -> fsm_policy_is_flush_request sp = false ->
  view m (policy_of sp) (sc_idx sp) = None -> sc_fqdncat_op sp = Some op ->
  row_understood sp = true ->
  exists m' p, fsm_add_policy m sp = Ok m' /\ view m' (policy_of sp) (sc_idx sp) = Some p /\
    forall v, cat_search v p = bool_decide (v ∈ sc_fqdncats sp).
Proof.
  intros W Hr Hf Hv Ho Hu. destruct (add_ok m sp W Hr) as (m' & E & _ & Ha).
  specialize (Ha (policy_of sp) (sc_idx sp) ltac:(pose proof (ro_idx _ Hr); lia)).
  unfold spec_add in Ha. rewrite decide_True, Hf in Ha by done. unfold abs in Ha. rewrite Hv in Ha.
  cbn [fmap option_fmap option_map] in Ha. unfold translated in Ha. rewrite <- (set_rules_fst rules_zero) in Hu.
  destruct (fsm_set_rules rules_zero sp) as [[] rules] eqn:Er; [|done].
  pose proof (set_rules_cats _ _ _ _ Er Ho) as [= _ Hc].
  destruct (view m' (policy_of sp) (sc_idx sp)) as [p|] eqn:Ep; [|done].
  exists m', p. split_and!; [done..|]. intros v. injection Ha as Ha.
  assert (categories (p_rules p) = Some (merge_sort Z.le (sc_fqdncats sp))) as Hcat.
  { change (p_rules p) with (p_rules (clear_lookup p)). rewrite Ha.
    unfold fsm_prepare_policy, fsm_policy_sort_cats. cbn [p_rules row_policy]. by rewrite Hc. }
  rewrite (cat_search_elem v p _ Hcat).
  - apply bool_decide_ext. by rewrite (merge_sort_Permutation Z.le).
  - intros i j a b. apply sorted_le_lookup, merge_sort_le.
Qed.

Lemma stored_categories_witness :
  exists m' p, fsm_add_policy (fsm_init_manager mgr_zero) (row_ex 1 [7; 3; 5]) = Ok m' /\
    view m' "web" 1 = Some p /\ forall v, cat_search v p = bool_decide (v ∈ [7; 3; 5]).
Proof.
  apply (stored_categories (fsm_init_manager mgr_zero) (row_ex 1 [7; 3; 5]) "in");
    [exact mgr_init_wf|apply row_ex_ok; unfold FSM_MAX_POLICIES; lia|reflexivity..].
Defined.

(** ** Limits of the store *)

(** A row with an unknown operation and a [next] entry: the error path frees the
    index of the entry as if it were a pointer. *)
Lemma refused_row_frees_int :
  fsm_add_policy (fsm_init_manager mgr_zero) (row_unknown [("table", 3)]) = Err FDangling.
Proof. vm_compute. reflexivity. Qed.

(** A row with two [next] entries: the second key is read four bytes into the
    first one, and here comes first in the tree. *)
Lemma second_next_key_is_suffix :
  schema2itree sizeof_next [("webpolicy", 3); ("zz", 7)] = Some {["webpolicy" := 3; "olicy" := 7]} /\
  (schema2itree sizeof_next [("webpolicy", 3); ("zz", 7)] ≫= tree_head) = Some ("olicy", 7).
Proof. split; vm_compute; reflexivity. Qed.

(** A MODIFY notification whose row moved to another table or index leaves
    the policy of the old row in place: the deletion that precedes the addition
    uses the new row, the old record is not looked at. *)
Theorem modify_keeps_old_slot m old_rec sp :
  mgr_wf m -> row_ok sp -> 0 <= sc_idx old_rec ->
  (policy_of old_rec, sc_idx old_rec) <> (policy_of sp, sc_idx sp) ->
  exists m', callback_FSM_Policy m OVSDB_UPDATE_MODIFY old_rec sp = Ok m' /\
    abs m' (policy_of old_rec) (sc_idx old_rec) = abs m (policy_of old_rec) (sc_idx old_rec).
Proof.
  intros W Hr Hi Hne. unfold callback_FSM_Policy.
  destruct (update_ok m sp W Hr) as (m1 & -> & _ & Hv). cbind. eexists. split; [reflexivity|].
  change (abs (add_events _ m1)) with (abs m1). rewrite Hv by done. unfold spec_add, spec_delete.
  rewrite !decide_False; [done|..]; intros [H1 H2]; apply Hne; by f_equal.
Qed.

Definition mgr_one : fsm_policy_session :=
  match fsm_add_policy (fsm_init_manager mgr_zero) (row_ex 1 [3]) with Ok m => m | Err _ => mgr_zero end.

Lemma mgr_one_wf : mgr_wf mgr_one.
Proof.
  unfold mgr_one. destruct (add_ok (fsm_init_manager mgr_zero) (row_ex 1 [3])) as (m & -> & W & _);
    [exact mgr_init_wf|apply row_ex_ok; unfold FSM_MAX_POLICIES; lia|done].
Qed.

(** The row at index 1 moves to index 2: both slots hold a policy. *)
Lemma modify_keeps_old_slot_witness :
  is_Some (abs mgr_one "web" 1) /\
  exists m', callback_FSM_Policy mgr_one OVSDB_UPDATE_MODIFY (row_ex 1 [3]) (row_ex 2 [3]) = Ok m' /\
    abs m' "web" 1 = abs mgr_one "web" 1.
Proof.
  split; [eexists; vm_compute; reflexivity|].
  apply (modify_keeps_old_slot mgr_one (row_ex 1 [3]) (row_ex 2 [3]));
    [exact mgr_one_wf|apply row_ex_ok; unfold FSM_MAX_POLICIES; lia|cbn; lia|discriminate].
Defined.

Lemma prev_loop_wraps t : prev_loop 61 t (u64 (0 - 1)) = Err FIndex.
Proof. reflexivity. Qed.

Lemma get_prev_zero t p : p_idx p = 0 -> fsm_policy_get_prev t p = Err FIndex.
Proof. intros Hp. unfold fsm_policy_get_prev. by rewrite Hp, prev_loop_wraps. Qed.

Lemma insert_index_zero m tname sp :
  is_Some (m_tables m !! tname) -> sc_next sp = [] -> sc_idx sp = 0 -> row_understood sp = true ->
  fsm_policy_insert_schema_p m tname sp = Err FIndex.
Proof.
  intros [t Et] Hn Hi Hu. unfold fsm_policy_insert_schema_p. rewrite Hn.
  set (p0 := with_p_next_tree _ _).
  assert (fsm_policy_set_next m p0 = Ok (with_p_jump_table false p0, m)) as -> by reflexivity. cbind.
  rewrite set_action_eq, set_log_eq by reflexivity.
  set (p1 := with_p_report_type _ _). rewrite <- (set_rules_fst (p_rules p1)) in Hu.
  destruct (fsm_set_rules (p_rules p1) sp) as [[] rules]; [|done]. cbn [negb].
  rewrite Et. cbn [deref]. cbind. by rewrite get_prev_zero.
Qed.

(** A row at index 0 is accepted by the check of [fsm_add_policy] but the search
    for its predecessor starts at index [SIZE_MAX] of the lookup array. *)
Theorem add_index_zero_out_of_bounds m sp :
  mgr_wf m -> short (policy_of sp) -> sc_next sp = [] -> sc_idx sp = 0 ->
  fsm_policy_is_flush_request sp = false -> view m (policy_of sp) 0 = None ->
  row_understood sp = true -> fsm_add_policy m sp = Err FIndex.
Proof.
  intros W Hs Hn Hi Hf Hv Hu.
  destruct (find_or_create_ok m _ W Hs) as (m1 & E & W1 & Ht & _ & _ & Hv1 & _).
  assert (fsm_policy_get m sp = Err FIndex) as Hg.
  { unfold fsm_policy_get. rewrite E. cbind. destruct Ht as [t Et]. rewrite Et. cbn [deref]. cbind.
    rewrite Hi, lookup_at_ok;
      [|exact (tw_len _ _ (W1 _ _ Et))|unfold slot_ok, FSM_MAX_POLICIES; lia]. cbind.
    assert (view m1 (policy_of sp) 0 = mjoin (pt_lookup t !! Z.to_nat 0)) as <-
      by (unfold view; by rewrite Et).
    rewrite Hv1, Hv, insert_index_zero; [reflexivity|by eexists|done..]. }
  unfold fsm_add_policy. rewrite Hg, Hf, Hi. reflexivity.
Qed.

(** [fsm_delete_policy] does not check the index of the row: in a table that
    exists, a row the addition had refused is looked up past the array. *)
Theorem delete_refused_row_out_of_bounds m sp t :
  mgr_wf m -> m_tables m !! policy_of sp = Some t -> FSM_MAX_POLICIES <= sc_idx sp ->
  fsm_add_policy m sp = Ok m /\ fsm_delete_policy m sp = Err FIndex.
Proof.
  intros W Et Hi. split.
  - unfold fsm_add_policy. rewrite (proj2 (Z.leb_le _ _) Hi). by rewrite orb_true_r.
  - unfold fsm_delete_policy, fsm_policy_lookup, fsm_policy_find_table.
    rewrite (proj2 (Nat.ltb_lt _ _) (tw_short _ _ (W _ _ Et))), Et. unfold lookup_at.
    rewrite (proj2 (Z.ltb_ge _ _) Hi). by rewrite andb_false_r.
Qed.

(** The neighbour indices of a stored policy: [lookup_next] stays 60 and
    [lookup_prev] is the first free slot after the policy. *)
Theorem lookup_prev_is_next_free t p :
  full_len t -> 1 <= p_idx p < FSM_MAX_POLICIES ->
  exists p', (q ← fsm_policy_get_prev t p; fsm_policy_get_next t q) = Ok p' /\
    p_lookup_next p' = FSM_MAX_POLICIES /\ p_idx p < p_lookup_prev p' <= FSM_MAX_POLICIES.
Proof.
  intros Hl Hi. destruct (get_prev_ok t p Hl Hi) as (j & ->). cbind. unfold fsm_policy_get_next.
  cbn [p_idx with_p_lookup_next with_p_lookup_prev].
  destruct (next_loop_ok t 61 (p_idx p + 1) Hl) as (j' & -> & Hj);
    [unfold slot_ok, FSM_MAX_POLICIES in *; lia..|].
  cbind. eexists. split; [reflexivity|]. cbn. split; [done|lia].
Qed.

(** ** Clients *)
Lemma string_compare_refl s : String.compare s s = Eq.
Proof. pose proof (String.compare_antisym s s) as H. by destruct (String.compare s s). Qed.

Lemma client_eqb_spec a b :
  client_eqb a b = true <-> cl_session a = cl_session b /\ client_name a = client_name b.
Proof.
  unfold client_eqb, client_cmp. destruct (Z.compare_spec (cl_session a) (cl_session b)) as [E|E|E];
    [|split; [done|lia]..].
  destruct (String.compare (client_name a) (client_name b)) eqn:Ec.
  - apply String.compare_eq_iff in Ec. done.
  - split; [done|]. intros [_ Hn]. rewrite Hn, string_compare_refl in Ec. done.
  - split; [done|]. intros [_ Hn]. rewrite Hn, string_compare_refl in Ec. done.
Qed.

(** Same session and same (default) name. *)
Definition same_client (a b : fsm_policy_client) : Prop :=
  cl_session a = cl_session b /\ client_name a = client_name b.

Lemma client_eqb_congr a a' b : same_client a a' -> client_eqb a b = client_eqb a' b.
Proof.
  intros [H1 H2]. apply eq_true_iff_eq. rewrite !client_eqb_spec. by rewrite H1, H2.
Qed.

Lemma find_client_cons x cs c :
  find_client (x :: cs) c = if client_eqb x c then Some x else find_client cs c.
Proof.
  unfold find_client. cbn. destruct (decide (client_eqb x c = true)) as [->|Hn]; [done|].
  apply not_true_is_false in Hn. rewrite Hn. by destruct (list_find _ cs) as [[? ?]|].
Qed.

Lemma find_client_some cs c d : find_client cs c = Some d -> d ∈ cs /\ same_client d c.
Proof.
  induction cs as [|x cs IH]; [done|]. rewrite find_client_cons.
  destruct (client_eqb x c) eqn:E; [intros [= ->]; apply client_eqb_spec in E; by split; [left|]|].
  intros H. destruct (IH H). by split; [right|].
Qed.

Lemma find_client_map f cs c :
  (forall x, same_client (f x) x) -> find_client (map f cs) c = f <$> find_client cs c.
Proof.
  intros Hf. induction cs as [|x cs IH]; [done|]. cbn [map]. rewrite !find_client_cons, IH.
  rewrite (client_eqb_congr _ x) by done. by destruct (client_eqb x c).
Qed.

Lemma find_insert_client p cs c :
  find_client cs c = None -> same_client p c -> find_client (insert_client p cs) c = Some p.
Proof.
  intros Hn Hp. assert (client_eqb p c = true) as Hpc by by apply client_eqb_spec.
  induction cs as [|x cs IH]; cbn [insert_client]; [by rewrite find_client_cons, Hpc|].
  rewrite find_client_cons in Hn. destruct (client_eqb x c) eqn:Ex; [done|].
  destruct (client_cmp x p); rewrite find_client_cons, ?Hpc, ?Ex; auto.
Qed.

Lemma find_filter_client cs c :
  find_client (filter (fun x => client_eqb x c = false) cs) c = None.
Proof.
  induction cs as [|x cs IH]; [done|]. rewrite filter_cons.
  destruct (decide _) as [E|]; [|done]. by rewrite find_client_cons, E.
Qed.

(** What registering leaves behind: the client is found, with the callbacks it
    gave and the table its caller sees. *)
Lemma register_finds m c :
  cl_session c <> 0 -> exists d,
    find_client (m_clients (fsm_policy_register_client m c).2) c = Some d /\
    same_client d c /\ cl_update d = cl_update c /\ cl_flush d = cl_flush c /\
    cl_table d = cl_table (fsm_policy_register_client m c).1 /\
    same_client (fsm_policy_register_client m c).1 c /\
    m_events (fsm_policy_register_client m c).2 = m_events m.
Proof.
  intros Hs. unfold fsm_policy_register_client. rewrite (proj2 (Z.eqb_neq _ _) Hs).
  destruct (find_client (m_clients m) c) as [p|] eqn:Ep; cbn [fst snd m_clients with_clients].
  - destruct (find_client_some _ _ _ Ep) as [_ Hpc]. pose proof (proj2 (client_eqb_spec p c) Hpc) as Ec.
    set (f := fun x => if client_eqb x c then _ else x). rewrite (find_client_map f).
    + rewrite Ep. cbn. unfold f. rewrite Ec. eexists. by split_and!.
    + intros x. unfold f. destruct (client_eqb x c) eqn:Ex; [|done]. apply client_eqb_spec in Ex.
      destruct Ex, Hpc. split; cbn; unfold client_name in *; cbn; congruence.
  - eexists. split; [apply find_insert_client; [done|]|]; by split_and!.
Qed.

(** The life of a policy client.  Once registered under a session and a
    name (or the default name) it is found, with the table its caller sees; when
    a table of that name changes its update callback is called with the table
    and the client points to it; after deregistration it is not found. *)
Theorem client_lifecycle m c :
  cl_session c <> 0 -> cl_update c = true ->
  let r := fsm_policy_register_client m c in
  let m2 := fsm_policy_update_clients r.2 (client_name c) in
  (exists d, find_client (m_clients r.2) c = Some d /\ cl_table d = cl_table r.1) /\
  (exists d, find_client (m_clients m2) c = Some d /\ cl_table d = Some (client_name c)) /\
  (exists evs, m_events m2 = m_events m ++ evs /\ EvUpdate (cl_session c) (client_name c) ∈ evs) /\
  find_client (m_clients (fsm_policy_deregister_client m2 c).2) c = None.
Proof.
  intros Hs Hu r m2. destruct (register_finds m c Hs) as (d & Hd & Hdc & Hdu & _ & Ht & _ & He).
  fold r in Hd, Ht, He. destruct (find_client_some _ _ _ Hd) as [Hin [Hds Hdn]].
  assert (client_updated (client_name c) d = true) as Hupd.
  { unfold client_updated. by rewrite Hdn, String.eqb_refl, Hdu. }
  split_and!.
  - by exists d.
  - unfold m2, fsm_policy_update_clients. cbn [m_clients add_events with_clients].
    rewrite find_client_map by (intros x; by destruct (client_updated _ x)).
    rewrite Hd. cbn. rewrite Hupd. eexists. by split.
  - unfold m2, fsm_policy_update_clients. cbn [m_events add_events with_clients m_clients]. rewrite He.
    eexists. split; [reflexivity|]. apply list_elem_of_omap. exists d. split; [done|].
    by rewrite Hupd, Hds.
  - unfold fsm_policy_deregister_client. rewrite (proj2 (Z.eqb_neq _ _) Hs).
    destruct (find_client (m_clients m2) c) eqn:E; [|done]. apply find_filter_client.
Qed.

Lemma client_lifecycle_witness :
  let c := mk_client 4096 None None true false in
  let r := fsm_policy_register_client mgr_one c in
  let m2 := fsm_policy_update_clients r.2 "default" in
  (exists d, find_client (m_clients r.2) c = Some d /\ cl_table d = cl_table r.1) /\
  (exists d, find_client (m_clients m2) c = Some d /\ cl_table d = Some "default") /\
  (exists evs, m_events m2 = m_events mgr_one ++ evs /\ EvUpdate 4096 "default" ∈ evs) /\
  find_client (m_clients (fsm_policy_deregister_client m2 c).2) c = None.
Proof.
  apply (client_lifecycle mgr_one (mk_client 4096 None None true false)); cbn; [lia|reflexivity].
Defined.
