(* ===== verification/DsDlist.v ===== *)
(** * DsDlist: the doubly linked lists of the common library

    Models [lib/ds/src/ds_dlist.c.h]: intrusive lists with a head, a tail and
    NULL ends, on an explicit store of the nodes embedded in allocated elements.
    An element is known by its address; [CONT_TO_NODE] and [NODE_TO_CONT] are
    then the identity.  The theorems relate the pointer updates to sequences of
    elements. *)
From S2P Require Import Prelude.

(** Address of an element. *)
Abbreviation loc := positive.

(** [ds_dlist_node_t] *)
Record ds_dlist_node := mk_dnode { odn_next : option loc; odn_prev : option loc }.

(** [ds_dlist_t], together with the nodes of the allocated elements. *)
Record ds_dlist := mk_dlist {
  od_head : option loc; od_tail : option loc; od_ndel : Z; od_nodes : gmap loc ds_dlist_node
}.

Definition set_head v d := mk_dlist v (od_tail d) (od_ndel d) (od_nodes d).
Definition set_dtail v d := mk_dlist (od_head d) v (od_ndel d) (od_nodes d).
Definition set_nodes v d := mk_dlist (od_head d) (od_tail d) (od_ndel d) v.
Definition incr_ndel d := mk_dlist (od_head d) (od_tail d) (u32 (od_ndel d + 1)) (od_nodes d).

Definition st_dnext (d : ds_dlist) (x : loc) (v : option loc) : res ds_dlist :=
  n ← deref (od_nodes d !! x); Ok (set_nodes (<[x := mk_dnode v (odn_prev n)]> (od_nodes d)) d).
Definition st_dprev (d : ds_dlist) (x : loc) (v : option loc) : res ds_dlist :=
  n ← deref (od_nodes d !! x); Ok (set_nodes (<[x := mk_dnode (odn_next n) v]> (od_nodes d)) d).

(** [ds_dlist_node_t **into]: the head field or the next field of a node. *)
Inductive into_ptr := IntoHead | IntoNext (x : loc).

Definition ld_into (d : ds_dlist) (into : into_ptr) : res (option loc) :=
  match into with
  | IntoHead => Ok (od_head d)
  | IntoNext x => n ← deref (od_nodes d !! x); Ok (odn_next n)
  end.
Definition st_into (d : ds_dlist) (into : into_ptr) (v : option loc) : res ds_dlist :=
  match into with IntoHead => Ok (set_head v d) | IntoNext x => st_dnext d x v end.

(** ** Operations *)
Definition ds_dlist_init (nodes : gmap loc ds_dlist_node) : ds_dlist := mk_dlist None None 0 nodes.
Definition ds_dlist_is_empty (d : ds_dlist) : bool := bool_decide (od_head d = None).
Definition ds_dlist_next (d : ds_dlist) (x : loc) : res (option loc) :=
  n ← deref (od_nodes d !! x); Ok (odn_next n).
Definition ds_dlist_prev (d : ds_dlist) (x : loc) : res (option loc) :=
  n ← deref (od_nodes d !! x); Ok (odn_prev n).
Definition ds_dlist_head (d : ds_dlist) : option loc := od_head d.
Definition ds_dlist_tail (d : ds_dlist) : option loc := od_tail d.

Definition ds_dlist_insert_into (d : ds_dlist) (into : into_ptr) (node : loc) : res ds_dlist :=
  v ← ld_into d into;
  d ← st_dnext d node v;
  d ← st_into d into (Some node);
  n ← deref (od_nodes d !! node);
  match odn_next n with
  | None =>
      d ← st_dprev d node (od_tail d);
      Ok (set_dtail (Some node) d)
  | Some nx =>
      nn ← deref (od_nodes d !! nx);
      d ← st_dprev d node (odn_prev nn);
      st_dprev d nx (Some node)
  end.

Definition ds_dlist_node_remove (d : ds_dlist) (node : loc) : res ds_dlist :=
  n ← deref (od_nodes d !! node);
  d ← match odn_prev n with
      | None => Ok (set_head (odn_next n) d)
      | Some p => st_dnext d p (odn_next n)
      end;
  n ← deref (od_nodes d !! node);
  d ← match odn_next n with
      | None => Ok (set_dtail (odn_prev n) d)
      | Some x => st_dprev d x (odn_prev n)
      end;
  d ← st_dprev d node None;
  d ← st_dnext d node None;
  Ok (incr_ndel d).

Definition ds_dlist_insert_head (d : ds_dlist) (x : loc) : res ds_dlist :=
  ds_dlist_insert_into d IntoHead x.
Definition ds_dlist_insert_after (d : ds_dlist) (after x : loc) : res ds_dlist :=
  ds_dlist_insert_into d (IntoNext after) x.
Definition ds_dlist_insert_before (d : ds_dlist) (before x : loc) : res ds_dlist :=
  n ← deref (od_nodes d !! before);
  match odn_prev n with
  | None => ds_dlist_insert_head d x
  | Some p => ds_dlist_insert_into d (IntoNext p) x
  end.
Definition ds_dlist_insert_tail (d : ds_dlist) (x : loc) : res ds_dlist :=
  match od_tail d with
  | None => ds_dlist_insert_head d x
  | Some t => ds_dlist_insert_into d (IntoNext t) x
  end.
Definition ds_dlist_remove (d : ds_dlist) (x : loc) : res ds_dlist := ds_dlist_node_remove d x.
Definition ds_dlist_remove_head (d : ds_dlist) : res (option loc * ds_dlist) :=
  match od_head d with
  | None => Ok (None, d)
  | Some rm => d ← ds_dlist_node_remove d rm; Ok (Some rm, d)
  end.
Definition ds_dlist_remove_tail (d : ds_dlist) : res (option loc * ds_dlist) :=
  match od_tail d with
  | None => Ok (None, d)
  | Some rm => d ← ds_dlist_node_remove d rm; Ok (Some rm, d)
  end.
Definition ds_dlist_remove_after (d : ds_dlist) (after : loc) : res (option loc * ds_dlist) :=
  n ← deref (od_nodes d !! after);
  match odn_next n with
  | None => Ok (None, d)
  | Some x => d ← ds_dlist_node_remove d x; Ok (Some x, d)
  end.
Definition ds_dlist_remove_before (d : ds_dlist) (before : loc) : res (option loc * ds_dlist) :=
  n ← deref (od_nodes d !! before);
  match odn_prev n with
  | None => Ok (None, d)
  | Some x => d ← ds_dlist_node_remove d x; Ok (Some x, d)
  end.

(** [ds_dlist_len]: the [ds_dlist_foreach] loop. *)
Fixpoint len_loop (n : nat) (d : ds_dlist) (p : option loc) (acc : Z) : res Z :=
  match n with
  | O => Err FFuel
  | S n' => match p with None => Ok acc | Some x => p ← ds_dlist_next d x; len_loop n' d p (acc + 1) end
  end.
Definition ds_dlist_len (d : ds_dlist) : res Z := len_loop (S (size (od_nodes d))) d (od_head d) 0.

(** ** Iterators, valid while nothing else removes from the list *)
Record ds_dlist_iter := mk_iter { odi_curr : option loc; odi_next : option loc; odi_ndel : Z }.

(** Results of the iterator functions: an element, NULL, or [DS_ITER_ERROR]. *)
Inductive iter_res := IterElem (x : loc) | IterNull | IterError.

Definition iter_of (o : option loc) : iter_res :=
  match o with Some x => IterElem x | None => IterNull end.

Definition ds_dlist_ifirst (d : ds_dlist) : res (iter_res * ds_dlist_iter) :=
  match od_head d with
  | None => Ok (IterNull, mk_iter None None (od_ndel d))
  | Some x => nx ← ds_dlist_next d x; Ok (IterElem x, mk_iter (Some x) nx (od_ndel d))
  end.

Definition ds_dlist_inext_err (d : ds_dlist) (it : ds_dlist_iter) : res (iter_res * ds_dlist_iter) :=
  if negb (od_ndel d =? odi_ndel it) then Ok (IterError, it) else
  match odi_next it with
  | None => Ok (IterNull, mk_iter None (odi_next it) (odi_ndel it))
  | Some x => nx ← ds_dlist_next d x; Ok (IterElem x, mk_iter (Some x) nx (odi_ndel it))
  end.

Definition ds_dlist_iinsert_err (d : ds_dlist) (it : ds_dlist_iter) (x : loc)
    : res (iter_res * ds_dlist) :=
  if negb (od_ndel d =? odi_ndel it) then Ok (IterError, d) else
  match odi_curr it with
  | None => Ok (IterNull, d)
  | Some c => d ← ds_dlist_insert_before d c x; Ok (IterElem x, d)
  end.

Definition ds_dlist_iremove_err (d : ds_dlist) (it : ds_dlist_iter)
    : res (iter_res * ds_dlist * ds_dlist_iter) :=
  if negb (od_ndel d =? odi_ndel it) then Ok (IterError, d, it) else
  match odi_curr it with
  | None => Ok (IterNull, d, it)
  | Some c =>
      d ← ds_dlist_node_remove d c;
      Ok (IterElem c, d, mk_iter None (odi_next it) (u32 (odi_ndel it + 1)))
  end.

(** The asserting versions. *)
Definition ds_dlist_inext (d : ds_dlist) (it : ds_dlist_iter) : res (iter_res * ds_dlist_iter) :=
  '(r, it) ← ds_dlist_inext_err d it;
  match r with IterError => Err FAssert | _ => Ok (r, it) end.
Definition ds_dlist_iinsert (d : ds_dlist) (it : ds_dlist_iter) (x : loc) : res (iter_res * ds_dlist) :=
  '(r, d) ← ds_dlist_iinsert_err d it x;
  match r with IterError => Err FAssert | _ => Ok (r, d) end.
Definition ds_dlist_iremove (d : ds_dlist) (it : ds_dlist_iter)
    : res (iter_res * ds_dlist * ds_dlist_iter) :=
  '(r, d, it) ← ds_dlist_iremove_err d it;
  match r with IterError => Err FAssert | _ => Ok (r, d, it) end.

(** ** Lists as sequences *)

(** The first element of a sequence, or what follows it. *)
Definition hd_or (xs : list loc) (o : option loc) : option loc :=
  match xs with [] => o | y :: _ => Some y end.
Definition last_or (o : option loc) (xs : list loc) : option loc :=
  match last xs with Some y => Some y | None => o end.

(** A segment of nodes with the link before its first and after its last. *)
Fixpoint dseg (N : gmap loc ds_dlist_node) (prev : option loc) (xs : list loc) (nxt : option loc)
    : Prop :=
  match xs with
  | [] => True
  | x :: r => N !! x = Some (mk_dnode (hd_or r nxt) prev) /\ dseg N (Some x) r nxt
  end.

Record dl_rep (d : ds_dlist) (xs : list loc) : Prop := {
  dl_nodup : NoDup xs;
  dl_head : od_head d = head xs;
  dl_tail : od_tail d = last xs;
  dl_seg : dseg (od_nodes d) None xs None
}.

Lemma last_or_cons o x xs : last_or o (x :: xs) = last_or (Some x) xs.
Proof. unfold last_or. rewrite last_cons. by destruct (last xs). Qed.

Lemma hd_or_app l1 l2 o : hd_or (l1 ++ l2) o = hd_or l1 (hd_or l2 o).
Proof. by destruct l1. Qed.

Lemma dseg_app N l1 l2 p n :
  dseg N p (l1 ++ l2) n <-> dseg N p l1 (hd_or l2 n) /\ dseg N (last_or p l1) l2 n.
Proof.
  revert p. induction l1 as [|x l1 IH]; intros p; cbn [app dseg]; [naive_solver|].
  rewrite IH, hd_or_app, last_or_cons. naive_solver.
Qed.

Lemma dseg_frame N N' p xs n :
  (forall x, x ∈ xs -> N' !! x = N !! x) -> dseg N p xs n -> dseg N' p xs n.
Proof.
  revert p. induction xs as [|x xs IH]; intros p Hf; cbn [dseg]; [done|]. intros [Hx Hs].
  split; [rewrite Hf; [done|left]|]. apply IH; [|done]. intros y Hy. apply Hf. by right.
Qed.

Lemma dseg_insert N p xs n x v : x ∉ xs -> dseg N p xs n -> dseg (<[x := v]> N) p xs n.
Proof.
  intros Hx. apply dseg_frame. intros y Hy. rewrite lookup_insert_ne; [done|]. by intros ->.
Qed.

Lemma dseg_dom N p xs n x : dseg N p xs n -> x ∈ xs -> is_Some (N !! x).
Proof.
  revert p. induction xs as [|y xs IH]; intros p; cbn [dseg]; [by intros _ ?%elem_of_nil|].
  intros [Hy Hs] [->|Hx]%elem_of_cons; [by eexists|by eapply IH].
Qed.

(** ** Insertion *)

(** The slot between two parts of a list. *)
Definition slot_after (l1 : list loc) : into_ptr :=
  match last l1 with None => IntoHead | Some a => IntoNext a end.

(** A list given by its parts around the slot: reduce the field accesses. *)
Ltac fields := cbn [od_head od_tail od_ndel od_nodes set_head set_dtail set_nodes incr_ndel
  odn_next odn_prev st_dnext st_dprev st_into ld_into mbind res_bind deref].
Ltac links := repeat (progress fields || rewrite lookup_insert_eq || rewrite lookup_insert_ne by done).

(** The shape of the nodes after an insertion. *)
Lemma insert_shape N N' l1 l2 x :
  NoDup (l1 ++ l2) -> x ∉ l1 ++ l2 -> dseg N None (l1 ++ l2) None ->
  N' !! x = Some (mk_dnode (hd_or l2 None) (last_or None l1)) ->
  (forall a l, l1 = l ++ [a] -> N' !! a = Some (mk_dnode (Some x) (last_or None l))) ->
  (forall b l, l2 = b :: l -> N' !! b = Some (mk_dnode (hd_or l None) (Some x))) ->
  (forall y, y <> x -> last l1 <> Some y -> head l2 <> Some y -> N' !! y = N !! y) ->
  dseg N' None (l1 ++ x :: l2) None.
Proof.
  intros Hn Hx Hs Ex Ea Eb Ef. apply dseg_app in Hs as [H1 H2].
  apply NoDup_app in Hn as (Hn1 & Hd & Hn2). apply dseg_app. cbn [hd_or dseg]. split_and!; [|done|].
  - destruct l1 as [|a l _] using rev_ind; [done|]. apply dseg_app in H1 as [H1 _]. apply dseg_app.
    cbn [hd_or dseg] in *. split_and!; [|by apply Ea|done]. revert H1. apply dseg_frame.
    intros y Hy. apply NoDup_app in Hn1 as (_ & Hn1 & _). apply Ef.
    + intros ->. set_solver.
    + rewrite last_snoc. intros [= ->]. by apply (Hn1 y Hy), list_elem_of_singleton.
    + destruct l2 as [|b l2]; [done|]. cbn. intros [= ->]. apply (Hd y); set_solver.
  - destruct l2 as [|b l]; [done|]. cbn [dseg] in *. destruct H2 as [_ H2]. split; [by apply Eb|].
    revert H2. apply dseg_frame. intros y Hy. apply NoDup_cons in Hn2 as [Hb _]. apply Ef.
    + intros ->. set_solver.
    + intros Hl. apply (Hd y); [by eapply last_Some_elem_of|by right].
    + cbn. intros [= ->]. done.
Qed.

(** The domain of the nodes is not changed by updates of allocated nodes. *)
Ltac dom_same := repeat (rewrite dom_insert_lookup_L;
  [|repeat (apply lookup_insert_is_Some'; right); by eexists]); done.
(** Run field accesses whose nodes are known. *)
Ltac run := repeat (progress links || match goal with
  H : od_nodes _ !! _ = Some _ |- _ => rewrite H end).
(** Lookup in a chain of updates. *)
Ltac look := repeat (rewrite lookup_insert_eq || rewrite lookup_insert_ne by congruence);
  try done; try congruence.

Lemma insert_into_ok d l1 l2 x :
  dl_rep d (l1 ++ l2) -> x ∉ l1 ++ l2 -> is_Some (od_nodes d !! x) ->
  exists d', ds_dlist_insert_into d (slot_after l1) x = Ok d' /\ dl_rep d' (l1 ++ x :: l2) /\
    dom (od_nodes d') = dom (od_nodes d) /\ od_ndel d' = od_ndel d.
Proof.
  intros [Hn Hh Ht Hs] Hx [nx Ex]. unfold ds_dlist_insert_into, st_into, st_dnext, st_dprev.
  pose proof (proj1 (dseg_app _ _ _ _ _) Hs) as [H1 H2].
  assert (NoDup (l1 ++ x :: l2)) as Hn' by (rewrite <- Permutation_middle; by apply NoDup_cons).
  destruct l1 as [|a l1 _] using rev_ind.
  - cbn [slot_after last ld_into]. rewrite Hh. destruct l2 as [|b l2]; cbn [app head] in *.
    + fields. rewrite Ex. links. eexists. split; [reflexivity|]. fields. split_and!; [|dom_same|done].
      split; try done. fields. rewrite Ht. cbn. by rewrite lookup_insert_eq.
    + cbn [last_or last dseg] in H2. destruct H2 as [Eb _].
      assert (b <> x) by (intros ->; set_solver).
      fields. rewrite Ex. links. rewrite Eb. links. rewrite Eb. fields.
      eexists. split; [reflexivity|]. fields. split_and!; [|dom_same|done].
      split; try done. fields. apply (insert_shape (od_nodes d) _ [] (b :: l2)); try done.
      * look.
      * intros a l. by destruct l.
      * intros b' l' [= <- <-]. look.
      * intros y ? ? Hy. cbn in Hy. look.
  - unfold slot_after. rewrite last_snoc. cbn [ld_into].
    apply dseg_app in H1 as [_ [Ea _]]. cbn [hd_or] in Ea.
    assert (a <> x) by (intros ->; set_solver).
    assert (od_tail d = last_or (Some a) l2) as Ht'.
    { rewrite Ht, last_app, last_snoc. unfold last_or. by destruct (last l2). }
    fields. rewrite Ea. links. rewrite Ex. links. rewrite Ea. links.
    destruct l2 as [|b l2]; fields.
    + cbn [hd_or]. links. eexists. split; [reflexivity|]. fields. split_and!; [|dom_same|done].
      split; try done; fields.
      * rewrite Hh, app_nil_r. by destruct l1.
      * by rewrite last_snoc.
      * apply (insert_shape (od_nodes d) _ (l1 ++ [a]) []); try done.
        -- look. rewrite Ht'. unfold last_or. by rewrite last_snoc.
        -- intros a' l' [<- [= <-]]%app_inj_2; [|done]. look.
        -- intros y ? Hy _. rewrite last_snoc in Hy. look.
    + cbn [hd_or dseg] in *. unfold last_or in H2. rewrite last_snoc in H2. destruct H2 as [Eb _].
      assert (b <> x) by (intros ->; set_solver).
      assert (b <> a) by (intros ->; apply NoDup_app in Hn as (_ & Hd & _); apply (Hd a); set_solver).
      links. rewrite Eb. links. rewrite Eb. fields.
      eexists. split; [reflexivity|]. fields. split_and!; [|dom_same|done].
      split; try done; fields.
      * rewrite Hh. by destruct l1.
      * rewrite Ht, !last_app. cbn [last]. by destruct l2.
      * apply (insert_shape (od_nodes d) _ (l1 ++ [a]) (b :: l2)); try done.
        -- look. unfold last_or. by rewrite last_snoc.
        -- intros a' l' [<- [= <-]]%app_inj_2; [|done]. look.
        -- intros b' l' [= <- <-]. look.
        -- intros y ? Hy Hy'. rewrite last_snoc in Hy. cbn in Hy'. look.
Qed.

(** ** Removal *)
Lemma remove_shape N N' l1 l2 x :
  NoDup (l1 ++ x :: l2) -> dseg N None (l1 ++ x :: l2) None ->
  (forall a l, l1 = l ++ [a] -> N' !! a = Some (mk_dnode (hd_or l2 None) (last_or None l))) ->
  (forall b l, l2 = b :: l -> N' !! b = Some (mk_dnode (hd_or l None) (last_or None l1))) ->
  (forall y, y <> x -> last l1 <> Some y -> head l2 <> Some y -> N' !! y = N !! y) ->
  dseg N' None (l1 ++ l2) None.
Proof.
  intros Hn Hs Ea Eb Ef. apply dseg_app in Hs as [H1 H2]. cbn [dseg] in H2. destruct H2 as [_ H2].
  apply NoDup_app in Hn as (Hn1 & Hd & [Hx Hn2]%NoDup_cons). apply dseg_app. split.
  - destruct l1 as [|a l _] using rev_ind; [done|]. apply dseg_app in H1 as [H1 _]. apply dseg_app.
    cbn [hd_or dseg] in *. split_and!; [|by apply Ea|done]. revert H1. apply dseg_frame.
    intros y Hy. apply NoDup_app in Hn1 as (_ & Hn1 & _). apply Ef.
    + intros ->. apply (Hd x); set_solver.
    + rewrite last_snoc. intros [= ->]. by apply (Hn1 y Hy), list_elem_of_singleton.
    + destruct l2 as [|b l2]; [done|]. cbn. intros [= ->]. apply (Hd y); set_solver.
  - destruct l2 as [|b l]; [done|]. cbn [dseg] in *. destruct H2 as [_ H2]. split; [by apply Eb|].
    revert H2. apply dseg_frame. intros y Hy. apply NoDup_cons in Hn2 as [Hb _]. apply Ef.
    + intros ->. set_solver.
    + intros Hl. apply (Hd y); [by eapply last_Some_elem_of|set_solver].
    + cbn. intros [= ->]. done.
Qed.

Lemma node_remove_ok d l1 l2 x :
  dl_rep d (l1 ++ x :: l2) ->
  exists d', ds_dlist_node_remove d x = Ok d' /\ dl_rep d' (l1 ++ l2) /\
    dom (od_nodes d') = dom (od_nodes d) /\ od_ndel d' = u32 (od_ndel d + 1) /\
    od_nodes d' !! x = Some (mk_dnode None None).
Proof.
  intros [Hn Hh Ht Hs]. unfold ds_dlist_node_remove, st_dnext, st_dprev.
  pose proof (proj1 (dseg_app _ _ _ _ _) Hs) as [H1 [Ex H2]].
  assert (NoDup (l1 ++ l2)) as Hn' by (rewrite <- Permutation_middle in Hn; by apply NoDup_cons in Hn as []).
  rewrite Ex. fields.
  destruct l1 as [|a l1 _] using rev_ind.
  - unfold last_or in *. cbn [last] in *. destruct l2 as [|b l2]; cbn [hd_or] in *.
    + run. eexists. split; [reflexivity|]. split_and!; [|fields; dom_same|done|fields; look].
      by split.
    + cbn [dseg] in H2. destruct H2 as [Eb _].
      assert (b <> x) by (intros ->; apply NoDup_cons in Hn as [? _]; set_solver).
      run. eexists. split; [reflexivity|]. split_and!; [|fields; dom_same|done|fields; look].
      split; fields; try done. apply (remove_shape (od_nodes d) _ [] (b :: l2) x); try done.
      * intros a l. by destruct l.
      * intros b' l' [= <- <-]. look.
      * intros y ? ? Hy. cbn in Hy. look.
  - apply dseg_app in H1 as [_ [Ea _]]. cbn [hd_or] in Ea. unfold last_or in Ex, H2. rewrite last_snoc in Ex.
    unfold last_or at 1. rewrite last_snoc.
    assert (a <> x).
    { intros ->. apply NoDup_app in Hn as (_ & Hd & _). apply (Hd x); set_solver. }
    destruct l2 as [|b l2]; cbn [hd_or] in *.
    + run. eexists. split; [reflexivity|]. split_and!; [|fields; dom_same|done|fields; look].
      split; fields; try done.
      * rewrite Hh, app_nil_r. by destruct l1.
      * by rewrite app_nil_r, last_snoc.
      * apply (remove_shape (od_nodes d) _ (l1 ++ [a]) [] x); try done.
        -- intros a' l' [<- [= <-]]%app_inj_2; [|done]. look.
        -- intros y ? Hy _. rewrite last_snoc in Hy. look.
    + cbn [dseg] in H2. destruct H2 as [Eb _].
      assert (b <> x).
      { intros ->. apply NoDup_app in Hn as (_ & _ & Hn). apply NoDup_cons in Hn as [? _]. set_solver. }
      assert (b <> a).
      { intros ->. apply NoDup_app in Hn as (_ & Hd & _). apply (Hd a); set_solver. }
      run. eexists. split; [reflexivity|]. split_and!; [|fields; dom_same|done|fields; look].
      split; fields; try done.
      * rewrite Hh. by destruct l1.
      * rewrite Ht, !last_app. cbn [last]. by destruct l2.
      * apply (remove_shape (od_nodes d) _ (l1 ++ [a]) (b :: l2) x); try done.
        -- intros a' l' [<- [= <-]]%app_inj_2; [|done]. look.
        -- intros b' l' [= <- <-]. look. unfold last_or. by rewrite last_snoc.
        -- intros y ? Hy Hy'. rewrite last_snoc in Hy. cbn in Hy'. look.
Qed.

(** ** Reading *)
Lemma next_ok d l1 l2 x :
  dl_rep d (l1 ++ x :: l2) -> ds_dlist_next d x = Ok (hd_or l2 None).
Proof.
  intros [_ _ _ Hs]. apply dseg_app in Hs as [_ [Ex _]]. unfold ds_dlist_next. by rewrite Ex.
Qed.

Lemma prev_ok d l1 l2 x :
  dl_rep d (l1 ++ x :: l2) -> ds_dlist_prev d x = Ok (last l1).
Proof.
  intros [_ _ _ Hs]. apply dseg_app in Hs as [_ [Ex _]]. unfold ds_dlist_prev. rewrite Ex. cbn.
  unfold last_or. by destruct (last l1).
Qed.

Lemma hd_or_None l : hd_or l None = head l.
Proof. by destruct l. Qed.

Lemma rep_dom d xs x : dl_rep d xs -> x ∈ xs -> is_Some (od_nodes d !! x).
Proof. intros R. eapply dseg_dom, (dl_seg _ _ R). Qed.

Lemma rep_short d xs : dl_rep d xs -> (length xs <= size (od_nodes d))%nat.
Proof.
  intros R. rewrite <- size_dom. replace (length xs) with (size (list_to_set xs : gset loc)).
  - apply subseteq_size. intros x Hx%elem_of_list_to_set. apply elem_of_dom. by eapply rep_dom.
  - apply size_list_to_set, (dl_nodup _ _ R).
Qed.

Lemma len_loop_ok d l1 l2 n acc :
  dl_rep d (l1 ++ l2) -> (length l2 < n)%nat ->
  len_loop n d (hd_or l2 None) acc = Ok (acc + Z.of_nat (length l2)).
Proof.
  revert l1 n acc. induction l2 as [|x l2 IH]; intros l1 [|n] acc R Hn; cbn [length] in Hn; try lia.
  - cbn. f_equal. lia.
  - cbn [hd_or len_loop]. rewrite (next_ok _ _ _ _ R). cbind.
    rewrite (IH (l1 ++ [x])); [f_equal; cbn; lia|by rewrite <- app_assoc|lia].
Qed.

Lemma len_ok d xs : dl_rep d xs -> ds_dlist_len d = Ok (Z.of_nat (length xs)).
Proof.
  intros R. unfold ds_dlist_len. rewrite (dl_head _ _ R), <- hd_or_None.
  rewrite (len_loop_ok d [] xs); [done|done|]. pose proof (rep_short _ _ R). lia.
Qed.

Lemma init_ok nodes : dl_rep (ds_dlist_init nodes) [].
Proof. split; try done. constructor. Qed.

(** Elements outside the list may be allocated and freed. *)
Lemma rep_frame d xs nodes :
  (forall x, x ∈ xs -> nodes !! x = od_nodes d !! x) -> dl_rep d xs -> dl_rep (set_nodes nodes d) xs.
Proof. intros Hf [H1 H2 H3 H4]. split; try done. revert H4. by apply dseg_frame. Qed.

(** ** Operations on sequences *)
Inductive dl_op :=
| InsHead (x : loc) | InsTail (x : loc) | InsAfter (a x : loc) | InsBefore (b x : loc)
| Remove (x : loc) | RemHead | RemTail | RemAfter (a : loc) | RemBefore (b : loc).

(** The operations of the code, the removed element dropped. *)
Definition dl_run1 (d : ds_dlist) (o : dl_op) : res ds_dlist :=
  match o with
  | InsHead x => ds_dlist_insert_head d x
  | InsTail x => ds_dlist_insert_tail d x
  | InsAfter a x => ds_dlist_insert_after d a x
  | InsBefore b x => ds_dlist_insert_before d b x
  | Remove x => ds_dlist_remove d x
  | RemHead => '(_, d) ← ds_dlist_remove_head d; Ok d
  | RemTail => '(_, d) ← ds_dlist_remove_tail d; Ok d
  | RemAfter a => '(_, d) ← ds_dlist_remove_after d a; Ok d
  | RemBefore b => '(_, d) ← ds_dlist_remove_before d b; Ok d
  end.

(** The sequence before and after the first occurrence of an element. *)
Fixpoint split_at (x : loc) (xs : list loc) : option (list loc * list loc) :=
  match xs with
  | [] => None
  | y :: r => if decide (y = x) then Some ([], r) else '(l1, l2) ← split_at x r; Some (y :: l1, l2)
  end.

Definition is_new (x : loc) (xs : list loc) : bool := bool_decide (x ∉ xs).

(** Their meaning on sequences; [None] where the caller breaks the contract:
    inserting an element twice, or naming one that is not in the list. *)
Definition dl_spec1 (xs : list loc) (o : dl_op) : option (list loc) :=
  match o with
  | InsHead x => if is_new x xs then Some (x :: xs) else None
  | InsTail x => if is_new x xs then Some (xs ++ [x]) else None
  | InsAfter a x => if is_new x xs then '(l1, l2) ← split_at a xs; Some (l1 ++ a :: x :: l2) else None
  | InsBefore b x => if is_new x xs then '(l1, l2) ← split_at b xs; Some (l1 ++ x :: b :: l2) else None
  | Remove x => '(l1, l2) ← split_at x xs; Some (l1 ++ l2)
  | RemHead => Some (tail xs)
  | RemTail => Some (removelast xs)
  | RemAfter a => '(l1, l2) ← split_at a xs; Some (l1 ++ a :: tail l2)
  | RemBefore b => '(l1, l2) ← split_at b xs; Some (removelast l1 ++ b :: l2)
  end.

Lemma split_at_Some x xs l1 l2 : split_at x xs = Some (l1, l2) -> xs = l1 ++ x :: l2.
Proof.
  revert l1. induction xs as [|y xs IH]; intros l1; cbn; [done|].
  destruct (decide (y = x)) as [->|]; [by intros [= <- <-]|].
  destruct (split_at x xs) as [[l1' l2']|]; [|done]. cbn. intros [= <- <-]. cbn. f_equal. by apply IH.
Qed.

(** The element an operation inserts. *)
Definition op_inserts (o : dl_op) : option loc :=
  match o with InsHead x | InsTail x | InsAfter _ x | InsBefore _ x => Some x | _ => None end.

Lemma slot_snoc l a : slot_after (l ++ [a]) = IntoNext a.
Proof. unfold slot_after. by rewrite last_snoc. Qed.

Lemma insert_tail_ok d xs x :
  dl_rep d xs -> x ∉ xs -> is_Some (od_nodes d !! x) ->
  exists d', ds_dlist_insert_tail d x = Ok d' /\ dl_rep d' (xs ++ [x]) /\
    dom (od_nodes d') = dom (od_nodes d) /\ od_ndel d' = od_ndel d.
Proof.
  intros R Hx Hd. unfold ds_dlist_insert_tail. rewrite (dl_tail _ _ R).
  destruct (insert_into_ok d xs [] x) as (d' & E & Hr); rewrite ?app_nil_r; try done.
  exists d'. split; [|done]. rewrite <- E. unfold slot_after. by destruct (last xs).
Qed.

Lemma remove_head_ok d xs :
  dl_rep d xs -> exists d', ds_dlist_remove_head d = Ok (head xs, d') /\ dl_rep d' (tail xs) /\
    dom (od_nodes d') = dom (od_nodes d).
Proof.
  intros R. unfold ds_dlist_remove_head. rewrite (dl_head _ _ R). destruct xs as [|x xs]; cbn [head tail].
  - by exists d.
  - destruct (node_remove_ok d [] xs x R) as (d' & -> & R' & Hd & _). cbind. by exists d'.
Qed.

Lemma op_ok d xs o ys :
  dl_rep d xs -> (forall x, op_inserts o = Some x -> is_Some (od_nodes d !! x)) ->
  dl_spec1 xs o = Some ys ->
  exists d', dl_run1 d o = Ok d' /\ dl_rep d' ys /\ dom (od_nodes d') = dom (od_nodes d).
Proof.
  intros R Ha Hs. destruct o; cbn [dl_spec1 dl_run1 op_inserts] in *.
  - unfold is_new in Hs. case_bool_decide as Hx; [|done]. injection Hs as <-.
    destruct (insert_into_ok d [] xs x R Hx (Ha _ eq_refl)) as (d' & E & ? & ? & _). by exists d'.
  - unfold is_new in Hs. case_bool_decide as Hx; [|done]. injection Hs as <-.
    destruct (insert_tail_ok d xs x R Hx (Ha _ eq_refl)) as (d' & E & ? & ? & _). by exists d'.
  - unfold is_new in Hs. case_bool_decide as Hx; [|done].
    destruct (split_at a xs) as [[l1 l2]|] eqn:E; [|done]. cbn in Hs. injection Hs as <-.
    apply split_at_Some in E as ->. rewrite cons_middle, app_assoc in R, Hx.
    destruct (insert_into_ok d (l1 ++ [a]) l2 x R Hx (Ha _ eq_refl)) as (d' & E & R' & Hd & _).
    rewrite slot_snoc in E. exists d'. split_and!; [done| |done]. by rewrite <- app_assoc in R'.
  - unfold is_new in Hs. case_bool_decide as Hx; [|done].
    destruct (split_at b xs) as [[l1 l2]|] eqn:E; [|done]. cbn in Hs. injection Hs as <-.
    apply split_at_Some in E as ->.
    destruct (insert_into_ok d l1 (b :: l2) x R Hx (Ha _ eq_refl)) as (d' & E & R' & Hd & _).
    exists d'. split; [|done]. unfold ds_dlist_insert_before.
    pose proof (prev_ok _ _ _ _ R) as Hp. unfold ds_dlist_prev in Hp.
    destruct (od_nodes d !! b) as [nb|]; [|done]. cbn [deref] in *. cbind. cbn in Hp. injection Hp as Hp.
    rewrite Hp. unfold slot_after in E. by destruct (last l1).
  - destruct (split_at x xs) as [[l1 l2]|] eqn:E; [|done]. cbn in Hs. injection Hs as <-.
    apply split_at_Some in E as ->. destruct (node_remove_ok d l1 l2 x R) as (d' & ? & ? & ? & _).
    by exists d'.
  - injection Hs as <-. destruct (remove_head_ok d xs R) as (d' & -> & ? & ?). cbind. by exists d'.
  - injection Hs as <-. unfold ds_dlist_remove_tail. rewrite (dl_tail _ _ R).
    destruct xs as [|x l _] using rev_ind; [by exists d|]. rewrite last_snoc, removelast_last.
    destruct (node_remove_ok d l [] x R) as (d' & -> & R' & ? & _). cbind. exists d'.
    by rewrite app_nil_r in R'.
  - destruct (split_at a xs) as [[l1 l2]|] eqn:E; [|done]. cbn in Hs. injection Hs as <-.
    apply split_at_Some in E as ->. unfold ds_dlist_remove_after.
    pose proof (next_ok _ _ _ _ R) as Hp. unfold ds_dlist_next in Hp.
    destruct (od_nodes d !! a) as [nb|]; [|done]. cbn [deref] in *. cbind. cbn in Hp. injection Hp as Hp.
    rewrite Hp. destruct l2 as [|y l2]; cbn [hd_or tail]; [by exists d|].
    rewrite cons_middle, app_assoc in R.
    destruct (node_remove_ok d (l1 ++ [a]) l2 y R) as (d' & -> & R' & ? & _). cbind. exists d'.
    by rewrite <- app_assoc in R'.
  - destruct (split_at b xs) as [[l1 l2]|] eqn:E; [|done]. cbn in Hs. injection Hs as <-.
    apply split_at_Some in E as ->. unfold ds_dlist_remove_before.
    pose proof (prev_ok _ _ _ _ R) as Hp. unfold ds_dlist_prev in Hp.
    destruct (od_nodes d !! b) as [nb|]; [|done]. cbn [deref] in *. cbind. cbn in Hp. injection Hp as Hp.
    rewrite Hp. destruct l1 as [|y l _] using rev_ind; [by exists d|]. rewrite last_snoc, removelast_last.
    rewrite <- app_assoc in R. destruct (node_remove_ok d l (b :: l2) y R) as (d' & -> & R' & ? & _).
    cbind. by exists d'.
Qed.

Fixpoint dl_run (d : ds_dlist) (os : list dl_op) : res ds_dlist :=
  match os with [] => Ok d | o :: os' => d ← dl_run1 d o; dl_run d os' end.
Fixpoint dl_spec (xs : list loc) (os : list dl_op) : option (list loc) :=
  match os with [] => Some xs | o :: os' => ys ← dl_spec1 xs o; dl_spec ys os' end.

(** C39: The list is a faithful sequence.  Any sequence of insertions (head,
    tail, after, before) and removals that respects the contract of the API runs
    without touching unallocated memory, and the links then spell exactly the
    sequence obtained by the same operations on plain sequences, readable in both
    directions; [ds_dlist_len] gives its length. *)
Theorem dlist_refines d xs os ys :
  dl_rep d xs -> (forall o x, o ∈ os -> op_inserts o = Some x -> is_Some (od_nodes d !! x)) ->
  dl_spec xs os = Some ys ->
  exists d', dl_run d os = Ok d' /\ dl_rep d' ys /\ ds_dlist_len d' = Ok (Z.of_nat (length ys)).
Proof.
  revert d xs. induction os as [|o os IH]; intros d xs R Ha Hs; cbn [dl_run dl_spec] in *.
  - injection Hs as <-. exists d. split_and!; [done|done|by apply len_ok].
  - destruct (dl_spec1 xs o) as [zs|] eqn:Eo; [|done]. cbn in Hs.
    destruct (op_ok d xs o zs R) as (d1 & -> & R1 & Hd); [|done|].
    { intros x. apply Ha. by left. }
    cbind. apply (IH d1 zs R1); [|done]. intros o' x Ho Hx. apply elem_of_dom. rewrite Hd.
    apply elem_of_dom, (Ha o'); [by right|done].
Qed.

Lemma dlist_refines_witness :
  exists d', dl_run (ds_dlist_init {[1%positive := mk_dnode None None; 2%positive := mk_dnode None None;
      3%positive := mk_dnode None None]})
      [InsTail 1%positive; InsTail 3%positive; InsAfter 1%positive 2%positive; RemHead] = Ok d' /\
    dl_rep d' [2%positive; 3%positive] /\ ds_dlist_len d' = Ok 2.
Proof.
  apply (dlist_refines _ [] _ [2%positive; 3%positive]); [apply init_ok| |reflexivity].
  intros o x Ho Hx. repeat (apply elem_of_cons in Ho as [->|Ho]; [cbn in Hx; try discriminate Hx;
    injection Hx as <-; by eexists|]). by apply elem_of_nil in Ho.
Defined.

(** ** Iteration with removal *)

(** [ds_dlist_foreach_iter] whose body removes the current element through the
    iterator when [p] asks for it; gives the elements visited. *)
Fixpoint iter_loop (n : nat) (p : loc -> bool) (d : ds_dlist) (it : ds_dlist_iter) (r : iter_res)
    : res (list loc * ds_dlist) :=
  match n with
  | O => Err FFuel
  | S n' =>
      match r with
      | IterNull | IterError => Ok ([], d)
      | IterElem x =>
          '(d, it) ← (if p x then '(_, d, it) ← ds_dlist_iremove d it; Ok (d, it) else Ok (d, it));
          '(r, it) ← ds_dlist_inext d it;
          '(vs, d) ← iter_loop n' p d it r;
          Ok (x :: vs, d)
      end
  end.

Definition foreach_iter (p : loc -> bool) (d : ds_dlist) : res (list loc * ds_dlist) :=
  '(r, it) ← ds_dlist_ifirst d;
  iter_loop (S (size (od_nodes d))) p d it r.

Lemma iter_loop_ok n p d l1 l2 :
  dl_rep d (l1 ++ l2) -> (length l2 < n)%nat ->
  exists d', iter_loop n p d (mk_iter (head l2) (head (tail l2)) (od_ndel d)) (iter_of (head l2)) =
      Ok (l2, d') /\ dl_rep d' (l1 ++ filter (fun x => p x = false) l2).
Proof.
  revert d l1 n. induction l2 as [|x l2 IH]; intros d l1 [|n] R Hn; cbn [length] in Hn; try lia;
    cbn [head tail iter_of iter_loop].
  { by exists d. }
  rewrite filter_cons. unfold ds_dlist_inext, ds_dlist_inext_err.
  destruct (p x) eqn:Ep; cbn [decide].
  - rewrite decide_False by done. unfold ds_dlist_iremove, ds_dlist_iremove_err.
    cbn [odi_ndel odi_curr odi_next]. rewrite Z.eqb_refl. cbn [negb].
    destruct (node_remove_ok d l1 l2 x R) as (d1 & -> & R1 & _ & Hdel & _). cbind.
    cbn [odi_ndel odi_next]. rewrite Hdel, Z.eqb_refl. cbn [negb].
    destruct (IH d1 l1 n R1) as (d2 & E & R2); [lia|]. rewrite Hdel in E.
    destruct l2 as [|y l2]; cbn [head tail iter_of] in *.
    + cbind. rewrite E. cbind. by exists d2.
    + rewrite (next_ok _ _ _ _ R1), hd_or_None. cbind. rewrite E. cbind. by exists d2.
  - rewrite decide_True by done. cbind. cbn [odi_ndel odi_next]. rewrite Z.eqb_refl. cbn [negb].
    rewrite cons_middle, app_assoc in R.
    destruct (IH d (l1 ++ [x]) n R) as (d2 & E & R2); [lia|]. rewrite <- app_assoc in R2.
    destruct l2 as [|y l2]; cbn [head tail iter_of] in *.
    + cbind. rewrite E. cbind. by exists d2.
    + rewrite (next_ok _ _ _ _ R), hd_or_None. cbind. rewrite E. cbind. by exists d2.
Qed.

(** An iterator that removes the current element as it goes visits every
    element exactly once and in order, and leaves the list without the removed
    ones: removal through the iterator never trips its own check. *)
Theorem iteration_with_removal d xs p :
  dl_rep d xs -> exists d', foreach_iter p d = Ok (xs, d') /\
    dl_rep d' (filter (fun x => p x = false) xs).
Proof.
  intros R. unfold foreach_iter, ds_dlist_ifirst. rewrite (dl_head _ _ R).
  destruct (iter_loop_ok (S (size (od_nodes d))) p d [] xs R) as (d' & E & R').
  { pose proof (rep_short _ _ R). lia. }
  exists d'. split; [|done]. destruct xs as [|x xs]; cbn [head tail iter_of] in *.
  - cbind. exact E.
  - rewrite (next_ok d [] xs x R), hd_or_None. cbind. exact E.
Qed.

Lemma iteration_with_removal_witness :
  exists d', foreach_iter (fun x => (x <=? 1)%positive)
      (mk_dlist (Some 1%positive) (Some 2%positive) 0
        {[1%positive := mk_dnode (Some 2%positive) None; 2%positive := mk_dnode None (Some 1%positive)]}) =
      Ok ([1%positive; 2%positive], d') /\
    dl_rep d' (filter (fun x => (x <=? 1)%positive = false) [1%positive; 2%positive]).
Proof.
  apply iteration_with_removal. split; try reflexivity; [|cbn; split_and!; done].
  apply NoDup_cons. split; [|apply NoDup_singleton]. rewrite list_elem_of_singleton. discriminate.
Defined.

(** Removal behind the iterator's back is reported at the next step. *)
Lemma foreign_removal_detected d d' it x :
  odi_ndel it = od_ndel d -> 0 <= od_ndel d < 2 ^ 32 -> ds_dlist_remove d x = Ok d' ->
  (exists xs, dl_rep d xs /\ x ∈ xs) -> ds_dlist_inext d' it = Err FAssert.
Proof.
  intros Hi Hr E (xs & R & (l1 & l2 & ->)%list_elem_of_split).
  destruct (node_remove_ok d l1 l2 x R) as (d2 & E2 & _ & _ & Hd & _).
  unfold ds_dlist_remove in E. rewrite E in E2. injection E2 as <-.
  unfold ds_dlist_inext, ds_dlist_inext_err. rewrite Hd, Hi.
  assert (u32 (od_ndel d + 1) <> od_ndel d) as Hne%Z.eqb_neq; [|by rewrite Hne].
  unfold u32. destruct (decide (od_ndel d = 2 ^ 32 - 1)) as [->|]; [done|].
  rewrite Z.mod_small by lia. lia.
Qed.
