(* ===== verification/DsDlistMem.v ===== *)
(** * DsDlistMem: several lists in one memory

    An element embeds one list node and moves between lists: the lists of a component
    share the nodes.  Here the heads are separated from the memory, an operation on
    one list is run with the shared nodes, and each operation is shown to leave the
    nodes of other lists alone. *)
From S2P Require Import Prelude DsDlist.

(** The fields of [ds_dlist_t]. *)
Record dhead := mk_dhead { dh_head : option loc; dh_tail : option loc; dh_ndel : Z }.
Abbreviation nodes := (gmap loc ds_dlist_node).

Definition dhead_init : dhead := mk_dhead None None 0.
Definition open (h : dhead) (N : nodes) : ds_dlist := mk_dlist (dh_head h) (dh_tail h) (dh_ndel h) N.
Definition close (d : ds_dlist) : dhead * nodes := (mk_dhead (od_head d) (od_tail d) (od_ndel d), od_nodes d).
Definition on_list (f : ds_dlist -> res ds_dlist) (h : dhead) (N : nodes) : res (dhead * nodes) :=
  d ← f (open h N); Ok (close d).

(** [h] heads the list [xs] in the memory [N]. *)
Definition lrep (N : nodes) (h : dhead) (xs : list loc) : Prop := dl_rep (open h N) xs.

Lemma lrep_init N : lrep N dhead_init [].
Proof. apply init_ok. Qed.
Lemma lrep_frame N N' h xs : (forall x, x ∈ xs -> N' !! x = N !! x) -> lrep N h xs -> lrep N' h xs.
Proof. intros Hf. by apply rep_frame. Qed.
Lemma lrep_head N h xs : lrep N h xs -> dh_head h = head xs.
Proof. intros R. apply (dl_head _ _ R). Qed.
Lemma lrep_nodup N h xs : lrep N h xs -> NoDup xs.
Proof. intros R. apply (dl_nodup _ _ R). Qed.
Lemma lrep_dom N h xs x : lrep N h xs -> x ∈ xs -> is_Some (N !! x).
Proof. intros R. apply (rep_dom _ _ _ R). Qed.
Lemma lrep_empty N h xs : lrep N h xs -> ds_dlist_is_empty (open h N) = bool_decide (xs = []).
Proof. intros R. unfold ds_dlist_is_empty. rewrite (dl_head _ _ R). apply bool_decide_ext. by destruct xs. Qed.

(** The list is determined by the memory. *)
Lemma dseg_unique N xs : forall p ys, dseg N p xs None -> dseg N p ys None -> head xs = head ys -> xs = ys.
Proof.
  induction xs as [|x xs IH]; intros p [|y ys]; cbn [dseg head]; try done. intros [Ex Hx] [Ey Hy] [= ->]. f_equal. eapply IH; [done..|].
  rewrite Ex in Ey. injection Ey as E. by rewrite !hd_or_None in E.
Qed.
Lemma lrep_unique N h xs ys : lrep N h xs -> lrep N h ys -> xs = ys.
Proof. intros [_ Hh _ Hs] [_ Hh' _ Hs']. eapply dseg_unique; [done..|]. by rewrite <- Hh, <- Hh'. Qed.

(** ** The nodes an operation writes *)
Lemma insert_into_frame d into x d' y :
  ds_dlist_insert_into d into x = Ok d' -> y <> x -> into <> IntoNext y -> ld_into d into <> Ok (Some y) ->
  od_nodes d' !! y = od_nodes d !! y.
Proof.
  unfold ds_dlist_insert_into. intros E Hx Hi Hn. apply bind_Ok in E as (v & Ev & E). rewrite Ev in Hn.
  apply bind_Ok in E as (d1 & E1 & E). apply bind_Ok in E as (d2 & E2 & E). apply bind_Ok in E as (n & En & E).
  assert (H1 : od_nodes d1 !! y = od_nodes d !! y).
  { unfold st_dnext in E1. inv_ok E1. injection E1 as <-. cbn. by rewrite lookup_insert_ne. }
  assert (Hx1 : exists n1, od_nodes d1 !! x = Some n1 /\ odn_next n1 = v).
  { unfold st_dnext in E1. inv_ok E1. injection E1 as <-. cbn. rewrite lookup_insert_eq. by eexists. }
  assert (H2 : od_nodes d2 !! y = od_nodes d1 !! y /\ (odn_next n = v \/ odn_next n = Some x)).
  { destruct into as [|z]; cbn [st_into] in E2.
    - injection E2 as <-. cbn in *. destruct Hx1 as (n1 & En1 & Hv). rewrite En1 in En. cbn in En. injection En as <-. auto.
    - unfold st_dnext in E2. inv_ok E2. injection E2 as <-. cbn in *. rewrite lookup_insert_ne by congruence. split; [done|].
      destruct Hx1 as (n1 & En1 & Hv). destruct (decide (z = x)) as [->|Hz].
      + rewrite lookup_insert_eq in En. cbn in En. injection En as <-. auto.
      + rewrite lookup_insert_ne, En1 in En by done. cbn in En. injection En as <-. auto. }
  destruct H2 as [H2 Hnx]. rewrite <- H1, <- H2.
  destruct (odn_next n) as [nx|].
  - apply bind_Ok in E as (nn & _ & E). apply bind_Ok in E as (d3 & E3 & E). unfold st_dprev in E3, E. inv_ok E3. injection E3 as <-. inv_ok E. injection E as <-.
    cbn. assert (nx <> y) by (destruct Hnx as [<-|[= ->]]; congruence). by rewrite !lookup_insert_ne.
  - apply bind_Ok in E as (d3 & E3 & E). injection E as <-. unfold st_dprev in E3. inv_ok E3. injection E3 as <-. cbn. by rewrite lookup_insert_ne.
Qed.

Lemma node_remove_frame d x d' n y :
  ds_dlist_node_remove d x = Ok d' -> od_nodes d !! x = Some n -> y <> x -> odn_next n <> Some y -> odn_prev n <> Some y ->
  odn_prev n <> Some x -> od_nodes d' !! y = od_nodes d !! y.
Proof.
  unfold ds_dlist_node_remove. intros E En Hx Hnx Hpv Hps. rewrite En in E. cbn [deref] in E. cbind. cbn [mbind res_bind] in E.
  apply bind_Ok in E as (d1 & E1 & E). apply bind_Ok in E as (n1 & En1 & E). apply bind_Ok in E as (d2 & E2 & E).
  apply bind_Ok in E as (d3 & E3 & E). apply bind_Ok in E as (d4 & E4 & E). injection E as <-.
  assert (H1 : od_nodes d1 !! y = od_nodes d !! y /\ n1 = n).
  { destruct (odn_prev n) as [p|].
    - unfold st_dnext in E1. inv_ok E1. injection E1 as <-. cbn in *. rewrite lookup_insert_ne in * by congruence. rewrite En in En1. by injection En1.
    - injection E1 as <-. cbn in *. rewrite En in En1. by injection En1. }
  destruct H1 as [H1 ->].
  assert (H2 : od_nodes d2 !! y = od_nodes d1 !! y).
  { destruct (odn_next n) as [q|]; [|by injection E2 as <-]. unfold st_dprev in E2. inv_ok E2. injection E2 as <-. cbn. by rewrite lookup_insert_ne by congruence. }
  unfold st_dprev in E3. inv_ok E3. injection E3 as <-. unfold st_dnext in E4. inv_ok E4. injection E4 as <-. cbn. rewrite !lookup_insert_ne by done. congruence.
Qed.

(** ** Operations *)
Section Ops.
Context (N : nodes) (h : dhead).

Lemma list_insert_ok l1 l2 x : lrep N h (l1 ++ l2) -> x ∉ l1 ++ l2 -> is_Some (N !! x) ->
  exists h' N', on_list (fun d => ds_dlist_insert_into d (slot_after l1) x) h N = Ok (h', N') /\ lrep N' h' (l1 ++ x :: l2) /\
    dom N' = dom N /\ (forall y, y ∉ l1 ++ x :: l2 -> N' !! y = N !! y).
Proof.
  intros R Hx Ha. destruct (insert_into_ok _ _ _ _ R Hx Ha) as (d' & E & R' & Hd & _). unfold on_list. rewrite E. cbind.
  do 2 eexists. split_and!; [done| |done|]; [by destruct d'|]. intros y Hy. apply (insert_into_frame _ _ _ _ y E).
  - set_solver.
  - unfold slot_after. destruct (last l1) as [a|] eqn:El; [|done]. intros [= ->]. apply last_Some in El as [l' ->]. set_solver.
  - destruct R as [_ Rh _ Rs]. unfold slot_after. destruct (last l1) as [a|] eqn:El.
    + apply last_Some in El as [l' ->]. rewrite <- app_assoc in Rs. apply dseg_app in Rs as [_ Rs]. cbn [app dseg] in Rs. destruct Rs as [Ea _].
      cbn [ld_into]. rewrite Ea. cbn. intros [= E2]. destruct l2; [done|]. cbn in E2. set_solver.
    + apply last_None in El as ->. cbn [ld_into]. rewrite Rh. destruct l2; [done|]. cbn. intros [= ->]. set_solver.
Qed.

Lemma list_insert_tail_ok xs x : lrep N h xs -> x ∉ xs -> is_Some (N !! x) ->
  exists h' N', on_list (fun d => ds_dlist_insert_tail d x) h N = Ok (h', N') /\ lrep N' h' (xs ++ [x]) /\
    dom N' = dom N /\ (forall y, y ∉ xs ++ [x] -> N' !! y = N !! y).
Proof.
  intros R Hx Ha. destruct (list_insert_ok xs [] x) as (h' & N' & E & H); rewrite ?app_nil_r; try done. exists h', N'. split; [|done].
  rewrite <- E. unfold on_list, ds_dlist_insert_tail, slot_after. rewrite (dl_tail _ _ R). by destruct (last xs).
Qed.

Lemma list_insert_before_ok l1 b l2 x : lrep N h (l1 ++ b :: l2) -> x ∉ l1 ++ b :: l2 -> is_Some (N !! x) ->
  exists h' N', on_list (fun d => ds_dlist_insert_before d b x) h N = Ok (h', N') /\ lrep N' h' (l1 ++ x :: b :: l2) /\
    dom N' = dom N /\ (forall y, y ∉ l1 ++ x :: b :: l2 -> N' !! y = N !! y).
Proof.
  intros R Hx Ha. destruct (list_insert_ok l1 (b :: l2) x R Hx Ha) as (h' & N' & E & H). exists h', N'. split; [|done].
  rewrite <- E. unfold on_list, ds_dlist_insert_before, slot_after. pose proof (prev_ok _ _ _ _ R) as Hp. unfold ds_dlist_prev in Hp.
  destruct (od_nodes (open h N) !! b) as [nb|]; [|done]. cbn in Hp. injection Hp as Hp. cbn [deref]. cbind. rewrite Hp. by destruct (last l1).
Qed.

Lemma list_remove_ok l1 x l2 : lrep N h (l1 ++ x :: l2) ->
  exists h' N', on_list (fun d => ds_dlist_remove d x) h N = Ok (h', N') /\ lrep N' h' (l1 ++ l2) /\
    dom N' = dom N /\ N' !! x = Some (mk_dnode None None) /\ (forall y, y ∉ l1 ++ x :: l2 -> N' !! y = N !! y).
Proof.
  intros R. destruct (node_remove_ok _ _ _ _ R) as (d' & E & R' & Hd & _ & Hx). unfold on_list, ds_dlist_remove. rewrite E. cbind.
  do 2 eexists. split_and!; [done| |done|done|]; [by destruct d'|]. intros y Hy. destruct R as [Rn _ _ Rs]. apply dseg_app in Rs as [_ [Ex _]].
  apply (node_remove_frame _ _ _ _ y E Ex); cbn [odn_next odn_prev].
  - set_solver.
  - destruct l2 as [|z l2]; [done|]. cbn. intros [= ->]. set_solver.
  - unfold last_or. destruct (last l1) as [a|] eqn:El; [|done]. apply last_Some in El as [l' ->]. intros [= ->]. set_solver.
  - unfold last_or. destruct (last l1) as [a|] eqn:El; [|done]. apply last_Some in El as [l' ->]. intros [= ->].
    apply NoDup_app in Rn as (_ & Hdj & _). apply (Hdj x); set_solver.
Qed.
End Ops.
