(* ===== verification/QmQueue.v ===== *)
(** * QmQueue: the message queue of the queue manager

    Models [qm/src/qm_queue.c] (the bounded queue of messages waiting for the
    MQTT broker, and the remote log buffer), the part of [qm/src/qm_event.c] that
    hands a request to it and the loops of [qm/src/qm_mqtt.c] that empty it.
    Items live in an explicit store, so that freeing twice or using a freed item
    is a fault; the queue is the intrusive list of [DsDlist].  [CONFIG_LOG_REMOTE]
    is taken as set. *)
From S2P Require Import Prelude DsDlist CString.
From stdpp Require Import pretty.
Open Scope Z_scope.

Definition QM_MAX_QUEUE_DEPTH := 200.
Definition QM_MAX_QUEUE_SIZE_BYTES := 2 * 1024 * 1024.
Definition QM_LOG_QUEUE_SIZE := 100 * 1024.

Definition QM_CMD_STATUS := 1.
Definition QM_CMD_SEND := 2.
Definition QM_REQ_FLAG_SEND_DIRECT := 2.
Definition QM_DATA_STATS := 2.
Definition QM_DATA_LOG := 3.
Definition QM_RESPONSE_ERROR := 0.
Definition QM_RESPONSE_STATUS := 1.
Definition QM_RESPONSE_RECEIVED := 2.
Definition QM_ERROR_QUEUE := 103.
Definition QM_ERROR_SEND := 104.

(** [qm_item_t]: the fields of the request that are read, the sizes, the data;
    the list node is in the list's store. *)
Record qm_item := mk_item {
  qi_cmd : Z; qi_flags : Z; qi_data_type : Z; qi_data_size : Z;
  qi_buf : list Z; qi_size : Z; qi_timestamp : Z
}.

(** The fields of [qm_response_t] written here ([qm_res_status] adds counters to it). *)
Record qm_response := mk_response { rs_response : Z; rs_error : Z; rs_qdrop : Z }.

(** [g_qm_queue], the log variables and the allocated items. *)
Record qm_queue := mk_queue {
  q_list : ds_dlist; q_length : Z; q_size : Z; q_items : gmap loc qm_item;
  q_log_buf : option (list Z); q_log_size : Z; q_log_drop : Z; q_log_enabled : bool
}.

Definition set_list v q := mk_queue v (q_length q) (q_size q) (q_items q) (q_log_buf q)
  (q_log_size q) (q_log_drop q) (q_log_enabled q).
Definition set_counts l s q := mk_queue (q_list q) l s (q_items q) (q_log_buf q)
  (q_log_size q) (q_log_drop q) (q_log_enabled q).
Definition set_items v q := mk_queue (q_list q) (q_length q) (q_size q) v (q_log_buf q)
  (q_log_size q) (q_log_drop q) (q_log_enabled q).
Definition set_log b s d q := mk_queue (q_list q) (q_length q) (q_size q) (q_items q) b s d
  (q_log_enabled q).

(** The globals before [qm_queue_init]. *)
Definition queue_zero (enabled : bool) : qm_queue :=
  mk_queue (mk_dlist None None 0 ∅) 0 0 ∅ None 0 0 enabled.

Definition qm_queue_init (q : qm_queue) : qm_queue :=
  set_list (ds_dlist_init (od_nodes (q_list q))) q.

(** [CALLOC(1, sizeof(qm_item_t))] at a free address, filled by the caller. *)
Definition item_alloc (x : loc) (i : qm_item) (q : qm_queue) : qm_queue :=
  set_items (<[x := i]> (q_items q))
    (set_list (set_nodes (<[x := mk_dnode None None]> (od_nodes (q_list q))) (q_list q)) q).

(** [qm_queue_item_free(qi)]: NULL is accepted. *)
Definition qm_queue_item_free (q : qm_queue) (qi : option loc) : res qm_queue :=
  match qi with
  | None => Ok q
  | Some x =>
      _ ← deref (q_items q !! x);
      Ok (set_items (delete x (q_items q))
            (set_list (set_nodes (delete x (od_nodes (q_list q))) (q_list q)) q))
  end.

Definition qm_queue_length (q : qm_queue) : Z := q_length q.
Definition qm_queue_size (q : qm_queue) : Z := q_size q.
Definition qm_queue_head (q : qm_queue) : option loc := ds_dlist_head (q_list q).
Definition qm_queue_tail (q : qm_queue) : option loc := ds_dlist_tail (q_list q).

Definition qm_queue_remove (q : qm_queue) (qitem : option loc) : res (bool * qm_queue) :=
  match qitem with
  | None => Ok (false, q)
  | Some x =>
      d ← ds_dlist_remove (q_list q) x;
      let q := set_list d q in
      i ← deref (q_items q !! x);
      let q := set_counts (i32 (q_length q - 1)) (i32 (q_size q - qi_size i)) q in
      q ← qm_queue_item_free q (Some x);
      Ok (true, q)
  end.

Definition qm_queue_drop_head (q : qm_queue) : res (bool * qm_queue) :=
  match qm_queue_head q with
  | None => Ok (false, q)
  | Some x => qm_queue_remove q (Some x)
  end.

Definition incr_qdrop (r : qm_response) : qm_response :=
  mk_response (rs_response r) (rs_error r) (u32 (rs_qdrop r + 1)).

(** The [while] loop of [qm_queue_make_room]; the sum is a [size_t]. *)
Fixpoint room_loop (n : nat) (size : Z) (q : qm_queue) (r : qm_response)
    : res (qm_queue * qm_response) :=
  match n with
  | O => Err FFuel
  | S n' =>
      if (QM_MAX_QUEUE_DEPTH <=? q_length q) || (QM_MAX_QUEUE_SIZE_BYTES <? u64 (q_size q + size))
      then
        '(_, q) ← qm_queue_drop_head q;
        room_loop n' size q (incr_qdrop r)
      else Ok (q, r)
  end.

(** Each round frees an item: one round more than there are items is enough. *)
Definition qm_queue_make_room (q : qm_queue) (size : Z) (r : qm_response)
    : res (bool * qm_queue * qm_response) :=
  if QM_MAX_QUEUE_SIZE_BYTES <? size then Ok (false, q, r) else
  '(q, r) ← room_loop (S (base.size (q_items q))) size q r;
  Ok (true, q, r).

(** [qm_queue_append_item(&qi, res)]: the result and the caller's pointer. *)
Definition qm_queue_append_item (now : Z) (q : qm_queue) (x : loc) (r : qm_response)
    : res (bool * option loc * qm_queue * qm_response) :=
  i ← deref (q_items q !! x);
  let i := mk_item (qi_cmd i) (qi_flags i) (qi_data_type i) (qi_data_size i) (qi_buf i)
             (qi_data_size i) now in
  let q := set_items (<[x := i]> (q_items q)) q in
  '(ok, q, r) ← qm_queue_make_room q (qi_size i) r;
  if negb (ok : bool) then Ok (false, Some x, q, r) else
  d ← ds_dlist_insert_tail (q_list q) x;
  let q := set_list d q in
  let q := set_counts (i32 (q_length q + 1)) (i32 (q_size q + qi_size i)) q in
  Ok (true, None, q, r).

(** ** The remote log *)

(** [REALLOC(buf, n)]; the bytes gained are unspecified, here 0. *)
Definition realloc (buf : option (list Z)) (n : Z) : list Z :=
  take (Z.to_nat n) (default [] buf ++ replicate (Z.to_nat n) 0).

Definition NL := 10.


(** [strchr(s, '\n')] on a NUL-terminated string. *)
Fixpoint strchr_nl (s : list Z) : option (list Z) :=
  match s with
  | [] => None
  | c :: s' => if c =? 0 then None else if c =? NL then Some s else strchr_nl s'
  end.

(** [while (nl && *nl) { count++; nl = strchr(nl + 1, '\n'); }] *)
Fixpoint count_lines (n : nat) (nl : list Z) (count : Z) : Z :=
  match n, nl with
  | S n', c :: s' =>
      if c =? 0 then count else
      match strchr_nl s' with
      | None => count + 1
      | Some nl => count_lines n' nl (count + 1)
      end
  | _, _ => count
  end.

(** The message [snprintf] writes into its 64 bytes. *)
Definition drop_str (count : Z) : list Z :=
  take 63 (str_bytes ("--- DROPPED " +:+ pretty count +:+ " LINES ---")).

Definition TOO_BIG : list Z := str_bytes "--- DROPPED TOO BIG ---".

(** Drop a trailing byte [c] from the message. *)
Definition trim (msg : list Z) (c size : Z) : res Z :=
  if 0 <? size then
    b ← rd8 msg (size - 1);
    Ok (if b =? c then size - 1 else size)
  else Ok size.

(** The end of [qm_queue_append_log]: a newline if there is text already, then
    the message if it fits. *)
Definition log_line (buf : list Z) (g new_size : Z) (msg : list Z) (size : Z)
    : res (list Z * Z) :=
  '(buf, g) ← (if negb (g =? 0) then
                 buf ← wr_bytes buf g [NL];
                 buf ← wr_bytes buf (g + 1) [0];
                 Ok (buf, g + 1)
               else Ok (buf, g));
  if g + size <=? new_size then
    bs ← rd_bytes msg 0 (Z.to_nat size);
    buf ← wr_bytes buf g bs;
    buf ← wr_bytes buf new_size [0];
    Ok (buf, new_size)
  else Ok (buf, g).

(** From the first [new_size] on: make room, then append a line. *)
Definition log_append (q : qm_queue) (msg : list Z) (size : Z) : res qm_queue :=
  '(q, ds) ←
    (if QM_LOG_QUEUE_SIZE <? q_log_size q + size + 1 then
       buf ← deref (q_log_buf q);
       buf ← wr_bytes buf (q_log_size q) [0];
       let count := i32 (count_lines (length buf) buf (q_log_drop q)) in
       Ok (set_log None 0 count q, if negb (count =? 0) then drop_str count else [])
     else Ok (q, []));
  let new_size := q_log_size q + size in
  let new_size := if negb (q_log_size q =? 0) then new_size + 1 else new_size in
  let new_size := match ds with [] => new_size | _ => new_size + Z.of_nat (length ds) + 1 end in
  let buf := realloc (q_log_buf q) (new_size + 1) in
  '(buf, g) ← match ds with
              | [] => Ok (buf, q_log_size q)
              | _ => let t := take (Z.to_nat (new_size - 1)) ds in
                     buf ← wr_bytes buf 0 (t ++ [0]);
                     Ok (buf, Z.of_nat (length t))
              end;
  '(buf, g) ← log_line buf g new_size msg size;
  Ok (set_log (Some buf) g (q_log_drop q) q).

Definition qm_queue_append_log (q : qm_queue) (x : loc) (r : qm_response)
    : res (bool * qm_queue * qm_response) :=
  if negb (q_log_enabled q) then
    Ok (true, set_log (q_log_buf q) (q_log_size q) (i32 (q_log_drop q + 1)) q, r) else
  i ← deref (q_items q !! x);
  size ← trim (qi_buf i) 0 (i32 (qi_data_size i));
  size ← trim (qi_buf i) NL size;
  if size =? 0 then Ok (true, q, incr_qdrop r) else
  if QM_LOG_QUEUE_SIZE <=? size then
    q ← log_append q TOO_BIG (Z.of_nat (length TOO_BIG));
    Ok (true, q, incr_qdrop r)
  else
    q ← log_append q (qi_buf i) size;
    Ok (true, q, r).

(** ** Requests *)
Definition queue_error (r : qm_response) : qm_response :=
  mk_response QM_RESPONSE_ERROR QM_ERROR_QUEUE (rs_qdrop r).
Definition send_error (r : qm_response) : qm_response :=
  mk_response QM_RESPONSE_ERROR QM_ERROR_SEND (rs_qdrop r).

Definition qm_queue_put (now : Z) (q : qm_queue) (x : loc) (r : qm_response)
    : res (bool * option loc * qm_queue * qm_response) :=
  i ← deref (q_items q !! x);
  if qi_data_type i =? QM_DATA_LOG then
    '(ok, q, r) ← qm_queue_append_log q x r;
    q ← qm_queue_item_free q (Some x);
    Ok (ok, None, q, r)
  else
    '(ok, p, q, r) ← qm_queue_append_item now q x r;
    Ok (ok, p, q, if negb (ok : bool) then queue_error r else r).

Definition qm_queue_get (q : qm_queue) : res (option loc * qm_queue) :=
  '(o, d) ← ds_dlist_remove_head (q_list q);
  let q := set_list d q in
  match o with
  | None => Ok (None, q)
  | Some x =>
      i ← deref (q_items q !! x);
      Ok (Some x, set_counts (i32 (q_length q - 1)) (i32 (q_size q - qi_size i)) q)
  end.

Section Mqtt.
(** The broker: whether it is connected and whether it takes a message, given
    the messages published before. *)
Variable mqtt_is_connected : bool.
Variable mqtt_publish : list qm_item -> qm_item -> bool.
(** [qm_append_report]: merging a statistics report into another. *)
Variable qm_append_report : qm_item -> qm_item -> qm_item.

(** [qm_mqtt_send_message], with the messages published so far. *)
Definition qm_mqtt_send_message (sent : list qm_item) (i : qm_item) (r : qm_response)
    : bool * list qm_item * qm_response :=
  let result := mqtt_is_connected && mqtt_publish sent i in
  let sent := if result then sent ++ [i] else sent in
  (result, sent, if result then r else send_error r).

(** [qm_enqueue_or_send(qi, res)] *)
Definition qm_enqueue_or_send (now : Z) (sent : list qm_item) (q : qm_queue) (x : loc)
    (r : qm_response) : res (list qm_item * qm_queue * qm_response) :=
  i ← deref (q_items q !! x);
  '(sent, p, q, r) ←
    (if (qi_cmd i =? QM_CMD_SEND) && negb (qi_data_size i =? 0) then
       if negb (Z.land (qi_flags i) QM_REQ_FLAG_SEND_DIRECT =? 0) then
         let '(_, sent, r) := qm_mqtt_send_message sent i r in Ok (sent, Some x, q, r)
       else
         '(_, p, q, r) ← qm_queue_put now q x r; Ok (sent, p, q, r)
     else Ok (sent, Some x, q, r));
  q ← qm_queue_item_free q p;
  Ok (sent, q, r).

Definition QM_REQ_FLAG_NO_RESPONSE := 1.

Definition qm_res_init (req : qm_item) : qm_response :=
  mk_response (if qi_cmd req =? QM_CMD_STATUS then QM_RESPONSE_STATUS
               else if qi_cmd req =? QM_CMD_SEND then QM_RESPONSE_RECEIVED else 0) 0 0.

(** [qm_enqueue_and_reply(fd, qi)]: the response that is written, if any.  The
    flags are read from the item after it was handed over. *)
Definition qm_enqueue_and_reply (now : Z) (sent : list qm_item) (q : qm_queue) (x : loc)
    : res (list qm_item * qm_queue * option qm_response) :=
  req ← deref (q_items q !! x);
  '(sent, q, r) ← qm_enqueue_or_send now sent q x (qm_res_init req);
  i ← deref (q_items q !! x);
  Ok (sent, q, if Z.land (qi_flags i) QM_REQ_FLAG_NO_RESPONSE =? 0 then Some r else None).

(** [for (qi = head; qi != NULL; qi = next) { next = ...; ... }] whose body may
    remove the current item: [f] gives from an accumulator and the item whether it
    is removed, and the new accumulator. *)
Fixpoint walk_loop {A} (f : A -> qm_item -> bool * A) (n : nat) (q : qm_queue) (qi : option loc) (a : A)
    : res (qm_queue * A) :=
  match n, qi with
  | O, _ => Err FFuel
  | S n', None => Ok (q, a)
  | S n', Some x =>
      nx ← ds_dlist_next (q_list q) x;
      i ← deref (q_items q !! x);
      let '(rm, a) := f a i in
      q ← (if rm : bool then '(_, q) ← qm_queue_remove q (Some x); Ok q else Ok q);
      walk_loop f n' q nx a
  end.

(** Statistics reports are merged into [rep] and removed. *)
Definition merge_step (rep i : qm_item) : bool * qm_item :=
  if qi_data_type i =? QM_DATA_STATS then (true, qm_append_report i rep) else (false, rep).

Definition qm_queue_merge_stats (q : qm_queue) (rep : qm_item) : res (qm_queue * qm_item) :=
  walk_loop merge_step (S (base.size (q_items q))) q (ds_dlist_head (q_list q)) rep.

(** A message is removed when the broker took it. *)
Definition publish_step (sent : list qm_item) (i : qm_item) : bool * list qm_item :=
  if mqtt_publish sent i then (true, sent ++ [i]) else (false, sent).

Definition rep_zero : qm_item := mk_item 0 0 0 0 [] 0 0.

Definition qm_mqtt_publish_queue (q : qm_queue) (sent : list qm_item)
    : res (qm_queue * list qm_item) :=
  '(q, rep) ← qm_queue_merge_stats q rep_zero;
  let sent := if negb (qi_size rep =? 0) && mqtt_publish sent rep then sent ++ [rep] else sent in
  walk_loop publish_step (S (base.size (q_items q))) q (ds_dlist_head (q_list q)) sent.

(** [qm_mqtt_timer_handler_log], after the reconnection attempt; [publish_log]
    says whether the broker took the log. *)
Definition qm_mqtt_timer_handler_log (publish_log : list Z -> bool) (q : qm_queue)
    : res (option (list Z) * qm_queue) :=
  if q_log_size q =? 0 then Ok (None, q) else
  if negb mqtt_is_connected then Ok (None, q) else
  buf ← deref (q_log_buf q);
  msg ← rd_bytes buf 0 (Z.to_nat (q_log_size q));
  let result := publish_log msg in
  Ok (Some msg, set_log None 0 (if negb result then i32 (q_log_drop q + 1) else 0) q).
End Mqtt.

(** ** The invariant of the queue *)
Definition tot (l : list qm_item) : Z := foldr (fun i s => qi_size i + s) 0 l.

(** The queue holds the items [its] at the addresses [xs], in order; its counters
    are right and its two limits are respected. *)
Record q_wf (q : qm_queue) (xs : list loc) (its : list qm_item) : Prop := {
  qw_rep : dl_rep (q_list q) xs;
  qw_dom : dom (od_nodes (q_list q)) = dom (q_items q);
  qw_items : Forall2 (fun x i => q_items q !! x = Some i) xs its;
  qw_pos : Forall (fun i => 0 <= qi_size i) its;
  qw_len : q_length q = Z.of_nat (length xs);
  qw_size : q_size q = tot its;
  qw_depth : Z.of_nat (length xs) <= QM_MAX_QUEUE_DEPTH;
  qw_bytes : tot its <= QM_MAX_QUEUE_SIZE_BYTES
}.

Lemma tot_app l1 l2 : tot (l1 ++ l2) = tot l1 + tot l2.
Proof. induction l1; cbn; [done|]. unfold tot in *. lia. Qed.

Lemma tot_nonneg l : Forall (fun i => 0 <= qi_size i) l -> 0 <= tot l.
Proof. induction 1; cbn; [lia|]. unfold tot in *. lia. Qed.

Lemma i32_id x : - 2 ^ 31 <= x < 2 ^ 31 -> i32 x = x.
Proof. intros H. unfold i32. rewrite Z.mod_small; lia. Qed.

(** The parts of the state that do not belong to the queue. *)
Definition same_log (q q' : qm_queue) : Prop :=
  q_log_buf q' = q_log_buf q /\ q_log_size q' = q_log_size q /\ q_log_drop q' = q_log_drop q /\
  q_log_enabled q' = q_log_enabled q.

Lemma remove_item_ok q l1 x l2 its1 i its2 :
  length l1 = length its1 -> q_wf q (l1 ++ x :: l2) (its1 ++ i :: its2) ->
  exists q', qm_queue_remove q (Some x) = Ok (true, q') /\ q_wf q' (l1 ++ l2) (its1 ++ its2) /\
    q_items q' = delete x (q_items q) /\ same_log q q'.
Proof.
  intros Hl [R D I P L S B1 B2]. apply Forall2_app_inv in I as [I1 I2]; [|done].
  apply Forall2_cons in I2 as [Ix I2]. apply Forall_app in P as [P1 [Px P2]%Forall_cons].
  unfold qm_queue_remove, ds_dlist_remove.
  destruct (node_remove_ok _ _ _ _ R) as (d & -> & R' & Hd & _ & _). cbind.
  cbn [q_items set_list]. rewrite Ix. cbn [deref]. cbind. unfold qm_queue_item_free.
  cbn [q_items set_counts set_list]. rewrite Ix. cbn [deref]. cbind.
  eexists. split; [reflexivity|]. split_and!; [|done|done].
  pose proof (dl_nodup _ _ R) as Hn. rewrite <- Permutation_middle in Hn. apply NoDup_cons in Hn as [Hx _].
  assert (forall l its, x ∉ l -> Forall2 (fun x i => q_items q !! x = Some i) l its ->
    Forall2 (fun y j => delete x (q_items q) !! y = Some j) l its) as Hdel.
  { intros l its Hxl Hf. induction Hf as [|y j l its Hy Hf IH]; constructor; [|set_solver].
    rewrite lookup_delete_ne by set_solver. done. }
  rewrite length_app in *. cbn [length] in *. rewrite tot_app in *.
  change (tot (i :: its2)) with (qi_size i + tot its2) in *.
  pose proof (tot_nonneg _ P1). pose proof (tot_nonneg _ P2).
  unfold QM_MAX_QUEUE_DEPTH, QM_MAX_QUEUE_SIZE_BYTES in *.
  split; cbn [q_list q_items q_length q_size set_items set_list set_counts].
  - apply rep_frame; [|done]. intros y Hy. rewrite lookup_delete_ne; [done|]. by intros ->.
  - cbn. rewrite !dom_delete_L, Hd, D. done.
  - apply Forall2_app; apply Hdel; set_solver.
  - by apply Forall_app.
  - rewrite length_app, L, i32_id; lia.
  - rewrite S, tot_app, i32_id; lia.
  - rewrite length_app. unfold QM_MAX_QUEUE_DEPTH. lia.
  - rewrite tot_app. unfold QM_MAX_QUEUE_SIZE_BYTES. lia.
Qed.

(** ** Making room *)

(** Whether a message of [sz] bytes fits behind the messages [l]. *)
Definition fits (sz : Z) (l : list qm_item) : bool :=
  (Z.of_nat (length l) <? QM_MAX_QUEUE_DEPTH) && (tot l + sz <=? QM_MAX_QUEUE_SIZE_BYTES).

(** The longest suffix behind which the message fits. *)
Fixpoint room (sz : Z) (l : list qm_item) : list qm_item :=
  match l with
  | [] => []
  | _ :: l' => if fits sz l then l else room sz l'
  end.

Definition dropped (sz : Z) (l : list qm_item) : nat := length l - length (room sz l).

Lemma room_length sz l : (length (room sz l) <= length l)%nat.
Proof. induction l as [|i l IH]; cbn; [done|]. destruct (fits sz (i :: l)); cbn; lia. Qed.

Lemma dropped_cons sz i l :
  dropped sz (i :: l) = if fits sz (i :: l) then 0%nat else S (dropped sz l).
Proof.
  unfold dropped. cbn [room length]. destruct (fits sz (i :: l)); cbn [length]; [lia|].
  pose proof (room_length sz l). lia.
Qed.

Lemma room_loop_ok n q xs its sz r :
  q_wf q xs its -> 0 <= sz <= QM_MAX_QUEUE_SIZE_BYTES -> (length xs < n)%nat ->
  exists q', room_loop n sz q r = Ok (q', Nat.iter (dropped sz its) incr_qdrop r) /\
    q_wf q' (drop (dropped sz its) xs) (room sz its) /\ same_log q q' /\
    dom (q_items q') = dom (q_items q) ∖ list_to_set (take (dropped sz its) xs) /\
    (forall y, y ∉ xs -> q_items q' !! y = q_items q !! y).
Proof.
  intros W Hsz. revert q xs r W n. induction its as [|i its IH]; intros q xs r W [|n] Hn; try lia;
    pose proof W as [R D I P L S B1 B2]; cbn [room_loop].
  - apply Forall2_nil_inv_r in I as ->. cbn in *. rewrite L, S. unfold QM_MAX_QUEUE_DEPTH in *. cbn.
    rewrite u64_id by (unfold is_u64, QM_MAX_QUEUE_SIZE_BYTES in *; lia).
    rewrite (proj2 (Z.ltb_ge _ _)) by lia. exists q. split_and!; try done. set_solver.
  - apply Forall2_cons_inv_r in I as (x & xs' & Ix & I & ->). rewrite dropped_cons.
    assert ((QM_MAX_QUEUE_DEPTH <=? q_length q) || (QM_MAX_QUEUE_SIZE_BYTES <? u64 (q_size q + sz)) =
      negb (fits sz (i :: its))) as ->.
    { unfold fits. rewrite negb_andb, L, S, u64_id, <- Z.leb_antisym, <- Z.ltb_antisym.
      - f_equal. f_equal. f_equal. cbn. f_equal. by eapply Forall2_length.
      - pose proof (tot_nonneg _ P). unfold is_u64, QM_MAX_QUEUE_SIZE_BYTES in *. lia. }
    cbn [room]. destruct (fits sz (i :: its)) eqn:Ef; cbn [negb].
    + exists q. cbn [take drop list_to_set Nat.iter nat_rect]. split_and!; try done. set_solver.
    + unfold qm_queue_drop_head, qm_queue_head, ds_dlist_head. rewrite (dl_head _ _ R). cbn [head].
      destruct (remove_item_ok q [] x xs' [] i its eq_refl W) as (q1 & -> & W1 & Ei & Hlog). cbind.
      destruct (IH q1 xs' (incr_qdrop r) W1 n) as (q2 & E & W2 & Hlog2 & Hd & Hy); [cbn in Hn; lia|].
      exists q2. cbn [take drop list_to_set]. rewrite E, Nat.iter_succ_r. split_and!; try done.
      * unfold same_log in *. intuition congruence.
      * rewrite Hd, Ei, dom_delete_L. set_solver.
      * intros y Hyx. rewrite Hy by set_solver. rewrite Ei, lookup_delete_ne by set_solver. done.
Qed.

(** The item as it is stored: with its size and the time of arrival. *)
Definition stamp (now : Z) (i : qm_item) : qm_item :=
  mk_item (qi_cmd i) (qi_flags i) (qi_data_type i) (qi_data_size i) (qi_buf i) (qi_data_size i) now.

Lemma set_item_wf q xs its x i :
  x ∉ xs -> is_Some (q_items q !! x) -> q_wf q xs its ->
  q_wf (set_items (<[x := i]> (q_items q)) q) xs its.
Proof.
  intros Hx Hs [R D I P L S B1 B2]. split; try done; cbn [q_items q_list set_items].
  - rewrite dom_insert_lookup_L; done.
  - clear -I Hx. induction I as [|y j xs its Hy I IH]; constructor; [|set_solver].
    rewrite lookup_insert_ne by set_solver. done.
Qed.

Lemma room_fits sz l : sz <= QM_MAX_QUEUE_SIZE_BYTES -> fits sz (room sz l) = true.
Proof.
  intros Hs. induction l as [|i l IH]; cbn [room].
  - unfold fits. cbn. rewrite (proj2 (Z.leb_le _ _)) by lia. done.
  - by destruct (fits sz (i :: l)) eqn:E.
Qed.

Lemma append_item_ok now q xs its x i r :
  q_wf q xs its -> x ∉ xs -> q_items q !! x = Some i -> 0 <= qi_data_size i ->
  exists q' ok p, qm_queue_append_item now q x r =
      Ok (ok, p, q', if ok : bool then Nat.iter (dropped (qi_data_size i) its) incr_qdrop r else r) /\
    same_log q q' /\
    if QM_MAX_QUEUE_SIZE_BYTES <? qi_data_size i then
      ok = false /\ p = Some x /\ q_wf q' xs its /\ dom (q_items q') = dom (q_items q)
    else
      ok = true /\ p = None /\
      q_wf q' (drop (dropped (qi_data_size i) its) xs ++ [x])
        (room (qi_data_size i) its ++ [stamp now i]) /\
      dom (q_items q') = dom (q_items q) ∖ list_to_set (take (dropped (qi_data_size i) its) xs).
Proof.
  intros W Hx Ei Hp. unfold qm_queue_append_item, qm_queue_make_room. rewrite Ei. cbn [deref]. cbind.
  fold (stamp now i). cbn [qi_size stamp].
  assert (q_wf (set_items (<[x := stamp now i]> (q_items q)) q) xs its) as W0.
  { apply set_item_wf; [done|by eexists|done]. }
  assert (dom (<[x := stamp now i]> (q_items q)) = dom (q_items q)) as Hd0
    by (apply dom_insert_lookup_L; by eexists).
  destruct (Z.ltb_spec QM_MAX_QUEUE_SIZE_BYTES (qi_data_size i)) as [Hb|Hb].
  - cbind. cbn [negb]. eexists _, false, _. split; [reflexivity|]. by split_and!.
  - set (q0 := set_items _ q) in *.
    destruct (room_loop_ok (S (base.size (q_items q0))) q0 xs its (qi_data_size i) r W0)
      as (q1 & E & W1 & Hlog & Hd & Hy); [lia| |].
    { pose proof (rep_short _ _ (qw_rep _ _ _ W0)) as Hs. rewrite <- size_dom, (qw_dom _ _ _ W0) in Hs.
      rewrite size_dom in Hs. lia. }
    rewrite E. cbind. cbn [negb]. set (k := dropped _ _) in *.
    assert (x ∉ drop k xs) as Hxd by (rewrite <- (take_drop k xs) in Hx; set_solver).
    assert (q_items q1 !! x = Some (stamp now i)) as Hq1.
    { rewrite Hy by done. cbn. by rewrite lookup_insert_eq. }
    pose proof W1 as [R D I P L S B1 B2].
    destruct (insert_tail_ok (q_list q1) _ x R Hxd) as (d & Ed & Rd & Hdd & _).
    { apply elem_of_dom. rewrite D. apply elem_of_dom. by eexists. }
    rewrite Ed. cbind. eexists _, true, _. split; [reflexivity|]. split; [done|]. split_and!; try done.
    2: { cbn. rewrite Hd. cbn. by rewrite Hd0. }
    pose proof (room_fits (qi_data_size i) its Hb) as Hf. apply andb_true_iff in Hf as [Hf1 Hf2].
    apply Z.ltb_lt in Hf1. apply Z.leb_le in Hf2.
    pose proof (tot_nonneg _ P). pose proof (Forall2_length _ _ _ I) as Hlen.
    unfold QM_MAX_QUEUE_DEPTH, QM_MAX_QUEUE_SIZE_BYTES in *.
    split; cbn [q_list q_items q_length q_size set_items set_list set_counts].
    + done.
    + by rewrite Hdd, D.
    + apply Forall2_app; [done|]. by constructor.
    + apply Forall_app. split; [done|]. by constructor.
    + rewrite L, length_app, i32_id; cbn; lia.
    + rewrite S, tot_app, i32_id; cbn; lia.
    + rewrite length_app. cbn. unfold QM_MAX_QUEUE_DEPTH. lia.
    + rewrite tot_app. cbn. unfold QM_MAX_QUEUE_SIZE_BYTES. lia.
Qed.

(** ** The log *)
Lemma wr_at pre mid post bs :
  length mid = length bs ->
  wr_bytes (pre ++ mid ++ post) (Z.of_nat (length pre)) bs = Ok (pre ++ bs ++ post).
Proof.
  intros Hl. unfold wr_bytes. rewrite !length_app.
  rewrite (proj2 (Z.leb_le _ _)), (proj2 (Z.leb_le _ _)) by lia. cbn [andb].
  rewrite Nat2Z.id, take_app_length, <- Hl, drop_app_add', drop_app_length by done. done.
Qed.

Lemma rd_bytes_take msg n : (n <= length msg)%nat -> rd_bytes msg 0 n = Ok (take n msg).
Proof.
  intros Hn. assert (forall pre, rd_bytes (pre ++ msg) (Z.of_nat (length pre)) n = Ok (take n msg)) as H;
    [|exact (H [])].
  revert n Hn. induction msg as [|b msg IH]; intros [|n] Hn pre; cbn in Hn; try lia; [done|done|].
  cbn [rd_bytes take]. assert (rd8 (pre ++ b :: msg) (Z.of_nat (length pre)) = Ok b) as ->.
  { unfold rd8. rewrite length_app. cbn [length].
    rewrite (proj2 (Z.leb_le _ _)), (proj2 (Z.ltb_lt _ _)) by lia. cbn [andb].
    by rewrite Nat2Z.id, list_lookup_middle. }
  cbind. specialize (IH n ltac:(lia) (pre ++ [b])). rewrite <- app_assoc, length_app in IH.
  cbn [app length] in IH. replace (Z.of_nat (length pre) + 1) with (Z.of_nat (length pre + 1)) by lia.
  by rewrite IH.
Qed.

(** A newline separates the text from what follows, if there is text. *)
Definition sep (t : list Z) : list Z := match t with [] => [] | _ => [NL] end.

Lemma log_line_ok pre rest msg size :
  (size <= length msg)%nat -> length rest = (length (sep pre) + size + 1)%nat ->
  log_line (pre ++ rest) (Z.of_nat (length pre))
      (Z.of_nat (length (pre ++ sep pre) + size)) msg (Z.of_nat size) =
    Ok (pre ++ sep pre ++ take size msg ++ [0], Z.of_nat (length (pre ++ sep pre) + size)).
Proof.
  intros Hm Hr. unfold log_line.
  assert (exists b c rest', rest = b ++ c :: rest' /\ length b = length (sep pre) /\ length rest' = size)
    as (b & c & rest' & -> & Hb & Hr').
  { exists (take (length (sep pre)) rest). destruct (drop (length (sep pre)) rest) as [|c rest'] eqn:E.
    - apply (f_equal length) in E. rewrite length_drop in E. cbn in E. lia.
    - exists c, rest'. rewrite <- E, take_drop, length_take. split_and!; [done|lia|].
      apply (f_equal length) in E. rewrite length_drop in E. cbn in E. lia. }
  assert ((if negb (Z.of_nat (length pre) =? 0) then
             buf ← wr_bytes (pre ++ b ++ c :: rest') (Z.of_nat (length pre)) [NL];
             buf ← wr_bytes buf (Z.of_nat (length pre) + 1) [0];
             Ok (buf, Z.of_nat (length pre) + 1)
           else Ok (pre ++ b ++ c :: rest', Z.of_nat (length pre))) =
    Ok (pre ++ sep pre ++ (if decide (pre = []) then c else 0) :: rest',
        Z.of_nat (length (pre ++ sep pre)))) as ->.
  { destruct pre as [|a pre].
    - destruct b; [done|done].
    - cbn [sep] in *. rewrite decide_False by done. rewrite (wr_at (a :: pre) b (c :: rest') [NL]) by done.
      cbind. replace (Z.of_nat (length (a :: pre)) + 1) with (Z.of_nat (length ((a :: pre) ++ [NL])))
        by (rewrite length_app; cbn; lia).
      rewrite (app_assoc (a :: pre) [NL]), (wr_at _ [c] rest' [0]) by done. cbind.
      by rewrite <- app_assoc. }
  cbind. rewrite (proj2 (Z.leb_le _ _)) by lia. rewrite Nat2Z.id, rd_bytes_take by done. cbind.
  set (z := if decide (pre = []) then c else 0).
  assert (exists r0 r1, z :: rest' = r0 ++ [r1] /\ length r0 = size) as (r0 & r1 & -> & Hr0).
  { destruct (exists_last (l := z :: rest')) as (r0 & r1 & E); [done|]. exists r0, r1. split; [done|].
    apply (f_equal length) in E. rewrite length_app in E. cbn in E. lia. }
  rewrite (app_assoc pre). rewrite (wr_at (pre ++ sep pre) r0 [r1]) by (rewrite length_take; lia).
  cbind. rewrite app_assoc.
  replace (Z.of_nat (length (pre ++ sep pre) + size))
    with (Z.of_nat (length ((pre ++ sep pre) ++ take size msg)))
    by (rewrite (length_app (pre ++ sep pre)), length_take; lia).
  pose proof (wr_at ((pre ++ sep pre) ++ take size msg) [r1] [] [0] eq_refl) as Hw. cbn [app] in Hw.
  rewrite Hw. cbind. by rewrite <- !app_assoc.
Qed.

(** No buffer, or a NUL-terminated text. *)
Definition log_wf (q : qm_queue) : Prop :=
  match q_log_buf q with
  | None => q_log_size q = 0
  | Some b => exists t, b = t ++ [0] /\ q_log_size q = Z.of_nat (length t)
  end.

Definition log_text (q : qm_queue) : list Z :=
  match q_log_buf q with None => [] | Some b => take (Z.to_nat (q_log_size q)) b end.

(** The number of dropped lines after an overflow. *)
Definition overflow_count (q : qm_queue) : Z :=
  i32 (count_lines (S (length (log_text q))) (log_text q ++ [0]) (q_log_drop q)).

(** The text a message is appended to: the log, or after an overflow the line
    that says how many lines were dropped. *)
Definition log_base (q : qm_queue) (size : nat) : list Z :=
  if QM_LOG_QUEUE_SIZE <? Z.of_nat (length (log_text q)) + Z.of_nat size + 1 then
    if overflow_count q =? 0 then [] else drop_str (overflow_count q)
  else log_text q.

Lemma drop_str_cons n : exists c s, drop_str n = c :: s.
Proof. unfold drop_str, str_bytes. by eexists _, _. Qed.

Lemma drop_str_length n : (length (drop_str n) <= 63)%nat.
Proof. unfold drop_str. rewrite length_take. lia. Qed.

Definition same_queue (q q' : qm_queue) : Prop :=
  q_list q' = q_list q /\ q_items q' = q_items q /\ q_length q' = q_length q /\ q_size q' = q_size q /\
  q_log_enabled q' = q_log_enabled q.

Lemma realloc_None n : 0 <= n -> realloc None n = replicate (Z.to_nat n) 0.
Proof. intros Hn. unfold realloc. cbn [default app]. by rewrite take_ge by (rewrite length_replicate; lia). Qed.

Lemma realloc_grow b n : Z.of_nat (length b) <= n ->
  realloc (Some b) n = b ++ replicate (Z.to_nat n - length b) 0.
Proof.
  intros Hn. unfold realloc. cbn [default id]. rewrite take_app, take_ge, take_replicate by lia.
  f_equal. f_equal. lia.
Qed.

(** Appending to the text [pre] that is already in place. *)
Lemma log_append_step q pre msg size :
  log_wf q -> log_text q = pre -> (size <= length msg)%nat ->
  log_line (realloc (q_log_buf q) (Z.of_nat (length (pre ++ sep pre) + size) + 1))
      (Z.of_nat (length pre)) (Z.of_nat (length (pre ++ sep pre) + size)) msg (Z.of_nat size) =
    Ok ((pre ++ sep pre ++ take size msg) ++ [0], Z.of_nat (length (pre ++ sep pre) + size)).
Proof.
  intros Hw Ht Hs. assert (exists rest, realloc (q_log_buf q)
      (Z.of_nat (length (pre ++ sep pre) + size) + 1) = pre ++ rest /\
      length rest = (length (sep pre) + size + 1)%nat) as (rest & -> & Hr).
  { unfold log_wf, log_text in *. destruct (q_log_buf q) as [b|].
    - destruct Hw as (t & -> & Hl). rewrite Hl, Nat2Z.id, take_app_length in Ht. subst t.
      rewrite realloc_grow by (rewrite !length_app; cbn; lia). rewrite <- app_assoc. eexists.
      split; [reflexivity|]. rewrite !length_app, length_replicate. cbn. lia.
    - subst pre. rewrite realloc_None by lia. eexists. split; [reflexivity|].
      rewrite length_replicate. cbn. lia. }
  rewrite log_line_ok by (done || lia). by rewrite <- !app_assoc.
Qed.

(** After an overflow the marker line [m] is written first. *)
Lemma log_marker_step m msg size :
  m <> [] -> (size <= length msg)%nat ->
  wr_bytes (realloc None (Z.of_nat (length (m ++ [NL]) + size) + 1)) 0 (m ++ [0]) ≫=
    (fun buf => log_line buf (Z.of_nat (length m)) (Z.of_nat (length (m ++ [NL]) + size)) msg
                  (Z.of_nat size)) =
    Ok ((m ++ [NL] ++ take size msg) ++ [0], Z.of_nat (length (m ++ [NL]) + size)).
Proof.
  intros Hm Hs. rewrite realloc_None by lia.
  replace (Z.to_nat (Z.of_nat (length (m ++ [NL]) + size) + 1)) with (length (m ++ [0%Z]) + (size + 1))%nat
    by (rewrite !length_app; cbn; lia).
  rewrite replicate_add. pose proof (wr_at [] (replicate (length (m ++ [0])) 0)
    (replicate (size + 1) 0) (m ++ [0])) as Hw. cbn [app length] in Hw.
  change (Z.of_nat 0) with 0 in Hw. rewrite Hw by (by rewrite length_replicate). cbind. rewrite <- app_assoc.
  assert (sep m = [NL]) as Es by (by destruct m). rewrite <- Es.
  rewrite log_line_ok; [by rewrite <- !app_assoc|done|].
  rewrite Es. cbn [app length]. rewrite length_replicate. lia.
Qed.

Lemma log_text_length q : log_wf q -> Z.of_nat (length (log_text q)) = q_log_size q.
Proof.
  unfold log_wf, log_text. destruct (q_log_buf q) as [b|]; [|by intros ->].
  intros (t & -> & ->). by rewrite Nat2Z.id, take_app_length.
Qed.

Lemma new_size_text (pre : list Z) (size : nat) :
  (if negb (Z.of_nat (length pre) =? 0) then Z.of_nat (length pre) + Z.of_nat size + 1
   else Z.of_nat (length pre) + Z.of_nat size) = Z.of_nat (length (pre ++ sep pre) + size).
Proof.
  rewrite length_app. destruct pre as [|a pre]; cbn [length sep]; [by rewrite Nat.add_0_l|].
  rewrite (proj2 (Z.eqb_neq _ _)) by lia. cbn [negb]. lia.
Qed.

Lemma log_append_ok q msg size :
  log_wf q -> (0 < size <= length msg)%nat -> Z.of_nat size < QM_LOG_QUEUE_SIZE ->
  exists q', log_append q msg (Z.of_nat size) = Ok q' /\ log_wf q' /\ same_queue q q' /\
    log_text q' = log_base q size ++ sep (log_base q size) ++ take size msg /\
    q_log_size q' <= QM_LOG_QUEUE_SIZE + 63.
Proof.
  intros Hw Hs Hl. unfold log_append, log_base. rewrite (log_text_length q Hw).
  destruct (Z.ltb_spec QM_LOG_QUEUE_SIZE (q_log_size q + Z.of_nat size + 1)) as [Ho|Ho].
  - unfold overflow_count.
    pose proof Hw as Hw'. unfold log_wf, log_text in *. destruct (q_log_buf q) as [b|]; [|lia].
    destruct Hw' as (t & -> & Ht). rewrite Ht, Nat2Z.id, take_app_length. cbn [deref]. cbind.
    pose proof (wr_at t [0] [] [0] eq_refl) as Hwr. rewrite !app_nil_r in Hwr. rewrite Hwr. cbind.
    rewrite length_app. cbn [length]. rewrite Nat.add_1_r.
    set (c := i32 _). cbn [q_log_size q_log_buf set_log]. cbn [negb Z.eqb]. rewrite Z.add_0_l.
    destruct (Z.eqb_spec c 0) as [Ec|Ec]; cbn [negb].
    + pose proof (log_append_step (set_log None 0 c q) [] msg size eq_refl eq_refl ltac:(lia)) as E.
      cbn [app sep length Nat.add q_log_buf set_log] in E.
      change (Z.of_nat 0) with 0 in E. cbind. rewrite E. cbind.
      eexists. split; [reflexivity|]. unfold log_wf, log_text, same_queue.
      cbn [q_log_buf q_log_size set_log app sep]. split_and!; try done.
      * exists (take size msg). split; [done|]. rewrite length_take. lia.
      * rewrite Nat2Z.id. apply take_app_length'. rewrite length_take. lia.
      * lia.
    + destruct (drop_str_cons c) as (a & s & Em). pose proof (drop_str_length c) as Hm.
      rewrite Em in *. set (m := a :: s) in *.
      replace (Z.of_nat size + Z.of_nat (length m) + 1) with (Z.of_nat (length (m ++ [NL]) + size))
        by (rewrite length_app; cbn -[Z.of_nat]; lia).
      unfold m at 1 2. fold m. cbv zeta.
      rewrite take_ge by (rewrite length_app; cbn; lia).
      pose proof (log_marker_step m msg size ltac:(done) ltac:(lia)) as E.
      destruct (wr_bytes _ 0 (m ++ [0])) as [buf|]; [|done]. cbind. cbn [mbind res_bind] in E. rewrite E. cbind.
      eexists. split; [reflexivity|]. unfold log_wf, log_text, same_queue.
      cbn [q_log_buf q_log_size set_log]. split_and!; try done.
      * eexists. split; [reflexivity|]. rewrite !length_app, length_take. cbn. lia.
      * rewrite Nat2Z.id. apply take_app_length'. rewrite !length_app, length_take. cbn. lia.
      * rewrite length_app. cbn -[Z.of_nat QM_LOG_QUEUE_SIZE] in *. lia.
  - cbind. pose proof (log_append_step q _ msg size Hw eq_refl ltac:(lia)) as E.
    rewrite <- (log_text_length q Hw), new_size_text, E. cbind.
    eexists. split; [reflexivity|]. unfold log_wf, same_queue.
    cbn [q_log_buf q_log_size set_log]. split_and!; try done.
    + eexists. split; [reflexivity|]. rewrite !length_app, length_take. lia.
    + unfold log_text at 1. cbn [q_log_buf q_log_size set_log]. rewrite Nat2Z.id.
      apply take_app_length'. rewrite !length_app, length_take. lia.
    + rewrite <- (log_text_length q Hw) in Ho. rewrite length_app.
      destruct (log_text q); cbn [sep length] in *; lia.
Qed.

(** A sequence without its last byte, when that byte is [c]. *)
Definition strip (c : Z) (l : list Z) : list Z :=
  match last l with Some b => if b =? c then removelast l else l | None => l end.

(** The line a log message carries. *)
Definition log_msg (i : qm_item) : list Z := strip NL (strip 0 (qi_buf i)).

Lemma strip_prefix c l : exists r, l = strip c l ++ r.
Proof.
  unfold strip. destruct l as [|b l _] using rev_ind; [by exists []|]. rewrite last_snoc.
  destruct (b =? c); [rewrite removelast_last; by eexists|]. exists []. by rewrite app_nil_r.
Qed.

Lemma trim_ok l r c :
  trim (l ++ r) c (Z.of_nat (length l)) = Ok (Z.of_nat (length (strip c l))).
Proof.
  unfold trim, strip. destruct l as [|b l _] using rev_ind; [done|]. rewrite last_snoc.
  rewrite length_app. cbn [length]. rewrite (proj2 (Z.ltb_lt _ _)) by lia.
  unfold rd8. rewrite !length_app. cbn [length].
  rewrite (proj2 (Z.leb_le _ _)), (proj2 (Z.ltb_lt _ _)) by lia. cbn [andb].
  replace (Z.to_nat (Z.of_nat (length l + 1) - 1)) with (length l) by lia.
  rewrite <- app_assoc. cbn [app]. rewrite list_lookup_middle by done. cbind.
  destruct (b =? c); rewrite ?removelast_last, ?length_app; cbn [length]; f_equal; lia.
Qed.

(** A request as [qm_conn] delivers it: the buffer holds the announced bytes. *)
Definition item_ok (i : qm_item) : Prop :=
  Z.of_nat (length (qi_buf i)) = qi_data_size i /\ qi_data_size i < 2 ^ 31.

Lemma too_big_short : (0 < length TOO_BIG)%nat /\ Z.of_nat (length TOO_BIG) < QM_LOG_QUEUE_SIZE.
Proof. split; vm_compute; [lia|done]. Qed.

Lemma append_log_ok q x i r :
  log_wf q -> q_log_enabled q = true -> q_items q !! x = Some i -> item_ok i ->
  exists q' r', qm_queue_append_log q x r = Ok (true, q', r') /\ log_wf q' /\ same_queue q q' /\
    q_log_size q' <= Z.max (q_log_size q) (QM_LOG_QUEUE_SIZE + 63) /\
    match log_msg i with
    | [] => q' = q /\ r' = incr_qdrop r
    | _ =>
        if QM_LOG_QUEUE_SIZE <=? Z.of_nat (length (log_msg i)) then
          log_text q' = log_base q (length TOO_BIG) ++ sep (log_base q (length TOO_BIG)) ++ TOO_BIG /\
          r' = incr_qdrop r
        else
          log_text q' = log_base q (length (log_msg i)) ++ sep (log_base q (length (log_msg i))) ++
                        log_msg i /\ r' = r
    end.
Proof.
  intros Hw He Ei [Hb Hd]. unfold qm_queue_append_log. rewrite He, Ei. cbn [negb deref]. cbind.
  rewrite <- Hb, i32_id by lia.
  pose proof (trim_ok (qi_buf i) [] 0) as E1. rewrite app_nil_r in E1. rewrite E1. cbind.
  destruct (strip_prefix 0 (qi_buf i)) as [r1 Hr1]. destruct (strip_prefix NL (strip 0 (qi_buf i))) as [r2 Hr2].
  pose proof (trim_ok (strip 0 (qi_buf i)) r1 NL) as E2. rewrite <- Hr1 in E2. rewrite E2. cbind.
  fold (log_msg i). fold (log_msg i) in Hr2.
  destruct (log_msg i) as [|b m] eqn:Em.
  { eexists _, _. split; [reflexivity|]. unfold same_queue. split_and!; try done. lia. }
  rewrite (proj2 (Z.eqb_neq _ _)) by (cbn; lia). rewrite <- Em in *.
  destruct (Z.leb_spec QM_LOG_QUEUE_SIZE (Z.of_nat (length (log_msg i)))) as [Hg|Hg].
  - destruct too_big_short as [T1 T2].
    destruct (log_append_ok q TOO_BIG (length TOO_BIG) Hw) as (q' & -> & W' & Hs & Ht & Hl); [lia|done|].
    rewrite firstn_all in Ht. cbind. eexists _, _. split; [reflexivity|]. split_and!; done || lia.
  - destruct (log_append_ok q (qi_buf i) (length (log_msg i)) Hw) as (q' & -> & W' & Hs & Ht & Hl);
      [|done|].
    { rewrite Hr1, Hr2, !length_app. rewrite Em. cbn. lia. }
    assert (take (length (log_msg i)) (qi_buf i) = log_msg i) as Htk.
    { rewrite Hr1, Hr2 at 1. by rewrite <- app_assoc, take_app_length. }
    rewrite Htk in Ht. cbind. eexists _, _. split; [reflexivity|]. split_and!; done || lia.
Qed.

(** ** Requests *)

(** The whole state between two requests: the queue, nothing else allocated,
    and a bounded log. *)
Record qm_inv (q : qm_queue) (xs : list loc) (its : list qm_item) : Prop := {
  qv_wf : q_wf q xs its;
  qv_owned : dom (q_items q) = list_to_set xs;
  qv_log : log_wf q;
  qv_log_size : q_log_size q <= QM_LOG_QUEUE_SIZE + 63
}.

Lemma alloc_wf q xs its x i :
  x ∉ dom (q_items q) -> q_wf q xs its -> q_wf (item_alloc x i q) xs its /\ x ∉ xs.
Proof.
  intros Hx [R D I P L S B1 B2]. assert (x ∉ xs) as Hxs.
  { intros Hin. apply Hx. rewrite <- D. apply elem_of_dom. by eapply rep_dom. }
  split; [|done]. split; try done; cbn [q_items q_list item_alloc set_items set_list].
  - apply rep_frame; [|done]. intros y Hy. rewrite lookup_insert_ne; [done|]. by intros ->.
  - cbn. by rewrite !dom_insert_L, D.
  - clear -I Hxs. induction I as [|y j xs its Hy I IH]; constructor; [|set_solver].
    rewrite lookup_insert_ne by set_solver. done.
Qed.

Lemma item_free_wf q xs its x :
  x ∉ xs -> is_Some (q_items q !! x) -> q_wf q xs its ->
  exists q', qm_queue_item_free q (Some x) = Ok q' /\ q_wf q' xs its /\ same_log q q' /\
    dom (q_items q') = dom (q_items q) ∖ {[x]}.
Proof.
  intros Hx [i Ei] [R D I P L S B1 B2]. unfold qm_queue_item_free. rewrite Ei. cbn [deref]. cbind.
  eexists. split; [reflexivity|]. split_and!; [|done|cbn; by rewrite dom_delete_L].
  split; try done; cbn [q_items q_list set_items set_list].
  - apply rep_frame; [|done]. intros y Hy. rewrite lookup_delete_ne; [done|]. by intros ->.
  - cbn. by rewrite !dom_delete_L, D.
  - clear -I Hx. induction I as [|y j xs its Hy I IH]; constructor; [|set_solver].
    rewrite lookup_delete_ne by set_solver. done.
Qed.

Lemma same_queue_wf q q' xs its : same_queue q q' -> q_wf q xs its -> q_wf q' xs its.
Proof. intros (E1 & E2 & E3 & E4 & _) []. split; rewrite ?E1, ?E2, ?E3, ?E4; done. Qed.

Lemma same_log_wf q q' : same_log q q' -> log_wf q -> log_wf q'.
Proof. intros (E1 & E2 & _) H. unfold log_wf in *. by rewrite E1, E2. Qed.

(** What [qm_queue_put] does to the queue. *)
Definition spec_put (now : Z) (its : list qm_item) (i : qm_item) : list qm_item :=
  if qi_data_type i =? QM_DATA_LOG then its
  else if QM_MAX_QUEUE_SIZE_BYTES <? qi_data_size i then its
  else room (qi_data_size i) its ++ [stamp now i].

(** The item goes into the queue. *)
Definition fits_queue (i : qm_item) : bool :=
  negb (qi_data_type i =? QM_DATA_LOG) && (qi_data_size i <=? QM_MAX_QUEUE_SIZE_BYTES).

Lemma put_ok now q xs its x i r :
  q_wf q xs its -> x ∉ xs -> dom (q_items q) = {[x]} ∪ list_to_set xs -> log_wf q ->
  q_log_size q <= QM_LOG_QUEUE_SIZE + 63 -> q_items q !! x = Some i -> item_ok i ->
  exists ok p q' r', qm_queue_put now q x r = Ok (ok, p, q', r') /\
    exists q'' xs', qm_queue_item_free q' p = Ok q'' /\ qm_inv q'' xs' (spec_put now its i) /\
      (fits_queue i = true -> q_items q'' !! x = Some (stamp now i)).
Proof.
  intros W Hx Hd Hlog Hls Ei Hi. unfold qm_queue_put, spec_put, fits_queue. rewrite Ei. cbn [deref]. cbind.
  destruct (qi_data_type i =? QM_DATA_LOG).
  - assert (exists q1 r1, qm_queue_append_log q x r = Ok (true, q1, r1) /\ log_wf q1 /\ same_queue q q1 /\
      q_log_size q1 <= QM_LOG_QUEUE_SIZE + 63) as (q1 & r1 & E & L1 & Hq & Hs).
    { destruct (q_log_enabled q) eqn:En.
      - destruct (append_log_ok q x i r Hlog En Ei Hi) as (q1 & r1 & E & L1 & Hq & Hs & _).
        exists q1, r1. split_and!; try done. lia.
      - unfold qm_queue_append_log. rewrite En. cbn [negb]. eexists _, _. split; [reflexivity|].
        split_and!; done. }
    rewrite E. cbind. pose proof (same_queue_wf _ _ _ _ Hq W) as W1.
    destruct Hq as (_ & Hq2 & _).
    destruct (item_free_wf q1 xs its x Hx) as (q2 & -> & W2 & Hl2 & Hd2); [rewrite Hq2; by eexists|done|]. cbind.
    eexists _, _, _, _. split; [reflexivity|]. cbn [qm_queue_item_free]. exists q2, xs. split; [done|].
    split; [|done]. split; [done| |by eapply same_log_wf|].
    + rewrite Hd2, Hq2, Hd. set_solver.
    + destruct Hl2 as (_ & -> & _). done.
  - destruct (append_item_ok now q xs its x i r W Hx Ei) as (q1 & ok & p & E & Hl & Hrest);
      [destruct Hi; lia|]. rewrite E. cbind. eexists _, _, _, _. split; [reflexivity|].
    destruct (Z.ltb_spec QM_MAX_QUEUE_SIZE_BYTES (qi_data_size i)) as [Hbig|Hfit].
    + destruct Hrest as (-> & -> & W1 & Hd1).
      destruct (item_free_wf q1 xs its x Hx) as (q2 & -> & W2 & Hl2 & Hd2).
      * apply elem_of_dom. rewrite Hd1, Hd. set_solver.
      * done.
      * exists q2, xs. split; [done|]. split; [|cbn [negb andb]; lia].
        split; [done| |by repeat (eapply same_log_wf; [done|])|].
        -- rewrite Hd2, Hd1, Hd. set_solver.
        -- destruct Hl2 as (_ & -> & _), Hl as (_ & -> & _). done.
    + destruct Hrest as (-> & -> & W1 & Hd1). cbn [qm_queue_item_free]. exists q1. eexists. split; [done|].
      split.
      2: { intros _. pose proof (qw_items _ _ _ W1) as Hf. apply Forall2_app_inv_l in Hf as (l1 & l2 & _ & Hl2 & E2).
           apply Forall2_cons_inv_l in Hl2 as (y & l2' & Hy & Hl2' & ->). apply Forall2_nil_inv_l in Hl2' as ->.
           apply app_inj_2 in E2 as [_ [= <-]]; done. }
      split; [exact W1| |by eapply same_log_wf|by destruct Hl as (_ & -> & _)].
      rewrite Hd1, Hd. set (k := dropped _ _) in *.
      pose proof (dl_nodup _ _ (qw_rep _ _ _ W)) as Hn. rewrite <- (take_drop k xs) in Hn at 1.
      apply NoDup_app in Hn as (_ & Hn & _).
      rewrite <- (take_drop k xs) at 1. rewrite <- (take_drop k xs) in Hx.
      rewrite !list_to_set_app_L. cbn [list_to_set].
      apply set_eq. intros y. specialize (Hn y). set_solver.
Qed.

Section Requests.
Variable connected : bool.
Variable publish : list qm_item -> qm_item -> bool.

(** The command and the size that are stored in a new item. *)
Definition fill_item (cmd : Z) (i : qm_item) : qm_item :=
  mk_item cmd (qi_flags i) (qi_data_type i) (qi_data_size i) (qi_buf i) (qi_data_size i) (qi_timestamp i).

(** A message that came over the bus and could be converted: a new item is filled at a
    free address and handed over; the reply does not read it. *)
Definition qm_osbus_handle_send_req_msg (now : Z) (sent : list qm_item) (q : qm_queue) (i : qm_item)
    : res (list qm_item * qm_queue * option qm_response) :=
  let x := fresh (dom (q_items q)) in
  let qi := fill_item QM_CMD_SEND i in
  '(sent, q, r) ← qm_enqueue_or_send connected publish now sent (item_alloc x qi q) x (qm_res_init qi);
  Ok (sent, q, Some r).

(** A complete request in the buffer of a connection: the body of the loop of
    [qm_async_handle_req]. *)
Definition qm_async_handle_one (now : Z) (sent : list qm_item) (q : qm_queue) (i : qm_item)
    : res (list qm_item * qm_queue * option qm_response) :=
  let x := fresh (dom (q_items q)) in
  qm_enqueue_and_reply connected publish now sent (item_alloc x (fill_item (qi_cmd i) i) q) x.

(** The meaning of a request for the queue and for the broker. *)
Definition is_send (i : qm_item) : bool := (qi_cmd i =? QM_CMD_SEND) && negb (qi_data_size i =? 0).
Definition is_direct (i : qm_item) : bool := negb (Z.land (qi_flags i) QM_REQ_FLAG_SEND_DIRECT =? 0).

Definition spec_request (now : Z) (st : list qm_item * list qm_item) (i : qm_item)
    : list qm_item * list qm_item :=
  let '(sent, its) := st in
  if is_send i then
    if is_direct i then (if connected && publish sent i then sent ++ [i] else sent, its)
    else (sent, spec_put now its i)
  else (sent, its).

Lemma enqueue_ok now sent q xs its i r :
  qm_inv q xs its -> item_ok i ->
  let x := fresh (dom (q_items q)) in
  exists q' xs' r',
    qm_enqueue_or_send connected publish now sent (item_alloc x i q) x r =
      Ok ((spec_request now (sent, its) i).1, q', r') /\
    qm_inv q' xs' (spec_request now (sent, its) i).2 /\
    (is_send i = true -> is_direct i = false -> fits_queue i = true -> q_items q' !! x = Some (stamp now i)).
Proof.
  intros [W Hown Hlog Hls] Hi x. unfold qm_enqueue_or_send, spec_request.
  assert (x ∉ dom (q_items q)) as Hf by apply is_fresh.
  destruct (alloc_wf q xs its x i Hf W) as [W0 Hx]. set (q0 := item_alloc x i q) in *.
  assert (q_items q0 !! x = Some i) as Ei by (cbn; apply lookup_insert_eq).
  assert (dom (q_items q0) = {[x]} ∪ list_to_set xs) as Hd0 by (cbn; by rewrite dom_insert_L, Hown).
  assert (log_wf q0) as Hl0 by done.
  rewrite Ei. cbn [deref]. cbind. fold (is_send i) (is_direct i).
  assert (forall (sent' : list qm_item) (r' : qm_response) (P : Prop), ~ P ->
      exists q' xs' r'', ('(sent, p, q, r) ← Ok (sent', Some x, q0, r');
      q ← qm_queue_item_free q p; Ok (sent, q, r)) = Ok (sent', q', r'') /\ qm_inv q' xs' its /\
      (P -> q_items q' !! x = Some (stamp now i))) as Hfree.
  { intros sent' r' P HP. cbind. destruct (item_free_wf q0 xs its x Hx) as (q1 & -> & W1 & L1 & Hd1); [by eexists|done|].
    cbind. exists q1, xs, r'. split; [done|]. split; [|by intros ?%HP]. split; [done| |by eapply same_log_wf|].
    - rewrite Hd1, Hd0. set_solver.
    - destruct L1 as (_ & -> & _). done. }
  destruct (is_send i).
  2: { destruct (Hfree sent r False) as (q' & xs' & r' & E & Hv & _); [tauto|]. exists q', xs', r'. by split_and!. }
  destruct (is_direct i).
  { destruct (Hfree (if connected && publish sent i then sent ++ [i] else sent)
      (if connected && publish sent i then r else send_error r) False) as (q' & xs' & r' & E & Hv & _); [tauto|].
    exists q', xs', r'. split; [exact E|]. by split. }
  destruct (put_ok now q0 xs its x i r W0 Hx Hd0 Hl0 Hls Ei Hi) as (ok & p & q1 & r1 & -> & q2 & xs2 & E & Hv & Hst).
  cbind. rewrite E. cbind. eexists _, _, _. split; [done|]. split; [done|]. by intros _ _.
Qed.

(** Where a request comes from. *)
Inductive source := Osbus | Conn.
Definition request (s : source) := match s with Osbus => qm_osbus_handle_send_req_msg | Conn => qm_async_handle_one end.

(** The bus is answered always, a connection unless the request says not to. *)
Definition wants_reply (s : source) (i : qm_item) : bool :=
  match s with Osbus => true | Conn => Z.land (qi_flags i) QM_REQ_FLAG_NO_RESPONSE =? 0 end.
(** The size of the item is that of its data; a message of the bus is to be sent, and a
    request of a connection is one that goes into the queue. *)
Definition request_fits (s : source) (i : qm_item) : Prop :=
  item_ok i /\ qi_size i = qi_data_size i /\ (s = Osbus -> qi_cmd i = QM_CMD_SEND) /\ (s = Conn -> is_send i = true /\ is_direct i = false /\ fits_queue i = true).

Lemma fill_item_id i : qi_size i = qi_data_size i -> fill_item (qi_cmd i) i = i.
Proof. intros E. unfold fill_item. rewrite <- E at 2. by destruct i. Qed.

Lemma request_ok s now sent q xs its i :
  qm_inv q xs its -> request_fits s i ->
  exists q' xs' o, request s now sent q i = Ok ((spec_request now (sent, its) i).1, q', o) /\
    qm_inv q' xs' (spec_request now (sent, its) i).2 /\ bool_decide (is_Some o) = wants_reply s i.
Proof.
  intros Hv (Hi & Hz & Hb & Hc).
  destruct (enqueue_ok now sent q xs its i (qm_res_init i) Hv Hi) as (q' & xs' & r' & E & Hv' & Hx).
  destruct s; cbn [request]; unfold qm_osbus_handle_send_req_msg, qm_async_handle_one, qm_enqueue_and_reply.
  - rewrite <- (Hb eq_refl), fill_item_id, E by done. cbind. exists q', xs', (Some r'). by split_and!.
  - rewrite fill_item_id by done. cbn [item_alloc set_items q_items]. rewrite lookup_insert_eq. cbn [deref]. cbind.
    fold (set_items (<[fresh (dom (q_items q)) := i]> (q_items q)) q). fold (item_alloc (fresh (dom (q_items q))) i q).
    rewrite E. cbind. destruct (Hc eq_refl) as (H1 & H2 & H3). rewrite (Hx H1 H2 H3). cbn [deref]. cbind. eexists q', xs', _.
    split; [reflexivity|]. split; [done|]. cbn [wants_reply stamp qi_flags]. by destruct (_ =? _).
Qed.

(** A sequence of requests, each with its time of arrival, and their replies. *)
Fixpoint requests (sent : list qm_item) (q : qm_queue) (l : list (source * Z * qm_item))
    : res (list qm_item * qm_queue * list (option qm_response)) :=
  match l with
  | [] => Ok (sent, q, [])
  | (s, now, i) :: l' =>
      '(sent, q, o) ← request s now sent q i;
      '(sent, q, os) ← requests sent q l';
      Ok (sent, q, o :: os)
  end.

Definition spec_requests (st : list qm_item * list qm_item) (l : list (source * Z * qm_item)) :=
  foldl (fun st ni => spec_request ni.1.2 st ni.2) st l.

(** C15: The queue manager under any load of requests with items in range: messages
    that came over the bus and were converted, of any kind, and from connections
    messages for the queue (not sent directly, not log lines, at most 2 MiB; for the
    others see [reply_after_direct_send]).  Every sequence of them is processed without
    a fault; the queue then holds, in order of arrival, the messages of a bounded queue
    that drops its oldest entries to make room (never more than 200 messages or 2 MiB,
    counters exact); directly sent messages reach the broker in order, if it is connected
    (which does not change meanwhile) and takes them; every item not in the queue has
    been freed, exactly once; the remote log stays within its buffer and its limit (up to
    the 63 bytes of the overflow line); and a response is made for every message of the
    bus and every request of a connection that does not ask for none. *)
Theorem requests_refine sent q xs its l :
  qm_inv q xs its -> Forall (fun ni => request_fits ni.1.1 ni.2) l ->
  exists q' xs' os, requests sent q l = Ok ((spec_requests (sent, its) l).1, q', os) /\
    qm_inv q' xs' (spec_requests (sent, its) l).2 /\
    (fun o => bool_decide (is_Some o)) <$> os = (fun ni => wants_reply ni.1.1 ni.2) <$> l.
Proof.
  intros Hv Hl. revert sent q xs its Hv. induction Hl as [|[[s now] i] l Hi Hl IH]; intros sent q xs its Hv.
  { by exists q, xs, []. }
  cbn [requests]. destruct (request_ok s now sent q xs its i Hv Hi) as (q1 & xs1 & o & -> & Hv1 & Ho). cbind.
  unfold spec_requests. cbn [foldl fst snd]. destruct (spec_request now (sent, its) i) as [sent1 its1].
  cbn [fst snd] in *. destruct (IH sent1 _ _ _ Hv1) as (q2 & xs2 & os & -> & Hv2 & Hos). cbind.
  exists q2, xs2, (o :: os). split; [done|]. split; [done|]. rewrite !fmap_cons. by rewrite Ho, Hos.
Qed.
End Requests.

Lemma queue_init_inv b : qm_inv (qm_queue_init (queue_zero b)) [] [].
Proof.
  split; [|done|done|unfold QM_LOG_QUEUE_SIZE; cbn; lia].
  split; try done. apply init_ok.
Qed.

Definition text_item (s : string) (ty : Z) : qm_item :=
  mk_item QM_CMD_SEND 0 ty (Z.of_nat (length (str_bytes s))) (str_bytes s) (Z.of_nat (length (str_bytes s))) 0.

Definition direct_item (s : string) : qm_item :=
  mk_item QM_CMD_SEND QM_REQ_FLAG_SEND_DIRECT 1 (Z.of_nat (length (str_bytes s))) (str_bytes s) (Z.of_nat (length (str_bytes s))) 0.

Lemma requests_refine_witness :
  exists q' xs' os, requests true (fun _ _ => true) [] (qm_queue_init (queue_zero true))
      [(Conn, 1, text_item "hello" 1); (Osbus, 2, text_item "a log line" QM_DATA_LOG); (Osbus, 3, direct_item "now")] = Ok ([direct_item "now"], q', os) /\
    qm_inv q' xs' [stamp 1 (text_item "hello" 1)] /\
    (fun o => bool_decide (is_Some o)) <$> os = [true; true; true].
Proof.
  apply (requests_refine true (fun _ _ => true) [] _ [] [] [(Conn, 1, text_item "hello" 1);
    (Osbus, 2, text_item "a log line" QM_DATA_LOG); (Osbus, 3, direct_item "now")]); [apply queue_init_inv|].
  repeat (apply Forall_cons; split); try exact (Forall_nil_2 _); try exact I; cbn [fst snd];
    (split; [split; cbn; lia|by split_and!]).
Defined.

(** The text of the remote log.  A message (without its final NUL and
    newline) is added as a new line; when it would exceed the limit the log
    restarts with a line that says how many lines were dropped, and a message
    that is itself too big is replaced by a notice; an empty one is dropped. *)
Theorem append_log_text q x i r :
  log_wf q -> q_log_enabled q = true -> q_items q !! x = Some i -> item_ok i -> log_msg i <> [] ->
  Z.of_nat (length (log_msg i)) < QM_LOG_QUEUE_SIZE ->
  exists q', qm_queue_append_log q x r = Ok (true, q', r) /\ log_wf q' /\
    log_text q' =
      (if QM_LOG_QUEUE_SIZE <? Z.of_nat (length (log_text q)) + Z.of_nat (length (log_msg i)) + 1 then
         if overflow_count q =? 0 then log_msg i
         else drop_str (overflow_count q) ++ [NL] ++ log_msg i
       else match log_text q with [] => log_msg i | t => t ++ [NL] ++ log_msg i end).
Proof.
  intros Hw He Ei Hi Hne Hsz. destruct (append_log_ok q x i r Hw He Ei Hi) as (q' & r' & E & W' & _ & _ & Ht).
  exists q'. destruct (log_msg i) as [|b m] eqn:Em; [done|]. rewrite <- Em in *.
  rewrite (proj2 (Z.leb_gt _ _)) in Ht by done. destruct Ht as [Ht ->]. split_and!; [done..|].
  rewrite Ht. unfold log_base. destruct (_ <? _); [|by destruct (log_text q)].
  destruct (_ =? _); [done|]. by destruct (drop_str_cons (overflow_count q)) as (a & s & ->).
Qed.

Lemma append_log_text_witness :
  exists q', qm_queue_append_log (item_alloc 1 (text_item "up" QM_DATA_LOG) (queue_zero true)) 1
      (mk_response 2 0 0) = Ok (true, q', mk_response 2 0 0) /\ log_wf q' /\ log_text q' = str_bytes "up".
Proof.
  apply (append_log_text (item_alloc 1 (text_item "up" QM_DATA_LOG) (queue_zero true)) 1
    (text_item "up" QM_DATA_LOG) (mk_response 2 0 0));
    [reflexivity|reflexivity|reflexivity|split; cbn; lia|discriminate|vm_compute; reflexivity].
Defined.

(** The reply to a request that was not queued reads freed memory: the
    flags that say whether to reply are in the item, which a direct send (like a
    log message or a refused one) has already freed. *)
Theorem reply_after_direct_send connected publish now sent q x i :
  q_items q !! x = Some i -> is_send i = true -> is_direct i = true ->
  qm_enqueue_and_reply connected publish now sent q x = Err FDangling.
Proof.
  intros Ei Hs Hd. unfold qm_enqueue_and_reply, qm_enqueue_or_send. rewrite Ei. cbn [deref]. cbind.
  unfold is_send, is_direct in *. rewrite Hs, Hd. cbn [qm_mqtt_send_message]. cbind.
  unfold qm_queue_item_free. rewrite Ei. cbn [deref]. cbind. cbn [q_items set_items].
  by rewrite lookup_delete_eq.
Qed.

Lemma reply_after_direct_send_witness :
  qm_enqueue_and_reply true (fun _ _ => true) 0 []
    (item_alloc 1 (mk_item QM_CMD_SEND 2 0 1 [65] 0 0) (queue_zero true)) 1 = Err FDangling.
Proof. by apply (reply_after_direct_send _ _ _ _ _ _ (mk_item QM_CMD_SEND 2 0 1 [65] 0 0)). Defined.

(** ** Emptying the queue *)

(** The walk on sequences: the accumulator and the items that stay. *)
Fixpoint walk_spec {A} (f : A -> qm_item -> bool * A) (a : A) (its : list qm_item)
    : A * list qm_item :=
  match its with
  | [] => (a, [])
  | i :: r =>
      let '(rm, a) := f a i in
      let '(a, k) := walk_spec f a r in
      (a, if rm : bool then k else i :: k)
  end.

Lemma walk_loop_ok {A} (f : A -> qm_item -> bool * A) n q l1 l2 its1 its2 a :
  length l1 = length its1 -> q_wf q (l1 ++ l2) (its1 ++ its2) ->
  dom (q_items q) = list_to_set (l1 ++ l2) -> (length l2 < n)%nat ->
  exists q' l2', walk_loop f n q (hd_or l2 None) a = Ok (q', (walk_spec f a its2).1) /\
    q_wf q' (l1 ++ l2') (its1 ++ (walk_spec f a its2).2) /\
    dom (q_items q') = list_to_set (l1 ++ l2') /\ same_log q q'.
Proof.
  revert q l1 its1 its2 a n. induction l2 as [|x l2 IH]; intros q l1 its1 its2 a [|n] Hl W Hd Hn;
    cbn [length] in Hn; try lia; pose proof (qw_items _ _ _ W) as I;
    apply Forall2_app_inv in I as [_ I]; try done.
  - apply Forall2_nil_inv_l in I as ->. exists q, []. by split_and!.
  - apply Forall2_cons_inv_l in I as (i & its2' & Ei & _ & ->). cbn [hd_or walk_loop walk_spec].
    rewrite (next_ok _ _ _ _ (qw_rep _ _ _ W)), Ei. cbn [deref]. cbind.
    destruct (f a i) as [[] a'] eqn:Ef.
    + destruct (remove_item_ok q l1 x l2 its1 i its2' Hl W) as (q1 & -> & W1 & Eq & L1). cbind.
      pose proof (dl_nodup _ _ (qw_rep _ _ _ W)) as Hnd. rewrite <- Permutation_middle in Hnd.
      apply NoDup_cons in Hnd as [Hx _].
      destruct (IH q1 l1 its1 its2' a' n Hl W1) as (q2 & l2' & E & W2 & D2 & L2); [|lia|].
      { rewrite Eq, dom_delete_L, Hd. rewrite !list_to_set_app_L in *. cbn [list_to_set]. set_solver. }
      rewrite E. destruct (walk_spec f a' its2') as [a2 k]. exists q2, l2'. split_and!; try done.
      unfold same_log in *. intuition congruence.
    + rewrite (cons_middle i), (app_assoc its1) in W. rewrite (cons_middle x), (app_assoc l1) in W, Hd.
      destruct (IH q (l1 ++ [x]) (its1 ++ [i]) its2' a' n) as (q2 & l2' & E & W2 & D2 & L2);
        [rewrite !length_app; cbn; lia|done|done|lia|].
      cbind. rewrite E. destruct (walk_spec f a' its2') as [a2 k]. cbn [fst snd] in *.
      exists q2, (x :: l2'). rewrite <- !app_assoc in W2. rewrite <- app_assoc in D2. by split_and!.
Qed.

Lemma walk_ok {A} (f : A -> qm_item -> bool * A) q xs its a :
  qm_inv q xs its ->
  exists q' xs', walk_loop f (S (base.size (q_items q))) q (ds_dlist_head (q_list q)) a =
      Ok (q', (walk_spec f a its).1) /\ qm_inv q' xs' (walk_spec f a its).2.
Proof.
  intros [W D L S]. unfold ds_dlist_head. rewrite (dl_head _ _ (qw_rep _ _ _ W)), <- hd_or_None.
  destruct (walk_loop_ok f (Datatypes.S (base.size (q_items q))) q [] xs [] its a eq_refl W D)
    as (q' & xs' & E & W' & D' & L').
  { rewrite <- size_dom, D, size_list_to_set; [lia|]. apply (dl_nodup _ _ (qw_rep _ _ _ W)). }
  exists q', xs'. split; [done|]. split; [done|done|by eapply same_log_wf|].
  destruct L' as (_ & -> & _). done.
Qed.

(** Publishing empties the queue faithfully.  All queued statistics are
    merged, in order, into one report that is sent first when it is not empty;
    the other messages are then offered to the broker in order, and exactly those
    it did not take stay queued, in order, everything else being freed. *)
Theorem publish_queue_refines publish append q xs its sent :
  qm_inv q xs its ->
  let rep := (walk_spec (merge_step append) rep_zero its).1 in
  let rest := filter (fun i => (qi_data_type i =? QM_DATA_STATS) = false) its in
  let sent1 := if negb (qi_size rep =? 0) && publish sent rep then sent ++ [rep] else sent in
  exists q' xs', qm_mqtt_publish_queue publish append q sent =
      Ok (q', (walk_spec (publish_step publish) sent1 rest).1) /\
    qm_inv q' xs' (walk_spec (publish_step publish) sent1 rest).2.
Proof.
  intros Hv rep rest sent1. unfold qm_mqtt_publish_queue, qm_queue_merge_stats.
  destruct (walk_ok (merge_step append) q xs its rep_zero Hv) as (q1 & xs1 & -> & Hv1). cbind.
  fold rep. fold sent1.
  assert (forall a l, (walk_spec (merge_step append) a l).2 =
    filter (fun i => (qi_data_type i =? QM_DATA_STATS) = false) l) as Hk.
  { intros a l. revert a. induction l as [|i l IH]; intros a; [done|]. rewrite filter_cons.
    cbn [walk_spec]. unfold merge_step at 1. destruct (qi_data_type i =? QM_DATA_STATS).
    - rewrite decide_False by done. rewrite <- (IH (append i a)). by destruct (walk_spec _ _ l).
    - rewrite decide_True by done. rewrite <- (IH a). by destruct (walk_spec _ _ l). }
  rewrite Hk in Hv1. exact (walk_ok (publish_step publish) q1 xs1 rest sent1 Hv1).
Qed.

Lemma publish_queue_refines_witness :
  let its := [] in
  let rep := (walk_spec (merge_step (fun i _ => i)) rep_zero its).1 in
  let rest := filter (fun i => (qi_data_type i =? QM_DATA_STATS) = false) its in
  let sent1 := if negb (qi_size rep =? 0) && true then [] ++ [rep] else [] in
  exists q' xs', qm_mqtt_publish_queue (fun _ _ => true) (fun i _ => i)
      (qm_queue_init (queue_zero true)) [] =
      Ok (q', (walk_spec (publish_step (fun _ _ => true)) sent1 rest).1) /\
    qm_inv q' xs' (walk_spec (publish_step (fun _ _ => true)) sent1 rest).2.
Proof.
  apply (publish_queue_refines (fun _ _ => true) (fun i _ => i) _ [] [] []). apply queue_init_inv.
Defined.

(** Publishing everything leaves an empty queue. *)
Lemma publish_all_empties sent its :
  (walk_spec (publish_step (fun _ _ => true)) sent its).2 = [].
Proof.
  revert sent. induction its as [|i its IH]; intros sent; [done|]. cbn [walk_spec publish_step].
  specialize (IH (sent ++ [i])). by destruct (walk_spec _ _ its).
Qed.
