(* ===== verification/DsTree.v ===== *)
(** * DsTree: the red-black trees of the common library

    Models [lib/ds/src/ds_tree.c] and [lib/ds/src/ds_tree.c.h] on an explicit
    store of nodes with parent pointers: initialisation, lookup, ordered walks,
    top-down insertion, bottom-up removal, iterators and the health check.  Every
    field access goes through the store, so that following a NULL or stale pointer
    is a fault.  The second half gives the shape of a store: a tree seen from one
    of its nodes (a subtree and its context), on which each pointer operation is
    described once; [DsTreeRep] to [DsTreeWalk] build on it. *)
From S2P Require Import Prelude.

Abbreviation loc := positive.

(** [OTN_PROP_RED], [OTN_PROP_BLACK] *)
Inductive color := Red | Black.
#[export] Instance color_eq_dec : EqDecision color.
Proof. solve_decision. Defined.

(** The comparison function [ot_cmp_fn], a [ds_key_cmp_t]. *)
Class KeyCmp (K : Type) := cmp : K -> K -> Z.

(** The order it must be for the tree to work. *)
Class KeyOrder (K : Type) `{KeyCmp K} := {
  cmp_refl : forall a, cmp a a = 0;
  cmp_anti : forall a b, cmp a b < 0 <-> 0 < cmp b a;
  cmp_trans : forall a b c, cmp a b <= 0 -> cmp b c <= 0 -> cmp a c <= 0
}.

Section Tree.
Context {K : Type} `{KeyCmp K}.

(** [ds_tree_node_t]; a direction is 0 ([false], left) or 1 ([true], right). *)
Record ds_tree_node := mk_tnode {
  otn_key : K; otn_prop : color; otn_parent : option loc;
  otn_child0 : option loc; otn_child1 : option loc
}.

Definition otn_child (n : ds_tree_node) (dir : bool) : option loc :=
  if dir then otn_child1 n else otn_child0 n.
Definition set_prop (v : color) (n : ds_tree_node) : ds_tree_node :=
  mk_tnode (otn_key n) v (otn_parent n) (otn_child0 n) (otn_child1 n).
Definition set_parent (v : option loc) (n : ds_tree_node) : ds_tree_node :=
  mk_tnode (otn_key n) (otn_prop n) v (otn_child0 n) (otn_child1 n).
Definition set_child (dir : bool) (v : option loc) (n : ds_tree_node) : ds_tree_node :=
  if dir then mk_tnode (otn_key n) (otn_prop n) (otn_parent n) (otn_child0 n) v
  else mk_tnode (otn_key n) (otn_prop n) (otn_parent n) v (otn_child1 n).

(** [ds_tree_t], with the nodes of the allocated elements. *)
Record ds_tree := mk_tree { ot_root : option loc; ot_ndel : Z; ot_nodes : gmap loc ds_tree_node }.

Definition set_root (v : option loc) (T : ds_tree) : ds_tree := mk_tree v (ot_ndel T) (ot_nodes T).
Definition set_tnodes (v : gmap loc ds_tree_node) (T : ds_tree) : ds_tree :=
  mk_tree (ot_root T) (ot_ndel T) v.

Definition get (T : ds_tree) (x : loc) : res ds_tree_node := deref (ot_nodes T !! x).
Definition upd (T : ds_tree) (x : loc) (f : ds_tree_node -> ds_tree_node) : res ds_tree :=
  n ← get T x; Ok (set_tnodes (<[x := f n]> (ot_nodes T)) T).

(** [OTN_IS_RED(x)] *)
Definition OTN_IS_RED (T : ds_tree) (x : option loc) : res bool :=
  match x with
  | None => Ok false
  | Some x => n ← get T x; Ok (bool_decide (otn_prop n = Red))
  end.

Definition __ds_tree_init (nodes : gmap loc ds_tree_node) : ds_tree := mk_tree None 0 nodes.

(** ** Rotations *)
Definition ds_bst_rotate (T : ds_tree) (node : loc) (dir : bool) : res (ds_tree * loc) :=
  n ← get T node;
  save ← deref (otn_child n dir);
  T ← upd T save (set_parent (otn_parent n));
  s ← get T save;
  T ← upd T node (set_child dir (otn_child s (negb dir)));
  n ← get T node;
  T ← match otn_child n dir with
      | None => Ok T
      | Some b => upd T b (set_parent (Some node))
      end;
  T ← upd T save (set_child (negb dir) (Some node));
  T ← upd T node (set_parent (Some save));
  s ← get T save;
  T ← match otn_parent s with
      | None => Ok (set_root (Some save) T)
      | Some p =>
          pn ← get T p;
          upd T p (set_child (bool_decide (otn_child pn true = Some node)) (Some save))
      end;
  Ok (T, save).

Definition ds_rbt_rotate (T : ds_tree) (node : loc) (dir : bool) : res (ds_tree * loc) :=
  '(T, save) ← ds_bst_rotate T node dir;
  T ← upd T node (set_prop Red);
  T ← upd T save (set_prop Black);
  Ok (T, save).

Definition ds_rbt_rotate_double (T : ds_tree) (node : loc) (dir : bool) : res (ds_tree * loc) :=
  n ← get T node;
  c ← deref (otn_child n dir);
  '(T, _) ← ds_rbt_rotate T c (negb dir);
  ds_rbt_rotate T node dir.

(** ** Insertion *)
Definition ds_tree_insert_rebalance (T : ds_tree) (base : loc) : res ds_tree :=
  rb ← OTN_IS_RED T (Some base);
  if negb rb then Ok T else
  b ← get T base;
  rp ← OTN_IS_RED T (otn_parent b);
  if negb rp then Ok T else
  p ← deref (otn_parent b);
  pn ← get T p;
  gbase ← deref (otn_parent pn);
  g ← get T gbase;
  let gdir := bool_decide (otn_child g true = Some p) in
  let pdir := bool_decide (otn_child pn true = Some base) in
  '(T, _) ← (if eqb gdir pdir then ds_rbt_rotate T gbase gdir else ds_rbt_rotate_double T gbase gdir);
  Ok T.

(** The colour flip of the descent: both children red. *)
Definition insert_flip (T : ds_tree) (base : loc) : res ds_tree :=
  b ← get T base;
  r0 ← OTN_IS_RED T (otn_child0 b);
  if negb r0 then Ok T else
  r1 ← OTN_IS_RED T (otn_child1 b);
  if negb r1 then Ok T else
  T ← upd T base (set_prop Red);
  b ← get T base;
  c0 ← deref (otn_child0 b);
  T ← upd T c0 (set_prop Black);
  b ← get T base;
  c1 ← deref (otn_child1 b);
  upd T c1 (set_prop Black).

(** [root->ot_cmp_fn(base->otn_key, key) < 0] *)
Definition go_dir (k key : K) : bool := cmp k key <? 0.

(** The [while] loop: the node below which the new one is linked, and on which
    side. *)
Fixpoint insert_loop (n : nat) (T : ds_tree) (base : loc) (dir : bool) (key : K)
    : res (ds_tree * loc * bool) :=
  match n with
  | O => Err FFuel
  | S n' =>
      b ← get T base;
      match otn_child b dir with
      | None => Ok (T, base, dir)
      | Some _ =>
          T ← insert_flip T base;
          T ← ds_tree_insert_rebalance T base;
          b ← get T base;
          base ← deref (otn_child b dir);
          b ← get T base;
          insert_loop n' T base (go_dir (otn_key b) key) key
      end
  end.

(** [root->ot_root->otn_prop = OTN_PROP_BLACK] *)
Definition blacken_root (T : ds_tree) : res ds_tree :=
  r ← deref (ot_root T); upd T r (set_prop Black).

Definition ds_tree_node_insert (T : ds_tree) (node : loc) (key : K) : res ds_tree :=
  T ← upd T node (fun _ => mk_tnode key Red None None None);
  match ot_root T with
  | None =>
      let T := set_root (Some node) T in
      upd T node (set_prop Black)
  | Some r =>
      b ← get T r;
      '(T, base, dir) ← insert_loop (2 * size (ot_nodes T) + 2) T r (go_dir (otn_key b) key) key;
      T ← upd T base (set_child dir (Some node));
      T ← upd T node (set_parent (Some base));
      b ← get T base;
      c ← deref (otn_child b dir);
      T ← ds_tree_insert_rebalance T c;
      blacken_root T
  end.
Definition ds_tree_insert := ds_tree_node_insert.

(** ** Removal *)
Definition ds_tree_remove_leaf (T : ds_tree) (node : loc) : res (ds_tree * option loc) :=
  n ← get T node;
  let dir := bool_decide (otn_child0 n = None) in
  rn ← OTN_IS_RED T (Some node);
  '(T, retval) ←
    (if rn : bool then Ok (T, None) else
     rc ← OTN_IS_RED T (otn_child n dir);
     if rc : bool then
       c ← deref (otn_child n dir);
       T ← upd T c (set_prop Black);
       Ok (T, None)
     else Ok (T, otn_parent n));
  n ← get T node;
  T ← match otn_parent n with
      | None => Ok (set_root (otn_child n dir) T)
      | Some p =>
          pn ← get T p;
          upd T p (set_child (bool_decide (otn_child pn true = Some node)) (otn_child n dir))
      end;
  n ← get T node;
  T ← match otn_child n dir with
      | None => Ok T
      | Some c => upd T c (set_parent (otn_parent n))
      end;
  Ok (T, retval).

Definition ds_tree_node_replace (T : ds_tree) (pold pnew : loc) : res ds_tree :=
  o ← get T pold;
  T ← upd T pnew (fun n => mk_tnode (otn_key n) (otn_prop o) (otn_parent o) (otn_child0 o) (otn_child1 o));
  o ← get T pold;
  T ← match otn_child0 o with None => Ok T | Some c => upd T c (set_parent (Some pnew)) end;
  o ← get T pold;
  T ← match otn_child1 o with None => Ok T | Some c => upd T c (set_parent (Some pnew)) end;
  o ← get T pold;
  match otn_parent o with
  | None => Ok (set_root (Some pnew) T)
  | Some p =>
      pn ← get T p;
      upd T p (set_child (bool_decide (otn_child pn true = Some pold)) (Some pnew))
  end.

(** The second half of [ds_tree_remove_rebalance], for a sibling that is not red;
    [true]: the subtree is still one black node short. *)
Definition remove_fix (T : ds_tree) (node : loc) (dir : bool) (s : option loc) : res (ds_tree * bool) :=
  match s with
  | None => Ok (T, true)
  | Some s =>
      sn ← get T s;
      r0 ← OTN_IS_RED T (otn_child0 sn);
      r1 ← OTN_IS_RED T (otn_child1 sn);
      if negb r0 && negb r1 then
        T ← upd T s (set_prop Red);
        rn ← OTN_IS_RED T (Some node);
        if rn : bool then
          T ← upd T node (set_prop Black);
          Ok (T, false)
        else Ok (T, true)
      else
        n ← get T node;
        let prop := otn_prop n in
        r ← OTN_IS_RED T (otn_child sn (negb dir));
        '(T, node) ← (if r : bool then ds_rbt_rotate T node (negb dir)
                      else ds_rbt_rotate_double T node (negb dir));
        T ← upd T node (set_prop prop);
        n ← get T node;
        c0 ← deref (otn_child0 n);
        T ← upd T c0 (set_prop Black);
        n ← get T node;
        c1 ← deref (otn_child1 n);
        T ← upd T c1 (set_prop Black);
        Ok (T, false)
  end.

Definition ds_tree_remove_rebalance (T : ds_tree) (node : loc) (dir : bool) : res (ds_tree * bool) :=
  n ← get T node;
  let s := otn_child n (negb dir) in
  rs ← OTN_IS_RED T s;
  '(T, s) ← (if rs : bool then
               '(T, _) ← ds_rbt_rotate T node (negb dir);
               n ← get T node;
               Ok (T, otn_child n (negb dir))
             else Ok (T, s));
  remove_fix T node dir s.

(** [while (rnode->otn_child[dir] != NULL) rnode = rnode->otn_child[dir]] *)
Fixpoint descend (n : nat) (T : ds_tree) (x : loc) (dir : bool) : res loc :=
  match n with
  | O => Err FFuel
  | S n' =>
      v ← get T x;
      match otn_child v dir with None => Ok x | Some y => descend n' T y dir end
  end.

(** The climb of [ds_tree_node_remove]. *)
Fixpoint remove_loop (n : nat) (T : ds_tree) (base : option loc) (dir : bool) : res ds_tree :=
  match n with
  | O => Err FFuel
  | S n' =>
      match base with
      | None => Ok T
      | Some base =>
          '(T, more) ← ds_tree_remove_rebalance T base dir;
          if negb more then Ok T else
          b ← get T base;
          dir ← match otn_parent b with
                | None => Ok dir
                | Some p => pn ← get T p; Ok (bool_decide (otn_child pn true = Some base))
                end;
          remove_loop n' T (otn_parent b) dir
      end
  end.

(** The first part of [ds_tree_node_remove]: unlink, and where to rebalance. *)
Definition remove_unlink (T : ds_tree) (node : loc) : res (ds_tree * option loc * bool) :=
  n ← get T node;
  match otn_child0 n, otn_child1 n with
  | Some c0, Some _ =>
      rnode ← descend (S (size (ot_nodes T))) T c0 true;
      rn ← get T rnode;
      p ← deref (otn_parent rn);
      pn ← get T p;
      let dir := bool_decide (otn_child1 pn = Some rnode) in
      '(T, base) ← ds_tree_remove_leaf T rnode;
      T ← ds_tree_node_replace T node rnode;
      Ok (T, if bool_decide (base = Some node) then Some rnode else base, dir)
  | _, _ =>
      dir ← match otn_parent n with
            | None => Ok true
            | Some p => pn ← get T p; Ok (bool_decide (otn_child1 pn = Some node))
            end;
      '(T, base) ← ds_tree_remove_leaf T node;
      Ok (T, base, dir)
  end.

Definition ds_tree_node_remove (T : ds_tree) (node : loc) : res ds_tree :=
  '(T, base, dir) ← remove_unlink T node;
  T ← remove_loop (S (size (ot_nodes T))) T base dir;
  T ← match ot_root T with None => Ok T | Some r => upd T r (set_prop Black) end;
  T ← upd T node (set_child true None);
  T ← upd T node (set_child false None);
  Ok (mk_tree (ot_root T) (u32 (ot_ndel T + 1)) (ot_nodes T)).
Definition ds_tree_remove := ds_tree_node_remove.

(** ** Lookup and walks *)
Fixpoint find_loop (n : nat) (T : ds_tree) (x : option loc) (key : K) : res (option loc) :=
  match n with
  | O => Err FFuel
  | S n' =>
      match x with
      | None => Ok None
      | Some y =>
          v ← get T y;
          let c := cmp (otn_key v) key in
          if c =? 0 then Ok (Some y) else find_loop n' T (otn_child v (c <? 0)) key
      end
  end.

Definition fuel (T : ds_tree) : nat := S (size (ot_nodes T)).

Definition ds_tree_find (T : ds_tree) (key : K) : res (option loc) := find_loop (fuel T) T (ot_root T) key.
Definition ds_tree_is_empty (T : ds_tree) : bool := bool_decide (ot_root T = None).
Definition ds_tree_node_min (T : ds_tree) (x : option loc) : res (option loc) :=
  match x with None => Ok None | Some x => m ← descend (fuel T) T x false; Ok (Some m) end.
Definition ds_tree_node_max (T : ds_tree) (x : option loc) : res (option loc) :=
  match x with None => Ok None | Some x => m ← descend (fuel T) T x true; Ok (Some m) end.
Definition ds_tree_head (T : ds_tree) : res (option loc) := ds_tree_node_min T (ot_root T).
Definition ds_tree_tail (T : ds_tree) : res (option loc) := ds_tree_node_max T (ot_root T).

(** The climb of [ds_tree_node_next] ([d] is 1) and [ds_tree_node_prev] ([d] is 0). *)
Fixpoint climb (n : nat) (T : ds_tree) (x : option loc) (d : bool) : res (option loc) :=
  match n with
  | O => Err FFuel
  | S n' =>
      match x with
      | None => Ok None
      | Some y =>
          v ← get T y;
          match otn_parent v with
          | None => Ok None
          | Some p =>
              pn ← get T p;
              if bool_decide (otn_child pn d = Some y) then climb n' T (Some p) d else Ok (Some p)
          end
      end
  end.

Definition ds_tree_node_next (T : ds_tree) (x : option loc) : res (option loc) :=
  match x with
  | None => Ok None
  | Some y =>
      v ← get T y;
      match otn_child1 v with Some c => ds_tree_node_min T (Some c) | None => climb (fuel T) T x true end
  end.
Definition ds_tree_node_prev (T : ds_tree) (x : option loc) : res (option loc) :=
  match x with
  | None => Ok None
  | Some y =>
      v ← get T y;
      match otn_child0 v with Some c => ds_tree_node_max T (Some c) | None => climb (fuel T) T x false end
  end.
Definition ds_tree_next (T : ds_tree) (x : loc) : res (option loc) := ds_tree_node_next T (Some x).
Definition ds_tree_prev (T : ds_tree) (x : loc) : res (option loc) := ds_tree_node_prev T (Some x).

Definition ds_tree_remove_head (T : ds_tree) : res (option loc * ds_tree) :=
  h ← ds_tree_node_min T (ot_root T);
  match h with None => Ok (None, T) | Some x => T ← ds_tree_node_remove T x; Ok (h, T) end.
Definition ds_tree_remove_tail (T : ds_tree) : res (option loc * ds_tree) :=
  h ← ds_tree_node_max T (ot_root T);
  match h with None => Ok (None, T) | Some x => T ← ds_tree_node_remove T x; Ok (h, T) end.

(** ** Iterators and the health check *)
Record ds_tree_iter := mk_titer { oti_curr : option loc; oti_next : option loc; oti_ndel : Z }.

(** An element, NULL, or [DS_ITER_ERROR]. *)
Inductive titer_res := TElem (x : loc) | TNull | TError.

Definition ds_tree_ifirst (T : ds_tree) : res (titer_res * ds_tree_iter) :=
  match ot_root T with
  | None => Ok (TNull, mk_titer None None (ot_ndel T))
  | Some r =>
      c ← ds_tree_node_min T (Some r);
      nx ← ds_tree_node_next T c;
      c' ← deref c;
      Ok (TElem c', mk_titer c nx (ot_ndel T))
  end.

Definition ds_tree_inext_err (T : ds_tree) (it : ds_tree_iter) : res (titer_res * ds_tree_iter) :=
  if negb (oti_ndel it =? ot_ndel T) then Ok (TError, it) else
  match oti_next it with
  | None => Ok (TNull, mk_titer None None (oti_ndel it))
  | Some x => nx ← ds_tree_node_next T (Some x); Ok (TElem x, mk_titer (Some x) nx (oti_ndel it))
  end.

Definition ds_tree_inext (T : ds_tree) (it : ds_tree_iter) : res (titer_res * ds_tree_iter) :=
  '(r, it) ← ds_tree_inext_err T it;
  match r with TError => Err FAssert | _ => Ok (r, it) end.

Definition ds_tree_iremove_err (T : ds_tree) (it : ds_tree_iter)
    : res (titer_res * ds_tree * ds_tree_iter) :=
  if negb (oti_ndel it =? ot_ndel T) then Ok (TError, T, it) else
  match oti_curr it with
  | None => Ok (TNull, T, it)
  | Some x =>
      T ← ds_tree_node_remove T x;
      Ok (TElem x, T, mk_titer None (oti_next it) (u32 (oti_ndel it + 1)))
  end.

Definition ds_tree_iremove (T : ds_tree) (it : ds_tree_iter) : res (titer_res * ds_tree * ds_tree_iter) :=
  '(r, T, it) ← ds_tree_iremove_err T it;
  match r with TError => Err FAssert | _ => Ok (r, T, it) end.

(** [ds_tree_check_r]: the black height of the subtree, or -1. *)
Fixpoint ds_tree_check_r (n : nat) (T : ds_tree) (node : loc) : res Z :=
  match n with
  | O => Err FFuel
  | S n' =>
      v ← get T node;
      let side (c : option loc) : res Z :=
        match c with
        | None => Ok 0
        | Some x =>
            cv ← get T x;
            if bool_decide (otn_parent cv = Some node) then ds_tree_check_r n' T x else Ok (-1)
        end in
      rc0 ← side (otn_child0 v);
      if rc0 <? 0 then Ok (-1) else
      rc1 ← side (otn_child1 v);
      if rc1 <? 0 then Ok (-1) else
      if negb (rc0 =? rc1) then Ok (-1) else
      r ← OTN_IS_RED T (Some node);
      if negb r then Ok (rc0 + 1) else
      r0 ← OTN_IS_RED T (otn_child0 v);
      if r0 : bool then Ok (-1) else
      r1 ← OTN_IS_RED T (otn_child1 v);
      if r1 : bool then Ok (-1) else Ok rc0
  end.

Definition ds_tree_check (T : ds_tree) : res Z :=
  match ot_root T with
  | None => Ok 0
  | Some r => red ← OTN_IS_RED T (Some r); if red : bool then Ok (-1) else ds_tree_check_r (fuel T) T r
  end.

(** [ds_tree_foreach]: the elements in the order they are visited. *)
Fixpoint foreach_loop (n : nat) (T : ds_tree) (x : option loc) : res (list loc) :=
  match n with
  | O => Err FFuel
  | S n' =>
      match x with
      | None => Ok []
      | Some y => nx ← ds_tree_next T y; l ← foreach_loop n' T nx; Ok (y :: l)
      end
  end.
Definition ds_tree_foreach (T : ds_tree) : res (list loc) := h ← ds_tree_head T; foreach_loop (fuel T) T h.
Definition ds_tree_len (T : ds_tree) : res Z := l ← ds_tree_foreach T; Ok (Z.of_nat (length l)).

(** ** Trees and contexts *)
Inductive tree := Leaf | Node (c : color) (l : tree) (x : loc) (k : K) (r : tree).

(** A node seen in a direction: [t1] is its child on side [d]. *)
Definition nd (d : bool) (c : color) (t1 : tree) (x : loc) (k : K) (t2 : tree) : tree :=
  if d then Node c t2 x k t1 else Node c t1 x k t2.

(** A step from a node down to its child on side [fd]. *)
Record frame := mk_frame { fd : bool; fc : color; fx : loc; fk : K; fs : tree }.
Notation ctx := (list frame).

Fixpoint plug (C : ctx) (t : tree) : tree :=
  match C with [] => t | f :: C' => plug C' (nd (fd f) (fc f) t (fx f) (fk f) (fs f)) end.

Definition ptr (t : tree) : option loc := match t with Leaf => None | Node _ _ x _ _ => Some x end.
Definition cptr (C : ctx) : option loc := match C with [] => None | f :: _ => Some (fx f) end.

Fixpoint locs (t : tree) : list loc :=
  match t with Leaf => [] | Node _ l x _ r => locs l ++ x :: locs r end.
Fixpoint clocs (C : ctx) : list loc :=
  match C with [] => [] | f :: C' => fx f :: locs (fs f) ++ clocs C' end.

(** The node with children [p1] on side [d] and [p2] on the other. *)
Definition mkd (d : bool) (k : K) (c : color) (par p1 p2 : option loc) : ds_tree_node :=
  if d then mk_tnode k c par p2 p1 else mk_tnode k c par p1 p2.

(** The store holds the tree [t] below [par]. *)
Fixpoint tcells (M : gmap loc ds_tree_node) (par : option loc) (t : tree) : Prop :=
  match t with
  | Leaf => True
  | Node c l x k r =>
      M !! x = Some (mk_tnode k c par (ptr l) (ptr r)) /\ tcells M (Some x) l /\ tcells M (Some x) r
  end.

(** The store holds the context [C] around a subtree whose root is [p]. *)
Fixpoint ccells (M : gmap loc ds_tree_node) (C : ctx) (p : option loc) : Prop :=
  match C with
  | [] => True
  | f :: C' =>
      M !! fx f = Some (mkd (fd f) (fk f) (fc f) (cptr C') p (ptr (fs f))) /\
      tcells M (Some (fx f)) (fs f) /\ ccells M C' (Some (fx f))
  end.

(** The root of the whole tree. *)
Fixpoint rootp (C : ctx) (p : option loc) : option loc :=
  match C with [] => p | f :: C' => rootp C' (Some (fx f)) end.

Record rep (T : ds_tree) (C : ctx) (t : tree) : Prop := {
  rp_root : ot_root T = rootp C (ptr t);
  rp_tree : tcells (ot_nodes T) (cptr C) t;
  rp_ctx : ccells (ot_nodes T) C (ptr t);
  rp_nodup : NoDup (locs t ++ clocs C)
}.

Lemma tcells_nd M par d c t1 x k t2 :
  tcells M par (nd d c t1 x k t2) <->
  M !! x = Some (mkd d k c par (ptr t1) (ptr t2)) /\ tcells M (Some x) t1 /\ tcells M (Some x) t2.
Proof. destruct d; cbn; tauto. Qed.

Lemma ptr_nd d c t1 x k t2 : ptr (nd d c t1 x k t2) = Some x.
Proof. by destruct d. Qed.

Lemma locs_nd d c t1 x k t2 : locs (nd d c t1 x k t2) ≡ₚ x :: locs t1 ++ locs t2.
Proof. destruct d; cbn; solve_Permutation. Qed.

Lemma child_mkd d k c par p1 p2 : otn_child (mkd d k c par p1 p2) d = p1.
Proof. by destruct d. Qed.
Lemma child_mkd_other d k c par p1 p2 : otn_child (mkd d k c par p1 p2) (negb d) = p2.
Proof. by destruct d. Qed.
Lemma set_child_mkd d k c par p1 p2 v : set_child d v (mkd d k c par p1 p2) = mkd d k c par v p2.
Proof. by destruct d. Qed.
Lemma set_child_mkd_other d k c par p1 p2 v :
  set_child (negb d) v (mkd d k c par p1 p2) = mkd d k c par p1 v.
Proof. by destruct d. Qed.
Lemma set_parent_mkd d k c par p1 p2 v : set_parent v (mkd d k c par p1 p2) = mkd d k c v p1 p2.
Proof. by destruct d. Qed.
Lemma set_prop_mkd d k c par p1 p2 v : set_prop v (mkd d k c par p1 p2) = mkd d k v par p1 p2.
Proof. by destruct d. Qed.
Lemma parent_mkd d k c par p1 p2 : otn_parent (mkd d k c par p1 p2) = par.
Proof. by destruct d. Qed.
Lemma prop_mkd d k c par p1 p2 : otn_prop (mkd d k c par p1 p2) = c.
Proof. by destruct d. Qed.
Lemma key_mkd d k c par p1 p2 : otn_key (mkd d k c par p1 p2) = k.
Proof. by destruct d. Qed.
Lemma mkd_swap d k c par p1 p2 : mkd (negb d) k c par p1 p2 = mkd d k c par p2 p1.
Proof. by destruct d. Qed.
Lemma nd_swap d c t1 x k t2 : nd (negb d) c t1 x k t2 = nd d c t2 x k t1.
Proof. by destruct d. Qed.

(** ** Frame rules *)
Lemma tcells_insert M par t x v : x ∉ locs t -> tcells M par t -> tcells (<[x := v]> M) par t.
Proof.
  revert par. induction t as [|c l IHl y k r IHr]; intros par Hx; [done|]. cbn [tcells locs] in *.
  intros (Hy & Hl & Hr). rewrite lookup_insert_ne by set_solver.
  split_and!; [done|apply IHl; set_solver|apply IHr; set_solver].
Qed.

Lemma ccells_insert M C p x v : x ∉ clocs C -> ccells M C p -> ccells (<[x := v]> M) C p.
Proof.
  revert p. induction C as [|f C IH]; intros p Hx; [done|]. cbn [ccells clocs] in *.
  intros (Hy & Ht & Hc). rewrite lookup_insert_ne by set_solver.
  split_and!; [done|apply tcells_insert; set_solver|apply IH; set_solver].
Qed.

Lemma nodup_perm (l1 l2 : list loc) : l1 ≡ₚ l2 -> NoDup l1 -> NoDup l2.
Proof. by intros ->. Qed.

(** Seen from the parent. *)
Lemma rep_up T f C t : rep T (f :: C) t <-> rep T C (nd (fd f) (fc f) t (fx f) (fk f) (fs f)).
Proof.
  split; intros [R1 R2 R3 R4].
  - cbn [rootp ccells cptr clocs] in *. destruct R3 as (Hx & Hs & Hc). split.
    + by rewrite ptr_nd.
    + by apply tcells_nd.
    + by rewrite ptr_nd.
    + rewrite locs_nd. eapply nodup_perm, R4. solve_Permutation.
  - rewrite ptr_nd in *. apply tcells_nd in R2 as (Hx & Ht & Hs). split; cbn [rootp ccells cptr clocs]; try done.
    rewrite locs_nd in R4. eapply nodup_perm, R4. solve_Permutation.
Qed.

Lemma rep_plug T C t : rep T C t <-> rep T [] (plug C t).
Proof.
  revert t. induction C as [|f C IH]; intros t; [done|]. cbn [plug]. by rewrite <- IH, rep_up.
Qed.

Lemma ptr_in t x : ptr t = Some x -> x ∈ locs t.
Proof. destruct t; cbn; [done|]. intros [= ->]. set_solver. Qed.

(** The side a node hangs on is read off its parent. *)
Lemma side_of d k c par (sib : tree) x :
  x ∉ locs sib -> bool_decide (otn_child (mkd d k c par (Some x) (ptr sib)) true = Some x) = d.
Proof.
  intros Hx. destruct d; cbn; [by rewrite bool_decide_true|].
  apply bool_decide_false. intros Hp. by apply Hx, ptr_in.
Qed.

Lemma tget_ok T x v : ot_nodes T !! x = Some v -> get T x = Ok v.
Proof. unfold get. by intros ->. Qed.

Lemma upd_ok T x v f :
  ot_nodes T !! x = Some v -> upd T x f = Ok (set_tnodes (<[x := f v]> (ot_nodes T)) T).
Proof. unfold upd, get. by intros ->. Qed.
End Tree.
Arguments tree K : clear implicits.
Arguments frame K : clear implicits.
Arguments ds_tree K : clear implicits.
Arguments ds_tree_node K : clear implicits.

(** Symbolic execution of field accesses: look a node up through a chain of
    updates, using the facts about the initial store at hand. *)
Ltac lk := cbn [ot_nodes set_tnodes set_root];
  repeat (rewrite lookup_insert_eq || rewrite lookup_insert_ne by congruence); (eassumption || reflexivity).
Ltac mkds := rewrite ?set_child_mkd, ?set_child_mkd_other, ?set_parent_mkd, ?set_prop_mkd,
  ?child_mkd, ?child_mkd_other, ?parent_mkd, ?prop_mkd, ?key_mkd.
Ltac st := repeat (first
  [ progress (cbn [mbind res_bind deref])
  | erewrite tget_ok by lk
  | erewrite upd_ok by lk
  | progress mkds ]).
