(* ===== verification/DsTreeRep.v ===== *)
(** * DsTreeRep: the pointer operations of the red-black tree on trees and contexts

    Each operation of [DsTree] that relinks or repaints nodes is described by what
    it does to the represented tree, seen from the node it works on.  All later
    proofs are about trees; pointers, stale cells and parent links are settled here. *)
From S2P Require Import Prelude DsTree.

Section Agree.
Context {K : Type} `{KeyOrder K}.
Notation ctx := (list (frame K)).

(** Two stores that differ at most on [L], with the same cells allocated. *)
Record agree (T T' : ds_tree K) (L : list loc) : Prop := {
  ag_ndel : ot_ndel T' = ot_ndel T;
  ag_dom : dom (ot_nodes T') = dom (ot_nodes T);
  ag_get : forall y, y ∉ L -> ot_nodes T' !! y = ot_nodes T !! y
}.

Lemma agree_refl T L : agree T T L.
Proof. by split. Qed.

Lemma agree_mono T T' L L' : L ⊆ L' -> agree T T' L -> agree T T' L'.
Proof. intros HL [A B C]. split; try done. intros y Hy. apply C. set_solver. Qed.

Lemma agree_trans T1 T2 T3 L : agree T1 T2 L -> agree T2 T3 L -> agree T1 T3 L.
Proof. intros [A1 B1 C1] [A2 B2 C2]. split; [congruence|congruence|]. intros y Hy. rewrite C2, C1; done. Qed.

Lemma agree_via T1 T2 T3 L1 L2 L : agree T1 T2 L1 -> agree T2 T3 L2 -> L1 ⊆ L -> L2 ⊆ L -> agree T1 T3 L.
Proof. intros A1 A2 S1 S2. exact (agree_trans _ _ _ _ (agree_mono _ _ _ _ S1 A1) (agree_mono _ _ _ _ S2 A2)). Qed.

Lemma elem_of_nd d c (t1 t2 : tree K) x k y : y ∈ locs (nd d c t1 x k t2) <-> y = x \/ y ∈ locs t1 \/ y ∈ locs t2.
Proof. by rewrite locs_nd, elem_of_cons, elem_of_app. Qed.

Lemma dom_upd (M : gmap loc (ds_tree_node K)) x v w : M !! x = Some w -> dom (<[x := v]> M) = dom M.
Proof. intros Hx. apply elem_of_dom_2 in Hx. set_solver. Qed.

Lemma agree_upd T x v w L :
  ot_nodes T !! x = Some w -> x ∈ L -> agree T (set_tnodes (<[x := v]> (ot_nodes T)) T) L.
Proof.
  intros Hx HL. split; cbn; [done|by eapply dom_upd|]. intros y Hy.
  apply lookup_insert_ne. by intros ->.
Qed.

Lemma tcells_agree (M M' : gmap loc (ds_tree_node K)) par t :
  (forall y, y ∈ locs t -> M' !! y = M !! y) -> tcells M par t -> tcells M' par t.
Proof.
  revert par. induction t as [|c l IHl y k r IHr]; intros par Hx; [done|]. cbn [tcells locs] in *.
  intros (Hy & Hl & Hr). rewrite Hx by set_solver. split_and!; [done| |].
  - apply IHl; [|done]. intros z Hz. apply Hx. set_solver.
  - apply IHr; [|done]. intros z Hz. apply Hx. set_solver.
Qed.

Lemma ccells_agree (M M' : gmap loc (ds_tree_node K)) C p :
  (forall y, y ∈ clocs C -> M' !! y = M !! y) -> ccells M C p -> ccells M' C p.
Proof.
  revert p. induction C as [|f C IH]; intros p Hx; [done|]. cbn [ccells clocs] in *.
  intros (Hy & Ht & Hc). rewrite Hx by set_solver. split_and!; [done| |].
  - eapply tcells_agree, Ht. intros z Hz. apply Hx. set_solver.
  - apply IH; [|done]. intros z Hz. apply Hx. set_solver.
Qed.

End Agree.

(** Cells of the same trees. *)
Ltac sub_locs := clear; intros ?; cbn [clocs fx fs fd fc fk locs];
  repeat (rewrite elem_of_app || rewrite elem_of_nd || rewrite elem_of_cons || rewrite elem_of_nil
    || (progress cbn [locs]));
  tauto.

Section Rep.
Context {K : Type} `{KeyOrder K}.
Notation ctx := (list (frame K)).

(** A subtree gets another parent: [t->otn_parent = v], unless it is empty. *)
Lemma reparent_ok (T : ds_tree K) t par v :
  tcells (ot_nodes T) par t -> NoDup (locs t) ->
  exists T', match ptr t with None => Ok T | Some b => upd T b (set_parent v) end = Ok T' /\
    tcells (ot_nodes T') v t /\ ot_root T' = ot_root T /\ agree T T' (locs t).
Proof.
  destruct t as [|c l x k r]; cbn [ptr tcells locs].
  - intros _ _. exists T. by split_and!; [..|apply agree_refl].
  - intros (Hx & Hl & Hr) [Hnl [Hd Hnr]]%NoDup_app. erewrite upd_ok by done. eexists. split; [done|].
    apply NoDup_cons in Hnr as [Hxr _]. cbn [set_tnodes ot_nodes ot_root]. split_and!; try done.
    + apply lookup_insert_eq.
    + apply tcells_insert; [|done]. intros Hi. apply (Hd _ Hi), list_elem_of_here.
    + by apply tcells_insert.
    + eapply agree_upd; [done|set_solver].
Qed.

(** The link into a subtree: [root->ot_root] or a child of the parent. *)
Definition relink (T : ds_tree K) (par : option loc) (old : loc) (new : option loc) : res (ds_tree K) :=
  match par with
  | None => Ok (set_root new T)
  | Some p =>
      pn ← get T p;
      upd T p (set_child (bool_decide (otn_child pn true = Some old)) new)
  end.

Definition headl (C : ctx) : list loc := match C with [] => [] | f :: _ => [fx f] end.

Lemma headl_sub C : headl C ⊆ clocs C.
Proof. destruct C; cbn; set_solver. Qed.

Lemma relink_ok T (C : ctx) old new :
  ccells (ot_nodes T) C (Some old) -> NoDup (old :: clocs C) -> ot_root T = rootp C (Some old) ->
  exists T', relink T (cptr C) old new = Ok T' /\
    ccells (ot_nodes T') C new /\ ot_root T' = rootp C new /\ agree T T' (headl C).
Proof.
  intros HC Hnd Hr. destruct C as [|f C]; cbn [cptr ccells clocs rootp headl relink] in *.
  - eexists. split; [done|]. done.
  - destruct HC as (Hf & Hs & HC). rewrite !NoDup_cons in Hnd. destruct Hnd as (Ho & Hf2 & Hnd).
    rewrite (tget_ok _ _ _ Hf). cbn [mbind res_bind].
    rewrite side_of by set_solver. erewrite upd_ok by done. eexists. split; [done|].
    rewrite set_child_mkd. cbn [set_tnodes ot_nodes ot_root].
    split_and!; try done.
    + apply lookup_insert_eq.
    + apply tcells_insert; [set_solver|done].
    + apply ccells_insert; [set_solver|done].
    + eapply agree_upd; [done|set_solver].
Qed.

(** ** Reading *)
Lemma rep_node (T : ds_tree K) C d c t1 x k t2 :
  rep T C (nd d c t1 x k t2) -> ot_nodes T !! x = Some (mkd d k c (cptr C) (ptr t1) (ptr t2)).
Proof. intros [_ Ht _ _]. by apply tcells_nd in Ht as [? _]. Qed.

Lemma rep_get (T : ds_tree K) C d c t1 x k t2 :
  rep T C (nd d c t1 x k t2) -> get T x = Ok (mkd d k c (cptr C) (ptr t1) (ptr t2)).
Proof. intros Hr. eapply tget_ok, rep_node, Hr. Qed.

Definition is_red (t : tree K) : bool := match t with Node Red _ _ _ _ => true | _ => false end.

Lemma is_red_nd d c t1 x k t2 : is_red (nd d c t1 x k t2) = bool_decide (c = Red).
Proof. by destruct d, c. Qed.

Lemma tcells_red (T : ds_tree K) par t : tcells (ot_nodes T) par t -> OTN_IS_RED T (ptr t) = Ok (is_red t).
Proof.
  destruct t as [|c l x k r]; cbn [tcells ptr OTN_IS_RED is_red]; [done|]. intros (Hx & _).
  rewrite (tget_ok _ _ _ Hx). cbn. by destruct c.
Qed.

Lemma rep_red (T : ds_tree K) C t : rep T C t -> OTN_IS_RED T (ptr t) = Ok (is_red t).
Proof. intros Hr. by eapply tcells_red, rp_tree. Qed.

(** Down to the child on side [d], and to the other one. *)
Lemma rep_down (T : ds_tree K) C d c t1 x k t2 :
  rep T C (nd d c t1 x k t2) <-> rep T (mk_frame d c x k t2 :: C) t1.
Proof. by rewrite rep_up. Qed.
Lemma rep_down' (T : ds_tree K) C d c t1 x k t2 :
  rep T C (nd d c t1 x k t2) <-> rep T (mk_frame (negb d) c x k t1 :: C) t2.
Proof. rewrite rep_up. cbn [fd fc fx fk fs]. by rewrite nd_swap. Qed.

(** ** Painting *)
Lemma paint_ok (T : ds_tree K) C d c t1 x k t2 c' :
  rep T C (nd d c t1 x k t2) ->
  exists T', upd T x (set_prop c') = Ok T' /\ rep T' C (nd d c' t1 x k t2) /\ agree T T' [x].
Proof.
  intros Hr. pose proof (rep_node _ _ _ _ _ _ _ _ Hr) as Hx. destruct Hr as [R1 R2 R3 R4].
  rewrite ptr_nd in *. apply tcells_nd in R2 as (_ & H1 & H2). rewrite locs_nd in R4. cbn in R4.
  apply NoDup_cons in R4 as [Hn R4]. erewrite upd_ok by done. eexists. split; [done|]. rewrite set_prop_mkd.
  split; [|eapply agree_upd; [done|set_solver]]. split; cbn [set_tnodes ot_nodes ot_root].
  - by rewrite ptr_nd.
  - apply tcells_nd. split_and!; [apply lookup_insert_eq|apply tcells_insert; [set_solver|done]..].
  - rewrite ptr_nd. apply ccells_insert; [set_solver|done].
  - rewrite locs_nd. cbn. by apply NoDup_cons.
Qed.

(** ** Rotations *)
Lemma bst_rotate_ok T (C : ctx) d c cs A s ks B n k R :
  rep T C (nd d c (nd d cs A s ks B) n k R) ->
  exists T', ds_bst_rotate T n d = Ok (T', s) /\ rep T' C (nd d cs A s ks (nd d c B n k R)) /\
    agree T T' (locs (nd d c (nd d cs A s ks B) n k R) ++ clocs C).
Proof.
  intros [R1 R2 R3 R4]. rewrite ptr_nd in R1, R3. apply tcells_nd in R2 as (En & R2 & HR).
  apply tcells_nd in R2 as (Es & HA & HB). rewrite ptr_nd in En.
  assert (NoDup (n :: s :: locs A ++ locs B ++ locs R ++ clocs C)) as Hnd.
  { eapply nodup_perm, R4. rewrite !locs_nd. solve_Permutation. }
  pose proof Hnd as Hnd'. apply NoDup_cons in Hnd as [Hn Hnd]. apply NoDup_cons in Hnd as [Hs Hnd].
  assert (n <> s) as Hns by set_solver.
  apply NoDup_app in Hnd as (HndA & HdA & Hnd). apply NoDup_app in Hnd as (HndB & HdB & Hnd).
  apply NoDup_app in Hnd as (HndR & HdR & HndC). pose proof (headl_sub C) as Hh.
  unfold ds_bst_rotate. st.
  match goal with |- context [upd ?T0 _ (set_parent (Some n))] => set (T1 := T0) end.
  assert (Hag : agree T T1 [n; s]) by (unfold T1; eapply agree_trans; eapply agree_upd; (lk || set_solver +)).
  destruct (reparent_ok T1 B (Some s) (Some n)) as (T2 & -> & HB2 & Hr2 & Hag2); [|done|].
  { eapply tcells_agree, HB. intros y Hy. apply Hag. set_solver +Hn Hs Hy. }
  assert (ot_nodes T2 !! n = Some (mkd d k c (cptr C) (ptr B) (ptr R))) as En2.
  { rewrite (ag_get _ _ _ Hag2) by set_solver +Hn Hs. unfold T1. lk. }
  assert (ot_nodes T2 !! s = Some (mkd d ks cs (cptr C) (ptr A) (ptr B))) as Es2.
  { rewrite (ag_get _ _ _ Hag2) by set_solver +Hn Hs. unfold T1. lk. }
  st. match goal with |- context [get ?T0 _] => set (T3 := T0) end.
  assert (Hag3 : agree T T3 (n :: s :: locs B)).
  { eapply agree_trans; [eapply agree_mono, Hag; set_solver +|].
    eapply agree_trans; [eapply agree_mono, Hag2; set_solver +|].
    eapply agree_trans; eapply agree_upd; (lk || set_solver +). }
  destruct (relink_ok T3 C n (Some s)) as (T4 & E4 & HC4 & Hr4 & Hag4).
  { eapply ccells_agree; [|exact R3]. intros y Hy. apply Hag3. set_solver +Hn Hs HdB Hy. }
  { apply NoDup_cons. split; [set_solver +Hn|done]. }
  { unfold T3. cbn. rewrite Hr2. exact R1. }
  unfold relink in E4. rewrite E4. cbn [mbind res_bind]. eexists. split; [done|].
  assert (Hag5 : agree T T4 (n :: s :: locs B ++ headl C)).
  { eapply agree_trans; [eapply agree_mono, Hag3; set_solver +|eapply agree_mono, Hag4; set_solver +]. }
  split.
  2:{ eapply agree_mono, Hag5. intros y. rewrite !elem_of_app, !elem_of_nd, !elem_of_cons, elem_of_app.
      specialize (Hh y). tauto. }
  split.
  - by rewrite ptr_nd.
  - apply tcells_nd. rewrite ptr_nd. split_and!; [|..|apply tcells_nd; split_and!].
    + rewrite (ag_get _ _ _ Hag4) by set_solver +Hn Hs Hh. unfold T3. lk.
    + eapply tcells_agree, HA. intros y Hy. apply Hag5. set_solver +Hn Hs Hh HdA HdB HdR Hy.
    + rewrite (ag_get _ _ _ Hag4) by set_solver +Hn Hs Hh. unfold T3. lk.
    + eapply tcells_agree, HB2. intros y Hy. rewrite (ag_get _ _ _ Hag4) by set_solver +Hn Hs Hh HdB Hy. unfold T3. cbn.
      rewrite !lookup_insert_ne by set_solver +Hn Hs Hy. done.
    + eapply tcells_agree, HR. intros y Hy. apply Hag5. set_solver +Hn Hs Hh HdA HdB HdR Hy.
  - by rewrite ptr_nd.
  - eapply nodup_perm, Hnd'. rewrite !locs_nd. solve_Permutation.
Qed.
Lemma rbt_rotate_ok T (C : ctx) d c cs A s ks B n k R :
  rep T C (nd d c (nd d cs A s ks B) n k R) ->
  exists T', ds_rbt_rotate T n d = Ok (T', s) /\ rep T' C (nd d Black A s ks (nd d Red B n k R)) /\
    agree T T' (locs (nd d c (nd d cs A s ks B) n k R) ++ clocs C).
Proof.
  intros Hr. unfold ds_rbt_rotate. destruct (bst_rotate_ok _ _ _ _ _ _ _ _ _ _ _ _ Hr) as (T1 & -> & Hr1 & Hs1).
  cbn [mbind res_bind]. apply rep_down' in Hr1.
  destruct (paint_ok _ _ _ _ _ _ _ _ Red Hr1) as (T2 & -> & Hr2 & Ha2). cbn [mbind res_bind].
  apply rep_down' in Hr2. destruct (paint_ok _ _ _ _ _ _ _ _ Black Hr2) as (T3 & -> & Hr3 & Ha3).
  eexists. split; [done|]. split; [done|].
  eapply agree_via; [|exact Ha3|reflexivity|sub_locs]. eapply agree_via; [exact Hs1|exact Ha2|reflexivity|sub_locs].
Qed.

Lemma rbt_rotate_double_ok T (C : ctx) d c cm cx P x kx Q m km A n k R :
  rep T C (nd d c (nd (negb d) cm (nd (negb d) cx P x kx Q) m km A) n k R) ->
  exists T', ds_rbt_rotate_double T n d = Ok (T', x) /\
    rep T' C (nd d Black (nd (negb d) Red Q m km A) x kx (nd d Red P n k R)) /\
    agree T T' (locs (nd d c (nd (negb d) cm (nd (negb d) cx P x kx Q) m km A) n k R) ++ clocs C).
Proof.
  intros Hr. unfold ds_rbt_rotate_double. rewrite (rep_get _ _ _ _ _ _ _ _ Hr). st. rewrite ptr_nd. st.
  apply rep_down in Hr. destruct (rbt_rotate_ok _ _ _ _ _ _ _ _ _ _ _ _ Hr) as (T1 & -> & Hr1 & Hs1).
  cbn [mbind res_bind]. rewrite nd_swap in Hr1. apply rep_down in Hr1.
  destruct (rbt_rotate_ok _ _ _ _ _ _ _ _ _ _ _ _ Hr1) as (T2 & -> & Hr2 & Hs2).
  eexists. split; [done|]. split; [done|]. eapply agree_via; [exact Hs1|exact Hs2|sub_locs|sub_locs].
Qed.

(** ** The repair of two red nodes in a row *)
Lemma rep_parent_red (T : ds_tree K) f C t : rep T (f :: C) t -> OTN_IS_RED T (Some (fx f)) = Ok (bool_decide (fc f = Red)).
Proof.
  intros Hr. apply rep_up in Hr. apply rep_red in Hr. by rewrite ptr_nd, is_red_nd in Hr.
Qed.

Definition top_red (C : ctx) : bool := match C with [] => false | f :: _ => bool_decide (fc f = Red) end.

Lemma rep_cptr_red (T : ds_tree K) C t : rep T C t -> OTN_IS_RED T (cptr C) = Ok (top_red C).
Proof. destruct C as [|f C]; [done|]. apply rep_parent_red. Qed.

Lemma rebalance_skip (T : ds_tree K) C d c t1 x k t2 :
  rep T C (nd d c t1 x k t2) -> bool_decide (c = Red) && top_red C = false ->
  ds_tree_insert_rebalance T x = Ok T.
Proof.
  intros Hr Hc. unfold ds_tree_insert_rebalance. cbn [OTN_IS_RED]. rewrite (rep_get _ _ _ _ _ _ _ _ Hr). st.
  case_bool_decide; cbn [negb andb] in *; [|done]. rewrite (rep_cptr_red _ _ _ Hr), Hc. done.
Qed.

(** The tree after the repair: [t] with parent [f1] and grandparent [f2]. *)
Definition repaired (f1 f2 : frame K) (t : tree K) : tree K :=
  if eqb (fd f2) (fd f1) then
    nd (fd f2) Black t (fx f1) (fk f1) (nd (fd f2) Red (fs f1) (fx f2) (fk f2) (fs f2))
  else
    match t with
    | Leaf => Leaf
    | Node _ l x k r =>
        let g := fd f2 in
        let '(q, p) := if g then (r, l) else (l, r) in
        nd g Black (nd (negb g) Red q (fx f1) (fk f1) (fs f1)) x k (nd g Red p (fx f2) (fk f2) (fs f2))
    end.

Lemma rebalance_ok (T : ds_tree K) f1 f2 C c l x k r :
  rep T (f1 :: f2 :: C) (Node c l x k r) -> c = Red -> fc f1 = Red ->
  exists T', ds_tree_insert_rebalance T x = Ok T' /\ rep T' C (repaired f1 f2 (Node Red l x k r)) /\
    agree T T' (locs (Node c l x k r) ++ clocs (f1 :: f2 :: C)).
Proof.
  intros Hr -> Hf. unfold ds_tree_insert_rebalance.
  assert (rep T (f1 :: f2 :: C) (nd false Red l x k r)) as Hr' by done.
  cbn [OTN_IS_RED]. rewrite (rep_get _ _ _ _ _ _ _ _ Hr'). st. rewrite bool_decide_true by done. cbn [negb].
  rewrite (rep_cptr_red _ _ _ Hr). cbn [top_red cptr]. rewrite bool_decide_true by done. st. cbn [negb].
  pose proof (rp_nodup _ _ _ Hr) as Hnd. cbn [locs clocs] in Hnd.
  assert (x ∉ locs (fs f1)) as Hx1 by (apply NoDup_app in Hnd as (_ & Hnd & _); set_solver).
  assert (fx f1 ∉ locs (fs f2)) as Hx2.
  { apply NoDup_app in Hnd as (_ & _ & Hnd). apply NoDup_cons in Hnd as [Hnd _]. set_solver. }
  pose proof (proj1 (rep_up _ _ _ _) Hr) as Hr1. rewrite (rep_get _ _ _ _ _ _ _ _ Hr1). cbn [cptr ptr]. st.
  pose proof (proj1 (rep_up _ _ _ _) Hr1) as Hr2. rewrite (rep_get _ _ _ _ _ _ _ _ Hr2). st. rewrite ptr_nd.
  rewrite !side_of by done. cbn zeta. unfold repaired. rewrite Hf in *. destruct (eqb (fd f2) (fd f1)) eqn:Eg.
  - apply eqb_prop in Eg. rewrite <- Eg in Hr2.
    destruct (rbt_rotate_ok _ _ _ _ _ _ _ _ _ _ _ _ Hr2) as (T' & -> & ? & Ha). eexists. split_and!; [done..|].
    eapply agree_mono, Ha. sub_locs.
  - assert (fd f1 = negb (fd f2)) as Eg' by (by destruct (fd f1), (fd f2)). rewrite Eg' in Hr2.
    set (g := fd f2) in *.
    assert (exists p q, (if g then (r, l) else (l, r)) = (q, p) /\ Node Red l x k r = nd (negb g) Red p x k q)
      as (p & q & Eq & En) by (destruct g; by do 2 eexists).
    rewrite En in Hr2. rewrite Eq.
    destruct (rbt_rotate_double_ok _ _ _ _ _ _ _ _ _ _ _ _ _ _ _ _ Hr2) as (T' & -> & ? & Ha). eexists. split_and!; [done..|].
    rewrite En. eapply agree_mono, Ha. sub_locs.
Qed.

(** ** The colour flip *)
Definition paint (c : color) (t : tree K) : tree K :=
  match t with Leaf => Leaf | Node _ l x k r => Node c l x k r end.

Definition flipped (d : bool) (c : color) (t1 : tree K) (x : loc) (k : K) (t2 : tree K) : tree K :=
  if is_red t1 && is_red t2 then nd d Red (paint Black t1) x k (paint Black t2) else nd d c t1 x k t2.

Lemma paint_children_ok (T : ds_tree K) C c c1 ll lx lk lr x k c2 rl rx rk rr :
  rep T C (Node c (Node c1 ll lx lk lr) x k (Node c2 rl rx rk rr)) ->
  exists T1 T2, upd T lx (set_prop Black) = Ok T1 /\ get T1 x = Ok (mk_tnode k c (cptr C) (Some lx) (Some rx)) /\
    upd T1 rx (set_prop Black) = Ok T2 /\ rep T2 C (Node c (Node Black ll lx lk lr) x k (Node Black rl rx rk rr)) /\
    agree T T2 (locs (Node c (Node c1 ll lx lk lr) x k (Node c2 rl rx rk rr)) ++ clocs C).
Proof.
  intros Hr. assert (rep T C (nd false c (Node c1 ll lx lk lr) x k (Node c2 rl rx rk rr))) as H1 by done.
  apply rep_down in H1. destruct (paint_ok T _ false _ _ _ _ _ Black H1) as (T2 & E2 & H2 & A2).
  apply rep_down in H2. pose proof (rep_get _ _ _ _ _ _ _ _ H2) as Eg.
  apply rep_down' in H2. destruct (paint_ok T2 _ false _ _ _ _ _ Black H2) as (T3 & E3 & H3 & A3).
  apply rep_down' in H3. do 2 eexists. split_and!; [exact E2|exact Eg|exact E3|exact H3|].
  eapply agree_via; [exact A2|exact A3|sub_locs|sub_locs].
Qed.

Lemma flip_ok0 (T : ds_tree K) C c l x k r :
  rep T C (Node c l x k r) ->
  exists T', insert_flip T x = Ok T' /\ rep T' C (flipped false c l x k r) /\
    agree T T' (locs (Node c l x k r) ++ clocs C).
Proof.
  intros Hr. assert (rep T C (nd false c l x k r)) as Hn by done. unfold insert_flip, flipped.
  rewrite (rep_get _ _ _ _ _ _ _ _ Hn). cbn [mbind res_bind otn_child0 mkd otn_child1].
  pose proof (proj1 (rep_down _ _ _ _ _ _ _ _) Hn) as Hl. pose proof (proj1 (rep_down' _ _ _ _ _ _ _ _) Hn) as Hrr.
  rewrite (rep_red _ _ _ Hl). cbn [mbind res_bind].
  destruct (is_red l) eqn:El; cbn [negb andb]; [|exists T; by split_and!; [..|apply agree_refl]].
  rewrite (rep_red _ _ _ Hrr). cbn [mbind res_bind].
  destruct (is_red r) eqn:Er; cbn [negb]; [|exists T; by split_and!; [..|apply agree_refl]].
  destruct l as [|[] ll lx lk lr], r as [|[] rl rx rk rr]; try discriminate. cbn [paint].
  destruct (paint_ok _ _ _ _ _ _ _ _ Red Hn) as (T1 & -> & H1 & A1). cbn [mbind res_bind].
  rewrite (rep_get _ _ _ _ _ _ _ _ H1). cbn [mbind res_bind otn_child0 mkd otn_child1 ptr deref].
  destruct (paint_children_ok _ _ _ _ _ _ _ _ _ _ _ _ _ _ _ H1) as (T2 & T3 & -> & Eg & E3 & H3 & A3).
  cbn [mbind res_bind]. rewrite Eg. cbn [mbind res_bind otn_child0 mkd otn_child1 ptr deref].
  eexists. split_and!; [exact E3|exact H3|]. eapply agree_via; [exact A1|exact A3|sub_locs|sub_locs].
Qed.

Lemma flip_ok (T : ds_tree K) C d c t1 x k t2 :
  rep T C (nd d c t1 x k t2) ->
  exists T', insert_flip T x = Ok T' /\ rep T' C (flipped d c t1 x k t2) /\
    agree T T' (locs (nd d c t1 x k t2) ++ clocs C).
Proof.
  destruct d; cbn [nd]; intros (T' & E & H1 & H2)%flip_ok0; exists T'; split_and!; try done.
  unfold flipped in *. rewrite andb_comm. by destruct (_ && _).
Qed.

(** ** Linking a new leaf *)
Lemma link_ok (T : ds_tree K) C d c x k t2 n key :
  rep T C (nd d c Leaf x k t2) -> ot_nodes T !! n = Some (mk_tnode key Red None None None) ->
  n ∉ locs (nd d c Leaf x k t2) ++ clocs C ->
  exists T' T'', upd T x (set_child d (Some n)) = Ok T' /\ upd T' n (set_parent (Some x)) = Ok T'' /\
    rep T'' C (nd d c (Node Red Leaf n key Leaf) x k t2) /\ ot_ndel T'' = ot_ndel T /\
    dom (ot_nodes T'') = dom (ot_nodes T).
Proof.
  intros Hr Hn Hx. pose proof (rep_node _ _ _ _ _ _ _ _ Hr) as En. destruct Hr as [R1 R2 R3 R4].
  rewrite ptr_nd in *. apply tcells_nd in R2 as (_ & _ & H2).
  assert (x <> n) as Hxn by (intros ->; apply Hx, elem_of_app; left; by apply elem_of_nd; left).
  assert (NoDup (x :: locs t2 ++ clocs C)) as Hnd by (eapply nodup_perm, R4; rewrite locs_nd; done).
  assert (n ∉ locs t2 /\ n ∉ clocs C) as [Hn2 HnC].
  { split; intros Hi; apply Hx, elem_of_app; [left; apply elem_of_nd|]; auto. }
  apply NoDup_cons in Hnd as [Hx2 Hnd].
  erewrite upd_ok by done. do 2 eexists. split; [done|]. mkds. erewrite upd_ok by lk. split; [done|].
  cbn [set_tnodes ot_nodes ot_root ot_ndel set_parent otn_key otn_prop otn_child0 otn_child1].
  split_and!; [|done|by erewrite !dom_upd by lk]. split; cbn [ot_root ot_nodes].
  - by rewrite ptr_nd.
  - apply tcells_nd. cbn [ptr tcells]. split_and!; try done.
    + lk.
    + apply lookup_insert_eq.
    + apply tcells_insert; [done|]. apply tcells_insert; [set_solver +Hx2|done].
  - rewrite ptr_nd. apply ccells_insert; [done|]. apply ccells_insert; [set_solver +Hx2|done].
  - eapply (nodup_perm (n :: x :: locs t2 ++ clocs C)); [rewrite locs_nd; cbn; solve_Permutation|].
    rewrite !NoDup_cons. split_and!; [set_solver +Hn2 HnC Hxn|done..].
Qed.

End Rep.
