(* ===== verification/DsTreeInv.v ===== *)
(** * DsTreeInv: order and balance of the red-black tree

    The abstract side of the red-black tree: the elements of a tree in order, the
    balance condition (no red node has a red child, all paths have as many black
    nodes), both also for a tree seen from one of its nodes, and how rotations,
    colour flips and repairs act on them. *)
From stdpp Require Import sorting.
From S2P Require Import Prelude DsTree DsTreeRep.
Open Scope Z_scope.

Section Inv.
Context {K : Type} `{KeyOrder K}.
Notation ctx := (list (frame K)).
Implicit Types (t : tree K) (C : ctx) (f : frame K).

(** ** Elements in order *)
Fixpoint items t : list (loc * K) :=
  match t with Leaf => [] | Node _ l x k r => items l ++ (x, k) :: items r end.

Fixpoint lefts C : list (loc * K) :=
  match C with [] => [] | f :: C' => lefts C' ++ (if fd f then items (fs f) ++ [(fx f, fk f)] else []) end.
Fixpoint rights C : list (loc * K) :=
  match C with [] => [] | f :: C' => (if fd f then [] else (fx f, fk f) :: items (fs f)) ++ rights C' end.

(** All the elements of the tree that [t] is part of. *)
Definition all_items C t : list (loc * K) := lefts C ++ items t ++ rights C.

Lemma all_items_up C f t : all_items (f :: C) t = all_items C (nd (fd f) (fc f) t (fx f) (fk f) (fs f)).
Proof. unfold all_items. cbn. destruct (fd f); cbn; by rewrite <- ?app_assoc. Qed.

Lemma all_items_plug C t : all_items C t = items (plug C t).
Proof.
  revert t. induction C as [|f C IH]; intros t; [by unfold all_items; cbn; rewrite app_nil_r|].
  rewrite all_items_up. apply IH.
Qed.

Lemma plug_app D C t : plug (D ++ C) t = plug C (plug D t).
Proof. revert t. induction D as [|f D IH]; intros t; [done|]. apply IH. Qed.

Lemma all_items_root t : all_items [] t = items t.
Proof. apply all_items_plug. Qed.

(** Elements do not depend on colours. *)
Lemma items_nd d c c' t1 t1' x k t2 t2' :
  items t1 = items t1' -> items t2 = items t2' -> items (nd d c t1 x k t2) = items (nd d c' t1' x k t2').
Proof. intros E1 E2. destruct d; cbn; by rewrite E1, E2. Qed.

Lemma items_locs t : (items t).*1 = locs t.
Proof. induction t as [|c l IHl x k r IHr]; cbn; [done|]. by rewrite fmap_app, fmap_cons, IHl, IHr. Qed.

Lemma items_paint c t : items (paint c t) = items t.
Proof. by destruct t. Qed.

Lemma items_flipped d c t1 x k t2 : items (flipped d c t1 x k t2) = items (nd d c t1 x k t2).
Proof. unfold flipped. destruct (_ && _); [|done]. destruct d; cbn; by rewrite !items_paint. Qed.

Lemma all_items_repaired f1 f2 C t :
  t <> Leaf -> all_items C (repaired f1 f2 t) = all_items (f1 :: f2 :: C) t.
Proof.
  intros Ht. rewrite !all_items_up. unfold all_items, repaired. do 2 f_equal.
  destruct f1 as [d1 c1 x1 k1 s1], f2 as [d2 c2 x2 k2 s2], t as [|c l x k r]; [done|].
  destruct d1, d2; cbn; by rewrite <- ?app_assoc; cbn; rewrite <- ?app_assoc.
Qed.

Lemma elem_of_all C t y : y ∈ (all_items C t).*1 <-> y ∈ locs t \/ y ∈ clocs C.
Proof.
  rewrite all_items_plug, items_locs. revert t. induction C as [|f C IH]; intros t; cbn [plug clocs].
  - rewrite elem_of_nil. tauto.
  - rewrite IH, elem_of_nd, elem_of_cons, elem_of_app. tauto.
Qed.

Lemma locs_all C t : locs t ++ clocs C ⊆ (all_items C t).*1.
Proof. intros y. by rewrite elem_of_all, elem_of_app. Qed.

(** ** Balance *)
Fixpoint bal t (n : nat) : Prop :=
  match t with
  | Leaf => n = 0%nat
  | Node Red l _ _ r => is_red l = false /\ is_red r = false /\ bal l n /\ bal r n
  | Node Black l _ _ r => match n with O => False | S m => bal l m /\ bal r m end
  end.

(** A context around a subtree of black height [n], red or not. *)
Fixpoint cbal C (n : nat) (red : bool) : Prop :=
  match C with
  | [] => True
  | f :: C' =>
      bal (fs f) n /\
      match fc f with
      | Red => red = false /\ is_red (fs f) = false /\ cbal C' n true
      | Black => cbal C' (S n) false
      end
  end.

Lemma bal_red d t1 x k t2 n :
  bal (nd d Red t1 x k t2) n <-> is_red t1 = false /\ is_red t2 = false /\ bal t1 n /\ bal t2 n.
Proof. destruct d; cbn; tauto. Qed.

Lemma bal_black d t1 x k t2 n :
  bal (nd d Black t1 x k t2) (S n) <-> bal t1 n /\ bal t2 n.
Proof. destruct d; cbn; tauto. Qed.

Lemma bal_black_S d t1 x k t2 n : bal (nd d Black t1 x k t2) n -> exists m, n = S m /\ bal t1 m /\ bal t2 m.
Proof. destruct d, n; cbn; intros []; by eexists. Qed.

Lemma bal_loc d c t1 x y k t2 n : bal (nd d c t1 x k t2) n -> bal (nd d c t1 y k t2) n.
Proof. by destruct d, c. Qed.

Lemma cbal_mono C n : cbal C n true -> cbal C n false.
Proof. destruct C as [|f C]; [done|]. cbn. destruct (fc f); [by intros (? & ? & ?)|done]. Qed.

(** Up from a subtree, and down into one. *)
Lemma cbal_up C f t n :
  bal t n -> cbal (f :: C) n (is_red t) ->
  exists m, bal (nd (fd f) (fc f) t (fx f) (fk f) (fs f)) m /\ cbal C m (bool_decide (fc f = Red)).
Proof.
  cbn [cbal]. intros Ht [Hs Hc]. destruct (fc f).
  - destruct Hc as (? & ? & ?). exists n. by rewrite bal_red.
  - exists (S n). by rewrite bal_black.
Qed.

Lemma bal_plug C t n : bal t n -> cbal C n (is_red t) -> exists N, bal (plug C t) N.
Proof.
  revert t n. induction C as [|f C IH]; intros t n Ht Hc; [by exists n|].
  destruct (cbal_up _ _ _ _ Ht Hc) as (m & Hm & Hcm). apply (IH _ m); [done|]. by rewrite is_red_nd.
Qed.

Lemma cbal_down C d c t1 x k t2 n :
  bal (nd d c t1 x k t2) n -> cbal C n (bool_decide (c = Red)) ->
  exists m, bal t1 m /\ cbal (mk_frame d c x k t2 :: C) m (is_red t1).
Proof.
  intros Hb Hc. destruct c; cbn [cbal fc fs].
  - apply bal_red in Hb as (R1 & R2 & B1 & B2). by exists n.
  - apply bal_black_S in Hb as (m & -> & B1 & B2). by exists m.
Qed.

Lemma cbal_plug_down D C t n :
  bal (plug D t) n -> cbal C n (is_red (plug D t)) -> exists m, bal t m /\ cbal (D ++ C) m (is_red t).
Proof.
  revert t. induction D as [|f D IH]; intros t Hb Hc; [by exists n|]. cbn [plug app] in *.
  destruct (IH _ Hb Hc) as (m & Hbm & Hcm). rewrite is_red_nd in Hcm.
  destruct (cbal_down _ _ _ _ _ _ _ _ Hbm Hcm) as (m' & ? & ?). exists m'. by destruct f.
Qed.

Lemma bal_paint_black t n : is_red t = true -> bal t n -> bal (paint Black t) (S n).
Proof. destruct t as [|[] l x k r]; cbn; try done. tauto. Qed.

Lemma red_paint_black t : is_red (paint Black t) = false.
Proof. by destruct t. Qed.

(** The flip keeps the black height; the node was black. *)
Lemma flip_bal d c t1 x k t2 n :
  is_red t1 = true -> is_red t2 = true -> bal (nd d c t1 x k t2) n ->
  c = Black /\ bal (nd d Red (paint Black t1) x k (paint Black t2)) n.
Proof.
  intros H1 H2. destruct c.
  - intros (? & _)%bal_red. congruence.
  - intros (m & -> & B1 & B2)%bal_black_S. split; [done|]. apply bal_red.
    rewrite !red_paint_black. split_and!; try done; by apply bal_paint_black.
Qed.

(** The repair gives a balanced black subtree of the height of the grandparent. *)
Lemma repaired_bal f1 f2 t n :
  is_red t = true -> bal t n -> bal (fs f1) n -> is_red (fs f1) = false ->
  bal (fs f2) n -> is_red (fs f2) = false ->
  bal (repaired f1 f2 t) (S n) /\ is_red (repaired f1 f2 t) = false.
Proof.
  intros Ht Hb B1 R1 B2 R2. unfold repaired. destruct (eqb _ _).
  - rewrite bal_black, bal_red, is_red_nd. done.
  - destruct t as [|[] l x k r]; try discriminate. cbn in Hb. destruct Hb as (Rl & Rr & Bl & Br).
    destruct (fd f2); rewrite bal_black, !bal_red, is_red_nd; by split_and!.
Qed.
(** ** Order *)
Lemma cmp_le_lt (a b c : K) : cmp a b <= 0 -> cmp b c < 0 -> cmp a c < 0.
Proof.
  intros Hab Hbc. destruct (Z.lt_ge_cases (cmp a c) 0) as [|Hac]; [done|exfalso].
  pose proof (cmp_anti b c). pose proof (cmp_anti a c).
  pose proof (cmp_trans c a b). lia.
Qed.

Lemma cmp_lt_le (a b c : K) : cmp a b < 0 -> cmp b c <= 0 -> cmp a c < 0.
Proof.
  intros Hab Hbc. destruct (Z.lt_ge_cases (cmp a c) 0) as [|Hac]; [done|exfalso].
  pose proof (cmp_anti a b). pose proof (cmp_anti a c).
  pose proof (cmp_trans b c a). lia.
Qed.

Definition item_le (a b : loc * K) : Prop := cmp a.2 b.2 <= 0.
Notation ordered := (StronglySorted item_le).

(** Before the key, and from the key on. *)
Definition below (key : K) (a : loc * K) : Prop := go_dir a.2 key = true.
Definition beyond (key : K) (a : loc * K) : Prop := go_dir a.2 key = false.

Lemma below_le key a b : item_le a b -> below key b -> below key a.
Proof. unfold item_le, below, go_dir. rewrite !Z.ltb_lt. apply cmp_le_lt. Qed.

Lemma beyond_le key a b : item_le a b -> beyond key a -> beyond key b.
Proof.
  unfold item_le, beyond, go_dir. rewrite !Z.ltb_ge. intros Hab Ha.
  destruct (Z.lt_ge_cases (cmp b.2 key) 0) as [Hb|]; [|done]. pose proof (cmp_le_lt _ _ _ Hab Hb). lia.
Qed.

(** Around a place found by comparing with the key on the way down, the elements
    to the left are below it, those to the right are not. *)
Lemma path_split key C t :
  ordered (all_items C t) -> Forall (fun f => go_dir (fk f) key = fd f) C ->
  Forall (below key) (lefts C) /\ Forall (beyond key) (rights C).
Proof.
  revert t. induction C as [|f C IH]; intros t Ho HF; [by split; constructor|].
  apply Forall_cons in HF as [Hf HF]. rewrite all_items_up in Ho. destruct (IH _ Ho HF) as [HL HR].
  unfold all_items in Ho. apply StronglySorted_app_1_r, StronglySorted_app_1_l in Ho.
  cbn [lefts rights]. destruct (fd f) eqn:Ed; cbn [nd] in Ho; cbn [items] in Ho; rewrite ?app_nil_r; cbn [app].
  - split; [|done]. apply Forall_app. split; [done|]. apply Forall_app. split; [|by repeat constructor].
    apply Forall_forall. intros a Ha. apply (below_le _ _ (fx f, fk f)); [|done].
    eapply (StronglySorted_app_1_elem_of _ _ _ _ _ Ho Ha). apply list_elem_of_here.
  - split; [done|]. apply Forall_cons. split; [done|]. apply Forall_app. split; [|done].
    apply StronglySorted_app_1_r in Ho. apply StronglySorted_cons in Ho as [Ho _].
    eapply Forall_impl; [exact Ho|]. intros a Ha. by eapply beyond_le.
Qed.

(** The place of a new element: before the first one that is not below its key. *)
Fixpoint insert_item (x : loc) (key : K) (l : list (loc * K)) : list (loc * K) :=
  match l with
  | [] => [(x, key)]
  | (y, k) :: l' => if go_dir k key then (y, k) :: insert_item x key l' else (x, key) :: l
  end.

Lemma insert_item_at x key l1 l2 :
  Forall (below key) l1 -> Forall (beyond key) l2 -> insert_item x key (l1 ++ l2) = l1 ++ (x, key) :: l2.
Proof.
  intros H1 H2. induction H1 as [|[y k] l1 Hy H1 IH]; cbn.
  - destruct H2 as [|[y k] l2 Hy H2]; cbn; [done|]. unfold beyond in Hy. cbn in Hy. by rewrite Hy.
  - unfold below in Hy. cbn in Hy. by rewrite Hy, IH.
Qed.

Lemma insert_item_nonempty x key l : insert_item x key l <> [].
Proof. destruct l as [|[y k] l]; cbn; [done|]. by destruct (go_dir k key). Qed.

Lemma insert_item_ordered x key l : ordered l -> ordered (insert_item x key l).
Proof.
  induction 1 as [|[y k] l Hl IH Hy]; cbn; [by repeat constructor|]. destruct (go_dir k key) eqn:Ed.
  - constructor; [done|]. clear IH Hl. apply Z.ltb_lt in Ed.
    induction Hy as [|[z kz] l Hz Hy IH]; cbn; [repeat constructor; unfold item_le; cbn; lia|].
    destruct (go_dir kz key); repeat constructor; try done. unfold item_le; cbn; lia.
  - apply Z.ltb_ge in Ed. pose proof (cmp_anti k key).
    assert (item_le (x, key) (y, k)) as Hxy.
    { unfold item_le. cbn. pose proof (cmp_anti key k). lia. }
    constructor; [by constructor|]. constructor; [done|]. eapply Forall_impl; [exact Hy|].
    intros a Ha. unfold item_le in *. cbn in *. by eapply cmp_trans.
Qed.

(** The list without the element [x]. *)
Definition without (x : loc) (l : list (loc * K)) : list (loc * K) := filter (fun a => a.1 <> x) l.

Lemma without_none x l : x ∉ l.*1 -> without x l = l.
Proof.
  unfold without. induction l as [|[y k] l IH]; intros Hx; [done|]. cbn in Hx. apply not_elem_of_cons in Hx as [Hy Hx].
  rewrite filter_cons_True by (cbn; congruence). by rewrite IH.
Qed.

Lemma without_at x k l1 l2 : NoDup (l1 ++ (x, k) :: l2).*1 -> without x (l1 ++ (x, k) :: l2) = l1 ++ l2.
Proof.
  rewrite fmap_app, fmap_cons. cbn. intros (_ & Hd & [Hx _]%NoDup_cons)%NoDup_app.
  unfold without. rewrite filter_app, filter_cons_False by (cbn; congruence).
  f_equal; apply without_none; [|done]. intros Hi. apply (Hd _ Hi). left.
Qed.

Lemma without_ordered x l : ordered l -> ordered (without x l).
Proof.
  unfold without. induction 1 as [|a l Hl IH Ha]; [constructor|]. rewrite filter_cons. case_decide; [|done].
  constructor; [done|]. apply Forall_forall. intros b [_ Hb]%list_elem_of_filter.
  rewrite Forall_forall in Ha. by apply Ha.
Qed.

(** ** A store that implements a sorted list *)
Definition rbtree (T : ds_tree K) (l : list (loc * K)) : Prop :=
  exists t n, rep T [] t /\ items t = l /\ ordered l /\ is_red t = false /\ bal t n.
Lemma paint_bal t n : bal t n -> exists m, bal (paint Black t) m.
Proof.
  destruct t as [|[] l x k r]; cbn; intros Hb; [by exists 0%nat| |by exists n].
  exists (S n). tauto.
Qed.

Lemma rep_locs_dom T C t y : rep T C t -> y ∈ locs t -> y ∈ dom (ot_nodes T).
Proof.
  intros [_ Ht _ _]. generalize dependent (cptr C). induction t as [|c l IHl x k r IHr]; intros par Ht Hy.
  - by apply elem_of_nil in Hy.
  - cbn in *. destruct Ht as (Hx & Hl & Hr). apply elem_of_app in Hy as [Hy|Hy]; [by eapply IHl|].
    apply elem_of_cons in Hy as [->|Hy]; [by eapply elem_of_dom_2|by eapply IHr].
Qed.

Lemma rep_plug_app T D C t : rep T (D ++ C) t <-> rep T C (plug D t).
Proof. revert t. induction D as [|f D IH]; intros t; [done|]. cbn [app plug]. by rewrite <- IH, rep_up. Qed.

(** The nodes of a tree are among the allocated ones. *)
Lemma rep_size T t : rep T [] t -> (length (locs t) <= size (ot_nodes T))%nat.
Proof.
  intros Hr. pose proof (rp_nodup _ _ _ Hr) as Hn. rewrite app_nil_r in Hn.
  rewrite <- (size_list_to_set (C := gset loc)) by done. rewrite <- size_dom. apply subseteq_size.
  intros y Hy. apply elem_of_list_to_set in Hy. by eapply rep_locs_dom.
Qed.

Lemma rep_sub_size T C t : rep T C t -> (length (locs t) <= size (ot_nodes T))%nat.
Proof.
  intros Hr. etrans; [|exact (rep_size _ _ (proj1 (rep_plug _ _ _) Hr))]. clear.
  revert t. induction C as [|f C IH]; intros t; cbn [plug]; [done|]. etrans; [|apply IH].
  rewrite locs_nd. cbn. rewrite length_app. lia.
Qed.

Lemma rep_ctx_size T C t : rep T C t -> (length C <= size (ot_nodes T))%nat.
Proof.
  intros Hr. etrans; [|exact (rep_size _ _ (proj1 (rep_plug _ _ _) Hr))]. clear.
  enough (length C + length (locs t) <= length (locs (plug C t)))%nat by lia.
  revert t. induction C as [|f C IH]; intros t; cbn [plug]; [done|].
  specialize (IH (nd (fd f) (fc f) t (fx f) (fk f) (fs f))). rewrite locs_nd in IH. cbn in *. rewrite length_app in IH. lia.
Qed.

Lemma blacken_ok T t :
  rep T [] t -> exists T', match ot_root T with None => Ok T | Some r => upd T r (set_prop Black) end = Ok T' /\
    rep T' [] (paint Black t) /\ agree T T' (locs t).
Proof.
  intros Hr. pose proof (rp_root _ _ _ Hr) as E. cbn in E. rewrite E. destruct t as [|c l x k r]; cbn [ptr paint].
  - exists T. by split_and!; [..|apply agree_refl].
  - destruct (paint_ok T [] false c l x k r Black Hr) as (T' & -> & H1 & H2). eexists. split_and!; [done..|].
    eapply agree_mono, H2. set_solver.
Qed.
End Inv.
Notation ordered := (StronglySorted item_le).
