(* ===== verification/DsTreeInsert.v ===== *)
(** * DsTreeInsert: top-down insertion into the red-black tree

    The descent of [ds_tree_node_insert] flips colours and repairs red violations
    before it knows where the new node goes.  The invariant of its loop says why
    each repair finds a black grandparent and a black uncle, and the measure why it
    ends although a double rotation moves the walk back up. *)
From stdpp Require Import sorting.
From S2P Require Import Prelude DsTree DsTreeRep DsTreeInv.
Open Scope Z_scope.

Section Insert.
Context {K : Type} `{KeyOrder K}.
Notation ctx := (list (frame K)).
Implicit Types (T : ds_tree K) (t : tree K) (C : ctx) (f : frame K).

(** A black node with black children: the next flip does not happen here. *)
Definition quiet t : bool :=
  match t with Node Black l _ _ r => negb (is_red l) && negb (is_red r) | _ => false end.

Definition sib_red C : bool := match C with [] => false | f :: _ => is_red (fs f) end.

(** The grandparent is black, and so is its other child. *)
Definition calm_above C : bool :=
  match C with _ :: f2 :: _ => bool_decide (fc f2 = Black) && negb (is_red (fs f2)) | _ => false end.

(** The loop invariant at the node [x] in context [C]; [t1] is the child on the
    side of the key. *)
Record ins_inv (key : K) (C : ctx) (d : bool) (c : color) (t1 : tree K) (k : K) (t2 : tree K) : Prop := {
  ii_dir : go_dir k key = d;
  ii_path : Forall (fun f => go_dir (fk f) key = fd f) C;
  ii_bal : forall x, exists n, bal (nd d c t1 x k t2) n /\ cbal C n (bool_decide (c = Red));
  ii_root : c = Red -> C <> [];
  ii_quiet : c = Red -> sib_red C = true -> quiet t1 = true;
  ii_calm : top_red C = true -> is_red t1 = true -> is_red t2 = true -> calm_above C = true
}.

(** The length of the search path, and the measure of the loop. *)
Fixpoint klen (key : K) t : nat :=
  match t with Leaf => 0 | Node _ l _ k r => S (if go_dir k key then klen key r else klen key l) end.

Definition measure (key : K) C (c : color) t1 : nat :=
  2 * S (klen key t1) + (if bool_decide (c = Red) && sib_red C then 0 else 1).

Lemma klen_paint key c t : klen key (paint c t) = klen key t.
Proof. by destruct t. Qed.

Lemma quiet_paint t : is_red t = true -> (exists n, bal t n) -> quiet (paint Black t) = true.
Proof. destruct t as [|[] l x k r]; try done. intros _ [n Hb]. cbn in *. by destruct Hb as (-> & -> & _). Qed.

(** A node seen on the side of the key. *)
Lemma key_view key c l x k r :
  exists t1 t2, Node c l x k r = nd (go_dir k key) c t1 x k t2 /\ klen key (Node c l x k r) = S (klen key t1).
Proof. cbn [klen]. destruct (go_dir k key); by do 2 eexists. Qed.

(** Entering a quiet node keeps the invariant, whatever is above. *)
Lemma enter_quiet key C t n :
  quiet t = true -> bal t n -> cbal C n false -> Forall (fun f => go_dir (fk f) key = fd f) C ->
  exists d c t1 y k t2, t = nd d c t1 y k t2 /\ ins_inv key C d c t1 k t2 /\ klen key t = S (klen key t1) /\ c = Black.
Proof.
  intros Hq Hb Hc HF. destruct t as [|[] l y k r]; try discriminate. cbn [quiet] in Hq.
  apply andb_true_iff in Hq as [Hl Hr]. apply negb_true_iff in Hl, Hr.
  exists (go_dir k key), Black. destruct (go_dir k key) eqn:Ed.
  - exists r, y, k, l. split_and!; [done| |cbn; by rewrite Ed|done]. split; try done.
    + intros z. exists n. by destruct n.
    + intros _ Hx. congruence.
  - exists l, y, k, r. split_and!; [done| |cbn; by rewrite Ed|done]. split; try done.
    + intros z. exists n. by destruct n.
    + intros _ Hx. congruence.
Qed.

(** Entering the child on the side of the key when the node was left alone. *)
Lemma enter_plain key C d c t1 x k t2 :
  ins_inv key C d c t1 k t2 -> is_red t1 && is_red t2 = false -> t1 <> Leaf ->
  exists d' c' u1 y k' u2, t1 = nd d' c' u1 y k' u2 /\
    ins_inv key (mk_frame d c x k t2 :: C) d' c' u1 k' u2 /\ klen key t1 = S (klen key u1).
Proof.
  intros I Hn Ht. destruct t1 as [|c' l y k' r]; [done|].
  destruct (key_view key c' l y k' r) as (u1 & u2 & E & Ek).
  exists (go_dir k' key), c', u1, y, k', u2. rewrite Ek. rewrite E in *. split_and!; try done.
  pose proof (ii_bal _ _ _ _ _ _ _ I x) as (n & Hb & Hc).
  destruct (cbal_down _ _ _ _ _ _ _ _ Hb Hc) as (m & Hb1 & Hc1). rewrite is_red_nd in *.
  split; try done.
  - constructor; [by apply I|by apply I].
  - intros z. exists m. split; [|done]. clear -Hb1. by destruct c', (go_dir k' key), m.
  - intros ->. cbn [sib_red fs]. rewrite bool_decide_true in Hn by done. cbn in Hn. congruence.
  - cbn [top_red fc]. intros Hcr H1 H2. apply bool_decide_eq_true in Hcr as ->.
    assert (c' = Black) as ->.
    { destruct c'; [|done]. apply bal_red in Hb as (Hb & _). rewrite is_red_nd in Hb. done. }
    pose proof (ii_root _ _ _ _ _ _ _ I eq_refl) as HC. destruct C as [|f C]; [done|].
    cbn [calm_above]. cbn [cbal] in Hc. destruct Hc as [_ Hc]. destruct (fc f); [by destruct Hc|].
    rewrite bool_decide_true by done. cbn [andb]. destruct (is_red (fs f)) eqn:Ef; [exfalso|done].
    pose proof (ii_quiet _ _ _ _ _ _ _ I eq_refl Ef) as Hq. clear -Hq H1.
    destruct (go_dir k' key); cbn in Hq; rewrite H1 in Hq; by rewrite ?andb_false_r in Hq.
Qed.
(** The double rotation: the node becomes the root of the subtree, and the walk
    goes on at its former parent or grandparent. *)
Lemma repaired_double f1 f2 d P1 x k P2 :
  eqb (fd f2) (fd f1) = false ->
  exists f s1 s2, (f = f1 \/ f = f2) /\ fd f = negb d /\ is_red s2 = true /\
    repaired f1 f2 (nd d Red P1 x k P2) = nd d Black (nd (fd f) Red P1 (fx f) (fk f) s1) x k s2.
Proof.
  unfold repaired. intros E. rewrite E. destruct f1 as [d1 c1 x1 k1 s1], f2 as [d2 c2 x2 k2 s2]. cbn in *.
  destruct d1, d2, d; try discriminate; cbn.
  - exists (mk_frame false c2 x2 k2 s2), s2. eexists. split_and!; [by right|done| |reflexivity]; done.
  - exists (mk_frame true c1 x1 k1 s1), s1. eexists. split_and!; [by left|done| |reflexivity]; done.
  - exists (mk_frame false c1 x1 k1 s1), s1. eexists. split_and!; [by left|done| |reflexivity]; done.
  - exists (mk_frame true c2 x2 k2 s2), s2. eexists. split_and!; [by right|done| |reflexivity]; done.
Qed.

Lemma repaired_single f1 f2 t :
  eqb (fd f2) (fd f1) = true ->
  exists s, repaired f1 f2 t = nd (fd f1) Black t (fx f1) (fk f1) s.
Proof. unfold repaired. intros E. rewrite E. apply eqb_prop in E. rewrite E. by eexists. Qed.

(** What one round of the loop establishes. *)
Record step_post (key : K) (T T2 : ds_tree K) C d c t1 x k t2 C' d' c' u1 y k' u2 : Prop := {
  sp_next : exists b, get T2 x = Ok b /\ otn_child b d = Some y;
  sp_rep : rep T2 C' (nd d' c' u1 y k' u2);
  sp_inv : ins_inv key C' d' c' u1 k' u2;
  sp_measure : (measure key C' c' u1 < measure key C c t1)%nat;
  sp_items : all_items C' (nd d' c' u1 y k' u2) = all_items C (nd d c t1 x k t2);
  sp_agree : agree T T2 (all_items C (nd d c t1 x k t2)).*1
}.

Lemma go_down T C d c t1 x k t2 d' c' u1 y k' u2 :
  rep T C (nd d c t1 x k t2) -> t1 = nd d' c' u1 y k' u2 ->
  (exists b, get T x = Ok b /\ otn_child b d = Some y) /\
  rep T (mk_frame d c x k t2 :: C) (nd d' c' u1 y k' u2) /\
  all_items (mk_frame d c x k t2 :: C) (nd d' c' u1 y k' u2) = all_items C (nd d c t1 x k t2).
Proof.
  intros Hr ->. split_and!.
  - eexists. split; [by eapply rep_get|]. by rewrite child_mkd, ptr_nd.
  - exact (proj1 (rep_down _ _ _ _ _ _ _ _) Hr).
  - by rewrite all_items_up.
Qed.

Lemma step_plain T C d c t1 x k t2 key :
  rep T C (nd d c t1 x k t2) -> ins_inv key C d c t1 k t2 -> is_red t1 && is_red t2 = false -> t1 <> Leaf ->
  exists C' d' c' u1 y k' u2, step_post key T T C d c t1 x k t2 C' d' c' u1 y k' u2.
Proof.
  intros Hr I Hn Ht. destruct (enter_plain _ _ _ _ _ x _ _ I Hn Ht) as (d' & c' & u1 & y & k' & u2 & E & I' & Ek).
  destruct (go_down _ _ _ _ _ _ _ _ _ _ _ _ _ _ Hr E) as (Hg & Hr' & Hi).
  do 7 eexists. split; [done|exact Hr'|done| |done|apply agree_refl].
  unfold measure. rewrite Ek. repeat case_match; lia.
Qed.
Lemma cbal_red C n : top_red C = false -> cbal C n false -> cbal C n true.
Proof. destruct C as [|f C]; [done|]. cbn [top_red cbal]. destruct (fc f); done. Qed.

(** The walk goes on in a quiet subtree of the node. *)
Lemma step_quiet T T2 C t1 t2 C0 d P1 x k P2 n key :
  rep T2 C0 (nd d Red P1 x k P2) -> quiet P1 = true -> bal (nd d Red P1 x k P2) n -> cbal C0 n true ->
  Forall (fun f => go_dir (fk f) key = fd f) C0 -> go_dir k key = d -> klen key P1 = klen key t1 ->
  all_items C0 (nd d Red P1 x k P2) = all_items C (nd d Black t1 x k t2) ->
  agree T T2 (all_items C (nd d Black t1 x k t2)).*1 ->
  exists C' d' c' u1 y k' u2, step_post key T T2 C d Black t1 x k t2 C' d' c' u1 y k' u2.
Proof.
  intros Hr Hq Hb Hc HF Hd Hk Hi Hag. destruct (cbal_down C0 _ _ _ x k _ _ Hb Hc) as (m & Hb1 & Hc1).
  apply bal_red in Hb as (R1 & _). rewrite R1 in Hc1.
  destruct (enter_quiet key _ _ _ Hq Hb1 Hc1) as (d' & c' & u1 & y & k' & u2 & E & I & Ek & ->).
  { by constructor. }
  destruct (go_down _ _ _ _ _ _ _ _ _ _ _ _ _ _ Hr E) as (Hg & Hr' & Hi').
  do 7 eexists. split; [done|exact Hr'|exact I| |congruence|done].
  unfold measure. rewrite <- Hk, Ek. repeat case_match; cbn in *; lia.
Qed.

(** The walk goes on at the former parent or grandparent, one level above the
    quiet subtree; its sibling is red. *)
Lemma step_double T T2 C t1 t2 C0 d P1 y ky s1 x k s2 d' n key :
  rep T2 C0 (nd d Black (nd d' Red P1 y ky s1) x k s2) -> quiet P1 = true ->
  bal (nd d Black (nd d' Red P1 y ky s1) x k s2) n -> cbal C0 n false ->
  Forall (fun f => go_dir (fk f) key = fd f) C0 -> go_dir k key = d -> go_dir ky key = d' ->
  is_red s2 = true -> klen key P1 = klen key t1 ->
  all_items C0 (nd d Black (nd d' Red P1 y ky s1) x k s2) = all_items C (nd d Black t1 x k t2) ->
  agree T T2 (all_items C (nd d Black t1 x k t2)).*1 ->
  exists C' d' c' u1 y k' u2, step_post key T T2 C d Black t1 x k t2 C' d' c' u1 y k' u2.
Proof.
  intros Hr Hq Hb Hc HF Hd Hd' Rs Hk Hi Hag. destruct (cbal_down C0 _ Black _ x k _ _ Hb Hc) as (m & Hb1 & Hc1).
  rewrite is_red_nd in Hc1.
  destruct (go_down _ _ _ _ _ _ _ _ _ _ _ _ _ _ Hr eq_refl) as (Hg & Hr' & Hi').
  do 7 eexists. split; [done|exact Hr'| | |congruence|done].
  - split; try done.
    + by constructor.
    + intros z. exists m. split; [|done]. by eapply bal_loc.
  - unfold measure. rewrite Hk. cbn [sib_red fs]. rewrite Rs, bool_decide_true, bool_decide_false by done. cbn [andb]. lia.
Qed.

(** Both children red: flip, and repair when the parent is red too. *)
Lemma step_flip T T1 C d c t1 x k t2 key :
  ins_inv key C d c t1 k t2 -> is_red t1 = true -> is_red t2 = true ->
  rep T1 C (nd d Red (paint Black t1) x k (paint Black t2)) ->
  agree T T1 (all_items C (nd d c t1 x k t2)).*1 ->
  exists T2 C' d' c' u1 y k' u2, ds_tree_insert_rebalance T1 x = Ok T2 /\
    step_post key T T2 C d c t1 x k t2 C' d' c' u1 y k' u2.
Proof.
  intros I R1 R2 Hr Hag. pose proof (ii_bal _ _ _ _ _ _ _ I x) as (n & Hb & Hc).
  destruct (flip_bal _ _ _ _ _ _ _ R1 R2 Hb) as [-> Hb']. apply bal_black_S in Hb as (m & -> & Hb1 & Hb2).
  rewrite bool_decide_false in Hc by done.
  pose proof (quiet_paint _ R1 (ex_intro _ _ Hb1)) as Hq.
  assert (Hit : all_items C (nd d Red (paint Black t1) x k (paint Black t2)) = all_items C (nd d Black t1 x k t2)).
  { unfold all_items. do 2 f_equal. destruct d; cbn; by rewrite !items_paint. }
  pose proof (ii_path _ _ _ _ _ _ _ I) as HF. pose proof (ii_dir _ _ _ _ _ _ _ I) as Hd.
  pose proof (klen_paint key Black t1) as Hk. set (P1 := paint Black t1) in *. set (P2 := paint Black t2) in *.
  destruct (top_red C) eqn:Et.
  - pose proof (ii_calm _ _ _ _ _ _ _ I Et R1 R2) as Hca. destruct C as [|f1 [|f2 C]]; try discriminate.
    cbn [calm_above top_red] in *. apply bool_decide_eq_true in Et. apply andb_true_iff in Hca as [Hf2 Hu].
    apply bool_decide_eq_true in Hf2. apply negb_true_iff in Hu.
    cbn [cbal] in Hc. rewrite Et, Hf2 in Hc. destruct Hc as (Bs1 & _ & Rs1 & Bs2 & Hc).
    destruct (repaired_bal f1 f2 (nd d Red P1 x k P2) (S m)) as [Hrb Hrr]; try done; [by rewrite is_red_nd|].
    assert (exists l r, nd d Red P1 x k P2 = Node Red l x k r) as (l & r & En) by (destruct d; by do 2 eexists).
    assert (nd d Red P1 x k P2 <> Leaf) as Hnl by (rewrite En; done).
    rewrite En in Hr. destruct (rebalance_ok _ _ _ _ _ _ _ _ _ Hr eq_refl Et) as (T2 & Er & Hr2 & Ha2).
    exists T2. rewrite <- En in Hr2, Ha2. rewrite Er. apply Forall_cons in HF as [HF1 HF].
    pose proof (all_items_repaired f1 f2 C _ Hnl) as Hi2. rewrite Hit in Hi2.
    assert (Hag2 : agree T T2 (all_items (f1 :: f2 :: C) (nd d Black t1 x k t2)).*1).
    { eapply agree_via; [exact Hag|exact Ha2|reflexivity|]. rewrite <- Hit. apply locs_all. }
    destruct (eqb (fd f2) (fd f1)) eqn:Eg.
    + destruct (repaired_single f1 f2 (nd d Red P1 x k P2) Eg) as (s & Es). rewrite Es in *.
      apply rep_down in Hr2. apply bal_black in Hrb as (B1 & B2).
      destruct (step_quiet T T2 (f1 :: f2 :: C) t1 t2 _ _ _ _ _ _ (S m) key Hr2) as (C' & ? & ? & ? & ? & ? & ? & ?);
        try done.
      * apply Forall_cons in HF as [_ HF]. by constructor.
      * rewrite all_items_up. done.
      * by do 7 eexists.
    + destruct (repaired_double f1 f2 d P1 x k P2 Eg) as (f & s1 & s2 & Hf & Hfd & Rs2 & Es). rewrite Es in *.
      apply Forall_cons in HF as [HF2 HF].
      destruct (step_double T T2 (f1 :: f2 :: C) t1 t2 C d P1 (fx f) (fk f) s1 x k s2 (fd f) (S (S m)) key)
        as (C' & ? & ? & ? & ? & ? & ? & ?); try done; [by destruct Hf as [-> | ->]|]. by do 7 eexists.
  - rewrite (rebalance_skip _ _ _ _ _ _ _ _ Hr) by (by rewrite Et).
    destruct (step_quiet T T1 C t1 t2 C d P1 x k P2 (S m) key) as (C' & ? & ? & ? & ? & ? & ? & ?); try done.
    + by apply cbal_red.
    + by do 8 eexists.
Qed.

(** One round of the loop. *)
Lemma insert_step T C d c t1 x k t2 key :
  rep T C (nd d c t1 x k t2) -> ins_inv key C d c t1 k t2 -> t1 <> Leaf ->
  exists T1 (T2 : ds_tree K) C' d' c' u1 y k' u2, insert_flip T x = Ok T1 /\ ds_tree_insert_rebalance T1 x = Ok T2 /\
    step_post key T T2 C d c t1 x k t2 C' d' c' u1 y k' u2.
Proof.
  intros Hr I Ht. destruct (flip_ok _ _ _ _ _ _ _ _ Hr) as (T1 & Ef & Hr1 & Ha1). exists T1. unfold flipped in Hr1.
  destruct (is_red t1 && is_red t2) eqn:Er.
  - apply andb_true_iff in Er as [R1 R2].
    destruct (step_flip T T1 C d c t1 x k t2 key) as (T2 & ? & ? & ? & ? & ? & ? & ? & ? & ?); try done.
    { eapply agree_mono, Ha1. apply locs_all. }
    by do 8 eexists.
  - destruct (step_plain T1 C d c t1 x k t2 key) as (? & ? & ? & ? & ? & ? & ? & [? ? ? ? ? ?]); try done.
    exists T1. do 7 eexists. split_and!; [done| |split; try done].
    + rewrite (rebalance_skip _ _ _ _ _ _ _ _ Hr1); [done|].
      destruct c; [|done]. destruct (ii_bal _ _ _ _ _ _ _ I x) as (n & _ & Hc). destruct C as [|f C]; [done|].
      cbn in Hc |- *. destruct Hc as [_ Hc]. destruct (fc f); [by destruct Hc|done].
    + eapply agree_mono, Ha1. apply locs_all.
Qed.

(** The descent ends at a free place on the side of the key. *)
Lemma insert_loop_ok fuel T C d c t1 x k t2 key :
  rep T C (nd d c t1 x k t2) -> ins_inv key C d c t1 k t2 -> (measure key C c t1 <= fuel)%nat ->
  exists T' C' d' c' x' k' u2, insert_loop fuel T x d key = Ok (T', x', d') /\
    rep T' C' (nd d' c' Leaf x' k' u2) /\ ins_inv key C' d' c' Leaf k' u2 /\
    all_items C' (nd d' c' Leaf x' k' u2) = all_items C (nd d c t1 x k t2) /\
    agree T T' (all_items C (nd d c t1 x k t2)).*1.
Proof.
  revert T C d c t1 x k t2. induction fuel as [|fuel IH]; intros T C d c t1 x k t2 Hr I Hm.
  { unfold measure in Hm. lia. }
  cbn [insert_loop]. rewrite (rep_get _ _ _ _ _ _ _ _ Hr). st.
  destruct t1 as [|c1 l1 x1 k1 r1]; cbn [ptr].
  { do 7 eexists. split_and!; [done|exact Hr|exact I|done|apply agree_refl]. }
  destruct (insert_step _ _ _ _ _ _ _ _ _ Hr I ltac:(done))
    as (T1 & T2 & C' & d' & c' & u1 & y & k' & u2 & -> & E2 & [(b & Hg & Hb) Hr2 I2 Hm2 Hi2 Ha2]).
  cbn [mbind res_bind]. rewrite E2. cbn [mbind res_bind]. rewrite Hg. cbn [mbind res_bind]. rewrite Hb.
  cbn [deref mbind res_bind]. rewrite (rep_get _ _ _ _ _ _ _ _ Hr2). st. rewrite (ii_dir _ _ _ _ _ _ _ I2).
  destruct (IH T2 C' d' c' u1 y k' u2 Hr2 I2 ltac:(lia)) as (T' & C'' & ? & ? & ? & ? & ? & E & Hr3 & I3 & Hi3 & Ha3).
  do 7 eexists. split_and!; [exact E|exact Hr3|exact I3|congruence|].
  eapply agree_via; [exact Ha2|exact Ha3|reflexivity|]. by rewrite Hi2.
Qed.


Lemma klen_locs key t : (klen key t <= length (locs t))%nat.
Proof.
  induction t as [|c l IHl x k r IHr]; cbn; [lia|]. rewrite length_app. cbn. destruct (go_dir k key); lia.
Qed.

(** The loop starts at a black root. *)
Lemma ins_inv_start key d t1 x k t2 n :
  go_dir k key = d -> bal (nd d Black t1 x k t2) n -> ins_inv key [] d Black t1 k t2.
Proof.
  intros Hd Hb. split; try done. intros z. exists n. split; [by eapply bal_loc|done].
Qed.

(** The last repair, after the new red leaf is linked. *)
Lemma final_repair T C d c x k t2 node key :
  ins_inv key C d c Leaf k t2 -> rep T C (nd d c (Node Red Leaf node key Leaf) x k t2) ->
  exists T' t', ds_tree_insert_rebalance T node = Ok T' /\ rep T' [] t' /\ (exists n, bal t' n) /\
    items t' = all_items C (nd d c (Node Red Leaf node key Leaf) x k t2) /\
    ot_ndel T' = ot_ndel T /\ dom (ot_nodes T') = dom (ot_nodes T).
Proof.
  intros I Hr. set (new := Node Red Leaf node key Leaf) in *.
  destruct (ii_bal _ _ _ _ _ _ _ I x) as (n & Hb & Hc). destruct c.
  - pose proof (ii_root _ _ _ _ _ _ _ I eq_refl) as HC. destruct C as [|f C]; [done|].
    pose proof (ii_quiet _ _ _ _ _ _ _ I eq_refl) as Hq. cbn [sib_red] in Hq.
    destruct (is_red (fs f)) eqn:Es; [by specialize (Hq eq_refl)|]. cbn [cbal] in Hc. destruct Hc as [Bs Hc].
    destruct (fc f); [by destruct Hc|]. apply bal_red in Hb as (_ & R2 & Hn & B2). cbn in Hn. subst n.
    apply rep_down in Hr. destruct (rebalance_ok _ _ _ _ _ _ _ _ _ Hr eq_refl eq_refl) as (T' & E & Hr' & Ha).
    destruct (repaired_bal (mk_frame d Red x k t2) f new 0%nat) as [Hrb Hrr]; try done.
    exists T', (plug C (repaired (mk_frame d Red x k t2) f new)). split_and!; try apply Ha; try done.
    + exact (proj1 (rep_plug _ _ _) Hr').
    + eapply bal_plug; [exact Hrb|]. by rewrite Hrr.
    + by rewrite <- all_items_plug, all_items_repaired, all_items_up by done.
  - apply bal_black_S in Hb as (m & -> & Hm & B2). cbn in Hm. subst m.
    pose proof (proj1 (rep_down _ _ _ _ _ _ _ _) Hr) as Hr'.
    rewrite (rebalance_skip T _ false Red Leaf node key Leaf Hr') by done.
    exists T, (plug C (nd d Black new x k t2)). split_and!; try done.
    + exact (proj1 (rep_plug _ _ _) Hr).
    + eapply (bal_plug _ _ 1); [by apply bal_black|]. by rewrite is_red_nd.
    + by rewrite all_items_plug.
Qed.

Lemma blacken_root_ok T t :
  rep T [] t -> t <> Leaf ->
  exists T', blacken_root T = Ok T' /\ rep T' [] (paint Black t) /\ agree T T' (locs t).
Proof.
  intros Hr Ht. destruct (blacken_ok _ _ Hr) as (T' & E & H'). exists T'. split; [|done].
  unfold blacken_root. rewrite (rp_root _ _ _ Hr) in *. by destruct t.
Qed.

(** From the free place to the finished tree. *)
Lemma insert_finish T C d c x k t2 node key :
  ins_inv key C d c Leaf k t2 -> rep T C (nd d c Leaf x k t2) ->
  ot_nodes T !! node = Some (mk_tnode key Red None None None) ->
  ordered (all_items C (nd d c Leaf x k t2)) -> node ∉ (all_items C (nd d c Leaf x k t2)).*1 ->
  exists T',
    (T ← upd T x (set_child d (Some node));
     T ← upd T node (set_parent (Some x));
     b ← get T x;
     c ← deref (otn_child b d);
     T ← ds_tree_insert_rebalance T c;
     blacken_root T) = Ok T' /\
    rbtree T' (insert_item node key (all_items C (nd d c Leaf x k t2))) /\
    ot_ndel T' = ot_ndel T /\ dom (ot_nodes T') = dom (ot_nodes T).
Proof.
  intros I Hr Hn Ho Hx. destruct (link_ok _ _ _ _ _ _ _ _ _ Hr Hn) as (T1 & T2 & -> & E2 & Hr2 & Hd2 & Hs2).
  { intros Hi. apply Hx. by apply locs_all. }
  cbn [mbind res_bind]. rewrite E2. cbn [mbind res_bind]. rewrite (rep_get _ _ _ _ _ _ _ _ Hr2). st. cbn [ptr deref]. st.
  destruct (final_repair _ _ _ _ _ _ _ _ _ I Hr2) as (T3 & t & -> & Hr3 & [n Hb] & Hi & Hd3 & Hs3). cbn [mbind res_bind].
  set (F := mk_frame d c x k t2).
  assert (Hpre : all_items C (nd d c Leaf x k t2) = lefts (F :: C) ++ rights (F :: C)).
  { change (nd d c Leaf x k t2) with (nd (fd F) (fc F) Leaf (fx F) (fk F) (fs F)). by rewrite <- all_items_up. }
  assert (Hins : items t = insert_item node key (all_items C (nd d c Leaf x k t2))).
  { rewrite Hi. change (nd d c ?t x k t2) with (nd (fd F) (fc F) t (fx F) (fk F) (fs F)). rewrite <- all_items_up.
    change (nd (fd F) (fc F) Leaf (fx F) (fk F) (fs F)) with (nd d c Leaf x k t2).
    destruct (path_split key (F :: C) Leaf) as [HL HR].
    { rewrite all_items_up. exact Ho. }
    { constructor; [by apply I|by apply I]. }
    rewrite Hpre, insert_item_at by done. done. }
  destruct (blacken_root_ok T3 t) as (T4 & -> & Hr4 & Ha4); [done| |].
  { intros ->. by eapply insert_item_nonempty. }
  eexists. split; [done|]. split; [|by rewrite (ag_ndel _ _ _ Ha4), (ag_dom _ _ _ Ha4), Hd3, Hs3, Hd2, Hs2].
  destruct (paint_bal _ _ Hb) as [m Hm]. exists (paint Black t), m.
  split_and!; [done|by rewrite items_paint|by apply insert_item_ordered|apply red_paint_black|done].
Qed.

Lemma tree_insert_ok T l node key :
  rbtree T l -> node ∈ dom (ot_nodes T) -> node ∉ l.*1 ->
  exists T', ds_tree_node_insert T node key = Ok T' /\ rbtree T' (insert_item node key l) /\
    ot_ndel T' = ot_ndel T /\ dom (ot_nodes T') = dom (ot_nodes T).
Proof.
  intros (t & n & Hr & Hi & Ho & Hred & Hb) [v Hv]%elem_of_dom Hx. unfold ds_tree_node_insert.
  assert (node ∉ locs t) as Hx' by (by rewrite <- items_locs, Hi).
  erewrite upd_ok by done. cbn [mbind res_bind]. set (T1 := set_tnodes _ T).
  assert (HT1 : ot_nodes T1 !! node = Some (mk_tnode key Red None None None)) by apply lookup_insert_eq.
  assert (Hag : agree T T1 [node]) by (eapply agree_upd; [done|set_solver]).
  assert (Hr1 : rep T1 [] t).
  { destruct Hr as [R1 R2 R3 R4]. split; try done. by apply tcells_insert. }
  destruct t as [|c tl x k tr].
  - cbn in Hi. subst l. rewrite (rp_root _ _ _ Hr1). cbn [ptr rootp insert_item].
    erewrite upd_ok by (cbn; exact HT1). eexists. split; [done|]. cbn [set_root set_tnodes ot_nodes ot_ndel set_prop].
    split; [|split; [apply Hag|rewrite <- (ag_dom _ _ _ Hag); by eapply dom_upd]].
    exists (Node Black Leaf node key Leaf), 1%nat. split_and!; try done; [|by repeat constructor].
    split; cbn; [done| |done|apply NoDup_singleton]. split_and!; try done. apply lookup_insert_eq.
  - rewrite (rp_root _ _ _ Hr1). cbn [ptr rootp].
    assert (c = Black) as -> by (by destruct c). destruct (key_view key Black tl x k tr) as (t1 & t2 & E & Ek).
    pose proof (rep_size _ _ Hr1) as Hsz. pose proof (klen_locs key (Node Black tl x k tr)) as Hkl.
    rewrite Ek in Hkl. rewrite E in *. rewrite (rep_get _ _ _ _ _ _ _ _ Hr1). st.
    destruct (insert_loop_ok (2 * size (ot_nodes T1) + 2) T1 [] _ _ _ _ _ _ key Hr1)
      as (T2 & C' & d' & c' & x' & k' & u2 & -> & Hr2 & I2 & Hi2 & Ha2).
    { by eapply ins_inv_start. }
    { unfold measure. cbn [sib_red]. rewrite andb_false_r. lia. }
    cbn [mbind res_bind]. rewrite all_items_root, Hi in Hi2, Ha2.
    destruct (insert_finish T2 C' d' c' x' k' u2 node key I2 Hr2) as (T' & -> & Hrb & Hd & Hs).
    + by rewrite (ag_get _ _ _ Ha2).
    + by rewrite Hi2.
    + by rewrite Hi2.
    + rewrite Hi2 in Hrb. exists T'. split_and!; try done.
      * by rewrite Hd, (ag_ndel _ _ _ Ha2).
      * by rewrite Hs, (ag_dom _ _ _ Ha2), (ag_dom _ _ _ Hag).
Qed.
End Insert.
