(* ===== verification/DsTreeRemove.v ===== *)
(** * DsTreeRemove: bottom-up removal from the red-black tree

    [ds_tree_node_remove] unlinks a node with at most one child, or puts the
    predecessor in the node's place, and then climbs while a subtree is one black
    node short. *)
From stdpp Require Import sorting.
From S2P Require Import Prelude DsTree DsTreeRep DsTreeInv.
Open Scope Z_scope.

Section Remove.
Context {K : Type} `{KeyOrder K}.
Notation ctx := (list (frame K)).
Implicit Types (T : ds_tree K) (t : tree K) (C : ctx) (f : frame K).

(** ** Unlinking a node with one subtree *)
Lemma unlink_ok T C d c u x k :
  rep T C (nd d c u x k Leaf) ->
  exists T1 T2, relink T (cptr C) x (ptr u) = Ok T1 /\ ot_nodes T1 !! x = ot_nodes T !! x /\
    match ptr u with None => Ok T1 | Some y => upd T1 y (set_parent (cptr C)) end = Ok T2 /\
    rep T2 C u /\ ot_nodes T2 !! x = ot_nodes T !! x /\ agree T T2 (locs (nd d c u x k Leaf) ++ clocs C).
Proof.
  intros [R1 R2 R3 R4]. rewrite ptr_nd in R1, R3. apply tcells_nd in R2 as (_ & Hu & _).
  rewrite locs_nd in R4. cbn in R4. rewrite app_nil_r in R4. apply NoDup_cons in R4 as [Hx R4].
  pose proof (headl_sub C) as Hh. pose proof R4 as (HNu & Hd & HNC)%NoDup_app.
  destruct (relink_ok T C x (ptr u) R3) as (T1 & E1 & HC1 & Hr1 & Ha1); [|done|].
  { apply NoDup_cons. split; [set_solver +Hx|done]. }
  destruct (reparent_ok T1 u (Some x) (cptr C)) as (T2 & E2 & Hu2 & Hr2 & Ha2); [|done|].
  { eapply tcells_agree, Hu. intros y Hy. apply Ha1. set_solver +Hh Hd Hy. }
  exists T1, T2. split_and!; [done| |done| | |].
  - apply Ha1. set_solver +Hh Hx.
  - split; [by rewrite Hr2|done| |done]. eapply ccells_agree, HC1. intros y Hy. apply Ha2. set_solver +Hd Hy.
  - rewrite (ag_get _ _ _ Ha2) by set_solver +Hx. apply Ha1. set_solver +Hh Hx.
  - eapply agree_via; [exact Ha1|exact Ha2| |]; intros y Hy; apply elem_of_app; [right; by apply Hh|left].
    apply elem_of_nd. auto.
Qed.

(** The colour of the subtree that takes the place of a black node. *)
Definition takes_place (c : color) t : tree K := if bool_decide (c = Red) then t else paint Black t.

(** The case distinction on colours of [ds_tree_remove_leaf]. *)
Lemma recolor_ok T C d c u x k :
  rep T C (nd d c u x k Leaf) ->
  exists T0, (if bool_decide (c = Red) then Ok (T, None)
     else Ok (is_red u) ≫= λ rc : bool,
       if rc then deref (ptr u) ≫= λ y, upd T y (set_prop Black) ≫= λ T, Ok (T, None) else Ok (T, cptr C)) =
     Ok (T0, if bool_decide (c = Red) || is_red u then None else cptr C) /\
     rep T0 C (nd d c (takes_place c u) x k Leaf) /\ ot_nodes T0 !! x = ot_nodes T !! x /\
     ptr (takes_place c u) = ptr u /\ agree T T0 (locs (nd d c u x k Leaf) ++ clocs C).
Proof.
  intros Hr. unfold takes_place. case_bool_decide; cbn [orb mbind res_bind].
  { exists T. by split_and!; [..|apply agree_refl]. }
  destruct u as [|[] ul y ky ur]; cbn [is_red paint ptr deref mbind res_bind]; 
    [exists T; by split_and!; [..|apply agree_refl]| |exists T; by split_and!; [..|apply agree_refl]].
  assert (x <> y) as Hxy.
  { pose proof (rp_nodup _ _ _ Hr) as Hn. rewrite locs_nd in Hn. cbn in Hn. apply NoDup_cons in Hn as [Hn _].
    set_solver +Hn. }
  apply rep_down in Hr. destruct (paint_ok T _ false Red ul y ky ur Black Hr) as (T0 & -> & Hr0 & Ha0).
  exists T0. apply rep_down in Hr0. split_and!; [done|done| |done|].
  - apply Ha0. set_solver +Hxy.
  - eapply agree_mono, Ha0. sub_locs.
Qed.

Lemma locs_takes_place c t : locs (takes_place c t) = locs t.
Proof. unfold takes_place. case_bool_decide; [done|]. by destruct t. Qed.

Lemma remove_leaf_ok T C d c u x k :
  rep T C (nd d c u x k Leaf) -> d = true \/ u <> Leaf ->
  exists T', ds_tree_remove_leaf T x =
      Ok (T', if bool_decide (c = Red) || is_red u then None else cptr C) /\
    rep T' C (takes_place c u) /\ ot_nodes T' !! x = ot_nodes T !! x /\
    agree T T' (locs (nd d c u x k Leaf) ++ clocs C).
Proof.
  intros Hr Hd. unfold ds_tree_remove_leaf. cbn [OTN_IS_RED]. rewrite (rep_get _ _ _ _ _ _ _ _ Hr).
  cbn [mbind res_bind]. rewrite prop_mkd.
  assert (bool_decide (otn_child0 (mkd d k c (cptr C) (ptr u) (ptr Leaf)) = None) = d) as ->.
  { destruct d; cbn; [done|]. destruct u; [by destruct Hd|done]. }
  cbn zeta. rewrite child_mkd, parent_mkd. pose proof (proj1 (rep_down _ _ _ _ _ _ _ _) Hr) as Hdn.
  rewrite (rep_red _ _ _ Hdn). destruct (recolor_ok _ _ _ _ _ _ _ Hr) as (T0 & E0 & Hr0 & Hx0 & Hp0 & Ha0).
  rewrite E0. cbn [mbind res_bind]. pose proof (rep_node _ _ _ _ _ _ _ _ Hr0) as En.
  rewrite (tget_ok _ _ _ En). cbn [mbind res_bind]. rewrite child_mkd, parent_mkd.
  destruct (unlink_ok _ _ _ _ _ _ _ Hr0) as (T1 & T2 & E1 & Hx1 & E2 & Hr2 & Hx2 & Ha2).
  unfold relink in E1. rewrite E1. cbn [mbind res_bind]. rewrite (tget_ok T1 x _ (eq_trans Hx1 En)).
  cbn [mbind res_bind]. rewrite child_mkd, parent_mkd, E2. eexists. split_and!; [done|done|congruence|].
  eapply agree_via; [exact Ha0|exact Ha2|reflexivity|]. intros y.
  by rewrite !elem_of_app, !elem_of_nd, locs_takes_place.
Qed.

(** ** The predecessor takes the place of the node *)
Lemma replace_ok T C c l o ko r y v :
  rep T C (Node c l o ko r) -> ot_nodes T !! y = Some v -> y ∉ locs (Node c l o ko r) ++ clocs C ->
  exists T', ds_tree_node_replace T o y = Ok T' /\ rep T' C (Node c l y (otn_key v) r) /\
    agree T T' (y :: locs (Node c l o ko r) ++ clocs C).
Proof.
  intros Hr Hv Hy. pose proof (rep_node T C false c l o ko r Hr) as Eo. destruct Hr as [R1 R2 R3 R4].
  cbn [ptr] in *. cbn [tcells] in R2. destruct R2 as (_ & Hl & Hrr).
  assert (NoDup (y :: o :: locs l ++ locs r ++ clocs C)) as Hnd.
  { eapply (nodup_perm (y :: locs (Node c l o ko r) ++ clocs C)); [cbn; solve_Permutation|].
    by apply NoDup_cons. }
  pose proof (headl_sub C) as Hh.
  apply NoDup_cons in Hnd as [Hy' Hnd]. apply NoDup_cons in Hnd as [Ho Hnd].
  apply NoDup_app in Hnd as (Nl & Dl & Hnd). apply NoDup_app in Hnd as (Nr & Dr & NC).
  assert (o <> y) as Hoy by set_solver +Hy'.
  unfold ds_tree_node_replace. st. cbn [mkd otn_child0 otn_child1 otn_prop otn_parent] in *.
  match goal with |- context [upd ?T0 _ (set_parent (Some y))] => set (T1 := T0) end.
  assert (Ha1 : agree T T1 [y]) by (eapply agree_upd; [lk|set_solver +]).
  destruct (reparent_ok T1 l (Some o) (Some y)) as (T2 & -> & Hl2 & Hr2 & Ha2); [|done|].
  { eapply tcells_agree, Hl. intros z Hz. apply Ha1. set_solver +Hy' Hz. }
  assert (A2 : agree T T2 (y :: locs l)) by (eapply agree_via; [exact Ha1|exact Ha2|set_solver +..]).
  assert (Eo2 : ot_nodes T2 !! o = ot_nodes T !! o) by (apply A2; set_solver +Ho Hoy).
  cbn [mbind res_bind]. rewrite (tget_ok T2 o _ (eq_trans Eo2 Eo)). cbn [mbind res_bind otn_child1].
  destruct (reparent_ok T2 r (Some o) (Some y)) as (T3 & -> & Hr3 & Hrt3 & Ha3); [|done|].
  { eapply tcells_agree, Hrr. intros z Hz. apply A2. set_solver +Hy' Dl Hz. }
  assert (A3 : agree T T3 (y :: locs l ++ locs r)) by (eapply agree_via; [exact A2|exact Ha3|set_solver +..]).
  assert (Eo3 : ot_nodes T3 !! o = ot_nodes T !! o) by (apply A3; set_solver +Ho Hoy).
  cbn [mbind res_bind]. rewrite (tget_ok T3 o _ (eq_trans Eo3 Eo)). cbn [mbind res_bind otn_parent].
  destruct (relink_ok T3 C o (Some y)) as (T4 & E4 & HC4 & Hr4 & Ha4).
  { eapply ccells_agree, R3. intros z Hz. apply A3. set_solver +Hy' Dl Dr Hz. }
  { apply NoDup_cons. split; [set_solver +Ho|done]. }
  { by rewrite Hrt3, Hr2. }
  unfold relink in E4. exists T4. split; [exact E4|]. split; [split|].
  - done.
  - cbn [tcells]. split_and!.
    + rewrite (ag_get _ _ _ Ha4), (ag_get _ _ _ Ha3), (ag_get _ _ _ Ha2) by set_solver +Hy' Hh.
      apply lookup_insert_eq.
    + eapply tcells_agree, Hl2. intros z Hz.
      rewrite (ag_get _ _ _ Ha4), (ag_get _ _ _ Ha3) by set_solver +Hh Dl Hz. done.
    + eapply tcells_agree, Hr3. intros z Hz. apply Ha4. set_solver +Hh Dr Hz.
  - done.
  - eapply (nodup_perm (y :: locs l ++ locs r ++ clocs C)); [cbn; solve_Permutation|].
    apply NoDup_cons. split; [set_solver +Hy'|]. apply NoDup_app. split_and!; try done.
    by apply NoDup_app.
  - eapply agree_via; [exact A3|exact Ha4| |]; intros z; cbn [locs]; set_solver +Hh.
Qed.
(** ** Repairing a subtree that is one black node short *)

(** Finished: the whole tree is balanced again. *)
Definition fixed T' C f t : Prop :=
  exists t' m, rep T' C t' /\ bal t' m /\ cbal C m (is_red t') /\ all_items C t' = all_items (f :: C) t.

(** Not finished: the subtree at the parent is one short. *)
Definition short T' C f t : Prop :=
  exists t' m, rep T' C t' /\ ptr t' = Some (fx f) /\ bal t' m /\ is_red t' = false /\ cbal C (S m) false /\
    all_items C t' = all_items (f :: C) t.

(** The last steps after a rotation: the old colour on top, black below. *)
Lemma top_paint_ok T C d c t1 y ky t2 c' :
  rep T C (nd d c t1 y ky t2) -> t1 <> Leaf -> t2 <> Leaf ->
  exists T', (T ← upd T y (set_prop c');
     n ← get T y; c0 ← deref (otn_child0 n); T ← upd T c0 (set_prop Black);
     n ← get T y; c1 ← deref (otn_child1 n); T ← upd T c1 (set_prop Black); Ok (T, false)) = Ok (T', false) /\
    rep T' C (nd d c' (paint Black t1) y ky (paint Black t2)) /\
    agree T T' (locs (nd d c t1 y ky t2) ++ clocs C).
Proof.
  intros Hr N1 N2. destruct (paint_ok _ _ _ _ _ _ _ _ c' Hr) as (T1 & -> & Hr1 & Ha1). cbn [mbind res_bind].
  destruct t1 as [|c1 l1 x1 k1 r1]; [done|]. destruct t2 as [|c2 l2 x2 k2 r2]; [done|].
  rewrite (rep_get _ _ _ _ _ _ _ _ Hr1). cbn [mbind res_bind].
  destruct d; cbn [nd mkd otn_child0 otn_child1 ptr deref paint mbind res_bind] in *;
    destruct (paint_children_ok _ _ _ _ _ _ _ _ _ _ _ _ _ _ _ Hr1) as (T2 & T3 & -> & Eg & E3 & H3 & A3);
    cbn [mbind res_bind]; rewrite Eg; cbn [mbind res_bind otn_child0 otn_child1 deref]; rewrite E3;
    cbn [mbind res_bind]; eexists; (split_and!; [done|exact H3|]);
    (eapply agree_via; [exact Ha1|exact A3|sub_locs|sub_locs]).
Qed.

(** The sibling's children are black: paint it red. *)
Lemma fix_black T f C t n F y ky N :
  rep T (f :: C) t -> bal t n -> is_red t = false -> cbal (f :: C) (S n) false ->
  fs f = nd (negb (fd f)) Black F y ky N -> is_red F = false -> is_red N = false ->
  exists T' more, (T ← upd T y (set_prop Red); rn ← OTN_IS_RED T (Some (fx f));
      if rn : bool then T ← upd T (fx f) (set_prop Black); Ok (T, false) else Ok (T, true)) = Ok (T', more) /\
    (if more : bool then short T' C f t else fixed T' C f t) /\ (fc f = Red -> more = false) /\
    agree T T' (locs t ++ clocs (f :: C)).
Proof.
  intros Hr Hb Ht Hc Es RF RN. cbn [cbal] in Hc. destruct Hc as [Bs Hc]. rewrite Es in Bs.
  apply bal_black in Bs as [BF BN].
  pose proof (proj1 (rep_up _ _ _ _) Hr) as Hu. rewrite Es in Hu. apply rep_down' in Hu.
  destruct (paint_ok _ _ _ _ _ _ _ _ Red Hu) as (T1 & -> & H1 & A1). cbn [mbind res_bind].
  pose proof (rep_parent_red _ _ _ _ H1) as ER. cbn [fx fc] in ER. rewrite ER. cbn [mbind res_bind].
  apply rep_down' in H1. assert (A1' : agree T T1 (locs t ++ clocs (f :: C))).
  { eapply agree_mono, A1. destruct f. cbn in Es |- *. subst. sub_locs. }
  case_bool_decide as Ec.
  - destruct (paint_ok _ _ _ _ _ _ _ _ Black H1) as (T2 & -> & H2 & A2). cbn [mbind res_bind].
    exists T2, false. split_and!; [done| |done|].
    + rewrite Ec in Hc. destruct Hc as (_ & _ & Hc). do 2 eexists. split_and!; [exact H2| | |].
      * apply bal_black. split; [exact Hb|]. by apply bal_red.
      * rewrite is_red_nd. clear -Hc. by apply cbal_mono.
      * rewrite all_items_up, Es. unfold all_items. do 2 f_equal. apply items_nd; [done|]. by apply items_nd.
    + eapply agree_via; [exact A1'|exact A2|reflexivity|sub_locs].
  - assert (fc f = Black) as Ef by (by destruct (fc f)). rewrite Ef in *.
    exists T1, true. split_and!; try done. do 2 eexists. split_and!; [exact H1|apply ptr_nd| | | |].
    + apply bal_black. split; [exact Hb|]. by apply bal_red.
    + by rewrite is_red_nd.
    + exact Hc.
    + rewrite all_items_up, Es. unfold all_items. do 2 f_equal. apply items_nd; [done|]. by apply items_nd.
Qed.
Lemma node_view d c l x k r : exists t1 t2, Node c l x k r = nd d c t1 x k t2.
Proof. destruct d; by do 2 eexists. Qed.

(** Two black subtrees under a node of the old colour fit where the old one was. *)
Lemma refit C f n d (A : tree K) y ky B :
  cbal (f :: C) (S n) false -> bal A (S n) -> bal B (S n) -> is_red A = false -> is_red B = false ->
  exists m, bal (nd d (fc f) A y ky B) m /\ cbal C m (is_red (nd d (fc f) A y ky B)).
Proof.
  cbn [cbal]. rewrite is_red_nd. intros [_ Hc] HA HB RA RB. destruct (fc f).
  - destruct Hc as (_ & _ & Hc). exists (S n). by rewrite bal_red.
  - exists (S (S n)). by rewrite bal_black.
Qed.

(** A red nephew: rotate, keep the colour on top. *)
Lemma fix_rotate T f C t n F y ky (N : tree K) :
  rep T (f :: C) t -> bal t n -> is_red t = false -> cbal (f :: C) (S n) false ->
  fs f = nd (negb (fd f)) Black F y ky N -> is_red F || is_red N = true ->
  exists T', ('(T, node) ← (if is_red F then ds_rbt_rotate T (fx f) (negb (fd f))
                            else ds_rbt_rotate_double T (fx f) (negb (fd f)));
     T ← upd T node (set_prop (fc f));
     n ← get T node; c0 ← deref (otn_child0 n); T ← upd T c0 (set_prop Black);
     n ← get T node; c1 ← deref (otn_child1 n); T ← upd T c1 (set_prop Black); Ok (T, false)) = Ok (T', false) /\
    fixed T' C f t /\ agree T T' (locs t ++ clocs (f :: C)).
Proof.
  intros Hr Hb Ht Hc Es Hred. pose proof Hc as [Bs _]. rewrite Es in Bs. apply bal_black in Bs as [BF BN].
  pose proof (proj1 (rep_up _ _ _ _) Hr) as Hu. rewrite Es, <- nd_swap in Hu.
  assert (Hsub : forall T1 L, agree T T1 L -> L ⊆ locs (nd (negb (fd f)) (fc f) (nd (negb (fd f)) Black F y ky N)
      (fx f) (fk f) t) ++ clocs C -> agree T T1 (locs t ++ clocs (f :: C))).
  { intros T1 L HL Hs. eapply agree_mono, HL. rewrite Hs. destruct f. cbn in Es |- *. subst. sub_locs. }
  destruct (is_red F) eqn:RF.
  - destruct (rbt_rotate_ok _ _ _ _ _ _ _ _ _ _ _ _ Hu) as (T1 & -> & H1 & A1). cbn [mbind res_bind].
    destruct (top_paint_ok _ _ _ _ _ _ _ _ (fc f) H1) as (T2 & -> & H2 & A2); [by destruct F|by destruct (negb (fd f))|].
    exists T2. split_and!; [done| |].
    + destruct (refit C f n (negb (fd f)) (paint Black F) y ky (paint Black (nd (negb (fd f)) Red N (fx f) (fk f) t)))
        as (m & Hm & Hcm); try done; try apply red_paint_black; [by apply bal_paint_black|by destruct (negb (fd f))|].
      do 2 eexists. split_and!; [exact H2|exact Hm|exact Hcm|]. rewrite all_items_up, Es. unfold all_items. do 2 f_equal.
      clear. destruct F, (fd f); cbn; by rewrite <- ?app_assoc; cbn; rewrite <- ?app_assoc.
    + eapply Hsub; [eapply agree_via; [exact A1|exact A2|reflexivity|]|reflexivity]. sub_locs.
  - cbn in Hred. rewrite <- (nd_swap (negb (fd f)) Black N y ky F) in Hu.
    destruct N as [|[] Nl z kz Nr]; try discriminate.
    destruct (node_view (negb (negb (fd f))) Red Nl z kz Nr) as (P & Q & EN). rewrite EN in *.
    destruct (rbt_rotate_double_ok _ _ _ _ _ _ _ _ _ _ _ _ _ _ _ _ Hu) as (T1 & -> & H1 & A1). cbn [mbind res_bind].
    apply bal_red in BN as (RP & RQ & BP & BQ).
    destruct (top_paint_ok _ _ _ _ _ _ _ _ (fc f) H1) as (T2 & -> & H2 & A2);
      [by destruct (negb (negb (fd f)))|by destruct (negb (fd f))|].
    exists T2. split_and!; [done| |].
    + destruct (refit C f n (negb (fd f)) (paint Black (nd (negb (negb (fd f))) Red Q y ky F)) z kz
         (paint Black (nd (negb (fd f)) Red P (fx f) (fk f) t))) as (m & Hm & Hcm);
        try done; try apply red_paint_black; [by destruct (fd f)..|].
      do 2 eexists. split_and!; [exact H2|exact Hm|exact Hcm|]. rewrite all_items_up, Es. unfold all_items. do 2 f_equal.
      clear. destruct (fd f); cbn; by rewrite <- ?app_assoc; cbn; rewrite <- ?app_assoc.
    + eapply Hsub; [eapply agree_via; [exact A1|exact A2|reflexivity|]|]; sub_locs.
Qed.
Lemma remove_fix_ok T f C t n :
  rep T (f :: C) t -> bal t n -> is_red t = false -> cbal (f :: C) (S n) false -> is_red (fs f) = false ->
  exists T' more, remove_fix T (fx f) (fd f) (ptr (fs f)) = Ok (T', more) /\
    (if more : bool then short T' C f t else fixed T' C f t) /\ (fc f = Red -> more = false) /\
    agree T T' (locs t ++ clocs (f :: C)).
Proof.
  intros Hr Hb Ht Hc Rs. pose proof Hc as [Bs _].
  destruct (fs f) as [|[] sl y ky sr] eqn:Es; try done. cbn [ptr remove_fix].
  destruct (node_view (negb (fd f)) Black sl y ky sr) as (F & N & EN). rewrite EN in Es.
  pose proof (proj1 (rep_up _ _ _ _) Hr) as Hu. rewrite Es in Hu. pose proof (proj1 (rep_down' _ _ _ _ _ _ _ _) Hu) as Hs.
  rewrite (rep_get _ _ _ _ _ _ _ _ Hs). cbn [mbind res_bind].
  pose proof (rep_red _ _ _ (proj1 (rep_down _ _ _ _ _ _ _ _) Hs)) as RF.
  pose proof (rep_red _ _ _ (proj1 (rep_down' _ _ _ _ _ _ _ _) Hs)) as RN.
  assert (exists a b, OTN_IS_RED T (otn_child0 (mkd (negb (fd f)) ky Black (Some (fx f)) (ptr F) (ptr N))) = Ok a /\
     OTN_IS_RED T (otn_child1 (mkd (negb (fd f)) ky Black (Some (fx f)) (ptr F) (ptr N))) = Ok b /\
     negb a && negb b = negb (is_red F || is_red N)) as (a & b & Ea & Eb & Eab).
  { destruct (fd f); cbn [negb mkd otn_child0 otn_child1]; do 2 eexists; (split_and!; [eassumption..|]);
      by destruct (is_red F), (is_red N). }
  cbn [cptr fx]. rewrite Ea. cbn [mbind res_bind]. rewrite Eb. cbn [mbind res_bind]. rewrite Eab.
  destruct (is_red F || is_red N) eqn:Er; cbn [negb].
  - rewrite (rep_get _ _ _ _ _ _ _ _ Hu). cbn [mbind res_bind]. rewrite prop_mkd, child_mkd, RF. cbn [mbind res_bind].
    destruct (fix_rotate T f C t n F y ky N Hr Hb Ht Hc Es Er) as (T' & E & Hfix & Ha).
    exists T', false. split_and!; [exact E|done..].
  - apply orb_false_iff in Er as [RF0 RN0]. by eapply fix_black.
Qed.

Lemma fixed_up T C f f' g t :
  fixed T (g :: C) f' t -> all_items (f' :: g :: C) t = all_items (f :: C) t -> fixed T C f t.
Proof.
  intros (t' & m & Hr & Hb & Hc & Hi) E. destruct (cbal_up _ _ _ _ Hb Hc) as (m' & Hb' & Hc').
  exists (nd (fd g) (fc g) t' (fx g) (fk g) (fs g)), m'. split_and!; [by apply rep_up|done|by rewrite is_red_nd|].
  by rewrite <- all_items_up, Hi.
Qed.

(** [ds_tree_remove_rebalance] at the parent of a subtree that is one short. *)
Lemma remove_rebalance_ok T f C t n :
  rep T (f :: C) t -> bal t n -> is_red t = false -> cbal (f :: C) (S n) false ->
  exists T' more, ds_tree_remove_rebalance T (fx f) (fd f) = Ok (T', more) /\
    (if more : bool then short T' C f t else fixed T' C f t) /\
    agree T T' (locs t ++ clocs (f :: C)).
Proof.
  intros Hr Hb Ht Hc. unfold ds_tree_remove_rebalance. pose proof (proj1 (rep_up _ _ _ _) Hr) as Hu.
  rewrite (rep_get _ _ _ _ _ _ _ _ Hu). cbn [mbind res_bind]. rewrite child_mkd_other.
  rewrite (rep_red _ _ _ (proj1 (rep_down' _ _ _ _ _ _ _ _) Hu)). cbn [mbind res_bind].
  destruct (is_red (fs f)) eqn:Rs.
  - pose proof Hc as [Bs Hc']. destruct (fc f) eqn:Ef; [by destruct Hc' as (_ & ? & _); congruence|].
    destruct (fs f) as [|[] sl y ky sr] eqn:Es; try discriminate.
    destruct (node_view (negb (fd f)) Red sl y ky sr) as (F & N & EN). rewrite EN in *.
    apply bal_red in Bs as (RF & RN & BF & BN). rewrite <- nd_swap in Hu.
    destruct (rbt_rotate_ok _ _ _ _ _ _ _ _ _ _ _ _ Hu) as (T1 & -> & H1 & A1). cbn [mbind res_bind].
    apply rep_down' in H1. rewrite (rep_get _ _ _ _ _ _ _ _ H1). cbn [mbind res_bind]. rewrite child_mkd.
    apply (proj1 (rep_down' _ _ _ _ _ _ _ _)) in H1. rewrite negb_involutive in H1.
    set (f' := mk_frame (fd f) Red (fx f) (fk f) N) in *. set (g := mk_frame (fd f) Black y ky F) in *.
    destruct (remove_fix_ok T1 f' (g :: C) t n) as (T' & more & E & Hp & Hm & Ha); try done.
    rewrite (Hm eq_refl) in *. exists T', false. split_and!; [exact E| |].
    + eapply fixed_up; [exact Hp|]. rewrite !all_items_up, Es. cbn [fd fc fx fk fs f' g]. unfold all_items. do 2 f_equal.
      clear. destruct (fd f); cbn; by rewrite <- ?app_assoc.
    + eapply agree_via; [exact A1|exact Ha| |]; unfold f', g; destruct f; cbn in Es |- *; subst; sub_locs.
  - cbn [mbind res_bind]. destruct (remove_fix_ok _ _ _ _ _ Hr Hb Ht Hc Rs) as (T' & more & E & Hp & _ & Ha).
    by exists T', more.
Qed.
(** ** The climb *)
Definition cdir C : bool := match C with [] => true | f :: _ => fd f end.

(** The parent's link tells the side. *)
Lemma rep_side T f C t x :
  rep T (f :: C) t -> ptr t = Some x ->
  exists v, get T (fx f) = Ok v /\ bool_decide (otn_child v true = Some x) = fd f.
Proof.
  intros Hr Hp. pose proof (rp_nodup _ _ _ Hr) as Hn. apply rep_up in Hr.
  eexists. split; [by eapply rep_get|]. rewrite Hp. apply side_of. cbn [clocs] in Hn.
  apply NoDup_app in Hn as (_ & Hn & _). apply ptr_in in Hp. specialize (Hn _ Hp). set_solver +Hn.
Qed.

Lemma remove_loop_ok fuel T C t n dir :
  rep T C t -> bal t n -> is_red t = false -> cbal C (S n) false -> (length C < fuel)%nat ->
  (C <> [] -> dir = cdir C) ->
  exists T' t' m, remove_loop fuel T (cptr C) dir = Ok T' /\ rep T' [] t' /\ bal t' m /\
    items t' = all_items C t /\ agree T T' (all_items C t).*1.
Proof.
  revert T t n dir fuel. induction C as [|f C IH]; intros T t n dir [|fuel] Hr Hb Ht Hc Hf Hd; try (cbn in Hf; lia).
  { exists T, t, n. split_and!; [done..|by rewrite all_items_root|apply agree_refl]. }
  cbn [remove_loop cptr]. rewrite (Hd ltac:(done)). cbn [cdir].
  destruct (remove_rebalance_ok _ _ _ _ _ Hr Hb Ht Hc) as (T1 & more & -> & Hp & Ha). cbn [mbind res_bind].
  assert (Ha' : agree T T1 (all_items (f :: C) t).*1) by (eapply agree_mono, Ha; apply locs_all).
  destruct more; cbn [negb].
  - destruct Hp as (t' & m & Hr1 & Hpt & Hb1 & Ht1 & Hc1 & Hi1). destruct t' as [|c l x k r]; [done|].
    injection Hpt as ->. rewrite (rep_get T1 C false c l (fx f) k r Hr1). cbn [mbind res_bind]. rewrite parent_mkd.
    assert (exists dir', match cptr C with None => Ok (fd f)
       | Some p => pn ← get T1 p; Ok (bool_decide (otn_child pn true = Some (fx f))) end = Ok dir' /\
       (C <> [] -> dir' = cdir C)) as (dir' & -> & Hd').
    { destruct C as [|g C]; cbn [cptr cdir]; [by eexists|].
      destruct (rep_side _ _ _ _ _ Hr1 eq_refl) as (v & -> & Ev). cbn [mbind res_bind]. by eexists. }
    cbn [mbind res_bind].
    destruct (IH T1 _ m dir' fuel Hr1 Hb1 Ht1 Hc1 ltac:(cbn in Hf; lia) Hd') as (T2 & t2 & m2 & E & Hr2 & Hb2 & Hi2 & Ha2).
    exists T2, t2, m2. rewrite Hi1 in *. split_and!; try done. by eapply agree_trans.
  - destruct Hp as (t' & m & Hr1 & Hb1 & Hc1 & Hi1). destruct (bal_plug _ _ _ Hb1 Hc1) as [N HN].
    exists T1, (plug C t'), N. split_and!; [done|exact (proj1 (rep_plug _ _ _) Hr1)|done| |done]. by rewrite <- all_items_plug, Hi1.
Qed.

(** ** Finding the node and its predecessor *)
Lemma locate T C t x :
  rep T C t -> x ∈ locs t -> exists C' c l k r, rep T C' (Node c l x k r) /\
    all_items C' (Node c l x k r) = all_items C t /\ plug C' (Node c l x k r) = plug C t.
Proof.
  revert C. induction t as [|c l IHl y k r IHr]; intros C Hr Hx; [by apply elem_of_nil in Hx|].
  cbn [locs] in Hx. apply elem_of_app in Hx as [Hx|[->|Hx]%elem_of_cons].
  - destruct (IHl (mk_frame false c y k r :: C)) as (C' & ? & ? & ? & ? & H1 & H2 & H3); [apply (proj2 (rep_up _ _ _ _)); exact Hr|done|].
    do 5 eexists. split_and!; [exact H1|by rewrite H2, all_items_up|by rewrite H3].
  - by do 5 eexists.
  - destruct (IHr (mk_frame true c y k l :: C)) as (C' & ? & ? & ? & ? & H1 & H2 & H3); [apply (proj2 (rep_up _ _ _ _)); exact Hr|done|].
    do 5 eexists. split_and!; [exact H1|by rewrite H2, all_items_up|by rewrite H3].
Qed.

(** The last node on side [d]. *)
Lemma descend_ok fuel T C d c l x k r :
  rep T C (Node c l x k r) -> (length (locs (Node c l x k r)) <= fuel)%nat ->
  exists D c' y ky u, descend fuel T x d = Ok y /\ rep T (D ++ C) (nd d c' Leaf y ky u) /\
    Forall (fun f => fd f = d) D /\ plug D (nd d c' Leaf y ky u) = Node c l x k r.
Proof.
  revert C c l x k r. induction fuel as [|fuel IH]; intros C c l x k r Hr Hf.
  { cbn in Hf. rewrite length_app in Hf. cbn in Hf. lia. }
  cbn [descend]. destruct (node_view d c l x k r) as (t1 & t2 & E).
  assert (length (locs (Node c l x k r)) = S (length (locs t1) + length (locs t2))) as Hlen.
  { rewrite E, locs_nd. cbn. by rewrite length_app. }
  rewrite E in Hr |- *. rewrite (rep_get _ _ _ _ _ _ _ _ Hr). cbn [mbind res_bind]. rewrite child_mkd.
  destruct t1 as [|c1 l1 x1 k1 r1]; cbn [ptr].
  { exists [], c, x, k, t2. by split_and!. }
  apply rep_down in Hr. destruct (IH _ _ _ _ _ _ Hr) as (D & c' & y & ky & u & Ey & Hy & HD & HP); [lia|].
  exists (D ++ [mk_frame d c x k t2]), c', y, ky, u. split_and!; [done|by rewrite <- app_assoc| |].
  - apply Forall_app. split; [done|]. by repeat constructor.
  - rewrite plug_app, HP. done.
Qed.
(** ** Removal *)

(** What is left to do after unlinking: nothing, or to climb from [base]. *)
Definition pending C (u : tree K) (base : option loc) (dir : bool) : Prop :=
  (base = None /\ exists m, bal u m /\ cbal C m (is_red u)) \/
  (base = cptr C /\ (C <> [] -> dir = cdir C) /\ exists m, bal u m /\ is_red u = false /\ cbal C (S m) false).

Lemma takes_place_bal C d c u x k n base dir :
  bal (nd d c u x k Leaf) n -> cbal C n (bool_decide (c = Red)) ->
  base = (if bool_decide (c = Red) || is_red u then None else cptr C) -> (C <> [] -> dir = cdir C) ->
  pending C (takes_place c u) base dir.
Proof.
  intros Hb Hc -> Hd. unfold takes_place. destruct c; cbn [bool_decide] in *; rewrite ?bool_decide_true in * by done.
  - left. apply bal_red in Hb as (Ru & _ & Hu & _). split; [done|]. exists n. split; [done|]. rewrite Ru. by apply cbal_mono.
  - rewrite bool_decide_false in * by done. cbn [orb]. apply bal_black_S in Hb as (m & -> & Hu & _).
    destruct (is_red u) eqn:Ru.
    + left. split; [done|]. exists (S m). rewrite red_paint_black. split; [by apply bal_paint_black|done].
    + right. split_and!; try done. exists m. assert (paint Black u = u) as -> by (by destruct u as [|[] ? ? ? ?]).
      done.
Qed.

Lemma items_takes_place c t : items (takes_place c t) = items t.
Proof. unfold takes_place. case_bool_decide; [done|apply items_paint]. Qed.

Lemma rep_dir T C t x :
  rep T C t -> ptr t = Some x ->
  exists dir, match cptr C with None => Ok true
    | Some p => pn ← get T p; Ok (bool_decide (otn_child1 pn = Some x)) end = Ok dir /\ (C <> [] -> dir = cdir C).
Proof.
  intros Hr Hp. destruct C as [|f C]; cbn [cptr cdir]; [by eexists|].
  destruct (rep_side _ _ _ _ _ Hr Hp) as (v & -> & Ev). cbn [mbind res_bind]. by eexists.
Qed.

(** The node has at most one child. *)
Lemma unlink_leaf T C d c u x k n :
  rep T C (nd d c u x k Leaf) -> d = true \/ u <> Leaf ->
  bal (nd d c u x k Leaf) n -> cbal C n (bool_decide (c = Red)) ->
  exists T' u' base dir, remove_unlink T x = Ok (T', base, dir) /\ rep T' C u' /\ items u' = items u /\
    pending C u' base dir /\ agree T T' (locs (nd d c u x k Leaf) ++ clocs C).
Proof.
  intros Hr Hd Hb Hc. unfold remove_unlink. rewrite (rep_get _ _ _ _ _ _ _ _ Hr). cbn [mbind res_bind].
  destruct (rep_dir T C _ x Hr (ptr_nd _ _ _ _ _ _)) as (dir & Edir & Hdir).
  destruct (remove_leaf_ok _ _ _ _ _ _ _ Hr Hd) as (T' & E' & Hr' & _ & Ha').
  exists T', (takes_place c u). do 2 eexists. split_and!; [|exact Hr'|apply items_takes_place| |exact Ha'].
  - assert (otn_child0 (mkd d k c (cptr C) (ptr u) None) = None \/
            otn_child1 (mkd d k c (cptr C) (ptr u) None) = None) as Hor by (destruct d; cbn; auto).
    rewrite parent_mkd, Edir, E'. cbn [mbind res_bind ptr].
    by destruct Hor as [-> | ->]; [|destruct (otn_child0 _)].
  - by eapply takes_place_bal.
Qed.
(** A context does not depend on the key and the node of a frame. *)
Lemma cbal_swap D f f' C n b :
  fc f = fc f' -> fs f = fs f' -> cbal (D ++ f :: C) n b -> cbal (D ++ f' :: C) n b.
Proof.
  intros Ec Es. revert n b. induction D as [|g D IH]; intros n b; cbn [app cbal].
  - by rewrite Ec, Es.
  - intros [Hs Hc]. split; [done|]. destruct (fc g); [destruct Hc as (? & ? & ?)|]; auto.
Qed.

Lemma cdir_swap D f f' C : fd f = fd f' -> cdir (D ++ f :: C) = cdir (D ++ f' :: C).
Proof. by destruct D. Qed.

(** The elements when [y] takes the place of [x], the next one. *)
Lemma items_swap D C c c' x k y ky r u :
  Forall (fun f => fd f = true) D ->
  exists L R, all_items (D ++ mk_frame false c x k r :: C) (nd true c' Leaf y ky u) = L ++ (y, ky) :: (x, k) :: R /\
    all_items (D ++ mk_frame false c y ky r :: C) u = L ++ (y, ky) :: R.
Proof.
  intros HD. 
  assert (forall f, fd f = false -> rights (D ++ f :: C) = rights (f :: C) /\
    exists LD, lefts (D ++ f :: C) = lefts C ++ LD /\ forall g, fd g = false -> lefts (D ++ g :: C) = lefts C ++ LD) as Hf.
  { clear -HD. induction HD as [|g D Hg HD IH]; intros f Hf; cbn [app lefts rights].
    - split; [done|]. exists []. rewrite Hf. split; [done|]. intros g Hg. by rewrite Hg.
    - destruct (IH f Hf) as (E & LD & E1 & E2). rewrite Hg, E. split; [done|].
      exists (LD ++ items (fs g) ++ [(fx g, fk g)]). rewrite E1. split; [by rewrite <- app_assoc|].
      intros h Hh. rewrite (E2 h Hh). by rewrite <- app_assoc. }
  destruct (Hf (mk_frame false c x k r) eq_refl) as (ER & LD & EL & EL').
  destruct (Hf (mk_frame false c y ky r) eq_refl) as (ER' & _).
  exists (lefts C ++ LD ++ items u), (items r ++ rights C). unfold all_items. rewrite ER, ER', EL, EL' by done.
  cbn. by rewrite <- !app_assoc; cbn; rewrite <- ?app_assoc.
Qed.

(** [if (base == node) base = rnode;] *)
Lemma base_swap D f f' C :
  fx f ∉ clocs D ->
  (if bool_decide (cptr (D ++ f :: C) = Some (fx f)) then Some (fx f') else cptr (D ++ f :: C)) = cptr (D ++ f' :: C).
Proof.
  intros Hn. destruct D as [|g D]; cbn [app cptr]; [by rewrite bool_decide_true|].
  rewrite bool_decide_false; [done|]. cbn in Hn. set_solver +Hn.
Qed.

Lemma clocs_app D C : clocs (D ++ C) = clocs D ++ clocs C.
Proof. induction D as [|f D IH]; cbn; [done|]. by rewrite IH, <- app_assoc. Qed.

Lemma pending_swap D f f' C u base dir :
  fx f ∉ clocs D -> fd f = fd f' -> fc f = fc f' -> fs f = fs f' -> pending (D ++ f :: C) u base dir ->
  pending (D ++ f' :: C) u (if bool_decide (base = Some (fx f)) then Some (fx f') else base) dir.
Proof.
  intros Hx Ed Ec Es [(-> & m & Hb & Hc) | (-> & Hd & m & Hb & Hu & Hc)].
  - left. rewrite bool_decide_false by done. split; [done|]. exists m. split; [done|]. by eapply cbal_swap.
  - right. rewrite base_swap by done. split_and!; [done| |].
    + intros _. rewrite <- (cdir_swap D f f' C) by done. apply Hd. by destruct D.
    + exists m. split_and!; try done. by eapply cbal_swap.
Qed.

(** Unlinking the predecessor, seen from the node. *)
Lemma unlink_pred T D C c x k r c' y ky u n :
  let F := mk_frame false c x k r in
  rep T (D ++ F :: C) (nd true c' Leaf y ky u) -> bal (nd true c' Leaf y ky u) n ->
  cbal (D ++ F :: C) n (bool_decide (c' = Red)) ->
  exists T1 T2 u' base base' dir p v, get T y = Ok (mk_tnode ky c' (Some p) (ptr u) None) /\ get T p = Ok v /\
    bool_decide (otn_child1 v = Some y) = dir /\
    ds_tree_remove_leaf T y = Ok (T1, base) /\ ds_tree_node_replace T1 x y = Ok T2 /\
    (if bool_decide (base = Some x) then Some y else base) = base' /\
    rep T2 (D ++ mk_frame false c y ky r :: C) u' /\ items u' = items u /\
    pending (D ++ mk_frame false c y ky r :: C) u' base' dir /\
    agree T T2 (locs (nd true c' Leaf y ky u) ++ clocs (D ++ F :: C)).
Proof.
  intros F Hr Hb Hc. pose proof (rp_nodup _ _ _ Hr) as Hnd. rewrite locs_nd in Hnd. cbn [locs app] in Hnd.
  apply NoDup_cons in Hnd as [Hy Hnd]. apply NoDup_app in Hnd as (_ & Hu & HndC).
  assert (x ∉ clocs D) as HxD.
  { rewrite clocs_app in HndC. apply NoDup_app in HndC as (_ & HD & _). intros Hi. apply (HD _ Hi). cbn. set_solver +. }
  assert (exists d, nd true c' Leaf y ky u = nd d c' u y ky Leaf /\ (d = true \/ u <> Leaf)) as (d & Ed & Hd).
  { destruct u; [exists true|exists false]; split; auto. }
  assert (exists p v, cptr (D ++ F :: C) = Some p /\ get T p = Ok v /\
     bool_decide (otn_child1 v = Some y) = cdir (D ++ F :: C)) as (p & v & Ep & Eg & Ev).
  { destruct D as [|g D]; cbn [app cptr cdir] in *;
      destruct (rep_side _ _ _ _ y Hr (ptr_nd _ _ _ _ _ _)) as (v & ? & ?); by do 2 eexists. }
  pose proof (rep_node _ _ _ _ _ _ _ _ Hr) as En. cbn [mkd ptr] in En. rewrite Ep in En. rewrite Ed in *.
  destruct (remove_leaf_ok _ _ _ _ _ _ _ Hr Hd) as (T1 & E1 & Hr1 & Hy1 & Ha1). rewrite En in Hy1.
  assert (Hr1' : rep T1 C (Node c (plug D (takes_place c' u)) x k r)).
  { apply (proj1 (rep_plug_app _ _ _ _)) in Hr1. by apply (proj1 (rep_up _ _ _ _)) in Hr1. }
  assert (Hsub : forall z, z ∈ locs (Node c (plug D (takes_place c' u)) x k r) ++ clocs C ->
    z ∈ locs u \/ z ∈ clocs (D ++ F :: C)).
  { intros z Hz%locs_all. change (Node c (plug D (takes_place c' u)) x k r) with (plug [F] (plug D (takes_place c' u))) in Hz.
    rewrite all_items_plug, <- !plug_app, <- all_items_plug, elem_of_all, locs_takes_place in Hz. exact Hz. }
  destruct (replace_ok _ _ _ _ _ _ _ _ _ Hr1' Hy1) as (T2 & E2 & Hr2 & Ha2).
  { intros Hi. by apply Hy, elem_of_app, Hsub. }
  cbn [otn_key] in Hr2.
  exists T1, T2, (takes_place c' u). do 5 eexists. split_and!; [by apply tget_ok|exact Eg|exact Ev|exact E1|exact E2|done| | | |].
  - apply (proj2 (rep_plug_app _ _ _ _)). apply (proj2 (rep_up _ _ _ _)). exact Hr2.
  - apply items_takes_place.
  - apply (pending_swap D F); try done. by eapply takes_place_bal.
  - eapply agree_via; [exact Ha1|exact Ha2|reflexivity|].
    intros z [->|Hz%Hsub]%elem_of_cons; apply elem_of_app; rewrite elem_of_nd; tauto.
Qed.

(** The node has two children. *)
Lemma unlink_inner T C c l x k r n :
  rep T C (Node c l x k r) -> l <> Leaf -> r <> Leaf -> bal (Node c l x k r) n -> cbal C n (bool_decide (c = Red)) ->
  exists T' C' u' base dir L R, remove_unlink T x = Ok (T', base, dir) /\ rep T' C' u' /\
    pending C' u' base dir /\ all_items C (Node c l x k r) = L ++ (x, k) :: R /\ all_items C' u' = L ++ R /\
    agree T T' (all_items C (Node c l x k r)).*1.
Proof.
  intros Hr Hl Hrr Hb Hc. assert (rep T C (nd false c l x k r)) as Hn by done.
  unfold remove_unlink. rewrite (rep_get _ _ _ _ _ _ _ _ Hn). cbn [mbind res_bind mkd otn_child0 otn_child1].
  destruct l as [|cl ll z kz lr]; [done|]. destruct r as [|cr rl w kw rr]; [done|]. cbn [ptr].
  set (r := Node cr rl w kw rr) in *. set (F := mk_frame false c x k r).
  pose proof (proj1 (rep_down _ _ _ _ _ _ _ _) Hn) as Hdn. change (rep T (F :: C) (Node cl ll z kz lr)) in Hdn.
  destruct (descend_ok (S (size (ot_nodes T))) T (F :: C) true cl ll z kz lr Hdn)
    as (D & c' & y & ky & u & -> & Hy & HD & HP).
  { apply Nat.le_le_succ_r, (rep_sub_size _ _ _ Hdn). }
  destruct (cbal_down C false c (Node cl ll z kz lr) x k r n Hb Hc) as (m & Hbl & Hcl).
  rewrite <- HP in Hbl, Hcl. destruct (cbal_plug_down _ _ _ _ Hbl Hcl) as (m' & Hbu & Hcu). rewrite is_red_nd in Hcu.
  destruct (unlink_pred T D C c x k r c' y ky u m' Hy Hbu Hcu)
    as (T1 & T2 & u' & base & base' & dir & p & v & E1 & E2 & E3 & E4 & E5 & E6 & Hr2 & Hi & Hp & Ha).
  cbn [mbind res_bind]. rewrite E1. cbn [mbind res_bind otn_parent deref]. rewrite E2. cbn [mbind res_bind].
  rewrite E4. cbn [mbind res_bind]. rewrite E5. cbn [mbind res_bind]. rewrite E3, E6.
  destruct (items_swap D C c c' x k y ky r u HD) as (L & R & EL & ER).
  assert (Eall : all_items C (Node c (Node cl ll z kz lr) x k r) = L ++ (y, ky) :: (x, k) :: R).
  { rewrite <- EL, <- HP, !all_items_plug, plug_app. done. }
  exists T2. do 4 eexists. exists (L ++ [(y, ky)]), R. rewrite Eall. split_and!; [done|exact Hr2|exact Hp| | |].
  - by rewrite <- app_assoc.
  - rewrite <- app_assoc. cbn [app]. rewrite <- ER. unfold all_items. by rewrite Hi.
  - rewrite <- EL. eapply agree_mono, Ha. apply locs_all.
Qed.
Lemma remove_unlink_ok T t x n :
  rep T [] t -> bal t n -> x ∈ locs t ->
  exists T' C u base dir, remove_unlink T x = Ok (T', base, dir) /\ rep T' C u /\ pending C u base dir /\
    all_items C u = without x (items t) /\ agree T T' (locs t).
Proof.
  intros Hr Hb Hx. destruct (locate _ _ _ _ Hr Hx) as (C & c & l & k & r & Hr' & Hi & Hp). cbn [plug] in Hp.
  rewrite all_items_root in Hi.
  assert (Hnd : NoDup (items t).*1).
  { rewrite items_locs. pose proof (rp_nodup _ _ _ Hr) as Hnd. by rewrite app_nil_r in Hnd. }
  destruct (cbal_plug_down C [] (Node c l x k r) n) as (m & Hbm & Hcm); [by rewrite Hp|done|].
  rewrite app_nil_r in Hcm. change (is_red (Node c l x k r)) with (is_red (nd false c l x k r)) in Hcm.
  rewrite is_red_nd in Hcm. rewrite <- items_locs, <- Hi in *. clear Hp Hi Hr Hb t n Hx.
  assert ((l = Leaf \/ r = Leaf) \/ ~ (l = Leaf \/ r = Leaf)) as [Hlr|Hlr] by (destruct l, r; naive_solver).
  - assert (exists d u, Node c l x k r = nd d c u x k Leaf /\ (d = true \/ u <> Leaf)) as (d & u & E & Hd).
    { destruct l; [exists true, r; auto|]. exists false. eexists. split; [by destruct Hlr as [? | ->]|auto]. }
    rewrite E in *. destruct (unlink_leaf _ _ _ _ _ _ _ _ Hr' Hd Hbm Hcm) as (T' & u' & base & dir & E' & H1 & H2 & H3 & H4).
    exists T', C, u', base, dir. split_and!; try done; [|eapply agree_mono, H4; apply locs_all].
    assert (exists L R, all_items C (nd d c u x k Leaf) = L ++ (x, k) :: R /\ all_items C u = L ++ R) as (L & R & E1 & E2).
    { unfold all_items. destruct d; cbn.
      - exists (lefts C), (items u ++ rights C). by split.
      - exists (lefts C ++ items u), (rights C). by rewrite <- !app_assoc. }
    rewrite E1 in *. rewrite without_at by done. rewrite <- E2. unfold all_items. by rewrite H2.
  - destruct (unlink_inner T C c l x k r m) as (T' & C' & u' & base & dir & L & R & E' & H1 & H2 & H3 & H4 & H5);
      [done|by intros ->; auto|by intros ->; auto|done..|].
    exists T', C', u', base, dir. rewrite H3 in *. split_and!; try done. by rewrite without_at.
Qed.

Lemma tree_remove_ok T l x :
  rbtree T l -> x ∈ l.*1 ->
  exists T', ds_tree_node_remove T x = Ok T' /\ rbtree T' (without x l) /\
    ot_ndel T' = u32 (ot_ndel T + 1) /\ dom (ot_nodes T') = dom (ot_nodes T).
Proof.
  intros (t & n & Hr & Hi & Ho & Hred & Hb) Hx. rewrite <- Hi, items_locs in Hx. unfold ds_tree_node_remove.
  destruct (remove_unlink_ok _ _ _ _ Hr Hb Hx) as (T1 & C & u & base & dir & -> & Hr1 & Hp & Hi1 & Ha1).
  cbn [mbind res_bind].
  assert (exists T2 t2 m, remove_loop (S (size (ot_nodes T1))) T1 base dir = Ok T2 /\ rep T2 [] t2 /\ bal t2 m /\
    items t2 = all_items C u /\ ot_ndel T2 = ot_ndel T1 /\ dom (ot_nodes T2) = dom (ot_nodes T1))
    as (T2 & t2 & m & -> & Hr2 & Hb2 & Hi2 & Hn2 & Hd2).
  { destruct Hp as [(-> & m & Hbu & Hcu)|(-> & Hd & m & Hbu & Ru & Hcu)].
    - destruct (bal_plug _ _ _ Hbu Hcu) as [N HN]. exists T1, (plug C u), N.
      split_and!; try done; [exact (proj1 (rep_plug _ _ _) Hr1)|by rewrite all_items_plug].
    - pose proof (rep_ctx_size _ _ _ Hr1) as HC.
      destruct (remove_loop_ok (S (size (ot_nodes T1))) _ _ _ _ dir Hr1 Hbu Ru Hcu ltac:(lia) Hd)
        as (T2 & t2 & m2 & ? & ? & ? & ? & [? ? ?]). by exists T2, t2, m2. }
  cbn [mbind res_bind]. destruct (blacken_ok _ _ Hr2) as (T3 & -> & Hr3 & Ha3). cbn [mbind res_bind].
  assert (Hx3 : x ∈ dom (ot_nodes T3)).
  { rewrite (ag_dom _ _ _ Ha3), Hd2, (ag_dom _ _ _ Ha1). by eapply rep_locs_dom. }
  apply elem_of_dom in Hx3 as [v Hv]. erewrite upd_ok by done. cbn [mbind res_bind]. erewrite upd_ok by lk.
  cbn [mbind res_bind set_tnodes ot_nodes ot_root ot_ndel].
  eexists. split; [done|]. cbn [ot_ndel ot_nodes]. split_and!.
  - destruct (paint_bal _ _ Hb2) as [m' Hm']. exists (paint Black t2), m'.
    split_and!; [|rewrite items_paint; congruence|by apply without_ordered|apply red_paint_black|done].
    assert (x ∉ locs (paint Black t2)) as Hxn.
    { rewrite <- items_locs, items_paint, Hi2, Hi1. unfold without. intros (a & Ea & Hin)%list_elem_of_fmap.
      apply list_elem_of_filter in Hin as [Hne _]. congruence. }
    destruct Hr3 as [R1 R2 R3 R4]. split; cbn [ot_root ot_nodes]; try done. apply tcells_insert; [done|]. by apply tcells_insert.
  - by rewrite (ag_ndel _ _ _ Ha3), Hn2, (ag_ndel _ _ _ Ha1).
  - erewrite !dom_upd by lk. by rewrite (ag_dom _ _ _ Ha3), Hd2, (ag_dom _ _ _ Ha1).
Qed.
End Remove.
