(* ===== verification/DsTreeWalk.v ===== *)
(** * DsTreeWalk: lookup, walks, iterators and the health check

    The read-only operations of the red-black tree and its iterators, on a store
    that implements a sorted list ([DsTreeInv.rbtree]); the theorems about whole
    histories of operations; and the comparison functions of [ds_tree.c]. *)
From stdpp Require Import sorting.
From S2P Require Import Prelude DsTree DsTreeRep DsTreeInv DsTreeInsert DsTreeRemove.
Open Scope Z_scope.

(** [ds_tree_foreach_iter] whose body removes the current element through the
    iterator when [p] asks for it; gives the elements visited. *)
Fixpoint titer_loop {K} `{KeyCmp K} (n : nat) (p : loc -> bool) (T : ds_tree K) (it : ds_tree_iter) (r : titer_res)
    : res (list loc * ds_tree K) :=
  match n with
  | O => Err FFuel
  | S n' =>
      match r with
      | TNull | TError => Ok ([], T)
      | TElem x =>
          '(T, it) ← (if p x then '(_, T, it) ← ds_tree_iremove T it; Ok (T, it) else Ok (T, it));
          '(r, it) ← ds_tree_inext T it;
          '(vs, T) ← titer_loop n' p T it r;
          Ok (x :: vs, T)
      end
  end.

Definition ds_tree_foreach_iter {K} `{KeyCmp K} (p : loc -> bool) (T : ds_tree K) : res (list loc * ds_tree K) :=
  '(r, it) ← ds_tree_ifirst T;
  titer_loop (fuel T) p T it r.

(** Comparison functions; [ds_int_cmp] on a host whose signed arithmetic wraps,
    [ds_void_cmp] with 64-bit pointers. *)
Definition ds_int_cmp (a b : Z) : Z := i32 (a - b).
Definition ds_void_cmp (a b : Z) : Z := i32 (a - b).
Definition ds_u8_cmp (a b : Z) : Z := if a <? b then -1 else if b <? a then 1 else 0.
Definition ds_u32_cmp (a b : Z) : Z := if a <? b then -1 else if b <? a then 1 else 0.

#[local] Instance u32_key : KeyCmp Z := ds_u32_cmp.
#[local] Instance u32_order : KeyOrder Z.
Proof.
  split; unfold cmp, u32_key, ds_u32_cmp.
  - intros a. by rewrite Z.ltb_irrefl.
  - intros a b. destruct (Z.ltb_spec a b), (Z.ltb_spec b a); lia.
  - intros a b c. destruct (Z.ltb_spec a b), (Z.ltb_spec b a), (Z.ltb_spec b c), (Z.ltb_spec c b),
      (Z.ltb_spec a c), (Z.ltb_spec c a); lia.
Defined.

Section Walk.
Context {K : Type} `{KeyOrder K}.
Notation ctx := (list (frame K)).
Implicit Types (T : ds_tree K) (t : tree K) (C : ctx) (f : frame K).

(** ** First, last, next, previous *)
Lemma split_unique (l1 l2 r1 r2 : list (loc * K)) x k k' :
  NoDup (l1 ++ (x, k) :: r1).*1 -> l1 ++ (x, k) :: r1 = l2 ++ (x, k') :: r2 -> l1 = l2 /\ r1 = r2.
Proof.
  revert l2. induction l1 as [|[y ky] l1 IH]; intros [|[z kz] l2] Hn E; cbn in *.
  - by injection E.
  - injection E as -> -> ->. apply NoDup_cons in Hn as [Hn _]. exfalso. apply Hn.
    rewrite fmap_app, fmap_cons. set_solver +.
  - injection E as -> -> <-. apply NoDup_cons in Hn as [Hn _]. exfalso. apply Hn.
    rewrite fmap_app, fmap_cons. set_solver +.
  - injection E as -> -> E. apply NoDup_cons in Hn as [_ Hn]. by destruct (IH l2 Hn E) as [-> ->].
Qed.

Definition edge (d : bool) (l : list (loc * K)) : option loc := fst <$> (if d then last l else head l).

(** The last node on side [d] is the first or last element. *)
Lemma plug_edge (d : bool) D c y ky u :
  Forall (fun f => fd f = d) D -> edge d (items (plug D (nd d c Leaf y ky u))) = Some y.
Proof.
  intros HD. rewrite <- all_items_plug. unfold edge, all_items. destruct d; cbn [nd items app].
  - assert (rights D = []) as ->.
    { clear -HD. induction HD as [|f D Hf HD IH]; cbn; [done|]. by rewrite Hf, IH. }
    rewrite app_nil_r, app_assoc, last_snoc. done.
  - assert (lefts D = []) as ->; [|done].
    clear -HD. induction HD as [|f D Hf HD IH]; cbn; [done|]. by rewrite Hf, IH.
Qed.

Lemma extreme_ok (d : bool) T C t :
  rep T C t ->
  match ptr t with None => Ok None | Some x => m ← descend (fuel T) T x d; Ok (Some m) end = Ok (edge d (items t)).
Proof.
  intros Hr. destruct t as [|c l x k r]; cbn [ptr]; [by destruct d|].
  destruct (descend_ok (fuel T) T C d c l x k r Hr) as (D & c' & y & ky & u & -> & _ & HD & <-).
  { unfold fuel. pose proof (rep_sub_size _ _ _ Hr). lia. }
  by rewrite plug_edge.
Qed.

Lemma side_dir d fdir (k : K) c par (sib : tree K) x :
  x ∉ locs sib -> bool_decide (otn_child (mkd fdir k c par (Some x) (ptr sib)) d = Some x) = eqb fdir d.
Proof.
  intros Hx. assert (ptr sib <> Some x) by (intros ?%ptr_in; done).
  destruct d, fdir; cbn; first [by apply bool_decide_true|by apply bool_decide_false].
Qed.

(** The climb stops at the first ancestor on the other side. *)
Lemma climb_ok (d : bool) n T C t x :
  rep T C t -> ptr t = Some x -> (length C < n)%nat ->
  climb n T (Some x) d = Ok (edge (negb d) (if d then rights C else lefts C)).
Proof.
  revert C t x. induction n as [|n IH]; intros C t x Hr Hp Hn; [lia|]. cbn [climb].
  destruct t as [|c l x' k r]; [done|]. injection Hp as ->. rewrite (rep_get T C false c l x k r Hr).
  cbn [mbind res_bind]. rewrite parent_mkd. destruct C as [|f C]; cbn [cptr]; [by destruct d|].
  pose proof (rp_nodup _ _ _ Hr) as Hnd. pose proof (proj1 (rep_up _ _ _ _) Hr) as Hu.
  rewrite (rep_get _ _ _ _ _ _ _ _ Hu). cbn [mbind res_bind ptr].
  rewrite side_dir.
  2:{ apply NoDup_app in Hnd as (_ & Hd & _). cbn in Hd. set_solver +Hd. }
  cbn [lefts rights]. destruct (eqb (fd f) d) eqn:Ed.
  - apply eqb_prop in Ed as <-. rewrite (IH C _ (fx f) Hu (ptr_nd _ _ _ _ _ _)) by (cbn in Hn; lia).
    by destruct (fd f); rewrite ?app_nil_r.
  - unfold edge. destruct (fd f), d; try discriminate; cbn [negb]; [|done]. by rewrite app_assoc, last_snoc.
Qed.

Lemma step_dir_ok (d : bool) T t l1 x k l2 :
  rep T [] t -> items t = l1 ++ (x, k) :: l2 ->
  (v ← get T x;
   match otn_child v d with
   | Some c => m ← descend (fuel T) T c (negb d); Ok (Some m)
   | None => climb (fuel T) T (Some x) d
   end) = Ok (edge (negb d) (if d then l2 else l1)).
Proof.
  intros Hr Hi. assert (Hx : x ∈ locs t) by (rewrite <- items_locs, Hi, fmap_app, fmap_cons; set_solver +).
  assert (Hnd : NoDup (items t).*1).
  { rewrite items_locs. pose proof (rp_nodup _ _ _ Hr) as Hn. by rewrite app_nil_r in Hn. }
  destruct (locate _ _ _ _ Hr Hx) as (C & c & l & k' & r & Hr' & Hi' & _).
  rewrite all_items_root, Hi in Hi'. unfold all_items in Hi'. cbn [items] in Hi'.
  rewrite <- !app_assoc in Hi'. cbn [app] in Hi'. rewrite (app_assoc (lefts C)) in Hi'.
  rewrite Hi in Hnd. destruct (split_unique _ _ _ _ _ _ _ Hnd (eq_sym Hi')) as [-> ->].
  rewrite (rep_get T C false c l x k' r Hr'). cbn [mbind res_bind mkd].
  assert (rep T C (nd false c l x k' r)) as Hn by done.
  pose proof (proj1 (rep_down _ _ _ _ _ _ _ _) Hn) as Hl. pose proof (proj1 (rep_down' _ _ _ _ _ _ _ _) Hn) as Hrr.
  pose proof (rep_ctx_size _ _ _ Hr') as HC.
  destruct d; cbn [otn_child otn_child0 otn_child1 negb].
  - pose proof (extreme_ok false _ _ _ Hrr) as E. destruct r as [|rc rl rx rk rr]; cbn [ptr] in *.
    + apply (climb_ok true _ _ _ _ _ Hr' eq_refl). unfold fuel. lia.
    + rewrite E. unfold edge. cbn [items]. by destruct (items rl) as [|[] ?].
  - pose proof (extreme_ok true _ _ _ Hl) as E. destruct l as [|lc ll lx lk lr]; cbn [ptr] in *.
    + rewrite app_nil_r. apply (climb_ok false _ _ _ _ _ Hr' eq_refl). unfold fuel. lia.
    + rewrite E. unfold edge. cbn [items]. by rewrite (app_assoc (lefts C)), !last_app_cons.
Qed.
Lemma tree_next_ok T l1 x k l2 : rbtree T (l1 ++ (x, k) :: l2) -> ds_tree_next T x = Ok (edge false l2).
Proof. intros (t & n & Hr & Hi & _). exact (step_dir_ok true T t l1 x k l2 Hr Hi). Qed.

Lemma tree_prev_ok T l1 x k l2 : rbtree T (l1 ++ (x, k) :: l2) -> ds_tree_prev T x = Ok (edge true l1).
Proof. intros (t & n & Hr & Hi & _). exact (step_dir_ok false T t l1 x k l2 Hr Hi). Qed.

Lemma tree_min_ok T l : rbtree T l -> ds_tree_node_min T (ot_root T) = Ok (edge false l).
Proof.
  intros (t & n & Hr & <- & _). pose proof (extreme_ok false _ _ _ Hr) as E.
  unfold ds_tree_node_min. by rewrite (rp_root _ _ _ Hr).
Qed.

Lemma tree_max_ok T l : rbtree T l -> ds_tree_node_max T (ot_root T) = Ok (edge true l).
Proof.
  intros (t & n & Hr & <- & _). pose proof (extreme_ok true _ _ _ Hr) as E.
  unfold ds_tree_node_max. by rewrite (rp_root _ _ _ Hr).
Qed.

Lemma rbtree_size T l : rbtree T l -> (length l <= size (ot_nodes T))%nat.
Proof.
  intros (t & n & Hr & <- & _). pose proof (rep_size _ _ Hr) as Hs.
  by rewrite <- items_locs, length_fmap in Hs.
Qed.

Lemma rbtree_nodup T l : rbtree T l -> NoDup l.*1.
Proof.
  intros (t & n & Hr & <- & _). rewrite items_locs. pose proof (rp_nodup _ _ _ Hr) as Hn.
  by rewrite app_nil_r in Hn.
Qed.

Lemma foreach_loop_ok n T l1 l2 :
  rbtree T (l1 ++ l2) -> (length l2 < n)%nat -> foreach_loop n T (edge false l2) = Ok l2.*1.
Proof.
  revert l1 n. induction l2 as [|[x k] l2 IH]; intros l1 [|n] Hr Hn; cbn in Hn; try lia; [done|].
  cbn [edge head fmap option_fmap option_map fst foreach_loop]. unfold edge. cbn [head fmap option_fmap option_map fst foreach_loop].
  rewrite (tree_next_ok _ _ _ _ _ Hr). cbn [mbind res_bind].
  rewrite (IH (l1 ++ [(x, k)]) n); [done|by rewrite <- app_assoc|lia].
Qed.

Lemma foreach_ok T l : rbtree T l -> ds_tree_foreach T = Ok l.*1.
Proof.
  intros Hr. unfold ds_tree_foreach, ds_tree_head. rewrite (tree_min_ok _ _ Hr). cbn [mbind res_bind].
  apply (foreach_loop_ok _ _ [] _ Hr). unfold fuel. pose proof (rbtree_size _ _ Hr). lia.
Qed.

(** ** Lookup *)
Fixpoint height t : nat := match t with Leaf => 0 | Node _ l _ _ r => S (max (height l) (height r)) end.

Definition found (key : K) (l : list (loc * K)) (r : option loc) : Prop :=
  match r with
  | Some x => exists k, (x, k) ∈ l /\ cmp k key = 0
  | None => forall x k, (x, k) ∈ l -> cmp k key <> 0
  end.

Lemma find_loop_ok n T par t key :
  tcells (ot_nodes T) par t -> ordered (items t) -> (height t < n)%nat ->
  exists r, find_loop n T (ptr t) key = Ok r /\ found key (items t) r.
Proof.
  revert n par. induction t as [|c l IHl x k r IHr]; intros [|n] par Ht Ho Hn; cbn in Hn; try lia; cbn [find_loop ptr].
  { eexists. split; [done|]. intros x k Hx. by apply elem_of_nil in Hx. }
  cbn [tcells items] in *. destruct Ht as (Hx & Hl & Hr). rewrite (tget_ok _ _ _ Hx). cbn [mbind res_bind otn_key].
  pose proof (StronglySorted_app_1_l _ _ _ Ho) as Hol. pose proof (StronglySorted_app_1_r _ _ _ Ho) as Hor.
  apply StronglySorted_cons in Hor as [Hxr Hor]. rewrite Forall_forall in Hxr.
  destruct (Z.eqb_spec (cmp k key) 0) as [E|E].
  { eexists. split; [done|]. exists k. split; [|done]. set_solver +. }
  assert (Hel : forall y ky, (y, ky) ∈ items l -> cmp ky k <= 0).
  { intros y ky Hy. apply (StronglySorted_app_1_elem_of _ _ _ (y, ky) (x, k) Ho Hy). left. }
  assert (Her : forall y ky, (y, ky) ∈ items r -> cmp k ky <= 0) by (intros y ky Hy; exact (Hxr _ Hy)).
  destruct (Z.ltb_spec (cmp k key) 0) as [Hc|Hc]; cbn [otn_child otn_child0 otn_child1].
  - destruct (IHr n (Some x) Hr Hor) as (res & -> & Hres); [lia|]. exists res. split; [done|].
    destruct res as [y|]; cbn [found] in *.
    + destruct Hres as (ky & Hy & Hk). exists ky. split; [set_solver +Hy|done].
    + intros y ky [Hy|[[= -> ->]|Hy]%elem_of_cons]%elem_of_app; [|done|by eapply Hres].
      pose proof (cmp_le_lt _ _ _ (Hel _ _ Hy) Hc). lia.
  - destruct (IHl n (Some x) Hl Hol) as (res & -> & Hres); [lia|]. exists res. split; [done|].
    destruct res as [y|]; cbn [found] in *.
    + destruct Hres as (ky & Hy & Hk). exists ky. split; [set_solver +Hy|done].
    + intros y ky [Hy|[[= -> ->]|Hy]%elem_of_cons]%elem_of_app; [by eapply Hres|done|].
      intros Hk. pose proof (cmp_anti ky key). pose proof (cmp_anti k key). pose proof (cmp_anti key k).
      pose proof (cmp_anti key ky). pose proof (cmp_trans k ky key (Her _ _ Hy)). lia.
Qed.

(** ** Balance bounds the height *)
Lemma height_bal t n : bal t n -> (height t <= 2 * n + if is_red t then 1 else 0)%nat.
Proof.
  revert n. induction t as [|[] l IHl x k r IHr]; intros n Hb; cbn [bal height is_red] in *; [lia|..].
  - destruct Hb as (Rl & Rr & Bl & Br). specialize (IHl _ Bl). specialize (IHr _ Br). rewrite Rl in IHl. rewrite Rr in IHr. lia.
  - destruct n as [|n]; [done|]. destruct Hb as [Bl Br]. specialize (IHl _ Bl). specialize (IHr _ Br).
    destruct (is_red l), (is_red r); lia.
Qed.

Lemma size_bal t n : bal t n -> (2 ^ n <= length (items t) + 1)%nat.
Proof.
  revert n. induction t as [|[] l IHl x k r IHr]; intros n Hb; cbn [bal items] in *; [by subst|..];
    rewrite length_app; cbn [length].
  - destruct Hb as (Rl & Rr & Bl & Br). specialize (IHl _ Bl). specialize (IHr _ Br). lia.
  - destruct n as [|n]; [done|]. destruct Hb as [Bl Br]. specialize (IHl _ Bl). specialize (IHr _ Br). cbn. lia.
Qed.

Lemma height_log t n : bal t n -> is_red t = false -> (height t <= 2 * Nat.log2 (length (items t) + 1))%nat.
Proof.
  intros Hb Hr. pose proof (height_bal _ _ Hb) as Hh. rewrite Hr in Hh. pose proof (size_bal _ _ Hb) as Hs.
  apply Nat.log2_le_mono in Hs. rewrite Nat.log2_pow2 in Hs by lia. lia.
Qed.

Lemma height_locs t : (height t <= length (locs t))%nat.
Proof. induction t; cbn; [lia|]. rewrite length_app. cbn. lia. Qed.
(** ** The health check *)
Definition checked t (z : Z) : Prop :=
  (z = -1 /\ forall h, ~ bal t h) \/ exists h, z = Z.of_nat h /\ bal t h.

Lemma bal_unique t a b : bal t a -> bal t b -> a = b.
Proof.
  revert a b. induction t as [|[] l IHl x k r IHr]; intros a b; cbn [bal]; [by intros -> ->|..].
  - intros (_ & _ & Ha & _) (_ & _ & Hb & _). by apply IHl.
  - destruct a as [|a], b as [|b]; try done. intros [Ha _] [Hb _]. f_equal. by apply IHl.
Qed.

(** A node from its subtrees, as the check decides it. *)
Definition node_check (c : color) (l r : tree K) (z0 z1 : Z) : Z :=
  if z0 <? 0 then -1 else if z1 <? 0 then -1 else if negb (z0 =? z1) then -1 else
  match c with Black => z0 + 1 | Red => if is_red l then -1 else if is_red r then -1 else z0 end.

Lemma node_checked c l x k r z0 z1 :
  checked l z0 -> checked r z1 -> checked (Node c l x k r) (node_check c l r z0 z1).
Proof.
  unfold node_check. intros Hl Hr.
  assert (Hno : forall t z, checked t z -> z < 0 -> forall h, ~ bal t h).
  { intros t z [[_ ?]|(h & -> & _)]; [done|lia]. }
  assert (Hsub : forall h, bal (Node c l x k r) h -> (exists a, bal l a) /\ exists b, bal r b).
  { intros h. destruct c; cbn; [intros (_ & _ & ? & ?); eauto|]. destruct h; [done|]. intros [? ?]. eauto. }
  destruct (Z.ltb_spec z0 0) as [N0|N0].
  { left. split; [done|]. intros h [[a Ha] _]%Hsub. exact (Hno l z0 Hl N0 a Ha). }
  destruct (Z.ltb_spec z1 0) as [N1|N1].
  { left. split; [done|]. intros h [_ [b Hb]]%Hsub. exact (Hno r z1 Hr N1 b Hb). }
  destruct Hl as [[-> _]|(a & -> & Ha)]; [lia|]. destruct Hr as [[-> _]|(b & -> & Hb)]; [lia|].
  destruct (Z.eqb_spec (Z.of_nat a) (Z.of_nat b)) as [E|E]; cbn [negb].
  - apply Nat2Z.inj in E as <-. destruct c.
    + destruct (is_red l) eqn:Rl; [left; split; [done|]; intros h (? & _); congruence|].
      destruct (is_red r) eqn:Rr; [left; split; [done|]; intros h (_ & ? & _); congruence|].
      right. by exists a.
    + right. exists (S a). split; [lia|done].
  - left. split; [done|]. intros h Hh. destruct c; cbn in Hh.
    + destruct Hh as (_ & _ & Hl & Hr). rewrite (bal_unique _ _ _ Ha Hl), (bal_unique _ _ _ Hb Hr) in E. done.
    + destruct h as [|h]; [done|]. destruct Hh as [Hl Hr].
      rewrite (bal_unique _ _ _ Ha Hl), (bal_unique _ _ _ Hb Hr) in E. done.
Qed.

Lemma check_r_ok n T par c l x k r :
  tcells (ot_nodes T) par (Node c l x k r) -> (length (locs (Node c l x k r)) <= n)%nat ->
  exists z, ds_tree_check_r n T x = Ok z /\ checked (Node c l x k r) z.
Proof.
  remember (Node c l x k r) as t eqn:Et. revert n par c l x k r Et.
  induction t as [|c l IHl x k r IHr]; intros n par ? ? ? ? ? [= <- <- <- <- <-] (Hx & Hl & Hr) Hn.
  cbn [locs] in Hn. rewrite length_app in Hn. cbn in Hn. destruct n as [|n]; [lia|].
  assert (Hside : forall s, (forall n par c l x k r, s = Node c l x k r -> tcells (ot_nodes T) par s ->
      (length (locs s) <= n)%nat -> exists z, ds_tree_check_r n T x = Ok z /\ checked s z) ->
      tcells (ot_nodes T) (Some x) s -> (length (locs s) <= n)%nat ->
      exists z, match ptr s with None => Ok 0 | Some y => cv ← get T y;
        if bool_decide (otn_parent cv = Some x) then ds_tree_check_r n T y else Ok (-1) end = Ok z /\ checked s z).
  { intros s IH Hs Hls. destruct s as [|sc sl sx sk sr]; cbn [ptr].
    - exists 0. split; [done|]. right. by exists 0%nat.
    - pose proof Hs as (Hsx & _). rewrite (tget_ok _ _ _ Hsx). cbn [mbind res_bind otn_parent].
      rewrite bool_decide_true by done. by eapply IH. }
  destruct (Hside l IHl Hl ltac:(lia)) as (z0 & E0 & C0). destruct (Hside r IHr Hr ltac:(lia)) as (z1 & E1 & C1).
  cbn [ds_tree_check_r]. rewrite (tget_ok _ _ _ Hx). cbn [mbind res_bind otn_child0 otn_child1]. rewrite E0.
  exists (node_check c l r z0 z1). split; [|by apply node_checked]. unfold node_check. cbn [mbind res_bind].
  destruct (z0 <? 0); [done|]. rewrite E1. cbn [mbind res_bind]. destruct (z1 <? 0); [done|].
  destruct (negb (z0 =? z1)); [done|]. cbn [OTN_IS_RED]. rewrite (tget_ok _ _ _ Hx). cbn [mbind res_bind otn_prop].
  destruct c; [rewrite bool_decide_true by done|rewrite bool_decide_false by done]; cbn [negb]; [|done].
  rewrite (tcells_red _ _ _ Hl). cbn [mbind res_bind]. destruct (is_red l); [done|].
  rewrite (tcells_red _ _ _ Hr). cbn [mbind res_bind]. by destruct (is_red r).
Qed.

(** ** Iterators *)
Lemma tree_first_ok T l : rbtree T l ->
  ds_tree_ifirst T = Ok (match l with [] => TNull | (x, _) :: _ => TElem x end,
    mk_titer (edge false l) (edge false (tail l)) (ot_ndel T)).
Proof.
  intros Hr. unfold ds_tree_ifirst. pose proof (tree_min_ok _ _ Hr) as Hm. destruct (ot_root T) as [r|] eqn:Er.
  - rewrite Hm. destruct l as [|[x k] l].
    + destruct Hr as (t & n & Hrt & Hi & _). rewrite (rp_root _ _ _ Hrt) in Er. destruct t as [|c tl x k tr]; [done|].
      cbn in Hi. by destruct (items tl).
    + cbn [mbind res_bind]. pose proof (tree_next_ok T [] x k l Hr) as Hnx. unfold ds_tree_next in Hnx.
      unfold edge in *. cbn [head fmap option_fmap option_map fst] in *. rewrite Hnx. done.
  - destruct l as [|[x k] l]; [done|]. unfold edge in Hm. cbn in Hm. done.
Qed.
Lemma titer_loop_ok n p T l1 l2 :
  rbtree T (l1 ++ l2) -> (length l2 < n)%nat ->
  exists T', titer_loop n p T (mk_titer (edge false l2) (edge false (tail l2)) (ot_ndel T))
      (match l2 with [] => TNull | (x, _) :: _ => TElem x end) = Ok (l2.*1, T') /\
    rbtree T' (l1 ++ filter (fun a => p a.1 = false) l2) /\ dom (ot_nodes T') = dom (ot_nodes T).
Proof.
  revert T l1 n. induction l2 as [|[x k] l2 IH]; intros T l1 [|n] Hr Hn; cbn [length] in Hn; try lia; cbn [titer_loop].
  { by exists T. }
  rewrite filter_cons. cbn [fst tail]. unfold edge at 1. cbn [head fmap option_fmap option_map fst].
  assert (Hstep : forall T1 l1', rbtree T1 (l1' ++ l2) -> dom (ot_nodes T1) = dom (ot_nodes T) -> forall cur,
    exists T', ('(r, it) ← ds_tree_inext T1 (mk_titer cur (edge false l2) (ot_ndel T1));
       '(vs, T') ← titer_loop n p T1 it r; Ok (x :: vs, T')) = Ok (x :: l2.*1, T') /\
      rbtree T' (l1' ++ filter (fun a => p a.1 = false) l2) /\ dom (ot_nodes T') = dom (ot_nodes T)).
  { intros T1 l1' Hr1 Hd1 cur. destruct (IH T1 l1' n Hr1 ltac:(lia)) as (T' & E & Hr' & Hd').
    exists T'. split; [|split; [done|congruence]]. unfold ds_tree_inext, ds_tree_inext_err. cbn [oti_ndel oti_next].
    rewrite Z.eqb_refl. cbn [negb]. destruct l2 as [|[y ky] l2]; unfold edge in *; cbn [head fmap option_fmap option_map fst tail] in *.
    - cbn [mbind res_bind]. rewrite E. done.
    - pose proof (tree_next_ok T1 l1' y ky l2 Hr1) as Hnx. unfold ds_tree_next, edge in Hnx. rewrite Hnx.
      cbn [mbind res_bind]. rewrite E. done. }
  destruct (p x) eqn:Ep.
  - rewrite decide_False by done. unfold ds_tree_iremove, ds_tree_iremove_err. cbn [oti_ndel oti_curr oti_next].
    rewrite Z.eqb_refl. cbn [negb].
    destruct (tree_remove_ok T (l1 ++ (x, k) :: l2) x Hr) as (T1 & -> & Hr1 & Hnd1 & Hd1).
    { rewrite fmap_app, fmap_cons. set_solver +. }
    rewrite without_at in Hr1 by exact (rbtree_nodup _ _ Hr). cbn [mbind res_bind]. rewrite <- Hnd1.
    by apply Hstep.
  - rewrite decide_True by done. cbn [mbind res_bind].
    destruct (Hstep T (l1 ++ [(x, k)])) with (cur := Some x) as (T' & E & Hr' & Hd');
      [by rewrite <- app_assoc|done|]. exists T'. split; [exact E|]. rewrite <- app_assoc in Hr'. done.
Qed.

(** ** Histories of operations *)
Inductive tree_op := TInsert (x : loc) (key : K) | TRemove (x : loc).

Definition tree_step T (o : tree_op) : res (ds_tree K) :=
  match o with TInsert x key => ds_tree_insert T x key | TRemove x => ds_tree_remove T x end.

(** The same operation on a sorted list; [None] outside the contract: an element is
    inserted once, and only an inserted one is removed. *)
Definition list_step (l : list (loc * K)) (o : tree_op) : option (list (loc * K)) :=
  match o with
  | TInsert x key => if decide (x ∈ l.*1) then None else Some (insert_item x key l)
  | TRemove x => if decide (x ∈ l.*1) then Some (without x l) else None
  end.

Fixpoint tree_run T (os : list tree_op) : res (ds_tree K) :=
  match os with [] => Ok T | o :: os => T ← tree_step T o; tree_run T os end.
Fixpoint list_run (l : list (loc * K)) (os : list tree_op) : option (list (loc * K)) :=
  match os with [] => Some l | o :: os => match list_step l o with Some l => list_run l os | None => None end end.

Lemma tree_step_ok T l o l' :
  rbtree T l -> (forall x key, o = TInsert x key -> x ∈ dom (ot_nodes T)) -> list_step l o = Some l' ->
  exists T', tree_step T o = Ok T' /\ rbtree T' l' /\ dom (ot_nodes T') = dom (ot_nodes T).
Proof.
  intros Hr Ha Hs. destruct o as [x key|x]; cbn [list_step tree_step] in *; case_decide as Hx; try done;
    injection Hs as <-.
  - destruct (tree_insert_ok T l x key Hr (Ha _ _ eq_refl) Hx) as (T' & ? & ? & _ & ?). by exists T'.
  - destruct (tree_remove_ok T l x Hr Hx) as (T' & ? & ? & _ & ?). by exists T'.
Qed.
End Walk.
Arguments tree_op K : clear implicits.

Section Claims.
Context {K : Type} `{KeyOrder K}.
Implicit Types (T : ds_tree K) (t : tree K) (l : list (loc * K)).

(** C12: The tree is a faithful sorted list.  Any sequence of insertions and
    removals that respects the contract runs without following a NULL or stale
    pointer and ends with a balanced red-black tree holding exactly the elements of
    the same operations on a sorted list: a new element stands before those with a
    key not below its own, and [ds_tree_foreach] visits the elements in that order. *)
Theorem tree_refines T l os l' :
  rbtree T l -> (forall x key, TInsert x key ∈ os -> x ∈ dom (ot_nodes T)) -> list_run l os = Some l' ->
  exists T', tree_run T os = Ok T' /\ rbtree T' l' /\ ordered l' /\ ds_tree_foreach T' = Ok l'.*1.
Proof.
  revert T l. induction os as [|o os IH]; intros T l Hr Ha Hs; cbn [tree_run list_run] in *.
  - injection Hs as <-. exists T. split_and!; [done|done|by destruct Hr as (? & ? & _ & _ & ? & _)|by apply foreach_ok].
  - destruct (list_step l o) as [l1|] eqn:E1; [|done].
    destruct (tree_step_ok T l o l1 Hr) as (T1 & -> & Hr1 & Hd1); [|done|].
    { intros x key ->. eapply Ha. left. }
    cbn [mbind res_bind]. apply (IH T1 l1 Hr1); [|done]. intros x key Hx. rewrite Hd1. eapply Ha. right. exact Hx.
Qed.

Lemma find_loop_mono n m T x key r : find_loop n T x key = Ok r -> (n <= m)%nat -> find_loop m T x key = Ok r.
Proof.
  revert m x. induction n as [|n IH]; intros [|m] x E Hm; try done; [lia|]. cbn [find_loop] in *.
  destruct x as [y|]; [|done]. destruct (get T y) as [v|]; cbn [mbind res_bind] in *; [|done].
  destruct (cmp (otn_key v) key =? 0); [done|]. apply IH; [done|lia].
Qed.

(** The round of a search that follows the last node sees NULL: a search that finds
    something needs one round less. *)
Lemma find_loop_hit n T par t key x :
  tcells (ot_nodes T) par t -> (height t <= n)%nat -> find_loop (S n) T (ptr t) key = Ok (Some x) ->
  find_loop n T (ptr t) key = Ok (Some x).
Proof.
  revert n par. induction t as [|c l IHl y k r IHr]; intros n par Ht Hn E; [done|].
  cbn [tcells height] in *. destruct Ht as (Hy & Hl & Hr). destruct n as [|n]; [lia|].
  change (find_loop (S (S n)) T (ptr (Node c l y k r)) key) with
    (v ← get T y; if cmp (otn_key v) key =? 0 then Ok (Some y)
     else find_loop (S n) T (otn_child v (cmp (otn_key v) key <? 0)) key) in E.
  cbn [find_loop ptr] in E |- *. rewrite (tget_ok _ _ _ Hy) in *. cbn [mbind res_bind otn_key] in *.
  destruct (cmp k key =? 0); [done|].
  destruct (cmp k key <? 0); cbn [otn_child otn_child0 otn_child1] in *.
  - apply (IHr n (Some y) Hr); [lia|exact E].
  - apply (IHl n (Some y) Hl); [lia|exact E].
Qed.

(** C36: Lookup is correct and logarithmic.  In a balanced tree of [n] elements, whose
    comparison orders the keys, [ds_tree_find] looks at at most 2 log2 (n + 1) nodes (log2
    rounded down): each round of its loop looks at one node or ends it at NULL; a search
    that finds something takes at most 2 log2 (n + 1) rounds, and one that does not takes
    at most one more, which sees NULL.  It returns an element whose key compares equal,
    and NULL only when there is none. *)
Theorem find_logarithmic T l key :
  rbtree T l ->
  exists r, find_loop (S (2 * Nat.log2 (length l + 1))) T (ot_root T) key = Ok r /\
    (r <> None -> find_loop (2 * Nat.log2 (length l + 1)) T (ot_root T) key = Ok r) /\
    ds_tree_find T key = Ok r /\ found key l r.
Proof.
  intros (t & n & Hr & <- & Ho & Hred & Hb). pose proof (height_log _ _ Hb Hred) as Hh.
  pose proof (height_locs t) as Hl. pose proof (rep_size _ _ Hr) as Hsz.
  unfold ds_tree_find. rewrite (rp_root _ _ _ Hr). cbn [rootp].
  destruct (find_loop_ok (S (height t)) T None t key (rp_tree _ _ _ Hr) Ho ltac:(lia)) as (r & E & Hf).
  exists r. split_and!; [| | |done].
  - eapply find_loop_mono; [exact E|lia].
  - intros Hn. destruct r as [x|]; [|done]. apply (find_loop_mono (height t)); [|lia].
    apply (find_loop_hit _ _ None); [apply (rp_tree _ _ _ Hr)|lia|exact E].
  - eapply find_loop_mono; [exact E|unfold fuel; lia].
Qed.

(** The health check decides balance.  On a store whose links form a tree,
    [ds_tree_check] returns the black height exactly when the root is not red, no
    red node has a red child and every path has as many black nodes, and -1
    otherwise. *)
Theorem check_decides_balance T t :
  rep T [] t ->
  exists z, ds_tree_check T = Ok z /\
    ((0 <= z /\ is_red t = false /\ bal t (Z.to_nat z)) \/
     (z = -1 /\ forall h, is_red t = false -> ~ bal t h)).
Proof.
  intros Hr. unfold ds_tree_check. rewrite (rp_root _ _ _ Hr). cbn [rootp]. destruct t as [|c l x k r]; cbn [ptr].
  - exists 0. split; [done|]. by left.
  - change (OTN_IS_RED T (Some x)) with (OTN_IS_RED T (ptr (Node c l x k r))). rewrite (rep_red _ _ _ Hr).
    cbn [mbind res_bind]. destruct (is_red (Node c l x k r)).
    + exists (-1). split; [done|]. by right.
    + destruct (check_r_ok (fuel T) T None c l x k r (rp_tree _ _ _ Hr)) as (z & E & [[-> Hn]|(h & -> & Hh)]).
      { pose proof (rep_size _ _ Hr). unfold fuel. lia. }
      * exists (-1). split; [done|]. right. by split.
      * exists (Z.of_nat h). split; [done|]. left. rewrite Nat2Z.id. split_and!; [lia|done..].
Qed.

(** C38: An iterator that removes elements as it goes visits every element once, in
    key order, although each removal rebalances the tree under it, and leaves the
    tree without the removed ones; its own removals never trip the iterator's
    check. *)
Theorem tree_iteration_with_removal T l p :
  rbtree T l ->
  exists T', ds_tree_foreach_iter p T = Ok (l.*1, T') /\ rbtree T' (filter (fun a => p a.1 = false) l).
Proof.
  intros Hr. unfold ds_tree_foreach_iter. rewrite (tree_first_ok _ _ Hr). cbn [mbind res_bind].
  destruct (titer_loop_ok (fuel T) p T [] l Hr) as (T' & E & Hr' & _).
  - unfold fuel. pose proof (rbtree_size _ _ Hr). lia.
  - by exists T'.
Qed.

(** Elements before and after one, and at the ends. *)
Lemma tree_neighbours T l1 x k l2 :
  rbtree T (l1 ++ (x, k) :: l2) ->
  ds_tree_next T x = Ok (fst <$> head l2) /\ ds_tree_prev T x = Ok (fst <$> last l1) /\
  ds_tree_head T = Ok (fst <$> head (l1 ++ (x, k) :: l2)) /\ ds_tree_tail T = Ok (fst <$> last (l1 ++ (x, k) :: l2)).
Proof.
  intros Hr. split_and!; [by eapply tree_next_ok|by eapply tree_prev_ok|by apply tree_min_ok|by apply tree_max_ok].
Qed.
End Claims.

(** ** Instances *)
Section Samples.
Local Open Scope positive_scope.

(** Three elements under 32-bit keys, the middle one on top. *)
Definition sample : ds_tree Z :=
  mk_tree (Some 2) 0
    (<[1 := mk_tnode 10%Z Red (Some 2) None None]>
    (<[2 := mk_tnode 20%Z Black None (Some 1) (Some 3)]>
    (<[3 := mk_tnode 30%Z Red (Some 2) None None]> (<[4 := mk_tnode 0%Z Black None None None]> ∅)))).

Definition sample_items : list (loc * Z) := [(1, 10%Z); (2, 20%Z); (3, 30%Z)].

Definition sample_tree : tree Z := Node Black (Node Red Leaf 1 10%Z Leaf) 2 20%Z (Node Red Leaf 3 30%Z Leaf).

Lemma sample_rep : rep sample [] sample_tree.
Proof. split; [done|by vm_compute|done|]. cbn. apply (bool_decide_unpack _). vm_compute. exact I. Qed.

Lemma sample_ok : rbtree sample sample_items.
Proof.
  exists sample_tree, 1%nat. split_and!; [exact sample_rep|done| |done|done].
  repeat constructor; vm_compute; discriminate.
Qed.

Lemma tree_refines_witness :
  exists T', tree_run sample [TInsert 4 20%Z; TRemove 2; TRemove 1] = Ok T' /\
    rbtree T' [(4, 20%Z); (3, 30%Z)] /\ ordered [(4, 20%Z); (3, 30%Z)] /\ ds_tree_foreach T' = Ok [4; 3].
Proof.
  apply (tree_refines sample sample_items [TInsert 4 20%Z; TRemove 2; TRemove 1] [(4, 20%Z); (3, 30%Z)]).
  - exact sample_ok.
  - intros x key Hx. assert (x = 4) as -> by set_solver. apply elem_of_dom. by eexists.
  - vm_compute. reflexivity.
Defined.

Lemma find_logarithmic_witness :
  exists r, find_loop 5 sample (Some 2) 30%Z = Ok r /\
    (r <> None -> find_loop 4 sample (Some 2) 30%Z = Ok r) /\ ds_tree_find sample 30%Z = Ok r /\
    found 30%Z sample_items r.
Proof. exact (find_logarithmic sample sample_items 30%Z sample_ok). Defined.

Lemma check_decides_balance_witness :
  exists z, ds_tree_check sample = Ok z /\
    (((0 <= z)%Z /\ is_red sample_tree = false /\ bal sample_tree (Z.to_nat z)) \/
     (z = (-1)%Z /\ forall h, is_red sample_tree = false -> ~ bal sample_tree h)).
Proof. exact (check_decides_balance sample sample_tree sample_rep). Defined.

Lemma tree_iteration_with_removal_witness :
  exists T', ds_tree_foreach_iter (fun x => (x <=? 2)%positive) sample = Ok ([1; 2; 3], T') /\
    rbtree T' [(3, 30%Z)].
Proof.
  exact (tree_iteration_with_removal sample sample_items (fun x => (x <=? 2)%positive) sample_ok).
Defined.
End Samples.

(** Pointers 4 GiB apart compare equal, and pointers 2 GiB apart are each below the
    other: [ds_void_cmp] is not an order on 64-bit pointers. *)
Lemma ds_void_cmp_not_order :
  ds_void_cmp (2 ^ 32) 0 = 0 /\ ds_void_cmp (2 ^ 31) 0 < 0 /\ ds_void_cmp 0 (2 ^ 31) < 0.
Proof. by vm_compute. Qed.

(** [ds_int_cmp] orders keys whose difference fits an [int], not all of them. *)
Lemma ds_int_cmp_wraps :
  (forall a b, - 2 ^ 31 <= a - b < 2 ^ 31 -> ds_int_cmp a b = a - b) /\ 0 < ds_int_cmp (- 2 ^ 31) 1.
Proof.
  split; [|by vm_compute]. intros a b Hab. unfold ds_int_cmp, i32. rewrite Z.mod_small by lia. lia.
Qed.
