(* ===== verification/DsTreeApi.v ===== *)
(** * DsTreeApi: what the red-black tree promises its clients

    An interface class with the operations of [lib/ds/inc/ds_tree.h] that clients call and
    the memory of their elements, a class of laws in terms of sorted lists, and
    the proof that the pointer model of [DsTree] obeys them.  Clients are verified
    against the laws and run on the implementation. *)
From stdpp Require Import sorting.
From S2P Require Import Prelude DsTree DsTreeRep DsTreeInv DsTreeInsert DsTreeRemove DsTreeWalk.
Open Scope Z_scope.

(** The operations.  Elements embed their tree node, so that freeing an element takes
    its node away and a new element brings one. *)
Class SortedTree (K : Type) `{KeyCmp K} := {
  st_tree : Type;
  st_iter : Type;
  st_empty : st_tree;
  st_find : st_tree -> K -> res (option loc);
  st_insert : st_tree -> loc -> K -> res st_tree;
  st_remove : st_tree -> loc -> res st_tree;
  st_foreach : st_tree -> res (list loc);
  st_ifirst : st_tree -> res (option loc * st_iter);
  st_inext : st_tree -> st_iter -> res (option loc * st_iter);
  st_iremove : st_tree -> st_iter -> res (st_tree * st_iter);
  st_alloc : st_tree -> loc -> K -> st_tree;
  st_free : st_tree -> loc -> st_tree
}.

(** The laws.  [st_items T A l]: the allocated elements are [A] and the tree holds [l] in
    this order.  [st_at T it cur l]: the iterator stands on [cur] and has [l]
    before it. *)
Class SortedTreeLaws (K : Type) `{KeyOrder K, !SortedTree K} := {
  st_items : st_tree -> gset loc -> list (loc * K) -> Prop;
  st_at : st_tree -> st_iter -> option loc -> list (loc * K) -> Prop;
  items_empty : st_items st_empty ∅ [];
  items_nodup T A l : st_items T A l -> NoDup l.*1;
  items_alloc T A l x : st_items T A l -> x ∈ l.*1 -> x ∈ A;
  find_law T A l key : st_items T A l -> exists r, st_find T key = Ok r /\ found key l r;
  insert_law T A l x key : st_items T A l -> x ∈ A -> x ∉ l.*1 ->
    exists T', st_insert T x key = Ok T' /\ st_items T' A (insert_item x key l);
  remove_law T A l x : st_items T A l -> x ∈ l.*1 -> exists T', st_remove T x = Ok T' /\ st_items T' A (without x l);
  foreach_law T A l : st_items T A l -> st_foreach T = Ok l.*1;
  ifirst_law T A l : st_items T A l ->
    exists it, st_ifirst T = Ok (fst <$> head l, it) /\ st_at T it (fst <$> head l) (tail l);
  inext_law T A l1 l2 it cur : st_items T A (l1 ++ l2) -> st_at T it cur l2 ->
    exists it', st_inext T it = Ok (fst <$> head l2, it') /\ st_at T it' (fst <$> head l2) (tail l2);
  iremove_law T A l1 x k l2 it : st_items T A (l1 ++ (x, k) :: l2) -> st_at T it (Some x) l2 ->
    exists T' it', st_iremove T it = Ok (T', it') /\ st_items T' A (l1 ++ l2) /\ st_at T' it' None l2;
  alloc_law T A l x key : st_items T A l -> x ∉ A -> st_items (st_alloc T x key) ({[x]} ∪ A) l;
  free_law T A l x : st_items T A l -> x ∉ l.*1 -> st_items (st_free T x) (A ∖ {[x]}) l;
  free_at T it cur l x : st_at T it cur l -> st_at (st_free T x) it cur l
}.

(** ** The implementation *)
Section Impl.
Context {K : Type} `{KeyOrder K}.

(** [DS_ITER_ERROR] trips an assertion before a client sees it. *)
Definition elem_of_res (r : titer_res) : option loc := match r with TElem x => Some x | _ => None end.

#[export] Instance ds_tree_api : SortedTree K := {|
  st_tree := ds_tree K;
  st_iter := ds_tree_iter;
  st_empty := __ds_tree_init ∅;
  st_find := ds_tree_find;
  st_insert := ds_tree_insert;
  st_remove := ds_tree_remove;
  st_foreach := ds_tree_foreach;
  st_ifirst T := '(r, it) ← ds_tree_ifirst T; Ok (elem_of_res r, it);
  st_inext T it := '(r, it) ← ds_tree_inext T it; Ok (elem_of_res r, it);
  st_iremove T it := '(_, T, it) ← ds_tree_iremove T it; Ok (T, it);
  st_alloc T x key := set_tnodes (<[x := mk_tnode key Red None None None]> (ot_nodes T)) T;
  st_free T x := set_tnodes (delete x (ot_nodes T)) T
|}.

(** Memory that the tree does not use may come and go. *)
Lemma tcells_delete (M : gmap loc (ds_tree_node K)) par t x : x ∉ locs t -> tcells M par t -> tcells (delete x M) par t.
Proof.
  revert par. induction t as [|c l IHl y k r IHr]; intros par Hx; [done|]. cbn [tcells locs] in *.
  intros (Hy & Hl & Hr). rewrite lookup_delete_ne by set_solver. split_and!; [done|apply IHl; set_solver|apply IHr; set_solver].
Qed.

Lemma rbtree_memory (T : ds_tree K) M l :
  rbtree T l -> (forall par t, items t = l -> tcells (ot_nodes T) par t -> tcells M par t) -> rbtree (set_tnodes M T) l.
Proof.
  intros (t & n & [R1 R2 R3 R4] & Hi & Ho & Hred & Hb) HM. exists t, n. split_and!; try done. split; cbn [set_tnodes ot_nodes ot_root]; try done.
  by apply HM.
Qed.

Lemma ds_find_ok (T : ds_tree K) l key : rbtree T l -> exists r, ds_tree_find T key = Ok r /\ found key l r.
Proof.
  intros (t & n & Hr & <- & Ho & _ & _). unfold ds_tree_find. rewrite (rp_root _ _ _ Hr). cbn [rootp].
  apply (find_loop_ok (fuel T) T None t key (rp_tree _ _ _ Hr) Ho). pose proof (height_locs t). pose proof (rep_size _ _ Hr). unfold fuel. lia.
Qed.

Lemma ds_inext_ok (T : ds_tree K) l1 l2 cur : rbtree T (l1 ++ l2) ->
  ds_tree_inext T (mk_titer cur (edge false l2) (ot_ndel T)) =
    Ok (match l2 with [] => TNull | (x, _) :: _ => TElem x end, mk_titer (edge false l2) (edge false (tail l2)) (ot_ndel T)).
Proof.
  intros Hr. unfold ds_tree_inext, ds_tree_inext_err. cbn [oti_ndel oti_next]. rewrite Z.eqb_refl. cbn [negb].
  destruct l2 as [|[y ky] l2]; unfold edge in *; cbn [head fmap option_fmap option_map fst tail]; [done|].
  pose proof (tree_next_ok T l1 y ky l2 Hr) as Hnx. unfold ds_tree_next, edge in Hnx. by rewrite Hnx.
Qed.

(** The tree obeys the laws of the interface. *)
#[export] Instance ds_tree_laws : SortedTreeLaws K.
Proof.
  refine {|
    st_items := fun (T : st_tree) A l => rbtree (T : ds_tree K) l /\ dom (ot_nodes (T : ds_tree K)) = A;
    st_at := fun (T : st_tree) it cur l => it = mk_titer cur (edge false l) (ot_ndel (T : ds_tree K)) |};
    cbn [st_tree st_iter st_empty st_find st_insert st_remove st_foreach st_ifirst st_inext st_iremove st_alloc st_free ds_tree_api].
  - split; [|cbn; apply dom_empty_L]. exists Leaf, 0%nat. split_and!; try done; [|constructor]. split; try done. cbn. constructor.
  - intros T A l [Hr _]. by eapply rbtree_nodup.
  - intros T A l x [(t & n & Hr & <- & _) <-] Hx. rewrite items_locs in Hx. by eapply rep_locs_dom.
  - intros T A l key [Hr _]. by apply ds_find_ok.
  - intros T A l x key [Hr <-] Hx Hn. destruct (tree_insert_ok T l x key Hr Hx Hn) as (T' & ? & ? & _ & ?). by exists T'.
  - intros T A l x [Hr <-] Hx. destruct (tree_remove_ok T l x Hr Hx) as (T' & ? & ? & _ & ?). by exists T'.
  - intros T A l [Hr _]. by apply foreach_ok.
  - intros T A l [Hr _]. rewrite (tree_first_ok _ _ Hr). cbn [mbind res_bind]. eexists. split; [|done]. by destruct l as [|[x k] l].
  - intros T A l1 l2 it cur [Hr _] ->. rewrite (ds_inext_ok _ l1 l2 cur Hr). cbn [mbind res_bind]. eexists. split; [|done]. by destruct l2 as [|[x k] l2].
  - intros T A l1 x k l2 it [Hr <-] ->. unfold ds_tree_iremove, ds_tree_iremove_err. cbn [oti_ndel oti_curr oti_next]. rewrite Z.eqb_refl. cbn [negb].
    destruct (tree_remove_ok T (l1 ++ (x, k) :: l2) x Hr) as (T1 & -> & Hr1 & Hn1 & Hd1); [rewrite fmap_app, fmap_cons; set_solver +|].
    rewrite without_at in Hr1 by exact (rbtree_nodup _ _ Hr). cbn [mbind res_bind]. do 2 eexists. split; [done|]. by rewrite Hn1.
  - intros T A l x key [Hr <-] Hx. split; [|cbn; by rewrite dom_insert_L]. apply rbtree_memory; [done|]. intros par t Hi Ht.
    apply tcells_insert; [|done]. rewrite <- items_locs, Hi. intros Hin. apply Hx. destruct Hr as (t' & n & Hr & <- & _). rewrite items_locs in Hin. by eapply rep_locs_dom.
  - intros T A l x [Hr <-] Hx. split; [|cbn; by rewrite dom_delete_L]. apply rbtree_memory; [done|]. intros par t Hi Ht.
    apply tcells_delete; [|done]. by rewrite <- items_locs, Hi.
  - by intros T it cur l x ->.
Defined.
End Impl.
