(* ===== verification/Synclist.v ===== *)
(** * Synclist: lists synchronised with an outside state

    Models [lib/synclist/src/synclist.c], a client of the red-black tree: a cycle of
    [synclist_begin], any number of [synclist_add] and [synclist_end] makes the list
    hold the elements that were added since the beginning, and the update function
    [sl_fn] decides what becomes of each.  The list works on any implementation of the
    tree's interface ([DsTreeApi]).  [sl_fn] is a parameter: it maps the state of its
    owner, the current element and the new one to its result together with the
    elements it allocated and freed. *)
From stdpp Require Import sorting.
From S2P Require Import Prelude DsTree DsTreeInv DsTreeWalk DsTreeApi.
Open Scope Z_scope.

Section Synclist.
Context {K : Type} `{KO : KeyOrder K, !SortedTree K}.
Context {C : Type}.

(** An element and the key it carries. *)
Abbreviation elem := (loc * K)%type.

(** What a call of [sl_fn] does. *)
Record fn_res := mk_fn_res { fr_state : C; fr_ret : option elem; fr_alloc : list elem; fr_free : list loc }.
Definition synclist_fn_t := C -> option loc -> option elem -> fn_res.

(** [struct synclist]; [sl_active] is the flag in each allocated element. *)
Record synclist := mk_synclist { sl_tree : st_tree; sl_active : gmap loc bool; sl_client : C }.

Definition set_sl_tree (T : st_tree) (sl : synclist) : synclist := mk_synclist T (sl_active sl) (sl_client sl).
Definition set_active (x : loc) (b : bool) (sl : synclist) : res synclist :=
  _ ← deref (sl_active sl !! x); Ok (mk_synclist (sl_tree sl) (<[x := b]> (sl_active sl)) (sl_client sl)).
Definition get_active (x : loc) (sl : synclist) : res bool := deref (sl_active sl !! x).

Definition __synclist_init (s : C) : synclist := mk_synclist st_empty ∅ s.

Section Ops.
Variable sl_fn : synclist_fn_t.

Definition mem_alloc (sl : synclist) (e : elem) : synclist :=
  mk_synclist (st_alloc (sl_tree sl) e.1 e.2) (<[e.1 := false]> (sl_active sl)) (sl_client sl).
Definition mem_free (sl : synclist) (x : loc) : synclist :=
  mk_synclist (st_free (sl_tree sl) x) (delete x (sl_active sl)) (sl_client sl).

(** [list->sl_fn(list, pold, pnew)] *)
Definition call (sl : synclist) (pold : option loc) (pnew : option elem) : synclist * option elem :=
  let r := sl_fn (sl_client sl) pold pnew in
  let sl := mk_synclist (sl_tree sl) (sl_active sl) (fr_state r) in
  let sl := foldl mem_alloc sl (fr_alloc r) in
  (foldl mem_free sl (fr_free r), fr_ret r).

Definition synclist_add (sl : synclist) (pnew : elem) : res (synclist * option loc) :=
  pold ← st_find (sl_tree sl) pnew.2;
  let '(sl, pcur) := call sl pold (Some pnew) in
  match pcur, pold with
  | Some (c, k), None =>
      T ← st_insert (sl_tree sl) c k;
      sl ← set_active c true (set_sl_tree T sl);
      Ok (sl, Some c)
  | Some (c, k), Some o =>
      if bool_decide (c = o) then sl ← set_active c true sl; Ok (sl, Some c)
      else
        let '(sl, _) := call sl (Some o) None in
        T ← st_remove (sl_tree sl) o;
        let '(sl, pcur) := call (set_sl_tree T sl) None (Some (c, k)) in
        match pcur with
        | Some (c, k) =>
            T ← st_insert (sl_tree sl) c k;
            sl ← set_active c true (set_sl_tree T sl);
            Ok (sl, Some c)
        | None => Err FDangling
        end
  | None, Some o =>
      T ← st_remove (sl_tree sl) o;
      let '(sl, _) := call (set_sl_tree T sl) (Some o) None in
      Ok (sl, None)
  | None, None => Ok (sl, None)
  end.

Definition synclist_del (sl : synclist) (key : K) : res synclist :=
  obj ← st_find (sl_tree sl) key;
  match obj with
  | None => Ok sl
  | Some o =>
      T ← st_remove (sl_tree sl) o;
      let '(sl, _) := call (set_sl_tree T sl) (Some o) None in
      Ok sl
  end.

Fixpoint begin_loop (sl : synclist) (xs : list loc) : res synclist :=
  match xs with [] => Ok sl | x :: xs => sl ← set_active x false sl; begin_loop sl xs end.
Definition synclist_begin (sl : synclist) : res synclist := xs ← st_foreach (sl_tree sl); begin_loop sl xs.

(** The body of [ds_tree_foreach_iter] and the step to the next element; the fuel bounds
    the number of elements. *)
Fixpoint end_loop (n : nat) (sl : synclist) (cur : option loc) (it : st_iter) : res synclist :=
  match n with
  | O => Err FFuel
  | S n =>
      match cur with
      | None => Ok sl
      | Some x =>
          active ← get_active x sl;
          if (active : bool) then '(cur, it) ← st_inext (sl_tree sl) it; end_loop n sl cur it else
          '(T, it) ← st_iremove (sl_tree sl) it;
          let '(sl, _) := call (set_sl_tree T sl) (Some x) None in
          '(cur, it) ← st_inext (sl_tree sl) it;
          end_loop n sl cur it
      end
  end.
Definition synclist_end (sl : synclist) : res synclist :=
  '(cur, it) ← st_ifirst (sl_tree sl);
  end_loop (S (size (sl_active sl))) sl cur it.

(** ** A synchronisation cycle *)
Fixpoint adds (sl : synclist) (es : list elem) : res (synclist * list (option loc)) :=
  match es with
  | [] => Ok (sl, [])
  | e :: es => '(sl, r) ← synclist_add sl e; '(sl, rs) ← adds sl es; Ok (sl, r :: rs)
  end.
Definition cycle (sl : synclist) (es : list elem) : res (synclist * list (option loc)) :=
  sl ← synclist_begin sl;
  '(sl, rs) ← adds sl es;
  sl ← synclist_end sl;
  Ok (sl, rs).

(** An update function that keeps to the rules: it hands in a new element that carries the
    key, updates an element in place or asks for its removal, and frees an
    element only when it is told that it left the list.  [inv] ties its state to
    the allocated elements. *)
Record fn_ok (inv : C -> gset loc -> Prop) : Prop := {
  fn_new s A p k : inv s A -> let r := sl_fn s None (Some (p, k)) in
    fr_free r = [] /\ NoDup (fr_alloc r).*1 /\ (forall x, x ∈ (fr_alloc r).*1 -> x ∉ A) /\
    inv (fr_state r) (list_to_set (fr_alloc r).*1 ∪ A) /\
    match fr_ret r with None => True | Some (c, k') => c ∈ (fr_alloc r).*1 /\ cmp k' k = 0 end;
  fn_upd s A o p k : inv s A -> o ∈ A -> let r := sl_fn s (Some o) (Some (p, k)) in
    fr_free r = [] /\ fr_alloc r = [] /\ inv (fr_state r) A /\
    match fr_ret r with None => True | Some (c, _) => c = o end;
  fn_del s A o : inv s A -> o ∈ A -> let r := sl_fn s (Some o) None in
    fr_alloc r = [] /\ (fr_free r = [] \/ fr_free r = [o]) /\ inv (fr_state r) (A ∖ list_to_set (fr_free r))
}.

(** The elements a cycle keeps: those of the last addition with their key. *)
Fixpoint kept (es : list (elem * option loc)) (x : loc) : Prop :=
  match es with
  | [] => False
  | (e, r) :: es => kept es x \/ (r = Some x /\ Forall (fun e' => cmp e.2 e'.1.2 <> 0) es)
  end.

Context `{SL : !SortedTreeLaws K}.
Context (inv : C -> gset loc -> Prop) (Hfn : fn_ok inv).

(** No two elements carry equal keys. *)
Definition distinct (l : list elem) : Prop := forall x k y k', (x, k) ∈ l -> (y, k') ∈ l -> cmp k k' = 0 -> x = y.

(** The list [l] in the memory [A]. *)
Record list_ok (sl : synclist) (A : gset loc) (l : list elem) : Prop := {
  lo_items : st_items (sl_tree sl) A l;
  lo_active : dom (sl_active sl) = A;
  lo_inv : inv (sl_client sl) A;
  lo_distinct : distinct l
}.

Definition act (sl : synclist) (l : list elem) (x : loc) (k : K) : Prop := (x, k) ∈ l /\ sl_active sl !! x = Some true.

(** *** Keys *)
Lemma cmp_sym (a b : K) : cmp a b = 0 -> cmp b a = 0.
Proof. intros E. pose proof (cmp_anti a b). pose proof (cmp_anti b a). lia. Qed.
Lemma cmp_eq_trans (a b c : K) : cmp a b = 0 -> cmp b c = 0 -> cmp a c = 0.
Proof.
  intros E1 E2. pose proof (cmp_sym _ _ E1). pose proof (cmp_sym _ _ E2).
  assert (cmp a c <= 0) by (apply (cmp_trans a b c); lia). assert (cmp c a <= 0) by (apply (cmp_trans c b a); lia).
  pose proof (cmp_anti a c). pose proof (cmp_anti c a). lia.
Qed.
Lemma cmp_eq_ne (a b c : K) : cmp a b = 0 -> cmp a c <> 0 <-> cmp b c <> 0.
Proof. intros E. split; intros Hn E2; apply Hn; [by apply (cmp_eq_trans a b c)|apply (cmp_eq_trans b a c); [by apply cmp_sym|done]]. Qed.

Lemma elem_insert_item x k (l : list elem) e : e ∈ insert_item x k l <-> e = (x, k) \/ e ∈ l.
Proof.
  induction l as [|[y ky] l IH]; cbn [insert_item]; [set_solver|]. destruct (go_dir ky k); [|set_solver]. rewrite !elem_of_cons, IH. tauto.
Qed.
Lemma elem_without x (l : list elem) e : e ∈ without x l <-> e.1 <> x /\ e ∈ l.
Proof. unfold without. rewrite list_elem_of_filter. done. Qed.
Lemma in_fst (l : list elem) x : x ∈ l.*1 <-> exists k, (x, k) ∈ l.
Proof.
  rewrite list_elem_of_fmap. split; [intros ([y k] & -> & ?); by exists k|intros (k & ?); by exists (x, k)].
Qed.
Lemma same_key (sl : synclist) A l x k k' : list_ok sl A l -> (x, k) ∈ l -> (x, k') ∈ l -> k = k'.
Proof.
  intros Hl H1 H2. pose proof (items_nodup _ _ _ (lo_items _ _ _ Hl)) as Hn. apply list_elem_of_lookup in H1 as [i Hi], H2 as [j Hj].
  assert (i = j) as <-; [|congruence]. eapply NoDup_lookup; [exact Hn| |]; by rewrite list_lookup_fmap, ?Hi, ?Hj.
Qed.

(** *** Calls of the update function *)
Lemma foldl_alloc sl A l es :
  st_items (sl_tree sl) A l -> dom (sl_active sl) = A -> NoDup es.*1 -> (forall x, x ∈ es.*1 -> x ∉ A) ->
  let sl' := foldl mem_alloc sl es in
  st_items (sl_tree sl') (list_to_set es.*1 ∪ A) l /\ dom (sl_active sl') = list_to_set es.*1 ∪ A /\ sl_client sl' = sl_client sl /\
  (forall x, x ∈ A -> sl_active sl' !! x = sl_active sl !! x) /\ (forall x, x ∈ es.*1 -> is_Some (sl_active sl' !! x)).
Proof.
  revert sl A. induction es as [|[x k] es IH]; intros sl A Hi Hd Hn Hf; cbn [foldl]; cbn zeta.
  { assert (E0 : list_to_set (C := gset loc) ([] : list elem).*1 ∪ A = A) by set_solver +. rewrite E0. split_and!; try done. intros x Hx. by apply elem_of_nil in Hx. }
  rewrite fmap_cons in *. apply NoDup_cons in Hn as [Hx Hn]. cbn [fst] in *.
  assert (HxA : x ∉ A) by (apply Hf; left).
  destruct (IH (mem_alloc sl (x, k)) ({[x]} ∪ A)) as (H1 & H2 & H3 & H4 & H5).
  - by apply alloc_law.
  - cbn. by rewrite dom_insert_L, Hd.
  - done.
  - intros y Hy [->%elem_of_singleton|Hy']%elem_of_union; [done|]. by apply (Hf y); [right|].
  - assert (ES : list_to_set (x :: es.*1) ∪ A =@{gset loc} list_to_set es.*1 ∪ ({[x]} ∪ A)) by set_solver.
    rewrite ES. split_and!; try done.
    + intros y Hy. rewrite H4 by set_solver. cbn. by rewrite lookup_insert_ne by (intros ->; done).
    + intros y [->|Hy]%elem_of_cons; [|by apply H5]. rewrite H4 by set_solver. cbn. by rewrite lookup_insert_eq.
Qed.

Lemma call_new sl A l p k sl' r :
  list_ok sl A l -> call sl None (Some (p, k)) = (sl', r) ->
  exists A', list_ok sl' A' l /\ (forall x, x ∈ A -> x ∈ A' /\ sl_active sl' !! x = sl_active sl !! x) /\
    match r with None => True | Some (c, k') => c ∈ A' /\ c ∉ A /\ cmp k' k = 0 /\ is_Some (sl_active sl' !! c) end.
Proof.
  intros [Hi Hd Hc Hu] E. destruct (fn_new _ Hfn _ _ p k Hc) as (Ef & Hn & Hf & Hinv & Hr). unfold call in E.
  destruct (sl_fn (sl_client sl) None (Some (p, k))) as [s' ret al fr]. cbn in *. subst fr. cbn in E. injection E as <- <-.
  destruct (foldl_alloc (mk_synclist (sl_tree sl) (sl_active sl) s') A l al Hi Hd Hn Hf) as (H1 & H2 & H3 & H4 & H5).
  exists (list_to_set al.*1 ∪ A). split_and!.
  - split; try done. by rewrite H3.
  - intros x Hx. split; [set_solver|by apply H4].
  - destruct ret as [[c k']|]; [|done]. destruct Hr as [Hc' Hk]. split_and!; [set_solver|by apply Hf|done|by apply H5].
Qed.

Lemma call_upd sl A l o p k sl' r :
  list_ok sl A l -> o ∈ A -> call sl (Some o) (Some (p, k)) = (sl', r) ->
  list_ok sl' A l /\ sl_active sl' = sl_active sl /\ match r with None => True | Some (c, _) => c = o end.
Proof.
  intros [Hi Hd Hc Hu] Ho E. destruct (fn_upd _ Hfn _ _ o p k Hc Ho) as (Ef & Ea & Hinv & Hr). unfold call in E.
  destruct (sl_fn (sl_client sl) (Some o) (Some (p, k))) as [s' ret al fr]. cbn in *. subst. cbn in E. injection E as <- <-. by split_and!.
Qed.

Lemma call_del sl A l o sl' r :
  list_ok sl A l -> o ∈ A -> o ∉ l.*1 -> call sl (Some o) None = (sl', r) ->
  exists A', list_ok sl' A' l /\ (forall x, x <> o -> sl_active sl' !! x = sl_active sl !! x) /\
    (size (sl_active sl') <= size (sl_active sl))%nat /\ (forall it cur l2, st_at (sl_tree sl) it cur l2 -> st_at (sl_tree sl') it cur l2).
Proof.
  intros [Hi Hd Hc Hu] Ho Hn E. destruct (fn_del _ Hfn _ _ o Hc Ho) as (Ea & Ef & Hinv). unfold call in E.
  destruct (sl_fn (sl_client sl) (Some o) None) as [s' ret al fr]. cbn in *. subst al. cbn in E. injection E as <- <-.
  destruct Ef as [-> | ->]; cbn in *.
  - exists A. assert (EA : A ∖ ∅ = A) by set_solver +. rewrite EA in Hinv. split_and!; done.
  - exists (A ∖ {[o]}). assert (EA : A ∖ ({[o]} ∪ ∅) = A ∖ {[o]}) by set_solver +. rewrite EA in Hinv. split_and!.
    + split; cbn; try done; [by apply free_law|by rewrite dom_delete_L, Hd].
    + intros x Hx. cbn. by rewrite lookup_delete_ne.
    + cbn. rewrite map_size_delete. destruct (sl_active sl !! o); cbn; lia.
    + intros it cur l2. apply free_at.
Qed.

(** *** Adding *)
Lemma distinct_without l x : distinct l -> distinct (without x l).
Proof. intros Hd a k b k' [_ Ha]%elem_without [_ Hb]%elem_without. by apply Hd. Qed.
Lemma distinct_insert l x k : distinct l -> (forall y ky, (y, ky) ∈ l -> cmp ky k <> 0) -> distinct (insert_item x k l).
Proof.
  intros Hd Hn a ka b kb [[= -> ->]|Ha]%elem_insert_item [[= -> ->]|Hb]%elem_insert_item E; [done| | |by eapply Hd].
  - by destruct (Hn _ _ Hb (cmp_sym _ _ E)).
  - by destruct (Hn _ _ Ha E).
Qed.

Lemma list_ok_tree sl A l T' l' : list_ok sl A l -> st_items T' A l' -> distinct l' -> list_ok (set_sl_tree T' sl) A l'.
Proof. intros [] ??. by split. Qed.
Lemma set_active_ok sl A l x b : list_ok sl A l -> x ∈ A ->
  exists sl', set_active x b sl = Ok sl' /\ list_ok sl' A l /\ sl_active sl' = <[x := b]> (sl_active sl).
Proof.
  intros [Hi Hd Hc Hu] Hx. unfold set_active. rewrite <- Hd in Hx. apply elem_of_dom in Hx as [v Hv]. rewrite Hv. cbn.
  eexists. split_and!; try done. split; cbn; try done. rewrite dom_insert_lookup_L; [done|by exists v].
Qed.

(** The active elements after an addition: the one it returns, and the others with
    another key. *)
Definition adds_one (sl sl' : synclist) (l l' : list elem) (key : K) (r : option loc) : Prop :=
  (forall x k, act sl' l' x k <-> (r = Some x /\ (x, k) ∈ l') \/ (act sl l x k /\ cmp k key <> 0)) /\
  (forall x, r = Some x -> exists k, (x, k) ∈ l' /\ cmp k key = 0).

Lemma add_fresh sl A l e : list_ok sl A l -> (forall y ky, (y, ky) ∈ l -> cmp ky e.2 <> 0) -> st_find (sl_tree sl) e.2 = Ok None ->
  exists sl' r A' l', synclist_add sl e = Ok (sl', r) /\ list_ok sl' A' l' /\ adds_one sl sl' l l' e.2 r.
Proof.
  intros Hl Hn Ef. unfold synclist_add. rewrite Ef. cbn [mbind res_bind]. destruct e as [p key]. cbn [snd] in *.
  destruct (call sl None (Some (p, key))) as [sl1 ret] eqn:Ec. destruct (call_new _ _ _ _ _ _ _ Hl Ec) as (A1 & Hl1 & Hold & Hr).
  assert (Hin : forall y ky, (y, ky) ∈ l -> y ∈ A).
  { intros y ky Hy. eapply items_alloc; [apply (lo_items _ _ _ Hl)|]. apply in_fst. by exists ky. }
  destruct ret as [[c k]|].
  - destruct Hr as (Hc & HcA & Hk & Hs).
    destruct (insert_law _ _ _ c k (lo_items _ _ _ Hl1) Hc) as (T & -> & HT); [by intros (ky & Hy)%in_fst; eauto|]. cbn [mbind res_bind].
    assert (Hne : forall y ky, (y, ky) ∈ l -> cmp ky k <> 0).
    { intros y ky Hy E. apply (Hn _ _ Hy). by apply (cmp_eq_trans _ k). }
    destruct (set_active_ok _ _ _ c true (list_ok_tree _ _ _ _ _ Hl1 HT (distinct_insert _ _ _ (lo_distinct _ _ _ Hl) Hne)) Hc) as (sl' & -> & Hl' & Ha).
    cbn [mbind res_bind]. do 4 eexists. split_and!; [done|exact Hl'|]. split.
    + intros x kx. unfold act. rewrite Ha, elem_insert_item. cbn [set_sl_tree sl_active]. destruct (decide (x = c)) as [->|Hx].
      * rewrite lookup_insert_eq. split; [intros [[[= ->]|Hm] _]; left; auto|intros [[_ ?]|[[Hm ?] _]]; auto].
      * rewrite lookup_insert_ne by done. split.
        { intros [[[= -> ->]|Hm] E]; [done|]. right. destruct (Hold x (Hin _ _ Hm)) as [_ <-]. by split_and!; [| |eapply Hn]. }
        { intros [[[= ->] _]|[[Hm E] _]]; [done|]. destruct (Hold x (Hin _ _ Hm)) as [_ ->]. split; [by right|done]. }
    + intros x [= <-]. exists k. split; [apply elem_insert_item; by left|done].
  - do 4 eexists. split_and!; [done|exact Hl1|]. split; [|done]. intros x kx. unfold act. split.
    + intros [Hm E]. right. destruct (Hold x (Hin _ _ Hm)) as [_ <-]. by split_and!; [| |eapply Hn].
    + intros [[? _]|[[Hm E] _]]; [done|]. by destruct (Hold x (Hin _ _ Hm)) as [_ ->].
Qed.

Lemma add_known sl A l e o ko : list_ok sl A l -> (o, ko) ∈ l -> cmp ko e.2 = 0 -> st_find (sl_tree sl) e.2 = Ok (Some o) ->
  exists sl' r A' l', synclist_add sl e = Ok (sl', r) /\ list_ok sl' A' l' /\ adds_one sl sl' l l' e.2 r.
Proof.
  intros Hl Ho Hk Ef. unfold synclist_add. rewrite Ef. cbn [mbind res_bind]. destruct e as [p key]. cbn [snd] in *.
  assert (Hol : o ∈ l.*1) by (apply in_fst; by exists ko). pose proof (items_alloc _ _ _ _ (lo_items _ _ _ Hl) Hol) as HoA.
  destruct (call sl (Some o) (Some (p, key))) as [sl1 ret] eqn:Ec. destruct (call_upd _ _ _ _ _ _ _ _ Hl HoA Ec) as (Hl1 & Ha1 & Hr).
  assert (Hne : forall x kx, (x, kx) ∈ l -> x <> o -> cmp kx key <> 0).
  { intros x kx Hx Hxo E. apply Hxo. apply (lo_distinct _ _ _ Hl _ _ _ _ Hx Ho). apply (cmp_eq_trans _ key); [done|by apply cmp_sym]. }
  destruct ret as [[c k]|].
  - subst c. rewrite bool_decide_eq_true_2 by done.
    destruct (set_active_ok _ _ _ o true Hl1 HoA) as (sl' & -> & Hl' & Ha). cbn [mbind res_bind].
    do 4 eexists. split_and!; [done|exact Hl'|]. split; [|by intros x [= <-]; exists ko].
    intros x kx. unfold act. rewrite Ha, Ha1. destruct (decide (x = o)) as [->|Hx].
    + rewrite lookup_insert_eq. split; [intros [? _]; by left|]. intros [[_ ?]|[[? _] _]]; done.
    + rewrite lookup_insert_ne by done. split; [intros [Hm E]; right; eauto|]. intros [[[= ->] _]|[? _]]; done.
  - destruct (remove_law _ _ _ o (lo_items _ _ _ Hl1) Hol) as (T & -> & HT). cbn [mbind res_bind].
    assert (Hl2 : list_ok (set_sl_tree T sl1) A (without o l)) by (eapply list_ok_tree; [done..|]; apply distinct_without, (lo_distinct _ _ _ Hl)).
    destruct (call (set_sl_tree T sl1) (Some o) None) as [sl2 ret2] eqn:Ec2.
    destruct (call_del _ _ _ _ sl2 ret2 Hl2 HoA) as (A2 & Hl3 & Hold & _); [by intros (k & [[] ?]%elem_without)%in_fst|exact Ec2|].
    do 4 eexists. split_and!; [done|exact Hl3|]. split; [|done]. intros x kx. unfold act. rewrite elem_without. cbn [fst]. split.
    + intros [[Hx Hm] E]. right. rewrite Hold in E by done. cbn [set_sl_tree sl_active] in E. rewrite Ha1 in E. eauto.
    + intros [[? _]|[[Hm E] Hkx]]; [done|]. assert (Hx : x <> o). { intros ->. apply Hkx. by rewrite (same_key _ _ _ _ _ _ Hl Hm Ho). }
      rewrite Hold by done. cbn [set_sl_tree sl_active]. by rewrite Ha1.
Qed.

Lemma sync_add_ok sl A l e : list_ok sl A l ->
  exists sl' r A' l', synclist_add sl e = Ok (sl', r) /\ list_ok sl' A' l' /\ adds_one sl sl' l l' e.2 r.
Proof.
  intros Hl. destruct (find_law _ _ _ e.2 (lo_items _ _ _ Hl)) as ([o|] & Ef & Hf); cbn [found] in Hf.
  - destruct Hf as (ko & Ho & Hk). by eapply add_known.
  - by eapply add_fresh.
Qed.

Lemma kept_iff (es : list elem) rs e r x : length es = length rs ->
  kept (zip (e :: es) (r :: rs)) x <-> kept (zip es rs) x \/ (r = Some x /\ Forall (fun e' => cmp e.2 e'.2 <> 0) es).
Proof.
  intros Hlen. cbn [zip zip_with kept].
  assert (HF : Forall (fun e' : elem * option loc => cmp e.2 e'.1.2 <> 0) (zip es rs) <-> Forall (fun e' => cmp e.2 e'.2 <> 0) es).
  { revert rs Hlen. induction es as [|e' es IH]; intros [|r' rs] Hlen; try done. cbn [zip zip_with].
    rewrite !Forall_cons. cbn [fst]. injection Hlen as Hlen. by rewrite (IH _ Hlen). }
  by rewrite HF.
Qed.

(** The active elements after a run of additions: those the run keeps, and those that were
    active before and whose key the run does not touch. *)
Lemma adds_ok es : forall sl A l, list_ok sl A l ->
  exists sl' rs A' l', adds sl es = Ok (sl', rs) /\ list_ok sl' A' l' /\ length es = length rs /\
    (forall x k, act sl' l' x k -> kept (zip es rs) x \/ (act sl l x k /\ Forall (fun e => cmp k e.2 <> 0) es)) /\
    (forall x, kept (zip es rs) x -> exists k, act sl' l' x k) /\
    (forall x k, act sl l x k -> Forall (fun e => cmp k e.2 <> 0) es -> act sl' l' x k).
Proof.
  induction es as [|e es IH]; intros sl A l Hl; cbn [adds].
  { do 4 eexists. split_and!; [done|exact Hl|done| |done|done]. intros x k Ha. right. by split; [|constructor]. }
  destruct (sync_add_ok _ _ _ e Hl) as (sl1 & r & A1 & l1 & -> & Hl1 & Ha1 & Hr). cbn [mbind res_bind].
  destruct (IH _ _ _ Hl1) as (sl2 & rs & A2 & l2 & -> & Hl2 & Hlen & Hin & Hk & Hold). cbn [mbind res_bind].
  do 4 eexists. split_and!; [done|exact Hl2|cbn; lia| | |].
  - intros x k Hx. rewrite kept_iff by done. destruct (Hin _ _ Hx) as [|[[[-> Hm]|[Ha Hne]]%Ha1 HF]]; [by left; left| |].
    + left. right. split; [done|]. destruct (Hr x eq_refl) as (k' & Hm' & E). rewrite (same_key _ _ _ _ _ _ Hl1 Hm Hm') in HF.
      eapply Forall_impl; [exact HF|]. intros e' He'. by eapply cmp_eq_ne; [apply cmp_sym, E|].
    + right. split; [done|]. by constructor.
  - intros x [Hx|[-> HF]]%kept_iff; [by apply Hk| |done]. destruct (Hr x eq_refl) as (k & Hm & E). exists k. apply Hold; [apply Ha1; by left|].
    eapply Forall_impl; [exact HF|]. intros e' He'. by eapply cmp_eq_ne.
  - intros x k Ha [Hne HF]%Forall_cons. apply Hold; [apply Ha1; by right|done].
Qed.

(** Deleting takes out the element with the key, and only that. *)
Theorem del_takes_out sl A l key : list_ok sl A l ->
  exists sl' A' l', synclist_del sl key = Ok sl' /\ list_ok sl' A' l' /\
    forall x k, ((x, k) ∈ l' <-> (x, k) ∈ l /\ cmp k key <> 0) /\ (act sl' l' x k <-> act sl l x k /\ cmp k key <> 0).
Proof.
  intros Hl. unfold synclist_del. destruct (find_law _ _ _ key (lo_items _ _ _ Hl)) as ([o|] & -> & Hf); cbn [found mbind res_bind] in *.
  - destruct Hf as (ko & Ho & Hk). assert (Hol : o ∈ l.*1) by (apply in_fst; by exists ko).
    destruct (remove_law _ _ _ o (lo_items _ _ _ Hl) Hol) as (T & -> & HT). cbn [mbind res_bind].
    assert (Hl1 : list_ok (set_sl_tree T sl) A (without o l)) by (eapply list_ok_tree; [done..|]; apply distinct_without, (lo_distinct _ _ _ Hl)).
    destruct (call (set_sl_tree T sl) (Some o) None) as [sl2 ret] eqn:Ec.
    destruct (call_del _ _ _ o sl2 ret Hl1) as (A2 & Hl2 & Hold & _); [by eapply items_alloc; [apply (lo_items _ _ _ Hl)|]|by intros (k & [[] ?]%elem_without)%in_fst|done|].
    exists sl2, A2, (without o l). split_and!; [done..|].
    assert (Hiff : forall x k, (x, k) ∈ l -> x <> o <-> cmp k key <> 0).
    { intros x k Hx. split; [|intros Hne ->; apply Hne; by rewrite (same_key _ _ _ _ _ _ Hl Hx Ho)]. intros Hxo E. apply Hxo.
      apply (lo_distinct _ _ _ Hl _ _ _ _ Hx Ho). apply (cmp_eq_trans _ key); [done|by apply cmp_sym]. }
    intros x k. unfold act. rewrite elem_without. cbn [fst]. split; [naive_solver|]. destruct (decide (x = o)) as [->|Hx].
    + split; [by intros [[[] _] _]|]. intros [[Hm _] Hne]. by apply (Hiff _ _ Hm) in Hne.
    + rewrite Hold by done. cbn [set_sl_tree sl_active]. naive_solver.
  - exists sl, A, l. split_and!; [done..|]. unfold act. naive_solver.
Qed.

(** *** The beginning and the end *)
Lemma begin_loop_ok xs : forall sl A l, list_ok sl A l -> (forall x, x ∈ xs -> x ∈ A) ->
  exists sl', begin_loop sl xs = Ok sl' /\ list_ok sl' A l /\
    (forall x, x ∈ xs \/ sl_active sl !! x <> Some true -> sl_active sl' !! x <> Some true).
Proof.
  induction xs as [|x xs IH]; intros sl A l Hl Hx; cbn [begin_loop].
  { exists sl. split_and!; [done..|]. intros x [Hi|?]; [by apply elem_of_nil in Hi|done]. }
  destruct (set_active_ok sl A l x false Hl) as (sl1 & -> & Hl1 & Ha); [apply Hx; by left|]. cbn [mbind res_bind].
  destruct (IH sl1 A l Hl1) as (sl' & -> & Hl' & Hn); [by intros y Hy; apply Hx; right|]. exists sl'. split_and!; [done..|].
  intros y Hy. apply Hn. rewrite Ha. destruct (decide (y = x)) as [->|Hne]; [right; by rewrite lookup_insert_eq|].
  rewrite lookup_insert_ne by done. destruct Hy as [[->|?]%elem_of_cons|?]; auto.
Qed.

Lemma begin_ok sl A l : list_ok sl A l ->
  exists sl', synclist_begin sl = Ok sl' /\ list_ok sl' A l /\ forall x k, ~ act sl' l x k.
Proof.
  intros Hl. unfold synclist_begin. rewrite (foreach_law _ _ _ (lo_items _ _ _ Hl)). cbn [mbind res_bind].
  destruct (begin_loop_ok l.*1 sl A l Hl) as (sl' & -> & Hl' & Hn); [intros x; apply (items_alloc _ _ _ x (lo_items _ _ _ Hl))|].
  exists sl'. split_and!; [done..|]. intros x k [Hm E]. apply (Hn x); [left; apply in_fst; by exists k|done].
Qed.

Lemma end_loop_ok n : forall sl A l1 l2 it, list_ok sl A (l1 ++ l2) -> st_at (sl_tree sl) it (fst <$> head l2) (tail l2) ->
  (forall x k, (x, k) ∈ l1 -> sl_active sl !! x = Some true) -> (length l2 < n)%nat ->
  exists sl' A' l', end_loop n sl (fst <$> head l2) it = Ok sl' /\ list_ok sl' A' l' /\
    forall x k, (x, k) ∈ l' <-> act sl (l1 ++ l2) x k.
Proof.
  induction n as [|n IH]; intros sl A l1 l2 it Hl Hat H1 Hn; [lia|]. destruct l2 as [|[x k] l2]; cbn [head fmap option_fmap option_map fst tail end_loop] in *.
  { exists sl, A, l1. rewrite app_nil_r in *. split_and!; [done..|]. intros x k. unfold act. split; [|tauto]. intros Hm. eauto. }
  assert (HxA : x ∈ A). { eapply items_alloc; [apply (lo_items _ _ _ Hl)|]. rewrite fmap_app. set_solver +. }
  unfold get_active. rewrite <- (lo_active _ _ _ Hl) in HxA. apply elem_of_dom in HxA as [b Eb]. rewrite Eb. cbn [deref mbind res_bind].
  pose proof (lo_items _ _ _ Hl) as Hi. destruct b.
  - rewrite (assoc_L (++) l1 [_] l2 : l1 ++ (x, k) :: l2 = _) in *.
    destruct (inext_law _ _ _ _ _ _ Hi Hat) as (it' & -> & Hat'). cbn [mbind res_bind].
    destruct (IH sl A (l1 ++ [(x, k)]) l2 it' Hl Hat') as (sl' & A' & l' & -> & ? & ?); [|cbn in Hn; lia|by exists sl', A', l'].
    intros y ky [?|[= -> ->]%list_elem_of_singleton]%elem_of_app; eauto.
  - destruct (iremove_law _ _ _ _ _ _ _ Hi Hat) as (T & it1 & -> & HT & Hat1). cbn [mbind res_bind].
    pose proof (items_nodup _ _ _ Hi) as Hnd. rewrite fmap_app, fmap_cons in Hnd. cbn [fst] in Hnd.
    assert (Hxl : x ∉ (l1 ++ l2).*1). { rewrite fmap_app, elem_of_app. apply NoDup_app in Hnd as (_ & Hd & [? _]%NoDup_cons). set_solver. }
    assert (Hl1 : list_ok (set_sl_tree T sl) A (l1 ++ l2)).
    { eapply list_ok_tree; [done..|]. intros a ka b kb Ha Hb. apply (lo_distinct _ _ _ Hl); set_solver. }
    destruct (call (set_sl_tree T sl) (Some x) None) as [sl1 ret] eqn:Ec.
    destruct (call_del _ _ _ x sl1 ret Hl1) as (A1 & Hl2 & Hold & _ & Hfr); [rewrite <- (lo_active _ _ _ Hl); by apply elem_of_dom_2 in Eb|done|done|].
    destruct (inext_law _ _ _ _ _ _ (lo_items _ _ _ Hl2) (Hfr _ _ _ Hat1)) as (it' & -> & Hat'). cbn [mbind res_bind].
    destruct (IH sl1 A1 l1 l2 it' Hl2 Hat') as (sl' & A' & l' & -> & ? & Hm).
    + intros y ky Hy. rewrite Hold; [by eapply H1|]. intros ->. apply Hxl, in_fst. exists ky. set_solver.
    + cbn in Hn. lia.
    + exists sl', A', l'. split_and!; [done..|]. intros y ky. rewrite Hm. unfold act. destruct (decide (y = x)) as [->|Hne].
      * split; intros [Hy E]; [|congruence]. destruct Hxl. apply in_fst. by exists ky.
      * rewrite Hold by done. cbn [set_sl_tree sl_active]. rewrite !elem_of_app, elem_of_cons. naive_solver.
Qed.

Lemma end_ok sl A l : list_ok sl A l ->
  exists sl' A' l', synclist_end sl = Ok sl' /\ list_ok sl' A' l' /\ forall x k, (x, k) ∈ l' <-> act sl l x k.
Proof.
  intros Hl. unfold synclist_end. pose proof (lo_items _ _ _ Hl) as Hi. destruct (ifirst_law _ _ _ Hi) as (it & -> & Hat). cbn [mbind res_bind].
  apply (end_loop_ok _ _ A [] l it Hl Hat); [by intros x k Hx%elem_of_nil|].
  assert (Hsub : list_to_set l.*1 ⊆ A). { intros x Hx%elem_of_list_to_set. by eapply items_alloc. }
  apply subseteq_size in Hsub. rewrite size_list_to_set, length_fmap in Hsub by exact (items_nodup _ _ _ Hi).
  rewrite <- (lo_active _ _ _ Hl), size_dom in Hsub. lia.
Qed.

(** C37: A synchronisation cycle makes the list hold exactly the elements of the cycle.
    For an update function that keeps to its rules, and a list built on any tree that
    obeys the interface, the beginning, the additions and the end run without a fault,
    the list is well formed afterwards, and it holds an element exactly if the last
    addition with its key returned it: what is not added again is gone. *)
Theorem sync_cycle sl A l es : list_ok sl A l ->
  exists sl' rs A' l', cycle sl es = Ok (sl', rs) /\ list_ok sl' A' l' /\ length es = length rs /\
    forall x, x ∈ l'.*1 <-> kept (zip es rs) x.
Proof.
  intros Hl. unfold cycle. destruct (begin_ok _ _ _ Hl) as (sl1 & -> & Hl1 & Hna). cbn [mbind res_bind].
  destruct (adds_ok es _ _ _ Hl1) as (sl2 & rs & A2 & l2 & -> & Hl2 & Hlen & Hin & Hk & _). cbn [mbind res_bind].
  destruct (end_ok _ _ _ Hl2) as (sl3 & A3 & l3 & -> & Hl3 & Hm). cbn [mbind res_bind].
  do 4 eexists. split_and!; [done|exact Hl3|done|]. intros x. rewrite in_fst. setoid_rewrite Hm. split; [|apply Hk].
  intros (k & Ha). destruct (Hin _ _ Ha) as [|[Ha1 _]]; [done|]. by destruct (Hna _ _ Ha1).
Qed.
End Ops.
End Synclist.
Arguments fn_res : clear implicits.
Arguments synclist_fn_t : clear implicits.

(** ** An update function *)
(** It allocates addresses in order, keeps known elements unless the key is 0, and frees
    what left the list; its state is the next address. *)
#[local] Instance z_key : KeyCmp Z := Z.sub.
#[local] Instance z_order : KeyOrder Z.
Proof. split; unfold cmp, z_key; lia. Qed.

Definition plain_fn : synclist_fn_t Z loc := fun s pold pnew =>
  match pold, pnew with
  | None, Some (_, k) => mk_fn_res (Pos.succ s) (Some (s, k)) [(s, k)] []
  | Some o, Some (_, k) => if k =? 0 then mk_fn_res s None [] [] else mk_fn_res s (Some (o, k)) [] []
  | Some o, None => mk_fn_res s None [] [o]
  | None, None => mk_fn_res s None [] []
  end.
Definition addr_below (s : loc) (A : gset loc) : Prop := forall x, x ∈ A -> (x < s)%positive.

Lemma plain_fn_ok : fn_ok plain_fn addr_below.
Proof.
  split.
  - intros s A p k Hs. cbn. split_and!; [done|apply NoDup_singleton| | |set_solver +|unfold cmp, z_key; lia].
    + intros x ->%list_elem_of_singleton Hx. specialize (Hs _ Hx). lia.
    + intros x [Hx|Hx]%elem_of_union; [|specialize (Hs _ Hx); lia]. apply elem_of_union in Hx as [->%elem_of_singleton|Hx]; [lia|set_solver].
  - intros s A o p k Hs Ho. cbn. by destruct (k =? 0).
  - intros s A o Hs Ho. cbn. split_and!; [done|by right|]. intros x Hx. apply Hs. set_solver.
Qed.

(** A list that holds 1, 2 and 3. *)
Definition three : res (synclist * list (option loc)) :=
  cycle plain_fn (__synclist_init (SortedTree0 := ds_tree_api) 1%positive) [(9%positive, 1); (9%positive, 2); (9%positive, 3)].

Lemma empty_ok : list_ok addr_below (__synclist_init (SortedTree0 := ds_tree_api) 1%positive) ∅ [].
Proof.
  split; [apply items_empty|done| |].
  - by intros x Hx%elem_of_empty.
  - by intros x k y k' Hx%elem_of_nil.
Qed.

(** The next cycle updates 3 twice and adds 4: 1 and 2 are gone. *)
Lemma sync_cycle_witness : exists sl rs sl2 l2,
  three = Ok (sl, rs) /\ cycle plain_fn sl [(9%positive, 3); (9%positive, 4); (9%positive, 3)] = Ok (sl2, [Some 3%positive; Some 4%positive; Some 3%positive]) /\
  st_foreach (sl_tree sl2) = Ok [3%positive; 4%positive] /\
  (forall x, x ∈ (l2 : list (loc * Z)).*1 <-> kept (zip [(9%positive, 3); (9%positive, 4); (9%positive, 3)] [Some 3%positive; Some 4%positive; Some 3%positive]) x).
Proof.
  destruct (sync_cycle plain_fn addr_below plain_fn_ok _ _ _ [(9%positive, 1); (9%positive, 2); (9%positive, 3)] empty_ok) as (sl & rs & A & l & E1 & Hl & _).
  destruct (sync_cycle plain_fn addr_below plain_fn_ok sl A l [(9%positive, 3); (9%positive, 4); (9%positive, 3)] Hl) as (sl2 & rs2 & A2 & l2 & E2 & Hl2 & _ & Hk).
  assert (E : ('(sl, _) ← three; '(sl2, rs2) ← cycle plain_fn sl [(9%positive, 3); (9%positive, 4); (9%positive, 3)]; xs ← st_foreach (sl_tree sl2); Ok (rs2, xs))
    = Ok ([Some 3%positive; Some 4%positive; Some 3%positive], [3%positive; 4%positive])) by (vm_compute; reflexivity).
  unfold three in *. rewrite E1 in E. cbn [mbind res_bind] in E. rewrite E2 in E. cbn [mbind res_bind] in E.
  rewrite (foreach_law _ _ _ (lo_items _ _ _ _ Hl2)) in E. cbn [mbind res_bind] in E. injection E as -> El.
  exists sl, rs, sl2, l2. split_and!; [done|done| |exact Hk]. rewrite (foreach_law _ _ _ (lo_items _ _ _ _ Hl2)). by rewrite El.
Defined.

(** ** Replacing an element *)
(** A function that answers an update with a new element, which the comment in
    [synclist_add] allows, and that frees what leaves the list. *)
Definition replacing_fn : synclist_fn_t Z loc := fun s pold pnew =>
  match pold, pnew with
  | Some o, Some (_, k) => mk_fn_res (Pos.succ s) (Some (s, k)) [(s, k)] []
  | None, Some (p, k) => if bool_decide (p < s)%positive then mk_fn_res s (Some (p, k)) [] [] else plain_fn s pold pnew
  | _, _ => plain_fn s pold pnew
  end.

(** The replaced element is freed before it is taken out of the tree: the removal
    follows pointers in freed memory. *)
Theorem replace_removes_freed :
  ('(sl, _) ← cycle replacing_fn (__synclist_init (SortedTree0 := ds_tree_api) 1%positive) [(9%positive, 1)];
   '(_, r) ← synclist_add replacing_fn sl (9%positive, 1); Ok r) = Err FDangling.
Proof. vm_compute. reflexivity. Qed.

(** With a function that frees nothing, the replacement goes through; but when it rejects
    the replacement with NULL, the active flag is written through the NULL. *)
Definition rejecting_fn (reject : bool) : synclist_fn_t Z loc := fun s pold pnew =>
  match pold, pnew with
  | Some o, Some (_, k) => mk_fn_res (Pos.succ s) (Some (s, k)) [(s, k)] []
  | None, Some (p, k) =>
      if bool_decide (p < s)%positive then mk_fn_res s (if reject then None else Some (p, k)) [] [] else plain_fn s pold pnew
  | _, _ => mk_fn_res s None [] []
  end.
Theorem replace_null_written reject :
  ('(sl, _) ← cycle (rejecting_fn reject) (__synclist_init (SortedTree0 := ds_tree_api) 1%positive) [(9%positive, 1)];
   '(_, r) ← synclist_add (rejecting_fn reject) sl (9%positive, 1); Ok r) = if reject then Err FDangling else Ok (Some 2%positive).
Proof. destruct reject; vm_compute; reflexivity. Qed.
