(* ===== verification/Rq.v ===== *)
(** * Rq: run queues of asynchronous tasks

    Models [lib/rq/src/rq.c].  A queue starts pending tasks in order, up to a limit of
    concurrent ones; tasks complete, are cancelled or killed, and time out.  Each of these
    calls callbacks of the client in the middle of the queue's own functions, and the
    callbacks may call any function of the queue again.  The model is therefore a machine
    with a stack: an instruction is a function of the code, or the rest of one after a
    callback returns, and on a callback the client chooses the next call.  Queues and tasks
    live in one memory and tasks carry the node of the list they are on ([DsDlistMem]).
    Tasks and queues are structures of the client that stay allocated; a queue in the
    state is initialised, so that its event loop is set. *)
From S2P Require Import Prelude DsDlist DsDlistMem.

(** [struct rq_task]: the timer is the time it is armed with; the function pointers matter
    only as NULL or not. *)
Record rq_task := mk_task {
  t_q : option loc; t_timeout : option Z;
  queued : bool; running : bool; cancelled : bool; killed : bool; timed_out : bool; cancel_timed_out : bool;
  run_fn : bool; cancel_fn : bool; kill_fn : bool; completed_fn : bool;
  run_timeout_msec : Z; cancel_timeout_msec : Z
}.

(** [struct rq]: [q_run] tells whether the timer of [rq_run_cb] is started. *)
Record rq := mk_rq {
  q_running : dhead; q_pending : dhead; stopped : bool; empty_rq : bool; num_running : Z; q_run : bool;
  max_running : Z; empty_fn : bool
}.

Inductive rq_side := SRunning | SPending.
#[export] Instance side_eq_dec : EqDecision rq_side.
Proof. solve_decision. Defined.

(** What happened, for the specification. *)
Inductive rq_ev := Added (q t : loc) | Started (t : loc) | Cancelled (t : loc) | Killed (t : loc) | Completed (t : loc) | Emptied (q : loc).
#[export] Instance rq_ev_eq_dec : EqDecision rq_ev.
Proof. solve_decision. Defined.

Record rqs := mk_rqs { r_qs : gmap loc rq; r_ts : gmap loc rq_task; r_ns : nodes; r_log : list rq_ev }.

Definition q_head (w : rq_side) (r : rq) : dhead := match w with SRunning => q_running r | SPending => q_pending r end.
Definition set_q_head (w : rq_side) (h : dhead) (r : rq) : rq :=
  match w with
  | SRunning => mk_rq h (q_pending r) (stopped r) (empty_rq r) (num_running r) (q_run r) (max_running r) (empty_fn r)
  | SPending => mk_rq (q_running r) h (stopped r) (empty_rq r) (num_running r) (q_run r) (max_running r) (empty_fn r)
  end.
Definition set_stopped (b : bool) (r : rq) : rq :=
  mk_rq (q_running r) (q_pending r) b (empty_rq r) (num_running r) (q_run r) (max_running r) (empty_fn r).
Definition set_empty (b : bool) (r : rq) : rq :=
  mk_rq (q_running r) (q_pending r) (stopped r) b (num_running r) (q_run r) (max_running r) (empty_fn r).
Definition add_running (n : Z) (r : rq) : rq :=
  mk_rq (q_running r) (q_pending r) (stopped r) (empty_rq r) (num_running r + n) (q_run r) (max_running r) (empty_fn r).
Definition set_run (b : bool) (r : rq) : rq :=
  mk_rq (q_running r) (q_pending r) (stopped r) (empty_rq r) (num_running r) b (max_running r) (empty_fn r).

Definition set_timer (v : option Z) (k : rq_task) : rq_task :=
  mk_task (t_q k) v (queued k) (running k) (cancelled k) (killed k) (timed_out k) (cancel_timed_out k)
    (run_fn k) (cancel_fn k) (kill_fn k) (completed_fn k) (run_timeout_msec k) (cancel_timeout_msec k).
Definition set_running (b : bool) (k : rq_task) : rq_task :=
  mk_task (t_q k) (t_timeout k) (queued k) b (cancelled k) (killed k) (timed_out k) (cancel_timed_out k)
    (run_fn k) (cancel_fn k) (kill_fn k) (completed_fn k) (run_timeout_msec k) (cancel_timeout_msec k).
Definition set_cancelled (k : rq_task) : rq_task :=
  mk_task (t_q k) (t_timeout k) (queued k) (running k) true (killed k) (timed_out k) (cancel_timed_out k)
    (run_fn k) (cancel_fn k) (kill_fn k) (completed_fn k) (run_timeout_msec k) (cancel_timeout_msec k).
Definition set_killed (k : rq_task) : rq_task :=
  mk_task (t_q k) (t_timeout k) (queued k) (running k) (cancelled k) true (timed_out k) (cancel_timed_out k)
    (run_fn k) (cancel_fn k) (kill_fn k) (completed_fn k) (run_timeout_msec k) (cancel_timeout_msec k).
Definition set_timed_out (k : rq_task) : rq_task :=
  mk_task (t_q k) (t_timeout k) (queued k) (running k) (cancelled k) (killed k) true (cancel_timed_out k)
    (run_fn k) (cancel_fn k) (kill_fn k) (completed_fn k) (run_timeout_msec k) (cancel_timeout_msec k).
Definition set_cancel_timed_out (k : rq_task) : rq_task :=
  mk_task (t_q k) (t_timeout k) (queued k) (running k) (cancelled k) (killed k) (timed_out k) true
    (run_fn k) (cancel_fn k) (kill_fn k) (completed_fn k) (run_timeout_msec k) (cancel_timeout_msec k).
(** The fields [rq_add_task] and [rq_task_complete] write. *)
Definition enqueue (q : loc) (k : rq_task) : rq_task :=
  mk_task (Some q) (t_timeout k) true false false false false false
    (run_fn k) (cancel_fn k) (kill_fn k) (completed_fn k) (run_timeout_msec k) (cancel_timeout_msec k).
Definition retire (k : rq_task) : rq_task :=
  mk_task None (t_timeout k) false false (cancelled k) (killed k) (timed_out k) (cancel_timed_out k)
    (run_fn k) (cancel_fn k) (kill_fn k) (completed_fn k) (run_timeout_msec k) (cancel_timeout_msec k).

Definition upd_q (q : loc) (f : rq -> rq) (s : rqs) : res rqs :=
  r ← deref (r_qs s !! q); Ok (mk_rqs (<[q := f r]> (r_qs s)) (r_ts s) (r_ns s) (r_log s)).
Definition upd_t (t : loc) (f : rq_task -> rq_task) (s : rqs) : res rqs :=
  k ← deref (r_ts s !! t); Ok (mk_rqs (r_qs s) (<[t := f k]> (r_ts s)) (r_ns s) (r_log s)).
Definition note (e : rq_ev) (s : rqs) : rqs := mk_rqs (r_qs s) (r_ts s) (r_ns s) (r_log s ++ [e]).
Definition on_side (q : loc) (w : rq_side) (f : ds_dlist -> res ds_dlist) (s : rqs) : res rqs :=
  r ← deref (r_qs s !! q);
  '(h, N) ← on_list f (q_head w r) (r_ns s);
  Ok (mk_rqs (<[q := set_q_head w h r]> (r_qs s)) (r_ts s) N (r_log s)).

(** ** Private functions *)
Definition rq_is_full (r : rq) : bool := if max_running r =? 0 then false else if num_running r <? max_running r then false else true.
Definition rq_can_start_next (r : rq) : bool :=
  if stopped r then false else
  if empty_rq r then false else
  if bool_decide (dh_head (q_pending r) = None) then false else
  if rq_is_full r then false else true.
Definition rq_became_empty (r : rq) : bool :=
  if empty_rq r then false else
  if negb (bool_decide (dh_head (q_running r) = None)) then false else
  if negb (bool_decide (dh_head (q_pending r) = None)) then false else true.
Definition rq_task_set_timeout (t : loc) (msec : Z) (s : rqs) : res rqs :=
  k ← deref (r_ts s !! t);
  match t_q k with
  | None => Ok s
  | Some _ => upd_t t (set_timer (if 0 <? msec then Some msec else None)) s
  end.

(** ** The machine *)
Inductive rq_cb := CbRun (t : loc) | CbCancel (t : loc) | CbKill (t : loc) | CbCompleted (t : loc) | CbEmpty (q : loc).
Inductive loop_body := KCancel | KKill.
Inductive instr :=
| IAdd (q t : loc) | ICancelTask (t : loc) | IKillTask (t : loc) | IComplete (t : loc) | ITimeout (t : loc)
| IStop (q : loc) | IResume (q : loc) | ISchedule (q : loc) | IReport (q : loc) | IRun (q : loc)
| IList (b : loop_body) (q : loc) (w : rq_side) | ILoop (b : loop_body) (elem : option loc)
| ICb (c : rq_cb).

(** [RQ_CALL]: a callback, unless it is NULL. *)
Definition rq_call (present : bool) (c : rq_cb) : list instr := if present then [ICb c] else [].
Definition body_of (b : loop_body) (t : loc) : instr := match b with KCancel => ICancelTask t | KKill => IKillTask t end.

Definition rq_start_next (q : loc) (s : rqs) : res (rqs * list instr) :=
  r ← deref (r_qs s !! q);
  match dh_head (q_pending r) with
  | None => Err FDangling
  | Some t =>
      s ← on_side q SPending (fun d => ds_dlist_remove d t) s;
      k ← deref (r_ts s !! t);
      _ ← c_assert (bool_decide (t_q k = Some q));
      s ← on_side q SRunning (fun d => ds_dlist_insert_tail d t) s;
      s ← upd_t t (set_running true) s;
      s ← upd_q q (add_running 1) s;
      s ← rq_task_set_timeout t (run_timeout_msec k) s;
      Ok (note (Started t) s, rq_call (run_fn k) (CbRun t))
  end.

Definition exec_run (q : loc) (s : rqs) : res (rqs * list instr) :=
  r ← deref (r_qs s !! q);
  if rq_can_start_next r then '(s, c) ← rq_start_next q s; Ok (s, c ++ [IRun q]) else Ok (s, [IReport q]).

Definition rq_report_empty (q : loc) (s : rqs) : res (rqs * list instr) :=
  r ← deref (r_qs s !! q);
  if rq_became_empty r then
    s ← upd_q q (set_empty true) s; Ok (note (Emptied q) s, rq_call (empty_fn r) (CbEmpty q))
  else Ok (s, []).

Definition rq_schedule (q : loc) (s : rqs) : res rqs :=
  r ← deref (r_qs s !! q); upd_q q (set_run (negb (stopped r))) s.

Definition rq_add_task (q t : loc) (s : rqs) : res (rqs * list instr) :=
  r ← deref (r_qs s !! q);
  if stopped r then Ok (s, []) else
  k ← deref (r_ts s !! t);
  if queued k then Ok (s, []) else
  s ← on_side q SPending (fun d => ds_dlist_insert_tail d t) s;
  s ← upd_t t (enqueue q) s;
  s ← upd_q q (set_empty false) s;
  Ok (note (Added q t) s, [ISchedule q]).

Definition rq_task_complete (t : loc) (s : rqs) : res (rqs * list instr) :=
  k ← deref (r_ts s !! t);
  if queued k then
    match t_q k with
    | None => Err FAssert
    | Some q =>
        s ← (if running k then s ← upd_q q (add_running (-1)) s; on_side q SRunning (fun d => ds_dlist_remove d t) s
             else on_side q SPending (fun d => ds_dlist_remove d t) s);
        s ← rq_task_set_timeout t 0 s;
        s ← upd_t t retire s;
        Ok (note (Completed t) s, rq_call (completed_fn k) (CbCompleted t) ++ [ISchedule q])
    end
  else Ok (s, []).

Definition rq_task_cancel (t : loc) (s : rqs) : res (rqs * list instr) :=
  k ← deref (r_ts s !! t);
  if queued k then
    _ ← c_assert (bool_decide (is_Some (t_q k)));
    if running k then
      s ← upd_t t set_cancelled s;
      s ← rq_task_set_timeout t (cancel_timeout_msec k) s;
      Ok (note (Cancelled t) s, rq_call (cancel_fn k) (CbCancel t))
    else Ok (s, [IComplete t])
  else Ok (s, []).

Definition rq_task_kill (t : loc) (s : rqs) : res (rqs * list instr) :=
  k ← deref (r_ts s !! t);
  if queued k then
    if running k then s ← upd_t t set_killed s; Ok (note (Killed t) s, rq_call (kill_fn k) (CbKill t) ++ [IComplete t])
    else Ok (s, [IComplete t])
  else Ok (s, []).

Definition rq_task_timeout_cb (t : loc) (s : rqs) : res (rqs * list instr) :=
  k ← deref (r_ts s !! t);
  if cancelled k then s ← upd_t t set_cancel_timed_out s; Ok (s, [IKillTask t])
  else s ← upd_t t set_timed_out s; Ok (s, [ICancelTask t]).

(** One instruction.  [ILoop] is [ds_dlist_foreach_safe]: the successor of an element is
    read before the body runs on it. *)
Definition exec (i : instr) (s : rqs) : res (rqs * list instr) :=
  match i with
  | IAdd q t => rq_add_task q t s
  | ICancelTask t => rq_task_cancel t s
  | IKillTask t => rq_task_kill t s
  | IComplete t => rq_task_complete t s
  | ITimeout t => rq_task_timeout_cb t s
  | IStop q => s ← upd_q q (set_stopped true) s; Ok (s, [])
  | IResume q => s ← upd_q q (set_stopped false) s; Ok (s, [ISchedule q])
  | ISchedule q => s ← rq_schedule q s; Ok (s, [])
  | IReport q => rq_report_empty q s
  | IRun q => exec_run q s
  | IList b q w => r ← deref (r_qs s !! q); Ok (s, [ILoop b (dh_head (q_head w r))])
  | ILoop b elem =>
      match elem with
      | None => Ok (s, [])
      | Some t => n ← deref (r_ns s !! t); Ok (s, [body_of b t; ILoop b (odn_next n)])
      end
  | ICb _ => Ok (s, [])
  end.

(** ** The functions the client calls *)
Inductive api :=
| ANewQueue (q : loc) (max : Z) (e : bool) | ANewTask (t : loc) (k : rq_task)
| AAdd (q t : loc) | ATaskCancel (t : loc) | ATaskKill (t : loc) | ATaskComplete (t : loc)
| AStop (q : loc) | AResume (q : loc) | ACancelPending (q : loc) | ACancelRunning (q : loc) | ACancel (q : loc) | AKill (q : loc) | AFini (q : loc).

Definition rq_cancel_pending (q : loc) : list instr := [IList KCancel q SPending; IReport q].
Definition rq_cancel_running (q : loc) : list instr := [IList KCancel q SRunning; IReport q].
Definition rq_cancel (q : loc) : list instr := rq_cancel_pending q ++ rq_cancel_running q ++ [IReport q].
Definition rq_kill (q : loc) : list instr := IList KKill q SRunning :: rq_cancel_pending q ++ [IReport q].
Definition rq_fini (q : loc) : list instr := IStop q :: rq_kill q ++ [ISchedule q; IReport q].

(** [rq_init] on zeroed memory with the caller's fields set. *)
Definition rq_init (max : Z) (e : bool) : rq := mk_rq dhead_init dhead_init false true 0 false max e.
(** A zeroed task with the caller's fields of [k]. *)
Definition task_zero (k : rq_task) : rq_task :=
  mk_task None None false false false false false false (run_fn k) (cancel_fn k) (kill_fn k) (completed_fn k) (run_timeout_msec k) (cancel_timeout_msec k).

Definition has_q (s : rqs) (q : loc) : bool := bool_decide (is_Some (r_qs s !! q)).
Definition has_t (s : rqs) (t : loc) : bool := bool_decide (is_Some (r_ts s !! t)).
(** A call begins; [None] if it names a queue or task that does not exist, or
    initialises one that does. *)
Definition begin_call (a : api) (s : rqs) : option (rqs * list instr) :=
  match a with
  | ANewQueue q max e => if has_q s q then None else Some (mk_rqs (<[q := rq_init max e]> (r_qs s)) (r_ts s) (r_ns s) (r_log s), [])
  | ANewTask t k => if has_t s t then None else
      Some (mk_rqs (r_qs s) (<[t := task_zero k]> (r_ts s)) (<[t := mk_dnode None None]> (r_ns s)) (r_log s), [])
  | AAdd q t => if has_q s q && has_t s t then Some (s, [IAdd q t]) else None
  | ATaskCancel t => if has_t s t then Some (s, [ICancelTask t]) else None
  | ATaskKill t => if has_t s t then Some (s, [IKillTask t]) else None
  | ATaskComplete t => if has_t s t then Some (s, [IComplete t]) else None
  | AStop q => if has_q s q then Some (s, [IStop q]) else None
  | AResume q => if has_q s q then Some (s, [IResume q]) else None
  | ACancelPending q => if has_q s q then Some (s, rq_cancel_pending q) else None
  | ACancelRunning q => if has_q s q then Some (s, rq_cancel_running q) else None
  | ACancel q => if has_q s q then Some (s, rq_cancel q) else None
  | AKill q => if has_q s q then Some (s, rq_kill q) else None
  | AFini q => if has_q s q then Some (s, rq_fini q) else None
  end.

(** ** Steps *)
(** The client's moves: a call, or the return from a callback; and the timers of the
    event loop, which runs when nothing else does.  A timer that fires is stopped. *)
Inductive move := MCall (a : api) | MReturn | MRunTimer (q : loc) | MTimeout (t : loc) | MInternal.
Definition mach := (rqs * list instr)%type.

Definition step (mv : move) (m : mach) : option (res mach) :=
  let '(s, st) := m in
  match st, mv with
  | ICb _ :: rest, MReturn => Some (Ok (s, rest))
  | ICb _ :: _, MCall a => '(s, js) ← begin_call a s; Some (Ok (s, js ++ st))
  | ICb _ :: _, _ => None
  | i :: rest, MInternal => Some ('(s, js) ← exec i s; Ok (s, js ++ rest))
  | _ :: _, _ => None
  | [], MCall a => '(s, js) ← begin_call a s; Some (Ok (s, js))
  | [], MRunTimer q =>
      r ← r_qs s !! q; if q_run r then Some (s ← upd_q q (set_run false) s; Ok (s, [IRun q])) else None
  | [], MTimeout t =>
      k ← r_ts s !! t; match t_timeout k with Some _ => Some (s ← upd_t t (set_timer None) s; Ok (s, [ITimeout t])) | None => None end
  | [], _ => None
  end.

Definition rqs_zero : rqs := mk_rqs ∅ ∅ ∅ [].
(** The states the machine reaches, whatever the client does. *)
Inductive reach : mach -> Prop :=
| reach_zero : reach (rqs_zero, [])
| reach_step m mv m' : reach m -> step mv m = Some (Ok m') -> reach m'.

Fixpoint run_moves (mvs : list move) (m : mach) : option mach :=
  match mvs with [] => Some m | mv :: mvs => match step mv m with Some (Ok m) => run_moves mvs m | _ => None end end.
Lemma reach_moves mvs : forall m m', reach m -> run_moves mvs m = Some m' -> reach m'.
Proof.
  induction mvs as [|mv mvs IH]; intros m m' H E; cbn [run_moves] in E; [by injection E as <-|].
  destruct (step mv m) as [[m1|]|] eqn:Es; [|done..]. eapply IH; [|exact E]. by eapply reach_step.
Qed.

(** ** Clients that only return *)
(** The code runs until the event loop is idle. *)
Fixpoint settle (n : nat) (m : mach) : res mach :=
  match n with
  | O => Err FFuel
  | S n =>
      match m.2 with
      | [] => Ok m
      | i :: rest => '(s, js) ← exec i m.1; settle n (s, js ++ rest)
      end
  end.
