(* ===== verification/RqInv.v ===== *)
(** * RqInv: what run queues keep up, whatever their clients do

    The invariant of the machine of [Rq], by induction on its steps: the lists and the
    flags of tasks agree, counters are right, no wake-up is lost, each addition is matched
    by one completion.  The theorems follow from it for every reachable state,
    also in the middle of a callback. *)
From S2P Require Import Prelude DsDlist DsDlistMem Rq.

(** The lists of all queues. *)
Abbreviation lists := (loc -> rq_side -> list loc).
Definition Lset (L : lists) (q : loc) (w : rq_side) (l : list loc) : lists :=
  fun q' w' => if decide (q' = q /\ w' = w) then l else L q' w'.
Definition del (t : loc) (l : list loc) : list loc := filter (fun x => x <> t) l.

Record mem_ok (s : rqs) (L : lists) : Prop := {
  mo_rep q r w : r_qs s !! q = Some r -> lrep (r_ns s) (q_head w r) (L q w);
  mo_none q w : r_qs s !! q = None -> L q w = [];
  mo_in q w t : t ∈ L q w ->
    exists k, r_ts s !! t = Some k /\ t_q k = Some q /\ queued k = true /\ running k = bool_decide (w = SRunning);
  mo_out t k : r_ts s !! t = Some k -> queued k = true -> exists q w, t ∈ L q w;
  mo_idle t k : r_ts s !! t = Some k -> queued k = false -> running k = false /\ t_q k = None;
  mo_dom : dom (r_ns s) = dom (r_ts s);
  mo_num q r : r_qs s !! q = Some r -> num_running r = Z.of_nat (length (L q SRunning));
  mo_max q r : r_qs s !! q = Some r -> 0 < max_running r -> num_running r <= max_running r;
  mo_empty q r w : r_qs s !! q = Some r -> empty_rq r = true -> L q w = [];
  mo_timer t k : r_ts s !! t = Some k -> running k = false -> t_timeout k = None;
  mo_free t k : r_ts s !! t = Some k -> queued k = false -> r_ns s !! t = Some (mk_dnode None None)
}.

(** ** Additions and completions *)
Definition is_added (t : loc) (e : rq_ev) : Prop := match e with Added _ u => u = t | _ => False end.
Definition is_completed (t : loc) (e : rq_ev) : Prop := match e with Completed u => u = t | _ => False end.
Definition is_started (t : loc) (e : rq_ev) : Prop := match e with Started u => u = t | _ => False end.
#[export] Instance is_added_dec t e : Decision (is_added t e).
Proof. destruct e; cbn; apply _. Defined.
#[export] Instance is_completed_dec t e : Decision (is_completed t e).
Proof. destruct e; cbn; apply _. Defined.
#[export] Instance is_started_dec t e : Decision (is_started t e).
Proof. destruct e; cbn; apply _. Defined.
Definition count (P : rq_ev -> Prop) `{!forall e, Decision (P e)} (l : list rq_ev) : nat := length (filter P l).

Lemma count_snoc P `{!forall e, Decision (P e)} l e : count P (l ++ [e]) = (count P l + if decide (P e) then 1 else 0)%nat.
Proof.
  unfold count. rewrite filter_app, length_app. destruct (decide (P e)); [by rewrite filter_cons_True|by rewrite filter_cons_False].
Qed.

Definition n_queued (s : rqs) (t : loc) : nat := match r_ts s !! t with Some k => if queued k then 1 else 0 | None => 0 end.
Definition n_waiting (s : rqs) (t : loc) : nat :=
  match r_ts s !! t with Some k => if queued k && negb (running k) then 1 else 0 | None => 0 end.
(** Each addition is completed once or still queued, and started at most once. *)
Definition log_ok (s : rqs) : Prop := forall t,
  (count (is_added t) (r_log s) = count (is_completed t) (r_log s) + n_queued s t)%nat /\
  (count (is_started t) (r_log s) + n_waiting s t <= count (is_added t) (r_log s))%nat.

(** ** Wake-ups *)
Definition needs_start (r : rq) (P : list loc) : Prop := P <> [] /\ rq_is_full r = false.
Definition needs_report (r : rq) (R P : list loc) : Prop := R = [] /\ P = [] /\ empty_rq r = false.
Definition wake_q (q : loc) (r : rq) (R P : list loc) (st : list instr) : Prop :=
  stopped r = false ->
  (needs_start r P -> q_run r = true \/ IRun q ∈ st \/ ISchedule q ∈ st) /\
  (needs_report r R P -> q_run r = true \/ IRun q ∈ st \/ ISchedule q ∈ st \/ IReport q ∈ st).
Definition wake_ok (s : rqs) (L : lists) (st : list instr) : Prop := forall q r,
  r_qs s !! q = Some r -> wake_q q r (L q SRunning) (L q SPending) st.

(** ** What the stack names exists *)
Definition instr_ok (s : rqs) (i : instr) : Prop :=
  match i with
  | IAdd q t => is_Some (r_qs s !! q) /\ is_Some (r_ts s !! t)
  | ICancelTask t | IKillTask t | IComplete t | ITimeout t => is_Some (r_ts s !! t)
  | IStop q | IResume q | ISchedule q | IReport q | IRun q | IList _ q _ => is_Some (r_qs s !! q)
  | ILoop _ (Some t) => is_Some (r_ts s !! t)
  | ILoop _ None | ICb _ => True
  end.

Definition mach_ok (m : mach) : Prop := exists L,
  mem_ok m.1 L /\ log_ok m.1 /\ wake_ok m.1 L m.2 /\ Forall (instr_ok m.1) m.2.

(** ** Lists *)
Lemma Lset_eq L q w l : Lset L q w l q w = l.
Proof. unfold Lset. by rewrite decide_True. Qed.
Lemma Lset_ne L q w l q' w' : q' <> q \/ w' <> w -> Lset L q w l q' w' = L q' w'.
Proof. intros H. unfold Lset. rewrite decide_False; [done|]. tauto. Qed.
Lemma in_del t l x : x ∈ del t l <-> x <> t /\ x ∈ l.
Proof. unfold del. by rewrite list_elem_of_filter. Qed.
Lemma del_at t l1 l2 : NoDup (l1 ++ t :: l2) -> del t (l1 ++ t :: l2) = l1 ++ l2.
Proof.
  intros (_ & Hd & [Hn _]%NoDup_cons)%NoDup_app. unfold del. rewrite filter_app, filter_cons_False by tauto.
  assert (HF : forall l : list loc, t ∉ l -> filter (fun x => x <> t) l = l).
  { intros l. induction l as [|x l IH]; intros Ht; [done|]. apply not_elem_of_cons in Ht as [? ?]. rewrite filter_cons_True by congruence. by rewrite IH. }
  rewrite !HF; [done|done|]. intros Ht. by apply (Hd t Ht); left.
Qed.
Lemma in_unique s L t q w q' w' : mem_ok s L -> t ∈ L q w -> t ∈ L q' w' -> q = q' /\ w = w'.
Proof.
  intros H H1 H2. apply (mo_in _ _ H) in H1 as (k & E & Eq & _ & Er). apply (mo_in _ _ H) in H2 as (k' & E' & Eq' & _ & Er').
  rewrite E in E'. injection E' as <-. rewrite Eq in Eq'. injection Eq' as ->. split; [done|]. rewrite Er in Er'. destruct w, w'; done.
Qed.

(** The lists of a state, without the tasks. *)
Definition lists_ok (qs : gmap loc rq) (N : nodes) (L : lists) : Prop := forall q r w, qs !! q = Some r -> lrep N (q_head w r) (L q w).

Lemma relist_side qs N L q w r h' N' l' :
  lists_ok qs N L -> qs !! q = Some r -> lrep N' h' l' -> (forall q' w' y, q' <> q \/ w' <> w -> y ∈ L q' w' -> N' !! y = N !! y) ->
  lists_ok (<[q := set_q_head w h' r]> qs) N' (Lset L q w l').
Proof.
  intros HL Eq Hl Hf q' r' w' E'. destruct (decide (q' = q)) as [->|Hq].
  - rewrite lookup_insert_eq in E'. injection E' as <-. destruct (decide (w' = w)) as [->|Hw].
    + rewrite Lset_eq. by destruct w.
    + rewrite Lset_ne by auto. replace (q_head w' (set_q_head w h' r)) with (q_head w' r) by (by destruct w, w').
      eapply lrep_frame; [|by apply HL]. intros y Hy. by apply (Hf q w'); [right|].
  - rewrite lookup_insert_ne in E' by done. rewrite Lset_ne by auto. eapply lrep_frame; [|by apply HL]. intros y Hy. by apply (Hf q' w'); [left|].
Qed.

Section SideOps.
Context (s : rqs) (L : lists) (H : mem_ok s L).

Lemma side_remove q w r t : r_qs s !! q = Some r -> t ∈ L q w ->
  exists h' N', on_side q w (fun d => ds_dlist_remove d t) s = Ok (mk_rqs (<[q := set_q_head w h' r]> (r_qs s)) (r_ts s) N' (r_log s)) /\
    lists_ok (<[q := set_q_head w h' r]> (r_qs s)) N' (Lset L q w (del t (L q w))) /\ dom N' = dom (r_ns s) /\
    N' !! t = Some (mk_dnode None None) /\ (forall y, y ∉ L q w -> N' !! y = r_ns s !! y).
Proof.
  intros Eq Ht. pose proof (mo_rep _ _ H q r w Eq) as Hr. apply list_elem_of_split in Ht as (l1 & l2 & El). pose proof Hr as Hr0. rewrite El in Hr.
  destruct (list_remove_ok _ _ _ _ _ Hr) as (h' & N' & E & Hr' & Hd & Hx & Hf). unfold on_side. rewrite Eq. cbn [deref]. cbind. rewrite E. cbind.
  exists h', N'. split_and!; [done| |done|done|by rewrite El]. apply (relist_side _ (r_ns s) L); [intros ???; apply H|done| |].
  - rewrite El, del_at; [done|]. rewrite <- El. by apply lrep_nodup in Hr0.
  - intros q' w' y Hne Hy. apply Hf. rewrite <- El. intros Hy2. destruct (in_unique _ _ _ _ _ _ _ H Hy Hy2). naive_solver.
Qed.

End SideOps.

(** Here [t] is on no list, although its flags may say so. *)
Lemma side_insert s L q w r t : lists_ok (r_qs s) (r_ns s) L -> (forall q' w' y, q' <> q \/ w' <> w -> y ∈ L q' w' -> y ∉ L q w) ->
  r_qs s !! q = Some r -> (forall q w, t ∉ L q w) -> is_Some (r_ns s !! t) ->
  exists h' N', on_side q w (fun d => ds_dlist_insert_tail d t) s = Ok (mk_rqs (<[q := set_q_head w h' r]> (r_qs s)) (r_ts s) N' (r_log s)) /\
    lists_ok (<[q := set_q_head w h' r]> (r_qs s)) N' (Lset L q w (L q w ++ [t])) /\ dom N' = dom (r_ns s) /\
    (forall y, y <> t -> y ∉ L q w -> N' !! y = r_ns s !! y).
Proof.
  intros HL Hdj Eq Ht Hn. destruct (list_insert_tail_ok _ _ _ t (HL q r w Eq) (Ht q w) Hn) as (h' & N' & E & Hr' & Hd & Hf).
  unfold on_side. rewrite Eq. cbn [deref]. cbind. rewrite E. cbind. exists h', N'. split_and!; [done| |done|by intros y Hy1 Hy2; apply Hf; rewrite elem_of_app, list_elem_of_singleton; intros [?|?]].
  apply (relist_side _ (r_ns s) L); [done..|].
  intros q' w' y Hne Hy. apply Hf. rewrite elem_of_app, list_elem_of_singleton. intros [Hy2| ->]; [by apply (Hdj q' w' y)|by apply (Ht q' w')].
Qed.

(** ** Preservation *)
(** Changes of flags. *)
Lemma task_flags_ok s L t k f l : mem_ok s L -> r_ts s !! t = Some k -> t_q (f k) = t_q k -> queued (f k) = queued k -> running (f k) = running k ->
  (running k = false -> t_timeout (f k) = None) -> mem_ok (mk_rqs (r_qs s) (<[t := f k]> (r_ts s)) (r_ns s) l) L.
Proof.
  intros [M1 M2 M3 M4 M5 M6 M7 M8 M9 M10 M11] Ek Hq Hqu Hr Ht. split; cbn [r_qs r_ts r_ns]; try done.
  - intros q w u Hu. destruct (M3 q w u Hu) as (k' & E' & H1 & H2 & H3). destruct (decide (u = t)) as [->|Hne].
    + rewrite lookup_insert_eq. rewrite Ek in E'. injection E' as <-. exists (f k). rewrite Hq, Hqu, Hr. by split_and!.
    + rewrite lookup_insert_ne by done. exists k'. by split_and!.
  - intros u k' [[<- <-]|[Hne E']]%lookup_insert_Some; [rewrite Hqu; by apply (M4 t k)|by apply (M4 u k')].
  - intros u k' [[<- <-]|[Hne E']]%lookup_insert_Some; [rewrite Hqu, Hr, Hq; by apply (M5 t k)|by apply (M5 u k')].
  - by rewrite dom_insert_lookup_L.
  - intros u k' [[<- <-]|[Hne E']]%lookup_insert_Some; [rewrite Hr; done|by apply (M10 u k')].
  - intros u k' [[<- <-]|[Hne E']]%lookup_insert_Some; [rewrite Hqu; by apply (M11 t k)|by apply (M11 u k')].
Qed.
Lemma queue_flags_ok s L q r f l : mem_ok s L -> r_qs s !! q = Some r -> (forall w, q_head w (f r) = q_head w r) -> num_running (f r) = num_running r ->
  max_running (f r) = max_running r -> (empty_rq (f r) = true -> forall w, L q w = []) -> mem_ok (mk_rqs (<[q := f r]> (r_qs s)) (r_ts s) (r_ns s) l) L.
Proof.
  intros [M1 M2 M3 M4 M5 M6 M7 M8 M9 M10 M11] Eq Hh Hn Hm He. split; cbn [r_qs r_ts r_ns]; try done.
  - intros q' r' w [[<- <-]|[Hne E']]%lookup_insert_Some; [rewrite Hh; by apply M1|by apply M1].
  - intros q' w [E' Hne]%lookup_insert_None. by apply M2.
  - intros q' r' [[<- <-]|[Hne E']]%lookup_insert_Some; [rewrite Hn; by apply (M7 q r)|by apply (M7 q' r')].
  - intros q' r' [[<- <-]|[Hne E']]%lookup_insert_Some; [rewrite Hn, Hm; by apply (M8 q r)|by apply (M8 q' r')].
  - intros q' r' w [[<- <-]|[Hne E']]%lookup_insert_Some; [intros He'; by apply He|by apply (M9 q' r')].
Qed.

Definition neutral (e : rq_ev) : Prop := match e with Cancelled _ | Killed _ | Emptied _ => True | _ => False end.
Lemma log_same s s' : (forall u, n_queued s' u = n_queued s u /\ n_waiting s' u = n_waiting s u) ->
  r_log s' = r_log s \/ (exists e, neutral e /\ r_log s' = r_log s ++ [e]) -> log_ok s -> log_ok s'.
Proof.
  intros Hn Hl H t. destruct (H t) as [H1 H2]. destruct (Hn t) as [-> ->]. destruct Hl as [-> |(e & He & ->)]; [done|].
  rewrite !count_snoc. destruct e; try done; cbn; rewrite !decide_False by (by intros []); lia.
Qed.
Lemma flags_count s t k f u qs ns l : r_ts s !! t = Some k -> queued (f k) = queued k -> running (f k) = running k ->
  n_queued (mk_rqs qs (<[t := f k]> (r_ts s)) ns l) u = n_queued s u /\ n_waiting (mk_rqs qs (<[t := f k]> (r_ts s)) ns l) u = n_waiting s u.
Proof.
  intros Ek Hq Hr. unfold n_queued, n_waiting. cbn [r_ts]. destruct (decide (u = t)) as [->|Hne].
  - rewrite lookup_insert_eq, Ek, Hq, Hr. done.
  - by rewrite lookup_insert_ne.
Qed.

(** Wake-ups after a step that changes at most the queue [q]. *)
Definition wakes (i : instr) (q : loc) : Prop := i = IRun q \/ i = ISchedule q \/ i = IReport q.
Lemma wake_q_mono q r R P st st' : wake_q q r R P st -> (forall i, i ∈ st -> wakes i q -> i ∈ st') -> wake_q q r R P st'.
Proof.
  intros H Hi Hs. destruct (H Hs) as [H1 H2]. split.
  - intros [?|[?|?]]%H1; [by left|right; left; apply Hi; [done|by left]|right; right; apply Hi; [done|by right; left]].
  - intros [?|[?|[?|?]]]%H2; [by left|right; left; apply Hi; [done|by left]|right; right; left; apply Hi; [done|by right; left]|].
    right; right; right; apply Hi; [done|by right; right].
Qed.
Lemma wake_one s L s' L' i js rest q :
  (forall q', q' <> q -> r_qs s' !! q' = r_qs s !! q' /\ forall w, L' q' w = L q' w) -> (forall q', wakes i q' -> q' = q) ->
  wake_ok s L (i :: rest) -> (forall r', r_qs s' !! q = Some r' -> wake_q q r' (L' q SRunning) (L' q SPending) (js ++ rest)) -> wake_ok s' L' (js ++ rest).
Proof.
  intros Hs Hi Hw Hq q' r' E. destruct (decide (q' = q)) as [->|Hne]; [by apply Hq|]. destruct (Hs q' Hne) as [Eq EL]. rewrite !EL. rewrite Eq in E.
  eapply wake_q_mono; [by apply Hw|]. intros j [->|Hj]%elem_of_cons Hwk; [by destruct (Hne (Hi _ Hwk))|]. apply elem_of_app. by right.
Qed.
Lemma wake_same s L s' i js rest : r_qs s' = r_qs s -> (forall q, ~ wakes i q) -> wake_ok s L (i :: rest) -> wake_ok s' L (js ++ rest).
Proof.
  intros Hs Hi Hw q r E. rewrite Hs in E. eapply wake_q_mono; [by apply Hw|]. intros j [->|Hj]%elem_of_cons Hwk; [by destruct (Hi _ Hwk)|]. apply elem_of_app. by right.
Qed.

(** The result of an instruction: it keeps the invariant up, and [E] holds of it. *)
Definition good_with (E : rqs -> lists -> list instr -> Prop) (s : rqs) (L : lists) (i : instr) (o : res (rqs * list instr)) : Prop := exists s' js L',
  o = Ok (s', js) /\ mem_ok s' L' /\ (log_ok s -> log_ok s') /\ dom (r_qs s') = dom (r_qs s) /\ dom (r_ts s') = dom (r_ts s) /\
  Forall (instr_ok s') js /\ (forall rest, wake_ok s L (i :: rest) -> wake_ok s' L' (js ++ rest)) /\ E s' L' js.
Definition good : rqs -> lists -> instr -> res (rqs * list instr) -> Prop := good_with (fun _ _ _ => True).
Lemma good_weaken E s L i o : good_with E s L i o -> good s L i o.
Proof. intros (s' & js & L' & H1 & H2 & H3 & H4 & H5 & H6 & H7 & _). exists s', js, L'. by split_and!. Qed.

Lemma good_nop s L i js : mem_ok s L -> (forall q, ~ wakes i q) -> Forall (instr_ok s) js -> good s L i (Ok (s, js)).
Proof. intros H Hi Hj. exists s, js, L. split_and!; try done. intros rest. by apply wake_same. Qed.

Lemma call_instr_ok s b c : Forall (instr_ok s) (rq_call b c).
Proof. destruct b; repeat constructor. Qed.
#[export] Hint Resolve call_instr_ok : core.

Ltac not_wake := let q := fresh in intros q [?|[?|?]]; done.
Ltac insert_dom := cbn [r_qs r_ts]; try rewrite dom_insert_lookup_L by (by eexists); done.

Lemma set_timeout_run s t k msec : r_ts s !! t = Some k -> is_Some (t_q k) ->
  rq_task_set_timeout t msec s = Ok (mk_rqs (r_qs s) (<[t := set_timer (if 0 <? msec then Some msec else None) k]> (r_ts s)) (r_ns s) (r_log s)).
Proof. intros Ek [q Eq]. unfold rq_task_set_timeout. rewrite Ek. cbn [deref]. cbind. rewrite Eq. unfold upd_t. by rewrite Ek. Qed.

Lemma good_cancel s L t : mem_ok s L -> is_Some (r_ts s !! t) -> good s L (ICancelTask t) (rq_task_cancel t s).
Proof.
  intros H [k Ek]. unfold rq_task_cancel. rewrite Ek. cbn [deref]. cbind. destruct (queued k) eqn:Eq; [|apply good_nop; [done|not_wake|constructor]].
  destruct (mo_out _ _ H _ _ Ek Eq) as (q & w & Hin). destruct (mo_in _ _ H _ _ _ Hin) as (k' & Ek' & Etq & _ & Er). rewrite Ek in Ek'. injection Ek' as <-.
  rewrite bool_decide_eq_true_2 by (by exists q). cbn [c_assert]. cbind.
  destruct (running k) eqn:Erk; [|apply good_nop; [done|not_wake|by repeat constructor; exists k]].
  unfold upd_t. rewrite Ek. cbn [deref]. cbind. rewrite (set_timeout_run _ _ (set_cancelled k)); [|cbn; apply lookup_insert_eq|by exists q]. cbind.
  cbn [r_qs r_ts r_ns r_log]. rewrite insert_insert_eq. do 2 eexists. exists L. split_and!; [done| | | | | | |done].
  - by apply (task_flags_ok s L t k (fun k => set_timer _ (set_cancelled k))); [..|rewrite Erk].
  - apply log_same; [|right; by eexists (Cancelled t)]. intros u. by apply (flags_count s t k (fun k => set_timer _ (set_cancelled k))).
  - done.
  - cbn. by rewrite dom_insert_lookup_L.
  - done.
  - intros rest. apply wake_same; [done|not_wake].
Qed.

Lemma good_kill s L t : mem_ok s L -> is_Some (r_ts s !! t) -> good s L (IKillTask t) (rq_task_kill t s).
Proof.
  intros H [k Ek]. unfold rq_task_kill. rewrite Ek. cbn [deref]. cbind. destruct (queued k) eqn:Eq; [|apply good_nop; [done|not_wake|constructor]].
  destruct (running k) eqn:Erk; [|apply good_nop; [done|not_wake|by repeat constructor; exists k]].
  unfold upd_t. rewrite Ek. cbn [deref]. cbind. do 2 eexists. exists L. split_and!; [done| | | | | | |done].
  - apply (task_flags_ok s L t k set_killed); try done. by rewrite Erk.
  - apply log_same; [|right; by eexists (Killed t)]. intros u. by apply (flags_count s t k set_killed).
  - done.
  - cbn. by rewrite dom_insert_lookup_L.
  - apply Forall_app. split; [done|]. repeat constructor. cbn. rewrite lookup_insert_eq. done.
  - intros rest. apply wake_same; [done|not_wake].
Qed.

Lemma good_timeout s L t : mem_ok s L -> is_Some (r_ts s !! t) -> good s L (ITimeout t) (rq_task_timeout_cb t s).
Proof.
  intros H [k Ek]. unfold rq_task_timeout_cb. rewrite Ek. cbn [deref]. cbind.
  assert (Hf : forall f j, (forall k, t_q (f k) = t_q k /\ queued (f k) = queued k /\ running (f k) = running k /\ t_timeout (f k) = t_timeout k) ->
    (forall s, is_Some (r_ts s !! t) -> instr_ok s j) -> good s L (ITimeout t) (s ← upd_t t f s; Ok (s, [j]))).
  { intros f j Hf Hj. destruct (Hf k) as (F1 & F2 & F3 & F4). unfold upd_t. rewrite Ek. cbn [deref]. cbind. do 2 eexists. exists L. split_and!; [done| | | | | | |done].
    - apply task_flags_ok; try done. intros Hr. rewrite F4. by apply (mo_timer _ _ H t k).
    - apply log_same; [|by left]. intros u. by apply flags_count.
    - done.
    - cbn. by rewrite dom_insert_lookup_L.
    - repeat constructor. apply Hj. cbn. by rewrite lookup_insert_eq.
    - intros rest. apply wake_same; [done|not_wake]. }
  destruct (cancelled k); apply Hf; done.
Qed.

(** *** Queues *)
Lemma queue_flags_good s L q r f i js l : mem_ok s L -> r_qs s !! q = Some r -> (forall w, q_head w (f r) = q_head w r) -> num_running (f r) = num_running r ->
  max_running (f r) = max_running r -> (empty_rq (f r) = true -> forall w, L q w = []) -> l = r_log s \/ (exists e, neutral e /\ l = r_log s ++ [e]) ->
  (forall s', is_Some (r_qs s' !! q) -> Forall (instr_ok s') js) -> (forall q', wakes i q' -> q' = q) ->
  (forall rest, wake_q q r (L q SRunning) (L q SPending) (i :: rest) -> wake_q q (f r) (L q SRunning) (L q SPending) (js ++ rest)) ->
  good s L i (Ok (mk_rqs (<[q := f r]> (r_qs s)) (r_ts s) (r_ns s) l, js)).
Proof.
  intros H Eq Hh Hn Hm He Hl Hj Hi Hw. do 2 eexists. exists L. split_and!; [done| | | | | | |done].
  - by apply queue_flags_ok.
  - by apply log_same.
  - cbn. by rewrite dom_insert_lookup_L.
  - done.
  - apply Hj. cbn. by rewrite lookup_insert_eq.
  - intros rest Hwk. apply (wake_one s L _ L i js rest q); [|done|done|].
    + intros q' Hne. cbn. by rewrite lookup_insert_ne.
    + cbn. rewrite lookup_insert_eq. intros r' [= <-]. by apply Hw, Hwk.
Qed.

Lemma good_schedule s L q : mem_ok s L -> is_Some (r_qs s !! q) -> good s L (ISchedule q) (s ← rq_schedule q s; Ok (s, [])).
Proof.
  intros H [r Er]. unfold rq_schedule, upd_q. rewrite Er. cbn [deref]. cbind.
  apply (queue_flags_good s L q r (set_run (negb (stopped r)))); try done.
  - cbn. intros He w. by apply (mo_empty _ _ H q r).
  - by left.
  - intros q' [?|[[= ->]|?]]; done.
  - intros rest _ Hs. cbn in *. rewrite Hs. by split; left.
Qed.
Lemma good_stop s L q : mem_ok s L -> is_Some (r_qs s !! q) -> good s L (IStop q) (s ← upd_q q (set_stopped true) s; Ok (s, [])).
Proof.
  intros H [r Er]. unfold upd_q. rewrite Er. cbn [deref]. cbind. apply (queue_flags_good s L q r (set_stopped true)); try done.
  - cbn. intros He w. by apply (mo_empty _ _ H q r).
  - by left.
  - not_wake.
Qed.
Lemma good_resume s L q : mem_ok s L -> is_Some (r_qs s !! q) -> good s L (IResume q) (s ← upd_q q (set_stopped false) s; Ok (s, [ISchedule q])).
Proof.
  intros H [r Er]. unfold upd_q. rewrite Er. cbn [deref]. cbind. apply (queue_flags_good s L q r (set_stopped false)); try done.
  - cbn. intros He w. by apply (mo_empty _ _ H q r).
  - by left.
  - by repeat constructor.
  - not_wake.
  - intros rest _ _. split; intros _; right; right; [|left]; by left.
Qed.

Lemma head_none N h l : lrep N h l -> bool_decide (dh_head h = None) = bool_decide (l = []).
Proof. intros R. rewrite (lrep_head _ _ _ R). apply bool_decide_ext. by destruct l. Qed.
Lemma became_empty_spec s L q r : mem_ok s L -> r_qs s !! q = Some r ->
  rq_became_empty r = true <-> needs_report r (L q SRunning) (L q SPending).
Proof.
  intros H Er. unfold rq_became_empty, needs_report.
  pose proof (head_none _ _ _ (mo_rep _ _ H q r SRunning Er)) as ER. pose proof (head_none _ _ _ (mo_rep _ _ H q r SPending Er)) as EP. cbn [q_head] in *. rewrite ER, EP.
  destruct (empty_rq r); [naive_solver|]. repeat case_bool_decide; cbn; naive_solver.
Qed.

Lemma good_report s L q : mem_ok s L -> is_Some (r_qs s !! q) -> good s L (IReport q) (rq_report_empty q s).
Proof.
  intros H [r Er]. unfold rq_report_empty. rewrite Er. cbn [deref]. cbind. pose proof (became_empty_spec _ _ _ _ H Er) as Hb. destruct (rq_became_empty r).
  - destruct (proj1 Hb eq_refl) as (HR & HP & _). unfold upd_q. rewrite Er. cbn [deref]. cbind. apply (queue_flags_good s L q r (set_empty true)); try done.
    + by intros _ [].
    + right. by exists (Emptied q).
    + intros q' [?|[?|[= ->]]]; done.
    + intros rest _ _. rewrite HR, HP. split; [by intros [? _]|by intros (_ & _ & ?)].
  - exists s, [], L. split_and!; try done. intros rest Hwk. apply (wake_one s L _ L (IReport q) [] rest q); [done|intros q' [?|[?|[= ->]]]; done|done|].
    intros r' E'. rewrite Er in E'. injection E' as <-. intros Hs. destruct (Hwk q r Er Hs) as [H1 _]. split.
    + intros [?|[[?|?]%elem_of_cons|[?|?]%elem_of_cons]]%H1; try done; [by left|by right; left|by right; right].
    + intros Hn. by apply Hb in Hn.
Qed.

(** *** Tasks that join, start and leave *)
Lemma Lset_other L q w l q' w' : q' <> q -> Lset L q w l q' w' = L q' w'.
Proof. intros. apply Lset_ne. by left. Qed.

(** One task and one queue change. *)
Lemma mem_change s L q r r' t k k' N' L' l :
  mem_ok s L -> r_qs s !! q = Some r -> r_ts s !! t = Some k -> dom N' = dom (r_ns s) ->
  (forall w, lrep N' (q_head w r') (L' q w)) -> (forall q' r w, q' <> q -> r_qs s !! q' = Some r -> lrep N' (q_head w r) (L q' w)) ->
  (forall q' w, q' <> q -> L' q' w = L q' w) -> (forall u w, u <> t -> u ∈ L' q w <-> u ∈ L q w) -> (forall q' w, t ∈ L q' w -> q' = q) ->
  (forall w, t ∈ L' q w -> t_q k' = Some q /\ queued k' = true /\ running k' = bool_decide (w = SRunning)) ->
  (queued k' = true -> exists w, t ∈ L' q w) -> (queued k' = false -> running k' = false /\ t_q k' = None) ->
  num_running r' = Z.of_nat (length (L' q SRunning)) -> (0 < max_running r' -> num_running r' <= max_running r') ->
  (empty_rq r' = true -> forall w, L' q w = []) -> (running k' = false -> t_timeout k' = None) ->
  (queued k' = false -> N' !! t = Some (mk_dnode None None)) -> (forall u, u <> t -> (forall q w, u ∉ L q w) -> N' !! u = r_ns s !! u) ->
  mem_ok (mk_rqs (<[q := r']> (r_qs s)) (<[t := k']> (r_ts s)) N' l) L'.
Proof.
  intros [M1 M2 M3 M4 M5 M6 M7 M8 M9 M10 M11] Er Ek Hd HL HL2 HLo Hu Htq Hin Hqu Hid Hn Hm He Ht Hfr Hfo. split; cbn [r_qs r_ts r_ns].
  - intros q' r0 w [[<- <-]|[Hne E]]%lookup_insert_Some; [done|]. rewrite HLo by done. by apply HL2.
  - intros q' w [E Hne]%lookup_insert_None. rewrite HLo by done. by apply M2.
  - intros q' w u Hi. destruct (decide (u = t)) as [->|Hut].
    + rewrite lookup_insert_eq. exists k'. split; [done|]. destruct (decide (q' = q)) as [->|Hq]; [by apply Hin|]. rewrite HLo in Hi by done. by apply Htq in Hi.
    + rewrite lookup_insert_ne by done. apply M3. destruct (decide (q' = q)) as [->|Hq]; [by apply Hu|by rewrite <- HLo].
  - intros u k0 [[<- <-]|[Hne E]]%lookup_insert_Some Hq; [destruct (Hqu Hq) as [w ?]; by exists q, w|].
    destruct (M4 u k0 E Hq) as (q' & w & Hi). exists q', w. destruct (decide (q' = q)) as [->|]; [by apply Hu|by rewrite HLo].
  - intros u k0 [[<- <-]|[Hne E]]%lookup_insert_Some; [done|by apply (M5 u k0)].
  - rewrite dom_insert_lookup_L by (by exists k). by rewrite Hd.
  - intros q' r0 [[<- <-]|[Hne E]]%lookup_insert_Some; [done|]. rewrite HLo by done. by apply (M7 q' r0).
  - intros q' r0 [[<- <-]|[Hne E]]%lookup_insert_Some; [done|by apply (M8 q' r0)].
  - intros q' r0 w [[<- <-]|[Hne E]]%lookup_insert_Some; [intros; by apply He|]. rewrite HLo by done. by apply (M9 q' r0).
  - intros u k0 [[<- <-]|[Hne E]]%lookup_insert_Some; [done|by apply (M10 u k0)].
  - intros u k0 [[<- <-]|[Hne E]]%lookup_insert_Some Hq0; [by apply Hfr|]. rewrite Hfo; [by apply (M11 u k0)|done|].
    intros q' w Hi. destruct (M3 q' w u Hi) as (k1 & E1 & _ & Hq1 & _). congruence.
Qed.

(** Lists after an operation on one side of [q]. *)
Lemma lists_side qs q w h' r N' L : lists_ok (<[q := set_q_head w h' r]> qs) N' L ->
  (forall v, lrep N' (q_head v (set_q_head w h' r)) (L q v)) /\ (forall q' r0 v, q' <> q -> qs !! q' = Some r0 -> lrep N' (q_head v r0) (L q' v)).
Proof. intros HL. split; [intros v; apply HL, lookup_insert_eq|]. intros q' r0 v Hne E. apply HL. by rewrite lookup_insert_ne. Qed.

Lemma good_add s L q t : mem_ok s L -> is_Some (r_qs s !! q) -> is_Some (r_ts s !! t) -> good s L (IAdd q t) (rq_add_task q t s).
Proof.
  intros H [r Er] [k Ek]. unfold rq_add_task. rewrite Er. cbn [deref]. cbind. destruct (stopped r) eqn:Est; [apply good_nop; [done|not_wake|constructor]|].
  rewrite Ek. cbn [deref]. cbind. destruct (queued k) eqn:Eqk; [apply good_nop; [done|not_wake|constructor]|].
  assert (Hout : forall q w, t ∉ L q w). { intros q' w' Hin. destruct (mo_in _ _ H _ _ _ Hin) as (k' & E' & _ & Hq & _). rewrite Ek in E'. injection E' as <-. congruence. }
  destruct (mo_idle _ _ H t k Ek Eqk) as [Hrk _]. pose proof (mo_timer _ _ H t k Ek Hrk) as Htm.
  destruct (side_insert s L q SPending r t) as (h' & N' & -> & HL & Hd & Hfo).
  { intros ???. apply (mo_rep _ _ H). } { intros q' w' y Hne Hy Hy2. destruct (in_unique _ _ _ _ _ _ _ H Hy Hy2). naive_solver. } { done. } { done. }
  { apply elem_of_dom. rewrite (mo_dom _ _ H). by apply elem_of_dom_2 in Ek. }
  cbind. unfold upd_t, upd_q. cbn [r_ts]. rewrite Ek. cbn [deref]. cbind. cbn [r_qs]. rewrite lookup_insert_eq. cbn [deref]. cbind. rewrite insert_insert_eq. cbn [r_log r_ns r_ts].
  do 2 eexists. exists (Lset L q SPending (L q SPending ++ [t])). split_and!; [done| | | | | | |done]; cbn [r_qs r_ts r_ns r_log note].
  - destruct (lists_side _ _ _ _ _ _ _ HL) as [HL1 HL2]. apply (mem_change s L q r _ t k); try done.
    + intros q' r0 w Hne E0. specialize (HL2 q' r0 w Hne E0). by rewrite Lset_other in HL2.
    + intros q' w Hne. by apply Lset_other.
    + intros u w Hut. unfold Lset. destruct (decide _) as [[_ ->]|]; [|done]. rewrite elem_of_app, list_elem_of_singleton. naive_solver.
    + intros q' w Hi. by destruct (Hout q' w).
    + intros w Hi. destruct w; [|done]. rewrite Lset_ne in Hi by (by right). by destruct (Hout q SRunning).
    + intros _. exists SPending. rewrite Lset_eq. apply elem_of_app. right. by left.
    + rewrite Lset_ne by (by right). apply (mo_num _ _ H q r Er).
    + apply (mo_max _ _ H q r Er).
    + intros u Hu Hn. by apply Hfo.
  - intros Hlog u. destruct (Hlog u) as [H1 H2]. unfold n_queued, n_waiting in *. cbn [r_log r_ts note]. rewrite !count_snoc. cbn [is_added is_completed is_started]. rewrite !(decide_False (P := False)) by tauto.
    destruct (decide (u = t)) as [->|Hne].
    + rewrite decide_True by done. rewrite lookup_insert_eq. rewrite Ek, Eqk in *. cbn in *. lia.
    + rewrite decide_False by congruence. rewrite lookup_insert_ne by done. lia.
  - by rewrite dom_insert_lookup_L.
  - by rewrite dom_insert_lookup_L.
  - repeat constructor. cbn. by rewrite lookup_insert_eq.
  - intros rest Hwk. apply (wake_one s L _ _ (IAdd q t) _ rest q); [|not_wake|done|].
    + intros q' Hne. cbn. rewrite lookup_insert_ne by done. split; [done|]. intros w. by apply Lset_other.
    + intros r' _ _. split; intros _; right; right; [|left]; by left.
Qed.

Lemma length_del t l : NoDup l -> t ∈ l -> Z.of_nat (length (del t l)) = Z.of_nat (length l) - 1.
Proof. intros Hn Ht. apply list_elem_of_split in Ht as (l1 & l2 & ->). rewrite del_at by done. rewrite !length_app. cbn. lia. Qed.

(** The queue and the memory after [t] left the side [w] of [q]. *)
Lemma good_leave s L q w r t k b : mem_ok s L -> r_qs s !! q = Some r -> r_ts s !! t = Some k -> t ∈ L q w -> t_q k = Some q -> queued k = true ->
  running k = bool_decide (w = SRunning) ->
  good_with (fun s' L' js => L' = Lset L q w (del t (L q w)) /\ r_log s' = r_log s ++ [Completed t] /\ js = rq_call b (CbCompleted t) ++ [ISchedule q] /\
      (forall u, u <> t -> r_ts s' !! u = r_ts s !! u) /\ (forall k', r_ts s' !! t = Some k' -> queued k' = false) /\
      (forall q', q' <> q -> r_qs s' !! q' = r_qs s !! q') /\
      forall r', r_qs s' !! q = Some r' -> stopped r' = stopped r /\ empty_rq r' = empty_rq r /\ max_running r' = max_running r /\ empty_fn r' = empty_fn r)
    s L (IComplete t)
    (s ← (if running k then s ← upd_q q (add_running (-1)) s; on_side q SRunning (fun d => ds_dlist_remove d t) s
          else on_side q SPending (fun d => ds_dlist_remove d t) s);
     s ← rq_task_set_timeout t 0 s; s ← upd_t t retire s; Ok (note (Completed t) s, rq_call b (CbCompleted t) ++ [ISchedule q])).
Proof.
  intros H Er Ek Hin Etq Eq Erun. set (c := if running k then add_running (-1) r else r).
  assert (exists h' N', (if running k then s ← upd_q q (add_running (-1)) s; on_side q SRunning (fun d => ds_dlist_remove d t) s
          else on_side q SPending (fun d => ds_dlist_remove d t) s) = Ok (mk_rqs (<[q := set_q_head w h' c]> (r_qs s)) (r_ts s) N' (r_log s)) /\
      lists_ok (<[q := set_q_head w h' c]> (r_qs s)) N' (Lset L q w (del t (L q w))) /\ dom N' = dom (r_ns s) /\
      N' !! t = Some (mk_dnode None None) /\ (forall y, y ∉ L q w -> N' !! y = r_ns s !! y)) as (h' & N' & -> & HL & Hd & Hnt & Hfo).
  { unfold c. rewrite Erun. destruct w.
    - rewrite bool_decide_eq_true_2 by done. unfold upd_q. rewrite Er. cbn [deref]. cbind.
      destruct (side_remove s L H q SRunning r t Er Hin) as (h' & N' & E & HL & Hd & Hnt & Hfo). exists h', N'. unfold on_side in *. rewrite Er in E. cbn [deref r_qs] in *. cbn [mbind res_bind] in *.
      rewrite lookup_insert_eq. cbn [deref]. cbind. cbn [q_head add_running q_running r_ns] in *. apply bind_Ok in E as ([h N] & -> & E). injection E as E1 E2. cbind. cbn [r_ts r_log]. subst N.
      rewrite insert_insert_eq. split_and!; [|intros q' r' v [[<- <-]|[Hne E']]%lookup_insert_Some|done|done|done].
      + do 2 f_equal. apply (f_equal (fun m => m !! q)) in E1. rewrite !lookup_insert_eq in E1. injection E1 as ->. done.
      + specialize (HL q (set_q_head SRunning h' r) v (lookup_insert_eq _ _ _)). by destruct v.
      + apply HL. by rewrite lookup_insert_ne.
    - rewrite bool_decide_eq_false_2 by done. by apply side_remove. }
  cbind. rewrite (set_timeout_run _ t k) by (first [done|by exists q]). cbind. unfold upd_t. cbn [r_ts]. rewrite lookup_insert_eq. cbn [deref]. cbind. rewrite insert_insert_eq. cbn [r_qs r_ns r_log].
  do 2 eexists. exists (Lset L q w (del t (L q w))). pose proof (lrep_nodup _ _ _ (mo_rep _ _ H q r w Er)) as Hnd. destruct (lists_side _ _ _ _ _ _ _ HL) as [HL1 HL2].
  split; [done|]. split; [|split; [|split; [|split; [|split; [|split]]]]].
  - apply (mem_change s L q r _ t k); try done.
    + intros q' r0 v Hne E0. specialize (HL2 q' r0 v Hne E0). by rewrite Lset_other in HL2.
    + intros q' v Hne. by apply Lset_other.
    + intros u v Hut. unfold Lset. destruct (decide _) as [[_ ->]|]; [|done]. rewrite in_del. naive_solver.
    + intros q' v Hi. by destruct (in_unique _ _ _ _ _ _ _ H Hi Hin).
    + intros v Hi. unfold Lset in Hi. destruct (decide _) as [[_ ->]|Hne]; [by apply in_del in Hi as [? _]|]. destruct (in_unique _ _ _ _ _ _ _ H Hi Hin). naive_solver.
    + pose proof (mo_num _ _ H q r Er) as Hnum. unfold c. rewrite Erun. destruct w; [rewrite bool_decide_eq_true_2 by done|rewrite bool_decide_eq_false_2 by done]; cbn.
      * rewrite Lset_eq. rewrite length_del by done. lia.
      * by rewrite Lset_ne by (by right).
    + pose proof (mo_max _ _ H q r Er). unfold c. rewrite Erun. destruct w; [rewrite bool_decide_eq_true_2 by done|rewrite bool_decide_eq_false_2 by done]; cbn; lia.
    + intros He v. assert (HE : empty_rq r = true) by (unfold c in He; rewrite Erun in He; by destruct w, (bool_decide _)). pose proof (mo_empty _ _ H q r w Er HE) as E0. rewrite E0 in Hin. by apply elem_of_nil in Hin.
    + intros u Hu Hn. by apply Hfo.
  - intros Hlog u. destruct (Hlog u) as [H1 H2]. cbn [r_log note]. rewrite !count_snoc. cbn [is_added is_completed is_started]. rewrite !(decide_False (P := False)) by tauto. destruct (decide (u = t)) as [->|Hne].
    + rewrite decide_True by done. unfold n_queued, n_waiting in *. cbn [r_ts note]. rewrite lookup_insert_eq. rewrite Ek, Eq in *. cbn in *. destruct (running k); cbn in *; lia.
    + rewrite decide_False by congruence. unfold n_queued, n_waiting in *. cbn [r_ts note]. rewrite lookup_insert_ne by done. lia.
  - cbn. by rewrite dom_insert_lookup_L.
  - cbn. by rewrite dom_insert_lookup_L.
  - apply Forall_app. split; [done|]. repeat constructor. cbn. by rewrite lookup_insert_eq.
  - intros rest Hwk. apply (wake_one s L _ _ (IComplete t) _ rest q); [|not_wake|done|].
    + intros q' Hne. cbn. rewrite lookup_insert_ne by done. split; [done|]. intros v. by apply Lset_other.
    + intros r' _ _. rewrite !elem_of_app. split; intros _; right; right; [|left]; left; right; by left.
  - cbn. split_and!; try done.
    + intros u Hu. by rewrite lookup_insert_ne.
    + rewrite lookup_insert_eq. by intros k' [= <-].
    + intros q' Hq. by rewrite lookup_insert_ne.
    + rewrite lookup_insert_eq. intros r' [= <-]. unfold c. by destruct w, (running k).
Qed.

Lemma good_complete s L t : mem_ok s L -> is_Some (r_ts s !! t) -> good s L (IComplete t) (rq_task_complete t s).
Proof.
  intros H [k Ek]. unfold rq_task_complete. rewrite Ek. cbn [deref]. cbind. destruct (queued k) eqn:Eq; [|apply good_nop; [done|not_wake|constructor]].
  destruct (mo_out _ _ H _ _ Ek Eq) as (q & w & Hin). destruct (mo_in _ _ H _ _ _ Hin) as (k' & Ek' & Etq & _ & Er). rewrite Ek in Ek'. injection Ek' as <-. rewrite Etq.
  destruct (r_qs s !! q) as [r|] eqn:Erq; [by eapply good_weaken, good_leave|]. rewrite (mo_none _ _ H q w Erq) in Hin. by apply elem_of_nil in Hin.
Qed.

Lemma can_start_spec s L q r : mem_ok s L -> r_qs s !! q = Some r -> stopped r = false -> rq_can_start_next r = true <-> needs_start r (L q SPending).
Proof.
  intros H Er Hs. unfold rq_can_start_next, needs_start. rewrite Hs. pose proof (head_none _ _ _ (mo_rep _ _ H q r SPending Er)) as EP. cbn [q_head] in EP. rewrite EP.
  destruct (empty_rq r) eqn:He; [rewrite (mo_empty _ _ H q r SPending Er He); split; [done|by intros [? _]]|].
  clear EP. case_bool_decide as HP; [rewrite HP; split; [done|by intros [? _]]|]. destruct (rq_is_full r); split; try done; by intros [_ ?].
Qed.
Lemma not_full r : rq_is_full r = false -> 0 < max_running r -> num_running r + 1 <= max_running r.
Proof. unfold rq_is_full. destruct (max_running r =? 0) eqn:E; zbool; [lia|]. destruct (num_running r <? max_running r) eqn:E2; zbool; [lia|done]. Qed.

Lemma good_start s L q r : mem_ok s L -> r_qs s !! q = Some r -> rq_can_start_next r = true ->
  good_with (fun s' L' js => exists t P c, L q SPending = t :: P /\ js = c ++ [IRun q] /\ (c = [] \/ exists b, c = [ICb b]) /\ r_log s' = r_log s ++ [Started t] /\
      L' q SPending = P /\ L' q SRunning = L q SRunning ++ [t] /\
      exists r', r_qs s' !! q = Some r' /\ stopped r' = false /\ max_running r' = max_running r /\ empty_rq r' = false /\ empty_fn r' = empty_fn r)
    s L (IRun q) ('(s, c) ← rq_start_next q s; Ok (s, c ++ [IRun q])).
Proof.
  intros H Er Hc. assert (Hs : stopped r = false) by (unfold rq_can_start_next in Hc; by destruct (stopped r)). destruct (proj1 (can_start_spec _ _ _ _ H Er Hs) Hc) as [HP Hfull].
  unfold rq_start_next. rewrite Er. cbn [deref]. cbind. pose proof (lrep_head _ _ _ (mo_rep _ _ H q r SPending Er)) as EP. cbn [q_head] in EP. rewrite EP.
  destruct (L q SPending) as [|t P] eqn:EL; [done|]. cbn [head].
  assert (Hin : t ∈ L q SPending) by (rewrite EL; by left). destruct (mo_in _ _ H _ _ _ Hin) as (k & Ek & Etq & Eqk & Erk). rewrite bool_decide_eq_false_2 in Erk by done.
  destruct (side_remove s L H q SPending r t Er Hin) as (h1 & N1 & -> & HL1 & Hd1 & _ & Hfo1). cbind. cbn [r_ts]. rewrite Ek. cbn [deref]. cbind. rewrite bool_decide_eq_true_2 by done. cbn [c_assert]. cbind.
  set (L1 := Lset L q SPending (del t (L q SPending))).
  assert (Hout1 : forall q' w, t ∉ L1 q' w).
  { intros q' w Hi. unfold L1, Lset in Hi. destruct (decide _) as [[-> ->]|Hne]; [by apply in_del in Hi as [? _]|]. destruct (in_unique _ _ _ _ _ _ _ H Hi Hin). naive_solver. }
  assert (Hsub : forall q' w u, u ∈ L1 q' w -> u ∈ L q' w). { intros q' w u. unfold L1, Lset. destruct (decide _) as [[-> ->]|]; [|done]. by intros [_ ?]%in_del. }
  destruct (side_insert (mk_rqs (<[q := set_q_head SPending h1 r]> (r_qs s)) (r_ts s) N1 (r_log s)) L1 q SRunning (set_q_head SPending h1 r) t) as (h2 & N2 & -> & HL2 & Hd2 & Hfo2).
  { exact HL1. } { intros q' w' y Hne Hy%Hsub Hy2%Hsub. destruct (in_unique _ _ _ _ _ _ _ H Hy Hy2). naive_solver. } { cbn. apply lookup_insert_eq. } { done. }
  { cbn. apply elem_of_dom. rewrite Hd1, (mo_dom _ _ H). by apply elem_of_dom_2 in Ek. }
  cbind. unfold upd_t. cbn [r_ts r_qs]. rewrite Ek. cbn [deref]. cbind. unfold upd_q. cbn [r_qs]. rewrite lookup_insert_eq. cbn [deref]. cbind. cbn [r_qs r_ts r_ns r_log]. rewrite !insert_insert_eq.
  rewrite (set_timeout_run _ t (set_running true k)); [|cbn; apply lookup_insert_eq|by exists q]. cbind. cbn [r_qs r_ts r_ns r_log]. rewrite insert_insert_eq.
  cbn [r_qs] in HL2. rewrite insert_insert_eq in HL2. set (L2 := Lset L1 q SRunning (L1 q SRunning ++ [t])) in *.
  assert (HR : L1 q SRunning = L q SRunning) by (unfold L1; apply Lset_ne; by right).
  assert (HL2q : forall q' w, q' <> q -> L2 q' w = L q' w) by (intros q' w Hne; unfold L2, L1; by rewrite !Lset_other).
  do 2 eexists. exists L2. split; [done|]. split; [|split; [|split; [|split; [|split; [|split]]]]].
  - apply (mem_change s L q r _ t k); try done.
    + cbn. by rewrite Hd2.
    + intros w. specialize (HL2 q _ w (lookup_insert_eq _ _ _)). by destruct w.
    + intros q' r0 w Hne E0. specialize (HL2 q' r0 w). rewrite lookup_insert_ne, HL2q in HL2 by done. by apply HL2.
    + intros u w Hut. unfold L2, L1, Lset. destruct w.
      * rewrite decide_True by done. rewrite decide_False by naive_solver. rewrite elem_of_app, list_elem_of_singleton. naive_solver.
      * rewrite decide_False by naive_solver. rewrite decide_True by done. rewrite in_del. naive_solver.
    + intros q' w Hi. by destruct (in_unique _ _ _ _ _ _ _ H Hi Hin).
    + intros w Hi. destruct w; [by rewrite bool_decide_eq_true_2|]. unfold L2 in Hi. rewrite Lset_ne in Hi by (by right). by destruct (Hout1 q SPending).
    + intros _. exists SRunning. unfold L2. rewrite Lset_eq. apply elem_of_app. right. by left.
    + cbn. congruence.
    + unfold L2. rewrite Lset_eq, HR, length_app. cbn. rewrite (mo_num _ _ H q r Er). lia.
    + cbn. intros Hm. by apply not_full.
    + cbn. intros He. unfold rq_can_start_next in Hc. rewrite He in Hc. by destruct (stopped r).
    + cbn. congruence.
    + intros u Hu Hn. rewrite Hfo2; [by apply Hfo1|done|]. intros Hi%Hsub. by apply (Hn q SRunning).
  - intros Hlog u. destruct (Hlog u) as [H1 H2]. unfold n_queued, n_waiting in *. cbn [r_log r_ts note]. rewrite !count_snoc. cbn [is_added is_completed is_started]. rewrite !(decide_False (P := False)) by tauto.
    destruct (decide (u = t)) as [->|Hne].
    + rewrite decide_True by done. rewrite lookup_insert_eq. rewrite Ek, Eqk, Erk in *. cbn in *. rewrite Eqk. cbn. lia.
    + rewrite decide_False by congruence. rewrite lookup_insert_ne by done. lia.
  - cbn. by rewrite dom_insert_lookup_L.
  - cbn. by rewrite dom_insert_lookup_L.
  - apply Forall_app. split; [done|]. repeat constructor. cbn. by rewrite lookup_insert_eq.
  - intros rest Hwk. apply (wake_one s L _ _ (IRun q) _ rest q); [|intros q' [[= ->]|[?|?]]; done|done|].
    + intros q' Hne. cbn. rewrite lookup_insert_ne by done. split; [done|]. intros v. by apply HL2q.
    + intros r' _ _. rewrite !elem_of_app. split; intros _; right; left; left; right; by left.
  - exists t, P, (rq_call (run_fn k) (CbRun t)). split_and!; [done|done|unfold rq_call; destruct (run_fn k); eauto|done| | |].
    + unfold L2. rewrite Lset_ne by (by right). unfold L1. rewrite Lset_eq, EL. apply (del_at t [] P). cbn. rewrite <- EL. apply (lrep_nodup _ _ _ (mo_rep _ _ H q r SPending Er)).
    + unfold L2. by rewrite Lset_eq, HR.
    + cbn. rewrite lookup_insert_eq. eexists. split_and!; [done|done|done| |done]. cbn. unfold rq_can_start_next in Hc. rewrite Hs in Hc. by destruct (empty_rq r).
Qed.

Lemma good_run s L q : mem_ok s L -> is_Some (r_qs s !! q) -> good s L (IRun q) (exec_run q s).
Proof.
  intros H [r Er]. unfold exec_run. rewrite Er. cbn [deref]. cbind. destruct (rq_can_start_next r) eqn:Hc; [by eapply good_weaken, good_start|].
  exists s, [IReport q], L. split_and!; try done; [by repeat constructor; exists r|]. intros rest Hwk. apply (wake_one s L _ L (IRun q) _ rest q); [done|intros q' [[= ->]|[?|?]]; done|done|].
  intros r' E'. rewrite Er in E'. injection E' as <-. intros Hs. split.
  - intros Hn. apply (can_start_spec _ _ _ _ H Er Hs) in Hn. congruence.
  - intros _. right. right. right. by left.
Qed.

Lemma exec_good s L i : mem_ok s L -> instr_ok s i -> good s L i (exec i s).
Proof.
  intros H Hi. destruct i as [q t|t|t|t|t|q|q|q|q|q|b q w|b o|c]; cbn [exec instr_ok] in *.
  - destruct Hi. by apply good_add.
  - by apply good_cancel.
  - by apply good_kill.
  - by apply good_complete.
  - by apply good_timeout.
  - by apply good_stop.
  - by apply good_resume.
  - by apply good_schedule.
  - by apply good_report.
  - by apply good_run.
  - destruct Hi as [r Er]. rewrite Er. cbn [deref]. cbind. apply good_nop; [done|not_wake|]. constructor; [|constructor]. cbn.
    pose proof (mo_rep _ _ H q r w Er) as R. destruct (dh_head (q_head w r)) as [t|] eqn:Eh; [|done]. rewrite (lrep_head _ _ _ R) in Eh.
    assert (Hin : t ∈ L q w) by (destruct (L q w); [done|]; injection Eh as ->; by left). destruct (mo_in _ _ H _ _ _ Hin) as (k & -> & _). done.
  - destruct o as [t|]; [|by apply good_nop; [|not_wake|]]. assert (is_Some (r_ns s !! t)) as [n En] by (apply elem_of_dom; rewrite (mo_dom _ _ H); by apply elem_of_dom).
    rewrite En. cbn [deref]. cbind. apply good_nop; [done|not_wake|]. constructor; [by destruct b|]. constructor; [|constructor]. cbn. destruct (odn_next n) as [u|] eqn:Eu; [|done].
    destruct Hi as [k Ek]. destruct (queued k) eqn:Eqk.
    + destruct (mo_out _ _ H _ _ Ek Eqk) as (q & w & Hin). destruct (r_qs s !! q) as [r|] eqn:Er; [|rewrite (mo_none _ _ H q w Er) in Hin; by apply elem_of_nil in Hin].
      pose proof (mo_rep _ _ H q r w Er) as R. apply list_elem_of_split in Hin as (l1 & l2 & El). rewrite El in R. pose proof (next_ok _ _ _ _ R) as Hn. unfold ds_dlist_next in Hn. cbn in Hn. rewrite En in Hn. cbn in Hn. injection Hn as Hn.
      rewrite Eu in Hn. destruct l2 as [|v l2]; [done|]. injection Hn as ->. assert (Hv : v ∈ L q w) by (rewrite El; set_solver +). destruct (mo_in _ _ H _ _ _ Hv) as (k' & -> & _). done.
    + pose proof (mo_free _ _ H t k Ek Eqk) as Hn. rewrite En in Hn. injection Hn as ->. done.
  - by apply good_nop; [|not_wake|].
Qed.

(** ** Steps *)
Lemma instr_ok_dom s s' i : dom (r_qs s) ⊆ dom (r_qs s') -> dom (r_ts s) ⊆ dom (r_ts s') -> instr_ok s i -> instr_ok s' i.
Proof.
  intros Hq Ht. assert (HQ : forall q, is_Some (r_qs s !! q) -> is_Some (r_qs s' !! q)) by (intros q ?; apply elem_of_dom, Hq; by apply elem_of_dom).
  assert (HT : forall t, is_Some (r_ts s !! t) -> is_Some (r_ts s' !! t)) by (intros t ?; apply elem_of_dom, Ht; by apply elem_of_dom).
  destruct i as [| | | | | | | | | | |? []|]; cbn; naive_solver.
Qed.
Lemma instrs_ok_dom s s' st : dom (r_qs s) ⊆ dom (r_qs s') -> dom (r_ts s) ⊆ dom (r_ts s') -> Forall (instr_ok s) st -> Forall (instr_ok s') st.
Proof. intros Hq Ht Hf. eapply Forall_impl; [exact Hf|]. intros i. by apply instr_ok_dom. Qed.

Lemma wake_app s L js st : wake_ok s L st -> wake_ok s L (js ++ st).
Proof. intros Hw q r E. eapply wake_q_mono; [by apply Hw|]. intros i Hi _. apply elem_of_app. by right. Qed.

Lemma new_queue_ok s L q max e st : r_qs s !! q = None -> mem_ok s L -> log_ok s -> wake_ok s L st -> Forall (instr_ok s) st ->
  mach_ok (mk_rqs (<[q := rq_init max e]> (r_qs s)) (r_ts s) (r_ns s) (r_log s), st).
Proof.
  intros Eq [M1 M2 M3 M4 M5 M6 M7 M8 M9 M10 M11] Hlog Hw Hi. exists L. cbn [fst snd]. split_and!; [|done| |].
  - split; cbn [r_qs r_ts r_ns]; try done.
    + intros q' r w [[<- <-]|[Hne E]]%lookup_insert_Some; [|by apply M1]. rewrite M2 by done. destruct w; apply lrep_init.
    + intros q' w [E Hne]%lookup_insert_None. by apply M2.
    + intros q' r [[<- <-]|[Hne E]]%lookup_insert_Some; [by rewrite M2|by apply (M7 q' r)].
    + intros q' r [[<- <-]|[Hne E]]%lookup_insert_Some; [cbn; lia|by apply (M8 q' r)].
    + intros q' r w [[<- <-]|[Hne E]]%lookup_insert_Some; [intros _; by apply M2|by apply (M9 q' r)].
  - intros q' r. cbn [r_qs]. intros [[<- <-]|[Hne E]]%lookup_insert_Some; [|by apply Hw]. rewrite !M2 by done. intros _. split; [by intros [? _]|by intros (_ & _ & ?)].
  - eapply instrs_ok_dom; [| |exact Hi]; cbn; [|done]. rewrite dom_insert. set_solver +.
Qed.

Lemma new_task_ok s L t k st : r_ts s !! t = None -> mem_ok s L -> log_ok s -> wake_ok s L st -> Forall (instr_ok s) st ->
  mach_ok (mk_rqs (r_qs s) (<[t := task_zero k]> (r_ts s)) (<[t := mk_dnode None None]> (r_ns s)) (r_log s), st).
Proof.
  intros Et [M1 M2 M3 M4 M5 M6 M7 M8 M9 M10 M11] Hlog Hw Hi. exists L. cbn [fst snd].
  assert (Hout : forall q w, t ∉ L q w). { intros q w Hin. destruct (M3 q w t Hin) as (k' & E & _). congruence. } split_and!; [| |done|].
  - split; cbn [r_qs r_ts r_ns]; try done.
    + intros q r w E. eapply lrep_frame; [|by apply M1]. intros y Hy. rewrite lookup_insert_ne; [done|]. intros ->. by apply (Hout q w).
    + intros q w u Hu. rewrite lookup_insert_ne by (intros ->; by apply (Hout q w)). by apply M3.
    + intros u k' [[<- <-]|[Hne E]]%lookup_insert_Some; [done|by apply (M4 u k')].
    + intros u k' [[<- <-]|[Hne E]]%lookup_insert_Some; [done|by apply (M5 u k')].
    + by rewrite !dom_insert_L, M6.
    + intros u k' [[<- <-]|[Hne E]]%lookup_insert_Some; [done|by apply (M10 u k')].
    + intros u k' [[<- <-]|[Hne E]]%lookup_insert_Some; [by rewrite lookup_insert_eq|]. rewrite lookup_insert_ne by done. by apply (M11 u k').
  - intros u. destruct (Hlog u) as [H1 H2]. unfold n_queued, n_waiting in *. cbn [r_ts r_log]. destruct (decide (u = t)) as [->|Hne].
    + rewrite lookup_insert_eq. rewrite Et in *. cbn. lia.
    + by rewrite lookup_insert_ne.
  - eapply instrs_ok_dom; [| |exact Hi]; cbn; [done|]. rewrite dom_insert. set_solver +.
Qed.

Lemma begin_call_ok s st a s' js : mach_ok (s, st) -> begin_call a s = Some (s', js) -> mach_ok (s', js ++ st).
Proof.
  intros (L & H & Hlog & Hw & Hi) E. cbn [fst snd] in *.
  assert (Hsame : forall js', Forall (instr_ok s) js' -> (s, js') = (s', js) -> mach_ok (s', js ++ st)).
  { intros js' Hj [= <- <-]. exists L. cbn [fst snd]. split_and!; [done|done|by apply wake_app|]. by apply Forall_app. }
  unfold begin_call, has_q, has_t, rq_fini, rq_kill, rq_cancel, rq_cancel_pending, rq_cancel_running in E.
  destruct a; repeat (case_bool_decide; cbn [andb] in E; try done); injection E as <- <-.
  - apply (new_queue_ok _ L); try done. by apply eq_None_not_Some.
  - apply (new_task_ok _ L); try done. by apply eq_None_not_Some.
  - eapply Hsame; [|done]. by repeat constructor.
  - eapply Hsame; [|done]. by repeat constructor.
  - eapply Hsame; [|done]. by repeat constructor.
  - eapply Hsame; [|done]. by repeat constructor.
  - eapply Hsame; [|done]. by repeat constructor.
  - eapply Hsame; [|done]. by repeat constructor.
  - eapply Hsame; [|done]. by repeat constructor.
  - eapply Hsame; [|done]. by repeat constructor.
  - eapply Hsame; [|done]. by repeat constructor.
  - eapply Hsame; [|done]. by repeat constructor.
  - eapply Hsame; [|done]. by repeat constructor.
Qed.

Lemma internal_ok s i rest : mach_ok (s, i :: rest) -> exists m', ('(s, js) ← exec i s; Ok (s, js ++ rest)) = Ok m' /\ mach_ok m'.
Proof.
  intros (L & H & Hlog & Hw & Hi). cbn [fst snd] in *. apply Forall_cons in Hi as [Hi Hr].
  destruct (exec_good _ _ _ H Hi) as (s' & js & L' & -> & H' & Hlog' & Hq & Ht & Hj & Hwk & _). cbind. eexists. split; [done|]. exists L'. cbn [fst snd].
  split_and!; [done|by apply Hlog'|by apply Hwk|]. apply Forall_app. split; [done|]. eapply instrs_ok_dom; [| |exact Hr]; by rewrite ?Hq, ?Ht.
Qed.

Lemma run_timer_ok s q r : mach_ok (s, []) -> r_qs s !! q = Some r ->
  exists s', upd_q q (set_run false) s = Ok s' /\ mach_ok (s', [IRun q]).
Proof.
  intros (L & H & Hlog & Hw & _) Er. cbn [fst snd] in *. unfold upd_q. rewrite Er. cbn [deref]. cbind. eexists. split; [done|]. exists L. cbn [fst snd]. split_and!.
  - apply queue_flags_ok; try done. cbn. intros He w. by apply (mo_empty _ _ H q r).
  - by eapply log_same; [|by left|exact Hlog].
  - intros q' r'. cbn [r_qs]. intros [[<- <-]|[Hne E]]%lookup_insert_Some.
    + intros _. split; intros _; right; left; by left.
    + eapply wake_q_mono; [by apply Hw|]. intros i Hx. by apply elem_of_nil in Hx.
  - repeat constructor. cbn. by rewrite lookup_insert_eq.
Qed.

Lemma timeout_ok s t k : mach_ok (s, []) -> r_ts s !! t = Some k -> exists s', upd_t t (set_timer None) s = Ok s' /\ mach_ok (s', [ITimeout t]).
Proof.
  intros (L & H & Hlog & Hw & _) Ek. cbn [fst snd] in *. unfold upd_t. rewrite Ek. cbn [deref]. cbind. eexists. split; [done|]. exists L. cbn [fst snd]. split_and!.
  - by apply (task_flags_ok s L t k (set_timer None)).
  - revert Hlog. apply log_same; [|by left]. intros u. by apply (flags_count s t k (set_timer None)).
  - eapply (wake_same s L _ (ITimeout t) [ITimeout t] []); [done|not_wake|]. eapply (wake_app _ _ [_]). exact Hw.
  - repeat constructor. cbn. by rewrite lookup_insert_eq.
Qed.

Lemma step_ok m mv o : mach_ok m -> step mv m = Some o -> exists m', o = Ok m' /\ mach_ok m'.
Proof.
  intros H E. destruct m as [s st]. unfold step in E. destruct st as [|i rest].
  - destruct mv as [a| |q|t|]; try done.
    + destruct (begin_call a s) as [[s' js]|] eqn:Eb; [|done]. cbn in E. injection E as <-. eexists. split; [done|]. rewrite <- (app_nil_r js). by eapply begin_call_ok.
    + destruct (r_qs s !! q) as [r|] eqn:Er; [|done]. cbn in E. destruct (q_run r); [|done]. destruct (run_timer_ok _ _ _ H Er) as (s' & Eu & H'). rewrite Eu in E. injection E as <-. by eexists.
    + destruct (r_ts s !! t) as [k|] eqn:Ek; [|done]. cbn in E. destruct (t_timeout k); [|done]. destruct (timeout_ok _ _ _ H Ek) as (s' & Eu & H'). rewrite Eu in E. injection E as <-. by eexists.
  - assert (Hint : Some ('(s, js) ← exec i s; Ok (s, js ++ rest)) = Some o -> exists m', o = Ok m' /\ mach_ok m').
    { intros [= <-]. destruct (internal_ok _ _ _ H) as (m' & -> & H'). by exists m'. }
    destruct i; destruct mv as [a| |q'|t'|]; try done; try (by apply Hint).
    + destruct (begin_call a s) as [[s' js]|] eqn:Eb; [|done]. cbn in E. injection E as <-. eexists. split; [done|]. by eapply begin_call_ok.
Qed.

Lemma zero_mach_ok : mach_ok (rqs_zero, []).
Proof.
  exists (fun _ _ => []). cbn [fst snd]. split_and!; [|done|done|constructor]. split; cbn [rqs_zero r_qs r_ts r_ns]; try done.
  by intros q w t Ht%elem_of_nil.
Qed.
Lemma reach_ok m : reach m -> mach_ok m.
Proof.
  induction 1 as [|m mv m' _ IH E]; [apply zero_mach_ok|]. destruct (step_ok _ _ _ IH E) as (m1 & [= <-] & ?). done.
Qed.

(** ** Theorems *)
(** A step is possible: the code runs on, or it is the client's turn. *)
Definition clients_turn (m : mach) : Prop := match m.2 with [] | ICb _ :: _ => True | _ => False end.

(** C17: Run queues are safe against their callbacks.  Whatever the callbacks call, from
    within any function of the queue and however deeply nested, the queue never follows a
    stale pointer and no assertion fails; it is always either the client's turn or the code
    can run on.  In every state so reached, also in the middle of a callback, the lists of
    a queue hold exactly the tasks whose flags say so, the number of running tasks
    is the one counted, and it respects the limit. *)
Theorem rq_safe m : reach m ->
  (forall mv o, step mv m = Some o -> exists m', o = Ok m') /\ (clients_turn m \/ exists m', step MInternal m = Some (Ok m')) /\
  forall q r, r_qs m.1 !! q = Some r -> exists R P,
    lrep (r_ns m.1) (q_running r) R /\ lrep (r_ns m.1) (q_pending r) P /\
    (forall t, t ∈ R <-> exists k, r_ts m.1 !! t = Some k /\ queued k = true /\ running k = true /\ t_q k = Some q) /\
    (forall t, t ∈ P <-> exists k, r_ts m.1 !! t = Some k /\ queued k = true /\ running k = false /\ t_q k = Some q) /\
    num_running r = Z.of_nat (length R) /\ (0 < max_running r -> num_running r <= max_running r).
Proof.
  intros Hm%reach_ok. split_and!.
  - intros mv o E. destruct (step_ok _ _ _ Hm E) as (m' & ? & _). by exists m'.
  - destruct m as [s [|i rest]]; [by left|]. destruct (internal_ok _ _ _ Hm) as (m' & Ei & _).
    assert (step MInternal (s, i :: rest) = Some ('(s, js) ← exec i s; Ok (s, js ++ rest)) \/ exists c, i = ICb c) as [Es|[c ->]]; [|right; exists m'; by rewrite Es, Ei|by left].
    destruct i; [by left..|right; by eexists].
  - destruct m as [s st]. destruct Hm as (L & H & _). cbn [fst snd] in *. intros q r Er. exists (L q SRunning), (L q SPending).
    assert (Hside : forall w t, t ∈ L q w <-> exists k, r_ts s !! t = Some k /\ queued k = true /\ running k = bool_decide (w = SRunning) /\ t_q k = Some q).
    { intros w t. split; [intros Hi; destruct (mo_in _ _ H _ _ _ Hi) as (k & ? & ? & ? & ?); by exists k|]. intros (k & Ek & Hq & Hr & Ht).
      destruct (mo_out _ _ H _ _ Ek Hq) as (q' & w' & Hi). destruct (mo_in _ _ H _ _ _ Hi) as (k' & Ek' & Ht' & _ & Hr'). rewrite Ek in Ek'. injection Ek' as <-.
      assert (q' = q) as -> by congruence. rewrite Hr in Hr'. by destruct w, w'. }
    split_and!; [apply (mo_rep _ _ H q r SRunning Er)|apply (mo_rep _ _ H q r SPending Er)|apply (Hside SRunning)|apply (Hside SPending)|apply (mo_num _ _ H q r Er)|apply (mo_max _ _ H q r Er)].
Qed.

(** C20: Completion is exactly once.  In every state, each addition of a task to a queue has
    either been followed by one completion or the task is still queued; a task
    starts at most once per addition, and never completes without having been added. *)
Theorem rq_completes_once m t : reach m ->
  (count (is_added t) (r_log m.1) = count (is_completed t) (r_log m.1) + n_queued m.1 t)%nat /\
  (count (is_started t) (r_log m.1) + n_waiting m.1 t <= count (is_added t) (r_log m.1))%nat.
Proof. intros (L & _ & Hlog & _)%reach_ok. apply Hlog. Qed.

(** C21: No wake-up is lost.  Whenever the event loop is idle and a queue is not stopped, its
    timer is started if there is anything to do: a pending task and room for it, or an
    emptied queue whose owner has not been told. *)
Theorem rq_wakeup s q r : reach (s, []) -> r_qs s !! q = Some r -> stopped r = false -> q_run r = false ->
  (dh_head (q_pending r) = None \/ rq_is_full r = true) /\ (dh_head (q_pending r) = None -> dh_head (q_running r) = None -> empty_rq r = true).
Proof.
  intros (L & H & _ & Hw & _)%reach_ok Er Hs Hrun. cbn [fst snd] in *. destruct (Hw q r Er Hs) as [H1 H2].
  pose proof (lrep_head _ _ _ (mo_rep _ _ H q r SPending Er)) as EP. pose proof (lrep_head _ _ _ (mo_rep _ _ H q r SRunning Er)) as ER. cbn [q_head] in *. split.
  - destruct (L q SPending) eqn:E; [by left|]. destruct (rq_is_full r) eqn:Ef; [by right|]. destruct H1 as [?|[Hx|Hx]]; [done|congruence|by apply elem_of_nil in Hx..].
  - intros HP HR. destruct (empty_rq r) eqn:Ee; [done|]. destruct H2 as [?|[Hx|[Hx|Hx]]]; [|congruence|by apply elem_of_nil in Hx..].
    rewrite EP in HP. rewrite ER in HR. split_and!; [by destruct (L q SRunning)|by destruct (L q SPending)|done].
Qed.

(** ** An example *)
(** A queue for one task at a time; the first of two tasks runs, and its completion is
    reported in the middle of its own start. *)
Definition all_fns : rq_task := mk_task None None false false false false false false true true true true 1000 500.
Definition demo_moves : list move :=
  [MCall (ANewQueue 1 1 true); MCall (ANewTask 2 all_fns); MCall (ANewTask 3 all_fns); MCall (AAdd 1 2); MInternal; MInternal;
   MCall (AAdd 1 3); MInternal; MInternal; MRunTimer 1; MInternal].
Definition demo_more : list move := [MReturn; MInternal; MInternal].

Lemma rq_safe_witness : exists m, reach m /\ clients_turn m /\ (exists r, r_qs m.1 !! 1%positive = Some r /\ num_running r = 1) /\
  (exists m', step (MCall (ATaskKill 2)) m = Some (Ok m')) /\ r_log m.1 = [Added 1 2; Added 1 3; Started 2].
Proof.
  assert (E : exists m, run_moves demo_moves (rqs_zero, []) = Some m) by (eexists; vm_compute; reflexivity). destruct E as [m E].
  assert (Hr : reach m) by (eapply reach_moves; [apply reach_zero|exact E]). exists m. destruct (rq_safe m Hr) as (H1 & _ & _). vm_compute in E. injection E as <-.
  split_and!; [exact Hr|exact I|eexists; split; reflexivity| |reflexivity].
  destruct (step (MCall (ATaskKill 2)) _) as [o|] eqn:Es; [|done]. destruct (H1 _ _ Es) as [m' ->]. by exists m'.
Defined.

Lemma rq_completes_once_witness : exists m, reach m /\ r_log m.1 = [Added 1 2; Added 1 3; Started 2] /\
  (count (is_added 2) (r_log m.1) = count (is_completed 2) (r_log m.1) + n_queued m.1 2)%nat.
Proof.
  assert (E : exists m, run_moves demo_moves (rqs_zero, []) = Some m) by (eexists; vm_compute; reflexivity). destruct E as [m E].
  assert (Hr : reach m) by (eapply reach_moves; [apply reach_zero|exact E]). exists m. destruct (rq_completes_once m 2 Hr) as [H1 _]. split_and!; [done| |exact H1].
  vm_compute in E. injection E as <-. reflexivity.
Defined.

Lemma rq_wakeup_witness : exists s r, reach (s, []) /\ r_qs s !! 1%positive = Some r /\ q_run r = false /\ rq_is_full r = true /\
  (dh_head (q_pending r) = None \/ rq_is_full r = true).
Proof.
  assert (E : exists s, run_moves (demo_moves ++ demo_more) (rqs_zero, []) = Some (s, [])) by (eexists; vm_compute; reflexivity). destruct E as [s E].
  assert (Hr : reach (s, [])) by (eapply reach_moves; [apply reach_zero|exact E]). vm_compute in E. injection E as <-. do 2 eexists.
  assert (Hw := rq_wakeup _ 1%positive _ Hr eq_refl eq_refl eq_refl). destruct Hw as [Hw _]. split_and!; [exact Hr|reflexivity|reflexivity|reflexivity|exact Hw].
Defined.
