(* ===== verification/RqRun.v ===== *)
(** * RqRun: what run queues do for clients whose callbacks only return

    Total correctness of the loops of [rq.c]: the run timer starts tasks in order as far
    as there is room, killing a queue completes all its tasks and reports it empty, and
    the timeouts of a task end it; and an example of a callback that defeats the loop over a
    list. *)
From S2P Require Import Prelude DsDlist DsDlistMem Rq RqInv.

Definition runs (m m' : mach) : Prop := exists n, forall k, settle (n + k) m = settle k m'.
Lemma runs_refl m : runs m m.
Proof. by exists 0%nat. Qed.
Lemma runs_trans m1 m2 m3 : runs m1 m2 -> runs m2 m3 -> runs m1 m3.
Proof. intros [n1 H1] [n2 H2]. exists (n1 + n2)%nat. intros k. by rewrite <- Nat.add_assoc, H1, H2. Qed.
Lemma runs_step s i rest s' js m : exec i s = Ok (s', js) -> runs (s', js ++ rest) m -> runs (s, i :: rest) m.
Proof. intros E [n H]. exists (S n). intros k. cbn [settle Nat.add fst snd]. rewrite E. cbind. apply H. Qed.
Lemma runs_call s b c rest : runs (s, rq_call b c ++ rest) (s, rest).
Proof. destruct b; [|apply runs_refl]. eapply runs_step; [done|]. apply runs_refl. Qed.
Lemma runs_call_end s b c : runs (s, rq_call b c ++ []) (s, []).
Proof. apply runs_call. Qed.
Lemma runs_idle m s : runs m (s, []) -> exists n, settle n m = Ok (s, []).
Proof. intros [n H]. exists (n + 1)%nat. by rewrite H. Qed.

(** What does not change in a queue while it is emptied. *)
Definition same_rq (r r' : rq) : Prop := stopped r' = stopped r /\ empty_rq r' = empty_rq r /\ max_running r' = max_running r /\ empty_fn r' = empty_fn r.
Lemma same_rq_trans r1 r2 r3 : same_rq r1 r2 -> same_rq r2 r3 -> same_rq r1 r3.
Proof. intros (?&?&?&?) (?&?&?&?). split_and!; congruence. Qed.

Lemma schedule_runs s L q r rest : mem_ok s L -> r_qs s !! q = Some r ->
  exists s' r', runs (s, ISchedule q :: rest) (s', rest) /\ mem_ok s' L /\ r_log s' = r_log s /\ r_qs s' !! q = Some r' /\ same_rq r r'.
Proof.
  intros H Er. do 2 eexists. split_and!.
  - eapply (runs_step _ _ _ _ []); [|apply runs_refl]. cbn [exec]. unfold rq_schedule, upd_q. rewrite Er. cbn [deref]. cbind. reflexivity.
  - apply queue_flags_ok; try done. cbn. intros He w. by apply (mo_empty _ _ H q r).
  - done.
  - cbn. apply lookup_insert_eq.
  - done.
Qed.

Lemma complete_runs s L q w r t rest : mem_ok s L -> r_qs s !! q = Some r -> t ∈ L q w ->
  exists s' r', runs (s, IComplete t :: rest) (s', rest) /\ mem_ok s' (Lset L q w (del t (L q w))) /\ r_log s' = r_log s ++ [Completed t] /\
    r_qs s' !! q = Some r' /\ same_rq r r'.
Proof.
  intros H Er Hin. destruct (mo_in _ _ H _ _ _ Hin) as (k & Ek & Etq & Eq & Erun).
  destruct (good_leave s L q w r t k (completed_fn k) H Er Ek Hin Etq Eq Erun) as (s1 & js & L1 & E & H1 & _ & Hd & _ & _ & _ & -> & Hlog & -> & _ & _ & _ & Hr1).
  assert (is_Some (r_qs s1 !! q)) as [r1 Er1] by (apply elem_of_dom; rewrite Hd; by apply elem_of_dom_2 in Er).
  destruct (schedule_runs s1 _ q r1 rest H1 Er1) as (s2 & r2 & R2 & H2 & Hlog2 & Er2 & Hs2). exists s2, r2. split_and!; [|done|congruence|done|].
  - eapply runs_step; [cbn [exec]; unfold rq_task_complete; rewrite Ek; cbn [deref]; cbind; rewrite Eq, Etq; exact E|]. rewrite <- app_assoc. eapply runs_trans; [apply runs_call|exact R2].
  - eapply same_rq_trans; [|exact Hs2]. by apply Hr1.
Qed.

(** ** Loops over a list *)
Definition body_side (b : loop_body) : rq_side := match b with KCancel => SPending | KKill => SRunning end.
Definition body_log (b : loop_body) (t : loc) : list rq_ev := match b with KCancel => [Completed t] | KKill => [Killed t; Completed t] end.

(** Killing a running task and cancelling a pending one complete it. *)
Lemma body_runs b s L q r t rest : mem_ok s L -> r_qs s !! q = Some r -> t ∈ L q (body_side b) ->
  exists s' r', runs (s, body_of b t :: rest) (s', rest) /\ mem_ok s' (Lset L q (body_side b) (del t (L q (body_side b)))) /\
    r_log s' = r_log s ++ body_log b t /\ r_qs s' !! q = Some r' /\ same_rq r r'.
Proof.
  intros H Er Hin. destruct (mo_in _ _ H _ _ _ Hin) as (k & Ek & Etq & Eq & Erun). destruct b; cbn [body_side body_of body_log] in *.
  - destruct (complete_runs s L q SPending r t rest H Er Hin) as (s' & r' & R & H' & Hl & Er' & Hs). exists s', r'. split_and!; try done.
    eapply (runs_step _ _ _ _ [IComplete t]); [|exact R]. cbn [exec]. unfold rq_task_cancel. rewrite Ek. cbn [deref]. cbind. rewrite Eq, Etq, bool_decide_eq_true_2 by done. cbn [c_assert]. cbind. by rewrite Erun.
  - set (s1 := note (Killed t) (mk_rqs (r_qs s) (<[t := set_killed k]> (r_ts s)) (r_ns s) (r_log s))).
    assert (H1 : mem_ok s1 L). { apply (task_flags_ok s L t k set_killed); try done. rewrite Erun. by rewrite bool_decide_eq_true_2. }
    destruct (complete_runs s1 L q SRunning r t rest H1 Er Hin) as (s' & r' & R & H' & Hl & Er' & Hs). exists s', r'. split_and!; try done.
    + eapply runs_step; [cbn [exec]; unfold rq_task_kill, upd_t; rewrite Ek; cbn [deref]; cbind; rewrite Eq, Erun, bool_decide_eq_true_2 by done; reflexivity|].
      rewrite <- app_assoc. eapply runs_trans; [apply runs_call|exact R].
    + rewrite Hl. cbn. by rewrite <- app_assoc.
Qed.

Lemma loop_runs b q rest l : forall s L r, mem_ok s L -> r_qs s !! q = Some r -> L q (body_side b) = l ->
  exists s' L' r', runs (s, ILoop b (head l) :: rest) (s', rest) /\ mem_ok s' L' /\ L' q (body_side b) = [] /\ (forall w, w <> body_side b -> L' q w = L q w) /\
    r_log s' = r_log s ++ concat (body_log b <$> l) /\ r_qs s' !! q = Some r' /\ same_rq r r'.
Proof.
  induction l as [|t l IH]; intros s L r H Er El; cbn [head].
  - exists s, L, r. split_and!; try done; [|by rewrite app_nil_r]. eapply runs_step; [done|]. apply runs_refl.
  - assert (Hin : t ∈ L q (body_side b)) by (rewrite El; by left). pose proof (mo_rep _ _ H q r (body_side b) Er) as Hrep. pose proof (lrep_nodup _ _ _ Hrep) as Hnd. rewrite El in Hrep, Hnd.
    pose proof (next_ok _ [] l t Hrep) as Hn. unfold ds_dlist_next in Hn. cbn [od_nodes open] in Hn. destruct (r_ns s !! t) as [n|] eqn:En; [|done]. cbn in Hn. injection Hn as Hn. rewrite hd_or_None in Hn.
    destruct (body_runs b s L q r t (ILoop b (head l) :: rest) H Er Hin) as (s1 & r1 & R1 & H1 & Hl1 & Er1 & Hs1).
    destruct (IH s1 _ r1 H1 Er1) as (s2 & L2 & r2 & R2 & H2 & HL2 & HLo & Hl2 & Er2 & Hs2). { rewrite Lset_eq, El. by apply (del_at t [] l). }
    exists s2, L2, r2. split_and!; [|done|done| | |done|by eapply same_rq_trans].
    + eapply runs_step; [cbn [exec]; rewrite En; cbn [deref]; cbind; by rewrite Hn|]. cbn [app]. by eapply runs_trans.
    + intros w Hw. rewrite HLo by done. apply Lset_ne. by right.
    + rewrite Hl2, Hl1, fmap_cons. cbn [concat]. by rewrite <- app_assoc.
Qed.

Lemma list_runs b q rest s L r : mem_ok s L -> r_qs s !! q = Some r ->
  exists s' L' r', runs (s, IList b q (body_side b) :: rest) (s', rest) /\ mem_ok s' L' /\ L' q (body_side b) = [] /\ (forall w, w <> body_side b -> L' q w = L q w) /\
    r_log s' = r_log s ++ concat (body_log b <$> L q (body_side b)) /\ r_qs s' !! q = Some r' /\ same_rq r r'.
Proof.
  intros H Er. destruct (loop_runs b q rest _ s L r H Er eq_refl) as (s' & L' & r' & R & Hx). exists s', L', r'. split; [|done].
  eapply runs_step; [cbn [exec]; rewrite Er; cbn [deref]; cbind; rewrite (lrep_head _ _ _ (mo_rep _ _ H q r (body_side b) Er)); reflexivity|]. done.
Qed.

Lemma report_runs s L q r rest : mem_ok s L -> r_qs s !! q = Some r -> L q SRunning = [] -> L q SPending = [] ->
  exists s' r', runs (s, IReport q :: rest) (s', rest) /\ mem_ok s' L /\ r_qs s' !! q = Some r' /\ empty_rq r' = true /\
    r_log s' = r_log s ++ if empty_rq r then [] else [Emptied q].
Proof.
  intros H Er HR HP. pose proof (became_empty_spec _ _ _ _ H Er) as Hb. unfold needs_report in Hb. rewrite HR, HP in Hb. destruct (empty_rq r) eqn:Ee.
  - exists s, r. split_and!; try done; [|by rewrite app_nil_r]. eapply (runs_step _ _ _ _ []); [|apply runs_refl]. cbn [exec]. unfold rq_report_empty. rewrite Er. cbn [deref]. cbind.
    destruct (rq_became_empty r); [|done]. by destruct (proj1 Hb eq_refl) as (_ & _ & ?).
  - do 2 eexists. split_and!.
    + eapply runs_step; [cbn [exec]; unfold rq_report_empty, upd_q; rewrite Er; cbn [deref]; cbind; rewrite (proj2 Hb) by done; reflexivity|]. apply runs_call.
    + apply (queue_flags_ok s L q r (set_empty true)); try done. by intros _ [].
    + cbn. apply lookup_insert_eq.
    + done.
    + done.
Qed.

(** C23: Killing a queue ends everything in it, if callbacks just return.  In any idle
    reachable state, when every callback that is called does nothing but return, [rq_kill]
    terminates; each running task is killed and completed in order, then each pending one
    completed, then the queue is reported empty once, unless it already was; no task is
    left on either list.  With callbacks that call back into the queue a task can be missed
    ([kill_misses_task]). *)
Theorem kill_empties s q r R P : reach (s, []) -> r_qs s !! q = Some r -> lrep (r_ns s) (q_running r) R -> lrep (r_ns s) (q_pending r) P ->
  exists n s' r', settle n (s, rq_kill q) = Ok (s', []) /\
    r_log s' = r_log s ++ concat ((fun t => [Killed t; Completed t]) <$> R) ++ (Completed <$> P) ++ (if empty_rq r then [] else [Emptied q]) /\
    r_qs s' !! q = Some r' /\ dh_head (q_running r') = None /\ dh_head (q_pending r') = None /\ num_running r' = 0 /\ empty_rq r' = true.
Proof.
  intros (L & H & _)%reach_ok Er HR HP. cbn [fst snd] in H. unfold rq_kill, rq_cancel_pending.
  destruct (list_runs KKill q [IList KCancel q SPending; IReport q; IReport q] s L r H Er) as (s1 & L1 & r1 & R1 & H1 & E1 & O1 & Hl1 & Er1 & S1). cbn [body_side] in *.
  destruct (list_runs KCancel q [IReport q; IReport q] s1 L1 r1 H1 Er1) as (s2 & L2 & r2 & R2 & H2 & E2 & O2 & Hl2 & Er2 & S2). cbn [body_side] in *.
  assert (E2R : L2 q SRunning = []) by (rewrite O2 by done; done).
  destruct (report_runs s2 L2 q r2 [IReport q] H2 Er2 E2R E2) as (s3 & r3 & R3 & H3 & Er3 & Ee3 & Hl3).
  destruct (report_runs s3 L2 q r3 [] H3 Er3 E2R E2) as (s4 & r4 & R4 & H4 & Er4 & Ee4 & Hl4). rewrite Ee3, app_nil_r in Hl4.
  destruct (runs_idle _ _ (runs_trans _ _ _ R1 (runs_trans _ _ _ R2 (runs_trans _ _ _ R3 R4)))) as [n Hn]. exists n, s4, r4.
  pose proof (lrep_unique _ _ _ _ HR (mo_rep _ _ H q r SRunning Er)) as ->. pose proof (lrep_unique _ _ _ _ HP (mo_rep _ _ H q r SPending Er)) as ->.
  pose proof (lrep_head _ _ _ (mo_rep _ _ H4 q r4 SRunning Er4)) as X1. pose proof (lrep_head _ _ _ (mo_rep _ _ H4 q r4 SPending Er4)) as X2. rewrite E2R in X1. rewrite E2 in X2.
  split_and!; [done| |done|done|done|by rewrite (mo_num _ _ H4 q r4 Er4), E2R|done].
  rewrite Hl4, Hl3, Hl2, Hl1, <- !app_assoc. do 2 f_equal. rewrite O1 by done. destruct S1 as (_ & X & _), S2 as (_ & Y & _). rewrite Y, X. f_equal.
  clear. induction (L q SPending) as [|t l IH]; [done|]. rewrite !fmap_cons. cbn. by f_equal.
Qed.

(** ** The run timer *)
(** How many of the pending tasks there is room for. *)
Definition start_room (r : rq) (P : list loc) : nat := if max_running r =? 0 then length P else Z.to_nat (max_running r - num_running r).

Lemma room_start r r' t P : rq_is_full r = false -> max_running r' = max_running r -> num_running r' = num_running r + 1 ->
  take (start_room r (t :: P)) (t :: P) = t :: take (start_room r' P) P.
Proof.
  unfold rq_is_full, start_room. intros Hf Hm Hn. rewrite Hm, Hn. destruct (max_running r =? 0); [done|]. destruct (num_running r <? max_running r) eqn:E; [|done]. zbool.
  replace (Z.to_nat (max_running r - num_running r)) with (S (Z.to_nat (max_running r - (num_running r + 1)))) by lia. done.
Qed.
Lemma room_full r P : rq_is_full r = true -> start_room r P = 0%nat.
Proof. unfold rq_is_full, start_room. destruct (max_running r =? 0); [done|]. destruct (num_running r <? max_running r) eqn:E; [done|]. zbool. lia. Qed.

Lemma run_loop q rest P : forall s L r, mem_ok s L -> r_qs s !! q = Some r -> stopped r = false -> L q SPending = P ->
  exists s' L' r', runs (s, IRun q :: rest) (s', IReport q :: rest) /\ mem_ok s' L' /\ L' q SRunning = L q SRunning ++ take (start_room r P) P /\
    r_log s' = r_log s ++ (Started <$> take (start_room r P) P) /\ r_qs s' !! q = Some r' /\ same_rq r r' /\ L' q SPending = drop (length (take (start_room r P) P)) P.
Proof.
  induction P as [|t P IH]; intros s L r H Er Hs EL.
  - exists s, L, r. rewrite take_nil. cbn [fmap list_fmap]. rewrite !app_nil_r. split_and!; try done. eapply (runs_step _ _ _ _ [IReport q]); [|apply runs_refl]. cbn [exec]. unfold exec_run. rewrite Er. cbn [deref]. cbind.
    destruct (rq_can_start_next r) eqn:Hc; [|done]. apply (can_start_spec _ _ _ _ H Er Hs) in Hc as [Hc _]. by rewrite EL in Hc.
  - destruct (rq_can_start_next r) eqn:Hc.
    + destruct (good_start s L q r H Er Hc) as (s1 & js & L1 & E & H1 & _ & _ & _ & _ & _ & t' & P' & c & EL' & -> & Hcc & Hl1 & EP1 & ER1 & r1 & Er1 & Hs1 & Hm1 & He1 & Hf1).
      rewrite EL in EL'. injection EL' as <- <-. destruct (IH s1 L1 r1 H1 Er1 Hs1 EP1) as (s2 & L2 & r2 & R2 & H2 & ER2 & Hl2 & Er2 & S2 & EP2).
      assert (Hfull : rq_is_full r = false) by (by apply (can_start_spec _ _ _ _ H Er Hs) in Hc as [_ ?]).
      assert (Hn1 : num_running r1 = num_running r + 1) by (rewrite (mo_num _ _ H1 q r1 Er1), (mo_num _ _ H q r Er), ER1, length_app; cbn; lia).
      exists s2, L2, r2. rewrite (room_start r r1 t P Hfull Hm1 Hn1). split_and!; [|done| | |done| |done].
      * eapply runs_step; [cbn [exec]; unfold exec_run; rewrite Er; cbn [deref]; cbind; rewrite Hc; exact E|]. rewrite <- app_assoc. eapply runs_trans; [|exact R2].
        destruct Hcc as [-> |[b ->]]; [apply runs_refl|]. eapply (runs_step _ _ _ _ []); [done|]. apply runs_refl.
      * rewrite ER2, ER1, <- app_assoc. done.
      * rewrite Hl2, Hl1, <- app_assoc. done.
      * eapply same_rq_trans; [|exact S2]. split_and!; [congruence| |done|done]. rewrite He1. unfold rq_can_start_next in Hc. rewrite Hs in Hc. by destruct (empty_rq r).
    + assert (Hfull : rq_is_full r = true). { destruct (rq_is_full r) eqn:Ef; [done|]. assert (Hn : needs_start r (L q SPending)) by (rewrite EL; by split). apply (can_start_spec _ _ _ _ H Er Hs) in Hn. congruence. }
      exists s, L, r. rewrite (room_full _ _ Hfull). cbn [take fmap list_fmap length drop]. rewrite !app_nil_r. split_and!; try done. eapply (runs_step _ _ _ _ [IReport q]); [|apply runs_refl].
      cbn [exec]. unfold exec_run. rewrite Er. cbn [deref]. cbind. by rewrite Hc.
Qed.

(** C22: The run timer starts tasks in order.  When it fires in an idle reachable state for
    a queue that is not stopped, and every callback the code calls just returns, the code
    ends after starting pending tasks from the front, as many as the limit leaves room for
    (all, without a limit), and reports the queue empty exactly if nothing was pending or
    running and this had not been reported.  With callbacks that complete and add tasks
    the run need not end, and nothing is said of them. *)
Theorem run_starts s q r R P : reach (s, []) -> r_qs s !! q = Some r -> q_run r = true -> stopped r = false ->
  lrep (r_ns s) (q_running r) R -> lrep (r_ns s) (q_pending r) P ->
  exists m n s' r', step (MRunTimer q) (s, []) = Some (Ok m) /\ settle n m = Ok (s', []) /\ r_qs s' !! q = Some r' /\
    r_log s' = r_log s ++ (Started <$> take (start_room r P) P) ++ (if empty_rq r then [] else if bool_decide (R = [] /\ P = []) then [Emptied q] else []) /\
    lrep (r_ns s') (q_running r') (R ++ take (start_room r P) P) /\ lrep (r_ns s') (q_pending r') (drop (start_room r P) P).
Proof.
  intros Hr Er Hrun Hs HR HP. pose proof (reach_ok _ Hr) as (L & H & _). cbn [fst snd] in H.
  pose proof (lrep_unique _ _ _ _ HR (mo_rep _ _ H q r SRunning Er)) as ->. pose proof (lrep_unique _ _ _ _ HP (mo_rep _ _ H q r SPending Er)) as ->.
  set (s0 := mk_rqs (<[q := set_run false r]> (r_qs s)) (r_ts s) (r_ns s) (r_log s)).
  assert (H0 : mem_ok s0 L). { apply (queue_flags_ok s L q r (set_run false)); try done. cbn. intros He w. by apply (mo_empty _ _ H q r). }
  assert (Er0 : r_qs s0 !! q = Some (set_run false r)) by (cbn; apply lookup_insert_eq).
  destruct (run_loop q [] _ s0 L (set_run false r) H0 Er0 Hs eq_refl) as (s1 & L1 & r1 & R1 & H1 & ER1 & Hl1 & Er1 & S1 & EP1). change (start_room (set_run false r)) with (start_room r) in *.
  assert (Hdrop : drop (length (take (start_room r (L q SPending)) (L q SPending))) (L q SPending) = drop (start_room r (L q SPending)) (L q SPending)).
  { rewrite length_take. destruct (decide (start_room r (L q SPending) <= length (L q SPending))%nat); [by rewrite Nat.min_l|]. rewrite Nat.min_r by lia. by rewrite !drop_ge by lia. }
  rewrite Hdrop in EP1. exists (s0, [IRun q]).
  assert (Est : step (MRunTimer q) (s, []) = Some (Ok (s0, [IRun q]))) by (unfold step, upd_q; rewrite Er; cbn; rewrite Hrun; done).
  assert (Hnil : (L q SRunning ++ take (start_room r (L q SPending)) (L q SPending) = [] /\ drop (start_room r (L q SPending)) (L q SPending) = []) <-> (L q SRunning = [] /\ L q SPending = [])).
  { split; [|intros [-> ->]; by rewrite take_nil, drop_nil]. intros [[-> Ht]%app_nil Hd]. split; [done|]. rewrite <- (take_drop (start_room r (L q SPending)) (L q SPending)). by rewrite Ht, Hd. }
  assert (Heq : empty_rq r1 = empty_rq r) by apply S1. pose proof (became_empty_spec _ _ _ _ H1 Er1) as Hb. unfold needs_report in Hb. rewrite ER1, EP1, Heq in Hb.
  destruct (rq_became_empty r1) eqn:Eb.
  - destruct (proj1 Hb eq_refl) as (A1 & A2 & A3). destruct (report_runs s1 L1 q r1 [] H1 Er1) as (s2 & r2 & R2 & H2 & Er2 & Ee2 & Hl2); [by rewrite ER1|by rewrite EP1|].
    destruct (runs_idle _ _ (runs_trans _ _ _ R1 R2)) as [n Hn]. exists n, s2, r2. rewrite Heq, A3 in Hl2. rewrite A3, bool_decide_eq_true_2 by (by apply Hnil). split_and!; [done|done|done| | |].
    + rewrite Hl2, Hl1, <- app_assoc. done.
    + rewrite <- ER1. apply (mo_rep _ _ H2 q r2 SRunning Er2).
    + rewrite <- EP1. apply (mo_rep _ _ H2 q r2 SPending Er2).
  - assert (R2 : runs (s1, [IReport q]) (s1, [])). { eapply (runs_step _ _ _ _ []); [|apply runs_refl]. cbn [exec]. unfold rq_report_empty. rewrite Er1. cbn [deref]. cbind. by rewrite Eb. }
    destruct (runs_idle _ _ (runs_trans _ _ _ R1 R2)) as [n Hn]. exists n, s1, r1. split_and!; [done|done|done| | |].
    + rewrite Hl1. f_equal. destruct (empty_rq r) eqn:Ee; [by rewrite app_nil_r|]. rewrite bool_decide_eq_false_2; [by rewrite app_nil_r|]. rewrite <- Hnil. intros [A1 A2]. by assert (false = true) by (apply Hb; by split_and!).
    + rewrite <- ER1. apply (mo_rep _ _ H1 q r1 SRunning Er1).
    + rewrite <- EP1. apply (mo_rep _ _ H1 q r1 SPending Er1).
Qed.

(** ** Timeouts *)
Lemma running_listed s L t k : mem_ok s L -> r_ts s !! t = Some k -> is_Some (t_timeout k) ->
  exists q r, r_qs s !! q = Some r /\ t ∈ L q SRunning /\ t_q k = Some q /\ queued k = true /\ running k = true.
Proof.
  intros H Ek [v Hv]. destruct (running k) eqn:Er; [|by rewrite (mo_timer _ _ H t k Ek Er) in Hv].
  destruct (queued k) eqn:Eq; [|by destruct (mo_idle _ _ H t k Ek Eq); congruence]. destruct (mo_out _ _ H _ _ Ek Eq) as (q & w & Hin).
  destruct (mo_in _ _ H _ _ _ Hin) as (k' & Ek' & Etq & _ & Er'). rewrite Ek in Ek'. injection Ek' as <-. rewrite Er in Er'. destruct w; [|by rewrite bool_decide_eq_false_2 in Er'].
  destruct (r_qs s !! q) as [r|] eqn:Erq; [by exists q, r|]. rewrite (mo_none _ _ H q SRunning Erq) in Hin. by apply elem_of_nil in Hin.
Qed.

(** The first timeout cancels and starts the second timer. *)
Lemma first_timeout s L t k : mem_ok s L -> r_ts s !! t = Some k -> is_Some (t_timeout k) -> cancelled k = false ->
  exists m s' k', step (MTimeout t) (s, []) = Some (Ok m) /\ runs m (s', []) /\ mem_ok s' L /\ r_log s' = r_log s ++ [Cancelled t] /\ r_ts s' !! t = Some k' /\
    cancelled k' = true /\ t_timeout k' = (if 0 <? cancel_timeout_msec k then Some (cancel_timeout_msec k) else None).
Proof.
  intros H Ek Ht Hc. destruct (running_listed _ _ _ _ H Ek Ht) as (q & r & Er & Hin & Etq & Eq & Erk). destruct Ht as [v Hv].
  do 3 eexists. split_and!; [| | | | | |].
  - unfold step, upd_t. rewrite Ek. cbn [mbind option_bind deref]. cbn. rewrite Hv. reflexivity.
  - eapply runs_step; [cbn [exec]; unfold rq_task_timeout_cb, upd_t; cbn [r_ts]; rewrite lookup_insert_eq; cbn [deref]; cbind; cbn [cancelled set_timer]; rewrite Hc; reflexivity|]. cbn [app r_qs r_ts r_ns r_log]. rewrite insert_insert_eq.
    eapply runs_step; [|apply runs_call_end].
    cbn [exec]. unfold rq_task_cancel, upd_t. cbn [r_ts]. rewrite lookup_insert_eq. cbn [deref]. cbind. cbn [queued set_timed_out set_timer t_q running]. rewrite Eq, Etq, bool_decide_eq_true_2 by done. cbn [c_assert]. cbind. rewrite Erk. cbn [deref]. cbind.
    rewrite (set_timeout_run _ t _ _ (lookup_insert_eq _ _ _)) by (cbn; by exists q). cbind. reflexivity.
  - cbn [note r_qs r_ts r_ns r_log]. rewrite !insert_insert_eq. apply (task_flags_ok s L t k (fun k => set_timer _ (set_cancelled (set_timed_out (set_timer None k))))); try done. by rewrite Erk.
  - done.
  - cbn. by rewrite lookup_insert_eq.
  - done.
  - done.
Qed.

(** The second kills. *)
Lemma second_timeout s L t k : mem_ok s L -> r_ts s !! t = Some k -> is_Some (t_timeout k) -> cancelled k = true ->
  exists m s', step (MTimeout t) (s, []) = Some (Ok m) /\ runs m (s', []) /\ r_log s' = r_log s ++ [Killed t; Completed t] /\ exists L', mem_ok s' L' /\ forall q w, t ∉ L' q w.
Proof.
  intros H Ek Ht Hc. destruct (running_listed _ _ _ _ H Ek Ht) as (q & r & Er & Hin & Etq & Eq & Erk). destruct Ht as [v Hv].
  set (s1 := mk_rqs (r_qs s) (<[t := set_cancel_timed_out (set_timer None k)]> (r_ts s)) (r_ns s) (r_log s)).
  assert (H1 : mem_ok s1 L) by (apply (task_flags_ok s L t k (fun k => set_cancel_timed_out (set_timer None k))); done).
  destruct (body_runs KKill s1 L q r t [] H1 Er Hin) as (s' & r' & R & H' & Hl & _ & _). do 2 eexists. split_and!; [| |exact Hl|].
  - unfold step, upd_t. rewrite Ek. cbn [mbind option_bind deref]. cbn. rewrite Hv. reflexivity.
  - eapply runs_step; [cbn [exec]; unfold rq_task_timeout_cb, upd_t; cbn [r_ts]; rewrite lookup_insert_eq; cbn [deref]; cbind; cbn [cancelled set_timer]; rewrite Hc; reflexivity|]. cbn [app r_qs r_ts r_ns r_log]. rewrite insert_insert_eq. exact R.
  - eexists. split; [exact H'|]. intros q' w Hi. cbn [body_side] in Hi. unfold Lset in Hi. destruct (decide _) as [[-> ->]|Hne]; [by apply in_del in Hi as [? _]|].
    destruct (in_unique _ _ _ _ _ _ _ H Hi Hin). naive_solver.
Qed.

(** C24: Timeouts end a task.  A running task with its run timer started and a
    cancellation timeout set is cancelled when the timer expires, and killed and completed
    when the second timer, started by the cancellation, expires, even if its
    callbacks do nothing at all; it has then left its queue. *)
Theorem timeouts_end_task s t k : reach (s, []) -> r_ts s !! t = Some k -> is_Some (t_timeout k) -> cancelled k = false -> 0 < cancel_timeout_msec k ->
  exists m1 n1 s1 m2 n2 s2, step (MTimeout t) (s, []) = Some (Ok m1) /\ settle n1 m1 = Ok (s1, []) /\
    step (MTimeout t) (s1, []) = Some (Ok m2) /\ settle n2 m2 = Ok (s2, []) /\
    r_log s2 = r_log s ++ [Cancelled t; Killed t; Completed t] /\ n_queued s2 t = 0%nat.
Proof.
  intros (L & H & _)%reach_ok Ek Ht Hc Hct. cbn [fst snd] in H. destruct (first_timeout _ _ _ _ H Ek Ht Hc) as (m1 & s1 & k1 & E1 & R1 & H1 & Hl1 & Ek1 & Hc1 & Ht1).
  rewrite (proj2 (Z.ltb_lt 0 (cancel_timeout_msec k)) Hct) in Ht1. destruct (second_timeout _ _ _ _ H1 Ek1) as (m2 & s2 & E2 & R2 & Hl2 & L2 & H2 & Hout); [by rewrite Ht1|done|].
  destruct (runs_idle _ _ R1) as [n1 Hn1], (runs_idle _ _ R2) as [n2 Hn2]. exists m1, n1, s1, m2, n2, s2. split_and!; try done.
  - rewrite Hl2, Hl1, <- app_assoc. done.
  - unfold n_queued. destruct (r_ts s2 !! t) as [k2|] eqn:Ek2; [|done]. destruct (queued k2) eqn:Eq2; [|done]. destruct (mo_out _ _ H2 _ _ Ek2 Eq2) as (q & w & Hi). by destruct (Hout q w).
Qed.

(** ** Examples *)
(** An unlimited queue with three running tasks. *)
Definition three_running : list move :=
  [MCall (ANewQueue 1 0 true); MCall (ANewTask 2 all_fns); MCall (ANewTask 3 all_fns); MCall (ANewTask 4 all_fns);
   MCall (AAdd 1 2); MInternal; MInternal; MCall (AAdd 1 3); MInternal; MInternal; MCall (AAdd 1 4); MInternal; MInternal;
   MRunTimer 1; MInternal; MReturn; MInternal; MReturn; MInternal; MReturn; MInternal; MInternal].

Lemma kill_empties_witness : exists s r n s', reach (s, []) /\ r_qs s !! 1%positive = Some r /\ num_running r = 3 /\
  settle n (s, rq_kill 1) = Ok (s', []) /\ r_log s' = r_log s ++ [Killed 2; Completed 2; Killed 3; Completed 3; Killed 4; Completed 4; Emptied 1].
Proof.
  assert (E : exists s, run_moves three_running (rqs_zero, []) = Some (s, [])) by (eexists; vm_compute; reflexivity). destruct E as [s E].
  assert (Hr : reach (s, [])) by (eapply reach_moves; [apply reach_zero|exact E]).
  assert (Hq : exists r, r_qs s !! 1%positive = Some r /\ num_running r = 3 /\ empty_rq r = false /\ lrep (r_ns s) (q_running r) [2; 3; 4]%positive /\ lrep (r_ns s) (q_pending r) []).
  { vm_compute in E. injection E as <-. eexists. split_and!; [reflexivity|reflexivity|reflexivity| |]; (split; [by apply (bool_decide_unpack _)|reflexivity|reflexivity|by vm_compute]). }
  destruct Hq as (r & Er & Hn & He & HR & HP). destruct (kill_empties s 1%positive r _ _ Hr Er HR HP) as (n & s' & r' & Hs & Hl & _). rewrite He in Hl.
  exists s, r, n, s'. split_and!; [exact Hr|exact Er|exact Hn|exact Hs|exact Hl].
Defined.

Lemma run_starts_witness : exists s r m n s', reach (s, []) /\ r_qs s !! 1%positive = Some r /\ max_running r = 1 /\
  step (MRunTimer 1) (s, []) = Some (Ok m) /\ settle n m = Ok (s', []) /\ r_log s' = [Added 1 2; Added 1 3; Started 2].
Proof.
  assert (E : exists s, run_moves (take 9 demo_moves) (rqs_zero, []) = Some (s, [])) by (eexists; vm_compute; reflexivity). destruct E as [s E].
  assert (Hr : reach (s, [])) by (eapply reach_moves; [apply reach_zero|exact E]).
  assert (Hq : exists r, r_qs s !! 1%positive = Some r /\ q_run r = true /\ stopped r = false /\ max_running r = 1 /\ empty_rq r = false /\ num_running r = 0 /\ r_log s = [Added 1 2; Added 1 3] /\
    lrep (r_ns s) (q_running r) [] /\ lrep (r_ns s) (q_pending r) [2; 3]%positive).
  { vm_compute in E. injection E as <-. eexists. split_and!; [reflexivity..| |]; (split; [by apply (bool_decide_unpack _)|reflexivity|reflexivity|by vm_compute]). }
  destruct Hq as (r & Er & Hrun & Hst & Hm & He & Hn & Hl0 & HR & HP). destruct (run_starts s 1%positive r _ _ Hr Er Hrun Hst HR HP) as (m & n & s' & r' & Hs & Hse & _ & Hl & _).
  exists s, r, m, n, s'. split_and!; [exact Hr|exact Er|exact Hm|exact Hs|exact Hse|]. rewrite Hl, Hl0, He. unfold start_room. rewrite Hm, Hn. reflexivity.
Defined.

Lemma timeouts_end_task_witness : exists s m1 n1 s1 m2 n2 s2, reach (s, []) /\ step (MTimeout 2) (s, []) = Some (Ok m1) /\ settle n1 m1 = Ok (s1, []) /\
  step (MTimeout 2) (s1, []) = Some (Ok m2) /\ settle n2 m2 = Ok (s2, []) /\ r_log s2 = r_log s ++ [Cancelled 2; Killed 2; Completed 2].
Proof.
  assert (E : exists s, run_moves three_running (rqs_zero, []) = Some (s, [])) by (eexists; vm_compute; reflexivity). destruct E as [s E].
  assert (Hr : reach (s, [])) by (eapply reach_moves; [apply reach_zero|exact E]).
  assert (Hk : exists k, r_ts s !! 2%positive = Some k /\ t_timeout k = Some 1000 /\ cancelled k = false /\ cancel_timeout_msec k = 500) by (vm_compute in E; injection E as <-; eexists; split_and!; reflexivity).
  destruct Hk as (k & Ek & Ht & Hc & Hct). destruct (timeouts_end_task s 2%positive k Hr Ek) as (m1 & n1 & s1 & m2 & n2 & s2 & ? & ? & ? & ? & ? & _); [by rewrite Ht|done|by rewrite Hct|].
  exists s, m1, n1, s1, m2, n2, s2. by split_and!.
Defined.

(** When the callback that kills the first task completes the second one, the loop of
    [rq_kill] has already taken the second as its next element; it finds no successor
    there and ends, and the third task goes on running. *)
Definition kill_with_completion : list move :=
  [MCall (AKill 1); MInternal; MInternal; MInternal; MCall (ATaskComplete 3); MInternal; MReturn; MInternal; MReturn; MInternal; MReturn; MInternal;
   MInternal; MInternal; MInternal; MInternal; MInternal; MInternal; MInternal].
Theorem kill_misses_task : exists s r, run_moves (three_running ++ kill_with_completion) (rqs_zero, []) = Some (s, []) /\
  r_qs s !! 1%positive = Some r /\ num_running r = 1 /\ n_queued s 4 = 1%nat /\
  r_log s = [Added 1 2; Added 1 3; Added 1 4; Started 2; Started 3; Started 4; Killed 2; Completed 3; Completed 2].
Proof. do 2 eexists. split_and!; vm_compute; reflexivity. Qed.
