(* ===== verification/OswThrottle.v ===== *)
(** * OswThrottle: the rate limiter of the wireless library

    Models [lib/osw/src/osw_throttle.c].  A tap is allowed at most [limit] times in
    a window that starts with its first tap; when the limit is reached, the next
    tap is allowed a full period later.  Times are unsigned 64-bit nanoseconds. *)
From S2P Require Import Prelude.

(** [struct osw_throttle_rate_limit] *)
Record osw_throttle_rate_limit := mk_rate_limit {
  rl_limit : Z; rl_period_nsec : Z; rl_counter : Z; rl_first_tap_nsec : Z; rl_next_at_nsec : Z
}.

(** [struct osw_throttle]: the type tag and the union. *)
Inductive osw_throttle := OSW_THROTTLE_RATE_LIMIT (rl : osw_throttle_rate_limit).

(** Allowed or not, the time told to the caller, the new state. *)
Definition osw_throttle_rate_limit_tap (rl : osw_throttle_rate_limit) (now_nsec : Z)
    : bool * Z * osw_throttle_rate_limit :=
  if now_nsec <? rl_next_at_nsec rl then (false, rl_next_at_nsec rl, rl) else
  let rl := if rl_period_nsec rl <=? u64 (now_nsec - rl_first_tap_nsec rl)
            then mk_rate_limit (rl_limit rl) (rl_period_nsec rl) 0 now_nsec (rl_next_at_nsec rl) else rl in
  if rl_limit rl <=? rl_counter rl then (false, rl_next_at_nsec rl, rl) else
  let counter := u32 (rl_counter rl + 1) in
  let next := if counter =? rl_limit rl then u64 (now_nsec + rl_period_nsec rl) else now_nsec in
  (true, next, mk_rate_limit (rl_limit rl) (rl_period_nsec rl) counter (rl_first_tap_nsec rl) next).

Definition osw_throttle_rate_limit_reset (rl : osw_throttle_rate_limit) : osw_throttle_rate_limit :=
  mk_rate_limit (rl_limit rl) (rl_period_nsec rl) 0 0 0.

Definition osw_throttle_new_rate_limit (limit period_nsec : Z) : osw_throttle :=
  OSW_THROTTLE_RATE_LIMIT (mk_rate_limit limit period_nsec 0 0 0).

(** The clock [osw_time_mono_clk()] is an argument. *)
Definition osw_throttle_tap (throttle : osw_throttle) (now_nsec : Z) : bool * Z * osw_throttle :=
  match throttle with
  | OSW_THROTTLE_RATE_LIMIT rl =>
      let '(ok, next, rl) := osw_throttle_rate_limit_tap rl now_nsec in (ok, next, OSW_THROTTLE_RATE_LIMIT rl)
  end.

Definition osw_throttle_reset (throttle : osw_throttle) : osw_throttle :=
  match throttle with
  | OSW_THROTTLE_RATE_LIMIT rl => OSW_THROTTLE_RATE_LIMIT (osw_throttle_rate_limit_reset rl)
  end.

(** ** Histories of taps *)

(** The times of the allowed taps, the most recent first, after taps at the times
    [ts]. *)
Fixpoint taps (t : osw_throttle) (ts : list Z) (hist : list Z) : osw_throttle * list Z :=
  match ts with
  | [] => (t, hist)
  | now :: ts =>
      let '(ok, _, t) := osw_throttle_tap t now in taps t ts (if ok : bool then now :: hist else hist)
  end.

(** A clock that does not run backwards, far from the end of its range. *)
Fixpoint clock (low period : Z) (ts : list Z) : Prop :=
  match ts with [] => True | now :: ts => low <= now /\ now + period < 2 ^ 64 /\ clock now period ts end.

(** The last reading of the clock. *)
Definition last_time (low : Z) (ts : list Z) : Z := foldl (fun _ now => now) low ts.

Lemma clock_app low period ts now :
  clock low period (ts ++ [now]) -> clock low period ts /\ last_time low ts <= now /\ now + period < 2 ^ 64 /\ True.
Proof.
  revert low. induction ts as [|t ts IH]; intros low; cbn [app clock]; [tauto|].
  intros (H1 & H2 & H3). apply IH in H3 as (H3 & H4 & H5 & _). split_and!; done.
Qed.

(** [h] is spread out: [2 * limit] consecutive entries span a period. *)
Definition spread (L : nat) (period : Z) (h : list Z) : Prop :=
  forall j x y, h !! j = Some x -> h !! (j + (2 * L - 1))%nat = Some y -> y + period <= x.

(** The current window [w], the previous one [w'], and what is older. *)
Record windows (L : nat) (period now : Z) (rl : osw_throttle_rate_limit) (w w' old : list Z) : Prop := {
  wi_limit : rl_limit rl = Z.of_nat L;
  wi_period : rl_period_nsec rl = period;
  wi_count : rl_counter rl = Z.of_nat (length w);
  wi_full : (length w <= L)%nat;
  wi_prev : (length w' <= L)%nat;
  wi_first : 0 <= rl_first_tap_nsec rl <= now;
  wi_now : Forall (fun x => rl_first_tap_nsec rl <= x <= now) w;
  wi_before : Forall (fun x => x <= rl_first_tap_nsec rl) (w' ++ old);
  wi_old : Forall (fun x => x + period <= rl_first_tap_nsec rl) old;
  wi_prev_full : length w' = L -> Forall (fun x => x + period <= rl_first_tap_nsec rl) w';
  wi_next : rl_next_at_nsec rl <= now \/ length w = L;
  wi_bound : rl_next_at_nsec rl <= now + period;
  wi_next_full : length w = L -> Forall (fun x => x + period <= rl_next_at_nsec rl) w /\
    rl_first_tap_nsec rl + period <= rl_next_at_nsec rl;
  wi_spread : spread L period (w ++ w' ++ old)
}.

Section Rate.
Context (L : nat) (period : Z) (HL : (0 < L)%nat) (HL32 : Z.of_nat L < 2 ^ 32) (Hp : 0 <= period).

Lemma lookup_Forall (P : Z -> Prop) (l : list Z) i x : Forall P l -> l !! i = Some x -> P x.
Proof. intros HF Hx. rewrite Forall_lookup in HF. by eapply HF. Qed.

(** A new allowed tap keeps the history spread out. *)
Lemma spread_cons (h : list Z) now :
  spread L period h -> (forall y, h !! (2 * L - 2)%nat = Some y -> y + period <= now) ->
  spread L period (now :: h).
Proof.
  intros Hs Hn [|j] x y Hx Hy.
  - injection Hx as ->. apply Hn. replace (0 + (2 * L - 1))%nat with (S (2 * L - 2)) in Hy by lia. exact Hy.
  - cbn in Hx, Hy. by eapply Hs.
Qed.

(** A tap in the current window. *)
Lemma same_window now low rl w w' old :
  windows L period low rl w w' old -> low <= now -> (length w < L)%nat -> rl_next_at_nsec rl <= now ->
  now + period < 2 ^ 64 ->
  windows L period now (mk_rate_limit (rl_limit rl) (rl_period_nsec rl) (Z.of_nat (S (length w)))
    (rl_first_tap_nsec rl)
    (if Z.of_nat (S (length w)) =? rl_limit rl then u64 (now + rl_period_nsec rl) else now)) (now :: w) w' old.
Proof.
  intros I Hnow Hw Hnx Hov. destruct I. split; cbn [rl_limit rl_period_nsec rl_counter rl_first_tap_nsec rl_next_at_nsec length];
    try done; try lia.
  - constructor; [lia|]. eapply Forall_impl; [done|]. cbn. lia.
  - destruct (Z.eqb_spec (Z.of_nat (S (length w))) (rl_limit rl)); [right; lia|left; lia].
  - rewrite wi_period0, u64_id by (unfold is_u64; lia). case_match; lia.
  - intros Hf. rewrite (proj2 (Z.eqb_eq _ _)) by lia. rewrite wi_period0, u64_id by (unfold is_u64; lia).
    split; [|lia]. constructor; [lia|]. eapply Forall_impl; [done|]. cbn. lia.
  - apply (spread_cons (w ++ w' ++ old)); [done|]. intros y Hy. rewrite lookup_app_r in Hy by lia.
    assert (rl_first_tap_nsec rl <= now) by lia. destruct (decide (length w' = L)) as [E|E].
    + apply list_elem_of_lookup_2, elem_of_app in Hy as [Hy|Hy].
      * specialize (wi_prev_full0 E). rewrite Forall_forall in wi_prev_full0. specialize (wi_prev_full0 _ Hy). lia.
      * rewrite Forall_forall in wi_old0. specialize (wi_old0 _ Hy). lia.
    + rewrite lookup_app_r in Hy by lia. pose proof (lookup_Forall _ _ _ _ wi_old0 Hy). cbn in *. lia.
Qed.

(** A tap that opens a new window. *)
Lemma new_window now low rl w w' old :
  windows L period low rl w w' old -> low <= now -> rl_first_tap_nsec rl + period <= now ->
  rl_next_at_nsec rl <= now -> now + period < 2 ^ 64 ->
  windows L period now (mk_rate_limit (rl_limit rl) (rl_period_nsec rl) 1 now
    (if 1 =? rl_limit rl then u64 (now + rl_period_nsec rl) else now)) [now] w (w' ++ old).
Proof.
  intros I Hnow Hwin Hnx Hov. destruct I.
  assert (Hall : length w = L -> Forall (fun x => x + period <= now) w).
  { intros E. destruct (wi_next_full0 E) as [HF _]. eapply Forall_impl; [done|]. cbn. lia. }
  assert (Hold : Forall (fun x => x + period <= now) (w' ++ old)) by (eapply Forall_impl; [done|]; cbn; lia).
  split; cbn [rl_limit rl_period_nsec rl_counter rl_first_tap_nsec rl_next_at_nsec length]; try done; try lia.
  - repeat constructor; lia.
  - apply Forall_app. split; [eapply Forall_impl; [exact wi_now0|]; cbn; lia|].
    eapply Forall_impl; [exact Hold|]. cbn. lia.
  - destruct (Z.eqb_spec 1 (rl_limit rl)); [right; lia|left; lia].
  - rewrite wi_period0, u64_id by (unfold is_u64; lia). case_match; lia.
  - intros Hf. rewrite (proj2 (Z.eqb_eq _ _)) by lia. rewrite wi_period0, u64_id by (unfold is_u64; lia).
    split; [repeat constructor; lia|lia].
  - apply (spread_cons (w ++ w' ++ old)); [done|]. intros y Hy. destruct (decide (length w = L)) as [E|E].
    + apply list_elem_of_lookup_2, elem_of_app in Hy as [Hy|Hy].
      * specialize (Hall E). rewrite Forall_forall in Hall. by apply Hall.
      * rewrite Forall_forall in Hold. by apply Hold.
    + rewrite lookup_app_r in Hy by lia. exact (lookup_Forall _ _ _ _ Hold Hy).
Qed.

(** One tap: allowed exactly from the announced time on. *)
Lemma tap_ok now low rl w w' old :
  windows L period low rl w w' old -> low <= now -> now + period < 2 ^ 64 ->
  exists rl' v v' vold, osw_throttle_rate_limit_tap rl now =
      (negb (now <? rl_next_at_nsec rl), rl_next_at_nsec rl', rl') /\
    windows L period now rl' v v' vold /\
    v ++ v' ++ vold = (if now <? rl_next_at_nsec rl then w ++ w' ++ old else now :: w ++ w' ++ old).
Proof.
  intros I Hnow Hov. unfold osw_throttle_rate_limit_tap. destruct (Z.ltb_spec now (rl_next_at_nsec rl)) as [Hn|Hn]; cbn [negb].
  - exists rl, w, w', old. split_and!; [done| |done]. destruct I. split; try done.
    + lia.
    + eapply Forall_impl; [done|]. cbn. lia.
    + destruct wi_next0; [lia|by right].
    + lia.
  - pose proof I as I'. destruct I'. rewrite u64_id by (unfold is_u64; lia).
    destruct (Z.leb_spec (rl_period_nsec rl) (now - rl_first_tap_nsec rl)) as [Hw|Hw].
    + cbn [rl_limit rl_counter rl_period_nsec rl_first_tap_nsec rl_next_at_nsec].
      rewrite (proj2 (Z.leb_gt _ _)) by lia. change (u32 (0 + 1)) with 1.
      pose proof (new_window now low rl w w' old I ltac:(lia) ltac:(lia) ltac:(lia) ltac:(lia)) as I2.
      do 4 eexists. split; [|split; [exact I2|]]; done.
    + assert (length w < L)%nat as Hlt.
      { destruct (decide (length w = L)) as [E|E]; [|lia]. destruct (wi_next_full0 E). lia. }
      rewrite (proj2 (Z.leb_gt _ _)) by lia.
      replace (u32 (rl_counter rl + 1)) with (Z.of_nat (S (length w))) by (rewrite u32_id; [lia|unfold is_u32; lia]).
      pose proof (same_window now low rl w w' old I ltac:(lia) ltac:(lia) ltac:(lia) ltac:(lia)) as I2.
      do 4 eexists. split; [|split; [exact I2|]]; done.
Qed.

Lemma taps_ok ts low rl w w' old :
  windows L period low rl w w' old -> clock low period ts ->
  exists rl' hist low' v v' vold, taps (OSW_THROTTLE_RATE_LIMIT rl) ts (w ++ w' ++ old) = (OSW_THROTTLE_RATE_LIMIT rl', hist) /\
    windows L period low' rl' v v' vold /\ hist = v ++ v' ++ vold /\ low' = last_time low ts.
Proof.
  revert low rl w w' old. induction ts as [|now ts IH]; intros low rl w w' old I Hc.
  { exists rl, (w ++ w' ++ old), low, w, w', old. done. }
  cbn [clock] in Hc. destruct Hc as (Hlow & Hov & Hc).
  destruct (tap_ok now low rl w w' old I Hlow Hov) as (rl' & v & v' & vold & E & I' & Eh).
  cbn [taps osw_throttle_tap]. rewrite E.
  assert ((if negb (now <? rl_next_at_nsec rl) then now :: w ++ w' ++ old else w ++ w' ++ old) = v ++ v' ++ vold) as ->.
  { rewrite Eh. by destruct (now <? rl_next_at_nsec rl). }
  destruct (IH now rl' v v' vold I' Hc) as (rl2 & hist & low2 & u & u' & uold & E2 & I2 & Eh2 & El).
  exists rl2, hist, low2, u, u', uold. split_and!; done.
Qed.

Lemma windows_new :
  windows L period 0 (mk_rate_limit (Z.of_nat L) period 0 0 0) [] [] [].
Proof. split; cbn; try done; lia. Qed.
End Rate.

(** The limiter bounds the rate.  Of the taps allowed by a new limiter, at any
    times of a clock that does not run backwards, any [2 * limit] consecutive ones
    span at least a period: no interval shorter than a period holds more than
    [2 * limit - 1] of them. *)
Theorem rate_bounded L period ts t hist :
  (0 < L)%nat -> Z.of_nat L < 2 ^ 32 -> 0 <= period -> clock 0 period ts ->
  taps (osw_throttle_new_rate_limit (Z.of_nat L) period) ts [] = (t, hist) ->
  forall j x y, hist !! j = Some x -> hist !! (j + (2 * L - 1))%nat = Some y -> y + period <= x.
Proof.
  intros HL HL32 Hp Hc E.
  destruct (taps_ok L period HL HL32 Hp ts 0 _ [] [] [] (windows_new L period HL Hp) Hc)
    as (rl & hist' & low & v & v' & vold & E' & I & -> & _).
  unfold osw_throttle_new_rate_limit in E. cbn [app] in E'. rewrite E' in E. injection E as <- <-.
  exact (wi_spread _ _ _ _ _ _ _ I).
Qed.

(** A refused caller is told when to come back.  After any taps, a tap is allowed
    exactly from the time last announced on, and that time is at most a period
    away: waiting as told always succeeds. *)
Theorem retry_time_is_exact L period ts t hist now :
  (0 < L)%nat -> Z.of_nat L < 2 ^ 32 -> 0 <= period -> clock 0 period (ts ++ [now]) ->
  taps (osw_throttle_new_rate_limit (Z.of_nat L) period) ts [] = (t, hist) ->
  exists next ok next' t', osw_throttle_tap t now = (ok, next', t') /\
    ok = (next <=? now) /\ (ok = false -> next' = next) /\ next' <= now + period /\
    forall later, next' <= later -> now <= later -> later + period < 2 ^ 64 ->
      exists next2 t2, osw_throttle_tap t' later = (true, next2, t2).
Proof.
  intros HL HL32 Hp Hc E. apply clock_app in Hc as (Hc & Hlow & Hov & _).
  destruct (taps_ok L period HL HL32 Hp ts 0 _ [] [] [] (windows_new L period HL Hp) Hc)
    as (rl & hist' & low & v & v' & vold & E' & I & -> & ->).
  unfold osw_throttle_new_rate_limit in E. cbn [app] in E'. rewrite E' in E. injection E as <- <-.
  destruct (tap_ok L period HL HL32 Hp now _ rl v v' vold I Hlow Hov) as (rl' & u & u' & uold & Et & I' & Eh).
  exists (rl_next_at_nsec rl). do 3 eexists. cbn [osw_throttle_tap]. rewrite Et. split_and!.
  - done.
  - by rewrite Z.leb_antisym.
  - intros Hok. apply negb_false_iff in Hok. unfold osw_throttle_rate_limit_tap in Et. rewrite Hok in Et. by injection Et as <-.
  - exact (wi_bound _ _ _ _ _ _ _ I').
  - intros later Hl Hn Ho.
    destruct (tap_ok L period HL HL32 Hp later now rl' u u' uold I' Hn Ho) as (rl2 & ? & ? & ? & E2 & _).
    rewrite (proj2 (Z.ltb_ge _ _)) in E2 by lia. do 2 eexists. cbn [osw_throttle_tap]. by rewrite E2.
Qed.

Lemma rate_bounded_witness :
  taps (osw_throttle_new_rate_limit 2 10) [9; 11; 12; 21; 22; 1000] [] =
    (OSW_THROTTLE_RATE_LIMIT (mk_rate_limit 2 10 1 1000 1000), [1000; 22; 12; 11; 9]) /\ 9 + 10 <= 22.
Proof.
  split; [vm_compute; reflexivity|].
  apply (rate_bounded 2 10 [9; 11; 12; 21; 22; 1000] (OSW_THROTTLE_RATE_LIMIT (mk_rate_limit 2 10 1 1000 1000))
           [1000; 22; 12; 11; 9]) with (j := 1%nat);
    [lia|lia|lia|cbn; lia|vm_compute; reflexivity|reflexivity|reflexivity].
Defined.

Lemma retry_time_is_exact_witness :
  exists next ok next' t', osw_throttle_tap (OSW_THROTTLE_RATE_LIMIT (mk_rate_limit 2 10 2 0 16)) 9 = (ok, next', t') /\
    ok = (next <=? 9) /\ (ok = false -> next' = next) /\ next' <= 9 + 10 /\
    forall later, next' <= later -> 9 <= later -> later + 10 < 2 ^ 64 ->
      exists next2 t2, osw_throttle_tap t' later = (true, next2, t2).
Proof.
  apply (retry_time_is_exact 2 10 [5; 6] _ [6; 5] 9); [lia|lia|lia|cbn; lia|].
  vm_compute. reflexivity.
Defined.
