(* ===== verification/OswTimer.v ===== *)
(** * OswTimer: the timers of the wireless library

    Models [lib/osw/src/osw_timer.c]: armed timers stand in a list sorted by deadline; a
    dispatch moves the timers that are due to a list of its own and calls them
    one by one, while their callbacks arm, disarm, initialise and free timers, themselves
    included.  The two lists share the nodes of the timers ([DsDlistMem]).  A callback is
    a tree of calls of the timer functions, which sees their results; callbacks do not
    dispatch. *)
From stdpp Require Import sorting.
From S2P Require Import Prelude DsDlist DsDlistMem.
Open Scope Z_scope.

Section OswTimer.
(** Names of callback functions, and the state of their owners. *)
Context {B C : Type}.

(** The code of a callback. *)
Inductive prog :=
| PRet (c : C)
| PArm (t : loc) (nsec : Z) (k : prog)
| PDisarm (t : loc) (k : prog)
| PIsArmed (t : loc) (k : bool -> prog)
| PRemaining (t : loc) (now : Z) (k : Z -> prog)
| PNextAt (k : option Z -> prog)
| PInit (t : loc) (cb : B) (k : prog)
| PFree (t : loc) (k : prog).

Context (cb_fn : B -> loc -> C -> prog).

(** What [timer->list] points to: [g_active_list] or the list of the dispatch. *)
Inductive tlist := Active | Pending.
#[export] Instance tlist_eq_dec : EqDecision tlist.
Proof. solve_decision. Defined.

(** [struct osw_timer]; its node is in [tc_nodes]. *)
Record osw_timer := mk_timer { tm_cb : option B; at_nsec : Z; tm_list : option tlist }.
Definition set_at (n : Z) (tm : osw_timer) := mk_timer (tm_cb tm) n (tm_list tm).
Definition set_tlist (w : option tlist) (tm : osw_timer) := mk_timer (tm_cb tm) (at_nsec tm) w.

(** The two lists, the memory of the timers, the state of the clients, and the timers
    called so far. *)
Record tcore := mk_tcore {
  tc_active : dhead; tc_pending : dhead; tc_nodes : nodes; tc_timers : gmap loc osw_timer;
  tc_client : C; tc_fired : list loc
}.

Definition upd_timer (t : loc) (f : osw_timer -> osw_timer) (tc : tcore) : res tcore :=
  tm ← deref (tc_timers tc !! t);
  Ok (mk_tcore (tc_active tc) (tc_pending tc) (tc_nodes tc) (<[t := f tm]> (tc_timers tc)) (tc_client tc) (tc_fired tc)).
Definition tc_head (w : tlist) (tc : tcore) : dhead := match w with Active => tc_active tc | Pending => tc_pending tc end.
Definition set_thead (w : tlist) (h : dhead) (N : nodes) (tc : tcore) : tcore :=
  match w with
  | Active => mk_tcore h (tc_pending tc) N (tc_timers tc) (tc_client tc) (tc_fired tc)
  | Pending => mk_tcore (tc_active tc) h N (tc_timers tc) (tc_client tc) (tc_fired tc)
  end.
Definition on_tlist (w : tlist) (f : ds_dlist -> res ds_dlist) (tc : tcore) : res tcore :=
  '(h, N) ← on_list f (tc_head w tc) (tc_nodes tc); Ok (set_thead w h N tc).
Definition set_client (c : C) (tc : tcore) : tcore :=
  mk_tcore (tc_active tc) (tc_pending tc) (tc_nodes tc) (tc_timers tc) c (tc_fired tc).

(** ** The functions *)
Definition osw_timer_core_get_next_at (tc : tcore) : res (option Z) :=
  match dh_head (tc_active tc) with
  | None => Ok None
  | Some t => tm ← deref (tc_timers tc !! t); Ok (Some (at_nsec tm))
  end.

(** The timer is part of a structure of the caller, whose memory enters here. *)
Definition osw_timer_init (t : loc) (cb : B) (tc : tcore) : tcore :=
  mk_tcore (tc_active tc) (tc_pending tc) (<[t := mk_dnode None None]> (tc_nodes tc))
    (<[t := mk_timer (Some cb) 0 None]> (tc_timers tc)) (tc_client tc) (tc_fired tc).
(** The caller frees that structure. *)
Definition timer_free (t : loc) (tc : tcore) : tcore :=
  mk_tcore (tc_active tc) (tc_pending tc) (delete t (tc_nodes tc)) (delete t (tc_timers tc)) (tc_client tc) (tc_fired tc).

(** [ds_dlist_foreach]: the first active timer that is not before [nsec]. *)
Fixpoint find_later (n : nat) (tc : tcore) (nsec : Z) (cur : option loc) : res (option loc) :=
  match n with
  | O => Err FFuel
  | S n =>
      match cur with
      | None => Ok None
      | Some u =>
          tm ← deref (tc_timers tc !! u);
          if nsec <=? at_nsec tm then Ok (Some u)
          else cur ← ds_dlist_next (open (tc_active tc) (tc_nodes tc)) u; find_later n tc nsec cur
      end
  end.

Definition unlist (t : loc) (tc : tcore) : res tcore :=
  tm ← deref (tc_timers tc !! t);
  match tm_list tm with
  | None => Ok tc
  | Some w => tc ← on_tlist w (fun d => ds_dlist_remove d t) tc; upd_timer t (set_tlist None) tc
  end.

Definition osw_timer_arm_at_nsec (t : loc) (nsec : Z) (tc : tcore) : res tcore :=
  tm ← deref (tc_timers tc !! t);
  _ ← c_assert (bool_decide (is_Some (tm_cb tm)));
  tc ← upd_timer t (set_at nsec) tc;
  tc ← unlist t tc;
  next ← find_later (S (size (tc_nodes tc))) tc nsec (dh_head (tc_active tc));
  tc ← match next with
       | Some u => on_tlist Active (fun d => ds_dlist_insert_before d u t) tc
       | None => on_tlist Active (fun d => ds_dlist_insert_tail d t) tc
       end;
  upd_timer t (set_tlist (Some Active)) tc.

Definition osw_timer_disarm (t : loc) (tc : tcore) : res tcore := unlist t tc.

Definition osw_timer_is_armed (t : loc) (tc : tcore) : res bool :=
  tm ← deref (tc_timers tc !! t); Ok (bool_decide (is_Some (tm_list tm))).

Definition UINT64_MAX : Z := 2 ^ 64 - 1.
Definition osw_timer_get_remaining_nsec (t : loc) (now : Z) (tc : tcore) : res Z :=
  armed ← osw_timer_is_armed t tc;
  if (armed : bool) then tm ← deref (tc_timers tc !! t); Ok (if now <=? at_nsec tm then at_nsec tm - now else 0)
  else Ok UINT64_MAX.

Fixpoint run_prog (p : prog) (tc : tcore) : res tcore :=
  match p with
  | PRet c => Ok (set_client c tc)
  | PArm t nsec k => tc ← osw_timer_arm_at_nsec t nsec tc; run_prog k tc
  | PDisarm t k => tc ← osw_timer_disarm t tc; run_prog k tc
  | PIsArmed t k => b ← osw_timer_is_armed t tc; run_prog (k b) tc
  | PRemaining t now k => z ← osw_timer_get_remaining_nsec t now tc; run_prog (k z) tc
  | PNextAt k => o ← osw_timer_core_get_next_at tc; run_prog (k o) tc
  | PInit t cb k => run_prog k (osw_timer_init t cb tc)
  | PFree t k => run_prog k (timer_free t tc)
  end.

(** [osw_timer_core_dispatch]: the two loops. *)
Fixpoint prepare_loop (n : nat) (now : Z) (tc : tcore) : res tcore :=
  match n with
  | O => Err FFuel
  | S n =>
      match dh_head (tc_active tc) with
      | None => Ok tc
      | Some t =>
          tm ← deref (tc_timers tc !! t);
          if now <? at_nsec tm then Ok tc else
          tc ← on_tlist Active (fun d => ds_dlist_remove d t) tc;
          tc ← upd_timer t (set_tlist None) tc;
          tc ← on_tlist Pending (fun d => ds_dlist_insert_tail d t) tc;
          tc ← upd_timer t (set_tlist (Some Pending)) tc;
          prepare_loop n now tc
      end
  end.

Definition call_timer (t : loc) (tc : tcore) : res tcore :=
  tm ← deref (tc_timers tc !! t);
  match tm_cb tm with
  | None => Err FAssert
  | Some cb =>
      run_prog (cb_fn cb t (tc_client tc))
        (mk_tcore (tc_active tc) (tc_pending tc) (tc_nodes tc) (tc_timers tc) (tc_client tc) (tc_fired tc ++ [t]))
  end.

Fixpoint fire_loop (n : nat) (tc : tcore) : res tcore :=
  match n with
  | O => Err FFuel
  | S n =>
      match dh_head (tc_pending tc) with
      | None => Ok tc
      | Some t =>
          tc ← on_tlist Pending (fun d => ds_dlist_remove d t) tc;
          tc ← upd_timer t (set_tlist None) tc;
          tc ← call_timer t tc;
          fire_loop n tc
      end
  end.

(** The fuel of both loops is the number of timers at the start. *)
Definition osw_timer_core_dispatch (now : Z) (tc : tcore) : res tcore :=
  let tc := mk_tcore (tc_active tc) dhead_init (tc_nodes tc) (tc_timers tc) (tc_client tc) (tc_fired tc) in
  let n := S (size (tc_nodes tc)) in
  tc ← prepare_loop n now tc;
  fire_loop n tc.

(** ** The specification *)
(** Deadlines of the armed timers in order, and of those the current dispatch has yet to
    call; the callbacks of all timers; and what happened: a timer was called, or was
    touched by a callback. *)
Inductive tev := Fire (t : loc) | Touch (t : loc).
#[export] Instance tev_eq_dec : EqDecision tev.
Proof. solve_decision. Defined.
Record ast := mk_ast { a_act : list (loc * Z); a_pend : list (loc * Z); a_mem : gmap loc B; a_client : C; a_log : list tev }.

Definition alist (w : tlist) (a : ast) : list (loc * Z) := match w with Active => a_act a | Pending => a_pend a end.
Definition dropt (t : loc) (l : list (loc * Z)) : list (loc * Z) := filter (fun p => p.1 <> t) l.
Fixpoint ins (t : loc) (n : Z) (l : list (loc * Z)) : list (loc * Z) :=
  match l with [] => [(t, n)] | (u, m) :: r => if n <=? m then (t, n) :: l else (u, m) :: ins t n r end.
Fixpoint deadline (t : loc) (l : list (loc * Z)) : option Z :=
  match l with [] => None | (u, m) :: r => if bool_decide (u = t) then Some m else deadline t r end.
Definition a_deadline (t : loc) (a : ast) : option Z := deadline t (a_act a ++ a_pend a).

Definition a_drop (t : loc) (a : ast) : ast := mk_ast (dropt t (a_act a)) (dropt t (a_pend a)) (a_mem a) (a_client a) (a_log a).
Definition a_arm (t : loc) (n : Z) (a : ast) : ast :=
  mk_ast (ins t n (dropt t (a_act a))) (dropt t (a_pend a)) (a_mem a) (a_client a) (a_log a).
Definition a_note (e : tev) (a : ast) : ast := mk_ast (a_act a) (a_pend a) (a_mem a) (a_client a) (a_log a ++ [e]).
Definition a_set_mem (m : gmap loc B) (a : ast) : ast := mk_ast (a_act a) (a_pend a) m (a_client a) (a_log a).

(** A callback, or [None] where it breaks the rules: it uses a timer that was never
    initialised or is freed, or initialises or frees an armed one. *)
Fixpoint spec_prog (p : prog) (a : ast) : option ast :=
  match p with
  | PRet c => Some (mk_ast (a_act a) (a_pend a) (a_mem a) c (a_log a))
  | PArm t n k => if decide (t ∈ dom (a_mem a)) then spec_prog k (a_note (Touch t) (a_arm t n a)) else None
  | PDisarm t k => if decide (t ∈ dom (a_mem a)) then spec_prog k (a_note (Touch t) (a_drop t a)) else None
  | PIsArmed t k => if decide (t ∈ dom (a_mem a)) then spec_prog (k (bool_decide (is_Some (a_deadline t a)))) a else None
  | PRemaining t now k =>
      if decide (t ∈ dom (a_mem a)) then
        spec_prog (k match a_deadline t a with Some n => Z.max 0 (n - now) | None => UINT64_MAX end) a
      else None
  | PNextAt k => spec_prog (k (snd <$> head (a_act a))) a
  | PInit t cb k => if a_deadline t a then None else spec_prog k (a_note (Touch t) (a_set_mem (<[t := cb]> (a_mem a)) a))
  | PFree t k =>
      if a_deadline t a then None else
      if decide (t ∈ dom (a_mem a)) then spec_prog k (a_note (Touch t) (a_set_mem (delete t (a_mem a)) a)) else None
  end.

(** A dispatch calls the timers that are due, in order, except those that a callback
    has touched in the meantime. *)
Fixpoint spec_fire (due : list (loc * Z)) (a : ast) : option ast :=
  match due with
  | [] => Some a
  | (t, _) :: due =>
      if decide (t ∈ (a_pend a).*1) then
        cb ← a_mem a !! t;
        a ← spec_prog (cb_fn cb t (a_client a)) (a_note (Fire t) (a_drop t a));
        spec_fire due a
      else spec_fire due a
  end.
Definition is_due (now : Z) (p : loc * Z) : Prop := p.2 <= now.
#[local] Instance is_due_dec now p : Decision (is_due now p) := Z_le_dec _ _.
Definition due_at (now : Z) (l : list (loc * Z)) : list (loc * Z) := filter (is_due now) l.
Definition later_than (now : Z) (l : list (loc * Z)) : list (loc * Z) := filter (fun p => ~ is_due now p) l.
Definition spec_dispatch (now : Z) (a : ast) : option ast :=
  spec_fire (due_at now (a_act a)) (mk_ast (later_than now (a_act a)) (due_at now (a_act a)) (a_mem a) (a_client a) (a_log a)).

(** *** How the two are related *)
Definition sorted_at (l : list (loc * Z)) : Prop := StronglySorted (fun p q => p.2 <= q.2) l.
Definition fired (l : list tev) : list loc := omap (fun e => match e with Fire t => Some t | Touch _ => None end) l.

(** The deadline stored in the timer [x] may be ahead of the lists. *)
Record tc_ok (x : option loc) (tc : tcore) (a : ast) : Prop := {
  r_lists w : lrep (tc_nodes tc) (tc_head w tc) (alist w a).*1;
  r_disj t : t ∈ (a_act a).*1 -> t ∈ (a_pend a).*1 -> False;
  r_nodes : dom (tc_nodes tc) = dom (a_mem a);
  r_timers : dom (tc_timers tc) = dom (a_mem a);
  r_tm t cb : a_mem a !! t = Some cb ->
    exists tm, tc_timers tc !! t = Some tm /\ tm_cb tm = Some cb /\ (forall w, tm_list tm = Some w <-> t ∈ (alist w a).*1) /\
      (Some t <> x -> forall w n, (t, n) ∈ alist w a -> at_nsec tm = n);
  r_sorted : sorted_at (a_act a);
  r_client : tc_client tc = a_client a;
  r_fired : tc_fired tc = fired (a_log a)
}.

(** *** Lists of deadlines *)
Lemma in_keys (l : list (loc * Z)) t : t ∈ l.*1 <-> exists n, (t, n) ∈ l.
Proof. rewrite list_elem_of_fmap. split; [intros ([u n] & -> & ?); by exists n|intros (n & ?); by exists (t, n)]. Qed.
Lemma in_dropt t l p : p ∈ dropt t l <-> p.1 <> t /\ p ∈ l.
Proof. unfold dropt. by rewrite list_elem_of_filter. Qed.
Lemma in_dropt_keys t l u : u ∈ (dropt t l).*1 <-> u <> t /\ u ∈ l.*1.
Proof. rewrite !in_keys. setoid_rewrite in_dropt. cbn. naive_solver. Qed.
Lemma dropt_none t l : t ∉ l.*1 -> dropt t l = l.
Proof.
  intros Ht. unfold dropt. induction l as [|[u n] l IH]; [done|]. rewrite fmap_cons in Ht. rewrite filter_cons_True; [|set_solver].
  f_equal. apply IH. set_solver.
Qed.
Lemma dropt_at t n l1 l2 : NoDup (l1 ++ (t, n) :: l2).*1 -> dropt t (l1 ++ (t, n) :: l2) = l1 ++ l2.
Proof.
  rewrite fmap_app, fmap_cons. intros (_ & Hd & [Hn _]%NoDup_cons)%NoDup_app. unfold dropt.
  rewrite filter_app, filter_cons_False by (cbn; naive_solver). fold (dropt t l1) (dropt t l2). rewrite !dropt_none; [done|done|].
  intros Ht. by apply (Hd t Ht); left.
Qed.
Lemma in_ins t n l p : p ∈ ins t n l <-> p = (t, n) \/ p ∈ l.
Proof.
  induction l as [|[u m] l IH]; cbn [ins]; [set_solver|]. destruct (n <=? m); [set_solver|]. rewrite !elem_of_cons, IH. tauto.
Qed.
Lemma sorted_ins t n l : sorted_at l -> sorted_at (ins t n l).
Proof.
  unfold sorted_at. induction l as [|[u m] l IH]; cbn [ins]; intros Hs; [by repeat constructor|]. apply StronglySorted_inv in Hs as [Hs Hm].
  destruct (n <=? m) eqn:E; zbool.
  - constructor; [by constructor|]. constructor; [done|]. eapply Forall_impl; [exact Hm|]. cbn. intros. lia.
  - constructor; [by apply IH|]. apply Forall_forall. intros p [->|Hp]%in_ins; [cbn; lia|]. by apply (proj1 (Forall_forall _ _) Hm).
Qed.
Lemma sorted_filter (P : loc * Z -> Prop) `{!forall p, Decision (P p)} l : sorted_at l -> sorted_at (filter P l).
Proof.
  unfold sorted_at. induction l as [|p l IH]; intros Hs; [done|]. apply StronglySorted_inv in Hs as [Hs Hm]. destruct (decide (P p)).
  - rewrite filter_cons_True by done. constructor; [by apply IH|]. apply Forall_forall. intros q [_ Hq]%list_elem_of_filter.
    by apply (proj1 (Forall_forall _ _) Hm).
  - rewrite filter_cons_False by done. by apply IH.
Qed.
(** The place [ins] finds. *)
Lemma ins_split t n l1 l2 : Forall (fun p => p.2 < n) l1 -> (forall p, head l2 = Some p -> n <= p.2) -> ins t n (l1 ++ l2) = l1 ++ (t, n) :: l2.
Proof.
  intros Hl Hh. induction l1 as [|[u m] l1 IH]; cbn [app ins].
  - destruct l2 as [|[u m] l2]; cbn [ins]; [done|]. specialize (Hh _ eq_refl). cbn in Hh. destruct (n <=? m) eqn:E; zbool; [done|lia].
  - apply Forall_cons in Hl as [Hm Hl]. cbn in Hm. destruct (n <=? m) eqn:E; zbool; [lia|]. by rewrite IH.
Qed.
Lemma deadline_in t n l : NoDup l.*1 -> deadline t l = Some n <-> (t, n) ∈ l.
Proof.
  induction l as [|[u m] l IH]; cbn [deadline]; [set_solver|]. rewrite fmap_cons. intros [Hu Hn]%NoDup_cons.
  rewrite elem_of_cons. case_bool_decide as E.
  - subst u. split; [intros [= ->]; by left|]. intros [[= ->]|Hin]; [done|]. destruct Hu. apply in_keys. by exists n.
  - rewrite IH by done. naive_solver.
Qed.
Lemma deadline_none t l : deadline t l = None <-> t ∉ l.*1.
Proof.
  induction l as [|[u m] l IH]; cbn [deadline]; [set_solver|]. rewrite fmap_cons, not_elem_of_cons. case_bool_decide; naive_solver.
Qed.

(** *** States *)
Lemma ok_nodup x tc a : tc_ok x tc a -> NoDup (a_act a ++ a_pend a).*1.
Proof.
  intros R. rewrite fmap_app. apply NoDup_app. split_and!; [apply (lrep_nodup _ _ _ (r_lists _ _ _ R Active))| |apply (lrep_nodup _ _ _ (r_lists _ _ _ R Pending))].
  intros t Ha Hp. by apply (r_disj _ _ _ R t).
Qed.
Lemma ok_mem x tc a w t : tc_ok x tc a -> t ∈ (alist w a).*1 -> t ∈ dom (a_mem a).
Proof. intros R Ht. rewrite <- (r_nodes _ _ _ R). apply elem_of_dom. by apply (lrep_dom _ _ _ _ (r_lists _ _ _ R w)). Qed.
Lemma ok_other x tc a w w' t : tc_ok x tc a -> w <> w' -> t ∈ (alist w a).*1 -> t ∈ (alist w' a).*1 -> False.
Proof. intros R Hw. pose proof (r_disj _ _ _ R t). destruct w, w'; cbn; naive_solver. Qed.

(** An operation on one list leaves the other alone. *)
Lemma relist tc w h' N' (L L' : tlist -> list loc) :
  (forall v, lrep (tc_nodes tc) (tc_head v tc) (L v)) -> lrep N' h' (L' w) ->
  (forall v, v <> w -> L' v = L v) -> (forall v y, v <> w -> y ∈ L v -> N' !! y = tc_nodes tc !! y) ->
  forall v, lrep (tc_nodes (set_thead w h' N' tc)) (tc_head v (set_thead w h' N' tc)) (L' v).
Proof.
  intros HL Hw Ho Hf v. destruct (decide (v = w)) as [->|Hv]; [by destruct w|].
  replace (tc_head v (set_thead w h' N' tc)) with (tc_head v tc) by (by destruct v, w). rewrite (Ho v Hv).
  replace (tc_nodes (set_thead w h' N' tc)) with N' by (by destruct w). eapply lrep_frame; [|apply HL]. intros y Hy. by apply (Hf v).
Qed.

Lemma timer_unlink_ok x tc a w t : tc_ok x tc a -> t ∈ (alist w a).*1 ->
  exists tc', (tc ← on_tlist w (fun d => ds_dlist_remove d t) tc; upd_timer t (set_tlist None) tc) = Ok tc' /\ tc_ok x tc' (a_drop t a).
Proof.
  intros R Ht. pose proof (lrep_nodup _ _ _ (r_lists _ _ _ R w)) as Hnd.
  pose proof Ht as Htm. eapply ok_mem in Htm; [|done]. apply elem_of_dom in Htm as [cb Ecb]. destruct (r_tm _ _ _ R t cb Ecb) as (tm & Etm & Hcb & _ & _).
  apply in_keys in Ht as [n Hin]. apply list_elem_of_split in Hin as (l1 & l2 & El).
  pose proof (r_lists _ _ _ R w) as Hr. rewrite El, fmap_app, fmap_cons in Hr. cbn [fst] in Hr.
  destruct (list_remove_ok _ _ _ _ _ Hr) as (h' & N' & E & Hr' & Hd & _ & Hf). unfold on_tlist. rewrite E. cbind. unfold upd_timer.
  replace (tc_timers (set_thead w h' N' tc)) with (tc_timers tc) by (by destruct w). rewrite Etm. cbn [deref]. cbind. eexists. split; [done|].
  assert (Hother : forall v, v <> w -> dropt t (alist v a) = alist v a).
  { intros v Hv. apply dropt_none. intros Hi. apply (ok_other _ _ _ v w t R Hv Hi). rewrite El, fmap_app, fmap_cons. set_solver +. }
  assert (Hal : forall v, alist v (a_drop t a) = dropt t (alist v a)) by (by intros []).
  split; cbn [tc_nodes tc_timers tc_client tc_fired tc_active tc_pending]; try by destruct R, w.
  - assert (HL : forall v, lrep (tc_nodes (set_thead w h' N' tc)) (tc_head v (set_thead w h' N' tc)) (dropt t (alist v a)).*1).
    { apply (relist tc w h' N' (fun v => (alist v a).*1)); [apply R| | |].
      - rewrite El, dropt_at by (by rewrite <- El). by rewrite fmap_app.
      - intros v Hv. by rewrite Hother.
      - intros v y Hv Hy. apply Hf. intros Hy2. apply (ok_other _ _ _ v w y R Hv Hy). by rewrite El, fmap_app, fmap_cons. }
    intros v. rewrite Hal. specialize (HL v). by destruct v.
  - intros u [_ Hu]%in_dropt_keys [_ Hu2]%in_dropt_keys. by apply (r_disj _ _ _ R u).
  - destruct w; cbn [set_thead tc_nodes]; rewrite Hd; apply (r_nodes _ _ _ R).
  - rewrite dom_insert_lookup_L by (by exists tm). apply (r_timers _ _ _ R).
  - cbn [a_drop a_mem]. intros u cbu Eu. setoid_rewrite Hal. setoid_rewrite in_dropt_keys. setoid_rewrite in_dropt. cbn [fst].
    destruct (decide (u = t)) as [->|Hu].
    + rewrite lookup_insert_eq. eexists. split_and!; [done|by rewrite Ecb in Eu; injection Eu as <-| |naive_solver]. cbn. naive_solver.
    + rewrite lookup_insert_ne by done. destruct (r_tm _ _ _ R u cbu Eu) as (tmu & E1 & E2 & E3 & E4). exists tmu. split_and!; [done|done| |naive_solver].
      intros v. rewrite E3. naive_solver.
  - apply sorted_filter, R.
Qed.

Lemma unlist_ok x tc a t : tc_ok x tc a -> t ∈ dom (a_mem a) -> exists tc', unlist t tc = Ok tc' /\ tc_ok x tc' (a_drop t a).
Proof.
  intros R [cb Ecb]%elem_of_dom. destruct (r_tm _ _ _ R t cb Ecb) as (tm & Etm & Hcb & Hw & _). unfold unlist. rewrite Etm. cbn [deref]. cbind.
  destruct (tm_list tm) as [w|].
  - apply timer_unlink_ok; [done|]. by apply Hw.
  - exists tc. split; [done|]. assert (Hn : forall w, t ∉ (alist w a).*1) by (by intros w Hi%Hw).
    unfold a_drop. rewrite (dropt_none t (a_act a) (Hn Active)), (dropt_none t (a_pend a) (Hn Pending)). by destruct a.
Qed.

(** Putting an unlisted timer into a list. *)
Definition aput (w : tlist) (l : list (loc * Z)) (a : ast) : ast :=
  match w with
  | Active => mk_ast l (a_pend a) (a_mem a) (a_client a) (a_log a)
  | Pending => mk_ast (a_act a) l (a_mem a) (a_client a) (a_log a)
  end.
Lemma timer_link_ok x tc a w f l1 l2 t tm :
  tc_ok x tc a -> (x = None \/ x = Some t) -> alist w a = l1 ++ l2 -> (forall v, t ∉ (alist v a).*1) -> tc_timers tc !! t = Some tm ->
  (exists h' N', on_list f (tc_head w tc) (tc_nodes tc) = Ok (h', N') /\ lrep N' h' (l1.*1 ++ t :: l2.*1) /\
    dom N' = dom (tc_nodes tc) /\ (forall y, y ∉ l1.*1 ++ t :: l2.*1 -> N' !! y = tc_nodes tc !! y)) ->
  sorted_at (a_act (aput w (l1 ++ (t, at_nsec tm) :: l2) a)) ->
  exists tc', (tc ← on_tlist w f tc; upd_timer t (set_tlist (Some w)) tc) = Ok tc' /\ tc_ok None tc' (aput w (l1 ++ (t, at_nsec tm) :: l2) a).
Proof.
  intros R Hx El Hn Etm (h' & N' & E & Hr' & Hd & Hf) Hs. unfold on_tlist. rewrite E. cbind. unfold upd_timer.
  replace (tc_timers (set_thead w h' N' tc)) with (tc_timers tc) by (by destruct w). rewrite Etm. cbn [deref]. cbind. eexists. split; [done|].
  assert (Hal : forall v, alist v (aput w (l1 ++ (t, at_nsec tm) :: l2) a) = if decide (v = w) then l1 ++ (t, at_nsec tm) :: l2 else alist v a) by (by intros []; destruct w).
  assert (Hin : forall p v, p ∈ alist v (aput w (l1 ++ (t, at_nsec tm) :: l2) a) <-> (v = w /\ p = (t, at_nsec tm)) \/ p ∈ alist v a).
  { intros p v. rewrite Hal. destruct (decide (v = w)) as [->|]; [rewrite El, !elem_of_app, elem_of_cons; naive_solver|naive_solver]. }
  assert (Hk : forall u v, u ∈ (alist v (aput w (l1 ++ (t, at_nsec tm) :: l2) a)).*1 <-> (v = w /\ u = t) \/ u ∈ (alist v a).*1).
  { intros u v. rewrite !in_keys. setoid_rewrite Hin. naive_solver. }
  split; cbn [tc_nodes tc_timers tc_client tc_fired tc_active tc_pending]; try by destruct R, w.
  - assert (HL : forall v, lrep (tc_nodes (set_thead w h' N' tc)) (tc_head v (set_thead w h' N' tc)) (alist v (aput w (l1 ++ (t, at_nsec tm) :: l2) a)).*1).
    { apply (relist tc w h' N' (fun v => (alist v a).*1) (fun v => (alist v (aput w (l1 ++ (t, at_nsec tm) :: l2) a)).*1)); [apply R| | |].
      - rewrite Hal, decide_True by done. by rewrite fmap_app, fmap_cons.
      - intros v Hv. by rewrite Hal, decide_False.
      - intros v y Hv Hy. apply Hf. intros Hy2. assert (y = t \/ y ∈ (alist w a).*1) as [->|Hyw] by (rewrite El, fmap_app; set_solver +Hy2).
        + by apply (Hn v).
        + by apply (ok_other _ _ _ v w y R). }
    intros v. specialize (HL v). by destruct v.
  - intros u. change (u ∈ (alist Active (aput w (l1 ++ (t, at_nsec tm) :: l2) a)).*1 -> u ∈ (alist Pending (aput w (l1 ++ (t, at_nsec tm) :: l2) a)).*1 -> False).
    rewrite !Hk. intros [[? E1]|H1] [[? E2]|H2]; [congruence|subst u; by apply (Hn Pending)|subst u; by apply (Hn Active)|by apply (r_disj _ _ _ R u)].
  - replace (tc_nodes (set_thead w h' N' tc)) with N' by (by destruct w). rewrite Hd, (r_nodes _ _ _ R). by destruct w.
  - rewrite dom_insert_lookup_L by (by exists tm). rewrite (r_timers _ _ _ R). by destruct w.
  - replace (a_mem (aput w (l1 ++ (t, at_nsec tm) :: l2) a)) with (a_mem a) by (by destruct w). intros u cbu Eu. setoid_rewrite Hk. setoid_rewrite Hin.
    destruct (r_tm _ _ _ R u cbu Eu) as (tmu & E1 & E2 & E3 & E4). destruct (decide (u = t)) as [->|Hu].
    + rewrite lookup_insert_eq. rewrite Etm in E1. injection E1 as <-. eexists. split_and!; [done|done| |].
      * intros v. cbn. split; [intros [= <-]; by left|]. intros [[-> _]|Hv]; [done|by destruct (Hn v)].
      * cbn. intros _ v n [[_ [= <-]]|Hv]; [done|]. destruct (Hn v). apply in_keys. by exists n.
    + rewrite lookup_insert_ne by done. exists tmu. split_and!; [done|done| |].
      * intros v. rewrite E3. naive_solver.
      * intros _ v n [[_ [= ? _]]|Hv]; [done|]. apply (E4 ltac:(naive_solver) v n Hv).
Qed.

(** *** Arming *)
Lemma find_later_ok x tc a n nsec : forall l1 l2, tc_ok x tc a -> a_act a = l1 ++ l2 -> (forall t, x = Some t -> t ∉ (a_act a).*1) -> (length l2 < n)%nat ->
  exists l3 l4, l2 = l3 ++ l4 /\ find_later n tc nsec (fst <$> head l2) = Ok (fst <$> head l4) /\
    Forall (fun p => p.2 < nsec) l3 /\ (forall p, head l4 = Some p -> nsec <= p.2).
Proof.
  induction n as [|n IH]; intros l1 l2 R El Hx Hn; [lia|]. destruct l2 as [|[u m] l2]; cbn [find_later head fmap option_fmap option_map fst].
  { exists [], []. by split_and!. }
  assert (Hu : u ∈ (a_act a).*1) by (rewrite El, fmap_app, fmap_cons; set_solver +).
  pose proof (ok_mem _ _ _ Active _ R Hu) as [cb Ecb]%elem_of_dom. destruct (r_tm _ _ _ R u cb Ecb) as (tm & -> & _ & _ & Hat). cbn [deref]. cbind.
  rewrite (Hat ltac:(intros Ex; by apply (Hx u)) Active m) by (cbn; rewrite El; set_solver +). destruct (nsec <=? m) eqn:E; zbool.
  { exists [], ((u, m) :: l2). split_and!; [done|done|done|]. by intros p [= <-]. }
  pose proof (r_lists _ _ _ R Active) as Hr. cbn [alist tc_head] in Hr. rewrite El, fmap_app, fmap_cons in Hr. cbn [fst] in Hr. rewrite (next_ok _ _ _ _ Hr). cbind.
  destruct (IH (l1 ++ [(u, m)]) l2 R) as (l3 & l4 & -> & Ef & Hl3 & Hl4); [by rewrite <- app_assoc|done|cbn in Hn; lia|].
  exists ((u, m) :: l3), l4. split_and!; [done| |by constructor|done]. rewrite <- Ef. f_equal. by destruct (l3 ++ l4).
Qed.

Lemma short_list x tc a w : tc_ok x tc a -> (length (alist w a) <= size (tc_nodes tc))%nat.
Proof. intros R. pose proof (rep_short _ _ (r_lists _ _ _ R w)) as H. by rewrite length_fmap in H. Qed.

Lemma active_head x tc a : tc_ok x tc a -> dh_head (tc_active tc) = fst <$> head (a_act a).
Proof. intros R. pose proof (lrep_head _ _ _ (r_lists _ _ _ R Active)) as H. cbn [tc_head alist] in H. rewrite H. by destruct (a_act a) as [|[]]. Qed.
Lemma pending_head x tc a : tc_ok x tc a -> dh_head (tc_pending tc) = fst <$> head (a_pend a).
Proof. intros R. pose proof (lrep_head _ _ _ (r_lists _ _ _ R Pending)) as H. cbn [tc_head alist] in H. rewrite H. by destruct (a_pend a) as [|[]]. Qed.

Lemma set_at_ok tc a t n : tc_ok None tc a -> t ∈ dom (a_mem a) ->
  exists tc' tm, upd_timer t (set_at n) tc = Ok tc' /\ tc_ok (Some t) tc' a /\ tc_timers tc' !! t = Some tm /\ at_nsec tm = n.
Proof.
  intros R [cb Ecb]%elem_of_dom. destruct (r_tm _ _ _ R t cb Ecb) as (tm & Etm & Hcb & Hw & Hat). unfold upd_timer. rewrite Etm. cbn [deref]. cbind.
  do 2 eexists. split_and!; [done| |cbn; apply lookup_insert_eq|done]. destruct R as [R1 R2 R3 R4 R5 R6 R7 R8]. split; try done.
  - cbn. by rewrite dom_insert_lookup_L by (by exists tm).
  - intros u cbu Eu. cbn [tc_timers]. destruct (decide (u = t)) as [->|Hu].
    + rewrite lookup_insert_eq. eexists. split_and!; [done|by rewrite Ecb in Eu; injection Eu as <-|done|done].
    + rewrite lookup_insert_ne by done. destruct (R5 u cbu Eu) as (tmu & ? & ? & ? & H4). exists tmu. split_and!; [done..|]. intros _. by apply H4.
Qed.

(** Removing keeps the fields of the timers but for their list. *)
Lemma unlist_at tc t tc' tm : unlist t tc = Ok tc' -> tc_timers tc !! t = Some tm -> exists tm', tc_timers tc' !! t = Some tm' /\ at_nsec tm' = at_nsec tm.
Proof.
  unfold unlist. intros E Etm. rewrite Etm in E. cbn [deref] in E. cbn [mbind res_bind] in E. destruct (tm_list tm) as [w|].
  - apply bind_Ok in E as (tc1 & E1 & E). unfold on_tlist in E1. apply bind_Ok in E1 as ([h N] & _ & E1). injection E1 as <-.
    unfold upd_timer in E. replace (tc_timers (set_thead w h N tc)) with (tc_timers tc) in E by (by destruct w). rewrite Etm in E. cbn in E. injection E as <-.
    cbn. rewrite lookup_insert_eq. by eexists.
  - injection E as <-. by exists tm.
Qed.

Lemma arm_ok tc a t n : tc_ok None tc a -> t ∈ dom (a_mem a) -> exists tc', osw_timer_arm_at_nsec t n tc = Ok tc' /\ tc_ok None tc' (a_arm t n a).
Proof.
  intros R Ht. destruct (proj1 (elem_of_dom _ _) Ht) as [cb Ecb]. destruct (r_tm _ _ _ R t cb Ecb) as (tm & Etm & Hcb & _ & _).
  unfold osw_timer_arm_at_nsec. rewrite Etm. cbn [deref]. cbind. rewrite bool_decide_eq_true_2 by (by exists cb). cbn [c_assert]. cbind.
  destruct (set_at_ok tc a t n R Ht) as (tc1 & tm1 & -> & R1 & Etm1 & Hat1). cbind.
  destruct (unlist_ok _ _ _ t R1 Ht) as (tc2 & E2 & R2). rewrite E2. cbind. destruct (unlist_at _ _ _ _ E2 Etm1) as (tm2 & Etm2 & Hat2).
  assert (Hnt : forall v, t ∉ (alist v (a_drop t a)).*1) by (intros [] [Hne _]%in_dropt_keys; done).
  rewrite (active_head _ _ _ R2).
  destruct (find_later_ok _ _ _ (S (size (tc_nodes tc2))) n [] (a_act (a_drop t a)) R2 eq_refl) as (l1 & l2 & El & -> & Hl1 & Hl2).
  { intros u [= <-]. apply (Hnt Active). }
  { pose proof (short_list _ _ _ Active R2) as H. cbn [alist] in H. lia. }
  cbind. assert (Hins : a_arm t n a = aput Active (l1 ++ (t, at_nsec tm2) :: l2) (a_drop t a)).
  { unfold a_arm, aput. cbn [a_drop a_act a_pend a_mem a_client a_log] in *. rewrite El, (ins_split t n l1 l2 Hl1 Hl2). congruence. }
  rewrite Hins. assert (Hsort : sorted_at (a_act (aput Active (l1 ++ (t, at_nsec tm2) :: l2) (a_drop t a)))).
  { rewrite <- Hins. apply sorted_ins, sorted_filter, R. }
  pose proof (r_lists _ _ _ R2 Active) as Hr. cbn [alist] in Hr. rewrite El, fmap_app in Hr. pose proof (Hnt Active) as HnA. cbn [alist] in HnA. rewrite El, fmap_app in HnA.
  assert (Hdt : is_Some (tc_nodes tc2 !! t)) by (apply elem_of_dom; by rewrite (r_nodes _ _ _ R2)).
  destruct l2 as [|[u m] l2]; cbn [head fmap option_fmap option_map fst].
  - apply (timer_link_ok _ _ _ Active _ l1 [] t tm2 R2); [by right|done|done|done| |done]. rewrite app_nil_r in Hr, HnA. by apply list_insert_tail_ok.
  - apply (timer_link_ok _ _ _ Active _ l1 ((u, m) :: l2) t tm2 R2); [by right|done|done|done| |done]. by apply list_insert_before_ok.
Qed.

(** *** The other calls, and whole callbacks *)
Lemma note_touch x tc a t : tc_ok x tc a -> tc_ok x tc (a_note (Touch t) a).
Proof. intros []. split; try done. cbn. unfold fired. rewrite omap_app. cbn. by rewrite app_nil_r. Qed.

Lemma unarmed t a : a_deadline t a = None -> forall w, t ∉ (alist w a).*1.
Proof. unfold a_deadline. rewrite deadline_none, fmap_app, not_elem_of_app. intros [? ?] w. by destruct w. Qed.

Lemma init_timer_ok tc a t cb : tc_ok None tc a -> a_deadline t a = None -> tc_ok None (osw_timer_init t cb tc) (a_set_mem (<[t := cb]> (a_mem a)) a).
Proof.
  intros [R1 R2 R3 R4 R5 R6 R7 R8] Hd. pose proof (unarmed _ _ Hd) as Hu. split; try done; cbn [osw_timer_init tc_nodes tc_timers a_set_mem a_mem].
  - intros w. assert (H : lrep (<[t := mk_dnode None None]> (tc_nodes tc)) (tc_head w tc) (alist w a).*1); [|by destruct w].
    eapply lrep_frame; [|apply R1]. intros y Hy. rewrite lookup_insert_ne; [done|]. intros ->. by apply (Hu w).
  - by rewrite !dom_insert_L, R3.
  - by rewrite !dom_insert_L, R4.
  - intros u cbu. assert (Hal : forall w, alist w (a_set_mem (<[t := cb]> (a_mem a)) a) = alist w a) by (by intros []). setoid_rewrite Hal. destruct (decide (u = t)) as [->|Hne].
    + rewrite !lookup_insert_eq. intros [= <-]. eexists. split_and!; [done|done| |].
      * intros w. cbn. split; [done|]. intros Hi. by destruct (Hu w).
      * intros _ w n Hi. destruct (Hu w). apply in_keys. by exists n.
    + rewrite !lookup_insert_ne by done. apply R5.
Qed.

Lemma free_timer_ok tc a t : tc_ok None tc a -> a_deadline t a = None -> tc_ok None (timer_free t tc) (a_set_mem (delete t (a_mem a)) a).
Proof.
  intros [R1 R2 R3 R4 R5 R6 R7 R8] Hd. pose proof (unarmed _ _ Hd) as Hu. split; try done; cbn [timer_free tc_nodes tc_timers a_set_mem a_mem].
  - intros w. assert (H : lrep (delete t (tc_nodes tc)) (tc_head w tc) (alist w a).*1); [|by destruct w].
    eapply lrep_frame; [|apply R1]. intros y Hy. rewrite lookup_delete_ne; [done|]. intros ->. by apply (Hu w).
  - by rewrite !dom_delete_L, R3.
  - by rewrite !dom_delete_L, R4.
  - intros u cbu [Hne Hl]%lookup_delete_Some. rewrite lookup_delete_ne by done. by apply R5.
Qed.

Lemma armed_spec x tc a t tm : tc_ok x tc a -> t ∈ dom (a_mem a) -> tc_timers tc !! t = Some tm ->
  is_Some (tm_list tm) <-> is_Some (a_deadline t a).
Proof.
  intros R [cb Ecb]%elem_of_dom Etm. destruct (r_tm _ _ _ R t cb Ecb) as (tm' & E' & _ & Hw & _). rewrite Etm in E'. injection E' as <-.
  split.
  - intros [w Ew]. apply Hw in Ew. destruct (a_deadline t a) eqn:Ed; [done|]. by destruct (unarmed _ _ Ed w).
  - intros [n Hn]. apply deadline_in, elem_of_app in Hn as [Hn|Hn]; [| |by eapply ok_nodup].
    + exists Active. apply Hw. apply in_keys. by exists n.
    + exists Pending. apply Hw. apply in_keys. by exists n.
Qed.

Lemma is_armed_ok tc a t : tc_ok None tc a -> t ∈ dom (a_mem a) -> osw_timer_is_armed t tc = Ok (bool_decide (is_Some (a_deadline t a))).
Proof.
  intros R Ht. destruct (proj1 (elem_of_dom _ _) Ht) as [cb Ecb]. destruct (r_tm _ _ _ R t cb Ecb) as (tm & Etm & _ & _ & _).
  unfold osw_timer_is_armed. rewrite Etm. cbn [deref]. cbind. f_equal. apply bool_decide_ext. by eapply armed_spec.
Qed.

Lemma remaining_ok tc a t now : tc_ok None tc a -> t ∈ dom (a_mem a) ->
  osw_timer_get_remaining_nsec t now tc = Ok match a_deadline t a with Some n => Z.max 0 (n - now) | None => UINT64_MAX end.
Proof.
  intros R Ht. unfold osw_timer_get_remaining_nsec. rewrite (is_armed_ok _ _ _ R Ht). cbind. destruct (a_deadline t a) as [n|] eqn:Ed.
  - rewrite bool_decide_eq_true_2 by (by exists n). destruct (proj1 (elem_of_dom _ _) Ht) as [cb Ecb]. destruct (r_tm _ _ _ R t cb Ecb) as (tm & -> & _ & _ & Hat).
    cbn [deref]. cbind. apply deadline_in in Ed; [|by eapply ok_nodup]. assert (at_nsec tm = n) as ->.
    { apply elem_of_app in Ed as [Hi|Hi]; [by apply (Hat ltac:(done) Active)|by apply (Hat ltac:(done) Pending)]. }
    f_equal. destruct (now <=? n) eqn:E; zbool; lia.
  - rewrite bool_decide_eq_false_2; [done|]. by intros [].
Qed.

Lemma next_at_ok tc a : tc_ok None tc a -> osw_timer_core_get_next_at tc = Ok (snd <$> head (a_act a)).
Proof.
  intros R. unfold osw_timer_core_get_next_at. rewrite (active_head _ _ _ R). destruct (a_act a) as [|[t n] l] eqn:El; [done|]. cbn [head fmap option_fmap option_map fst snd].
  assert (Hin : (t, n) ∈ alist Active a) by (cbn; rewrite El; by left).
  pose proof (ok_mem _ _ _ Active t R ltac:(apply in_keys; by exists n)) as [cb Ecb]%elem_of_dom. destruct (r_tm _ _ _ R t cb Ecb) as (tm & -> & _ & _ & Hat). cbn [deref]. cbind.
  by rewrite (Hat ltac:(done) Active n Hin).
Qed.

Lemma run_prog_ok p : forall tc a a', tc_ok None tc a -> spec_prog p a = Some a' -> exists tc', run_prog p tc = Ok tc' /\ tc_ok None tc' a'.
Proof.
  induction p as [c|t n k IH|t k IH|t k IH|t now k IH|k IH|t cb k IH|t k IH]; intros tc a a' R E; cbn [run_prog spec_prog] in *.
  - injection E as <-. eexists. split; [done|]. by destruct R.
  - destruct (decide _) as [Ht|]; [|done]. destruct (arm_ok _ _ t n R Ht) as (tc1 & -> & R1). cbind. eapply IH; [|exact E]. by apply note_touch.
  - destruct (decide _) as [Ht|]; [|done]. destruct (unlist_ok _ _ _ t R Ht) as (tc1 & E1 & R1). unfold osw_timer_disarm. rewrite E1. cbind. eapply IH; [|exact E]. by apply note_touch.
  - destruct (decide _) as [Ht|]; [|done]. rewrite (is_armed_ok _ _ _ R Ht). cbind. by eapply IH.
  - destruct (decide _) as [Ht|]; [|done]. rewrite (remaining_ok _ _ _ _ R Ht). cbind. by eapply IH.
  - rewrite (next_at_ok _ _ R). cbind. by eapply IH.
  - destruct (a_deadline t a) eqn:Ed; [done|]. eapply IH; [|exact E]. by apply note_touch, init_timer_ok.
  - destruct (a_deadline t a) eqn:Ed; [done|]. destruct (decide _); [|done]. eapply IH; [|exact E]. by apply note_touch, free_timer_ok.
Qed.

(** *** Dispatching *)
Lemma relist_timer tc w f t v tc' tm : (tc ← on_tlist w f tc; upd_timer t (set_tlist v) tc) = Ok tc' -> tc_timers tc !! t = Some tm ->
  tc_timers tc' !! t = Some (set_tlist v tm).
Proof.
  intros E Etm. apply bind_Ok in E as (tc1 & E1 & E). unfold on_tlist in E1. apply bind_Ok in E1 as ([h N] & _ & E1). injection E1 as <-.
  unfold upd_timer in E. replace (tc_timers (set_thead w h N tc)) with (tc_timers tc) in E by (by destruct w). rewrite Etm in E. cbn in E. injection E as <-.
  cbn. apply lookup_insert_eq.
Qed.

Lemma prepare_step tc a t n l now : tc_ok None tc a -> a_act a = (t, n) :: l -> n <= now -> forall k,
  exists tc', prepare_loop (S k) now tc = prepare_loop k now tc' /\ tc_ok None tc' (mk_ast l (a_pend a ++ [(t, n)]) (a_mem a) (a_client a) (a_log a)) /\
    size (tc_nodes tc') = size (tc_nodes tc).
Proof.
  intros R El Hn k. pose proof (lrep_nodup _ _ _ (r_lists _ _ _ R Active)) as Hnd. cbn [alist] in Hnd. rewrite El, fmap_cons in Hnd. apply NoDup_cons in Hnd as [Htl _].
  assert (Hin : (t, n) ∈ alist Active a) by (cbn; rewrite El; by left). assert (Hk : t ∈ (alist Active a).*1) by (apply in_keys; by exists n).
  assert (HtP : t ∉ (a_pend a).*1) by (intros Hp; by apply (r_disj _ _ _ R t)).
  pose proof (ok_mem _ _ _ Active t R Hk) as Htm. destruct (proj1 (elem_of_dom _ _) Htm) as [cb Ecb]. destruct (r_tm _ _ _ R t cb Ecb) as (tm & Etm & _ & _ & Hat).
  specialize (Hat ltac:(done) Active n Hin). cbn [prepare_loop]. rewrite (active_head _ _ _ R), El. cbn [head fmap option_fmap option_map fst]. rewrite Etm. cbn [deref]. cbind.
  rewrite (proj2 (Z.ltb_ge now (at_nsec tm))) by lia. destruct (timer_unlink_ok _ _ _ Active t R Hk) as (tc1 & E1 & R1). pose proof (relist_timer _ _ _ _ _ _ _ E1 Etm) as Etm1.
  apply bind_Ok in E1 as (tc0 & -> & E1). cbind. rewrite E1. cbind.
  assert (Ea : a_drop t a = mk_ast l (a_pend a) (a_mem a) (a_client a) (a_log a)).
  { unfold a_drop. rewrite El, (dropt_none t (a_pend a) HtP). f_equal. pose proof (dropt_at t n [] l) as H. cbn [app] in H. apply H. rewrite fmap_cons. apply NoDup_cons. split; [done|].
    pose proof (lrep_nodup _ _ _ (r_lists _ _ _ R Active)) as H2. cbn [alist] in H2. rewrite El, fmap_cons in H2. by apply NoDup_cons in H2 as [_ ?]. }
  rewrite Ea in R1. assert (Hn1 : forall v, t ∉ (alist v (mk_ast l (a_pend a) (a_mem a) (a_client a) (a_log a))).*1) by (by intros []).
  destruct (timer_link_ok _ _ _ Pending (fun d => ds_dlist_insert_tail d t) (a_pend a) [] t (set_tlist None tm) R1 (or_introl eq_refl)) as (tc2 & E2 & R2).
  - cbn. by rewrite app_nil_r.
  - done.
  - exact Etm1.
  - pose proof (r_lists _ _ _ R1 Pending) as Hr. cbn [alist a_pend] in Hr. apply list_insert_tail_ok; [done|done|]. apply elem_of_dom. by rewrite (r_nodes _ _ _ R1).
  - pose proof (r_sorted _ _ _ R) as Hs. rewrite El in Hs. by apply StronglySorted_inv in Hs as [? _].
  - apply bind_Ok in E2 as (tc3 & -> & E2). cbind. rewrite E2. cbind. exists tc2. cbn [set_tlist at_nsec aput] in R2. rewrite Hat in R2. split_and!; [done|done|].
    rewrite <- !size_dom, (r_nodes _ _ _ R2), (r_nodes _ _ _ R). done.
Qed.

Lemma none_due now l : Forall (fun q => ~ is_due now q) l -> due_at now l = [] /\ later_than now l = l.
Proof.
  unfold due_at, later_than. induction 1 as [|p l Hp _ [IH1 IH2]]; [done|]. rewrite filter_cons_False by done. rewrite (filter_cons_True _ p) by done. by rewrite IH1, IH2.
Qed.
Lemma due_split now l : sorted_at l -> l = due_at now l ++ later_than now l.
Proof.
  unfold due_at, later_than, sorted_at. induction l as [|p l IH]; intros Hs; [done|]. apply StronglySorted_inv in Hs as [Hs Hm]. destruct (decide (is_due now p)) as [Hd|Hd].
  - rewrite filter_cons_True by done. rewrite (filter_cons_False _ p) by naive_solver. cbn [app]. f_equal. by apply IH.
  - rewrite filter_cons_False by done. rewrite (filter_cons_True _ p) by done.
    assert (HF : Forall (fun q => ~ is_due now q) l). { eapply Forall_impl; [exact Hm|]. unfold is_due in *. intros q Hq. cbn in *. lia. }
    destruct (none_due _ _ HF) as [H1 H2]. unfold due_at, later_than in *. by rewrite H1, H2.
Qed.

Lemma prepare_ok now k : forall tc a, tc_ok None tc a -> (length (a_act a) < k)%nat ->
  exists tc', prepare_loop k now tc = Ok tc' /\
    tc_ok None tc' (mk_ast (later_than now (a_act a)) (a_pend a ++ due_at now (a_act a)) (a_mem a) (a_client a) (a_log a)).
Proof.
  induction k as [|k IH]; intros tc a R Hk; [lia|]. destruct (a_act a) as [|[t n] l] eqn:El.
  - exists tc. cbn [prepare_loop]. rewrite (active_head _ _ _ R), El. split; [done|]. cbn. rewrite app_nil_r, <- El. by destruct a.
  - destruct (decide (n <= now)) as [Hd|Hd].
    + destruct (prepare_step _ _ _ _ _ now R El Hd k) as (tc1 & -> & R1 & _). destruct (IH tc1 _ R1) as (tc' & -> & R'); [cbn in *; lia|].
      exists tc'. split; [done|]. cbn [a_act a_pend a_mem a_client a_log] in R'. rewrite <- app_assoc in R'. unfold due_at, later_than in *.
      rewrite (filter_cons_True (is_due now) (t, n)) by done. rewrite (filter_cons_False (fun p => ~ is_due now p) (t, n)) by (unfold is_due; cbn; naive_solver). done.
    + exists tc. cbn [prepare_loop]. rewrite (active_head _ _ _ R), El. cbn [head fmap option_fmap option_map fst].
      assert (Hin : (t, n) ∈ alist Active a) by (cbn; rewrite El; by left).
      pose proof (ok_mem _ _ _ Active t R ltac:(apply in_keys; by exists n)) as [cb Ecb]%elem_of_dom. destruct (r_tm _ _ _ R t cb Ecb) as (tm & -> & _ & _ & Hat). cbn [deref]. cbind.
      rewrite (Hat ltac:(done) Active n Hin), (proj2 (Z.ltb_lt now n)) by lia. split; [done|].
      pose proof (r_sorted _ _ _ R) as Hs. rewrite El in Hs. assert (HF : Forall (fun q => ~ is_due now q) ((t, n) :: l)).
      { apply StronglySorted_inv in Hs as [_ Hm]. constructor; [done|]. eapply Forall_impl; [exact Hm|]. unfold is_due. intros q Hq. cbn in *. lia. }
      destruct (none_due _ _ HF) as [H1 H2]. rewrite H1, H2, app_nil_r, <- El. by destruct a.
Qed.

(** Callbacks only ever take timers off the list of the dispatch. *)
Lemma spec_prog_pend p : forall a a', spec_prog p a = Some a' -> sublist (a_pend a') (a_pend a).
Proof.
  assert (Hd : forall t l, sublist (dropt t l) l) by (intros; apply sublist_filter).
  induction p as [c|t n k IH|t k IH|t k IH|t now k IH|k IH|t cb k IH|t k IH]; intros a a' E; cbn [spec_prog] in E;
    repeat (destruct (decide _); [|done]); try (destruct (a_deadline t a); [done|]); repeat (destruct (decide _); [|done]).
  - by injection E as <-.
  - apply IH in E. etrans; [exact E|]. apply Hd.
  - apply IH in E. etrans; [exact E|]. apply Hd.
  - by eapply IH.
  - by eapply IH.
  - by eapply IH.
  - by apply IH in E.
  - by apply IH in E.
Qed.

Lemma timer_call_ok tc a t cb a' : tc_ok None tc a -> a_mem a !! t = Some cb -> spec_prog (cb_fn cb t (a_client a)) (a_note (Fire t) a) = Some a' ->
  exists tc', call_timer t tc = Ok tc' /\ tc_ok None tc' a'.
Proof.
  intros R Ecb E. destruct (r_tm _ _ _ R t cb Ecb) as (tm & Etm & Hcb & _ & _). unfold call_timer. rewrite Etm. cbn [deref]. cbind. rewrite Hcb, (r_client _ _ _ R).
  eapply run_prog_ok; [|exact E]. destruct R as [R1 R2 R3 R4 R5 R6 R7 R8]. split; try done. cbn. unfold fired. rewrite omap_app. cbn. by rewrite R8.
Qed.

Lemma fire_ok due : forall k tc a a', tc_ok None tc a -> NoDup due.*1 -> sublist (a_pend a) due -> spec_fire due a = Some a' -> (length (a_pend a) < k)%nat ->
  exists tc', fire_loop k tc = Ok tc' /\ tc_ok None tc' a' /\ a_pend a' = [].
Proof.
  induction due as [|[t n] due IH]; intros k tc a a' R Hnd Hsub E Hk; cbn [spec_fire] in E.
  { injection E as <-. apply sublist_nil_r in Hsub. destruct k as [|k]; [lia|]. exists tc. cbn [fire_loop]. rewrite (pending_head _ _ _ R), Hsub. by split_and!. }
  rewrite fmap_cons in Hnd. apply NoDup_cons in Hnd as [Ht Hnd]. cbn [fst] in Ht. destruct (decide _) as [Hin|Hnin].
  - assert (exists p', a_pend a = (t, n) :: p' /\ sublist p' due) as (p' & Ep & Hp').
    { apply sublist_cons_r in Hsub as [Hs|(l' & El & Hs)]; [|by exists l'].
      destruct Ht. apply in_keys in Hin as [m Hm]. apply in_keys. exists m. eapply elem_of_submseteq; [exact Hm|]. by apply sublist_submseteq. }
    destruct k as [|k]; [lia|]. cbn [fire_loop]. rewrite (pending_head _ _ _ R), Ep. cbn [head fmap option_fmap option_map fst].
    destruct (timer_unlink_ok _ _ _ Pending t R Hin) as (tc1 & E1 & R1). apply bind_Ok in E1 as (tc0 & -> & E1). cbind. rewrite E1. cbind.
    destruct (a_mem a !! t) as [cb|] eqn:Ecb; [|done]. cbn [mbind option_bind] in E. destruct (spec_prog _ _) as [a1|] eqn:Es; [|done]. cbn [mbind option_bind] in E.
    destruct (timer_call_ok _ _ t cb a1 R1 Ecb Es) as (tc2 & -> & R2). cbind.
    assert (Hsub1 : sublist (a_pend a1) p').
    { apply spec_prog_pend in Es. etrans; [exact Es|]. cbn [a_note a_drop a_pend]. rewrite Ep. unfold dropt. rewrite filter_cons_False by naive_solver. apply sublist_filter. }
    apply (IH k tc2 a1 a' R2 Hnd); [by etrans|done|]. apply sublist_length in Hsub1. rewrite Ep in Hk. cbn in Hk. lia.
  - apply (IH k tc a a' R Hnd); [|done|done]. apply sublist_cons_r in Hsub as [Hs|(l' & El & _)]; [done|]. destruct Hnin. rewrite El, fmap_cons. by left.
Qed.

Lemma dispatch_ok now tc a a' : tc_ok None tc a -> a_pend a = [] -> spec_dispatch now a = Some a' ->
  exists tc', osw_timer_core_dispatch now tc = Ok tc' /\ tc_ok None tc' a' /\ a_pend a' = [].
Proof.
  intros R Hp E. unfold osw_timer_core_dispatch. cbn [tc_nodes].
  assert (R0 : tc_ok None (mk_tcore (tc_active tc) dhead_init (tc_nodes tc) (tc_timers tc) (tc_client tc) (tc_fired tc)) a).
  { destruct R as [R1 R2 R3 R4 R5 R6 R7 R8]. split; try done. intros [].
    - apply (R1 Active).
    - cbn [alist tc_head tc_pending tc_nodes]. rewrite Hp. apply lrep_init. }
  destruct (prepare_ok now (S (size (tc_nodes tc))) _ a R0) as (tc1 & -> & R1).
  { pose proof (short_list _ _ _ Active R) as H. cbn [alist] in H. lia. }
  cbind. rewrite Hp in R1. cbn [app] in R1. eapply (fire_ok (due_at now (a_act a))); [exact R1| |done|exact E|].
  - pose proof (lrep_nodup _ _ _ (r_lists _ _ _ R Active)) as Hnd. cbn [alist] in Hnd. rewrite (due_split now _ (r_sorted _ _ _ R)), fmap_app in Hnd. by apply NoDup_app in Hnd as [? _].
  - cbn [a_pend]. pose proof (short_list _ _ _ Active R) as H. cbn [alist] in H. rewrite (due_split now _ (r_sorted _ _ _ R)), length_app in H. lia.
Qed.

(** *** What a dispatch does *)
Definition touches (t : loc) (l : list tev) : Prop := Touch t ∈ l.

(** A callback only touches timers; what it does not touch keeps its deadline, and what it
    touches leaves the list of the dispatch. *)
Lemma spec_prog_log p : forall a a', spec_prog p a = Some a' -> exists d, a_log a' = a_log a ++ d /\ fired d = [] /\
  (forall t n, ~ touches t d -> (t, n) ∈ a_act a -> (t, n) ∈ a_act a') /\ (forall t, ~ touches t d -> t ∈ (a_pend a).*1 -> t ∈ (a_pend a').*1) /\
  (forall t, t ∈ (a_pend a').*1 -> ~ touches t d).
Proof.
  assert (Hstep : forall t k a b a', (forall a a', spec_prog k a = Some a' -> exists d, a_log a' = a_log a ++ d /\ fired d = [] /\
      (forall t n, ~ touches t d -> (t, n) ∈ a_act a -> (t, n) ∈ a_act a') /\ (forall t, ~ touches t d -> t ∈ (a_pend a).*1 -> t ∈ (a_pend a').*1) /\
      (forall t, t ∈ (a_pend a').*1 -> ~ touches t d)) ->
    spec_prog k (a_note (Touch t) b) = Some a' -> a_log b = a_log a -> (forall u n, u <> t -> (u, n) ∈ a_act a -> (u, n) ∈ a_act b) ->
    (forall u, u <> t -> u ∈ (a_pend a).*1 -> u ∈ (a_pend b).*1) -> t ∉ (a_pend b).*1 ->
    exists d, a_log a' = a_log a ++ d /\ fired d = [] /\
      (forall t n, ~ touches t d -> (t, n) ∈ a_act a -> (t, n) ∈ a_act a') /\ (forall t, ~ touches t d -> t ∈ (a_pend a).*1 -> t ∈ (a_pend a').*1) /\
      (forall t, t ∈ (a_pend a').*1 -> ~ touches t d)).
  { intros t k a b a' IH E Hlog Hact Hpend Ht. pose proof (spec_prog_pend _ _ _ E) as Hsub. destruct (IH _ _ E) as (d & El & Hf & H1 & H2 & H3).
    cbn [a_note a_log a_act a_pend] in *. exists (Touch t :: d). unfold touches in *. rewrite El, Hlog, <- app_assoc. split_and!; [done|done| | |].
    - intros u n [Hu Hd]%not_elem_of_cons Hin. apply H1; [done|]. apply Hact; [congruence|done].
    - intros u [Hu Hd]%not_elem_of_cons Hin. apply H2; [done|]. apply Hpend; [congruence|done].
    - intros u Hu [[= ->]|Hd]%elem_of_cons; [|by apply (H3 u)]. apply Ht. apply in_keys in Hu as [n Hn]. apply in_keys. exists n. by eapply elem_of_sublist. }
  assert (Hdrop : forall t (l : list (loc * Z)) u, u <> t -> u ∈ l.*1 -> u ∈ (dropt t l).*1) by (intros; by apply in_dropt_keys).
  assert (Hdropn : forall t (l : list (loc * Z)), t ∉ (dropt t l).*1) by (intros t l [? _]%in_dropt_keys; done).
  induction p as [c|t n k IH|t k IH|t k IH|t now k IH|k IH|t cb k IH|t k IH]; intros a a' E; cbn [spec_prog] in E.
  - injection E as <-. exists []. unfold touches. split_and!; try done; [by rewrite app_nil_r|]. intros t _ Ht. by apply elem_of_nil in Ht.
  - destruct (decide _); [|done]. eapply Hstep; [exact IH|exact E|done| | |]; cbn; [|auto..]. intros u m Hu Hin. apply in_ins. right. by apply in_dropt.
  - destruct (decide _); [|done]. eapply Hstep; [exact IH|exact E|done| | |]; cbn; [|auto..]. intros u m Hu Hin. by apply in_dropt.
  - destruct (decide _); [|done]. by eapply IH.
  - destruct (decide _); [|done]. by eapply IH.
  - by eapply IH.
  - destruct (a_deadline t a) eqn:Ed; [done|]. eapply Hstep; [exact IH|exact E|done|done|done|]. apply (unarmed _ _ Ed Pending).
  - destruct (a_deadline t a) eqn:Ed; [done|]. destruct (decide _); [|done]. eapply Hstep; [exact IH|exact E|done|done|done|]. apply (unarmed _ _ Ed Pending).
Qed.

Lemma fired_cons_split d l1 t l2 d2 : fired d = [] -> d ++ d2 = l1 ++ Fire t :: l2 -> exists l1', l1 = d ++ l1' /\ d2 = l1' ++ Fire t :: l2.
Proof.
  revert l1. induction d as [|e d IH]; intros l1 Hf E; [by exists l1|]. unfold fired in Hf. destruct e as [u|u]; cbn in Hf; [done|].
  destruct l1 as [|e l1]; cbn in E; [done|]. injection E as <- E. destruct (IH l1 Hf E) as (l1' & -> & ->). by exists l1'.
Qed.

Lemma spec_fire_log due : forall a a', spec_fire due a = Some a' -> exists d, a_log a' = a_log a ++ d /\ sublist (fired d) due.*1 /\
  (forall l1 t l2, d = l1 ++ Fire t :: l2 -> t ∈ (a_pend a).*1 /\ ~ touches t l1) /\
  (forall t, t ∈ (a_pend a).*1 -> t ∈ due.*1 -> Fire t ∈ d \/ touches t d) /\
  (forall t n, ~ touches t d -> Fire t ∉ d -> (t, n) ∈ a_act a -> (t, n) ∈ a_act a').
Proof.
  induction due as [|[t n] due IH]; intros a a' E; cbn [spec_fire] in E.
  { injection E as <-. exists []. split_and!; try done; [by rewrite app_nil_r| |]; [by intros [] |]. intros t _ Ht. by apply elem_of_nil in Ht. }
  rewrite fmap_cons. cbn [fst]. destruct (decide _) as [Hin|Hnin].
  - destruct (a_mem a !! t) as [cb|]; [|done]. cbn [mbind option_bind] in E. destruct (spec_prog _ _) as [a1|] eqn:Es; [|done]. cbn [mbind option_bind] in E.
    pose proof (spec_prog_pend _ _ _ Es) as Hsub. destruct (spec_prog_log _ _ _ Es) as (d1 & El1 & Hf1 & Hact1 & Hpend1 & Hno1). destruct (IH _ _ E) as (d2 & El2 & Hs2 & Hsafe2 & Hall2 & Hact2).
    cbn [a_note a_drop a_log a_act a_pend] in *. exists (Fire t :: d1 ++ d2). unfold touches in *. split_and!.
    + by rewrite El2, El1, <- !app_assoc.
    + unfold fired in *. cbn. rewrite omap_app, Hf1. by apply sublist_skip.
    + intros [|e l1] u l2 Ed; cbn in Ed.
      { injection Ed as <- _. split; [done|]. intros Hi. by apply elem_of_nil in Hi. }
      injection Ed as <- Ed. destruct (fired_cons_split _ _ _ _ _ Hf1 Ed) as (l1' & -> & Ed2). destruct (Hsafe2 _ _ _ Ed2) as [Hu Hl1']. split.
      * apply in_keys in Hu as [m Hm]. eapply elem_of_sublist in Hsub; [|exact Hm]. apply in_dropt in Hsub as [_ ?]. apply in_keys. by exists m.
      * intros [?|[Hi|Hi]%elem_of_app]%elem_of_cons; [done|by apply (Hno1 u)|done].
    + intros u Hu Hud. rewrite elem_of_cons, !(elem_of_app d1). rewrite elem_of_cons, elem_of_app. destruct (decide (u = t)) as [->|Hne]; [by left; left|].
      destruct (decide (Touch u ∈ d1)) as [|Hnt]; [tauto|]. apply elem_of_cons in Hud as [|Hud]; [done|].
      destruct (Hall2 u); [apply Hpend1; [done|by apply in_dropt_keys]|done|tauto|tauto].
    + intros u m Hnt Hnf Hi. rewrite not_elem_of_cons, not_elem_of_app in Hnt, Hnf. destruct Hnt as (_ & Hn1 & Hn2), Hnf as (Hf & _ & Hf2).
      apply Hact2; [done|done|]. apply Hact1; [done|]. apply in_dropt. split; [cbn; congruence|done].
  - destruct (IH _ _ E) as (d & El & Hs & Hsafe & Hall & Hact). exists d. split_and!; [done|by apply sublist_cons|done| |done].
    intros u Hu [->|Hud]%elem_of_cons; [done|by apply Hall].
Qed.

(** C18: A dispatch calls exactly the timers it should.  When callbacks keep to the rules, a
    dispatch at [now] ends without a fault, and what happens is this: it calls only timers
    that were due at its start, in the order of their deadlines and each at
    most once; a due timer is passed over only if a callback armed, disarmed,
    initialised or freed it before its turn, and is then not called although
    it may be due again; timers that were not due and not touched keep their deadlines; the list of
    armed timers stays sorted and the list of the dispatch ends empty. *)
Theorem dispatch_exact now tc a a' : tc_ok None tc a -> a_pend a = [] -> spec_dispatch now a = Some a' ->
  exists tc' d, osw_timer_core_dispatch now tc = Ok tc' /\ tc_ok None tc' a' /\ a_pend a' = [] /\
    tc_fired tc' = tc_fired tc ++ fired d /\ sublist (fired d) (due_at now (a_act a)).*1 /\
    (forall l1 t l2, d = l1 ++ Fire t :: l2 -> ~ touches t l1) /\
    (forall t n, (t, n) ∈ a_act a -> n <= now -> Fire t ∈ d \/ touches t d) /\
    (forall t n, (t, n) ∈ a_act a -> now < n -> ~ touches t d -> (t, n) ∈ a_act a').
Proof.
  intros R Hp E. destruct (dispatch_ok _ _ _ _ R Hp E) as (tc' & -> & R' & Hp'). destruct (spec_fire_log _ _ _ E) as (d & El & Hs & Hsafe & Hall & Hact).
  cbn [a_log a_act a_pend] in *. exists tc', d. pose proof (lrep_nodup _ _ _ (r_lists _ _ _ R Active)) as Hnd. cbn [alist] in Hnd. split_and!; [done..| |done| | |].
  - rewrite (r_fired _ _ _ R'), (r_fired _ _ _ R), El. unfold fired. by rewrite omap_app.
  - intros l1 t l2 Ed. by destruct (Hsafe _ _ _ Ed).
  - intros t n Hin Hn. assert (Hd : t ∈ (due_at now (a_act a)).*1) by (apply in_keys; exists n; by apply list_elem_of_filter). by apply Hall.
  - intros t n Hin Hn Ht. apply Hact; [done| |by apply list_elem_of_filter; split; [unfold is_due; cbn; lia|]].
    intros Hf. apply list_elem_of_split in Hf as (l1 & l2 & Ed). apply Hsafe in Ed as [Hd _]. apply in_keys in Hd as [m Hm]. apply list_elem_of_filter in Hm as [Hm Hin2].
    apply (deadline_in t m _ Hnd) in Hin2. apply (deadline_in t n _ Hnd) in Hin. unfold is_due in Hm. cbn in Hm. rewrite Hin in Hin2. injection Hin2 as ->. lia.
Qed.

(** ** Histories *)
(** The main program of a client, or a wake-up of the event loop. *)
Inductive tstep := SProg (p : prog) | SDispatch (now : Z).
Definition run_step (st : tstep) (tc : tcore) : res tcore :=
  match st with SProg p => run_prog p tc | SDispatch now => osw_timer_core_dispatch now tc end.
Fixpoint run_steps (sts : list tstep) (tc : tcore) : res tcore :=
  match sts with [] => Ok tc | st :: sts => tc ← run_step st tc; run_steps sts tc end.
Definition spec_step (st : tstep) (a : ast) : option ast :=
  match st with SProg p => spec_prog p a | SDispatch now => spec_dispatch now a end.
Fixpoint spec_steps (sts : list tstep) (a : ast) : option ast :=
  match sts with [] => Some a | st :: sts => a ← spec_step st a; spec_steps sts a end.

Definition tcore_zero (c : C) : tcore := mk_tcore dhead_init dhead_init ∅ ∅ c [].
Definition ast_zero (c : C) : ast := mk_ast [] [] ∅ c [].
Lemma zero_ok c : tc_ok None (tcore_zero c) (ast_zero c).
Proof.
  split; try done.
  - intros []; apply lrep_init.
  - by intros t Ht%elem_of_nil.
  - constructor.
Qed.

Lemma steps_ok sts : forall tc a a', tc_ok None tc a -> a_pend a = [] -> spec_steps sts a = Some a' ->
  exists tc', run_steps sts tc = Ok tc' /\ tc_ok None tc' a' /\ a_pend a' = [].
Proof.
  induction sts as [|st sts IH]; intros tc a a' R Hp E; cbn [run_steps spec_steps] in *; [injection E as <-; by exists tc|].
  destruct (spec_step st a) as [a1|] eqn:E1; [|done]. cbn [mbind option_bind] in E.
  assert (exists tc1, run_step st tc = Ok tc1 /\ tc_ok None tc1 a1 /\ a_pend a1 = []) as (tc1 & -> & R1 & Hp1); [|by eapply IH].
  destruct st as [p|now]; cbn [run_step spec_step] in *; [|by eapply dispatch_ok].
  destruct (run_prog_ok _ _ _ _ R E1) as (tc1 & -> & R1). exists tc1. split_and!; [done..|]. apply spec_prog_pend in E1. rewrite Hp in E1. by apply sublist_nil_r in E1.
Qed.

(** C19: The timer lists implement a table of deadlines.  From the start on, every history of
    client calls and dispatches that keeps to the rules runs without following a
    stale pointer, whatever the callbacks do among the allowed calls; the timers called
    are those of the specification in the same order, and the next wake-up that the event
    loop asks for is the earliest deadline of all armed timers. *)
Theorem timers_refine sts c a : spec_steps sts (ast_zero c) = Some a ->
  exists tc, run_steps sts (tcore_zero c) = Ok tc /\ tc_fired tc = fired (a_log a) /\ tc_client tc = a_client a /\
    exists o, osw_timer_core_get_next_at tc = Ok o /\
      match o with
      | None => forall t, t ∈ dom (a_mem a) -> osw_timer_is_armed t tc = Ok false
      | Some n => (exists t, (t, n) ∈ a_act a) /\ forall t m, (t, m) ∈ a_act a -> n <= m
      end.
Proof.
  intros E. destruct (steps_ok _ _ _ _ (zero_ok c) eq_refl E) as (tc & -> & R & Hp). exists tc. split_and!; [done|by apply R..|].
  exists (snd <$> head (a_act a)). split; [by apply next_at_ok|]. pose proof (r_sorted _ _ _ R) as Hs. destruct (a_act a) as [|[t n] l] eqn:El; cbn [head fmap option_fmap option_map snd].
  - intros t Ht. rewrite (is_armed_ok _ _ _ R Ht). f_equal. apply bool_decide_eq_false. unfold a_deadline. rewrite El, Hp. by intros [].
  - apply StronglySorted_inv in Hs as [_ Hm]. split; [exists t; by left|]. intros u m [[= -> ->]|Hin]%elem_of_cons; [done|]. apply (proj1 (Forall_forall _ _) Hm _ Hin).
Qed.
End OswTimer.
Arguments prog : clear implicits.
Arguments tstep : clear implicits.

(** ** A client *)
(** Timer 1 re-arms itself with the period 10 until it has run twice, timer 2 disarms 3 and
    frees itself, and 4 does nothing. *)
Inductive demo_cb := Periodic | Canceller | Plain.
Definition demo_fn (b : demo_cb) (t : loc) (c : Z) : prog demo_cb Z :=
  match b with
  | Periodic => if c <? 1 then PArm t (10 * (c + 2)) (PRet (c + 1)) else PRet (c + 1)
  | Canceller => PDisarm 3%positive (PFree t (PRet c))
  | Plain => PRet c
  end.
Definition demo_setup : prog demo_cb Z :=
  PInit 1%positive Periodic (PInit 2%positive Canceller (PInit 3%positive Plain (PInit 4%positive Plain
    (PArm 4%positive 25 (PArm 3%positive 12 (PArm 2%positive 11 (PArm 1%positive 10 (PRet 0)))))))).

Lemma timers_refine_witness : exists a, spec_steps demo_fn [SProg demo_setup; SDispatch 15; SDispatch 30] (ast_zero 0) = Some a /\
  exists tc, run_steps demo_fn [SProg demo_setup; SDispatch 15; SDispatch 30] (tcore_zero 0) = Ok tc /\ tc_fired tc = [1%positive; 2%positive; 1%positive; 4%positive].
Proof.
  eexists. split; [vm_compute; reflexivity|].
  edestruct (timers_refine demo_fn [SProg demo_setup; SDispatch 15; SDispatch 30] 0) as (tc & E & Hf & _); [vm_compute; reflexivity|].
  exists tc. split; [exact E|]. rewrite Hf. vm_compute. reflexivity.
Defined.

Lemma dispatch_exact_witness : exists tc a a' tc' d,
  spec_steps demo_fn [SProg demo_setup] (ast_zero 0) = Some a /\ spec_dispatch demo_fn 15 a = Some a' /\
  osw_timer_core_dispatch demo_fn 15 tc = Ok tc' /\ tc_fired tc' = tc_fired tc ++ fired d /\ sublist (fired d) (due_at 15 (a_act a)).*1.
Proof.
  edestruct (steps_ok demo_fn [SProg demo_setup] (tcore_zero 0) (ast_zero 0)) as (tc & _ & R & Hp); [apply zero_ok|done|vm_compute; reflexivity|].
  edestruct (dispatch_exact demo_fn 15 tc) as (tc' & d & E & _ & _ & Hf & Hs & _); [exact R|exact Hp|vm_compute; reflexivity|].
  do 5 eexists. split_and!; [vm_compute; reflexivity|vm_compute; reflexivity|exact E|exact Hf|exact Hs].
Defined.
