(* ===== verification/OswToken.v ===== *)
(** * OswToken: dialog tokens of the wireless library

    Models [lib/osw/src/osw_token.c].  Users of a station's dialog tokens share a
    pool; each holds a reference to it and records there which tokens it took.  The
    pool tree and the reference lists ([DsTree], [DsDlist]) enter as a finite map
    and as sequences; pools and references are allocated objects, so that a use
    after free is a fault.  Token words are the 64-bit patterns of the [long]s. *)
From S2P Require Import Prelude.

Abbreviation loc := positive.

Definition OSW_TOKEN_MIN := 128.
Definition OSW_TOKEN_MAX := 255.
Definition OSW_TOKEN_INVALID := -1.
Definition BITS_PER_LONG := 64.
Definition OSW_TOKEN_COUNT := OSW_TOKEN_MAX - OSW_TOKEN_MIN + 1.

(** [BITS_TO_LONG(OSW_TOKEN_COUNT)] words of zeroes. *)
Definition tokens_zero : list Z :=
  replicate (Z.to_nat ((OSW_TOKEN_COUNT + BITS_PER_LONG - 1) / BITS_PER_LONG)) 0.

Definition SUB_CLAMP (x min max : Z) : Z := if x <=? min then max - 1 else x - 1.

(** [struct osw_token_pool_key]: the interface name and the address of the station. *)
Abbreviation osw_token_pool_key := (list Z * list Z)%type.

Record osw_token_pool := mk_pool {
  tp_key : osw_token_pool_key; tp_last_bit_used : Z; tp_tokens : list Z; tp_ref_list : list loc
}.
Record osw_token_pool_reference := mk_ref { tr_pool : option loc; tr_tokens : list Z }.

(** The allocated pools and references, and [g_pool_tree]. *)
Record token_state := mk_state {
  ts_pools : gmap loc osw_token_pool;
  ts_refs : gmap loc osw_token_pool_reference;
  ts_tree : gmap osw_token_pool_key loc
}.
Definition state_zero : token_state := mk_state ∅ ∅ ∅.

Definition put_pool (x : loc) (p : osw_token_pool) (st : token_state) : token_state :=
  mk_state (<[x := p]> (ts_pools st)) (ts_refs st) (ts_tree st).
Definition put_ref (x : loc) (r : osw_token_pool_reference) (st : token_state) : token_state :=
  mk_state (ts_pools st) (<[x := r]> (ts_refs st)) (ts_tree st).

(** Access to [tokens[word]]. *)
Definition rdw (ws : list Z) (word : Z) : res Z :=
  match ws !! Z.to_nat word with Some v => Ok v | None => Err FOob end.
Definition stw (ws : list Z) (word v : Z) : list Z := <[Z.to_nat word := v]> ws.

Definition popcountl (w : Z) : nat := length (filter (fun i => Z.testbit w i = true) (seqZ 0 BITS_PER_LONG)).
Definition osw_token_count_one_bits (ws : list Z) : nat := sum_list (popcountl <$> ws).

(** ** Pools *)
Definition osw_token_pool_alloc_new (key : osw_token_pool_key) (st : token_state) : loc * token_state :=
  let pool := fresh (dom (ts_pools st)) in
  (pool, mk_state (<[pool := mk_pool key 0 tokens_zero []]> (ts_pools st)) (ts_refs st) (<[key := pool]> (ts_tree st))).

Definition osw_token_pool_lookup (key : osw_token_pool_key) (st : token_state) : option loc := ts_tree st !! key.

Definition osw_token_pool_get_internal (key : osw_token_pool_key) (st : token_state) : loc * token_state :=
  match osw_token_pool_lookup key st with
  | Some pool => (pool, st)
  | None => osw_token_pool_alloc_new key st
  end.

(** The interface name is ignored. *)
Definition osw_token_vif_sta_to_key (vif_name sta_addr : list Z) : osw_token_pool_key := (replicate 32 0, sta_addr).

Definition osw_token_pool_ref_get (vif_name sta_addr : list Z) (st : token_state) : res (loc * token_state) :=
  let key := osw_token_vif_sta_to_key vif_name sta_addr in
  let '(pool, st) := osw_token_pool_get_internal key st in
  let pool_ref := fresh (dom (ts_refs st)) in
  let st := put_ref pool_ref (mk_ref (Some pool) tokens_zero) st in
  p ← deref (ts_pools st !! pool);
  Ok (pool_ref, put_pool pool (mk_pool (tp_key p) (tp_last_bit_used p) (tp_tokens p) (tp_ref_list p ++ [pool_ref])) st).

(** The early returns are its warnings. *)
Definition osw_token_pool_free (pool : loc) (st : token_state) : res token_state :=
  p ← deref (ts_pools st !! pool);
  if negb (bool_decide (length (tp_ref_list p) = 0%nat)) then Ok st else
  if negb (bool_decide (osw_token_count_one_bits (tp_tokens p) = 0%nat)) then Ok st else
  Ok (mk_state (delete pool (ts_pools st)) (ts_refs st) (delete (tp_key p) (ts_tree st))).

(** [pool->tokens[word] &= ~pool_ref->tokens[word]] for every word. *)
Definition drop_words (pool_ws ref_ws : list Z) : list Z := zip_with Z.ldiff pool_ws ref_ws.

Definition osw_token_pool_ref_drop_tokens (pool_ref : loc) (st : token_state) : res token_state :=
  r ← deref (ts_refs st !! pool_ref);
  pool ← deref (tr_pool r);
  p ← deref (ts_pools st !! pool);
  Ok (put_pool pool (mk_pool (tp_key p) (tp_last_bit_used p) (drop_words (tp_tokens p) (tr_tokens r)) (tp_ref_list p)) st).

Definition osw_token_pool_ref_free (pool_ref : option loc) (st : token_state) : res token_state :=
  match pool_ref with
  | None => Ok st
  | Some pool_ref =>
      r ← deref (ts_refs st !! pool_ref);
      match tr_pool r with
      | None => Ok st
      | Some pool =>
          st ← osw_token_pool_ref_drop_tokens pool_ref st;
          p ← deref (ts_pools st !! pool);
          let refs := filter (fun x => x <> pool_ref) (tp_ref_list p) in
          let st := put_pool pool (mk_pool (tp_key p) (tp_last_bit_used p) (tp_tokens p) refs) st in
          let st := mk_state (ts_pools st) (delete pool_ref (ts_refs st)) (ts_tree st) in
          if bool_decide (length refs = 0%nat) then osw_token_pool_free pool st else Ok st
      end
  end.

(** ** Tokens *)

(** The [do] loop of [osw_token_pool_fetch_token]. *)
Fixpoint fetch_loop (n : nat) (started_with : Z) (p : osw_token_pool) (r : osw_token_pool_reference)
    : res (Z * osw_token_pool * osw_token_pool_reference) :=
  match n with
  | O => Err FFuel
  | S n' =>
      let last := SUB_CLAMP (tp_last_bit_used p) 0 OSW_TOKEN_COUNT in
      let p := mk_pool (tp_key p) last (tp_tokens p) (tp_ref_list p) in
      let word := last / BITS_PER_LONG in
      let mask := Z.shiftl 1 (last mod BITS_PER_LONG) in
      pw ← rdw (tp_tokens p) word;
      if Z.land pw mask =? 0 then
        let p := mk_pool (tp_key p) last (stw (tp_tokens p) word (Z.lor pw mask)) (tp_ref_list p) in
        rw ← rdw (tr_tokens r) word;
        Ok (last + OSW_TOKEN_MIN, p, mk_ref (tr_pool r) (stw (tr_tokens r) word (Z.lor rw mask)))
      else if started_with =? last then Ok (OSW_TOKEN_INVALID, p, r)
      else fetch_loop n' started_with p r
  end.

Definition osw_token_pool_fetch_token (pool_ref : option loc) (st : token_state) : res (Z * token_state) :=
  match pool_ref with
  | None => Ok (OSW_TOKEN_INVALID, st)
  | Some x =>
      r ← deref (ts_refs st !! x);
      match tr_pool r with
      | None => Ok (OSW_TOKEN_INVALID, st)
      | Some pool =>
          p ← deref (ts_pools st !! pool);
          '(token, p, r) ← fetch_loop (Z.to_nat OSW_TOKEN_COUNT) (tp_last_bit_used p) p r;
          Ok (token, put_ref x r (put_pool pool p st))
      end
  end.

Definition osw_token_pool_free_token (pool_ref : option loc) (token : Z) (st : token_state) : res token_state :=
  match pool_ref with
  | None => Ok st
  | Some x =>
      r ← deref (ts_refs st !! x);
      match tr_pool r with
      | None => Ok st
      | Some pool =>
          p ← deref (ts_pools st !! pool);
          if token =? OSW_TOKEN_INVALID then Ok st else
          if token <? OSW_TOKEN_MIN then Ok st else
          if OSW_TOKEN_MAX <? token then Ok st else
          let bit := token - OSW_TOKEN_MIN in
          let word := bit / BITS_PER_LONG in
          let mask := Z.shiftl 1 (bit mod BITS_PER_LONG) in
          rw ← rdw (tr_tokens r) word;
          if Z.land rw mask =? 0 then Ok st else
          pw ← rdw (tp_tokens p) word;
          let p := mk_pool (tp_key p) (tp_last_bit_used p) (stw (tp_tokens p) word (Z.ldiff pw mask)) (tp_ref_list p) in
          Ok (put_ref x (mk_ref (tr_pool r) (stw (tr_tokens r) word (Z.ldiff rw mask))) (put_pool pool p st))
      end
  end.

(** ** Words as sets of bits *)
Definition words_ok (ws : list Z) : Prop := length ws = 2%nat.
Definition bit (ws : list Z) (i : Z) : bool := Z.testbit (nth (Z.to_nat (i / 64)) ws 0) (i mod 64).
Definition in_range (i : Z) : Prop := 0 <= i < OSW_TOKEN_COUNT.

Lemma word_of i : in_range i -> Z.to_nat (i / 64) = 0%nat \/ Z.to_nat (i / 64) = 1%nat.
Proof.
  unfold in_range, OSW_TOKEN_COUNT, OSW_TOKEN_MAX, OSW_TOKEN_MIN. intros Hi.
  assert (0 <= i / 64 < 2) by (split; [apply Z.div_pos; lia|apply Z.div_lt_upper_bound; lia]). lia.
Qed.

Lemma rdw_ok ws i : words_ok ws -> in_range i -> rdw ws (i / 64) = Ok (nth (Z.to_nat (i / 64)) ws 0).
Proof.
  intros Hw Hi. unfold rdw. destruct ws as [|a [|b [|]]]; try discriminate.
  destruct (word_of i Hi) as [-> | ->]; done.
Qed.

Lemma mask_land w i : (Z.land w (Z.shiftl 1 (i mod 64)) =? 0) = negb (Z.testbit w (i mod 64)).
Proof.
  pose proof (Z.mod_pos_bound i 64 ltac:(lia)) as Hm. rewrite Z.shiftl_1_l.
  destruct (Z.testbit w (i mod 64)) eqn:Eb; cbn [negb].
  - apply Z.eqb_neq. intros Hz. assert (Z.testbit (Z.land w (2 ^ (i mod 64))) (i mod 64) = false) as Hf by (by rewrite Hz, Z.bits_0).
    rewrite Z.land_spec, Eb, Z.pow2_bits_true in Hf by lia. done.
  - apply Z.eqb_eq. apply Z.bits_inj'. intros n Hn. rewrite Z.land_spec, Z.bits_0, Z.pow2_bits_eqb by lia.
    destruct (Z.eqb_spec (i mod 64) n) as [<-|]; [by rewrite Eb|by rewrite andb_false_r].
Qed.

(** Setting and clearing one bit. *)
Lemma bit_stw ws i (f : Z -> Z) (g : bool -> bool) j :
  words_ok ws -> in_range i -> in_range j ->
  (forall w n, 0 <= n -> Z.testbit (f w) n = if n =? i mod 64 then g (Z.testbit w n) else Z.testbit w n) ->
  bit (stw ws (i / 64) (f (nth (Z.to_nat (i / 64)) ws 0))) j = if i =? j then g (bit ws j) else bit ws j.
Proof.
  intros Hw Hi Hj Hf. unfold bit, stw. destruct ws as [|a [|b [|]]]; try discriminate.
  pose proof (Z.mod_pos_bound j 64 ltac:(lia)) as Hm. pose proof (Z.div_mod i 64 ltac:(lia)). pose proof (Z.div_mod j 64 ltac:(lia)).
  assert (Hpi : 0 <= i / 64) by (apply Z.div_pos; [unfold in_range in *|]; lia).
  assert (Hpj : 0 <= j / 64) by (apply Z.div_pos; [unfold in_range in *|]; lia).
  destruct (Z.eqb_spec i j) as [<-|Hne].
  - destruct (word_of i Hi) as [-> | ->]; cbn; rewrite Hf by lia; by rewrite Z.eqb_refl.
  - destruct (word_of i Hi) as [Ei|Ei], (word_of j Hj) as [Ej|Ej]; rewrite Ei, Ej; cbn; try done;
      rewrite Hf by lia; rewrite (proj2 (Z.eqb_neq _ _)); [done|lia|done|lia].
Qed.

Lemma bit_set ws i j : words_ok ws -> in_range i -> in_range j ->
  bit (stw ws (i / 64) (Z.lor (nth (Z.to_nat (i / 64)) ws 0) (Z.shiftl 1 (i mod 64)))) j = if i =? j then true else bit ws j.
Proof.
  intros Hw Hi Hj. apply (bit_stw ws i (fun w => Z.lor w (Z.shiftl 1 (i mod 64))) (fun _ => true) j Hw Hi Hj).
  intros w n Hn. pose proof (Z.mod_pos_bound i 64 ltac:(lia)). rewrite Z.lor_spec, Z.shiftl_1_l, Z.pow2_bits_eqb by lia.
  destruct (Z.eqb_spec n (i mod 64)), (Z.eqb_spec (i mod 64) n); try lia; by rewrite ?orb_true_r, ?orb_false_r.
Qed.

Lemma bit_clear ws i j : words_ok ws -> in_range i -> in_range j ->
  bit (stw ws (i / 64) (Z.ldiff (nth (Z.to_nat (i / 64)) ws 0) (Z.shiftl 1 (i mod 64)))) j = if i =? j then false else bit ws j.
Proof.
  intros Hw Hi Hj. apply (bit_stw ws i (fun w => Z.ldiff w (Z.shiftl 1 (i mod 64))) (fun _ => false) j Hw Hi Hj).
  intros w n Hn. pose proof (Z.mod_pos_bound i 64 ltac:(lia)). rewrite Z.ldiff_spec, Z.shiftl_1_l, Z.pow2_bits_eqb by lia.
  destruct (Z.eqb_spec n (i mod 64)), (Z.eqb_spec (i mod 64) n); try lia; by rewrite ?andb_false_r, ?andb_true_r.
Qed.

Lemma bit_drop pw rw j : words_ok pw -> words_ok rw -> in_range j -> bit (drop_words pw rw) j = bit pw j && negb (bit rw j).
Proof.
  intros Hp Hr Hj. unfold bit, drop_words. destruct pw as [|a [|b [|]]], rw as [|c [|e [|]]]; try discriminate.
  destruct (word_of j Hj) as [-> | ->]; cbn; by rewrite Z.ldiff_spec.
Qed.

Lemma bit_zero j : in_range j -> bit tokens_zero j = false.
Proof. intros Hj. unfold bit. destruct (word_of j Hj) as [-> | ->]; cbn; apply Z.bits_0. Qed.

Lemma popcount_zero w : (forall n, 0 <= n < 64 -> Z.testbit w n = false) -> popcountl w = 0%nat.
Proof.
  intros Hw. unfold popcountl.
  assert (Forall (fun i => Z.testbit w i = false) (seqZ 0 BITS_PER_LONG)) as HF.
  { apply Forall_forall. intros n Hn. apply elem_of_seqZ in Hn. unfold BITS_PER_LONG in Hn. apply Hw. lia. }
  induction HF as [|i l Hi HF IH]; [done|]. rewrite filter_cons_False; [exact IH|]. by rewrite Hi.
Qed.

Lemma no_bits ws : words_ok ws -> (forall i, in_range i -> bit ws i = false) -> osw_token_count_one_bits ws = 0%nat.
Proof.
  intros Hw Hb. destruct ws as [|a [|b [|]]]; try discriminate. unfold osw_token_count_one_bits. cbn.
  unfold bit, in_range, OSW_TOKEN_COUNT, OSW_TOKEN_MAX, OSW_TOKEN_MIN in Hb.
  rewrite !popcount_zero; [done|..]; intros n Hn.
  - specialize (Hb (n + 64) ltac:(lia)). replace (n + 64) with (n + 1 * 64) in Hb by lia.
    rewrite Z.div_add, Z.div_small, Z.mod_add, Z.mod_small in Hb by lia. exact Hb.
  - specialize (Hb n ltac:(lia)). rewrite Z.div_small, Z.mod_small in Hb by lia. exact Hb.
Qed.

(** ** Who holds what *)

(** The live references: the station of each and the tokens it holds (from 0). *)
Abbreviation holders := (gmap loc (list Z * gset Z)).

Definition taken (A : holders) (addr : list Z) (i : Z) : Prop := exists x S, A !! x = Some (addr, S) /\ i ∈ S.

Inductive token_op := TGet (vif_name sta_addr : list Z) | TFree (x : loc) | TFetch (x : loc) | TFreeToken (x : loc) (token : Z).
Inductive token_res := RRef (x : loc) | RToken (token : Z) | RVoid.

Definition token_step (st : token_state) (o : token_op) : res (token_res * token_state) :=
  match o with
  | TGet vif addr => '(x, st) ← osw_token_pool_ref_get vif addr st; Ok (RRef x, st)
  | TFree x => st ← osw_token_pool_ref_free (Some x) st; Ok (RVoid, st)
  | TFetch x => '(t, st) ← osw_token_pool_fetch_token (Some x) st; Ok (RToken t, st)
  | TFreeToken x t => st ← osw_token_pool_free_token (Some x) t st; Ok (RVoid, st)
  end.

(** What the API promises, operation by operation. *)
Inductive holder_step (A : holders) : token_op -> token_res -> holders -> Prop :=
| step_get vif addr x : A !! x = None -> holder_step A (TGet vif addr) (RRef x) (<[x := (addr, ∅)]> A)
| step_free x : holder_step A (TFree x) RVoid (delete x A)
| step_fetch x addr S i :
    A !! x = Some (addr, S) -> in_range i -> ~ taken A addr i ->
    holder_step A (TFetch x) (RToken (i + OSW_TOKEN_MIN)) (<[x := (addr, {[i]} ∪ S)]> A)
| step_exhausted x addr S :
    A !! x = Some (addr, S) -> (forall i, in_range i -> taken A addr i) ->
    holder_step A (TFetch x) (RToken OSW_TOKEN_INVALID) A
| step_free_token x addr S t :
    A !! x = Some (addr, S) ->
    holder_step A (TFreeToken x t) RVoid (<[x := (addr, S ∖ {[t - OSW_TOKEN_MIN]})]> A).

(** The contract: references in use are live. *)
Definition live (A : holders) (o : token_op) : Prop :=
  match o with TGet _ _ => True | TFree x | TFetch x | TFreeToken x _ => is_Some (A !! x) end.

Definition key_of (addr : list Z) : osw_token_pool_key := (replicate 32 0, addr).

(** A pool serves the references [refs] of the station [addr]. *)
Record pool_ok (st : token_state) (A : holders) (pool : loc) (p : osw_token_pool) (addr : list Z) : Prop := {
  po_key : tp_key p = key_of addr;
  po_tree : ts_tree st !! key_of addr = Some pool;
  po_words : words_ok (tp_tokens p);
  po_last : in_range (tp_last_bit_used p);
  po_nodup : NoDup (tp_ref_list p);
  po_refs : forall x, x ∈ tp_ref_list p <-> exists S, A !! x = Some (addr, S);
  po_bits : forall i, in_range i -> bit (tp_tokens p) i = true <-> taken A addr i
}.

Record ref_ok (st : token_state) (r : osw_token_pool_reference) (addr : list Z) (S : gset Z) : Prop := {
  ro_pool : exists pool, tr_pool r = Some pool /\ ts_tree st !! key_of addr = Some pool /\ is_Some (ts_pools st !! pool);
  ro_words : words_ok (tr_tokens r);
  ro_bits : forall i, in_range i -> bit (tr_tokens r) i = true <-> i ∈ S;
  ro_range : forall i, i ∈ S -> in_range i
}.

(** Every pool has a reference, except [e] between two steps of an operation. *)
Record token_inv_ex (e : option loc) (st : token_state) (A : holders) : Prop := {
  ti_some : forall pool p, ts_pools st !! pool = Some p -> e <> Some pool -> tp_ref_list p <> [];
  ti_pools : forall pool p, ts_pools st !! pool = Some p -> exists addr, pool_ok st A pool p addr;
  ti_tree : forall key pool, ts_tree st !! key = Some pool ->
    exists p, ts_pools st !! pool = Some p /\ tp_key p = key;
  ti_refs : forall x r, ts_refs st !! x = Some r -> exists addr S, A !! x = Some (addr, S) /\ ref_ok st r addr S;
  ti_live : forall x addr S, A !! x = Some (addr, S) -> is_Some (ts_refs st !! x);
  ti_excl : forall x y addr S S' i, A !! x = Some (addr, S) -> A !! y = Some (addr, S') -> i ∈ S -> i ∈ S' -> x = y
}.

Abbreviation token_inv := (token_inv_ex None).

Lemma key_of_inj a b : key_of a = key_of b -> a = b.
Proof. by injection 1. Qed.

(** A live reference, its record and its pool. *)
Lemma inv_ref e st A x addr S :
  token_inv_ex e st A -> A !! x = Some (addr, S) ->
  exists r pool p, ts_refs st !! x = Some r /\ tr_pool r = Some pool /\ ts_pools st !! pool = Some p /\
    ref_ok st r addr S /\ pool_ok st A pool p addr.
Proof.
  intros I Hx. destruct (ti_live _ _ _ I _ _ _ Hx) as [r Hr]. destruct (ti_refs _ _ _ I _ _ Hr) as (addr' & S' & Hx' & Ro).
  rewrite Hx in Hx'. injection Hx' as <- <-. destruct (ro_pool _ _ _ _ Ro) as (pool & Ep & Et & [p Hp]).
  destruct (ti_pools _ _ _ I _ _ Hp) as (addr2 & Po).
  destruct (ti_tree _ _ _ I _ _ Et) as (p3 & Hp3 & E3). rewrite Hp in Hp3. injection Hp3 as <-.
  rewrite (po_key _ _ _ _ _ Po) in E3. apply key_of_inj in E3 as ->. by exists r, pool, p.
Qed.

(** ** The search for a free token *)
Lemma sub_clamp_mod l : in_range l -> SUB_CLAMP l 0 OSW_TOKEN_COUNT = (l - 1) mod 128.
Proof.
  unfold in_range, SUB_CLAMP, OSW_TOKEN_COUNT, OSW_TOKEN_MAX, OSW_TOKEN_MIN. intros Hl.
  destruct (Z.leb_spec l 0); [|by rewrite Z.mod_small by lia].
  replace l with 0 by lia. done.
Qed.

Lemma mod_in_range x : in_range (x mod 128).
Proof. unfold in_range, OSW_TOKEN_COUNT, OSW_TOKEN_MAX, OSW_TOKEN_MIN. pose proof (Z.mod_pos_bound x 128). lia. Qed.

(** Every position is met once around the circle. *)
Lemma cyclic_position started j : in_range j -> exists m, 0 <= m < 128 /\ j = (started - 1 - m) mod 128.
Proof.
  unfold in_range, OSW_TOKEN_COUNT, OSW_TOKEN_MAX, OSW_TOKEN_MIN. intros Hj. exists ((started - 1 - j) mod 128).
  split; [apply Z.mod_pos_bound; lia|]. rewrite Zminus_mod_idemp_r.
  replace (started - 1 - (started - 1 - j)) with j by lia. by rewrite Z.mod_small by lia.
Qed.

Definition with_bit (p : osw_token_pool) (i : Z) : osw_token_pool :=
  mk_pool (tp_key p) i (stw (tp_tokens p) (i / 64) (Z.lor (nth (Z.to_nat (i / 64)) (tp_tokens p) 0) (Z.shiftl 1 (i mod 64))))
    (tp_ref_list p).
Definition ref_with_bit (r : osw_token_pool_reference) (i : Z) : osw_token_pool_reference :=
  mk_ref (tr_pool r) (stw (tr_tokens r) (i / 64) (Z.lor (nth (Z.to_nat (i / 64)) (tr_tokens r) 0) (Z.shiftl 1 (i mod 64)))).

Lemma fetch_loop_ok n k started p r :
  words_ok (tp_tokens p) -> words_ok (tr_tokens r) -> in_range started ->
  (k + n = 128)%nat -> (0 < n)%nat -> tp_last_bit_used p = (started - Z.of_nat k) mod 128 ->
  (forall j, (j < k)%nat -> bit (tp_tokens p) ((started - 1 - Z.of_nat j) mod 128) = true) ->
  (exists i, in_range i /\ bit (tp_tokens p) i = false /\
     fetch_loop n started p r = Ok (i + OSW_TOKEN_MIN, with_bit p i, ref_with_bit r i)) \/
  (exists l, in_range l /\ (forall i, in_range i -> bit (tp_tokens p) i = true) /\
     fetch_loop n started p r = Ok (OSW_TOKEN_INVALID, mk_pool (tp_key p) l (tp_tokens p) (tp_ref_list p), r)).
Proof.
  revert k p. induction n as [|n IH]; intros k p Hp Hr Hs Hk Hn Hl Hb; [lia|]. cbn [fetch_loop].
  rewrite sub_clamp_mod by (rewrite Hl; apply mod_in_range).
  assert (El : (tp_last_bit_used p - 1) mod 128 = (started - 1 - Z.of_nat k) mod 128).
  { rewrite Hl, Zminus_mod_idemp_l. f_equal. lia. }
  rewrite El. set (i := (started - 1 - Z.of_nat k) mod 128) in *. pose proof (mod_in_range (started - 1 - Z.of_nat k)) as Hi.
  change (in_range i) in Hi. cbn [tp_tokens tp_key tp_ref_list]. unfold BITS_PER_LONG.
  rewrite (rdw_ok (tp_tokens p) i) by done. cbn [mbind res_bind]. rewrite mask_land. fold (bit (tp_tokens p) i).
  destruct (bit (tp_tokens p) i) eqn:Eb; cbn [negb].
  - destruct (Z.eqb_spec started i) as [Es|Es].
    + right. exists i. split_and!; [done| |done]. intros j Hj.
      assert (Ek : k = 127%nat).
      { unfold in_range, OSW_TOKEN_COUNT, OSW_TOKEN_MAX, OSW_TOKEN_MIN in Hs.
        assert ((started - 1 - Z.of_nat k) mod 128 = started) as E by (symmetry; exact Es).
        pose proof (Z.div_mod (started - 1 - Z.of_nat k) 128 ltac:(lia)). rewrite E in *. lia. }
      destruct (cyclic_position started j Hj) as (m & Hm & ->).
      destruct (decide (m = 127)) as [-> | Hne].
      * replace 127 with (Z.of_nat k) by lia. exact Eb.
      * rewrite <- (Z2Nat.id m) by lia. apply Hb. lia.
    + assert (0 < n)%nat.
      { destruct n; [|lia]. exfalso. apply Es. unfold i. replace (started - 1 - Z.of_nat k) with (started + (-1) * 128) by lia.
        rewrite Z.mod_add by lia. unfold in_range, OSW_TOKEN_COUNT, OSW_TOKEN_MAX, OSW_TOKEN_MIN in Hs. by rewrite Z.mod_small by lia. }
      destruct (IH (S k) (mk_pool (tp_key p) i (tp_tokens p) (tp_ref_list p))) as [(i' & H1 & H2 & H3)|(l & H1 & H2 & H3)]; try done.
      * lia.
      * cbn. unfold i. f_equal. lia.
      * intros j Hj. cbn. destruct (decide (j = k)) as [-> | ]; [done|]. apply Hb. lia.
      * left. exists i'. split_and!; done.
      * right. exists l. split_and!; done.
  - left. exists i. rewrite (rdw_ok (tr_tokens r) i) by done. done.
Qed.

(** One reference changes what it holds. *)
Lemma update_inv st A x addr S S' r r' pool p p' :
  token_inv st A -> A !! x = Some (addr, S) ->
  tr_pool r = Some pool -> ts_refs st !! x = Some r -> ts_pools st !! pool = Some p -> pool_ok st A pool p addr ->
  tr_pool r' = Some pool -> words_ok (tr_tokens r') -> tp_key p' = tp_key p -> tp_ref_list p' = tp_ref_list p ->
  words_ok (tp_tokens p') -> in_range (tp_last_bit_used p') ->
  (forall i, i ∈ S' -> in_range i) ->
  (forall i, in_range i -> bit (tr_tokens r') i = true <-> i ∈ S') ->
  (forall i, in_range i -> bit (tp_tokens p') i = true <-> taken (<[x := (addr, S')]> A) addr i) ->
  (forall y T i, y <> x -> A !! y = Some (addr, T) -> i ∈ S' -> i ∉ T) ->
  token_inv (put_ref x r' (put_pool pool p' st)) (<[x := (addr, S')]> A).
Proof.
  intros I Hx Erp Hr Hp Po Er' Wr Ek El Wp Lp HS' Br Bp Hex.
  assert (Hother : forall a i, a <> addr -> taken (<[x := (addr, S')]> A) a i <-> taken A a i).
  { intros a i Ha. unfold taken. split; intros (z & T & Hz & Hi); exists z, T; split; try done.
    - destruct (decide (z = x)) as [-> | ]; [rewrite lookup_insert_eq in Hz; by injection Hz as <- _|by rewrite lookup_insert_ne in Hz].
    - rewrite lookup_insert_ne; [done|]. intros <-. congruence. }
  assert (Hpools : forall q, is_Some (ts_pools st !! q) -> is_Some (<[pool := p']> (ts_pools st) !! q)).
  { intros q Hq. destruct (decide (q = pool)) as [-> | ]; [rewrite lookup_insert_eq; by eexists|by rewrite lookup_insert_ne]. }
  split; cbn [put_ref put_pool ts_pools ts_refs ts_tree].
  - intros q pq Hq He. destruct (decide (q = pool)) as [-> | Hne].
    + rewrite lookup_insert_eq in Hq. injection Hq as <-. rewrite El. by eapply ti_some.
    + rewrite lookup_insert_ne in Hq by done. by eapply ti_some.
  - intros q pq Hq. destruct (decide (q = pool)) as [-> | Hne].
    + rewrite lookup_insert_eq in Hq. injection Hq as <-. exists addr. destruct Po. split; cbn; try done.
      * by rewrite Ek.
      * by rewrite El.
      * intros y. rewrite El, po_refs0. destruct (decide (y = x)) as [-> | ].
        -- rewrite lookup_insert_eq. split; intros _; by eexists.
        -- by rewrite lookup_insert_ne.
    + rewrite lookup_insert_ne in Hq by done. destruct (ti_pools _ _ _ I _ _ Hq) as (a & Pq). exists a.
      assert (a <> addr) as Ha. { intros ->. apply Hne. pose proof (po_tree _ _ _ _ _ Pq). pose proof (po_tree _ _ _ _ _ Po). congruence. }
      destruct Pq. split; cbn; try done.
      * intros y. rewrite po_refs0. destruct (decide (y = x)) as [-> | ]; [|by rewrite lookup_insert_ne].
        rewrite lookup_insert_eq. split; intros [T HT]; congruence.
      * intros i Hi. rewrite Hother by done. by apply po_bits0.
  - intros key q Hq. destruct (ti_tree _ _ _ I _ _ Hq) as (pq & Hpq & E). destruct (decide (q = pool)) as [-> | ].
    + rewrite lookup_insert_eq. exists p'. split; [done|]. rewrite Ek. congruence.
    + rewrite lookup_insert_ne by done. by exists pq.
  - intros y ry Hy. destruct (decide (y = x)) as [-> | Hne].
    + rewrite lookup_insert_eq in Hy. injection Hy as <-. rewrite lookup_insert_eq. exists addr, S'. split; [done|].
      split; cbn; try done. exists pool. split_and!; [done|by destruct Po|by rewrite lookup_insert_eq].
    + rewrite lookup_insert_ne in Hy by done. destruct (ti_refs _ _ _ I _ _ Hy) as (a & T & HT & Ro).
      exists a, T. rewrite lookup_insert_ne by done. split; [done|]. destruct Ro as [(q & ? & ? & ?) ? ? ?].
      split; cbn; try done. exists q. split_and!; try done. by apply Hpools.
  - intros y a T Hy. destruct (decide (y = x)) as [-> | Hne]; [rewrite lookup_insert_eq; by eexists|].
    rewrite lookup_insert_ne in Hy by done. rewrite lookup_insert_ne by done. by eapply ti_live.
  - intros y z a T T' i Hy Hz Hi Hi'. destruct (decide (y = x)) as [-> | Hy'], (decide (z = x)) as [-> | Hz']; try done.
    + rewrite lookup_insert_eq in Hy. rewrite lookup_insert_ne in Hz by done. injection Hy as <- <-. exfalso. by eapply Hex.
    + rewrite lookup_insert_eq in Hz. rewrite lookup_insert_ne in Hy by done. injection Hz as <- <-. exfalso. by eapply Hex.
    + rewrite lookup_insert_ne in Hy, Hz by done. by eapply (ti_excl _ _ _ I).
Qed.

Lemma taken_insert (A : holders) x addr S' j :
  taken (<[x := (addr, S')]> A) addr j <-> j ∈ S' \/ exists y T, y <> x /\ A !! y = Some (addr, T) /\ j ∈ T.
Proof.
  unfold taken. split.
  - intros (y & T & Hy & Hj). destruct (decide (y = x)) as [-> | ].
    + rewrite lookup_insert_eq in Hy. injection Hy as <-. by left.
    + rewrite lookup_insert_ne in Hy by done. right. by exists y, T.
  - intros [Hj | (y & T & Hne & Hy & Hj)].
    + exists x, S'. by rewrite lookup_insert_eq.
    + exists y, T. by rewrite lookup_insert_ne.
Qed.

Lemma stw_words ws w v : words_ok ws -> words_ok (stw ws w v).
Proof. unfold words_ok, stw. by rewrite length_insert. Qed.

Lemma fetch_found_inv st A x addr S r pool p i :
  token_inv st A -> A !! x = Some (addr, S) -> ts_refs st !! x = Some r -> tr_pool r = Some pool ->
  ts_pools st !! pool = Some p -> ref_ok st r addr S -> pool_ok st A pool p addr ->
  in_range i -> ~ taken A addr i ->
  token_inv (put_ref x (ref_with_bit r i) (put_pool pool (with_bit p i) st)) (<[x := (addr, {[i]} ∪ S)]> A).
Proof.
  intros I Hx Hr Ep Hp Ro Po Hi Hfree. pose proof (po_words _ _ _ _ _ Po) as Wp. pose proof (ro_words _ _ _ _ Ro) as Wr.
  pose proof (po_bits _ _ _ _ _ Po) as Bp. pose proof (ro_bits _ _ _ _ Ro) as Br. pose proof (ro_range _ _ _ _ Ro) as HS.
  eapply update_inv; try done.
  - by apply stw_words.
  - by apply stw_words.
  - intros j [-> %elem_of_singleton|Hj]%elem_of_union; [done|by apply HS].
  - intros j Hj. cbn [ref_with_bit tr_tokens]. rewrite bit_set, elem_of_union, elem_of_singleton by done.
    destruct (Z.eqb_spec i j); [naive_solver|]. rewrite Br by done. naive_solver.
  - intros j Hj. cbn [with_bit tp_tokens]. rewrite bit_set, taken_insert, elem_of_union, elem_of_singleton by done.
    destruct (Z.eqb_spec i j) as [-> | Hne]; [naive_solver|]. rewrite Bp by done. split.
    + intros (y & T & Hy & HT). destruct (decide (y = x)) as [-> | ]; [|right; by exists y, T].
      rewrite Hx in Hy. injection Hy as <-. left. by right.
    + intros [[->|HjS]|(y & T & _ & Hy & HT)]; [done|by exists x, S|by exists y, T].
  - intros y T j Hne Hy [-> %elem_of_singleton|Hj]%elem_of_union HT.
    + apply Hfree. by exists y, T.
    + apply Hne. symmetry. by eapply (ti_excl _ _ _ I x y).
Qed.

Lemma fetch_none_inv st A x addr S r pool p l :
  token_inv st A -> A !! x = Some (addr, S) -> ts_refs st !! x = Some r -> tr_pool r = Some pool ->
  ts_pools st !! pool = Some p -> ref_ok st r addr S -> pool_ok st A pool p addr -> in_range l ->
  token_inv (put_ref x r (put_pool pool (mk_pool (tp_key p) l (tp_tokens p) (tp_ref_list p)) st)) A.
Proof.
  intros I Hx Hr Ep Hp Ro Po Hl. rewrite <- (insert_id A x (addr, S)) by done.
  eapply update_inv; try done; try apply Ro; try apply Po.
  - intros i Hi. rewrite insert_id by done. by apply (po_bits _ _ _ _ _ Po).
  - intros y T i Hne Hy Hi HT. apply Hne. symmetry. by eapply (ti_excl _ _ _ I x y).
Qed.

Lemma fetch_ok st A x addr S :
  token_inv st A -> A !! x = Some (addr, S) ->
  exists t st' A', osw_token_pool_fetch_token (Some x) st = Ok (t, st') /\
    holder_step A (TFetch x) (RToken t) A' /\ token_inv st' A'.
Proof.
  intros I Hx. destruct (inv_ref _ _ _ _ _ _ I Hx) as (r & pool & p & Hr & Ep & Hp & Ro & Po).
  unfold osw_token_pool_fetch_token. assert (0 + Z.to_nat OSW_TOKEN_COUNT = 128)%nat as En by reflexivity.
  generalize dependent (Z.to_nat OSW_TOKEN_COUNT). intros fuel En.
  rewrite Hr. cbn [deref mbind res_bind]. rewrite Ep, Hp. cbn [deref mbind res_bind].
  pose proof (po_last _ _ _ _ _ Po) as Hl. pose proof (po_bits _ _ _ _ _ Po) as Bp.
  destruct (fetch_loop_ok fuel 0 (tp_last_bit_used p) p r (po_words _ _ _ _ _ Po) (ro_words _ _ _ _ Ro) Hl En)
    as [(i & Hi & Eb & E)|(l & Hil & Hall & E)]; [lia| |intros j Hj; lia| |].
  { rewrite Z.sub_0_r, Z.mod_small; [done|]. unfold in_range, OSW_TOKEN_COUNT, OSW_TOKEN_MAX, OSW_TOKEN_MIN in Hl. lia. }
  - rewrite E. cbn [mbind res_bind]. assert (Hfree : ~ taken A addr i) by (rewrite <- Bp, Eb by done; done).
    do 3 eexists. split; [reflexivity|]. split; [by eapply step_fetch|]. by eapply fetch_found_inv.
  - rewrite E. cbn [mbind res_bind]. do 3 eexists. split; [reflexivity|].
    split; [eapply step_exhausted; [done|]; intros i Hi; by apply Bp, Hall|]. by eapply fetch_none_inv.
Qed.

Lemma free_token_ok st A x addr S t :
  token_inv st A -> A !! x = Some (addr, S) ->
  exists st', osw_token_pool_free_token (Some x) t st = Ok st' /\
    token_inv st' (<[x := (addr, S ∖ {[t - OSW_TOKEN_MIN]})]> A).
Proof.
  intros I Hx. destruct (inv_ref _ _ _ _ _ _ I Hx) as (r & pool & p & Hr & Ep & Hp & Ro & Po).
  pose proof (po_words _ _ _ _ _ Po) as Wp. pose proof (ro_words _ _ _ _ Ro) as Wr.
  pose proof (po_bits _ _ _ _ _ Po) as Bp. pose proof (ro_bits _ _ _ _ Ro) as Br. pose proof (ro_range _ _ _ _ Ro) as HS.
  unfold osw_token_pool_free_token. rewrite Hr. cbn [deref mbind res_bind]. rewrite Ep, Hp. cbn [deref mbind res_bind].
  set (i := t - OSW_TOKEN_MIN).
  assert (Hsame : i ∉ S -> token_inv st (<[x := (addr, S ∖ {[i]})]> A)).
  { intros Hi. replace (S ∖ {[i]}) with S by set_solver. by rewrite insert_id. }
  assert (Hout : ~ in_range i -> token_inv st (<[x := (addr, S ∖ {[i]})]> A)) by (intros Hn; apply Hsame; intros ?%HS; done).
  assert (Hr128 : in_range i <-> OSW_TOKEN_MIN <= t <= OSW_TOKEN_MAX).
  { unfold in_range, i, OSW_TOKEN_COUNT, OSW_TOKEN_MAX, OSW_TOKEN_MIN. lia. }
  destruct (Z.eqb_spec t OSW_TOKEN_INVALID) as [->|].
  { exists st. split; [done|]. apply Hout. rewrite Hr128.
    unfold OSW_TOKEN_INVALID, OSW_TOKEN_MIN, OSW_TOKEN_MAX. lia. }
  destruct (Z.ltb_spec t OSW_TOKEN_MIN); [exists st; split; [done|]; apply Hout; rewrite Hr128; lia|].
  destruct (Z.ltb_spec OSW_TOKEN_MAX t); [exists st; split; [done|]; apply Hout; rewrite Hr128; lia|].
  assert (Hi : in_range i) by (apply Hr128; lia). unfold BITS_PER_LONG. rewrite (rdw_ok (tr_tokens r) i) by done.
  cbn [mbind res_bind]. rewrite mask_land. fold (bit (tr_tokens r) i). destruct (bit (tr_tokens r) i) eqn:Eb; cbn [negb].
  2:{ exists st. split; [done|]. apply Hsame. rewrite <- Br, Eb by done. done. }
  rewrite (rdw_ok (tp_tokens p) i) by done. cbn [mbind res_bind]. eexists. split; [reflexivity|].
  eapply update_inv; try done; cbn [tr_tokens tp_tokens].
  - by apply stw_words.
  - by apply stw_words.
  - apply Po.
  - intros j [Hj _]%elem_of_difference. by apply HS.
  - intros j Hj. rewrite bit_clear, elem_of_difference, elem_of_singleton by done.
    destruct (Z.eqb_spec i j); [naive_solver|]. rewrite Br by done. naive_solver.
  - intros j Hj. rewrite bit_clear, taken_insert, elem_of_difference, elem_of_singleton by done.
    assert (HiS : i ∈ S) by (by apply Br).
    destruct (Z.eqb_spec i j) as [<-|Hne].
    + split; [done|]. intros [[_ Hx1]|(y & T & Hxy & Hy & HT)]; [done|]. exfalso. apply Hxy. symmetry.
      by eapply (ti_excl _ _ _ I x y).
    + rewrite Bp by done. split.
      * intros (y & T & Hy & HT). destruct (decide (y = x)) as [->|]; [|right; by exists y, T].
        rewrite Hx in Hy. injection Hy as <-. left. by split.
      * intros [[HjS _]|(y & T & _ & Hy & HT)]; [by exists x, S|by exists y, T].
  - intros y T j Hne Hy [Hj _]%elem_of_difference HT. apply Hne. symmetry. by eapply (ti_excl _ _ _ I x y).
Qed.

(** A new reference in a pool that may still be empty. *)
Lemma add_ref_inv st A pool p addr x :
  token_inv_ex (Some pool) st A -> ts_pools st !! pool = Some p -> pool_ok st A pool p addr ->
  ts_refs st !! x = None ->
  token_inv (put_pool pool (mk_pool (tp_key p) (tp_last_bit_used p) (tp_tokens p) (tp_ref_list p ++ [x]))
    (put_ref x (mk_ref (Some pool) tokens_zero) st)) (<[x := (addr, ∅)]> A).
Proof.
  intros I Hp Po Hx.
  assert (HA : A !! x = None).
  { destruct (A !! x) as [[a S]|] eqn:E; [|done]. destruct (ti_live _ _ _ I _ _ _ E). congruence. }
  assert (Htaken : forall a i, taken (<[x := (addr, ∅)]> A) a i <-> taken A a i).
  { intros a i. unfold taken. split; intros (y & T & Hy & HT); exists y, T; split; try done.
    - destruct (decide (y = x)) as [->|]; [rewrite lookup_insert_eq in Hy; injection Hy as <- <-; set_solver|].
      by rewrite lookup_insert_ne in Hy.
    - rewrite lookup_insert_ne; [done|]. intros <-. congruence. }
  split; cbn [put_ref put_pool ts_pools ts_refs ts_tree].
  - intros q pq Hq _. destruct (decide (q = pool)) as [->|Hne].
    + rewrite lookup_insert_eq in Hq. injection Hq as <-. cbn. by destruct (tp_ref_list p).
    + rewrite lookup_insert_ne in Hq by done. eapply ti_some; [exact I|done|congruence].
  - intros q pq Hq. destruct (decide (q = pool)) as [->|Hne].
    + rewrite lookup_insert_eq in Hq. injection Hq as <-. exists addr. destruct Po. split; cbn; try done.
      * apply NoDup_app. split_and!; [done| |apply NoDup_singleton]. intros y Hy ->%list_elem_of_singleton.
        apply po_refs0 in Hy as [S HS]. congruence.
      * intros y. rewrite elem_of_app, list_elem_of_singleton, po_refs0. destruct (decide (y = x)) as [->|].
        -- rewrite lookup_insert_eq. split; [intros _; by eexists|auto].
        -- rewrite lookup_insert_ne by done. split; [intros [?|?]; done|auto].
      * intros i Hi. rewrite Htaken. by apply po_bits0.
    + rewrite lookup_insert_ne in Hq by done. destruct (ti_pools _ _ _ I _ _ Hq) as (a & Pq). exists a.
      assert (a <> addr) as Ha.
      { intros ->. apply Hne. pose proof (po_tree _ _ _ _ _ Pq). pose proof (po_tree _ _ _ _ _ Po). congruence. }
      destruct Pq. split; cbn; try done.
      * intros y. rewrite po_refs0. destruct (decide (y = x)) as [->|]; [|by rewrite lookup_insert_ne].
        rewrite lookup_insert_eq. split; intros [S HS]; congruence.
      * intros i Hi. rewrite Htaken. by apply po_bits0.
  - intros key q Hq. destruct (ti_tree _ _ _ I _ _ Hq) as (pq & Hpq & E). destruct (decide (q = pool)) as [->|].
    + rewrite lookup_insert_eq. eexists. split; [done|]. cbn. congruence.
    + rewrite lookup_insert_ne by done. by exists pq.
  - intros y ry Hy. destruct (decide (y = x)) as [->|Hne].
    + rewrite lookup_insert_eq in Hy. injection Hy as <-. rewrite lookup_insert_eq. exists addr, ∅. split; [done|].
      split; cbn; [|done|intros i Hi; rewrite bit_zero by done; set_solver|set_solver].
      exists pool. split_and!; [done|by destruct Po|by rewrite lookup_insert_eq].
    + rewrite lookup_insert_ne in Hy by done. destruct (ti_refs _ _ _ I _ _ Hy) as (a & T & HT & Ro).
      exists a, T. rewrite lookup_insert_ne by done. split; [done|]. destruct Ro as [(q & ? & ? & Hq) ? ? ?].
      split; cbn; try done. exists q. split_and!; try done. destruct (decide (q = pool)) as [->|];
        [rewrite lookup_insert_eq; by eexists|by rewrite lookup_insert_ne].
  - intros y a T Hy. destruct (decide (y = x)) as [->|Hne]; [rewrite lookup_insert_eq; by eexists|].
    rewrite lookup_insert_ne in Hy by done. rewrite lookup_insert_ne by done. by eapply ti_live.
  - intros y z a T T' i Hy Hz Hi Hi'. destruct (decide (y = x)) as [->|Hy'].
    { rewrite lookup_insert_eq in Hy. injection Hy as <- <-. set_solver. }
    destruct (decide (z = x)) as [->|Hz'].
    { rewrite lookup_insert_eq in Hz. injection Hz as <- <-. set_solver. }
    rewrite lookup_insert_ne in Hy, Hz by done. by eapply (ti_excl _ _ _ I).
Qed.

Lemma inv_weaken e st A : token_inv st A -> token_inv_ex e st A.
Proof. intros [H1 H2 H3 H4 H5]. split; try done. intros pool p Hp _. by eapply H1. Qed.

Lemma inv_strengthen pool p st A :
  token_inv_ex (Some pool) st A -> ts_pools st !! pool = Some p -> tp_ref_list p <> [] -> token_inv st A.
Proof.
  intros [H1 H2 H3 H4 H5] Hp Hne. split; try done. intros q pq Hq _.
  destruct (decide (q = pool)) as [->|]; [congruence|]. eapply H1; [done|congruence].
Qed.

(** A station without a pool gets an empty one. *)
Lemma alloc_pool_inv st A addr :
  token_inv st A -> ts_tree st !! key_of addr = None ->
  let '(pool, st') := osw_token_pool_alloc_new (key_of addr) st in
  exists p, ts_pools st' !! pool = Some p /\ pool_ok st' A pool p addr /\ token_inv_ex (Some pool) st' A /\
    ts_refs st' = ts_refs st.
Proof.
  intros I Ht. unfold osw_token_pool_alloc_new. set (pool := fresh (dom (ts_pools st))).
  assert (Hf : ts_pools st !! pool = None) by (apply not_elem_of_dom, is_fresh).
  assert (Hno : forall x S, A !! x <> Some (addr, S)).
  { intros x S Hx. destruct (inv_ref _ _ _ _ _ _ I Hx) as (_ & ? & ? & _ & _ & _ & _ & Po).
    rewrite (po_tree _ _ _ _ _ Po) in Ht. done. }
  assert (Hpo : pool_ok (mk_state (<[pool := mk_pool (key_of addr) 0 tokens_zero []]> (ts_pools st)) (ts_refs st)
      (<[key_of addr := pool]> (ts_tree st))) A pool (mk_pool (key_of addr) 0 tokens_zero []) addr).
  { split; cbn; try done.
    - by rewrite lookup_insert_eq.
    - apply NoDup_nil_2.
    - intros x. rewrite elem_of_nil. split; [done|]. intros [S HS]. by apply Hno in HS.
    - intros i Hi. rewrite bit_zero by done. split; [done|]. intros (x & S & HS & _). by apply Hno in HS. }
  eexists. split_and!; [by cbn; rewrite lookup_insert_eq|exact Hpo| |done].
  split; cbn [ts_pools ts_refs ts_tree].
  - intros q pq Hq Hne. rewrite lookup_insert_ne in Hq by congruence. by eapply ti_some.
  - intros q pq Hq. destruct (decide (q = pool)) as [->|Hne].
    + rewrite lookup_insert_eq in Hq. injection Hq as <-. by exists addr.
    + rewrite lookup_insert_ne in Hq by done. destruct (ti_pools _ _ _ I _ _ Hq) as (a & Pq). exists a.
      destruct Pq. split; cbn; try done. rewrite lookup_insert_ne; [done|]. intros E. congruence.
  - intros key q Hq. destruct (decide (key = key_of addr)) as [->|Hk].
    + rewrite lookup_insert_eq in Hq. injection Hq as <-. rewrite lookup_insert_eq. by eexists.
    + rewrite lookup_insert_ne in Hq by done. destruct (ti_tree _ _ _ I _ _ Hq) as (pq & Hpq & E). exists pq.
      rewrite lookup_insert_ne; [done|]. intros <-. congruence.
  - intros x r Hx. destruct (ti_refs _ _ _ I _ _ Hx) as (a & T & HT & [(q & ? & ? & [pq Hq]) ? ? ?]). exists a, T.
    split; [done|]. split; cbn; try done. exists q. split_and!; [done| |].
    + rewrite lookup_insert_ne; [done|]. intros E. congruence.
    + exists pq. rewrite lookup_insert_ne; [done|]. intros <-. congruence.
  - apply I.
  - apply I.
Qed.

Lemma ref_get_ok st A vif addr :
  token_inv st A ->
  exists x st', osw_token_pool_ref_get vif addr st = Ok (x, st') /\ A !! x = None /\ token_inv st' (<[x := (addr, ∅)]> A).
Proof.
  intros I. unfold osw_token_pool_ref_get, osw_token_vif_sta_to_key, osw_token_pool_get_internal, osw_token_pool_lookup.
  change (replicate 32 0, addr) with (key_of addr).
  assert (exists pool st1 p, match ts_tree st !! key_of addr with Some pool => (pool, st)
     | None => osw_token_pool_alloc_new (key_of addr) st end = (pool, st1) /\
     ts_pools st1 !! pool = Some p /\ pool_ok st1 A pool p addr /\ token_inv_ex (Some pool) st1 A)
    as (pool & st1 & p & -> & Hp & Po & I1).
  { destruct (ts_tree st !! key_of addr) as [pool|] eqn:Et.
    - destruct (ti_tree _ _ _ I _ _ Et) as (p & Hp & Ek). destruct (ti_pools _ _ _ I _ _ Hp) as (a & Po).
      rewrite (po_key _ _ _ _ _ Po) in Ek. apply key_of_inj in Ek as ->.
      exists pool, st, p. split_and!; try done. by apply inv_weaken.
    - pose proof (alloc_pool_inv st A addr I Et) as Ha. destruct (osw_token_pool_alloc_new _ _) as [pool st1].
      destruct Ha as (p & ? & ? & ? & _). by exists pool, st1, p. }
  set (x := fresh (dom (ts_refs st1))). assert (Hx : ts_refs st1 !! x = None) by (apply not_elem_of_dom, is_fresh).
  cbn [put_ref ts_pools]. rewrite Hp. cbn [deref mbind res_bind]. do 2 eexists. split; [done|]. split.
  - destruct (A !! x) as [[a S]|] eqn:E; [|done]. destruct (ti_live _ _ _ I1 _ _ _ E). congruence.
  - exact (add_ref_inv st1 A pool p addr x I1 Hp Po Hx).
Qed.

(** A reference leaves its pool. *)
Lemma drop_ref_inv st A x addr S r pool p :
  token_inv st A -> A !! x = Some (addr, S) -> ts_refs st !! x = Some r -> tr_pool r = Some pool ->
  ts_pools st !! pool = Some p -> ref_ok st r addr S -> pool_ok st A pool p addr ->
  token_inv_ex (Some pool)
    (mk_state (<[pool := mk_pool (tp_key p) (tp_last_bit_used p) (drop_words (tp_tokens p) (tr_tokens r))
        (filter (fun y => y <> x) (tp_ref_list p))]> (ts_pools st)) (delete x (ts_refs st)) (ts_tree st)) (delete x A).
Proof.
  intros I Hx Hr Ep Hp Ro Po.
  assert (Htaken : forall a i, taken (delete x A) a i <-> taken A a i /\ (a = addr -> i ∉ S)).
  { intros a i. unfold taken. split.
    - intros (y & T & Hy & HT). apply lookup_delete_Some in Hy as [Hne Hy]. split; [by exists y, T|].
      intros -> Hi. apply Hne. by eapply (ti_excl _ _ _ I x y).
    - intros ((y & T & Hy & HT) & Hn). exists y, T. split; [|done]. rewrite lookup_delete_ne; [done|].
      intros <-. rewrite Hx in Hy. injection Hy as <- <-. by apply Hn. }
  split; cbn [ts_pools ts_refs ts_tree].
  - intros q pq Hq Hne. rewrite lookup_insert_ne in Hq by congruence. eapply ti_some; [exact I|done|done].
  - intros q pq Hq. destruct (decide (q = pool)) as [->|Hne].
    + rewrite lookup_insert_eq in Hq. injection Hq as <-. exists addr. destruct Po, Ro. split; cbn; try done.
      * unfold words_ok, drop_words in *. rewrite length_zip_with. lia.
      * by apply NoDup_filter.
      * intros y. rewrite list_elem_of_filter, po_refs0. split.
        -- intros [Hyx [T HT]]. exists T. by rewrite lookup_delete_ne.
        -- intros [T HT]. apply lookup_delete_Some in HT as [? ?]. split; [congruence|by exists T].
      * intros i Hi. rewrite bit_drop, andb_true_iff, negb_true_iff, po_bits0, Htaken by done.
        rewrite <- not_true_iff_false, ro_bits0 by done. split; [intros [? ?]; auto|intros [? ?]; auto].
    + rewrite lookup_insert_ne in Hq by done. destruct (ti_pools _ _ _ I _ _ Hq) as (a & Pq). exists a.
      assert (a <> addr) as Ha.
      { intros ->. apply Hne. pose proof (po_tree _ _ _ _ _ Pq). pose proof (po_tree _ _ _ _ _ Po). congruence. }
      destruct Pq. split; cbn; try done.
      * intros y. rewrite po_refs0. destruct (decide (y = x)) as [->|]; [|by rewrite lookup_delete_ne].
        rewrite lookup_delete_eq. split; intros [T HT]; congruence.
      * intros i Hi. rewrite po_bits0, Htaken by done. split; [intros ?; split; [done|congruence]|by intros [? ?]].
  - intros key q Hq. destruct (ti_tree _ _ _ I _ _ Hq) as (pq & Hpq & E). destruct (decide (q = pool)) as [->|].
    + rewrite lookup_insert_eq. eexists. split; [done|]. cbn. congruence.
    + rewrite lookup_insert_ne by done. by exists pq.
  - intros y ry Hy. apply lookup_delete_Some in Hy as [Hne Hy]. destruct (ti_refs _ _ _ I _ _ Hy) as (a & T & HT & Rq).
    exists a, T. rewrite lookup_delete_ne by done. split; [done|]. destruct Rq as [(q & ? & ? & Hq) ? ? ?].
    split; cbn; try done. exists q. split_and!; try done. destruct (decide (q = pool)) as [->|];
      [rewrite lookup_insert_eq; by eexists|by rewrite lookup_insert_ne].
  - intros y a T Hy. apply lookup_delete_Some in Hy as [Hne Hy]. rewrite lookup_delete_ne by done. by eapply ti_live.
  - intros y z a T T' i Hy Hz. apply lookup_delete_Some in Hy as [_ Hy]. apply lookup_delete_Some in Hz as [_ Hz].
    by eapply (ti_excl _ _ _ I).
Qed.

(** The empty pool is freed: its tokens are all free, so that no warning fires. *)
Lemma free_pool_ok st A pool p :
  token_inv_ex (Some pool) st A -> ts_pools st !! pool = Some p -> tp_ref_list p = [] ->
  exists st', osw_token_pool_free pool st = Ok st' /\ token_inv st' A.
Proof.
  intros I Hp He. destruct (ti_pools _ _ _ I _ _ Hp) as (addr & Po). unfold osw_token_pool_free. rewrite Hp.
  cbn [deref mbind res_bind]. rewrite He. cbn [length]. rewrite bool_decide_true by done. cbn [negb].
  assert (Hno : forall x S, A !! x <> Some (addr, S)).
  { intros x S Hx. assert (x ∈ tp_ref_list p) as Hi by (apply (po_refs _ _ _ _ _ Po); by exists S). rewrite He in Hi. by apply elem_of_nil in Hi. }
  rewrite (no_bits (tp_tokens p)); [|by apply Po|].
  2:{ intros i Hi. apply not_true_iff_false. rewrite (po_bits _ _ _ _ _ Po) by done. intros (x & S & HS & _). by apply Hno in HS. }
  rewrite bool_decide_true by done. cbn [negb]. eexists. split; [done|].
  split; cbn [ts_pools ts_refs ts_tree].
  - intros q pq Hq _. apply lookup_delete_Some in Hq as [Hne Hq]. eapply ti_some; [exact I|done|congruence].
  - intros q pq Hq. apply lookup_delete_Some in Hq as [Hne Hq]. destruct (ti_pools _ _ _ I _ _ Hq) as (a & Pq). exists a.
    destruct Pq. split; cbn; try done. rewrite lookup_delete_ne; [done|]. intros E. apply Hne.
    rewrite (po_key _ _ _ _ _ Po) in E. apply key_of_inj in E as <-. pose proof (po_tree _ _ _ _ _ Po). congruence.
  - intros key q Hq. apply lookup_delete_Some in Hq as [Hne Hq]. destruct (ti_tree _ _ _ I _ _ Hq) as (pq & Hpq & E).
    exists pq. rewrite lookup_delete_ne; [done|]. intros <-. congruence.
  - intros y ry Hy. destruct (ti_refs _ _ _ I _ _ Hy) as (a & T & HT & Rq). exists a, T. split; [done|].
    destruct Rq as [(q & ? & Et & Hq) ? ? ?]. split; cbn; try done. exists q. assert (a <> addr) by (intros ->; by apply Hno in HT).
    split_and!; try done.
    + rewrite lookup_delete_ne; [done|]. rewrite (po_key _ _ _ _ _ Po). intros E. apply key_of_inj in E. congruence.
    + rewrite lookup_delete_ne; [done|]. intros <-. destruct (ti_tree _ _ _ I _ _ Et) as (p2 & Hp2 & E2).
      rewrite Hp in Hp2. injection Hp2 as <-. rewrite (po_key _ _ _ _ _ Po) in E2. apply key_of_inj in E2. congruence.
  - apply I.
  - apply I.
Qed.

Lemma ref_free_ok st A x addr S :
  token_inv st A -> A !! x = Some (addr, S) ->
  exists st', osw_token_pool_ref_free (Some x) st = Ok st' /\ token_inv st' (delete x A).
Proof.
  intros I Hx. destruct (inv_ref _ _ _ _ _ _ I Hx) as (r & pool & p & Hr & Ep & Hp & Ro & Po).
  unfold osw_token_pool_ref_free, osw_token_pool_ref_drop_tokens. rewrite Hr. cbn [deref mbind res_bind]. rewrite Ep.
  cbn [deref mbind res_bind]. rewrite Hp. cbn [deref mbind res_bind put_pool ts_pools]. rewrite lookup_insert_eq.
  cbn [deref mbind res_bind put_pool ts_pools ts_refs ts_tree tp_key tp_last_bit_used tp_tokens tp_ref_list].
  rewrite insert_insert_eq. pose proof (drop_ref_inv _ _ _ _ _ _ _ _ I Hx Hr Ep Hp Ro Po) as I1.
  case_bool_decide as He.
  - eapply free_pool_ok; [exact I1|cbn; by rewrite lookup_insert_eq|]. by apply nil_length_inv.
  - eexists. split; [done|]. eapply inv_strengthen; [exact I1|cbn; by rewrite lookup_insert_eq|]. cbn.
    intros E. by rewrite E in He.
Qed.

(** C16: Dialog tokens are exclusive.  From the empty state on, every operation on live
    references runs without a fault and does what the API promises: a fetched token
    lies between 0x80 and 0xff and is held by no reference to the same station,
    fetching fails only when all 128 are held, tokens are held until they are
    freed or their reference is, and a pool lives exactly as long as its
    references. *)
Theorem tokens_refine :
  token_inv state_zero ∅ /\
  forall st A o, token_inv st A -> live A o ->
    exists res st' A', token_step st o = Ok (res, st') /\ holder_step A o res A' /\ token_inv st' A'.
Proof.
  split.
  { split; cbn; intros *; rewrite ?lookup_empty; done. }
  intros st A [vif addr|x|x|x t] I Hl; cbn [token_step live] in *.
  - destruct (ref_get_ok st A vif addr I) as (x & st' & -> & Hx & I'). do 3 eexists. split; [done|].
    split; [by apply step_get|done].
  - destruct Hl as [[addr S] Hx]. destruct (ref_free_ok _ _ _ _ _ I Hx) as (st' & -> & I'). do 3 eexists. split; [done|].
    split; [apply step_free|done].
  - destruct Hl as [[addr S] Hx]. destruct (fetch_ok _ _ _ _ _ I Hx) as (t & st' & A' & -> & Hs & I'). by do 3 eexists.
  - destruct Hl as [[addr S] Hx]. destruct (free_token_ok _ _ _ _ _ t I Hx) as (st' & -> & I'). do 3 eexists. split; [done|].
    split; [by apply step_free_token|done].
Qed.
