(* ===== verification/OswTlv.v ===== *)
(** * OswTlv: type-length-value buffers of the wireless library

    Models [lib/osw/src/osw_tlv.c] and [lib/osw/inc/osw_tlv.h].  A buffer is an
    allocated block of bytes that grows by [REALLOC]; a pointer into it is an offset
    together with the identity of the block, which changes when it is reallocated
    ([realloc] is taken to move the block always).  Headers are read and
    written as the bytes of four [uint32_t] of the host's byte order.  Loads outside
    the block are faults, so that the model shows how far the walk over the items
    reads. *)
From S2P Require Import Prelude.

#[local] Ltac dlia := Z.to_euclidean_division_equations; lia.

Section OswTlv.
Context `{HE : HostEndian}.

(** ** Bytes of an integer, and writes *)
Fixpoint le_out (n : nat) (v : Z) : list Z :=
  match n with O => [] | S n' => v mod 256 :: le_out n' (v / 256) end.
Definition st_ne (n : nat) (v : Z) : list Z := if host_big then rev (le_out n v) else le_out n v.

Definition ld32 (buf : list Z) (off : Z) : res Z := bs ← rd_bytes buf off 4; Ok (ld_ne bs).

(** ** The buffer *)
Definition OSW_TLV_TAILROOM := 4096.
Definition OSW_TLV_MASK := 3.
Definition OSW_TLV_ALIGN (x : Z) : Z := Z.land (x + OSW_TLV_MASK) (Z.lnot OSW_TLV_MASK).

(** [OSW_TLV_PTR_ALIGNED]; blocks themselves are aligned. *)
Definition ptr_aligned (off : Z) : res () := c_assert (Z.land off OSW_TLV_MASK =? 0).

Record osw_tlv := mk_tlv { t_block : nat; t_data : option (list Z); t_size : Z; t_used : Z }.
Definition tlv_zero : osw_tlv := mk_tlv 0 None 0 0.

Definition OSW_TLV_UNSPEC := 0.
Definition OSW_TLV_U32 := 1.
Definition OSW_TLV_FLOAT := 2.
Definition OSW_TLV_STRING := 3.
Definition OSW_TLV_NESTED := 4.
Definition OSW_TLV_HWADDR := 5.

Definition OSW_TLV_F_DELTA := 1.

(** [struct osw_tlv_hdr]: the loads of its fields, and [osw_tlv_hdr_len]. *)
Definition hdr_id (buf : list Z) (hdr : Z) : res Z := ld32 buf hdr.
Definition hdr_type (buf : list Z) (hdr : Z) : res Z := ld32 buf (hdr + 4).
Definition hdr_len (buf : list Z) (hdr : Z) : res Z := ld32 buf (hdr + 8).
Definition hdr_flags (buf : list Z) (hdr : Z) : res Z := ld32 buf (hdr + 12).
Definition osw_tlv_hdr_len : Z := OSW_TLV_ALIGN 16.
Definition hdr_bytes (id type len flags : Z) : list Z := st_ne 4 id ++ st_ne 4 type ++ st_ne 4 len ++ st_ne 4 flags.

Definition osw_tlv_get_data (hdr : Z) : res Z := _ ← ptr_aligned hdr; Ok (hdr + OSW_TLV_ALIGN 16).
Definition osw_tlv_get_hdr (data : Z) : res Z := _ ← ptr_aligned data; Ok (data - OSW_TLV_ALIGN 16).

(** The block behind [tlv->data], and stores through it. *)
Definition bytes_of (data : option (list Z)) : list Z := match data with Some buf => buf | None => [] end.
Definition tlv_wr (tlv : osw_tlv) (off : Z) (bs : list Z) : res osw_tlv :=
  buf ← wr_bytes (bytes_of (t_data tlv)) off bs;
  Ok (mk_tlv (t_block tlv) (match t_data tlv with None => None | Some _ => Some buf end) (t_size tlv) (t_used tlv)).

Definition osw_tlv_grow (tlv : osw_tlv) (needed : Z) : osw_tlv :=
  let remaining := size_t (t_size tlv - OSW_TLV_ALIGN (t_used tlv)) in
  if needed <=? remaining then tlv else
  let new_size := t_size tlv + OSW_TLV_ALIGN (needed + OSW_TLV_TAILROOM) in
  mk_tlv (S (t_block tlv)) (Some (bytes_of (t_data tlv) ++ replicate (Z.to_nat (new_size - t_size tlv)) 0))
    new_size (t_used tlv).

(** The result is the offset of the reserved bytes. *)
Definition osw_tlv_reserve (tlv : osw_tlv) (len : Z) : osw_tlv * Z :=
  let tlv := osw_tlv_grow tlv len in
  let aused := OSW_TLV_ALIGN (t_used tlv) in
  (mk_tlv (t_block tlv) (t_data tlv) (t_size tlv) (aused + len), aused).

(** Freed memory is told apart from what the buffer allocates next. *)
Definition osw_tlv_fini (tlv : osw_tlv) : osw_tlv :=
  match t_data tlv with None => tlv | Some _ => mk_tlv (S (t_block tlv)) None 0 0 end.

Definition osw_tlv_reset (tlv : osw_tlv) : osw_tlv :=
  mk_tlv (t_block tlv) (match t_data tlv with None => None | Some _ => Some (replicate (Z.to_nat (t_size tlv)) 0) end)
    (t_size tlv) 0.

Definition osw_tlv_copy (dst src : osw_tlv) : res osw_tlv :=
  let dst := osw_tlv_fini dst in
  let '(dst, off) := osw_tlv_reserve dst (t_used src) in
  bs ← rd_bytes (bytes_of (t_data src)) 0 (Z.to_nat (t_used src));
  tlv_wr dst off bs.

(** The four stores into the header; [hdr->len] has 32 bits. *)
Definition osw_tlv_put (tlv : osw_tlv) (id type len : Z) : res (osw_tlv * Z) :=
  let '(tlv, hdr) := osw_tlv_reserve tlv (osw_tlv_hdr_len + len) in
  tlv ← tlv_wr tlv hdr (hdr_bytes id type (u32 len) 0);
  data ← osw_tlv_get_data hdr;
  Ok (tlv, data).

Definition osw_tlv_put_off := osw_tlv_put.

Definition osw_tlv_put_data (tlv : osw_tlv) (id type : Z) (x : list Z) : res (osw_tlv * Z) :=
  '(tlv, data) ← osw_tlv_put tlv id type (Z.of_nat (length x));
  tlv ← tlv_wr tlv data x;
  Ok (tlv, data).
Definition osw_tlv_put_u32 (tlv : osw_tlv) (id x : Z) : res (osw_tlv * Z) :=
  osw_tlv_put_data tlv id OSW_TLV_U32 (st_ne 4 x).
Definition osw_tlv_set_flags (tlv : osw_tlv) (data flags : Z) : res osw_tlv :=
  hdr ← osw_tlv_get_hdr data;
  tlv_wr tlv (hdr + 12) (st_ne 4 flags).
Definition osw_tlv_put_nested (tlv : osw_tlv) (id : Z) : res (osw_tlv * Z) := osw_tlv_put_off tlv id OSW_TLV_NESTED 0.
Definition osw_tlv_end_nested (tlv : osw_tlv) (off : Z) : res osw_tlv :=
  hdr ← osw_tlv_get_hdr off;
  tlv_wr tlv (hdr + 8) (st_ne 4 (u32 (t_used tlv - off))).

(** ** The walk over the items of a buffer *)
Definition osw_tlv_len (buf : list Z) (hdr : Z) : res Z :=
  len ← hdr_len buf hdr; Ok (osw_tlv_hdr_len + len).

Definition osw_tlv_ok (buf : list Z) (hdr : option Z) (remaining : Z) : res bool :=
  match hdr with
  | None => Ok false
  | Some hdr => n ← osw_tlv_len buf hdr; Ok (n <=? remaining)
  end.

Definition osw_tlv_next (buf : list Z) (hdr : option Z) (remaining : Z) : res (option Z * Z) :=
  match hdr with
  | None => Ok (None, remaining)
  | Some hdr =>
      offset ← osw_tlv_len buf hdr;
      let padding := OSW_TLV_ALIGN offset - offset in
      if remaining <? offset then Ok (None, remaining) else
      let remaining := remaining - offset in
      if remaining <? padding then Ok (None, remaining) else
      Ok (Some (hdr + offset + padding), remaining - padding)
  end.

(** [osw_tlv_for_each(i, head, rem) body]: the body gets the header and returns whether
    it leaves the loop; the fuel bounds the number of items. *)
Fixpoint each_loop {S} (fuel : nat) (buf : list Z) (i : option Z) (rem : Z) (body : Z -> S -> res (S * bool)) (s : S)
    : res (S * Z) :=
  match fuel with
  | O => Err FFuel
  | Datatypes.S fuel' =>
      ok ← osw_tlv_ok buf i rem;
      match i, ok with
      | Some hdr, true =>
          '(s, stop) ← body hdr s;
          if (stop : bool) then Ok (s, rem) else
          '(i, rem) ← osw_tlv_next buf i rem;
          each_loop fuel' buf i rem body s
      | _, _ => Ok (s, rem)
      end
  end.

Definition osw_tlv_for_each {S} (buf : list Z) (head : option Z) (rem : Z) (body : Z -> S -> res (S * bool)) (s : S)
    : res (S * Z) :=
  ok ← osw_tlv_ok buf head rem;
  each_loop (2 + length buf) buf (if (ok : bool) then head else None) rem body s.

(** [struct osw_tlv_policy] *)
Inductive osw_tlv_policy := mk_tpolicy {
  tpol_type : Z; tpol_min_len : Z; tpol_max_len : Z; tpol_nested : option (list osw_tlv_policy); tpol_tb_size : Z
}.

Definition type_size (type : Z) : Z := if type =? OSW_TLV_HWADDR then 6 else 4.

Definition osw_tlv_policy_ok (buf : list Z) (hdr : Z) (policy : option (list osw_tlv_policy)) : res bool :=
  match policy with
  | None => Ok true
  | Some ps =>
      id ← hdr_id buf hdr;
      match ps !! Z.to_nat id with
      | None => Err FOob
      | Some pol =>
          type ← hdr_type buf hdr;
          if negb (type =? tpol_type pol) then Ok false else
          if (type =? OSW_TLV_HWADDR) || (type =? OSW_TLV_U32) || (type =? OSW_TLV_FLOAT) then
            len ← hdr_len buf hdr; Ok (len =? type_size type)
          else if (type =? OSW_TLV_STRING) || (type =? OSW_TLV_UNSPEC) then
            len ← hdr_len buf hdr;
            Ok ((tpol_min_len pol <=? len) && ((tpol_max_len pol =? 0) || (len <=? tpol_max_len pol)))
          else if type =? OSW_TLV_NESTED then Ok true
          else Ok false
      end
  end.

(** Pointers in [tb] are offsets; the remaining length is the result. *)
Definition osw_tlv_parse (buf : list Z) (data : option Z) (len : Z) (policy : option (list osw_tlv_policy))
    (tb : list (option Z)) : res (list (option Z) * Z) :=
  osw_tlv_for_each buf data len (fun hdr tb =>
    id ← hdr_id buf hdr;
    if Z.of_nat (length tb) <=? id then Ok (tb, false) else
    ok ← osw_tlv_policy_ok buf hdr policy;
    if (ok : bool) then Ok (<[Z.to_nat id := Some hdr]> tb, false) else Ok (tb, false)) tb.

Definition osw_tlv_find (buf : list Z) (data : option Z) (len id : Z) : res (option Z) :=
  '(found, _) ← osw_tlv_for_each buf data len (fun hdr _ =>
    i ← hdr_id buf hdr;
    if i =? id then Ok (Some hdr, true) else Ok (None, false)) None;
  Ok found.

Definition tlv_head (tlv : osw_tlv) : option Z := match t_data tlv with None => None | Some _ => Some 0 end.
Definition OSW_TLV_FIND (tlv : osw_tlv) (id : Z) : res (option Z) :=
  osw_tlv_find (bytes_of (t_data tlv)) (tlv_head tlv) (t_used tlv) id.
Definition OSW_TLV_PARSE (tlv : osw_tlv) (policy : option (list osw_tlv_policy)) (tb : list (option Z)) :
    res (list (option Z) * Z) :=
  osw_tlv_parse (bytes_of (t_data tlv)) (tlv_head tlv) (t_used tlv) policy tb.

(** ** Alignment, loads and stores *)
Lemma align_eq x : OSW_TLV_ALIGN x = (x + 3) / 4 * 4.
Proof.
  unfold OSW_TLV_ALIGN, OSW_TLV_MASK. change (Z.lnot 3) with (Z.lnot (Z.ones 2)).
  by rewrite <- Z.ldiff_land, Z.ldiff_ones_r, Z.shiftl_mul_pow2, Z.shiftr_div_pow2 by lia.
Qed.

Lemma align_bounds x : x <= OSW_TLV_ALIGN x < x + 4.
Proof. rewrite align_eq. dlia. Qed.
Lemma align_mod x : OSW_TLV_ALIGN x mod 4 = 0.
Proof. rewrite align_eq. by apply Z_mod_mult. Qed.
Lemma align_id x : x mod 4 = 0 -> OSW_TLV_ALIGN x = x.
Proof. intros H. rewrite align_eq. dlia. Qed.
Lemma align_add x y : x mod 4 = 0 -> OSW_TLV_ALIGN (x + y) = x + OSW_TLV_ALIGN y.
Proof. intros H. rewrite !align_eq. dlia. Qed.

Lemma ptr_aligned_ok off : off mod 4 = 0 -> ptr_aligned off = Ok ().
Proof.
  intros H. apply c_assert_Ok. unfold OSW_TLV_MASK. change 3 with (Z.ones 2). rewrite Z.land_ones by lia. by apply Z.eqb_eq.
Qed.

Lemma length_le_out n v : length (le_out n v) = n.
Proof. revert v. induction n as [|n IH]; intros v; cbn; [done|]. by rewrite IH. Qed.
Lemma length_st_ne n v : length (st_ne n v) = n.
Proof. unfold st_ne. case_match; rewrite ?length_rev; apply length_le_out. Qed.

Lemma le_bytes_combine n v : 0 <= v < 256 ^ Z.of_nat n -> le_combine (le_out n v) = v.
Proof.
  revert v. induction n as [|n IH]; intros v; [cbn; lia|].
  rewrite Nat2Z.inj_succ, Z.pow_succ_r by lia. intros H. cbn. fold (le_combine (le_out n (v / 256))).
  rewrite IH by dlia. dlia.
Qed.

Lemma ld_st_ne n v : 0 <= v < 256 ^ Z.of_nat n -> ld_ne (st_ne n v) = v.
Proof.
  intros H. unfold ld_ne, st_ne. destruct host_big; [rewrite be_combine_rev|]; by apply le_bytes_combine.
Qed.

Lemma ld32_slice buf off v :
  0 <= off -> is_u32 v -> take 4 (drop (Z.to_nat off) buf) = st_ne 4 v -> ld32 buf off = Ok v.
Proof.
  intros H0 Hv E. unfold ld32.
  assert (off + 4 <= Z.of_nat (length buf)).
  { apply (f_equal length) in E. rewrite length_st_ne, length_take, length_drop in E. lia. }
  rewrite rd_bytes_slice by lia. rewrite E. cbn [mbind res_bind]. by rewrite ld_st_ne.
Qed.

Lemma ld32_Ok buf off :
  bytes_ok buf -> 0 <= off -> off + 4 <= Z.of_nat (length buf) -> exists v, ld32 buf off = Ok v /\ is_u32 v.
Proof.
  intros Hb H0 H1. unfold ld32. destruct (rd_bytes_Ok buf off 4) as (bs & E); [lia|lia|].
  rewrite E. cbn [mbind res_bind]. eexists. split; [done|]. destruct (rd_bytes_spec _ _ _ _ Hb E) as [Hl Hok].
  pose proof (ld_ne_range bs Hok) as Hr. rewrite Hl in Hr. exact Hr.
Qed.

Lemma ld32_oob buf off : 0 <= off -> Z.of_nat (length buf) < off + 4 -> ld32 buf off = Err FOob.
Proof.
  intros H0 H1. unfold ld32. cbn [rd_bytes].
  assert (Hrd : forall k, rd8 buf k = Err FOob \/ exists b, rd8 buf k = Ok b).
  { intros k. unfold rd8. repeat case_match; eauto. }
  destruct (Hrd off) as [->|(? & ->)]; [done|]. cbn [mbind res_bind].
  destruct (Hrd (off + 1)) as [->|(? & ->)]; [done|]. cbn [mbind res_bind].
  destruct (Hrd (off + 1 + 1)) as [->|(? & ->)]; [done|]. cbn [mbind res_bind].
  by rewrite rd8_oob by lia.
Qed.

(** ** The walk over arbitrary bytes *)

(** A header of the area that ends at [last], with its payload inside it. *)
Definition well_placed (buf : list Z) (last hdr : Z) : Prop :=
  0 <= hdr /\ hdr mod 4 = 0 /\ exists len, hdr_len buf hdr = Ok len /\ 0 <= len /\ hdr + 16 + len <= last.

Lemma each_loop_safe {S} (inv : S -> Prop) (body : Z -> S -> res (S * bool)) buf last fuel i rem s :
  bytes_ok buf -> last + 12 <= Z.of_nat (length buf) ->
  (forall hdr s, inv s -> well_placed buf last hdr -> exists s' stop, body hdr s = Ok (s', stop) /\ inv s') ->
  inv s -> 0 <= rem < Z.of_nat fuel ->
  match i with None => True | Some hdr => 0 <= hdr /\ hdr mod 4 = 0 /\ hdr + rem = last end ->
  exists s' rem', each_loop fuel buf i rem body s = Ok (s', rem') /\ inv s' /\ 0 <= rem' <= rem.
Proof.
  intros Hb Hlast Hbody. revert i rem s. induction fuel as [|fuel IH]; intros i rem s Hs Hf Hi; [lia|].
  cbn [each_loop]. destruct i as [hdr|]; [|exists s, rem; split_and!; done || lia].
  destruct Hi as (H0 & Hm & He). unfold osw_tlv_ok, osw_tlv_len.
  destruct (ld32_Ok buf (hdr + 8) Hb) as (len & El & Hl); [lia|lia|]. unfold is_u32 in Hl.
  assert (Eh : hdr_len buf hdr = Ok len) by exact El. rewrite Eh. cbn [mbind res_bind]. change osw_tlv_hdr_len with 16.
  destruct (Z.leb_spec (16 + len) rem) as [Hle|]; [|exists s, rem; split_and!; done || lia].
  destruct (Hbody hdr s Hs) as (s' & stop & -> & Hs').
  { split_and!; try done. exists len. split_and!; try done; lia. }
  cbn [mbind res_bind]. destruct stop; [exists s', rem; split_and!; done || lia|].
  unfold osw_tlv_next, osw_tlv_len. rewrite Eh. cbn [mbind res_bind]. change osw_tlv_hdr_len with 16.
  rewrite (proj2 (Z.ltb_ge _ _)) by lia. pose proof (align_bounds (16 + len)). pose proof (align_mod (16 + len)).
  case_match; cbn [mbind res_bind]; zbool.
  - destruct (IH None (rem - (16 + len)) s' Hs') as (s2 & r2 & E & ? & ?); [lia|done|].
    exists s2, r2. split_and!; done || lia.
  - destruct (IH (Some (hdr + (16 + len) + (OSW_TLV_ALIGN (16 + len) - (16 + len))))
      (rem - (16 + len) - (OSW_TLV_ALIGN (16 + len) - (16 + len))) s' Hs') as (s2 & r2 & E & ? & ?); [lia|split_and!; dlia|].
    exists s2, r2. split_and!; done || lia.
Qed.

Lemma for_each_safe {S} (inv : S -> Prop) (body : Z -> S -> res (S * bool)) buf base len s :
  bytes_ok buf -> 0 <= base -> base mod 4 = 0 -> 0 <= len -> base + len + 12 <= Z.of_nat (length buf) ->
  (forall hdr s, inv s -> well_placed buf (base + len) hdr -> exists s' stop, body hdr s = Ok (s', stop) /\ inv s') ->
  inv s -> exists s' rem, osw_tlv_for_each buf (Some base) len body s = Ok (s', rem) /\ inv s' /\ 0 <= rem <= len.
Proof.
  intros Hb H0 Hm Hl Hs Hbody Hi. unfold osw_tlv_for_each, osw_tlv_ok, osw_tlv_len.
  destruct (ld32_Ok buf (base + 8) Hb) as (n & En & _); [lia|lia|].
  assert (Eh : hdr_len buf base = Ok n) by exact En. rewrite Eh. cbn [mbind res_bind].
  eapply (each_loop_safe inv); [done|exact Hs|done|done|lia|].
  destruct (_ <=? len); [by split_and!|done].
Qed.

(** What the table entry [i] refers to after a parse. *)
Definition entry_ok (buf : list Z) (last : Z) (policy : option (list osw_tlv_policy)) (i : nat) (hdr : Z) : Prop :=
  well_placed buf last hdr /\ hdr_id buf hdr = Ok (Z.of_nat i) /\ osw_tlv_policy_ok buf hdr policy = Ok true.

Lemma policy_ok_total buf last hdr ps id :
  bytes_ok buf -> well_placed buf last hdr -> last <= Z.of_nat (length buf) -> hdr_id buf hdr = Ok id ->
  match ps with Some ps => (Z.to_nat id < length ps)%nat | None => True end ->
  exists b, osw_tlv_policy_ok buf hdr ps = Ok b.
Proof.
  intros Hb (H0 & _ & len & Hlen & ? & ?) Hl Hid Hps. unfold osw_tlv_policy_ok. destruct ps as [ps|]; [|by eexists].
  rewrite Hid. cbn [mbind res_bind]. destruct (lookup_lt_is_Some_2 ps (Z.to_nat id) Hps) as [pol ->].
  destruct (ld32_Ok buf (hdr + 4) Hb) as (ty & Ety & _); [lia|lia|]. unfold hdr_type. rewrite Ety, Hlen. cbn [mbind res_bind].
  repeat case_match; by eexists.
Qed.

(** C27: Parsing arbitrary bytes is safe when 12 bytes follow them.  Whatever the bytes,
    the walk ends, reads nothing outside the buffer, and every header it
    records lies with its payload inside the parsed area, under its own id, and
    satisfies the policy. *)
Theorem parse_any_bytes buf base len policy tb :
  bytes_ok buf -> 0 <= base -> base mod 4 = 0 -> 0 <= len -> base + len + 12 <= Z.of_nat (length buf) ->
  match policy with Some ps => (length tb <= length ps)%nat | None => True end ->
  exists tb' rem, osw_tlv_parse buf (Some base) len policy tb = Ok (tb', rem) /\ 0 <= rem <= len /\
    length tb' = length tb /\
    forall i hdr, tb' !! i = Some (Some hdr) -> tb !! i = Some (Some hdr) \/ entry_ok buf (base + len) policy i hdr.
Proof.
  intros Hb H0 Hm Hl Hs Hp. unfold osw_tlv_parse.
  edestruct (for_each_safe (fun tb' => length tb' = length tb /\ forall i hdr, tb' !! i = Some (Some hdr) ->
    tb !! i = Some (Some hdr) \/ entry_ok buf (base + len) policy i hdr)) as (tb' & rem & E & (Hlen & Hent) & Hr);
    [exact Hb|exact H0|exact Hm|exact Hl|exact Hs| | |exists tb', rem; split_and!; done || lia].
  2:{ split; [done|]. by left. }
  intros hdr tb1 (Hlen & Hent) Hw. pose proof Hw as (Hh & _ & n & _ & Hn0 & Hn).
  destruct (ld32_Ok buf hdr Hb) as (id & Eid & Hid); [lia|lia|].
  assert (Ei : hdr_id buf hdr = Ok id) by exact Eid. rewrite Ei. cbn [mbind res_bind]. unfold is_u32 in Hid.
  destruct (Z.leb_spec (Z.of_nat (length tb1)) id); [by exists tb1, false|].
  destruct (policy_ok_total buf (base + len) hdr policy id) as (b & Eb); try done; [lia|destruct policy; [lia|done]|].
  rewrite Eb. cbn [mbind res_bind]. destruct b; [|by exists tb1, false].
  eexists _, _. split; [done|]. rewrite length_insert. split; [done|]. intros i hdr'.
  destruct (decide (i = Z.to_nat id)) as [->|Hne]; [|rewrite list_lookup_insert_ne by done; by apply Hent].
  rewrite list_lookup_insert_eq by lia. intros [= <-]. right. split_and!; [done|by rewrite Z2Nat.id by lia|done].
Qed.

(** ** Items laid out in a buffer *)
Record item := mk_item { it_id : Z; it_type : Z; it_flags : Z; it_data : list Z }.
Definition item_len (it : item) : Z := Z.of_nat (length (it_data it)).
Definition item_bytes (it : item) : list Z :=
  hdr_bytes (it_id it) (it_type it) (item_len it) (it_flags it) ++ it_data it.
Definition wf_item (it : item) : Prop :=
  is_u32 (it_id it) /\ is_u32 (it_type it) /\ is_u32 (it_flags it) /\ is_u32 (item_len it) /\ bytes_ok (it_data it).
#[export] Instance wf_item_dec it : Decision (wf_item it).
Proof. unfold wf_item, is_u32. apply _. Defined.
Definition item_end (off : Z) (it : item) : Z := off + 16 + item_len it.

(** The header and the payload at [off] are those of [it]. *)
Definition item_at (buf : list Z) (off : Z) (it : item) : Prop :=
  hdr_id buf off = Ok (it_id it) /\ hdr_type buf off = Ok (it_type it) /\ hdr_len buf off = Ok (item_len it) /\
  hdr_flags buf off = Ok (it_flags it) /\ rd_bytes buf (off + 16) (length (it_data it)) = Ok (it_data it).

(** The items lie one after the other from [off] on, each aligned, and the last
    one ends at [last]. *)
Fixpoint laid (buf : list Z) (off last : Z) (items : list item) : Prop :=
  match items with
  | [] => off = last
  | it :: rest =>
      take (16 + length (it_data it)) (drop (Z.to_nat off) buf) = item_bytes it /\
      match rest with [] => item_end off it = last | _ => laid buf (OSW_TLV_ALIGN (item_end off it)) last rest end
  end.

Fixpoint offsets (off : Z) (items : list item) : list Z :=
  match items with [] => [] | it :: rest => off :: offsets (OSW_TLV_ALIGN (item_end off it)) rest end.

Lemma length_hdr_bytes id type len flags : length (hdr_bytes id type len flags) = 16%nat.
Proof. unfold hdr_bytes. by rewrite !length_app, !length_st_ne. Qed.
Lemma length_item_bytes it : length (item_bytes it) = (16 + length (it_data it))%nat.
Proof. unfold item_bytes. by rewrite length_app, length_hdr_bytes. Qed.

Lemma item_at_slice buf off it :
  0 <= off -> wf_item it -> take (16 + length (it_data it)) (drop (Z.to_nat off) buf) = item_bytes it -> item_at buf off it.
Proof.
  intros H0 (Hi & Ht & Hf & Hl & Hd) E. unfold item_bytes, hdr_bytes in E.
  set (I := st_ne 4 (it_id it)) in *. set (T := st_ne 4 (it_type it)) in *. set (L := st_ne 4 (item_len it)) in *.
  set (F := st_ne 4 (it_flags it)) in *. set (D := it_data it) in *.
  assert (HI : length I = 4%nat) by apply length_st_ne. assert (HT : length T = 4%nat) by apply length_st_ne.
  assert (HL : length L = 4%nat) by apply length_st_ne. assert (HF : length F = 4%nat) by apply length_st_ne.
  pose proof (slice_mid (16 + length D) (Z.to_nat off) buf [] I ((T ++ L ++ F) ++ D)) as E1. pose proof (slice_mid (16 + length D) (Z.to_nat off) buf I T ((L ++ F) ++ D)) as E2.
  pose proof (slice_mid (16 + length D) (Z.to_nat off) buf (I ++ T) L (F ++ D)) as E3. pose proof (slice_mid (16 + length D) (Z.to_nat off) buf (I ++ T ++ L) F D) as E4.
  pose proof (slice_mid (16 + length D) (Z.to_nat off) buf (I ++ T ++ L ++ F) D []) as E5.
  rewrite <- ?app_assoc, ?app_nil_r in *. cbn [app] in E1.
  specialize (E1 E). specialize (E2 E). specialize (E3 E). specialize (E4 E). specialize (E5 E).
  rewrite ?length_app, ?HI, ?HT, ?HL, ?HF in *. cbn [length] in E1.
  split_and!; unfold hdr_id, hdr_type, hdr_len, hdr_flags.
  - apply ld32_slice; [done|done|]. by rewrite Nat.add_0_r in E1.
  - apply ld32_slice; [lia|done|]. by replace (Z.to_nat (off + 4)) with (Z.to_nat off + 4)%nat by lia.
  - apply ld32_slice; [lia|done|]. by replace (Z.to_nat (off + 8)) with (Z.to_nat off + (4 + 4))%nat by lia.
  - apply ld32_slice; [lia|done|]. by replace (Z.to_nat (off + 12)) with (Z.to_nat off + (4 + (4 + 4)))%nat by lia.
  - rewrite rd_bytes_slice; [|lia|].
    + replace (Z.to_nat (off + 16)) with (Z.to_nat off + (4 + (4 + (4 + 4))))%nat by lia. fold D. by rewrite E5.
    + apply (f_equal length) in E. rewrite length_take, length_drop, !length_app, HI, HT, HL, HF in E. fold D. lia.
Qed.

(** Whether the walk can read the length of a header behind the last item. *)
Definition tail_room (buf : list Z) (last : Z) : bool := negb (last mod 4 =? 0) || (last + 12 <=? Z.of_nat (length buf)).

(** The effect of a loop body on the items at the given offsets. *)
Fixpoint visit {S} (body : Z -> S -> res (S * bool)) (offs : list Z) (s : S) : res (S * bool) :=
  match offs with
  | [] => Ok (s, false)
  | o :: offs => '(s, stop) ← body o s; if (stop : bool) then Ok (s, true) else visit body offs s
  end.

(** The loop visits the items in order; if no body leaves it, it then looks behind them. *)
Definition walks {S} (r : res (S * Z)) (v : res (S * bool)) (b : bool) : Prop :=
  match v with
  | Err f => r = Err f
  | Ok (s, true) => exists rem, r = Ok (s, rem)
  | Ok (s, false) => r = if b then Ok (s, 0) else Err FOob
  end.

Lemma ok_behind buf last :
  bytes_ok buf -> 0 <= last -> last mod 4 = 0 ->
  osw_tlv_ok buf (Some last) 0 = if tail_room buf last then Ok false else Err FOob.
Proof.
  intros Hb H0 Hm. unfold osw_tlv_ok, osw_tlv_len, hdr_len, tail_room. rewrite Hm. cbn [negb orb Z.eqb].
  destruct (Z.leb_spec (last + 12) (Z.of_nat (length buf))).
  - destruct (ld32_Ok buf (last + 8) Hb) as (v & -> & Hv); [lia|lia|]. unfold is_u32 in Hv. cbn [mbind res_bind].
    change osw_tlv_hdr_len with 16. by rewrite (proj2 (Z.leb_gt _ _)) by lia.
  - by rewrite ld32_oob by lia.
Qed.

Lemma each_loop_behind {S} (body : Z -> S -> res (S * bool)) buf last fuel s :
  bytes_ok buf -> 0 <= last -> last mod 4 = 0 -> (0 < fuel)%nat ->
  each_loop fuel buf (Some last) 0 body s = if tail_room buf last then Ok (s, 0) else Err FOob.
Proof.
  intros Hb H0 Hm Hf. destruct fuel; [lia|]. cbn [each_loop]. rewrite ok_behind by done. by case_match.
Qed.

Lemma laid_last_le buf off last items : laid buf off last items -> off <= last.
Proof.
  revert off. induction items as [|it rest IH]; intros off; cbn; [lia|]. intros (_ & H).
  assert (off <= item_end off it) by (unfold item_end, item_len; lia).
  destruct rest; [lia|]. apply IH in H. pose proof (align_bounds (item_end off it)). lia.
Qed.

Lemma each_loop_laid {S} (body : Z -> S -> res (S * bool)) buf last items fuel off s :
  bytes_ok buf -> Forall wf_item items -> 0 <= off -> off mod 4 = 0 -> laid buf off last items ->
  (length items < fuel)%nat ->
  walks (each_loop fuel buf (Some off) (last - off) body s) (visit body (offsets off items) s) (tail_room buf last).
Proof.
  intros Hb Hw. revert fuel off s. induction Hw as [|it rest Hit Hw IH]; intros fuel off s H0 Hm Hlaid Hf.
  { cbn in Hlaid. subst. rewrite Z.sub_diag. cbn [offsets visit walks]. by apply each_loop_behind. }
  destruct fuel as [|fuel]; [cbn in Hf; lia|]. cbn [offsets visit each_loop length] in *. cbn [laid] in Hlaid.
  destruct Hlaid as (Hs & Hr). destruct (item_at_slice _ _ _ H0 Hit Hs) as (_ & _ & El & _ & _).
  assert (Hl : 0 <= item_len it) by (unfold item_len; lia).
  assert (He : off + 16 + item_len it <= last).
  { unfold item_end in *. destruct rest; [lia|]. apply laid_last_le in Hr. pose proof (align_bounds (off + 16 + item_len it)). lia. }
  unfold osw_tlv_ok, osw_tlv_len. rewrite El. cbn [mbind res_bind]. change osw_tlv_hdr_len with 16.
  rewrite (proj2 (Z.leb_le _ _)) by lia.
  destruct (body off s) as [[s' stop]|f]; [|done]. cbn [mbind res_bind]. destruct stop; [by eexists|].
  unfold osw_tlv_next, osw_tlv_len. rewrite El. cbn [mbind res_bind]. change osw_tlv_hdr_len with 16.
  rewrite (proj2 (Z.ltb_ge _ _)) by lia. pose proof (align_bounds (16 + item_len it)). pose proof (align_mod (16 + item_len it)).
  assert (Ea : OSW_TLV_ALIGN (item_end off it) = off + OSW_TLV_ALIGN (16 + item_len it)).
  { unfold item_end. rewrite <- Z.add_assoc. by apply align_add. }
  destruct rest as [|it2 rest].
  - unfold item_end in Hr. cbn [offsets visit walks]. destruct (Z.ltb_spec (last - off - (16 + item_len it)) (OSW_TLV_ALIGN (16 + item_len it) - (16 + item_len it))).
    + cbn [mbind res_bind]. destruct fuel; [cbn in Hf; lia|]. cbn. unfold tail_room. rewrite (proj2 (Z.eqb_neq _ _)) by dlia. cbn. repeat f_equal. lia.
    + cbn [mbind res_bind]. replace (off + (16 + item_len it) + (OSW_TLV_ALIGN (16 + item_len it) - (16 + item_len it))) with last by lia.
      replace (last - off - (16 + item_len it) - (OSW_TLV_ALIGN (16 + item_len it) - (16 + item_len it))) with 0 by lia.
      apply each_loop_behind; [done|lia|dlia|]. cbn in Hf. lia.
  - rewrite Ea in *. pose proof (laid_last_le _ _ _ _ Hr). rewrite (proj2 (Z.ltb_ge _ _)) by lia. cbn [mbind res_bind].
    replace (off + (16 + item_len it) + (OSW_TLV_ALIGN (16 + item_len it) - (16 + item_len it)))
      with (off + OSW_TLV_ALIGN (16 + item_len it)) by lia.
    replace (last - off - (16 + item_len it) - (OSW_TLV_ALIGN (16 + item_len it) - (16 + item_len it)))
      with (last - (off + OSW_TLV_ALIGN (16 + item_len it))) by lia.
    apply IH; [lia|dlia|done|]. lia.
Qed.

Lemma laid_length buf off last items :
  0 <= off -> laid buf off last items -> off <= Z.of_nat (length buf) -> off + Z.of_nat (length items) <= Z.of_nat (length buf).
Proof.
  revert off. induction items as [|it rest IH]; intros off H0 Hl Ho; cbn [length]; [lia|]. cbn [laid] in Hl. destruct Hl as (Hs & Hr).
  apply (f_equal length) in Hs. rewrite length_item_bytes, length_take, length_drop in Hs.
  assert (off + 16 + item_len it <= Z.of_nat (length buf)) by (unfold item_len; lia).
  destruct rest as [|it2 rest]; [cbn; unfold item_len in *; lia|].
  pose proof (align_bounds (item_end off it)) as Ha. unfold item_end in *.
  assert (Hb : OSW_TLV_ALIGN (off + 16 + item_len it) <= Z.of_nat (length buf)).
  { cbn [laid] in Hr. destruct Hr as (Hs2 & _). apply (f_equal length) in Hs2. rewrite length_item_bytes, length_take, length_drop in Hs2. lia. }
  assert (0 <= item_len it) by (unfold item_len; lia). cbn [length] in IH |- *. specialize (IH (OSW_TLV_ALIGN (off + 16 + item_len it)) ltac:(lia) Hr Hb). lia.
Qed.

Lemma for_each_laid {S} (body : Z -> S -> res (S * bool)) buf last items off s :
  bytes_ok buf -> Forall wf_item items -> 0 <= off <= Z.of_nat (length buf) -> off mod 4 = 0 -> laid buf off last items ->
  walks (osw_tlv_for_each buf (Some off) (last - off) body s) (visit body (offsets off items) s) (tail_room buf last).
Proof.
  intros Hb Hw H0 Hm Hl. unfold osw_tlv_for_each. pose proof (laid_length _ _ _ _ (proj1 H0) Hl (proj2 H0)) as Hn.
  assert (Hgo : walks (each_loop (2 + length buf) buf (Some off) (last - off) body s) (visit body (offsets off items) s) (tail_room buf last))
    by (apply each_loop_laid; [done|done|lia|done|done|lia]).
  destruct items as [|it rest].
  - cbn in Hl. subst last. rewrite Z.sub_diag, ok_behind by (done || lia). cbn [offsets visit walks] in *. by destruct (tail_room buf off).
  - cbn [laid] in Hl. destruct Hl as (Hs & Hr). assert (Hit : wf_item it) by (by apply Forall_cons_1 in Hw as [? _]).
    destruct (item_at_slice _ _ _ (proj1 H0) Hit Hs) as (_ & _ & El & _ & _).
    unfold osw_tlv_ok, osw_tlv_len. rewrite El. cbn [mbind res_bind]. change osw_tlv_hdr_len with 16.
    rewrite (proj2 (Z.leb_le _ _)); [done|]. unfold item_end in Hr. destruct rest; [lia|].
    apply laid_last_le in Hr. pose proof (align_bounds (off + 16 + item_len it)). lia.
Qed.

(** The items together with where they lie. *)
Definition placed (buf : list Z) (offs : list Z) (items : list item) : Prop := Forall2 (item_at buf) offs items.

Lemma laid_placed buf off last items :
  Forall wf_item items -> 0 <= off -> laid buf off last items -> placed buf (offsets off items) items.
Proof.
  intros Hw. revert off. induction Hw as [|it rest Hit Hw IH]; intros off H0 Hl; [constructor|].
  cbn [laid] in Hl. destruct Hl as (Hs & Hr). cbn [offsets]. constructor; [by apply item_at_slice|].
  destruct rest; [constructor|]. apply IH; [|done]. pose proof (align_bounds (item_end off it)). unfold item_end, item_len in *. lia.
Qed.

(** What [osw_tlv_find] returns for the items of a buffer. *)
Definition find_spec (buf : list Z) (last id : Z) (items : list item) (r : res (option Z)) : Prop :=
  (exists l1 it l2 hdr, items = l1 ++ it :: l2 /\ Forall (fun i => it_id i <> id) l1 /\ it_id it = id /\
     item_at buf hdr it /\ r = Ok (Some hdr)) \/
  (Forall (fun i => it_id i <> id) items /\ r = if tail_room buf last then Ok None else Err FOob).

Lemma visit_find buf id offs items :
  placed buf offs items ->
  let v := visit (fun hdr _ => i ← hdr_id buf hdr; if i =? id then Ok (Some hdr, true) else Ok (None, false)) offs None in
  (exists l1 it l2 hdr, items = l1 ++ it :: l2 /\ Forall (fun i => it_id i <> id) l1 /\ it_id it = id /\
     item_at buf hdr it /\ v = Ok (Some hdr, true)) \/
  (Forall (fun i => it_id i <> id) items /\ v = Ok (None, false)).
Proof.
  induction 1 as [|o it offs items Ho _ IH]; cbn [visit]; [by right|].
  destruct Ho as (Hid & Ho). rewrite Hid. cbn [mbind res_bind]. destruct (Z.eqb_spec (it_id it) id) as [E|E]; cbn [mbind res_bind].
  - left. exists [], it, items, o. by split_and!.
  - destruct IH as [(l1 & it' & l2 & hdr & -> & Hl & ? & ? & ?)|(Hl & ?)].
    + left. exists (it :: l1), it', l2, hdr. split_and!; try done. by constructor.
    + right. split; [by constructor|done].
Qed.

Lemma find_laid buf off last items id :
  bytes_ok buf -> Forall wf_item items -> 0 <= off <= Z.of_nat (length buf) -> off mod 4 = 0 -> laid buf off last items ->
  find_spec buf last id items (osw_tlv_find buf (Some off) (last - off) id).
Proof.
  intros Hb Hw H0 Hm Hl. unfold osw_tlv_find.
  pose proof (for_each_laid (fun hdr (_ : option Z) => i ← hdr_id buf hdr; if i =? id then Ok (Some hdr, true) else Ok (None, false))
    buf last items off None Hb Hw H0 Hm Hl) as HW.
  destruct (visit_find buf id _ _ (laid_placed _ _ _ _ Hw (proj1 H0) Hl)) as [(l1 & it & l2 & hdr & ? & ? & ? & ? & Ev)|(? & Ev)];
    rewrite Ev in HW; cbn [walks] in HW.
  - destruct HW as (rem & ->). left. by exists l1, it, l2, hdr.
  - right. rewrite HW. split; [done|]. by destruct (tail_room buf last).
Qed.

(** The item a policy lets an entry of the table hold: the last one accepted. *)
Definition accepts (policy : option (list osw_tlv_policy)) (it : item) : bool :=
  match policy with
  | None => true
  | Some ps =>
      match ps !! Z.to_nat (it_id it) with
      | None => false
      | Some pol =>
          (it_type it =? tpol_type pol) &&
          (if (it_type it =? OSW_TLV_HWADDR) || (it_type it =? OSW_TLV_U32) || (it_type it =? OSW_TLV_FLOAT)
           then item_len it =? type_size (it_type it)
           else if (it_type it =? OSW_TLV_STRING) || (it_type it =? OSW_TLV_UNSPEC)
           then (tpol_min_len pol <=? item_len it) && ((tpol_max_len pol =? 0) || (item_len it <=? tpol_max_len pol))
           else it_type it =? OSW_TLV_NESTED)
      end
  end.
Fixpoint slots (policy : option (list osw_tlv_policy)) (items : list item) (i k : nat) (acc : option nat) : option nat :=
  match items with
  | [] => acc
  | it :: rest => slots policy rest i (S k) (if (it_id it =? Z.of_nat i) && accepts policy it then Some k else acc)
  end.
(** Its position among the items, and the item. *)
Definition slot_of (policy : option (list osw_tlv_policy)) (items : list item) (i : nat) : option nat := slots policy items i 0 None.
Definition table_of (policy : option (list osw_tlv_policy)) (items : list item) (i : nat) : option item :=
  k ← slot_of policy items i; items !! k.

Lemma policy_ok_item buf hdr it policy :
  item_at buf hdr it -> match policy with Some ps => (Z.to_nat (it_id it) < length ps)%nat | None => True end ->
  osw_tlv_policy_ok buf hdr policy = Ok (accepts policy it).
Proof.
  intros (Hid & Ht & Hl & _) Hp. unfold osw_tlv_policy_ok, accepts. destruct policy as [ps|]; [|done]. rewrite Hid. cbn [mbind res_bind].
  destruct (lookup_lt_is_Some_2 _ _ Hp) as [pol ->]. rewrite Ht, Hl. cbn [mbind res_bind].
  destruct (it_type it =? tpol_type pol); [|done]. cbn [negb andb].
  destruct (_ || _ || _); [done|]. destruct (_ || _); [done|]. by destruct (_ =? _).
Qed.

Lemma visit_parse buf policy n offs items pre k tb acc :
  placed buf offs items -> Forall wf_item items -> length pre = k -> length tb = n ->
  match policy with Some ps => (n <= length ps)%nat | None => True end ->
  (forall i, (i < n)%nat -> tb !! i = Some (acc i ≫= fun k => pre !! k)) -> (forall i j, acc i = Some j -> (j < k)%nat) ->
  exists tb', visit (fun hdr tb => id ← hdr_id buf hdr; if Z.of_nat (length tb) <=? id then Ok (tb, false) else
      ok ← osw_tlv_policy_ok buf hdr policy; if (ok : bool) then Ok (<[Z.to_nat id := Some hdr]> tb, false) else Ok (tb, false)) offs tb
    = Ok (tb', false) /\ length tb' = n /\
    forall i, (i < n)%nat -> tb' !! i = Some (slots policy items i k (acc i) ≫= fun k => (pre ++ offs) !! k).
Proof.
  intros Hp. revert pre k tb acc. induction Hp as [|o it offs items Ho _ IH]; intros pre k tb acc Hw Hk Hn Hpol Htb Hacc.
  { exists tb. split_and!; try done. intros i Hi. rewrite app_nil_r. by apply Htb. }
  apply Forall_cons_1 in Hw as [Hit Hw]. pose proof Ho as (Hid & _). cbn [visit]. rewrite Hid. cbn [mbind res_bind].
  assert (Hid0 : 0 <= it_id it) by apply Hit. rewrite Hn.
  set (acc' := fun i => if (it_id it =? Z.of_nat i) && accepts policy it then Some k else acc i).
  assert (Hpre : forall i, (pre ++ [o]) !! k = Some o) by (intros; by rewrite lookup_app_r, Hk, Nat.sub_diag by lia).
  assert (Hold : forall i, (i < n)%nat -> (acc i ≫= fun k => pre !! k) = acc i ≫= fun k => (pre ++ [o]) !! k).
  { intros i Hi. destruct (acc i) as [j|] eqn:E; [|done]. cbn. apply Hacc in E. by rewrite lookup_app_l by lia. }
  assert (Hstep : forall tb1, length tb1 = n -> (forall i, (i < n)%nat -> tb1 !! i = Some (acc' i ≫= fun k => (pre ++ [o]) !! k)) ->
    exists tb', visit (fun hdr tb => id ← hdr_id buf hdr; if Z.of_nat (length tb) <=? id then Ok (tb, false) else
      ok ← osw_tlv_policy_ok buf hdr policy; if (ok : bool) then Ok (<[Z.to_nat id := Some hdr]> tb, false) else Ok (tb, false)) offs tb1
    = Ok (tb', false) /\ length tb' = n /\
    forall i, (i < n)%nat -> tb' !! i = Some (slots policy (it :: items) i k (acc i) ≫= fun k => (pre ++ o :: offs) !! k)).
  { intros tb1 Hn1 Htb1. destruct (IH (pre ++ [o]) (S k) tb1 acc') as (tb' & ? & ? & Htb'); try done.
    - rewrite length_app. cbn. lia.
    - intros i j. unfold acc'. destruct (_ && _); intros H'; [injection H' as <-; lia|]. apply Hacc in H'. lia.
    - exists tb'. split_and!; try done. intros i Hi. rewrite Htb' by done. cbn [slots]. by rewrite <- app_assoc. }
  destruct (Z.leb_spec (Z.of_nat n) (it_id it)) as [Hbig|Hsmall].
  - cbn [mbind res_bind]. apply Hstep; [done|]. intros i Hi. rewrite Htb, Hold by done. unfold acc'.
    rewrite (proj2 (Z.eqb_neq _ _)) by lia. done.
  - rewrite (policy_ok_item _ _ it) by (done || destruct policy; lia || done). cbn [mbind res_bind]. destruct (accepts policy it) eqn:Ea; cbn [mbind res_bind].
    + apply Hstep; [by rewrite length_insert|]. intros i Hi. unfold acc'. rewrite andb_true_r.
      destruct (Z.eqb_spec (it_id it) (Z.of_nat i)) as [E|E].
      * replace (Z.to_nat (it_id it)) with i by lia. rewrite list_lookup_insert_eq by lia. cbn. by rewrite Hpre.
      * rewrite list_lookup_insert_ne by lia. by rewrite Htb, Hold by done.
    + apply Hstep; [done|]. intros i Hi. unfold acc'. rewrite andb_false_r. by rewrite Htb, Hold by done.
Qed.

(** The table a parse of the items fills. *)
Definition table (policy : option (list osw_tlv_policy)) (off : Z) (items : list item) (n : nat) : list (option Z) :=
  (fun i => slot_of policy items i ≫= fun k => offsets off items !! k) <$> seq 0 n.

Lemma parse_laid buf off last items policy n :
  bytes_ok buf -> Forall wf_item items -> 0 <= off <= Z.of_nat (length buf) -> off mod 4 = 0 -> laid buf off last items ->
  match policy with Some ps => (n <= length ps)%nat | None => True end ->
  osw_tlv_parse buf (Some off) (last - off) policy (replicate n None) =
    if tail_room buf last then Ok (table policy off items n, 0) else Err FOob.
Proof.
  intros Hb Hw H0 Hm Hl Hp. unfold osw_tlv_parse.
  match goal with |- osw_tlv_for_each _ _ _ ?b ?s = _ => pose proof (for_each_laid b buf last items off s Hb Hw H0 Hm Hl) as HW end.
  destruct (visit_parse buf policy n (offsets off items) items [] 0 (replicate n None) (fun _ => None)) as (tb' & Ev & Hn & Htb);
    [by eapply laid_placed; [|lia|]|done|done|by rewrite length_replicate|done| | |].
  - intros i Hi. by rewrite lookup_replicate_2.
  - done.
  - rewrite Ev in HW. cbn [walks] in HW. rewrite HW. destruct (tail_room buf last); [|done]. do 2 f_equal.
    apply list_eq. intros i. unfold table. destruct (decide (i < n)%nat) as [Hi|Hi].
    + rewrite Htb by done. cbn [app]. rewrite list_lookup_fmap, lookup_seq_lt by done. done.
    + rewrite !lookup_ge_None_2; rewrite ?length_fmap, ?length_seq; [done|lia|lia].
Qed.

(** ** Writing items *)
Lemma le_bytes_ok n v : bytes_ok (le_out n v).
Proof.
  revert v. induction n as [|n IH]; intros v; [constructor|]. cbn [le_out]. constructor; [|apply IH].
  apply Z.mod_pos_bound. lia.
Qed.
Lemma st_ne_ok n v : bytes_ok (st_ne n v).
Proof. unfold st_ne. destruct host_big; [apply Forall_rev|]; apply le_bytes_ok. Qed.
Lemma hdr_bytes_ok id type len flags : bytes_ok (hdr_bytes id type len flags).
Proof. unfold hdr_bytes, bytes_ok. rewrite !Forall_app. split_and!; apply st_ne_ok. Qed.

Lemma laid_agree buf buf' off last items :
  take (Z.to_nat last) buf = take (Z.to_nat last) buf' -> 0 <= off -> laid buf off last items -> laid buf' off last items.
Proof.
  intros E. revert off. induction items as [|it rest IH]; intros off H0 Hl; [done|].
  pose proof (laid_last_le _ _ _ _ Hl) as Hle. cbn [laid] in *. destruct Hl as (Hs & Hr).
  assert (He : item_end off it <= last).
  { destruct rest; [lia|]. apply laid_last_le in Hr. pose proof (align_bounds (item_end off it)). lia. }
  unfold item_end, item_len in He. split.
  - rewrite (slice_take _ _ (Z.to_nat last)) by lia. rewrite <- E, <- slice_take by lia. done.
  - destruct rest; [done|]. apply IH; [|done]. pose proof (align_bounds (item_end off it)). unfold item_end, item_len in *. lia.
Qed.

Lemma laid_snoc buf off last items it :
  0 <= off -> off mod 4 = 0 -> laid buf off last items ->
  take (16 + length (it_data it)) (drop (Z.to_nat (OSW_TLV_ALIGN last)) buf) = item_bytes it ->
  laid buf off (item_end (OSW_TLV_ALIGN last) it) (items ++ [it]).
Proof.
  revert off. induction items as [|it0 rest IH]; intros off H0 Hm Hl Hs.
  { cbn in Hl. subst. cbn. by rewrite align_id in * by done. }
  cbn [laid app] in *. destruct Hl as (Hs0 & Hr). split; [done|].
  pose proof (align_bounds (item_end off it0)). pose proof (align_mod (item_end off it0)).
  destruct rest as [|it1 rest]; cbn [app]; [subst last; by split|].
  apply IH; [|done|done|done]. unfold item_end, item_len in *. lia.
Qed.

(** A buffer that holds the items. *)
Definition tlv_rep (t : osw_tlv) (items : list item) : Prop :=
  Forall wf_item items /\ t_size t < 2 ^ 62 /\ t_size t mod 4 = 0 /\ t_used t <= t_size t /\
  laid (bytes_of (t_data t)) 0 (t_used t) items /\ bytes_ok (bytes_of (t_data t)) /\
  t_size t = Z.of_nat (length (bytes_of (t_data t))).

Definition needs (it : item) : Z := 16 + item_len it.
Definition item_fits (t : osw_tlv) (it : item) : bool := needs it <=? t_size t - OSW_TLV_ALIGN (t_used t).

Lemma rep_used t items : tlv_rep t items -> 0 <= t_used t /\ OSW_TLV_ALIGN (t_used t) <= t_size t.
Proof.
  intros (_ & _ & Hm & Hu & Hl & _ & _). apply laid_last_le in Hl. rewrite align_eq. split; [done|]. dlia.
Qed.

Lemma grow_ok t items it :
  tlv_rep t items -> wf_item it -> t_size t + item_len it + 8192 < 2 ^ 62 ->
  let t1 := osw_tlv_grow t (osw_tlv_hdr_len + item_len it) in
  tlv_rep t1 items /\ t_used t1 = t_used t /\ OSW_TLV_ALIGN (t_used t) + needs it <= t_size t1 /\ is_Some (t_data t1) /\
  t_block t1 = (if item_fits t it then t_block t else S (t_block t)) /\
  t_size t1 = (if item_fits t it then t_size t else t_size t + OSW_TLV_ALIGN (needs it + OSW_TLV_TAILROOM)).
Proof.
  intros Hrep Hit Hbig. pose proof (rep_used _ _ Hrep) as [Hu0 Hua]. pose proof Hrep as (Hw & _ & Hm & Hu & Hl & Hb & Hlen).
  cbn zeta. unfold osw_tlv_grow. change osw_tlv_hdr_len with 16. fold (needs it).
  pose proof (align_bounds (t_used t)) as Ha. assert (Hn : 0 <= item_len it) by (unfold item_len; lia).
  unfold size_t. rewrite u64_id by (unfold is_u64; lia). fold (item_fits t it).
  destruct (item_fits t it) eqn:Ef; unfold item_fits in Ef; zbool.
  - split_and!; try done; [lia|]. destruct (t_data t); [by eexists|]. cbn in *. unfold needs in *. lia.
  - set (ns := t_size t + OSW_TLV_ALIGN (needs it + OSW_TLV_TAILROOM)). cbn [t_data t_size t_used t_block].
    pose proof (align_bounds (needs it + OSW_TLV_TAILROOM)) as Hb1. pose proof (align_mod (needs it + OSW_TLV_TAILROOM)) as Hm1.
    unfold OSW_TLV_TAILROOM, needs in *. split_and!; try done || lia.
    unfold tlv_rep. cbn [t_data t_size t_used t_block bytes_of]. split_and!; try done.
    + lia.
    + unfold ns. dlia.
    + lia.
    + eapply laid_agree; [|done|exact Hl]. symmetry. apply take_app_le. lia.
    + apply Forall_app. split; [done|]. apply Forall_replicate. unfold is_u8. lia.
    + rewrite length_app, length_replicate. lia.
Qed.

(** Putting an item appends it, where the buffer ended. *)
Lemma put_data_ok t items id type x :
  tlv_rep t items -> let it := mk_item id type 0 x in wf_item it -> t_size t + item_len it + 8192 < 2 ^ 62 ->
  exists t', osw_tlv_put_data t id type x = Ok (t', OSW_TLV_ALIGN (t_used t) + 16) /\ tlv_rep t' (items ++ [it]) /\
    t_used t' = item_end (OSW_TLV_ALIGN (t_used t)) it /\
    t_block t' = (if item_fits t it then t_block t else S (t_block t)) /\
    t_size t' = (if item_fits t it then t_size t else t_size t + OSW_TLV_ALIGN (needs it + OSW_TLV_TAILROOM)).
Proof.
  intros Hrep it Hit Hbig. destruct (grow_ok t items it Hrep Hit Hbig) as (Hrep1 & Hu1 & Hs1 & [buf Hbuf] & Hblk & Hsz).
  unfold osw_tlv_put_data, osw_tlv_put, osw_tlv_reserve. fold (item_len it).
  change (Z.of_nat (length x)) with (item_len it). set (t1 := osw_tlv_grow t (osw_tlv_hdr_len + item_len it)) in *.
  rewrite Hu1. set (au := OSW_TLV_ALIGN (t_used t)) in *. rewrite u32_id by apply Hit.
  destruct Hrep1 as (Hw & Hs62 & Hm & Hu & Hl & Hb & Hlen). rewrite Hbuf in *. cbn [bytes_of] in *.
  assert (H0 : 0 <= au) by (pose proof (rep_used _ _ Hrep); pose proof (align_bounds (t_used t)); lia).
  assert (Hau : au mod 4 = 0) by apply align_mod. unfold needs in Hs1.
  assert (Hlx : item_len it = Z.of_nat (length x)) by done.
  destruct (wr_bytes_ok buf au (hdr_bytes id type (item_len it) 0)) as (b1 & E1 & L1 & B1 & T1 & S1 & D1);
    [done|rewrite length_hdr_bytes; lia|done|apply hdr_bytes_ok|].
  rewrite length_hdr_bytes in *.
  destruct (wr_bytes_ok b1 (au + 16) x) as (b2 & E2 & L2 & B2 & T2 & S2 & D2); [lia|lia|done|apply Hit|].
  unfold tlv_wr. cbn [t_data t_block t_size t_used bytes_of]. rewrite E1. cbn [mbind res_bind].
  unfold osw_tlv_get_data. rewrite ptr_aligned_ok by done. cbn [mbind res_bind]. change (OSW_TLV_ALIGN 16) with 16.
  cbn [t_data t_block t_size t_used bytes_of]. rewrite E2. cbn [mbind res_bind]. eexists. split; [done|].
  cbn [t_data t_block t_size t_used bytes_of]. split_and!; [|by rewrite Z.add_assoc|done|done].
  assert (Hn : Z.to_nat (au + 16) = (Z.to_nat au + 16)%nat) by lia. rewrite Hn in *.
  assert (Hta : take (Z.to_nat au) b2 = take (Z.to_nat au) buf).
  { rewrite <- T1. rewrite <- (Nat.min_l (Z.to_nat au) (Z.to_nat au + 16)) by lia. by rewrite <- !take_take, T2. }
  unfold tlv_rep. cbn [t_data t_block t_size t_used bytes_of]. split_and!; try done.
  - apply Forall_app. by split; [|constructor].
  - change osw_tlv_hdr_len with 16. replace (au + (16 + item_len it)) with (item_end au it) by (unfold item_end; lia).
    apply laid_snoc; [done|done| |].
    + rewrite Hu1 in Hl. eapply laid_agree; [|done|exact Hl]. symmetry. pose proof (align_bounds (t_used t)) as Hab. fold au in Hab.
      rewrite <- (Nat.min_l (Z.to_nat (t_used t)) (Z.to_nat au)) by lia. by rewrite <- !take_take, Hta.
    + fold au. cbn [it_data it]. unfold item_bytes. apply slice_app; [|apply length_hdr_bytes|exact S2].
      rewrite (slice_take _ _ (Z.to_nat au + 16)) by lia. rewrite T2, <- slice_take by lia. exact S1.
  - by rewrite L2, L1.
Qed.

(** ** Round trip *)
Fixpoint puts (t : osw_tlv) (items : list item) : res osw_tlv :=
  match items with
  | [] => Ok t
  | it :: items => '(t, _) ← osw_tlv_put_data t (it_id it) (it_type it) (it_data it); puts t items
  end.

(** Bounds on what the items can make the buffer occupy. *)
Definition volume (items : list item) : Z := foldr (fun it v => item_len it + 8192 + v) 0 items.
Definition padded (items : list item) : Z := foldr (fun it v => OSW_TLV_ALIGN (needs it) + v) 0 items.

Lemma volume_nonneg l : 0 <= volume l.
Proof. induction l as [|it l IH]; cbn [volume foldr]; [lia|]. fold (volume l). unfold item_len. lia. Qed.

Lemma tlv_rep_zero : tlv_rep tlv_zero [].
Proof. unfold tlv_rep. cbn. split_and!; done || constructor. Qed.

Lemma puts_ok t items new :
  tlv_rep t items -> Forall wf_item new -> Forall (fun it => it_flags it = 0) new -> t_size t + volume new < 2 ^ 62 ->
  exists t', puts t new = Ok t' /\ tlv_rep t' (items ++ new) /\ t_size t <= t_size t' <= t_size t + volume new /\
    t_used t' <= OSW_TLV_ALIGN (t_used t) + padded new /\ (new <> [] -> is_Some (t_data t') /\ (t_data t = None -> 4112 <= t_size t')).
Proof.
  intros Hrep Hw Hf. revert t items Hrep. induction Hw as [|it new Hit Hw IH]; intros t items Hrep Hv.
  { exists t. rewrite app_nil_r. cbn. pose proof (align_bounds (t_used t)). split_and!; done || lia. }
  apply Forall_cons_1 in Hf as [Hf0 Hf]. cbn [puts volume foldr padded] in *. fold (volume new) in Hv. fold (padded new).
  pose proof (volume_nonneg new) as Hvol.
  destruct it as [id type fl x]. cbn in Hf0. subst fl. cbn [it_id it_type it_data].
  destruct (put_data_ok t items id type x Hrep Hit) as (t1 & -> & Hrep1 & Hu1 & _ & Hs1); [lia|]. cbn [mbind res_bind].
  set (it := mk_item id type 0 x) in *. assert (Hl : 0 <= item_len it) by (unfold item_len; lia).
  pose proof (align_bounds (needs it + OSW_TLV_TAILROOM)) as Ha. pose proof (align_bounds (needs it)) as Ha2.
  pose proof (align_mod (t_used t)) as Hm. unfold OSW_TLV_TAILROOM, needs in *.
  assert (Hgrow : t_size t <= t_size t1 <= t_size t + item_len it + 8192) by (rewrite Hs1; destruct (item_fits t it); lia).
  destruct (IH Hf t1 _ Hrep1) as (t' & -> & Hrep' & Hle & Hu' & Hd); [lia|].
  rewrite <- app_assoc in Hrep'. exists t'. cbn [volume foldr]. fold (volume new). split_and!; try done; try lia.
  - rewrite Hu1 in Hu'. unfold item_end in Hu'. rewrite <- Z.add_assoc, align_add in Hu' by done. lia.
  - intros _. assert (Hd1 : is_Some (t_data t1)).
    { destruct Hrep1 as (_ & _ & _ & Hu & _ & _ & Hsz). unfold item_end in Hu1.
      pose proof (rep_used _ _ Hrep). pose proof (align_bounds (t_used t)). destruct (t_data t1); [by eexists|]. cbn in Hsz. lia. }
    assert (H4 : t_data t = None -> 4112 <= t_size t1).
    { intros Hn. rewrite Hs1. pose proof Hrep as (_ & _ & _ & Hu & _ & _ & Hsz). rewrite Hn in Hsz. cbn in Hsz.
      pose proof (align_bounds (t_used t)). pose proof (rep_used _ _ Hrep). unfold item_fits, needs.
      rewrite (proj2 (Z.leb_gt _ _)) by lia. lia. }
    split; [|intros Hn; specialize (H4 Hn); lia]. destruct new; [cbn in *|by apply Hd].
    destruct Hrep' as (_ & _ & _ & _ & _ & _ & Hsz). destruct (t_data t'); [by eexists|]. cbn in Hsz.
    destruct Hrep1 as (_ & _ & _ & Hu & _). unfold item_end in Hu1. pose proof (rep_used _ _ Hrep). pose proof (align_bounds (t_used t)). lia.
Qed.

(** What [osw_tlv_parse] makes of the items of a buffer. *)
Definition parse_spec (buf : list Z) (last : Z) (policy : option (list osw_tlv_policy)) (n : nat) (items : list item)
    (r : res (list (option Z) * Z)) : Prop :=
  exists tb, r = (if tail_room buf last then Ok (tb, 0) else Err FOob) /\ length tb = n /\
    forall i, (i < n)%nat -> match table_of policy items i with
      | Some it => exists hdr, tb !! i = Some (Some hdr) /\ item_at buf hdr it
      | None => tb !! i = Some None
      end.

Lemma slots_lt policy items i k acc j :
  (forall j, acc = Some j -> (j < k)%nat) -> slots policy items i k acc = Some j -> (j < k + length items)%nat.
Proof.
  revert k acc. induction items as [|it items IH]; intros k acc Ha E; cbn in *; [apply Ha in E; lia|].
  apply IH in E; [lia|]. intros j'. destruct (_ && _); intros H; [injection H as <-; lia|]. apply Ha in H. lia.
Qed.

Lemma table_lookup buf policy items n i :
  placed buf (offsets 0 items) items -> (i < n)%nat ->
  match table_of policy items i with
  | Some it => exists hdr, table policy 0 items n !! i = Some (Some hdr) /\ item_at buf hdr it
  | None => table policy 0 items n !! i = Some None
  end.
Proof.
  intros Hp Hi. unfold table, table_of. rewrite list_lookup_fmap, lookup_seq_lt by done. cbn.
  destruct (slot_of policy items i) as [k|] eqn:Ek; [|done]. cbn.
  apply slots_lt in Ek; [|done]. destruct (lookup_lt_is_Some_2 items k) as [it Hit]; [lia|]. rewrite Hit.
  destruct (Forall2_lookup_r _ _ _ _ _ Hp Hit) as (hdr & -> & Hat). by exists hdr.
Qed.

(** C26: Items put into an empty buffer are found and parsed back.  For one or more
    items without flags, with payloads of 32-bit lengths and less than 2^62 bytes
    in all, [osw_tlv_find] gives the first item with the id and [osw_tlv_parse] (with
    a table no longer than its policy) the last acceptable one, each with the type, the flags
    and the payload it was put with.  A walk that reaches the end of the items faults
    exactly when their used length is a multiple of 4 and fewer than 12 bytes of the
    block follow it; with items that take at most 4100 bytes with their padding, 12 bytes
    follow. *)
Theorem tlv_roundtrip items :
  items <> [] -> Forall wf_item items -> Forall (fun it => it_flags it = 0) items -> volume items < 2 ^ 62 ->
  exists t, puts tlv_zero items = Ok t /\
    (forall id, find_spec (bytes_of (t_data t)) (t_used t) id items (OSW_TLV_FIND t id)) /\
    (forall policy n, match policy with Some ps => (n <= length ps)%nat | None => True end ->
       parse_spec (bytes_of (t_data t)) (t_used t) policy n items (OSW_TLV_PARSE t policy (replicate n None))) /\
    (padded items <= 4100 -> tail_room (bytes_of (t_data t)) (t_used t) = true).
Proof.
  intros Hne Hw Hf Hv. destruct (puts_ok tlv_zero [] items tlv_rep_zero Hw Hf) as (t & Et & Hrep & _ & Hu & Hd); [done|].
  exists t. split; [done|]. destruct (Hd Hne) as ([buf Hbuf] & H4). specialize (H4 eq_refl).
  destruct Hrep as (_ & _ & _ & _ & Hl & Hb & Hsz). cbn [app] in Hl. unfold OSW_TLV_FIND, OSW_TLV_PARSE, tlv_head.
  rewrite Hbuf in *. cbn [bytes_of] in *. split_and!.
  - intros id. rewrite <- (Z.sub_0_r (t_used t)) at 2. apply find_laid; done || lia.
  - intros policy n Hp. exists (table policy 0 items n). split_and!.
    + rewrite <- (Z.sub_0_r (t_used t)) at 1. apply parse_laid; done || lia.
    + unfold table. by rewrite length_fmap, length_seq.
    + intros i Hi. apply table_lookup; [|done]. by eapply laid_placed.
  - intros Hp. cbn in Hu. change (OSW_TLV_ALIGN 0) with 0 in Hu. unfold tail_room. apply orb_true_iff. right. apply Z.leb_le. lia.
Qed.

(** ** Updating an item in place *)
Definition slice_at (buf : list Z) (off : Z) (it : item) : Prop :=
  take (16 + length (it_data it)) (drop (Z.to_nat off) buf) = item_bytes it.
Fixpoint end_of (off : Z) (items : list item) : Z :=
  match items with
  | [] => off
  | it :: rest => match rest with [] => item_end off it | _ => end_of (OSW_TLV_ALIGN (item_end off it)) rest end
  end.

Lemma laid_iff buf off last items :
  laid buf off last items <-> end_of off items = last /\ Forall2 (slice_at buf) (offsets off items) items.
Proof.
  revert off. induction items as [|it rest IH]; intros off; cbn [laid end_of offsets].
  { split; [by intros ->|by intros [-> _]]. }
  rewrite Forall2_cons. unfold slice_at at 1. destruct rest as [|it2 rest]; [|rewrite IH; tauto].
  cbn [offsets]. split; [intros [? ?]; split_and!; done || constructor|tauto].
Qed.

Lemma item_len_nonneg it : 0 <= item_len it.
Proof. unfold item_len. lia. Qed.

Lemma offsets_ge off items j o : offsets off items !! j = Some o -> off <= o /\ (off mod 4 = 0 -> o mod 4 = 0).
Proof.
  revert off j. induction items as [|it rest IH]; intros off j; cbn [offsets]; [by rewrite lookup_nil|].
  destruct j as [|j]; cbn; [by intros [= <-]|]. intros H. apply IH in H as [Hge Hm].
  pose proof (align_bounds (item_end off it)). pose proof (item_len_nonneg it). unfold item_end in *.
  split; [lia|intros _]. apply Hm, align_mod.
Qed.

Lemma offsets_lt off items j j' o o' it :
  (j < j')%nat -> items !! j = Some it -> offsets off items !! j = Some o -> offsets off items !! j' = Some o' -> item_end o it <= o'.
Proof.
  revert off j j'. induction items as [|it0 rest IH]; intros off j j' Hj; cbn [offsets]; [by rewrite lookup_nil|].
  destruct j' as [|j']; [lia|]. destruct j as [|j]; cbn; [|by apply IH; lia].
  intros [= <-] [= <-] H. apply offsets_ge in H as [H _]. pose proof (align_bounds (item_end off it0)). lia.
Qed.

Lemma length_offsets off items : length (offsets off items) = length items.
Proof. revert off. induction items as [|it rest IH]; intros off; cbn; [done|]. by rewrite IH. Qed.

Definition item_upd (it : item) (x : list Z) : item := mk_item (it_id it) (it_type it) (it_flags it) x.

Lemma shape_upd off items k it x :
  items !! k = Some it -> length x = length (it_data it) ->
  offsets off (<[k := item_upd it x]> items) = offsets off items /\ end_of off (<[k := item_upd it x]> items) = end_of off items.
Proof.
  revert off k. induction items as [|it0 rest IH]; intros off k; [by rewrite lookup_nil|]. intros Hk Hx. destruct k as [|k]; cbn in Hk.
  - injection Hk as ->. cbn. unfold item_end, item_len. cbn. by rewrite Hx.
  - change (<[S k := item_upd it x]> (it0 :: rest)) with (it0 :: <[k := item_upd it x]> rest). cbn [offsets end_of]. destruct (IH (OSW_TLV_ALIGN (item_end off it0)) k Hk Hx) as [E1 E2].
    rewrite E1. split; [done|]. rewrite E2. destruct rest as [|it1 rest]; [done|]. by destruct k.
Qed.

Lemma rep_placed t items : tlv_rep t items -> placed (bytes_of (t_data t)) (offsets 0 items) items.
Proof. intros (Hw & _ & _ & _ & Hl & _). by eapply laid_placed. Qed.

Lemma offsets_bound buf last items k it o :
  laid buf 0 last items -> items !! k = Some it -> offsets 0 items !! k = Some o ->
  0 <= o /\ o mod 4 = 0 /\ item_end o it <= Z.of_nat (length buf).
Proof.
  intros Hl Hk Ho. apply laid_iff in Hl as [_ Hs]. pose proof (Forall2_lookup_lr _ _ _ _ _ _ Hs Ho Hk) as E.
  destruct (offsets_ge _ _ _ _ Ho) as [H0 Hm]. split_and!; [done|by apply Hm|].
  apply (f_equal length) in E. rewrite length_item_bytes, length_take, length_drop in E. unfold item_end, item_len. lia.
Qed.

Lemma tlv_update t items k it o x :
  tlv_rep t items -> items !! k = Some it -> offsets 0 items !! k = Some o -> length x = length (it_data it) -> bytes_ok x ->
  exists t', tlv_wr t (o + 16) x = Ok t' /\ tlv_rep t' (<[k := item_upd it x]> items) /\
    t_block t' = t_block t /\ t_size t' = t_size t /\ t_used t' = t_used t /\ (t_data t' = None <-> t_data t = None).
Proof.
  intros (Hw & H62 & Hm & Hu & Hl & Hb & Hsz) Hk Ho Hx Hbx. destruct (offsets_bound _ _ _ _ _ _ Hl Hk Ho) as (H0 & Hm4 & He).
  unfold item_end, item_len in He. destruct (wr_bytes_ok (bytes_of (t_data t)) (o + 16) x) as (b & E & L & B & T & S & D); [lia|lia|done|done|].
  unfold tlv_wr. rewrite E. cbn [mbind res_bind]. eexists. split; [done|]. cbn [t_block t_size t_used t_data].
  assert (Hd : exists buf, t_data t = Some buf).
  { destruct (t_data t); [by eexists|]. cbn in He. lia. }
  destruct Hd as [buf Hbuf]. rewrite Hbuf in *. cbn [bytes_of] in *.
  destruct (shape_upd 0 items k it x Hk Hx) as [Eo Ee]. split_and!; try done.
  split_and!; cbn [t_size t_used t_data bytes_of]; try done; [| |by rewrite L].
  - apply Forall_insert; [done|]. destruct (Forall_lookup_1 _ _ _ _ Hw Hk) as (? & ? & ? & Hlen & ?). unfold item_upd.
    split_and!; try done. unfold item_len in *. cbn. by rewrite Hx.
  - apply laid_iff. rewrite Eo, Ee. apply laid_iff in Hl as [Hend Hs]. split; [done|]. apply Forall2_same_length_lookup.
    split; [by rewrite length_insert, length_offsets|]. intros j oj itj Hoj Hitj.
    destruct (decide (j = k)) as [->|Hne].
    + rewrite list_lookup_insert_eq in Hitj by (by eapply lookup_lt_Some). injection Hitj as <-. rewrite Hoj in Ho. injection Ho as ->.
      pose proof (Forall2_lookup_lr _ _ _ _ _ _ Hs Hoj Hk) as Hsl. unfold slice_at, item_bytes in *.
      cbn [item_upd it_id it_type it_flags it_data].
      replace (item_len (item_upd it x)) with (item_len it) by (unfold item_len; cbn; by rewrite Hx).
      replace (Z.to_nat (o + 16)) with (Z.to_nat o + 16)%nat in * by lia.
      change (hdr_bytes _ _ _ _) with (hdr_bytes (it_id it) (it_type it) (item_len it) (it_flags it)).
      apply slice_app; [|apply length_hdr_bytes|exact S].
      erewrite slice_apart; [|exact T|exact D|left; lia].
      pose proof (slice_mid _ _ _ [] _ _ Hsl) as H'. rewrite length_hdr_bytes, Nat.add_0_r in H'. exact H'.
    + rewrite list_lookup_insert_ne in Hitj by done. pose proof (Forall2_lookup_lr _ _ _ _ _ _ Hs Hoj Hitj) as Hsl. unfold slice_at in *.
      erewrite slice_apart; [exact Hsl|exact T|exact D|].
      destruct (offsets_bound _ _ _ _ _ _ (proj2 (laid_iff _ _ _ _) (conj Hend Hs)) Hitj Hoj) as (? & _).
      destruct (decide (j < k)%nat).
      * pose proof (offsets_lt 0 items j k oj o itj ltac:(lia) Hitj Hoj Ho) as Hlt. unfold item_end, item_len in Hlt. left. lia.
      * pose proof (offsets_lt 0 items k j o oj it ltac:(lia) Hk Ho Hoj) as Hlt. unfold item_end, item_len in Hlt. right. lia.
Qed.

Lemma offsets_snoc buf off last items it :
  off mod 4 = 0 -> laid buf off last items -> offsets off (items ++ [it]) = offsets off items ++ [OSW_TLV_ALIGN last].
Proof.
  revert off. induction items as [|it0 rest IH]; intros off Hm Hl; cbn [laid] in Hl.
  - subst. cbn. by rewrite align_id.
  - cbn [app offsets]. destruct Hl as (_ & Hr). destruct rest as [|it1 rest]; [by subst|].
    by rewrite (IH _ (align_mod _) Hr).
Qed.
End OswTlv.

Lemma tlv_roundtrip_witness :
  let items := [mk_item 1 OSW_TLV_HWADDR 0 [2; 0; 0; 0; 0; 7]; mk_item 0 OSW_TLV_U32 0 (st_ne (HE := false) 4 77)] in
  exists t, puts (HE := false) tlv_zero items = Ok t /\
    (forall id, find_spec (HE := false) (bytes_of (t_data t)) (t_used t) id items (OSW_TLV_FIND (HE := false) t id)) /\
    (forall policy n, match policy with Some ps => (n <= length ps)%nat | None => True end ->
       parse_spec (HE := false) (bytes_of (t_data t)) (t_used t) policy n items (OSW_TLV_PARSE (HE := false) t policy (replicate n None))) /\
    (padded items <= 4100 -> tail_room (bytes_of (t_data t)) (t_used t) = true).
Proof.
  apply (tlv_roundtrip (HE := false)); [done| | |].
  - apply (bool_decide_unpack _). vm_compute. exact I.
  - by repeat constructor.
  - vm_compute. reflexivity.
Defined.

Lemma parse_any_bytes_witness :
  exists tb' rem, osw_tlv_parse (HE := false) (replicate 40 255) (Some 0) 28 None [None; None] = Ok (tb', rem) /\ 0 <= rem <= 28 /\
    length tb' = 2%nat /\
    forall i hdr, tb' !! i = Some (Some hdr) -> [None; None] !! i = Some (Some hdr) \/
      entry_ok (HE := false) (replicate 40 255) (0 + 28) None i hdr.
Proof.
  apply (parse_any_bytes (HE := false) (replicate 40 255) 0 28 None [None; None]); try done || (vm_compute; congruence).
  apply Forall_replicate. unfold is_u8. lia.
Defined.

(** The walk reads behind a full block: once two items fill the block exactly, looking
    for an id that is not there reads the length of a header behind it. *)
Theorem find_reads_behind_full_block :
  exists t, puts (HE := false) tlv_zero [mk_item 0 OSW_TLV_UNSPEC 0 []; mk_item 1 OSW_TLV_UNSPEC 0 (replicate 4080 1)] = Ok t /\
    t_used t = t_size t /\ OSW_TLV_FIND (HE := false) t 1 = Ok (Some 16) /\ OSW_TLV_FIND (HE := false) t 2 = Err FOob.
Proof. eexists. split; [vm_compute; reflexivity|]. split_and!; vm_compute; reflexivity. Qed.
