(* ===== verification/OswTlvMerge.v ===== *)
(** * OswTlvMerge: aggregation of statistics buffers

    Models [lib/osw/src/osw_tlv_merge.c] and the use [lib/osw/src/osw_stats.c] makes of
    it for a bucket.  A merge parses the aggregate, the previous sample and the new
    sample into tables of header pointers and applies the operation of each id.  A
    pointer into the aggregate or the previous sample carries the block it points
    into, so that its use after the buffer was reallocated is a fault.  Floats are
    IEEE binary32 values computed with the specification of the Standard
    Library ([SpecFloat], round to nearest even); NaNs have one bit pattern. *)
From S2P Require Import Prelude OswTlv.
From Stdlib Require Import SpecFloat.

Section OswTlvMerge.
Context `{HE : HostEndian}.

Definition b32_of_bits (w : Z) : spec_float :=
  let s := Z.testbit w 31 in
  let e := (w / 2 ^ 23) mod 256 in
  let m := w mod 2 ^ 23 in
  if e =? 0 then (if m =? 0 then S754_zero s else S754_finite s (Z.to_pos m) (-149))
  else if e =? 255 then (if m =? 0 then S754_infinity s else S754_nan)
  else S754_finite s (Z.to_pos (m + 2 ^ 23)) (e - 150).
Definition bits_of_b32 (x : spec_float) : Z :=
  let sg (s : bool) := if s then 2 ^ 31 else 0 in
  match x with
  | S754_zero s => sg s
  | S754_infinity s => sg s + 255 * 2 ^ 23
  | S754_nan => 2143289344
  | S754_finite s m e => if Z.pos m <? 2 ^ 23 then sg s + Z.pos m else sg s + (e + 150) * 2 ^ 23 + (Z.pos m - 2 ^ 23)
  end.
Definition float_add (a b : Z) : Z := u32 (bits_of_b32 (SFadd 24 128 (b32_of_bits a) (b32_of_bits b))).
Definition float_sub (a b : Z) : Z := u32 (bits_of_b32 (SFsub 24 128 (b32_of_bits a) (b32_of_bits b))).

(** ** Policies and results *)
Inductive osw_tlv_merge_op_type := OSW_TLV_OP_NONE | OSW_TLV_OP_OVERWRITE | OSW_TLV_OP_ACCUMULATE | OSW_TLV_OP_MERGE.
Inductive osw_tlv_merge_first_policy := OSW_TLV_INHERIT_FIRST | OSW_TLV_DELTA_AGAINST_ZERO | OSW_TLV_TWO_SAMPLES_MINIMUM.
Inductive osw_tlv_merge_result := OSW_TLV_MERGE_OK | OSW_TLV_MERGE_ERR | OSW_TLV_MERGE_ERR_UNDERFLOW.
Inductive osw_tlv_merge_policy := mk_mpolicy {
  mpol_type : osw_tlv_merge_op_type; mpol_first : osw_tlv_merge_first_policy;
  mpol_nested : option (list osw_tlv_merge_policy); mpol_tb_size : Z
}.

(** A pointer to a header: the block and the offset in it. *)
Abbreviation hptr := (nat * Z)%type.
Definition resolve (t : osw_tlv) (p : hptr) : res Z :=
  if bool_decide (p.1 = t_block t) then Ok p.2 else Err FDangling.

(** An aggregate ([dest_tlv] and [*dest]) or a previous sample ([prev_tlv] and
    [*prev]), as an operation gets it. *)
Record side := mk_side { s_tlv : osw_tlv; s_hdr : option hptr }.
Definition s_buf (s : side) : list Z := bytes_of (t_data (s_tlv s)).

(** [memcpy(osw_tlv_put(tlv, id, type, len), x, len)], as a header pointer. *)
Definition put_bytes (t : osw_tlv) (id type : Z) (x : list Z) : res side :=
  '(t, data) ← osw_tlv_put_data t id type x;
  hdr ← osw_tlv_get_hdr data;
  Ok (mk_side t (Some (t_block t, hdr))).

Definition src_data (buf : list Z) (hdr : Z) : res (list Z) :=
  data ← osw_tlv_get_data hdr; len ← hdr_len buf hdr; rd_bytes buf data (Z.to_nat len).

(** [osw_tlv_put_copy]: [hdr + 1] is the payload. *)
Definition osw_tlv_put_copy (t : osw_tlv) (buf : list Z) (hdr : Z) : res side :=
  id ← hdr_id buf hdr; type ← hdr_type buf hdr; len ← hdr_len buf hdr;
  x ← rd_bytes buf (hdr + 16) (Z.to_nat len);
  put_bytes t id type x.

Fixpoint repack_loop (tmp : osw_tlv) (t : osw_tlv) (tb : list (option hptr)) : res osw_tlv :=
  match tb with
  | [] => Ok tmp
  | None :: tb => repack_loop tmp t tb
  | Some p :: tb =>
      hdr ← resolve t p;
      s ← osw_tlv_put_copy tmp (bytes_of (t_data t)) hdr;
      repack_loop (s_tlv s) t tb
  end.
(** The new block is told apart from the freed one. *)
Definition osw_tlv_merge_repack (dst : osw_tlv) (tb : list (option hptr)) : res osw_tlv :=
  tmp ← repack_loop tlv_zero dst tb;
  Ok (mk_tlv (S (t_block dst)) (t_data tmp) (t_size tmp) (t_used tmp)).

Definition osw_tlv_merge_clone (dst : osw_tlv) (s : side) : res osw_tlv :=
  match s_hdr s with
  | None => Ok dst
  | Some p =>
      _ ← c_assert (t_used dst =? 0);
      hdr ← resolve (s_tlv s) p;
      x ← src_data (s_buf s) hdr;
      let '(dst, off) := osw_tlv_reserve dst (Z.of_nat (length x)) in
      tlv_wr dst off x
  end.

Definition osw_tlv_merge_replace (s : side) (rbuf : list Z) (ref : Z) (src : osw_tlv) : res side :=
  x ← rd_bytes (bytes_of (t_data src)) 0 (Z.to_nat (t_used src));
  id ← hdr_id rbuf ref; type ← hdr_type rbuf ref;
  match s_hdr s with
  | None => if 0 <? t_used src then put_bytes (s_tlv s) id type x else Ok s
  | Some p =>
      hdr ← resolve (s_tlv s) p;
      len ← hdr_len (s_buf s) hdr;
      if negb (len =? t_used src) then put_bytes (s_tlv s) id type x
      else data ← osw_tlv_get_data hdr; t ← tlv_wr (s_tlv s) data x; Ok (mk_side t (s_hdr s))
  end.

(** ** The operations of an id: [src] is the header at [hdr] of the sample [buf] *)
Definition op_result := (osw_tlv_merge_result * side * side)%type.

Definition osw_tlv_merge_op_none_cb (dest prev : side) : res op_result := Ok (OSW_TLV_MERGE_OK, dest, prev).

(** [*dest == NULL || ( *dest)->len != src->len] *)
Definition needs_put (s : side) (len : Z) : res bool :=
  match s_hdr s with
  | None => Ok true
  | Some p => hdr ← resolve (s_tlv s) p; n ← hdr_len (s_buf s) hdr; Ok (negb (n =? len))
  end.

(** Overwrite the payload behind the header pointer. *)
Definition side_wr (s : side) (x : list Z) : res side :=
  p ← deref (s_hdr s);
  hdr ← resolve (s_tlv s) p;
  data ← osw_tlv_get_data hdr;
  t ← tlv_wr (s_tlv s) data x;
  Ok (mk_side t (s_hdr s)).

(** [osw_tlv_put] and [osw_tlv_get_hdr] *)
Definition side_put (s : side) (id type len : Z) : res side :=
  '(t, data) ← osw_tlv_put (s_tlv s) id type len;
  hdr ← osw_tlv_get_hdr data;
  Ok (mk_side t (Some (t_block t, hdr))).

Definition osw_tlv_merge_op_overwrite_cb (buf : list Z) (hdr : Z) (dest prev : side) : res op_result :=
  id ← hdr_id buf hdr; type ← hdr_type buf hdr; len ← hdr_len buf hdr;
  put ← needs_put dest len;
  dest ← (if (put : bool) then side_put dest id type len else Ok dest);
  x ← src_data buf hdr;
  dest ← side_wr dest x;
  Ok (OSW_TLV_MERGE_OK, dest, prev).

(** The callbacks on 32-bit words; the lookups fail with [NULL] or an assertion. *)
Definition osw_stats_type_u32_add_cb (d s : Z) : Z := u32 (d + s).
Definition osw_stats_type_u32_sub_cb (d s : Z) : Z := u32 (d - s).
Definition osw_stats_type_u32_ufl_cb (a b : Z) : bool := (2 ^ 32 - 1) / 2 <? u32 (a - b).
Definition osw_stats_type_float_add_cb (d s : Z) : Z := float_add d s.
Definition osw_stats_type_float_sub_cb (d s : Z) : Z := float_sub d s.

Definition fn_lookup {F} (u32_fn float_fn : option F) (t : Z) : res (option F) :=
  if t =? OSW_TLV_U32 then Ok u32_fn else if t =? OSW_TLV_FLOAT then Ok float_fn else
  if (t =? OSW_TLV_HWADDR) || (t =? OSW_TLV_STRING) || (t =? OSW_TLV_UNSPEC) || (t =? OSW_TLV_NESTED) then Ok None
  else Err FAssert.
Definition osw_tlv_merge_add_fn_lookup (t : Z) : res (option (Z -> Z -> Z)) :=
  fn_lookup (Some osw_stats_type_u32_add_cb) (Some osw_stats_type_float_add_cb) t.
Definition osw_tlv_merge_sub_fn_lookup (t : Z) : res (option (Z -> Z -> Z)) :=
  fn_lookup (Some osw_stats_type_u32_sub_cb) (Some osw_stats_type_float_sub_cb) t.
Definition osw_tlv_merge_ufl_fn_lookup (t : Z) : res (option (Z -> Z -> bool)) :=
  fn_lookup (Some osw_stats_type_u32_ufl_cb) None t.

(** Load and store the word behind a header pointer. *)
Definition side_ld (s : side) : res Z :=
  p ← deref (s_hdr s); hdr ← resolve (s_tlv s) p; data ← osw_tlv_get_data hdr; ld32 (s_buf s) data.
Definition side_app (f : Z -> Z -> Z) (d : side) (v : Z) : res side := w ← side_ld d; side_wr d (st_ne 4 (f w v)).

(** The part of [osw_tlv_merge_op_accumulate_cb] from [store_maybe] on. *)
Definition store_maybe (buf : list Z) (hdr : Z) (need_diff underflow : bool) (dest prev : side) : res op_result :=
  prev ← (if negb need_diff then Ok prev else
          match s_hdr prev with
          | None => osw_tlv_put_copy (s_tlv prev) buf hdr
          | Some _ => x ← src_data buf hdr; side_wr prev x
          end);
  Ok (if underflow then OSW_TLV_MERGE_ERR_UNDERFLOW else OSW_TLV_MERGE_OK, dest, prev).

(** [need_diff && op->prev[0] != NULL && ufl_fn != NULL && ufl_fn(s, p)] *)
Definition op_underflow (buf : list Z) (data : Z) (need_diff : bool) (ufl_fn : option (Z -> Z -> bool)) (prev : side) : res bool :=
  if negb need_diff then Ok false else
  match s_hdr prev with
  | None => Ok false
  | Some _ =>
      match ufl_fn with
      | None => Ok false
      | Some ufl_fn => s ← ld32 buf data; p ← side_ld prev; Ok (ufl_fn s p)
      end
  end.

Definition osw_tlv_merge_op_accumulate_cb (buf : list Z) (hdr : Z) (diff_on_first : bool) (dest prev : side) : res op_result :=
  flags ← hdr_flags buf hdr;
  let need_diff := Z.land flags OSW_TLV_F_DELTA =? 0 in
  let skip_null := need_diff && negb diff_on_first in
  type ← hdr_type buf hdr;
  add_fn ← osw_tlv_merge_add_fn_lookup type;
  sub_fn ← osw_tlv_merge_sub_fn_lookup type;
  ufl_fn ← osw_tlv_merge_ufl_fn_lookup type;
  match add_fn, sub_fn with
  | Some add_fn, Some sub_fn =>
      if match s_hdr prev with None => skip_null | Some _ => false end then store_maybe buf hdr need_diff false dest prev else
      data ← osw_tlv_get_data hdr;
      underflow ← op_underflow buf data need_diff ufl_fn prev;
      if (underflow : bool) then store_maybe buf hdr need_diff true dest prev else
      id ← hdr_id buf hdr; len ← hdr_len buf hdr;
      put ← needs_put dest len;
      dest ← (if (put : bool) then d ← side_put dest id type len; side_wr d (replicate (Z.to_nat len) 0) else Ok dest);
      s ← ld32 buf data;
      dest ← side_app add_fn dest s;
      dest ← match s_hdr prev with
             | None => Ok dest
             | Some _ => p ← side_ld prev; side_app sub_fn dest p
             end;
      store_maybe buf hdr need_diff false dest prev
  | _, _ => Ok (OSW_TLV_MERGE_ERR, dest, prev)
  end.

Definition osw_tlv_merge_first_to_bool (inherited : bool) (f : osw_tlv_merge_first_policy) : bool :=
  match f with
  | OSW_TLV_INHERIT_FIRST => inherited
  | OSW_TLV_DELTA_AGAINST_ZERO => true
  | OSW_TLV_TWO_SAMPLES_MINIMUM => false
  end.

Definition merge_out := (osw_tlv_merge_result * osw_tlv * osw_tlv)%type.
Definition merge_fn := osw_tlv -> osw_tlv -> list Z -> option Z -> Z -> bool -> option (list osw_tlv_policy) ->
  option (list osw_tlv_merge_policy) -> Z -> res merge_out.

Definition idx {A} (l : list A) (i : Z) : res A := match l !! Z.to_nat i with Some a => Ok a | None => Err FOob end.

Definition osw_tlv_merge_op_merge_cb (merge : merge_fn) (buf : list Z) (hdr : Z) (diff_on_first : bool)
    (tpolicy : option (list osw_tlv_policy)) (mpolicy : option (list osw_tlv_merge_policy)) (dest prev : side) : res op_result :=
  id ← hdr_id buf hdr; type ← hdr_type buf hdr;
  match tpolicy, mpolicy with
  | Some ts, Some ms =>
      tp ← idx ts id;
      if tpol_tb_size tp =? 0 then Ok (OSW_TLV_MERGE_ERR, dest, prev) else
      mp ← idx ms id;
      if negb (tpol_tb_size tp =? mpol_tb_size mp) then Ok (OSW_TLV_MERGE_ERR, dest, prev) else
      if negb (bool_decide (is_Some (mpol_nested mp))) then Ok (OSW_TLV_MERGE_ERR, dest, prev) else
      if negb (type =? OSW_TLV_NESTED) then Ok (OSW_TLV_MERGE_ERR, dest, prev) else
      dest_tmp ← osw_tlv_merge_clone tlv_zero dest;
      prev_tmp ← osw_tlv_merge_clone tlv_zero prev;
      data ← osw_tlv_get_data hdr; len ← hdr_len buf hdr;
      '(r, dest_tmp, prev_tmp) ← merge dest_tmp prev_tmp buf (Some data) len
        (osw_tlv_merge_first_to_bool diff_on_first (mpol_first mp)) (tpol_nested tp) (mpol_nested mp) (tpol_tb_size tp);
      dest ← osw_tlv_merge_replace dest buf hdr dest_tmp;
      prev ← osw_tlv_merge_replace prev buf hdr prev_tmp;
      Ok (r, dest, prev)
  | _, _ => Ok (OSW_TLV_MERGE_ERR, dest, prev)
  end.

(** ** The merge *)
Record merge_st := mk_merge_st {
  m_dest : osw_tlv; m_prev : osw_tlv; m_dtb : list (option hptr); m_ptb : list (option hptr);
  m_dest_repack : bool; m_prev_repack : bool; m_underflow : bool
}.

(** The body of the loop for the id [i], with the header of the sample at [src]. *)
Definition merge_at (merge : merge_fn) (buf : list Z) (src : Z) (diff_on_first : bool)
    (tpolicy : option (list osw_tlv_policy)) (mpolicy : list osw_tlv_merge_policy) (i : nat) (m : merge_st) : res merge_st :=
  dh ← idx (m_dtb m) (Z.of_nat i); ph ← idx (m_ptb m) (Z.of_nat i);
  ntype ← hdr_type buf src;
  skip ← match ph with
         | None => Ok false
         | Some p => hdr ← resolve (m_prev m) p; t ← hdr_type (bytes_of (t_data (m_prev m))) hdr; Ok (negb (t =? ntype))
         end;
  if (skip : bool) then Ok m else
  nlen ← hdr_len buf src;
  drop ← match dh with
         | None => Ok false
         | Some p =>
             hdr ← resolve (m_dest m) p;
             t ← hdr_type (bytes_of (t_data (m_dest m))) hdr; n ← hdr_len (bytes_of (t_data (m_dest m))) hdr;
             Ok (negb (t =? ntype) || negb (n =? nlen))
         end;
  let dh := if (drop : bool) then None else dh in
  mp ← idx mpolicy (Z.of_nat i);
  let first := osw_tlv_merge_first_to_bool diff_on_first (mpol_first mp) in
  let dest := mk_side (m_dest m) dh in
  let prev := mk_side (m_prev m) ph in
  '(r, dest, prev) ← match mpol_type mp with
                     | OSW_TLV_OP_NONE => osw_tlv_merge_op_none_cb dest prev
                     | OSW_TLV_OP_OVERWRITE => osw_tlv_merge_op_overwrite_cb buf src dest prev
                     | OSW_TLV_OP_ACCUMULATE => osw_tlv_merge_op_accumulate_cb buf src first dest prev
                     | OSW_TLV_OP_MERGE => osw_tlv_merge_op_merge_cb merge buf src first tpolicy (Some mpolicy) dest prev
                     end;
  Ok (mk_merge_st (s_tlv dest) (s_tlv prev) (<[i := s_hdr dest]> (m_dtb m)) (<[i := s_hdr prev]> (m_ptb m))
        (m_dest_repack m || drop || negb (bool_decide (s_hdr dest = dh)))
        (m_prev_repack m || negb (bool_decide (s_hdr prev = ph)))
        (m_underflow m || match r with OSW_TLV_MERGE_ERR_UNDERFLOW => true | _ => false end)).

Fixpoint merge_loop (merge : merge_fn) (buf : list Z) (diff_on_first : bool)
    (tpolicy : option (list osw_tlv_policy)) (mpolicy : list osw_tlv_merge_policy) (i : nat) (ntb : list (option Z)) (m : merge_st)
    : res merge_st :=
  match ntb with
  | [] => Ok m
  | None :: ntb => merge_loop merge buf diff_on_first tpolicy mpolicy (S i) ntb m
  | Some src :: ntb =>
      m ← merge_at merge buf src diff_on_first tpolicy mpolicy i m;
      merge_loop merge buf diff_on_first tpolicy mpolicy (S i) ntb m
  end.

Definition tb_ptrs (t : osw_tlv) (tb : list (option Z)) : list (option hptr) := option_map (fun hdr => (t_block t, hdr)) <$> tb.

Definition merge_with (merge : merge_fn) : merge_fn :=
  fun dest_tlv prev_tlv buf data len diff_on_first tpolicy mpolicy tb_size =>
  match mpolicy with
  | None => Ok (OSW_TLV_MERGE_ERR, dest_tlv, prev_tlv)
  | Some ms =>
      let none := replicate (Z.to_nat tb_size) None in
      '(dtb, _) ← osw_tlv_parse (bytes_of (t_data dest_tlv)) (tlv_head dest_tlv) (t_used dest_tlv) tpolicy none;
      '(ptb, _) ← osw_tlv_parse (bytes_of (t_data prev_tlv)) (tlv_head prev_tlv) (t_used prev_tlv) tpolicy none;
      '(ntb, _) ← osw_tlv_parse buf data len tpolicy none;
      m ← merge_loop merge buf diff_on_first tpolicy ms 0 ntb
            (mk_merge_st dest_tlv prev_tlv (tb_ptrs dest_tlv dtb) (tb_ptrs prev_tlv ptb) false false false);
      dest ← (if m_dest_repack m then osw_tlv_merge_repack (m_dest m) (m_dtb m) else Ok (m_dest m));
      prev ← (if m_prev_repack m then osw_tlv_merge_repack (m_prev m) (m_ptb m) else Ok (m_prev m));
      Ok (if m_underflow m then OSW_TLV_MERGE_ERR_UNDERFLOW else OSW_TLV_MERGE_OK, dest, prev)
  end.

(** The recursion follows the nesting of the policies. *)
Fixpoint osw_tlv_merge (depth : nat) : merge_fn :=
  match depth with
  | O => fun _ _ _ _ _ _ _ _ _ => Err FFuel
  | S depth => merge_with (osw_tlv_merge depth)
  end.

(** ** A bucket of statistics: the aggregate and the last sample

    The part of [osw_stats_subscriber_put] that works on the bucket, after it has been
    looked up or created. *)
Record osw_stats_bucket := mk_bucket { b_data : osw_tlv; b_last : osw_tlv }.

Definition osw_stats_bucket_put (depth : nat) (bucket : osw_stats_bucket) (buf : list Z) (data : option Z) (len : Z) (first : bool)
    (tpolicy : option (list osw_tlv_policy)) (mpolicy : option (list osw_tlv_merge_policy)) (size : Z)
    : res (osw_tlv_merge_result * osw_stats_bucket) :=
  backup ← osw_tlv_copy tlv_zero (b_data bucket);
  '(r, d, l) ← osw_tlv_merge depth (b_data bucket) (b_last bucket) buf data len first tpolicy mpolicy size;
  match r with
  | OSW_TLV_MERGE_OK | OSW_TLV_MERGE_ERR => Ok (r, mk_bucket d l)
  | OSW_TLV_MERGE_ERR_UNDERFLOW =>
      let l := osw_tlv_fini l in
      '(_, d, l) ← osw_tlv_merge depth backup l buf data len first tpolicy mpolicy size;
      Ok (r, mk_bucket d l)
  end.

(** ** Items behind header pointers *)
Definition ptr_of (t : osw_tlv) (items : list item) (k : nat) : option hptr :=
  option_map (fun o => (t_block t, o)) (offsets 0 items !! k).

Lemma ptr_at t items k it :
  tlv_rep t items -> items !! k = Some it ->
  exists o, ptr_of t items k = Some (t_block t, o) /\ offsets 0 items !! k = Some o /\ resolve t (t_block t, o) = Ok o /\
    item_at (bytes_of (t_data t)) o it /\ o mod 4 = 0.
Proof.
  intros Hrep Hk. destruct (Forall2_lookup_r _ _ _ _ _ (rep_placed _ _ Hrep) Hk) as (o & Ho & Hat).
  exists o. unfold ptr_of, resolve. rewrite Ho. cbn. rewrite bool_decide_true by done. split_and!; try done.
  by apply (offsets_ge _ _ _ _ Ho).
Qed.

Lemma get_data_ok o : o mod 4 = 0 -> osw_tlv_get_data o = Ok (o + 16).
Proof. intros H. unfold osw_tlv_get_data. by rewrite ptr_aligned_ok. Qed.
Lemma get_hdr_ok o : o mod 4 = 0 -> osw_tlv_get_hdr (o + 16) = Ok o.
Proof.
  intros H. unfold osw_tlv_get_hdr. rewrite ptr_aligned_ok by (rewrite <- Z.add_mod_idemp_l, H by lia; done).
  change (OSW_TLV_ALIGN 16) with 16. cbn. f_equal. lia.
Qed.

Lemma src_data_ok buf o it : item_at buf o it -> o mod 4 = 0 -> src_data buf o = Ok (it_data it).
Proof.
  intros (_ & _ & Hl & _ & Hd) Hm. unfold src_data. rewrite get_data_ok by done. cbn [mbind res_bind]. rewrite Hl. cbn [mbind res_bind].
  unfold item_len. by rewrite Nat2Z.id.
Qed.

Lemma ld32_item buf o it : item_at buf o it -> length (it_data it) = 4%nat -> ld32 buf (o + 16) = Ok (ld_ne (it_data it)).
Proof. intros (_ & _ & _ & _ & Hd) Hl. unfold ld32. rewrite <- Hl, Hd. done. Qed.

Lemma side_wr_ok t items k it x :
  tlv_rep t items -> items !! k = Some it -> length x = length (it_data it) -> bytes_ok x ->
  exists t', side_wr (mk_side t (ptr_of t items k)) x = Ok (mk_side t' (ptr_of t items k)) /\
    tlv_rep t' (<[k := item_upd it x]> items) /\ (forall j, ptr_of t' (<[k := item_upd it x]> items) j = ptr_of t items j) /\
    t_size t' = t_size t /\ t_used t' = t_used t /\ (t_data t' = None <-> t_data t = None).
Proof.
  intros Hrep Hk Hx Hb. destruct (ptr_at _ _ _ _ Hrep Hk) as (o & -> & Ho & Hr & Hat & Hm).
  destruct (tlv_update _ _ _ _ _ x Hrep Hk Ho Hx Hb) as (t' & E & Hrep' & Hblk & Hs & Hu & Hd).
  exists t'. unfold side_wr. cbn [s_hdr s_tlv deref mbind res_bind]. rewrite Hr. cbn [mbind res_bind].
  rewrite get_data_ok by done. cbn [mbind res_bind]. rewrite E. cbn [mbind res_bind]. split_and!; try done.
  intros j. unfold ptr_of. by rewrite (proj1 (shape_upd 0 items k it x Hk Hx)), Hblk.
Qed.

Lemma put_bytes_ok t items id type x :
  tlv_rep t items -> let it := mk_item id type 0 x in wf_item it -> t_size t + item_len it + 8192 < 2 ^ 62 ->
  item_fits t it = true \/ items = [] ->
  exists t', put_bytes t id type x = Ok (mk_side t' (ptr_of t' (items ++ [it]) (length items))) /\
    tlv_rep t' (items ++ [it]) /\ (forall j, (j < length items)%nat -> ptr_of t' (items ++ [it]) j = ptr_of t items j) /\
    t_used t' = item_end (OSW_TLV_ALIGN (t_used t)) it /\ t_data t' <> None /\
    t_size t' = (if item_fits t it then t_size t else t_size t + OSW_TLV_ALIGN (needs it + OSW_TLV_TAILROOM)).
Proof.
  intros Hrep it Hit Hbig Hfit. destruct (put_data_ok t items id type x Hrep Hit Hbig) as (t' & E & Hrep' & Hu & Hblk & Hs).
  fold it in Hrep', Hu, Hblk, Hs. pose proof Hrep as (_ & _ & _ & _ & Hl & _). exists t'.
  assert (Eo : offsets 0 (items ++ [it]) = offsets 0 items ++ [OSW_TLV_ALIGN (t_used t)]) by (by eapply offsets_snoc).
  unfold put_bytes. rewrite E. cbn [mbind res_bind]. rewrite get_hdr_ok by apply align_mod. cbn [mbind res_bind]. split_and!; try done.
  - unfold ptr_of. rewrite Eo, lookup_app_r; rewrite length_offsets; [|done]. by rewrite Nat.sub_diag.
  - intros j Hj. unfold ptr_of. rewrite Eo, lookup_app_l by (by rewrite length_offsets). destruct Hfit as [Hf|Hf].
    + by rewrite Hblk, Hf.
    + subst items. cbn in Hj. lia.
  - intros Hn. destruct Hrep' as (_ & _ & _ & Hle & _ & _ & Hsz). rewrite Hn in Hsz. cbn in Hsz. unfold item_end in Hu.
    pose proof (item_len_nonneg it). pose proof (align_bounds (t_used t)). pose proof (rep_used _ _ Hrep). lia.
Qed.

(** Reserving an item and then filling it is putting it. *)
Lemma side_put_wr t h id type x :
  (d ← side_put (mk_side t h) id type (Z.of_nat (length x)); side_wr d x) = put_bytes t id type x.
Proof.
  unfold side_put, put_bytes, osw_tlv_put_data, side_wr. cbn [s_tlv].
  destruct (osw_tlv_put t id type (Z.of_nat (length x))) as [[t1 data]|f] eqn:E; [|done]. cbn [mbind res_bind].
  unfold osw_tlv_put in E. destruct (osw_tlv_reserve _ _) as [t2 o]. inv_ok E. injection E as <- <-.
  unfold osw_tlv_get_data in E1. apply bind_Ok in E1 as (? & E2 & E1). injection E1 as <-. change (OSW_TLV_ALIGN 16) with 16 in *.
  assert (Hm : o mod 4 = 0).
  { unfold ptr_aligned, c_assert, OSW_TLV_MASK in E2. destruct (Z.land o 3 =? 0) eqn:E3; [|done]. zbool. change 3 with (Z.ones 2) in E3. by rewrite Z.land_ones in E3 by lia. }
  rewrite get_hdr_ok by done. cbn [mbind res_bind deref s_hdr s_tlv]. unfold resolve. cbn [fst snd]. rewrite bool_decide_true by done.
  cbn [mbind res_bind]. rewrite get_data_ok by done. cbn [mbind res_bind].
  destruct (tlv_wr v (o + 16) x) as [t'|f] eqn:E3; [|done]. cbn [mbind res_bind]. rewrite get_hdr_ok by done. cbn [mbind res_bind].
  unfold tlv_wr in E3. inv_ok E3. injection E3 as <-. done.
Qed.

(** ** What a merge promises: a table of payloads per id *)

(** The arithmetic of an accumulated type: addition, subtraction, underflow. *)
Definition arith (type : Z) : option ((Z -> Z -> Z) * (Z -> Z -> Z) * (Z -> Z -> bool)) :=
  if type =? OSW_TLV_U32 then Some (osw_stats_type_u32_add_cb, osw_stats_type_u32_sub_cb, osw_stats_type_u32_ufl_cb)
  else if type =? OSW_TLV_FLOAT then Some (float_add, float_sub, fun _ _ => false)
  else None.

(** The new aggregate, the new previous sample and whether the counter ran
    backwards, for a sample [x] with [flags]. *)
Definition accumulate (type flags : Z) (first : bool) (x : list Z) (d p : option (list Z))
    : option (list Z) * option (list Z) * bool :=
  match arith type with
  | None => (d, p, false)
  | Some (add, sub, ufl) =>
      let absolute := Z.land flags OSW_TLV_F_DELTA =? 0 in
      let p' := if absolute then Some x else p in
      match p with
      | None =>
          if absolute && negb first then (d, p', false)
          else (Some (st_ne 4 (add (from_option ld_ne 0 d) (ld_ne x))), p', false)
      | Some y =>
          if absolute && ufl (ld_ne x) (ld_ne y) then (d, p', true)
          else (Some (st_ne 4 (sub (add (from_option ld_ne 0 d) (ld_ne x)) (ld_ne y))), p', false)
      end
  end.

Definition same_length (x : list Z) (d : option (list Z)) : option (list Z) :=
  y ← d; if bool_decide (length y = length x) then Some y else None.

Definition op_spec (op : osw_tlv_merge_op_type) (type flags : Z) (first : bool) (x : list Z) (d p : option (list Z))
    : option (list Z) * option (list Z) * bool :=
  let d := same_length x d in
  match op with
  | OSW_TLV_OP_NONE | OSW_TLV_OP_MERGE => (d, p, false)
  | OSW_TLV_OP_OVERWRITE => (Some x, p, false)
  | OSW_TLV_OP_ACCUMULATE => accumulate type flags first x d p
  end.

Definition tbl_upd {A} (T : nat -> option A) (i : nat) (v : option A) : nat -> option A := fun j => if decide (j = i) then v else T j.

Section Tables.
Context (tps : list osw_tlv_policy) (cap : nat -> Z) (n : nat).
Hypothesis cap_nonneg : forall j, 0 <= cap j < 2 ^ 20.
Hypothesis tps_length : length tps = n.

(** Room for one item of each id from [i] on. *)
Definition capsum (i : nat) : Z := foldr (fun j v => OSW_TLV_ALIGN (16 + cap j) + v) 0 (seq i (n - i)).
Hypothesis capacity : 2 * capsum 0 + 4 <= 4096.

Lemma foldr_cap_nonneg l : 0 <= foldr (fun j v => OSW_TLV_ALIGN (16 + cap j) + v) 0 l.
Proof.
  induction l as [|j l IH]; cbn [foldr]; [lia|]. pose proof (align_bounds (16 + cap j)). pose proof (cap_nonneg j). lia.
Qed.
Lemma capsum_step i : (i < n)%nat -> capsum i = OSW_TLV_ALIGN (16 + cap i) + capsum (S i).
Proof. intros Hi. unfold capsum. replace (n - i)%nat with (S (n - S i)) by lia. done. Qed.
Lemma capsum_nonneg i : 0 <= capsum i.
Proof. apply foldr_cap_nonneg. Qed.
Lemma capsum_le i : capsum i <= capsum 0.
Proof.
  induction i as [|i IH]; [lia|]. destruct (decide (i < n)%nat) as [Hi|Hi].
  - rewrite capsum_step in IH by done. pose proof (align_bounds (16 + cap i)). pose proof (cap_nonneg i). lia.
  - unfold capsum at 1. replace (n - S i)%nat with O by lia. cbn. apply capsum_nonneg.
Qed.

(** An item an entry of the table may hold. *)
Definition entry_item (j : nat) (it : item) : Prop :=
  it_id it = Z.of_nat j /\ accepts (Some tps) it = true /\ item_len it <= cap j.

Definition budget (i : nat) (t : osw_tlv) : Prop :=
  t_data t = None \/ 4112 <= t_size t /\ t_size t < 2 ^ 40 /\ OSW_TLV_ALIGN (t_used t) + capsum i <= t_size t.

(** A buffer and the table of pointers into it, before the id [i] is merged:
    [T] gives the payloads the pointers lead to. *)
Definition side_inv (i : nat) (t : osw_tlv) (tb : list (option hptr)) (repack : bool) (T : nat -> option (list Z)) : Prop :=
  exists items ks, tlv_rep t items /\ length tb = n /\
    (forall j, (j < n)%nat -> tb !! j = Some (ks j ≫= ptr_of t items)) /\
    (forall j k, ks j = Some k -> exists it, items !! k = Some it /\ entry_item j it) /\
    (forall j, (j < n)%nat -> T j = ks j ≫= fun k => it_data <$> items !! k) /\
    budget i t /\
    (repack = false -> (forall j, (j < n)%nat -> ks j = slot_of (Some tps) items j) /\ t_used t <= capsum 0).

Lemma side_inv_step i t tb r T : (i < n)%nat -> side_inv i t tb r T -> side_inv (S i) t tb r T.
Proof.
  intros Hi (items & ks & Hrep & Hl & Htb & Hks & HT & Hb & Hr). exists items, ks. split_and!; try done.
  destruct Hb as [?|(? & ? & ?)]; [by left|right]. rewrite (capsum_step i Hi) in *. pose proof (align_bounds (16 + cap i)). pose proof (cap_nonneg i).
  split_and!; lia.
Qed.

Lemma side_inv_ext i t tb r T T' : (forall j, (j < n)%nat -> T j = T' j) -> side_inv i t tb r T -> side_inv i t tb r T'.
Proof.
  intros E (items & ks & Hrep & Hl & Htb & Hks & HT & Hb & Hr). exists items, ks. split_and!; try done.
  intros j Hj. by rewrite <- E, HT.
Qed.

(** The header pointer of the id. *)
Lemma side_inv_read b i t tb r T : (i < n)%nat -> side_inv b t tb r T ->
  match T i with
  | None => tb !! i = Some None
  | Some d => exists o it, tb !! i = Some (Some (t_block t, o)) /\ resolve t (t_block t, o) = Ok o /\
      item_at (bytes_of (t_data t)) o it /\ o mod 4 = 0 /\ it_data it = d /\ entry_item i it
  end.
Proof.
  intros Hi (items & ks & Hrep & Hl & Htb & Hks & HT & _). rewrite HT, Htb by done. destruct (ks i) as [k|] eqn:Ek; [|done].
  cbn. destruct (Hks _ _ Ek) as (it & Hit & Hent). rewrite Hit. cbn. destruct (ptr_at _ _ _ _ Hrep Hit) as (o & -> & _ & Hr & Hat & Hm).
  by exists o, it.
Qed.

(** Forgetting an entry. *)
Lemma side_inv_drop i t tb r T : (i < n)%nat -> side_inv i t tb r T -> side_inv i t (<[i := None]> tb) true (tbl_upd T i None).
Proof.
  intros Hi (items & ks & Hrep & Hl & Htb & Hks & HT & Hb & Hr). exists items, (tbl_upd ks i None). unfold tbl_upd. split_and!; try done.
  - by rewrite length_insert.
  - intros j Hj. destruct (decide (j = i)) as [->|]; [by rewrite list_lookup_insert_eq by lia|]. rewrite list_lookup_insert_ne by done. by apply Htb.
  - intros j k. case_decide; [done|apply Hks].
  - intros j Hj. case_decide; [done|by apply HT].
Qed.

Lemma accepts_upd policy it x : length x = length (it_data it) -> accepts policy (item_upd it x) = accepts policy it.
Proof.
  intros H. unfold accepts. cbn [item_upd it_id it_type it_data]. unfold item_len. cbn [item_upd it_data]. by rewrite H.
Qed.

Lemma slots_upd policy items k it x j m acc :
  items !! k = Some it -> length x = length (it_data it) ->
  slots policy (<[k := item_upd it x]> items) j m acc = slots policy items j m acc.
Proof.
  intros Hk Hx. revert k m acc Hk. induction items as [|it0 items IH]; intros k m acc Hk; [done|]. destruct k as [|k]; cbn in Hk.
  - injection Hk as ->. change (<[0%nat := item_upd it x]> (it :: items)) with (item_upd it x :: items). cbn [slots]. by rewrite accepts_upd by done.
  - change (<[S k := item_upd it x]> (it0 :: items)) with (it0 :: <[k := item_upd it x]> items). cbn [slots]. by apply IH.
Qed.

(** Overwriting the payload behind an entry. *)
Lemma side_inv_wr b i t tb r T d x h :
  (i < n)%nat -> side_inv b t tb r T -> T i = Some d -> length x = length d -> bytes_ok x -> tb !! i = Some h ->
  exists t', side_wr (mk_side t h) x = Ok (mk_side t' h) /\ side_inv b t' tb r (tbl_upd T i (Some x)).
Proof.
  intros Hi (items & ks & Hrep & Hl & Htb & Hks & HT & Hb & Hr) Hd Hx Hbx Hh. rewrite HT in Hd by done. rewrite Htb in Hh by done.
  destruct (ks i) as [k|] eqn:Ek; [|done]. cbn in Hd, Hh. destruct (Hks _ _ Ek) as (it & Hit & Hent). rewrite Hit in Hd. cbn in Hd.
  injection Hd as Hd. injection Hh as <-. assert (Hx' : length x = length (it_data it)) by congruence.
  destruct (side_wr_ok t items k it x Hrep Hit Hx' Hbx) as (t' & E & Hrep' & Hptr & Hs & Hu & Hn). exists t'. split; [done|].
  exists (<[k := item_upd it x]> items), ks. split_and!; try done.
  - intros j Hj. rewrite Htb by done. destruct (ks j); [|done]. cbn. by rewrite Hptr.
  - intros j k' Hj. destruct (Hks _ _ Hj) as (it' & Hit' & Hent'). destruct (decide (k' = k)) as [->|Hne].
    + rewrite Hit in Hit'. injection Hit' as <-. exists (item_upd it x). rewrite list_lookup_insert_eq by (by eapply lookup_lt_Some).
      split; [done|]. destruct Hent' as (? & ? & ?). split_and!; [done|by rewrite accepts_upd|]. unfold item_len in *. cbn. by rewrite Hx'.
    + exists it'. by rewrite list_lookup_insert_ne.
  - intros j Hj. unfold tbl_upd. destruct (decide (j = i)) as [->|Hne].
    + rewrite Ek. cbn. by rewrite list_lookup_insert_eq by (by eapply lookup_lt_Some).
    + rewrite HT by done. destruct (ks j) as [k'|] eqn:Ej; [|done]. cbn. rewrite list_lookup_insert_ne; [done|].
      intros <-. destruct (Hks _ _ Ej) as (it' & Hit' & (Hid & _)). rewrite Hit in Hit'. injection Hit' as <-. destruct Hent as (Hid' & _). lia.
  - unfold budget. rewrite Hs, Hu, Hn. exact Hb.
  - intros Hf. destruct (Hr Hf) as [Hslot Hcap]. rewrite Hu. split; [|done]. intros j Hj. rewrite (Hslot j Hj). unfold slot_of. by rewrite slots_upd.
Qed.

Lemma rep_none t items : tlv_rep t items -> t_data t = None -> items = [] /\ t_used t = 0 /\ t_size t = 0.
Proof.
  intros (_ & _ & _ & Hu & Hl & _ & Hs) Hn. rewrite Hn in *. cbn in Hs, Hl. pose proof (laid_last_le _ _ _ _ Hl).
  destruct items as [|it items]; [split_and!; done || lia|]. cbn [laid] in Hl. destruct Hl as [E _]. apply (f_equal length) in E.
  rewrite length_item_bytes, length_take, length_drop in E. exfalso. cbn [length] in E. lia.
Qed.

(** Putting an item for an empty entry. *)
Lemma side_inv_put i t tb r T type x :
  (i < n)%nat -> side_inv i t tb r T -> let it := mk_item (Z.of_nat i) type 0 x in wf_item it -> entry_item i it ->
  exists t' p, put_bytes t (Z.of_nat i) type x = Ok (mk_side t' (Some p)) /\
    side_inv (S i) t' (<[i := Some p]> tb) true (tbl_upd T i (Some x)).
Proof.
  intros Hi (items & ks & Hrep & Hl & Htb & Hks & HT & Hb & Hr) it Hwf Hent. destruct Hent as (Hid & Hacc & Hcap).
  pose proof (cap_nonneg i) as Hc. pose proof (item_len_nonneg it) as Hln. pose proof (capsum_step i Hi) as Hcs. pose proof (capsum_nonneg (S i)) as Hcn.
  pose proof (capsum_le (S i)) as Hcl. pose proof (rep_used _ _ Hrep) as [Hu0 Hua].
  assert (Hal : OSW_TLV_ALIGN (needs it) <= OSW_TLV_ALIGN (16 + cap i)) by (rewrite !align_eq; unfold needs; apply Z.mul_le_mono_nonneg_r; [lia|]; apply Z.div_le_mono; lia).
  pose proof (align_bounds (needs it)) as Ha1. pose proof (align_bounds (t_used t)) as Ha2. pose proof (align_bounds (16 + cap i)) as Ha3.
  assert (Hfits : item_fits t it = true \/ items = [] /\ t_data t = None).
  { destruct Hb as [Hn|(? & ? & ?)]; [right; split; [by eapply rep_none|done]|left]. unfold item_fits. apply Z.leb_le. lia. }
  destruct (put_bytes_ok t items (Z.of_nat i) type x Hrep Hwf) as (t' & E & Hrep' & Hptr & Hu & Hn & Hs).
  { fold it. destruct Hb as [Hn0|(? & ? & ?)]; [pose proof (rep_none _ _ Hrep Hn0) as (_ & ? & ?)|]; lia. }
  { fold it. destruct Hfits as [?|[? _]]; tauto. }
  fold it in E, Hrep', Hptr, Hu, Hs. pose proof Hrep' as Hrep2.
  destruct (ptr_at t' (items ++ [it]) (length items) it Hrep') as (o & Ep & _); [by rewrite lookup_app_r, Nat.sub_diag by lia|].
  exists t', (t_block t', o). rewrite E, Ep. split; [done|]. exists (items ++ [it]), (tbl_upd ks i (Some (length items))).
  assert (Hkl : forall j k, ks j = Some k -> (k < length items)%nat).
  { intros j k Hj. destruct (Hks _ _ Hj) as (? & H' & _). by eapply lookup_lt_Some. }
  unfold tbl_upd. split_and!; try done.
  - by rewrite length_insert.
  - intros j Hj. destruct (decide (j = i)) as [->|]; [by rewrite list_lookup_insert_eq, <- Ep by lia|].
    rewrite list_lookup_insert_ne, Htb by done. destruct (ks j) as [k|] eqn:Ek; [|done]. cbn. by rewrite Hptr by eauto.
  - intros j k. case_decide.
    + intros [= <-]. subst j. exists it. rewrite lookup_app_r, Nat.sub_diag by lia. by split_and!.
    + intros Hj. destruct (Hks _ _ Hj) as (it' & Hit' & ?). exists it'. by rewrite lookup_app_l by eauto.
  - intros j Hj. case_decide; [cbn; by rewrite lookup_app_r, Nat.sub_diag by lia|]. rewrite HT by done. destruct (ks j) as [k|] eqn:Ek; [|done].
    cbn. by rewrite lookup_app_l by eauto.
  - right. assert (Eu : OSW_TLV_ALIGN (t_used t') = OSW_TLV_ALIGN (t_used t) + OSW_TLV_ALIGN (needs it)).
    { rewrite Hu. unfold item_end. rewrite <- Z.add_assoc. fold (needs it). apply align_add, align_mod. }
    rewrite Eu, Hs. destruct Hfits as [Hf|[-> Hn0]].
    + rewrite Hf. destruct Hb as [Hn0|(? & ? & ?)]; [|split_and!; lia]. exfalso. pose proof (rep_none _ _ Hrep Hn0) as (_ & ? & ?).
      unfold item_fits in Hf. zbool. unfold needs in *. lia.
    + pose proof (rep_none _ _ Hrep Hn0) as (_ & Hu' & Hs'). rewrite Hu', Hs'. change (OSW_TLV_ALIGN 0) with 0.
      assert (Hnf : item_fits t it = false) by (unfold item_fits; rewrite Hu', Hs'; apply Z.leb_gt; change (OSW_TLV_ALIGN 0) with 0; unfold needs; lia).
      rewrite Hnf. rewrite (Z.add_comm (needs it)). rewrite align_add by done. unfold OSW_TLV_TAILROOM, needs in *. split_and!; lia.
Qed.

(** *** The effect of an operation on one side *)

(** [s] is what the operation of [i] leaves, whose pointer was [h], with the payload [v]. *)
Definition outcome (i : nat) (tb : list (option hptr)) (h : option hptr) (r : bool) (T : nat -> option (list Z)) (s : side)
    (v : option (list Z)) : Prop :=
  side_inv (S i) (s_tlv s) (<[i := s_hdr s]> tb) (r || negb (bool_decide (s_hdr s = h))) (tbl_upd T i v).

Lemma upd_same (T : nat -> option (list Z)) i j : T j = tbl_upd T i (T i) j.
Proof. unfold tbl_upd. by case_decide; subst. Qed.
Lemma upd_upd (T : nat -> option (list Z)) i v w j : tbl_upd T i w j = tbl_upd (tbl_upd T i v) i w j.
Proof. unfold tbl_upd. by case_decide. Qed.

Section Side.
Context (i : nat) (t : osw_tlv) (tb : list (option hptr)) (h : option hptr) (r : bool) (T : nat -> option (list Z)).
Hypothesis Hi : (i < n)%nat.
Hypothesis Hinv : side_inv i t tb r T.
Hypothesis Hh : tb !! i = Some h.

Lemma tb_length : length tb = n.
Proof. by destruct Hinv as (? & ? & ? & ? & _). Qed.

Lemma out_same : outcome i tb h r T (mk_side t h) (T i).
Proof.
  unfold outcome. cbn [s_tlv s_hdr]. rewrite bool_decide_true by done. rewrite orb_false_r, list_insert_id by done.
  eapply side_inv_ext; [|by apply side_inv_step]. intros. apply upd_same.
Qed.

Lemma out_wr s d x :
  outcome i tb h r T s (Some d) -> length x = length d -> bytes_ok x ->
  exists s', side_wr s x = Ok s' /\ outcome i tb h r T s' (Some x).
Proof.
  intros Ho Hx Hb. destruct s as [ts hs]. unfold outcome in Ho. cbn [s_tlv s_hdr] in Ho.
  destruct (side_inv_wr _ i _ _ _ _ d x hs Hi Ho) as (t' & -> & Ho'); [unfold tbl_upd; by rewrite decide_True|done|done| |].
  { rewrite list_lookup_insert_eq; [done|]. rewrite tb_length. done. }
  eexists. split; [done|]. unfold outcome. cbn [s_tlv s_hdr]. eapply side_inv_ext; [|exact Ho']. intros. symmetry. apply upd_upd.
Qed.

Lemma out_ld s d : outcome i tb h r T s (Some d) -> length d = 4%nat -> side_ld s = Ok (ld_ne d).
Proof.
  intros Ho Hd. destruct s as [ts hs]. unfold outcome in Ho. cbn [s_tlv s_hdr] in Ho.
  pose proof (side_inv_read _ i _ _ _ _ Hi Ho) as Hread. unfold tbl_upd in Hread. rewrite decide_True in Hread by done.
  destruct Hread as (o & it & E & Hr & Hat & Hm & Hdat & _). rewrite list_lookup_insert_eq in E by (by rewrite tb_length). injection E as ->.
  unfold side_ld. cbn [s_hdr s_tlv deref mbind res_bind]. rewrite Hr. cbn [mbind res_bind]. rewrite get_data_ok by done. cbn [mbind res_bind].
  unfold s_buf. cbn [s_tlv]. rewrite <- Hdat. apply ld32_item; [done|]. by rewrite Hdat.
Qed.

Lemma out_app s d f v :
  outcome i tb h r T s (Some d) -> length d = 4%nat ->
  exists s', side_app f s v = Ok s' /\ outcome i tb h r T s' (Some (st_ne 4 (f (ld_ne d) v))).
Proof.
  intros Ho Hd. unfold side_app. rewrite (out_ld _ _ Ho Hd). cbn [mbind res_bind].
  eapply out_wr; [exact Ho|by rewrite length_st_ne, Hd|apply st_ne_ok].
Qed.

Lemma out_put type x :
  T i = None -> wf_item (mk_item (Z.of_nat i) type 0 x) -> entry_item i (mk_item (Z.of_nat i) type 0 x) ->
  exists s', put_bytes t (Z.of_nat i) type x = Ok s' /\ outcome i tb h r T s' (Some x).
Proof.
  intros HT Hw He. destruct (side_inv_put i t tb r T type x Hi Hinv Hw He) as (t' & p & -> & Hinv'). eexists. split; [done|].
  unfold outcome. cbn [s_tlv s_hdr]. pose proof (side_inv_read _ i _ _ _ _ Hi Hinv) as Hread. rewrite HT in Hread.
  rewrite Hh in Hread. injection Hread as ->. rewrite bool_decide_false by done. by rewrite orb_true_r.
Qed.

Lemma hdr_cases :
  match T i with
  | None => h = None
  | Some d => exists p hdr it, h = Some p /\ resolve t p = Ok hdr /\ item_at (bytes_of (t_data t)) hdr it /\ hdr mod 4 = 0 /\
      it_data it = d /\ entry_item i it
  end.
Proof.
  pose proof (side_inv_read _ i _ _ _ _ Hi Hinv) as Hread. rewrite Hh in Hread. destruct (T i) as [d|]; [|by injection Hread].
  destruct Hread as (o & it & E & ? & ? & ? & ? & ?). injection E as ->. by exists (t_block t, o), o, it.
Qed.

Lemma needs_put_ok len :
  match T i with None => True | Some d => Z.of_nat (length d) = len end ->
  needs_put (mk_side t h) len = Ok (match T i with None => true | Some _ => false end).
Proof.
  pose proof hdr_cases as Hc. intros Hlen. unfold needs_put. cbn [s_hdr s_tlv]. unfold s_buf. cbn [s_tlv].
  destruct (T i) as [d|]; [|by subst h]. destruct Hc as (p & hdr & it & -> & Hr & Hat & _ & Hd & _).
  rewrite Hr. cbn [mbind res_bind]. destruct Hat as (_ & _ & -> & _). cbn [mbind res_bind]. unfold item_len. rewrite Hd, Hlen, Z.eqb_refl. done.
Qed.
End Side.

(** *** The operations *)
Lemma entry_policy j it :
  entry_item j it -> exists pol, tps !! j = Some pol /\ it_type it = tpol_type pol /\
    (arith (it_type it) <> None -> length (it_data it) = 4%nat).
Proof.
  intros (Hid & Hacc & _). unfold accepts in Hacc. rewrite Hid, Nat2Z.id in Hacc. destruct (tps !! j) as [pol|]; [|done].
  exists pol. apply andb_true_iff in Hacc as [Ht Ha]. zbool. split_and!; try done. intros Har. unfold arith in Har.
  assert (Hty : it_type it = OSW_TLV_U32 \/ it_type it = OSW_TLV_FLOAT) by (repeat case_match; zbool; auto; done).
  unfold type_size, item_len in Ha. destruct Hty as [E|E]; rewrite E in Ha; cbn in Ha; zbool; lia.
Qed.

Lemma entry_word j it : entry_item j it -> arith (it_type it) <> None -> length (it_data it) = 4%nat.
Proof. intros H. apply entry_policy in H as (_ & _ & _ & H). exact H. Qed.

Lemma entry_types j it it' : entry_item j it -> entry_item j it' -> it_type it = it_type it'.
Proof. intros H1 H2. apply entry_policy in H1 as (p & ? & ? & _), H2 as (q & ? & ? & _). congruence. Qed.

Lemma known_type j it : entry_item j it -> exists a b c,
  osw_tlv_merge_add_fn_lookup (it_type it) = Ok a /\ osw_tlv_merge_sub_fn_lookup (it_type it) = Ok b /\
  osw_tlv_merge_ufl_fn_lookup (it_type it) = Ok c /\
  match arith (it_type it) with
  | None => a = None /\ b = None
  | Some (add, sub, ufl) => a = Some add /\ b = Some sub /\ (forall s p, ufl s p = match c with Some g => g s p | None => false end)
  end.
Proof.
  intros (_ & Hacc & _). unfold accepts in Hacc. destruct (tps !! _) as [pol|]; [|done]. apply andb_true_iff in Hacc as [_ Ha].
  assert (Hty : it_type it = OSW_TLV_HWADDR \/ it_type it = OSW_TLV_U32 \/ it_type it = OSW_TLV_FLOAT \/ it_type it = OSW_TLV_STRING \/
    it_type it = OSW_TLV_UNSPEC \/ it_type it = OSW_TLV_NESTED).
  { destruct (Z.eqb_spec (it_type it) OSW_TLV_HWADDR); [tauto|]. destruct (Z.eqb_spec (it_type it) OSW_TLV_U32); [tauto|].
    destruct (Z.eqb_spec (it_type it) OSW_TLV_FLOAT); [tauto|]. destruct (Z.eqb_spec (it_type it) OSW_TLV_STRING); [tauto|].
    destruct (Z.eqb_spec (it_type it) OSW_TLV_UNSPEC); [tauto|]. cbn in Ha. zbool. tauto. }
  destruct Hty as [->|[->|[->|[->|[->| ->]]]]]; do 3 eexists;
    (split; [reflexivity|]; split; [reflexivity|]; split; [reflexivity|]; cbn; split_and!; done).
Qed.

Section Ops.
Context (buf : list Z) (src : Z) (itn : item) (i : nat).
Hypothesis Hi : (i < n)%nat.
Hypothesis Hat : item_at buf src itn.
Hypothesis Hsrc : src mod 4 = 0.
Hypothesis Hwf : wf_item itn.
Hypothesis Hent : entry_item i itn.

Lemma src_wf : wf_item (mk_item (Z.of_nat i) (it_type itn) 0 (it_data itn)).
Proof. destruct Hwf as (? & ? & ? & ? & ?), Hent as (Hid & _). rewrite <- Hid. by split_and!. Qed.
Lemma src_entry : entry_item i (mk_item (Z.of_nat i) (it_type itn) 0 (it_data itn)).
Proof. destruct itn as [id ty fl x]. destruct Hent as (Hid & Ha & Hc). cbn in Hid. subst id. by split_and!. Qed.

Context (td : osw_tlv) (dtb : list (option hptr)) (hd : option hptr) (rd : bool) (D : nat -> option (list Z)).
Context (tp : osw_tlv) (ptb : list (option hptr)) (hp : option hptr) (rp : bool) (P : nat -> option (list Z)).
Hypothesis HD : side_inv i td dtb rd D.
Hypothesis Hhd : dtb !! i = Some hd.
Hypothesis HP : side_inv i tp ptb rp P.
Hypothesis Hhp : ptb !! i = Some hp.
Hypothesis Dlen : match D i with None => True | Some d => length d = length (it_data itn) end.

Lemma ensure_ok x : length x = length (it_data itn) -> bytes_ok x ->
  exists s, (put ← needs_put (mk_side td hd) (item_len itn);
             if (put : bool) then d ← side_put (mk_side td hd) (Z.of_nat i) (it_type itn) (item_len itn); side_wr d x
             else Ok (mk_side td hd)) = Ok s /\ outcome i dtb hd rd D s (Some (default x (D i))).
Proof.
  intros Hx Hb. rewrite (needs_put_ok i td dtb hd rd D Hi HD Hhd) by (unfold item_len; destruct (D i); congruence || done). cbn [mbind res_bind].
  destruct (D i) as [d|] eqn:Ed.
  - eexists. split; [done|]. pose proof (out_same i td dtb hd rd D Hi HD Hhd) as Ho. by rewrite Ed in Ho.
  - unfold item_len. rewrite <- Hx, side_put_wr. destruct Hwf as (? & ? & ? & Hl & ?), Hent as (Hid & Ha & Hc). 
    apply (out_put i td dtb hd rd D Hi HD Hhd); [done| |].
    + rewrite <- Hid. split_and!; try done. unfold item_len in *. cbn. by rewrite Hx.
    + destruct itn as [id ty fl y]. cbn in *. subst id. split_and!; [done| |unfold item_len in *; cbn in *; by rewrite Hx].
      rewrite <- Ha. exact (accepts_upd (Some tps) (mk_item (Z.of_nat i) ty fl y) x Hx).
Qed.

Lemma overwrite_ok prev :
  exists s, osw_tlv_merge_op_overwrite_cb buf src (mk_side td hd) prev = Ok (OSW_TLV_MERGE_OK, s, prev) /\
    outcome i dtb hd rd D s (Some (it_data itn)).
Proof.
  assert (Hx : bytes_ok (it_data itn)) by apply Hwf. destruct (ensure_ok (it_data itn) eq_refl Hx) as (s & E & Ho).
  unfold osw_tlv_merge_op_overwrite_cb. pose proof Hat as (-> & -> & -> & _). cbn [mbind res_bind].
  rewrite (src_data_ok _ _ _ Hat Hsrc). rewrite (proj1 Hent).
  rewrite (needs_put_ok i td dtb hd rd D Hi HD Hhd) in * by (unfold item_len; destruct (D i); congruence || done). cbn [mbind res_bind] in *.
  destruct (D i) as [d|] eqn:Ed.
  - injection E as <-. cbn [mbind res_bind]. destruct (out_wr i td dtb hd rd D Hi HD _ _ (it_data itn) Ho) as (s' & -> & Ho'); [by cbn|done|].
    eexists. by split.
  - destruct (side_put _ _ _ _) as [d|f]; [|done]. cbn [mbind res_bind] in *. rewrite E. cbn [mbind res_bind]. eexists. by split.
Qed.

Lemma store_maybe_ok need u dest :
  match P i with None => True | Some y => length y = length (it_data itn) end ->
  exists s, store_maybe buf src need u dest (mk_side tp hp) =
      Ok (if u : bool then OSW_TLV_MERGE_ERR_UNDERFLOW else OSW_TLV_MERGE_OK, dest, s) /\
    outcome i ptb hp rp P s (if need : bool then Some (it_data itn) else P i).
Proof.
  intros Plen. unfold store_maybe. cbn [s_hdr s_tlv]. pose proof (hdr_cases i tp ptb hp rp P Hi HP Hhp) as Hc.
  pose proof (out_same i tp ptb hp rp P Hi HP Hhp) as Ho. destruct need; cbn [negb].
  2:{ cbn [mbind res_bind]. eexists. by split. }
  destruct (P i) as [y|] eqn:Ep.
  - destruct Hc as (p & _ & _ & -> & _). rewrite (src_data_ok _ _ _ Hat Hsrc). cbn [mbind res_bind].
    destruct (out_wr i tp ptb (Some p) rp P Hi HP _ y (it_data itn) Ho) as (s & -> & Ho'); [done|apply Hwf|]. cbn [mbind res_bind]. eexists. by split.
  - subst hp. unfold osw_tlv_put_copy. pose proof Hat as (-> & -> & -> & _ & Hdat). cbn [mbind res_bind]. unfold item_len. rewrite Nat2Z.id, Hdat.
    cbn [mbind res_bind]. rewrite (proj1 Hent).
    destruct (out_put i tp ptb None rp P Hi HP Hhp (it_type itn) (it_data itn) Ep src_wf src_entry) as (s & -> & Ho').
    cbn [mbind res_bind]. eexists. by split.
Qed.

Lemma arith_range type add sub ufl : arith type = Some (add, sub, ufl) -> forall a b, ld_ne (st_ne 4 (add a b)) = add a b.
Proof.
  unfold arith. intros E a b. apply ld_st_ne. destruct (type =? OSW_TLV_U32); [|destruct (type =? OSW_TLV_FLOAT); [|done]];
    injection E as <- <- <-; apply u32_range.
Qed.

Lemma ld_zeroes : ld_ne (replicate 4 0) = 0.
Proof. unfold ld_ne. by destruct host_big. Qed.

(** Adding the sample to the aggregate, and subtracting the previous one. *)
Lemma add_sub_ok add sub ufl :
  arith (it_type itn) = Some (add, sub, ufl) -> length (it_data itn) = 4%nat ->
  match P i with None => True | Some y => length y = 4%nat end ->
  exists s, (put ← needs_put (mk_side td hd) (item_len itn);
             dest ← (if (put : bool) then d ← side_put (mk_side td hd) (Z.of_nat i) (it_type itn) (item_len itn);
                       side_wr d (replicate (Z.to_nat (item_len itn)) 0) else Ok (mk_side td hd));
             v ← ld32 buf (src + 16); dest ← side_app add dest v;
             match hp with None => Ok dest | Some _ => p ← side_ld (mk_side tp hp); side_app sub dest p end) = Ok s /\
    outcome i dtb hd rd D s (Some (st_ne 4 (match P i with
      | None => add (from_option ld_ne 0 (D i)) (ld_ne (it_data itn))
      | Some y => sub (add (from_option ld_ne 0 (D i)) (ld_ne (it_data itn))) (ld_ne y) end))).
Proof.
  intros Har Hl4 Plen. assert (Hlen : item_len itn = 4) by (unfold item_len; lia). rewrite Hlen in *.
  destruct (ensure_ok (replicate 4 0)) as (s & E & Ho); [by rewrite Hl4|apply Forall_replicate; unfold is_u8; lia|].
  rewrite Hlen in E. change (Z.to_nat 4) with 4%nat.
  destruct (needs_put _ 4) as [put|]; [|done]. cbn [mbind res_bind] in *. rewrite E. cbn [mbind res_bind].
  rewrite (ld32_item _ _ _ Hat Hl4). cbn [mbind res_bind].
  assert (Hd4 : length (default (replicate 4 0) (D i)) = 4%nat) by (destruct (D i); [cbn; unfold id; congruence|done]).
  destruct (out_app i td dtb hd rd D Hi HD s _ add (ld_ne (it_data itn)) Ho Hd4) as (s1 & -> & Ho1). cbn [mbind res_bind].
  assert (Ev : ld_ne (default (replicate 4 0) (D i)) = from_option ld_ne 0 (D i)) by (destruct (D i); [done|apply ld_zeroes]).
  rewrite Ev in Ho1. pose proof (hdr_cases i tp ptb hp rp P Hi HP Hhp) as Hc. destruct (P i) as [y|] eqn:Ep.
  - destruct Hc as (p & _ & _ & -> & _). pose proof (out_same i tp ptb (Some p) rp P Hi HP Hhp) as Hop. rewrite Ep in Hop.
    rewrite (out_ld i tp ptb (Some p) rp P Hi HP _ _ Hop Plen). cbn [mbind res_bind].
    destruct (out_app i td dtb hd rd D Hi HD s1 _ sub (ld_ne y) Ho1) as (s2 & -> & Ho2); [apply length_st_ne|].
    rewrite (arith_range _ _ _ _ Har) in Ho2. eexists. by split.
  - subst hp. eexists. by split.
Qed.

Lemma accumulate_ok first :
  exists r sd sp, osw_tlv_merge_op_accumulate_cb buf src first (mk_side td hd) (mk_side tp hp) = Ok (r, sd, sp) /\
    let '(d', p', u) := accumulate (it_type itn) (it_flags itn) first (it_data itn) (D i) (P i) in
    outcome i dtb hd rd D sd d' /\ outcome i ptb hp rp P sp p' /\
    match r with OSW_TLV_MERGE_ERR_UNDERFLOW => true | _ => false end = u.
Proof.
  unfold osw_tlv_merge_op_accumulate_cb, accumulate. pose proof Hat as (Eid & Ety & Elen & -> & _). cbn [mbind res_bind]. rewrite Ety. cbn [mbind res_bind].
  destruct (known_type i itn Hent) as (a & b & c & -> & -> & -> & Hc). cbn [mbind res_bind].
  pose proof (out_same i td dtb hd rd D Hi HD Hhd) as HoD. pose proof (out_same i tp ptb hp rp P Hi HP Hhp) as HoP.
  pose proof (hdr_cases i tp ptb hp rp P Hi HP Hhp) as Hcase.
  destruct (arith (it_type itn)) as [[[add sub] ufl]|] eqn:Har.
  2:{ destruct Hc as (-> & ->). do 3 eexists. split; [done|]. by split_and!. }
  destruct Hc as (-> & -> & Hufl). assert (Hl4 : length (it_data itn) = 4%nat) by (apply (entry_word i itn Hent); congruence).
  assert (Plen : match P i with None => True | Some y => length y = 4%nat end).
  { destruct (P i) as [y|]; [|done]. destruct Hcase as (_ & _ & it & _ & _ & _ & _ & <- & He). apply (entry_word i it He).
    rewrite (entry_types i it itn He Hent). congruence. }
  assert (Plen' : match P i with None => True | Some y => length y = length (it_data itn) end) by (by destruct (P i); [rewrite Hl4|]).
  set (need := Z.land (it_flags itn) OSW_TLV_F_DELTA =? 0). cbn [s_hdr].
  destruct (add_sub_ok add sub ufl Har Hl4 Plen) as (sd & Esd & Hsd). rewrite get_data_ok by done. cbn [mbind res_bind].
  rewrite Eid, Elen. cbn [mbind res_bind]. rewrite (proj1 Hent). cbn zeta.
  assert (Hrun : exists r sp, (put ← needs_put (mk_side td hd) (item_len itn);
      dest ← (if (put : bool) then d ← side_put (mk_side td hd) (Z.of_nat i) (it_type itn) (item_len itn);
              side_wr d (replicate (Z.to_nat (item_len itn)) 0) else Ok (mk_side td hd));
      s ← ld32 buf (src + 16); dest ← side_app add dest s;
      dest ← match hp with None => Ok dest | Some _ => p ← side_ld (mk_side tp hp); side_app sub dest p end;
      store_maybe buf src need false dest (mk_side tp hp)) = Ok (r, sd, sp) /\ r = OSW_TLV_MERGE_OK /\
      outcome i ptb hp rp P sp (if need then Some (it_data itn) else P i)).
  { inv_ok Esd. rewrite E. cbn [mbind res_bind]. rewrite E0. cbn [mbind res_bind]. rewrite E1. cbn [mbind res_bind]. rewrite E2. cbn [mbind res_bind].
    destruct (store_maybe_ok need false sd Plen') as (sp & Esp & Hsp). exists OSW_TLV_MERGE_OK, sp. rewrite Esd. cbn [mbind res_bind].
    by rewrite Esp. }
  destruct Hrun as (r & sp & Erun & -> & Hsp). pose proof (store_maybe_ok need true (mk_side td hd) Plen') as Hst.
  pose proof (store_maybe_ok need false (mk_side td hd) Plen') as Hsf. destruct (P i) as [y|] eqn:Ep.
  - destruct Hcase as (p & _ & _ & -> & _).
    assert (Hu : op_underflow buf (src + 16) need c (mk_side tp (Some p)) = Ok (need && ufl (ld_ne (it_data itn)) (ld_ne y))).
    { rewrite Hufl. unfold op_underflow. cbn [s_hdr]. destruct need, c; cbn [andb negb]; try done. rewrite (ld32_item _ _ _ Hat Hl4), (out_ld i tp ptb (Some p) rp P Hi HP _ y); [done|exact HoP|done]. }
    rewrite Hu. cbn [mbind res_bind]. destruct (need && ufl _ _).
    + destruct Hst as (sp' & -> & Hsp'). do 3 eexists. split; [done|]. by split_and!.
    + do 3 eexists. split; [exact Erun|]. by split_and!.
  - subst hp. destruct (need && negb first).
    + destruct Hsf as (sp' & -> & Hsp'). do 3 eexists. split; [done|]. by split_and!.
    + replace (op_underflow buf (src + 16) need c (mk_side tp None)) with (@Ok bool false) by (by destruct need). cbn [mbind res_bind].
      do 3 eexists. split; [exact Erun|]. by split_and!.
Qed.
End Ops.

(** *** One id *)
Lemma idx_lookup {A} (l : list A) (i : nat) a : l !! i = Some a -> idx l (Z.of_nat i) = Ok a.
Proof. intros H. unfold idx. by rewrite Nat2Z.id, H. Qed.

Lemma side_inv_lookup b i t tb r T : (i < n)%nat -> side_inv b t tb r T -> exists h, tb !! i = Some h.
Proof.
  intros Hi (_ & _ & _ & Hl & _). apply lookup_lt_is_Some_2. lia.
Qed.

(** Dropping an aggregate of another length. *)
Lemma drop_ok i t tb h r T itn :
  (i < n)%nat -> side_inv i t tb r T -> tb !! i = Some h -> entry_item i itn ->
  exists b, match h with
    | None => Ok false
    | Some p => hdr ← resolve t p; ty ← hdr_type (bytes_of (t_data t)) hdr; len ← hdr_len (bytes_of (t_data t)) hdr;
        Ok (negb (ty =? it_type itn) || negb (len =? item_len itn))
    end = Ok b /\
    let h' := if (b : bool) then None else h in
    side_inv i t (<[i := h']> tb) (r || b) (tbl_upd T i (same_length (it_data itn) (T i))).
Proof.
  intros Hi Hinv Hh Hent. pose proof (hdr_cases i t tb h r T Hi Hinv Hh) as Hc. destruct (T i) as [d|] eqn:Ed.
  - destruct Hc as (p & hdr & it & -> & Hr & (_ & Ht & Hl & _) & _ & Hdat & He). rewrite Hr. cbn [mbind res_bind]. rewrite Ht, Hl. cbn [mbind res_bind].
    rewrite (entry_types i it itn He Hent), Z.eqb_refl. cbn [negb orb]. eexists. split; [done|]. unfold same_length. cbn [mbind option_bind].
    unfold item_len. rewrite Hdat. destruct (Z.eqb_spec (Z.of_nat (length d)) (Z.of_nat (length (it_data itn)))) as [E|E]; cbn [negb].
    + rewrite bool_decide_true by lia. rewrite orb_false_r, list_insert_id by done. eapply side_inv_ext; [|exact Hinv].
      intros j _. unfold tbl_upd. by case_decide; subst.
    + rewrite bool_decide_false by lia. rewrite orb_true_r. by eapply side_inv_drop.
  - subst h. eexists. split; [done|]. cbn. rewrite orb_false_r, list_insert_id by done. eapply side_inv_ext; [|exact Hinv].
    intros j _. unfold tbl_upd. by case_decide; subst.
Qed.

Lemma merge_at_ok merge buf src itn dof ms i m D P mp :
  (i < n)%nat -> item_at buf src itn -> src mod 4 = 0 -> wf_item itn -> entry_item i itn ->
  ms !! i = Some mp -> mpol_type mp <> OSW_TLV_OP_MERGE ->
  side_inv i (m_dest m) (m_dtb m) (m_dest_repack m) D -> side_inv i (m_prev m) (m_ptb m) (m_prev_repack m) P ->
  exists m', merge_at merge buf src dof (Some tps) ms i m = Ok m' /\
    let '(d', p', u) := op_spec (mpol_type mp) (it_type itn) (it_flags itn) (osw_tlv_merge_first_to_bool dof (mpol_first mp))
                          (it_data itn) (D i) (P i) in
    side_inv (S i) (m_dest m') (m_dtb m') (m_dest_repack m') (tbl_upd D i d') /\
    side_inv (S i) (m_prev m') (m_ptb m') (m_prev_repack m') (tbl_upd P i p') /\
    m_underflow m' = m_underflow m || u.
Proof.
  intros Hi Hat Hsrc Hwf Hent Hmp Hop HD HP. destruct (side_inv_lookup _ _ _ _ _ _ Hi HD) as [hd Hhd].
  destruct (side_inv_lookup _ _ _ _ _ _ Hi HP) as [hp Hhp]. unfold merge_at.
  rewrite (idx_lookup _ _ _ Hhd), (idx_lookup _ _ _ Hhp), (idx_lookup _ _ _ Hmp). cbn [mbind res_bind].
  pose proof Hat as (_ & -> & -> & _). cbn [mbind res_bind].
  assert (Hskip : (match hp with
    | None => Ok false
    | Some p => hdr ← resolve (m_prev m) p; t ← hdr_type (bytes_of (t_data (m_prev m))) hdr; Ok (negb (t =? it_type itn)) end) = Ok false).
  { pose proof (hdr_cases i _ _ hp _ P Hi HP Hhp) as Hc. destruct (P i); [|by subst hp].
    destruct Hc as (p & hdr & it & -> & -> & (_ & Ht & _) & _ & _ & He). cbn [mbind res_bind]. rewrite Ht. cbn [mbind res_bind].
    by rewrite (entry_types i it itn He Hent), Z.eqb_refl. }
  rewrite Hskip. cbn [mbind res_bind]. destruct (drop_ok i _ _ hd _ D itn Hi HD Hhd Hent) as (b & -> & HD1). cbn [mbind res_bind].
  set (hd' := if b then None else hd) in *. set (dtb := <[i := hd']> (m_dtb m)) in *. set (D1 := tbl_upd D i (same_length (it_data itn) (D i))) in *.
  assert (Hhd1 : dtb !! i = Some hd').
  { unfold dtb. apply list_lookup_insert_eq. by eapply lookup_lt_Some. }
  assert (ED1 : D1 i = same_length (it_data itn) (D i)) by (unfold D1, tbl_upd; by rewrite decide_True).
  assert (Dlen : match D1 i with None => True | Some d => length d = length (it_data itn) end).
  { rewrite ED1. unfold same_length. destruct (D i); [|done]. cbn. by case_bool_decide. }
  assert (Hfin : forall r sd sp d' p' u,
    outcome i dtb hd' (m_dest_repack m || b) D1 sd d' -> outcome i (m_ptb m) hp (m_prev_repack m) P sp p' ->
    match r with OSW_TLV_MERGE_ERR_UNDERFLOW => true | _ => false end = u ->
    let m' := mk_merge_st (s_tlv sd) (s_tlv sp) (<[i := s_hdr sd]> (m_dtb m)) (<[i := s_hdr sp]> (m_ptb m))
      (m_dest_repack m || b || negb (bool_decide (s_hdr sd = hd'))) (m_prev_repack m || negb (bool_decide (s_hdr sp = hp)))
      (m_underflow m || match r with OSW_TLV_MERGE_ERR_UNDERFLOW => true | _ => false end) in
    side_inv (S i) (m_dest m') (m_dtb m') (m_dest_repack m') (tbl_upd D i d') /\
    side_inv (S i) (m_prev m') (m_ptb m') (m_prev_repack m') (tbl_upd P i p') /\ m_underflow m' = m_underflow m || u).
  { intros r sd sp d' p' u Ho1 Ho2 Hu. unfold outcome in *. cbn. split_and!; [|done|by rewrite Hu].
    unfold dtb in Ho1. rewrite list_insert_insert_eq in Ho1. eapply side_inv_ext; [|exact Ho1]. intros j _. unfold D1. symmetry. apply upd_upd. }
  pose proof (out_same i _ _ hp _ P Hi HP Hhp) as HoP. pose proof (out_same i _ _ hd' _ D1 Hi HD1 Hhd1) as HoD.
  destruct (mpol_type mp); [| | |done]; unfold op_spec; rewrite <- ?ED1.
  - cbn [osw_tlv_merge_op_none_cb mbind res_bind]. eexists. split; [done|].
    exact (Hfin OSW_TLV_MERGE_OK _ _ _ _ _ HoD HoP eq_refl).
  - destruct (overwrite_ok buf src itn i Hi Hat Hsrc Hwf Hent (m_dest m) dtb hd' _ D1 HD1 Hhd1 Dlen (mk_side (m_prev m) hp)) as (s & -> & Ho).
    cbn [mbind res_bind]. eexists. split; [done|]. exact (Hfin OSW_TLV_MERGE_OK _ _ _ _ _ Ho HoP eq_refl).
  - destruct (accumulate_ok buf src itn i Hi Hat Hsrc Hwf Hent (m_dest m) dtb hd' _ D1 (m_prev m) (m_ptb m) hp _ P HD1 Hhd1 HP Hhp Dlen
      (osw_tlv_merge_first_to_bool dof (mpol_first mp))) as (r & sd & sp & -> & Ho). cbn [mbind res_bind]. eexists. split; [done|].
    destruct (accumulate _ _ _ _ _ _) as [[d' p'] u]. destruct Ho as (Ho1 & Ho2 & Hu). exact (Hfin r sd sp _ _ _ Ho1 Ho2 Hu).
Qed.

(** *** All ids *)
Definition spec_at (ms : list osw_tlv_merge_policy) (dof : bool) (N : nat -> option item) (j : nat) (d p : option (list Z))
    : option (list Z) * option (list Z) * bool :=
  match N j, ms !! j with
  | Some it, Some mp => op_spec (mpol_type mp) (it_type it) (it_flags it) (osw_tlv_merge_first_to_bool dof (mpol_first mp)) (it_data it) d p
  | _, _ => (d, p, false)
  end.

(** The entry of the sample's table for the id [j]. *)
Definition sample_entry (buf : list Z) (N : nat -> option item) (j : nat) (src : option Z) : Prop :=
  match N j with
  | None => src = None
  | Some it => exists o, src = Some o /\ item_at buf o it /\ o mod 4 = 0 /\ wf_item it /\ entry_item j it
  end.

Definition backwards ms dof (N : nat -> option item) (D P : nat -> option (list Z)) (js : list nat) : bool :=
  existsb (fun j => (spec_at ms dof N j (D j) (P j)).2) js.

Lemma backwards_upd ms dof N D P i d p js :
  i ∉ js -> backwards ms dof N (tbl_upd D i d) (tbl_upd P i p) js = backwards ms dof N D P js.
Proof.
  unfold backwards. induction js as [|j js IH]; intros Hi; [done|]. rewrite not_elem_of_cons in Hi. destruct Hi as [Hij Hi]. cbn [existsb].
  rewrite (IH Hi). unfold tbl_upd. by rewrite !decide_False by done.
Qed.

Lemma merge_loop_ok merge buf dof ms N : length ms = n -> Forall (fun mp => mpol_type mp <> OSW_TLV_OP_MERGE) ms ->
  forall ntb i m D P, (i + length ntb = n)%nat -> (forall k src, ntb !! k = Some src -> sample_entry buf N (i + k) src) ->
  side_inv i (m_dest m) (m_dtb m) (m_dest_repack m) D -> side_inv i (m_prev m) (m_ptb m) (m_prev_repack m) P ->
  exists m' D' P', merge_loop merge buf dof (Some tps) ms i ntb m = Ok m' /\
    side_inv n (m_dest m') (m_dtb m') (m_dest_repack m') D' /\ side_inv n (m_prev m') (m_ptb m') (m_prev_repack m') P' /\
    (forall j, (j < i)%nat -> D' j = D j /\ P' j = P j) /\
    (forall j, (i <= j < n)%nat -> (D' j, P' j) = (spec_at ms dof N j (D j) (P j)).1) /\
    m_underflow m' = m_underflow m || backwards ms dof N D P (seq i (length ntb)).
Proof.
  intros Hms Hleaf. induction ntb as [|src ntb IH]; intros i m D P Hlen Hsrc HD HP.
  { cbn in Hlen. replace i with n in * by lia. exists m, D, P. split_and!; try done; [lia|]. by rewrite orb_false_r. }
  cbn [length] in Hlen. assert (Hi : (i < n)%nat) by lia. pose proof (Hsrc 0%nat src eq_refl) as H0. rewrite Nat.add_0_r in H0.
  assert (Hrest : forall k s, ntb !! k = Some s -> sample_entry buf N (S i + k) s).
  { intros k s Hk. specialize (Hsrc (S k) s Hk). by rewrite Nat.add_succ_r in Hsrc. }
  assert (Hgo : forall m1 d' p' u, spec_at ms dof N i (D i) (P i) = (d', p', u) ->
    side_inv (S i) (m_dest m1) (m_dtb m1) (m_dest_repack m1) (tbl_upd D i d') -> side_inv (S i) (m_prev m1) (m_ptb m1) (m_prev_repack m1) (tbl_upd P i p') ->
    m_underflow m1 = m_underflow m || u ->
    exists m' D' P', merge_loop merge buf dof (Some tps) ms (S i) ntb m1 = Ok m' /\
      side_inv n (m_dest m') (m_dtb m') (m_dest_repack m') D' /\ side_inv n (m_prev m') (m_ptb m') (m_prev_repack m') P' /\
      (forall j, (j < i)%nat -> D' j = D j /\ P' j = P j) /\
      (forall j, (i <= j < n)%nat -> (D' j, P' j) = (spec_at ms dof N j (D j) (P j)).1) /\
      m_underflow m' = m_underflow m || backwards ms dof N D P (seq i (S (length ntb)))).
  { intros m1 d' p' u Es HD1 HP1 Hu. destruct (IH (S i) m1 _ _ ltac:(lia) Hrest HD1 HP1) as (m' & D' & P' & E & HD' & HP' & Hlt & Hge & Hu').
    exists m', D', P'. split_and!; try done.
    - intros j Hj. destruct (Hlt j ltac:(lia)) as [-> ->]. unfold tbl_upd. by rewrite !decide_False by lia.
    - intros j Hj. destruct (decide (j = i)) as [->|].
      + destruct (Hlt i ltac:(lia)) as [-> ->]. unfold tbl_upd. rewrite !decide_True, Es by done. done.
      + rewrite Hge by lia. unfold tbl_upd. by rewrite !decide_False by lia.
    - rewrite Hu', Hu, backwards_upd by (rewrite elem_of_seq; lia). cbn [seq]. unfold backwards at 2. cbn [existsb]. rewrite Es.
      by rewrite <- orb_assoc. }
  destruct (lookup_lt_is_Some_2 ms i) as [mp Hmp]; [lia|]. unfold sample_entry in H0. destruct (N i) as [itn|] eqn:En.
  - destruct H0 as (o & -> & Hat & Hm & Hw & He). cbn [merge_loop].
    destruct (merge_at_ok merge buf o itn dof ms i m D P mp Hi Hat Hm Hw He Hmp) as (m1 & -> & Hspec);
      [by apply (Forall_lookup_1 _ _ _ _ Hleaf Hmp)|done|done|]. cbn [mbind res_bind].
    destruct (op_spec _ _ _ _ _ _ _) as [[d' p'] u] eqn:Es. destruct Hspec as (H1 & H2 & H3).
    eapply Hgo; [|exact H1|exact H2|exact H3]. unfold spec_at. by rewrite En, Hmp.
  - subst src. cbn [merge_loop]. eapply (Hgo m (D i) (P i) false).
    + unfold spec_at. by rewrite En.
    + eapply side_inv_ext; [|by apply side_inv_step]. intros; apply upd_same.
    + eapply side_inv_ext; [|by apply side_inv_step]. intros; apply upd_same.
    + by rewrite orb_false_r.
Qed.

(** *** Repacking *)
Definition plain (it : item) : item := mk_item (it_id it) (it_type it) 0 (it_data it).

Lemma put_bytes_put_data t id type x t' d :
  osw_tlv_put_data t id type x = Ok (t', d) -> exists h, put_bytes t id type x = Ok (mk_side t' h).
Proof.
  intros E. unfold put_bytes. rewrite E. cbn [mbind res_bind]. unfold osw_tlv_put_data, osw_tlv_put in E.
  destruct (osw_tlv_reserve _ _) as [t2 o]. apply bind_Ok in E as ([t1 d1] & E1 & E2). apply bind_Ok in E2 as (t3 & _ & E2). injection E2 as -> ->.
  apply bind_Ok in E1 as (t4 & _ & E1). apply bind_Ok in E1 as (d2 & E1 & E3). injection E3 as _ ->. unfold osw_tlv_get_data in E1.
  apply bind_Ok in E1 as (u & Ep & E1). injection E1 as <-. change (OSW_TLV_ALIGN 16) with 16.
  rewrite get_hdr_ok; [cbn; by eexists|]. unfold ptr_aligned, c_assert, OSW_TLV_MASK in Ep. destruct (Z.land o 3 =? 0) eqn:E4; [|done].
  zbool. change 3 with (Z.ones 2) in E4. by rewrite Z.land_ones in E4 by lia.
Qed.

Definition leads_to (t : osw_tlv) (h : option hptr) (x : option item) : Prop :=
  match x with None => h = None | Some it => exists p hdr, h = Some p /\ resolve t p = Ok hdr /\ item_at (bytes_of (t_data t)) hdr it end.

Lemma repack_puts t tb xs tmp t' :
  Forall2 (leads_to t) tb xs -> puts tmp (omap (option_map plain) xs) = Ok t' -> repack_loop tmp t tb = Ok t'.
Proof.
  intros Hf. revert tmp. induction Hf as [|h x tb xs Hx _ IH]; intros tmp E; [exact E|].
  destruct x as [it|]; cbn in Hx; [|subst h; by apply IH]. destruct Hx as (p & hdr & -> & Hr & (Hid & Ht & Hl & _ & Hd)).
  cbn [repack_loop]. rewrite Hr. cbn [mbind res_bind]. unfold osw_tlv_put_copy. rewrite Hid, Ht, Hl. cbn [mbind res_bind].
  unfold item_len. rewrite Nat2Z.id, Hd. cbn [mbind res_bind]. change (omap _ (Some it :: xs)) with (plain it :: omap (option_map plain) xs) in E.
  cbn [puts] in E. apply bind_Ok in E as ([t1 d] & E1 & E2). apply put_bytes_put_data in E1 as [h E1]. cbn [plain it_id it_type it_data] in E1.
  rewrite E1. cbn [mbind res_bind s_tlv]. by apply IH.
Qed.

(** *** The table of a list of items *)
Definition newest (policy : option (list osw_tlv_policy)) (j : nat) (acc : option item) (it : item) : option item :=
  if (it_id it =? Z.of_nat j) && accepts policy it then Some it else acc.

Lemma slots_fold policy items j pre acc :
  (forall k, acc = Some k -> (k < length pre)%nat) ->
  (slots policy items j (length pre) acc ≫= fun k => (pre ++ items) !! k) = foldl (newest policy j) (acc ≫= fun k => pre !! k) items.
Proof.
  revert pre acc. induction items as [|it items IH]; intros pre acc Ha; cbn [slots foldl].
  { by rewrite app_nil_r. }
  specialize (IH (pre ++ [it]) (if (it_id it =? Z.of_nat j) && accepts policy it then Some (length pre) else acc)).
  rewrite length_app in IH. cbn [length] in IH. rewrite Nat.add_1_r, <- app_assoc in IH. cbn [app] in IH. rewrite IH.
  - f_equal. unfold newest. destruct (_ && _); cbn.
    + by rewrite lookup_app_r, Nat.sub_diag by lia.
    + destruct acc as [k|] eqn:E; [|done]. cbn. by rewrite lookup_app_l by (by apply Ha).
  - intros k. destruct (_ && _); intros H; [injection H as <-; lia|]. apply Ha in H. lia.
Qed.

Lemma table_fold policy items j : table_of policy items j = foldl (newest policy j) None items.
Proof. exact (slots_fold policy items j [] None ltac:(done)). Qed.

Lemma slots_entry policy items j k acc m :
  slots policy items j k acc = Some m ->
  acc = Some m \/ (k <= m)%nat /\ exists it, items !! (m - k)%nat = Some it /\ it_id it = Z.of_nat j /\ accepts policy it = true.
Proof.
  revert k acc. induction items as [|it items IH]; intros k acc E; cbn in E; [by left|].
  apply IH in E as [E|(Hk & it' & Hit & ?)].
  - destruct (_ && _) eqn:Eb; [|by left]. injection E as <-. right. split; [done|]. exists it. rewrite Nat.sub_diag. zbool. by split_and!.
  - right. split; [lia|]. exists it'. replace (m - k)%nat with (S (m - S k)) by lia. split; [exact Hit|done].
Qed.

Lemma slot_item items j k :
  slot_of (Some tps) items j = Some k -> exists it, items !! k = Some it /\ it_id it = Z.of_nat j /\ accepts (Some tps) it = true.
Proof.
  intros E. apply slots_entry in E as [E|(_ & it & Hit & ?)]; [done|]. rewrite Nat.sub_0_r in Hit. by exists it.
Qed.

(** The items of a repacked buffer. *)
Lemma compact_ok xs i :
  (i + length xs = n)%nat -> (forall k it, xs !! k = Some (Some it) -> entry_item (i + k) it /\ wf_item it) ->
  let L := omap (option_map plain) xs in
  Forall wf_item L /\ Forall (fun it => it_flags it = 0) L /\ padded L <= capsum i /\ volume L <= 513 * capsum i /\
  (forall acc j, (i <= j < n)%nat -> foldl (newest (Some tps) j) acc L = match xs !! (j - i)%nat with Some (Some it) => Some (plain it) | _ => acc end) /\
  (forall acc j, (j < i)%nat -> foldl (newest (Some tps) j) acc L = acc).
Proof.
  revert i. induction xs as [|x xs IH]; intros i Hl Hx; cbn zeta.
  { cbn in *. pose proof (capsum_nonneg i). split_and!; try constructor; try lia; done. }
  cbn [length] in Hl. destruct (IH (S i)) as (Hw & Hf & Hp & Hv & Ht & Hlt); [lia| |].
  { intros k it Hk. specialize (Hx (S k) it Hk). by rewrite Nat.add_succ_r in Hx. }
  assert (Hi : (i < n)%nat) by lia. rewrite (capsum_step i Hi). pose proof (align_bounds (16 + cap i)) as Ha. pose proof (cap_nonneg i) as Hc.
  destruct x as [it|].
  - destruct (Hx 0%nat it eq_refl) as [(Hid & Hacc & Hcap) Hwf]. rewrite Nat.add_0_r in *.
    change (omap (option_map plain) (Some it :: xs)) with (plain it :: omap (option_map plain) xs).
    assert (Hlen : item_len (plain it) = item_len it) by done. pose proof (item_len_nonneg it) as H0.
    assert (Hal : OSW_TLV_ALIGN (needs (plain it)) <= OSW_TLV_ALIGN (16 + cap i)).
    { rewrite !align_eq. unfold needs. rewrite Hlen. apply Z.mul_le_mono_nonneg_r; [lia|]. apply Z.div_le_mono; lia. }
    cbn [padded volume foldr]. fold (padded (omap (option_map plain) xs)) (volume (omap (option_map plain) xs)). split_and!.
    + constructor; [|done]. destruct Hwf as (? & ? & ? & ? & ?). unfold plain. split_and!; try done; cbn; unfold is_u32; lia.
    + by constructor.
    + lia.
    + rewrite Hlen. lia.
    + intros acc j Hj. cbn [foldl]. unfold newest at 2. change (accepts (Some tps) (plain it)) with (accepts (Some tps) it).
      rewrite Hacc, andb_true_r. cbn [plain it_id]. rewrite Hid. destruct (decide (j = i)) as [->|Hne].
      * rewrite Z.eqb_refl, Nat.sub_diag. cbn [lookup list_lookup]. apply Hlt. lia.
      * rewrite (proj2 (Z.eqb_neq _ _)) by lia. rewrite Ht by lia. by replace (j - i)%nat with (S (j - S i)) by lia.
    + intros acc j Hj. cbn [foldl]. unfold newest at 2. cbn [plain it_id]. rewrite (proj2 (Z.eqb_neq _ _)) by lia. cbn [andb]. apply Hlt. lia.
  - change (omap (option_map plain) (None :: xs)) with (omap (option_map plain) xs). split_and!; try done; try lia.
    + intros acc j Hj. destruct (decide (j = i)) as [->|Hne]; [rewrite Nat.sub_diag; cbn; apply Hlt; lia|].
      rewrite Ht by lia. by replace (j - i)%nat with (S (j - S i)) by lia.
    + intros acc j Hj. apply Hlt. lia.
Qed.

(** A buffer whose entries are [T], within the capacity. *)
Definition holds (t : osw_tlv) (T : nat -> option (list Z)) : Prop :=
  exists items, tlv_rep t items /\ (forall j, (j < n)%nat -> T j = it_data <$> table_of (Some tps) items j) /\
    (forall j it, (j < n)%nat -> table_of (Some tps) items j = Some it -> item_len it <= cap j) /\
    t_used t <= capsum 0 /\ (t_data t = None \/ 4112 <= t_size t < 2 ^ 40).

Lemma side_inv_finish t tb r T :
  side_inv n t tb r T -> exists t', (if r : bool then osw_tlv_merge_repack t tb else Ok t) = Ok t' /\ holds t' T.
Proof.
  intros (items & ks & Hrep & Hl & Htb & Hks & HT & Hb & Hr). destruct r.
  - set (xs := (fun j => ks j ≫= fun k => items !! k) <$> seq 0 n).
    assert (Hxs : forall j, (j < n)%nat -> xs !! j = Some (ks j ≫= fun k => items !! k)) by (intros j Hj; unfold xs; by rewrite list_lookup_fmap, lookup_seq_lt).
    assert (Hlx : length xs = n) by (unfold xs; by rewrite length_fmap, length_seq).
    destruct (compact_ok xs 0) as (Hw & Hf & Hp & Hv & Ht & _); [lia| |].
    { intros j it Hj. assert (Hjn : (j < n)%nat) by (rewrite <- Hlx; by eapply lookup_lt_Some). rewrite (Hxs j Hjn) in Hj.
      destruct (ks j) as [k|] eqn:Ek; [|done]. cbn in Hj. injection Hj as Hj. destruct (Hks _ _ Ek) as (it' & Hit' & He). assert (it' = it) as -> by congruence.
      split; [done|]. destruct Hrep as (Hwf & _). by eapply Forall_lookup_1. }
    destruct (puts_ok tlv_zero [] _ tlv_rep_zero Hw Hf) as (tmp & Ep & Hrep' & Hs & Hu & Hd); [cbn; lia|].
    assert (Hlead : Forall2 (leads_to t) tb xs).
    { apply Forall2_same_length_lookup_2; [lia|]. intros j h x Hh Hx. assert (Hjn : (j < n)%nat) by (rewrite <- Hlx; by eapply lookup_lt_Some).
      rewrite Htb in Hh by done. rewrite Hxs in Hx by done. destruct (ks j) as [k|] eqn:Ek; [|by injection Hh as <-; injection Hx as <-].
      cbn in *. destruct (Hks _ _ Ek) as (it & Hit & _). rewrite Hit in Hx. injection Hh as <-. injection Hx as <-.
      destruct (ptr_at _ _ _ _ Hrep Hit) as (o & -> & _ & Hr' & Hat & _). cbn. by exists (t_block t, o), o. }
    unfold osw_tlv_merge_repack. rewrite (repack_puts _ _ _ _ _ Hlead Ep). cbn [mbind res_bind]. eexists. split; [done|].
    exists (omap (option_map plain) xs). cbn [app] in Hrep'. split_and!.
    + exact Hrep'.
    + intros j Hj. rewrite table_fold, Ht, Nat.sub_0_r, Hxs, HT by lia. destruct (ks j) as [k|] eqn:Ek; [|done]. cbn.
      destruct (Hks _ _ Ek) as (it & -> & _). done.
    + intros j it Hj. rewrite table_fold, Ht, Nat.sub_0_r, Hxs by lia. destruct (ks j) as [k|] eqn:Ek; [|done]. cbn.
      destruct (Hks _ _ Ek) as (it' & -> & (_ & _ & Hcap)). intros [= <-]. exact Hcap.
    + cbn [t_used]. cbn in Hu. change (OSW_TLV_ALIGN 0) with 0 in Hu. lia.
    + cbn [t_data t_size]. destruct (omap (option_map plain) xs) as [|it L] eqn:EL.
      * cbn in Ep. injection Ep as <-. by left.
      * right. destruct (Hd ltac:(done)) as [_ Hd']. specialize (Hd' eq_refl). cbn [tlv_zero t_size] in Hs. pose proof (capsum_nonneg 0). lia.
  - exists t. split; [done|]. destruct (Hr eq_refl) as [Hslot Hu]. exists items. split_and!; try done.
    + intros j Hj. rewrite HT by done. unfold table_of. rewrite <- Hslot by done. by destruct (ks j).
    + intros j it Hj Hit. unfold table_of in Hit. rewrite <- Hslot in Hit by done. destruct (ks j) as [k|] eqn:Ek; [|done]. cbn in Hit.
      destruct (Hks _ _ Ek) as (it' & Hit' & (_ & _ & Hcap)). rewrite Hit in Hit'. by injection Hit' as <-.
    + destruct Hb as [?|(? & ? & ?)]; [by left|right; lia].
Qed.

(** *** The whole merge *)
Lemma holds_start t T :
  holds t T -> exists tb rem, osw_tlv_parse (bytes_of (t_data t)) (tlv_head t) (t_used t) (Some tps) (replicate n None) = Ok (tb, rem) /\
    side_inv 0 t (tb_ptrs t tb) false T.
Proof.
  intros (items & Hrep & HT & Hcap & Hu & Hs).
  assert (Hinv : side_inv 0 t (tb_ptrs t (table (Some tps) 0 items n)) false T).
  { exists items, (fun j => if decide (j < n)%nat then slot_of (Some tps) items j else None). split_and!; try done.
    - unfold tb_ptrs, table. by rewrite !length_fmap, length_seq.
    - intros j Hj. rewrite decide_True by done. unfold tb_ptrs, table, ptr_of. rewrite !list_lookup_fmap, lookup_seq_lt by done. cbn.
      by destruct (slot_of (Some tps) items j).
    - intros j k. case_decide as Hj; [|done]. intros Ek. destruct (slot_item _ _ _ Ek) as (it & Hit & Hid & Hacc). exists it. split; [done|].
      split_and!; [done|done|]. apply (Hcap j it Hj). unfold table_of. by rewrite Ek.
    - intros j Hj. rewrite decide_True, HT by done. unfold table_of. by destruct (slot_of (Some tps) items j).
    - destruct Hs as [?|[? ?]]; [by left|right]. pose proof (align_bounds (t_used t)). split_and!; lia.
    - intros _. split; [|done]. intros j Hj. by rewrite decide_True. }
  destruct (t_data t) as [buf|] eqn:Hd.
  - exists (table (Some tps) 0 items n), 0. split; [|done]. unfold tlv_head. rewrite Hd. cbn [bytes_of].
    pose proof Hrep as (Hw & _ & _ & _ & Hl & Hb & Hsz). rewrite Hd in *. cbn [bytes_of] in *. destruct Hs as [?|Hs]; [done|].
    rewrite <- (Z.sub_0_r (t_used t)) at 1. rewrite (parse_laid buf 0 (t_used t) items (Some tps) n) by (done || lia). unfold tail_room. rewrite (proj2 (Z.leb_le _ _)) by lia. by rewrite orb_true_r.
  - destruct (rep_none _ _ Hrep Hd) as (-> & Hu0 & _). exists (table (Some tps) 0 [] n), 0. split; [|done]. unfold tlv_head. rewrite Hd, Hu0.
    unfold osw_tlv_parse, osw_tlv_for_each. cbn. repeat f_equal. unfold table. apply list_eq. intros j.
    rewrite list_lookup_fmap. destruct (decide (j < n)%nat).
    + rewrite lookup_replicate_2, lookup_seq_lt by done. done.
    + rewrite !lookup_ge_None_2; rewrite ?length_replicate, ?length_seq; [done|lia|lia].
Qed.

(** A sample: a well-formed stretch of a buffer, within the capacity. *)
Record stats_sample (buf : list Z) (base len : Z) (items : list item) : Prop := {
  sa_bytes : bytes_ok buf;
  sa_base : 0 <= base <= Z.of_nat (length buf) /\ base mod 4 = 0;
  sa_items : Forall wf_item items;
  sa_laid : laid buf base (base + len) items;
  sa_room : tail_room buf (base + len) = true;
  sa_cap : forall j it, (j < n)%nat -> table_of (Some tps) items j = Some it -> item_len it <= cap j
}.

Lemma sample_entries buf base len items :
  stats_sample buf base len items -> exists ntb rem,
    osw_tlv_parse buf (Some base) len (Some tps) (replicate n None) = Ok (ntb, rem) /\ length ntb = n /\
    forall k src, ntb !! k = Some src -> sample_entry buf (table_of (Some tps) items) (0 + k) src.
Proof.
  intros [Hb [H0 Hm] Hw Hl Hr Hcap]. pose proof (parse_laid buf base (base + len) items (Some tps) n Hb Hw H0 Hm Hl ltac:(cbn; lia)) as E.
  replace (base + len - base) with len in E by lia. rewrite Hr in E. exists (table (Some tps) base items n), 0. split; [done|].
  split; [unfold table; by rewrite length_fmap, length_seq|]. intros k src Hk. cbn [Nat.add].
  assert (Hkn : (k < n)%nat) by (apply lookup_lt_Some in Hk; unfold table in Hk; by rewrite length_fmap, length_seq in Hk).
  unfold table in Hk. rewrite list_lookup_fmap, lookup_seq_lt in Hk by done. cbn in Hk. injection Hk as <-. unfold sample_entry, table_of.
  destruct (slot_of (Some tps) items k) as [m|] eqn:Ek; [|done]. cbn. destruct (slot_item _ _ _ Ek) as (it & Hit & Hid & Hacc). rewrite Hit.
  destruct (Forall2_lookup_r _ _ _ _ _ (laid_placed _ _ _ _ Hw (proj1 H0) Hl) Hit) as (o & Ho & Hat). exists o. rewrite Ho.
  split; [done|]. split; [done|]. split; [by apply (offsets_ge _ _ _ _ Ho)|]. split; [by eapply Forall_lookup_1|].
  split_and!; [done|done|]. apply (Hcap k it Hkn). unfold table_of. by rewrite Ek.
Qed.

Lemma merge_ok depth ms dof buf base len items dest prev D P :
  length ms = n -> Forall (fun mp => mpol_type mp <> OSW_TLV_OP_MERGE) ms -> stats_sample buf base len items -> holds dest D -> holds prev P ->
  exists dest' prev' D' P', let N := table_of (Some tps) items in
    osw_tlv_merge (S depth) dest prev buf (Some base) len dof (Some tps) (Some ms) (Z.of_nat n) =
      Ok (if backwards ms dof N D P (seq 0 n) then OSW_TLV_MERGE_ERR_UNDERFLOW else OSW_TLV_MERGE_OK, dest', prev') /\
    holds dest' D' /\ holds prev' P' /\ forall j, (j < n)%nat -> (D' j, P' j) = (spec_at ms dof N j (D j) (P j)).1.
Proof.
  intros Hms Hleaf Hsam HD HP. destruct (holds_start _ _ HD) as (dtb & r1 & E1 & ID). destruct (holds_start _ _ HP) as (ptb & r2 & E2 & IP).
  destruct (sample_entries _ _ _ _ Hsam) as (ntb & r3 & E3 & Hl & Hent). cbn [osw_tlv_merge]. unfold merge_with. rewrite Nat2Z.id, E1. cbn [mbind res_bind].
  rewrite E2. cbn [mbind res_bind]. rewrite E3. cbn [mbind res_bind].
  destruct (merge_loop_ok (osw_tlv_merge depth) buf dof ms (table_of (Some tps) items) Hms Hleaf ntb 0
    (mk_merge_st dest prev (tb_ptrs dest dtb) (tb_ptrs prev ptb) false false false) D P) as (m & D' & P' & -> & ID' & IP' & _ & Hspec & Hu); [lia|done|done|done|].
  cbn [mbind res_bind]. destruct (side_inv_finish _ _ _ _ ID') as (dest' & -> & HD'). cbn [mbind res_bind].
  destruct (side_inv_finish _ _ _ _ IP') as (prev' & -> & HP'). cbn [mbind res_bind]. exists dest', prev', D', P'. cbn zeta.
  rewrite Hu, Hl. cbn [m_underflow orb]. split_and!; try done. intros j Hj. apply Hspec. lia.
Qed.

(** *** Buckets *)
Lemma holds_none t : t_data t = None -> t_size t = 0 -> t_used t = 0 -> holds t (fun _ => None).
Proof.
  intros Hd Hs Hu. exists []. unfold tlv_rep. rewrite Hd, Hs, Hu. cbn. pose proof (capsum_nonneg 0). split_and!; try done; try constructor; done || lia.
Qed.

Lemma used_zero t items : tlv_rep t items -> t_used t = 0 \/ 16 <= t_used t.
Proof.
  intros (_ & _ & _ & _ & Hl & _). destruct items as [|it items]; cbn [laid] in Hl; [by left|right]. destruct Hl as [_ Hl].
  pose proof (item_len_nonneg it). unfold item_end in Hl. destruct items; [lia|]. apply laid_last_le in Hl.
  pose proof (align_bounds (0 + 16 + item_len it)). lia.
Qed.

Lemma copy_holds t T : holds t T -> exists t', osw_tlv_copy tlv_zero t = Ok t' /\ holds t' T.
Proof.
  intros (items & Hrep & HT & Hcap & Hu & Hs). pose proof (used_zero _ _ Hrep) as Hz. pose proof (rep_used _ _ Hrep) as [Hu0 _].
  pose proof Hrep as (Hw & H62 & Hm & Hle & Hl & Hb & Hsz). unfold osw_tlv_copy. cbn [osw_tlv_fini tlv_zero t_data].
  unfold osw_tlv_reserve, osw_tlv_grow. cbn [tlv_zero t_data t_size t_used t_block bytes_of app]. change (size_t (0 - OSW_TLV_ALIGN 0)) with 0.
  rewrite rd_bytes_slice by lia. cbn [Z.to_nat drop]. change (OSW_TLV_ALIGN 0) with 0 in *. destruct Hz as [Hz|Hz].
  - rewrite Hz. cbn. eexists. split; [done|]. exists items.
    assert (items = []) as ->.
    { destruct items as [|it items]; [done|]. exfalso. rewrite Hz in Hl. cbn [laid] in Hl. destruct Hl as [_ Hl]. pose proof (item_len_nonneg it). unfold item_end in Hl.
      destruct items; [lia|]. apply laid_last_le in Hl. pose proof (align_bounds (0 + 16 + item_len it)). lia. }
    unfold tlv_rep. cbn. pose proof (capsum_nonneg 0). split_and!; try done; try constructor; done || lia.
  - rewrite (proj2 (Z.leb_gt _ _)) by lia. cbn [t_data t_size t_used t_block]. rewrite Z.sub_0_r, !Z.add_0_l.
    set (ns := OSW_TLV_ALIGN (t_used t + OSW_TLV_TAILROOM)). pose proof (align_bounds (t_used t + OSW_TLV_TAILROOM)) as Ha.
    pose proof (align_mod (t_used t + OSW_TLV_TAILROOM)) as Hm2. fold ns in Ha, Hm2. unfold OSW_TLV_TAILROOM in *.
    set (bs := take (Z.to_nat (t_used t)) (bytes_of (t_data t))).
    assert (Hlb : Z.of_nat (length bs) = t_used t) by (unfold bs; rewrite length_take; lia).
    destruct (wr_bytes_ok (replicate (Z.to_nat ns) 0) 0 bs) as (b & E & L & B & _ & S & _);
      [done|rewrite length_replicate; lia|apply Forall_replicate; unfold is_u8; lia|by apply Forall_take|].
    change (OSW_TLV_ALIGN 0) with 0. change (drop (Z.to_nat 0) (bytes_of (t_data t))) with (bytes_of (t_data t)). fold bs.
    unfold tlv_wr. cbn [mbind res_bind t_data bytes_of t_block t_size t_used]. rewrite E. cbn [mbind res_bind]. eexists. split; [done|].
    exists items. cbn [t_used t_size t_data]. rewrite length_replicate in L. split_and!; try done.
    + unfold tlv_rep. cbn [t_data bytes_of t_size t_used]. split_and!; try done || lia. eapply laid_agree; [|done|exact Hl].
      change (take (length bs) b = bs) in S. replace (Z.to_nat (t_used t)) with (length bs) by lia. rewrite S. unfold bs.
      rewrite length_take. by rewrite Nat.min_l by lia.
    + right. unfold tlv_rep in Hrep. destruct Hs as [Hs|Hs]; [destruct (rep_none _ _ Hrep Hs); lia|]. pose proof (capsum_nonneg 0). lia.
Qed.

Lemma bucket_ok depth ms first buf base len items b D P :
  length ms = n -> Forall (fun mp => mpol_type mp <> OSW_TLV_OP_MERGE) ms -> stats_sample buf base len items -> holds (b_data b) D -> holds (b_last b) P ->
  exists b' D' P', let N := table_of (Some tps) items in let back := backwards ms first N D P (seq 0 n) in
    osw_stats_bucket_put (S depth) b buf (Some base) len first (Some tps) (Some ms) (Z.of_nat n) =
      Ok (if back then OSW_TLV_MERGE_ERR_UNDERFLOW else OSW_TLV_MERGE_OK, b') /\
    holds (b_data b') D' /\ holds (b_last b') P' /\
    forall j, (j < n)%nat -> (D' j, P' j) = (spec_at ms first N j (D j) (if back then None else P j)).1.
Proof.
  intros Hms Hleaf Hsam HD HP. destruct (copy_holds _ _ HD) as (bk & Ebk & Hbk). unfold osw_stats_bucket_put. rewrite Ebk. cbn [mbind res_bind].
  destruct (merge_ok depth ms first buf base len items (b_data b) (b_last b) D P Hms Hleaf Hsam HD HP) as (d & l & D' & P' & E & HD' & HP' & Hspec).
  rewrite E. cbn [mbind res_bind]. cbn zeta. destruct (backwards ms first (table_of (Some tps) items) D P (seq 0 n)).
  - assert (Hl0 : holds (osw_tlv_fini l) (fun _ => None)).
    { destruct HP' as (its & Hrep & _). unfold osw_tlv_fini. destruct (t_data l) as [bl|] eqn:El; [by apply holds_none|].
      destruct (rep_none _ _ Hrep El) as (_ & ? & ?). by apply holds_none. }
    destruct (merge_ok depth ms first buf base len items bk (osw_tlv_fini l) D (fun _ => None) Hms Hleaf Hsam Hbk Hl0) as (d2 & l2 & D2 & P2 & E2 & HD2 & HP2 & Hspec2).
    rewrite E2. cbn [mbind res_bind]. by exists (mk_bucket d2 l2), D2, P2.
  - by exists (mk_bucket d l), D', P'.
Qed.

(** *** A session of a counter *)

(** A sample as the bucket gets it. *)
Record sample_in := mk_sample_in { si_buf : list Z; si_base : Z; si_len : Z; si_items : list item }.
Definition sample_in_ok (x : sample_in) : Prop := stats_sample (si_buf x) (si_base x) (si_len x) (si_items x).

Fixpoint bucket_puts (depth : nat) (ms : list osw_tlv_merge_policy) (first : bool) (b : osw_stats_bucket) (xs : list sample_in)
    : res (list osw_tlv_merge_result * osw_stats_bucket) :=
  match xs with
  | [] => Ok ([], b)
  | x :: xs =>
      '(r, b) ← osw_stats_bucket_put depth b (si_buf x) (Some (si_base x)) (si_len x) first (Some tps) (Some ms) (Z.of_nat n);
      '(rs, b) ← bucket_puts depth ms first b xs;
      Ok (r :: rs, b)
  end.

(** The sample reports the value [v] of the counter [j] in absolute terms. *)
Definition reports (j : nat) (x : sample_in) (v : Z) : Prop :=
  exists it, table_of (Some tps) (si_items x) j = Some it /\ it_type it = OSW_TLV_U32 /\ Z.land (it_flags it) OSW_TLV_F_DELTA = 0 /\
    ld_ne (it_data it) = v.

Definition word_total (T : nat -> option (list Z)) (j : nat) : Z := from_option ld_ne 0 (T j).

Section Counter.
Context (ms : list osw_tlv_merge_policy) (first : bool) (j : nat) (mp : osw_tlv_merge_policy).
Hypothesis Hms : length ms = n.
Hypothesis Hleaf : Forall (fun mp => mpol_type mp <> OSW_TLV_OP_MERGE) ms.
Hypothesis Hj : (j < n)%nat.
Hypothesis Hmp : ms !! j = Some mp.
Hypothesis Hop : mpol_type mp = OSW_TLV_OP_ACCUMULATE.
Hypothesis Hfirst : osw_tlv_merge_first_to_bool first (mpol_first mp) = true.

Lemma reports_word x v : sample_in_ok x -> reports j x v -> exists it, table_of (Some tps) (si_items x) j = Some it /\
  it_type it = OSW_TLV_U32 /\ Z.land (it_flags it) OSW_TLV_F_DELTA = 0 /\ ld_ne (it_data it) = v /\ length (it_data it) = 4%nat.
Proof.
  intros Hx (it & Ht & Hty & Hf & Hv). exists it. split_and!; try done. unfold table_of in Ht.
  destruct (slot_of (Some tps) (si_items x) j) as [k|] eqn:Ek; [|done]. cbn in Ht. destruct (slot_item _ _ _ Ek) as (it' & Hit' & Hid & Hacc).
  rewrite Ht in Hit'. injection Hit' as <-. apply (entry_word j it).
  - split_and!; try done. destruct Hx as [_ _ _ _ _ Hcap]. apply (Hcap j it Hj). unfold table_of. by rewrite Ek.
  - rewrite Hty. done.
Qed.

Definition word_sized (T : nat -> option (list Z)) : Prop := match T j with None => True | Some d => length d = 4%nat end.

Lemma counter_step x v D p :
  sample_in_ok x -> reports j x v -> word_sized D ->
  match p with None => True | Some y => osw_stats_type_u32_ufl_cb v (ld_ne y) = false end ->
  exists it, ld_ne (it_data it) = v /\
    (spec_at ms first (table_of (Some tps) (si_items x)) j (D j) p).1 =
      (Some (st_ne 4 (u32 (word_total D j + v - from_option ld_ne 0 p))), Some (it_data it)).
Proof.
  intros Hx Hr Hd Hp. destruct (reports_word x v Hx Hr) as (it & Ht & Hty & Hf & Hv & Hl). exists it. split; [done|].
  unfold spec_at. rewrite Ht, Hmp. unfold op_spec. rewrite Hop. unfold accumulate. rewrite Hty. cbn [arith Z.eqb Pos.eqb OSW_TLV_U32]. rewrite Hf, Hfirst. cbn [negb andb Z.eqb].
  assert (Es : same_length (it_data it) (D j) = D j).
  { unfold same_length. unfold word_sized in Hd. destruct (D j) as [d|]; [|done]. cbn. by rewrite bool_decide_true by lia. }
  rewrite Es, Hv. fold (word_total D j). destruct p as [y|]; cbn [from_option].
  - rewrite Hp. cbn [fst]. unfold osw_stats_type_u32_sub_cb, osw_stats_type_u32_add_cb. by rewrite u32_sub_l.
  - cbn [fst]. unfold osw_stats_type_u32_add_cb. by rewrite Z.sub_0_r.
Qed.

Lemma backwards_at N D P : backwards ms first N D P (seq 0 n) = false -> (spec_at ms first N j (D j) (P j)).2 = false.
Proof.
  unfold backwards. intros H. rewrite <- not_true_iff_false, existsb_exists in H. apply not_true_iff_false. intros E. apply H.
  exists j. split; [|done]. apply in_seq. lia.
Qed.

Lemma bucket_puts_total depth xs b D P :
  Forall sample_in_ok xs -> holds (b_data b) D -> holds (b_last b) P ->
  exists rs b', bucket_puts (S depth) ms first b xs = Ok (rs, b') /\ length rs = length xs.
Proof.
  intros Hxs. revert b D P. induction Hxs as [|x xs Hx _ IH]; intros b D P HD HP; [by exists [], b|].
  destruct (bucket_ok depth ms first _ _ _ _ b D P Hms Hleaf Hx HD HP) as (b1 & D1 & P1 & E1 & HD1 & HP1 & _). cbn [bucket_puts].
  cbn zeta in E1. rewrite E1. cbn [mbind res_bind]. destruct (IH b1 D1 P1 HD1 HP1) as (rs & b' & -> & Hl). cbn [mbind res_bind].
  do 2 eexists. split; [done|]. cbn. by rewrite Hl.
Qed.

Lemma counter_run depth xs vs b D P tot y rs b' :
  Forall sample_in_ok xs -> Forall2 (reports j) xs vs -> holds (b_data b) D -> holds (b_last b) P ->
  P j = Some y -> D j = Some (st_ne 4 (u32 (tot + ld_ne y))) ->
  bucket_puts (S depth) ms first b xs = Ok (rs, b') -> Forall (fun r => r = OSW_TLV_MERGE_OK) rs ->
  exists D' P', holds (b_data b') D' /\ holds (b_last b') P' /\
    word_total D' j = u32 (tot + List.last vs (ld_ne y)) /\ word_total P' j = List.last vs (ld_ne y).
Proof.
  intros Hxs. revert vs b D P y rs. induction Hxs as [|x xs Hx _ IH]; intros vs b D P y rs Hr HD HP Hy Ed Er Hok.
  { inversion Hr; subst. cbn in Er. injection Er as <- <-. exists D, P. unfold word_total. rewrite Ed, Hy. cbn. split_and!; try done.
    apply ld_st_ne, u32_range. }
  apply Forall2_cons_inv_l in Hr as (v & vs' & Hv & Hr & ->).
  destruct (bucket_ok depth ms first _ _ _ _ b D P Hms Hleaf Hx HD HP) as (b1 & D1 & P1 & E1 & HD1 & HP1 & Hspec). cbn [bucket_puts] in Er.
  cbn zeta in E1, Hspec. rewrite E1 in Er. cbn [mbind res_bind] in Er. apply bind_Ok in Er as ([rs1 b2] & Er & E2). injection E2 as <- ->.
  apply Forall_cons_1 in Hok as [Hok1 Hok]. destruct (backwards _ _ _ _ _ _) eqn:Eb in Hok1, Hspec; [done|].
  assert (Hword : word_sized D) by (unfold word_sized; by rewrite Ed, length_st_ne).
  assert (Hufl : osw_stats_type_u32_ufl_cb v (ld_ne y) = false).
  { apply backwards_at in Eb. destruct (reports_word x v Hx Hv) as (it & Ht & Hty & Hf & Hdv & _). unfold spec_at in Eb.
    rewrite Ht, Hmp in Eb. unfold op_spec in Eb. rewrite Hop in Eb. unfold accumulate in Eb. rewrite Hty, Hf, Hy, Hdv in Eb.
    cbn [arith Z.eqb Pos.eqb OSW_TLV_U32 andb] in Eb. by destruct (osw_stats_type_u32_ufl_cb v (ld_ne y)). }
  destruct (counter_step x v D (Some y) Hx Hv Hword Hufl) as (it & Hit & Es). specialize (Hspec j Hj). rewrite Hy, Es in Hspec. injection Hspec as HDj HPj.
  destruct (IH vs' b1 D1 P1 (it_data it) rs1 Hr HD1 HP1 HPj) as (D' & P' & ? & ? & E & E'); [|done|done|].
  - rewrite HDj, Hit. do 2 f_equal. unfold word_total. rewrite Ed. cbn [from_option]. rewrite ld_st_ne by apply u32_range.
    rewrite <- Z.add_sub_assoc, u32_add_l. f_equal. lia.
  - exists D', P'. rewrite Hit in E, E'. destruct vs' as [|v' vs']; [done|]. change (List.last (v :: v' :: vs') (ld_ne y)) with (List.last (v' :: vs') (ld_ne y)).
    assert (El : forall a c, List.last (v' :: vs') a = List.last (v' :: vs') c) by (intros a c; clear; revert v'; induction vs' as [|w l IHl]; intros v'; [done|apply (IHl w)]).
    by rewrite (El (ld_ne y) v).
Qed.
End Counter.
End Tables.

(** C25: Merging statistics refines an independent merge of each id.  For policies
    without nesting, samples and buffers within the capacity, [osw_tlv_merge] runs
    without following a stale pointer or leaving a buffer, whatever the layout of
    the buffers; afterwards the aggregate and the previous sample hold for each id
    what the operation of that id makes of its own entries, and the result
    reports a counter that ran backwards. *)
Theorem merge_refines tps cap ms depth dof buf base len items dest prev D P :
  (forall j, 0 <= cap j < 2 ^ 20) -> 2 * capsum cap (length tps) 0 + 4 <= 4096 ->
  length ms = length tps -> Forall (fun mp => mpol_type mp <> OSW_TLV_OP_MERGE) ms ->
  stats_sample tps cap (length tps) buf base len items ->
  holds tps cap (length tps) dest D -> holds tps cap (length tps) prev P ->
  exists dest' prev' D' P', let N := table_of (Some tps) items in
    osw_tlv_merge (S depth) dest prev buf (Some base) len dof (Some tps) (Some ms) (Z.of_nat (length tps)) =
      Ok (if backwards ms dof N D P (seq 0 (length tps)) then OSW_TLV_MERGE_ERR_UNDERFLOW else OSW_TLV_MERGE_OK, dest', prev') /\
    holds tps cap (length tps) dest' D' /\ holds tps cap (length tps) prev' P' /\
    forall j, (j < length tps)%nat -> (D' j, P' j) = (spec_at ms dof N j (D j) (P j)).1.
Proof. intros Hcap Hc. by apply merge_ok. Qed.

(** C28: A session of a 32-bit counter adds its last value.  The counter accumulates under a
    first-sample policy that counts the first sample from zero ([osw_tlv_merge_first_to_bool] is
    true; with two samples as the minimum the total would grow by last minus first, and
    nothing is said of that here).  The session starts with a sample of a counter that
    the bucket has no previous sample of, or with one at which the merge reports that a
    counter ran backwards; then follow any number of samples that the merges accept
    as running forwards.  Every sample reports the counter, policies have no nesting, and
    samples and buckets are within the capacity.  The merges run without a fault, and the
    total of the counter has then grown by the last value, modulo 2^32, however often
    the counter was sampled; the value kept for the next sample is that last value. *)
Theorem session_total tps cap ms depth first j mp x xs v vs b D P :
  (forall j, 0 <= cap j < 2 ^ 20) -> 2 * capsum cap (length tps) 0 + 4 <= 4096 ->
  length ms = length tps -> Forall (fun mp => mpol_type mp <> OSW_TLV_OP_MERGE) ms ->
  (j < length tps)%nat -> ms !! j = Some mp -> mpol_type mp = OSW_TLV_OP_ACCUMULATE ->
  osw_tlv_merge_first_to_bool first (mpol_first mp) = true ->
  Forall (sample_in_ok tps cap (length tps)) (x :: xs) -> Forall2 (reports tps j) (x :: xs) (v :: vs) ->
  holds tps cap (length tps) (b_data b) D -> holds tps cap (length tps) (b_last b) P -> word_sized j D ->
  exists r rs b', bucket_puts tps (length tps) (S depth) ms first b (x :: xs) = Ok (r :: rs, b') /\
    (r = OSW_TLV_MERGE_ERR_UNDERFLOW \/ P j = None -> Forall (fun r => r = OSW_TLV_MERGE_OK) rs ->
     exists D' P', holds tps cap (length tps) (b_data b') D' /\ holds tps cap (length tps) (b_last b') P' /\
       word_total D' j = u32 (word_total D j + List.last (v :: vs) 0) /\ word_total P' j = List.last (v :: vs) 0).
Proof.
  intros Hcap Hc Hms Hleaf Hj Hmp Hop Hfirst Hxs Hr HD HP Hd. apply Forall_cons_1 in Hxs as [Hx Hxs]. apply Forall2_cons_1 in Hr as [Hv Hr].
  destruct (bucket_ok tps cap (length tps) Hcap eq_refl Hc depth ms first _ _ _ _ b D P Hms Hleaf Hx HD HP) as (b1 & D1 & P1 & E1 & HD1 & HP1 & Hspec).
  cbn zeta in E1, Hspec. cbn [bucket_puts]. rewrite E1. cbn [mbind res_bind].
  destruct (bucket_puts_total tps cap (length tps) Hcap eq_refl Hc ms first Hms Hleaf depth xs b1 D1 P1 Hxs HD1 HP1) as (rs & b' & E2 & Hl).
  rewrite E2. cbn [mbind res_bind]. do 3 eexists. split; [done|]. intros Hstart Hok.
  set (back := backwards _ _ _ _ _ _) in *.
  assert (Hp : (if back then None else P j) = None).
  { destruct back; [done|]. by destruct Hstart. }
  destruct (counter_step tps cap (length tps) eq_refl ms first j mp Hms Hj Hmp Hop Hfirst x v D None Hx Hv Hd Logic.I) as (it & Hit & Es).
  specialize (Hspec j Hj). rewrite Hp, Es in Hspec. injection Hspec as HDj HPj. cbn [from_option] in HDj. rewrite Z.sub_0_r in HDj.
  destruct (counter_run tps cap (length tps) Hcap eq_refl Hc ms first j mp Hms Hleaf Hj Hmp Hop Hfirst depth xs vs b1 D1 P1 (word_total D j) (it_data it) rs b'
    Hxs Hr HD1 HP1 HPj) as (D' & P' & ? & ? & E & E'); [by rewrite HDj, Hit|done|done|].
  exists D', P'. rewrite Hit in E, E'. destruct vs as [|w vs]; [by split_and!|].
  change (List.last (v :: w :: vs) 0) with (List.last (w :: vs) 0).
  assert (El : forall a c, List.last (w :: vs) a = List.last (w :: vs) c) by (intros a c; clear; revert w; induction vs as [|u l IHl]; intros w; [done|apply (IHl u)]).
  rewrite (El 0 v). by split_and!.
Qed.
End OswTlvMerge.

(** ** Concrete runs *)
Section Runs.
#[local] Instance le_host : HostEndian := false.

Definition u32_policy : osw_tlv_policy := mk_tpolicy OSW_TLV_U32 0 0 None 0.
Definition acc_policy : osw_tlv_merge_policy := mk_mpolicy OSW_TLV_OP_ACCUMULATE OSW_TLV_INHERIT_FIRST None 0.
Definition two_counters : list item := [mk_item 0 OSW_TLV_U32 0 [5; 0; 0; 0]; mk_item 1 OSW_TLV_U32 0 [9; 0; 0; 0]].
Definition two_bytes : list Z := match puts tlv_zero two_counters with Ok t => bytes_of (t_data t) | Err _ => [] end.

Lemma two_sample : stats_sample [u32_policy; u32_policy] (fun _ => 4) 2 two_bytes 0 40 two_counters.
Proof.
  split.
  - apply (bool_decide_unpack _). vm_compute. exact I.
  - split; [|done]. split; [done|vm_compute; congruence].
  - apply (bool_decide_unpack _). vm_compute. exact I.
  - vm_compute. done.
  - vm_compute. done.
  - intros [|[|j]] it Hj Ht; [..|lia]; vm_compute in Ht; injection Ht as <-; vm_compute; congruence.
Qed.

Lemma holds_zero : holds [u32_policy; u32_policy] (fun _ => 4) 2 tlv_zero (fun _ => None).
Proof. by apply holds_none. Qed.

Lemma merge_refines_witness :
  exists dest' prev' D' P', let N := table_of (Some [u32_policy; u32_policy]) two_counters in
    osw_tlv_merge 1 tlv_zero tlv_zero two_bytes (Some 0) 40 true (Some [u32_policy; u32_policy]) (Some [acc_policy; acc_policy]) 2 =
      Ok (if backwards [acc_policy; acc_policy] true N (fun _ => None) (fun _ => None) (seq 0 2)
          then OSW_TLV_MERGE_ERR_UNDERFLOW else OSW_TLV_MERGE_OK, dest', prev') /\
    holds [u32_policy; u32_policy] (fun _ => 4) 2 dest' D' /\ holds [u32_policy; u32_policy] (fun _ => 4) 2 prev' P' /\
    forall j, (j < 2)%nat -> (D' j, P' j) = (spec_at [acc_policy; acc_policy] true N j None None).1.
Proof.
  apply (merge_refines [u32_policy; u32_policy] (fun _ => 4) [acc_policy; acc_policy] 0 true two_bytes 0 40 two_counters tlv_zero tlv_zero
    (fun _ => None) (fun _ => None)).
  - intros j. lia.
  - vm_compute. congruence.
  - done.
  - by repeat constructor.
  - exact two_sample.
  - exact holds_zero.
  - exact holds_zero.
Defined.

Definition two_in : sample_in := mk_sample_in two_bytes 0 40 two_counters.

Lemma session_total_witness :
  exists r rs b', bucket_puts [u32_policy; u32_policy] 2 1 [acc_policy; acc_policy] true (mk_bucket tlv_zero tlv_zero) [two_in; two_in] = Ok (r :: rs, b') /\
    (r = OSW_TLV_MERGE_ERR_UNDERFLOW \/ @None (list Z) = None -> Forall (fun r => r = OSW_TLV_MERGE_OK) rs ->
     exists D' P', holds [u32_policy; u32_policy] (fun _ => 4) 2 (b_data b') D' /\ holds [u32_policy; u32_policy] (fun _ => 4) 2 (b_last b') P' /\
       word_total D' 1 = u32 (0 + List.last [9; 9] 0) /\ word_total P' 1 = List.last [9; 9] 0).
Proof.
  apply (session_total [u32_policy; u32_policy] (fun _ => 4) [acc_policy; acc_policy] 0 true 1 acc_policy two_in [two_in] 9 [9]
    (mk_bucket tlv_zero tlv_zero) (fun _ => None) (fun _ => None)); try done.
  - by repeat constructor.
  - cbn. lia.
  - apply Forall_cons. split; [exact two_sample|]. apply Forall_cons. split; [exact two_sample|constructor].
  - assert (Hr : reports [u32_policy; u32_policy] 1 two_in 9).
    { exists (mk_item 1 OSW_TLV_U32 0 [9; 0; 0; 0]). split_and!; vm_compute; reflexivity. }
    apply Forall2_cons. split; [exact Hr|]. apply Forall2_cons. split; [exact Hr|constructor].
  - exact holds_zero.
  - exact holds_zero.
Defined.

(** A nested entry with the given counters, as deltas. *)
Definition nested_sample (counters : list (Z * Z)) : res osw_tlv :=
  '(t, off) ← osw_tlv_put_nested tlv_zero 0;
  t ← foldl (fun t '(id, v) => t ← t; '(t, d) ← osw_tlv_put_u32 t id v; osw_tlv_set_flags t d OSW_TLV_F_DELTA) (Ok t) counters;
  osw_tlv_end_nested t off.
Definition merge_nested (dp : res (osw_tlv * osw_tlv)) (counters : list (Z * Z)) : res (osw_tlv * osw_tlv) :=
  '(d, p) ← dp;
  s ← nested_sample counters;
  '(_, d, p) ← osw_tlv_merge 2 d p (bytes_of (t_data s)) (Some 0) (t_used s) true
    (Some [mk_tpolicy OSW_TLV_NESTED 0 0 (Some [u32_policy; u32_policy]) 2])
    (Some [mk_mpolicy OSW_TLV_OP_MERGE OSW_TLV_INHERIT_FIRST (Some [acc_policy; acc_policy]) 2]) 1;
  Ok (d, p).
(** The counters in the aggregate's nested entry, as words. *)
Definition nested_totals (dp : res (osw_tlv * osw_tlv)) : res (option Z * option Z) :=
  '(d, _) ← dp;
  let buf := bytes_of (t_data d) in
  len ← hdr_len buf 0;
  '(tb, _) ← osw_tlv_parse buf (Some 16) len (Some [u32_policy; u32_policy]) [None; None];
  let word h := match h with Some (Some o) => match ld32 buf (o + 16) with Ok v => Some v | Err _ => None end | _ => None end in
  Ok (word (tb !! 0%nat), word (tb !! 1%nat)).

(** Totals of a nested entry are lost when the entry changes its length: the deltas
    5 of one counter and then 7 of another are kept, a further delta 1 of the first
    leaves 1 instead of 6 and 7. *)
Theorem nested_totals_lost :
  nested_totals (merge_nested (Ok (tlv_zero, tlv_zero)) [(0, 5)]) = Ok (Some 5, None) /\
  nested_totals (merge_nested (merge_nested (Ok (tlv_zero, tlv_zero)) [(0, 5)]) [(1, 7)]) = Ok (Some 5, Some 7) /\
  nested_totals (merge_nested (merge_nested (merge_nested (Ok (tlv_zero, tlv_zero)) [(0, 5)]) [(1, 7)]) [(0, 1)]) = Ok (Some 1, None).
Proof. split_and!; vm_compute; reflexivity. Qed.

(** A delta after an absolute value subtracts that value: 10 counted in absolute
    terms and then a delta of 3 leave 3 instead of 13. *)
Theorem delta_after_absolute :
  accumulate OSW_TLV_U32 0 true [10; 0; 0; 0] None None = (Some [10; 0; 0; 0], Some [10; 0; 0; 0], false) /\
  accumulate OSW_TLV_U32 OSW_TLV_F_DELTA true [3; 0; 0; 0] (Some [10; 0; 0; 0]) (Some [10; 0; 0; 0]) =
    (Some [3; 0; 0; 0], Some [10; 0; 0; 0], false).
Proof. split; vm_compute; reflexivity. Qed.

(** Pointers into the aggregate dangle once it is reallocated: a second entry whose new
    value does not fit makes [osw_tlv_put] move the block that the table entry of the
    third one points into. *)
Definition unspec_policy : osw_tlv_policy := mk_tpolicy OSW_TLV_UNSPEC 0 0 None 0.
Definition over_policy : osw_tlv_merge_policy := mk_mpolicy OSW_TLV_OP_OVERWRITE OSW_TLV_INHERIT_FIRST None 0.
Definition merge_items (dp : res (osw_tlv * osw_tlv)) (items : list item) : res (osw_tlv * osw_tlv) :=
  '(d, p) ← dp;
  s ← puts tlv_zero items;
  '(_, d, p) ← osw_tlv_merge 1 d p (bytes_of (t_data s)) (Some 0) (t_used s) true
    (Some [unspec_policy; unspec_policy]) (Some [over_policy; over_policy]) 2;
  Ok (d, p).
Theorem merge_uses_moved_block :
  merge_items (merge_items (Ok (tlv_zero, tlv_zero)) [mk_item 1 OSW_TLV_UNSPEC 0 [1; 2; 3; 4]])
    [mk_item 0 OSW_TLV_UNSPEC 0 (replicate 4096 1); mk_item 1 OSW_TLV_UNSPEC 0 [5; 6; 7; 8]] = Err FDangling.
Proof. vm_compute. reflexivity. Qed.
End Runs.
