(* ===== verification/DnsName.v ===== *)
(** * DnsName: names and escaped data of DNS packets

    Models [lib/dns_parse/src/strutils.c]: [escape_data], [read_rr_name] with its two passes
    over a name that may jump through the packet, and [b64encode].  Packets are lists
    of bytes, output strings are written to a buffer of the size the code allocates, and a
    load or store outside is a fault.  A C string is the list of its characters. *)
From S2P Require Import Prelude CString.
Open Scope Z_scope.

(** ** Output buffers *)
Definition malloc (n : Z) : list Z := replicate (Z.to_nat n) 0.

(** Storing behind what was stored before. *)
Lemma buf_put_ok buf out bs : take (length out) buf = out -> (length out + length bs <= length buf)%nat ->
  exists buf', wr_bytes buf (Z.of_nat (length out)) bs = Ok buf' /\ take (length (out ++ bs)) buf' = out ++ bs /\ length buf' = length buf.
Proof.
  intros Ht Hl. unfold wr_bytes. rewrite (proj2 (Z.leb_le _ _)), (proj2 (Z.leb_le _ _)) by lia. cbn [andb]. eexists. split; [done|]. rewrite Nat2Z.id, Ht. split.
  - rewrite app_assoc. apply take_app_length.
  - rewrite !length_app, length_drop. lia.
Qed.

(** Terminating the text. *)
Lemma terminate_ok buf out : take (length out) buf = out -> (length out < length buf)%nat ->
  exists buf', wr_bytes buf (Z.of_nat (length out)) [0] = Ok buf' /\ take (Z.to_nat (Z.of_nat (length out))) buf' = out.
Proof.
  intros Ht Hl. destruct (buf_put_ok buf out [0] Ht) as (buf' & E & Ht' & _); [cbn; lia|]. exists buf'. split; [done|]. rewrite Nat2Z.id.
  rewrite length_app in Ht'. rewrite <- (take_app_length out [0]) at 2. rewrite <- Ht', take_take, Nat.min_l by lia. done.
Qed.

(** ** [escape_data] *)
Definition hex1 (v : Z) : Z := let x := v + 0x30 in if 0x39 <? x then x + 0x27 else x.
Definition hex4 (c : Z) : list Z := [0x5c; 0x78; hex1 (c / 16); hex1 (c mod 16)].
Definition must_escape (c : Z) : bool := (c <? 0x20) || (c =? 0x5c) || (0x7f <=? c).

Fixpoint escape_len (packet : list Z) (i : Z) (n : nat) (len : Z) : res Z :=
  match n with
  | O => Ok len
  | S n => c ← rd8 packet i; escape_len packet (i + 1) n (if must_escape c then len + 4 else len + 1)
  end.
Fixpoint escape_write (packet : list Z) (i : Z) (n : nat) (out : list Z) (o : Z) : res (list Z * Z) :=
  match n with
  | O => Ok (out, o)
  | S n =>
      c ← rd8 packet i;
      if must_escape c then out ← wr_bytes out o (hex4 c); escape_write packet (i + 1) n out (o + 4)
      else out ← wr_bytes out o [c]; escape_write packet (i + 1) n out (o + 1)
  end.
Definition escape_data (packet : list Z) (start end_ : Z) : res (list Z) :=
  let n := Z.to_nat (end_ - start) in
  len ← escape_len packet start n 1;
  '(out, o) ← escape_write packet start n (malloc len) 0;
  out ← wr_bytes out o [0];
  Ok (take (Z.to_nat o) out).

Definition escape1 (c : Z) : list Z := if must_escape c then hex4 c else [c].
Definition escaped (l : list Z) : list Z := concat (escape1 <$> l).

Lemma escape_len_ok packet n : forall i len, 0 <= i -> i + Z.of_nat n <= Z.of_nat (length packet) ->
  escape_len packet i n len = Ok (len + Z.of_nat (length (escaped (take n (drop (Z.to_nat i) packet))))).
Proof.
  induction n as [|n IH]; intros i len H0 H1; cbn [escape_len]; [by rewrite take_0, Z.add_0_r|]. destruct (rd8_Ok packet i) as (c & -> & Hc); [lia|]. cbind.
  rewrite IH by lia. apply drop_S in Hc. rewrite Hc. replace (Z.to_nat (i + 1)) with (S (Z.to_nat i)) by lia. cbn [take]. unfold escaped at 2. rewrite fmap_cons. cbn [concat]. rewrite length_app.
  fold (escaped (take n (drop (S (Z.to_nat i)) packet))). unfold escape1. f_equal. destruct (must_escape c); cbn [length hex4]; lia.
Qed.

Lemma escape_write_ok packet n : forall i buf out, 0 <= i -> i + Z.of_nat n <= Z.of_nat (length packet) -> take (length out) buf = out ->
  (length out + length (escaped (take n (drop (Z.to_nat i) packet))) <= length buf)%nat ->
  exists buf', let out' := out ++ escaped (take n (drop (Z.to_nat i) packet)) in
    escape_write packet i n buf (Z.of_nat (length out)) = Ok (buf', Z.of_nat (length out')) /\ take (length out') buf' = out' /\ length buf' = length buf.
Proof.
  induction n as [|n IH]; intros i buf out H0 H1 Ht Hl; cbn [escape_write]; cbn zeta.
  { exists buf. cbn. by rewrite app_nil_r. }
  destruct (rd8_Ok packet i) as (c & -> & Hc); [lia|]. cbind. apply drop_S in Hc. rewrite Hc in *. cbn [take] in *. unfold escaped in *. rewrite fmap_cons in *. cbn [concat] in *. rewrite length_app in Hl.
  destruct (buf_put_ok buf out (escape1 c) Ht) as (buf1 & E1 & Ht1 & Hl1); [lia|].
  destruct (IH (i + 1) buf1 (out ++ escape1 c)) as (buf2 & E2 & Ht2 & Hl2); [lia|lia|done|rewrite length_app; replace (Z.to_nat (i + 1)) with (S (Z.to_nat i)) by lia; lia|].
  replace (Z.to_nat (i + 1)) with (S (Z.to_nat i)) in * by lia. exists buf2. rewrite app_assoc. split_and!; [|done|congruence].
  unfold escape1 in *. destruct (must_escape c); rewrite E1; cbind; rewrite <- E2; f_equal; rewrite length_app; cbn; lia.
Qed.

(** The output of [escape_data]: its two passes agree on the size. *)
Lemma escape_data_ok packet start end_ : 0 <= start -> end_ <= Z.of_nat (length packet) ->
  escape_data packet start end_ = Ok (escaped (take (Z.to_nat (end_ - start)) (drop (Z.to_nat start) packet))).
Proof.
  intros H0 H1. unfold escape_data. set (l := take _ _). destruct (decide (start <= end_)) as [Hse|Hse].
  - rewrite escape_len_ok by lia. fold l. cbind.
    assert (Hm : length (malloc (1 + Z.of_nat (length (escaped l)))) = S (length (escaped l))) by (unfold malloc; rewrite length_replicate; lia).
    destruct (escape_write_ok packet (Z.to_nat (end_ - start)) start (malloc (1 + Z.of_nat (length (escaped l)))) []) as (buf & E & Ht & Hl); [lia|lia|done|fold l; cbn [length]; lia|].
    fold l in E, Ht. cbn [app length] in *. change (Z.of_nat 0) with 0 in E. rewrite E. cbind.
    destruct (terminate_ok buf (escaped l) Ht) as (buf' & -> & E'); [lia|]. cbind. by rewrite E'.
  - assert (Z.to_nat (end_ - start) = 0%nat) as E by lia. unfold l. rewrite E. done.
Qed.

(** ** [read_rr_name] *)
(** The first pass: position, next length byte, end of the name in the record, length of
    the text, and steps. *)
Record scan_st := mk_scan { sc_pos : Z; sc_next : Z; sc_end : Z; sc_len : Z; sc_steps : Z }.
Definition is_ptr (c : Z) : bool := Z.land c 0xc0 =? 0xc0.
Definition ptr_target (id_pos c b : Z) : Z := u32 (id_pos + Z.shiftl (Z.land c 0x3f) 8 + b).

(** One round of the first [while] loop; [None] is [return 0]. *)
Definition scan_body (packet : list Z) (id_pos len : Z) (s : scan_st) : res (option scan_st) :=
  c ← rd8 packet (sc_pos s);
  let steps := u32 (sc_steps s + 1) in
  if sc_next s =? sc_pos s then
    if is_ptr c then
      if len <=? u32 (sc_pos s + 1) then Ok None else
      b ← rd8 packet (u32 (sc_pos s + 1));
      let pos := ptr_target id_pos c b in
      Ok (Some (mk_scan pos pos (if sc_end s =? 0 then u32 (sc_pos s + 1) else sc_end s) (sc_len s) steps))
    else Ok (Some (mk_scan (u32 (sc_pos s + 1)) (u32 (sc_next s + c + 1)) (sc_end s) (u32 (sc_len s + 1)) steps))
  else
    let add := if (0x21 <=? c) && (c <=? 0x7a) && negb (c =? 0x5c) then 1 else 4 in
    Ok (Some (mk_scan (u32 (sc_pos s + 1)) (sc_next s) (sc_end s) (u32 (sc_len s + add)) steps)).

Definition scan_cond (packet : list Z) (len : Z) (s : scan_st) : res bool :=
  if sc_pos s <? len then
    stop ← (if sc_next s =? sc_pos s then c ← rd8 packet (sc_pos s); Ok (c =? 0) else Ok false);
    Ok (negb stop && (sc_steps s <? u32 (len * 2)))
  else Ok false.

Fixpoint scan_loop (n : nat) (packet : list Z) (id_pos len : Z) (s : scan_st) : res (option scan_st) :=
  match n with
  | O => Err FFuel
  | S n =>
      go ← scan_cond packet len s;
      if (go : bool) then
        o ← scan_body packet id_pos len s;
        match o with None => Ok None | Some s => scan_loop n packet id_pos len s end
      else Ok (Some s)
  end.

(** The second pass, which writes the text. *)
Fixpoint name_loop (n : nat) (packet : list Z) (id_pos pos next : Z) (name : list Z) (i : Z) : res (list Z * Z) :=
  match n with
  | O => Err FFuel
  | S n =>
      go ← (if negb (next =? pos) then Ok true else c ← rd8 packet pos; Ok (negb (c =? 0)));
      if (go : bool) then
        c ← rd8 packet pos;
        if pos =? next then
          if is_ptr c then
            b ← rd8 packet (u32 (pos + 1));
            let pos := ptr_target id_pos c b in
            name_loop n packet id_pos pos pos name i
          else
            '(name, i) ← (if i =? 0 then Ok (name, i) else name ← wr_bytes name i [0x2e]; Ok (name, u32 (i + 1)));
            name_loop n packet id_pos (u32 (pos + 1)) (u32 (pos + c + 1)) name i
        else if (0x21 <=? c) && (c <=? 0x7e) && negb (c =? 0x5c) then
          name ← wr_bytes name i [c];
          name_loop n packet id_pos (u32 (pos + 1)) next name (u32 (i + 1))
        else
          name ← wr_bytes name i (hex4 c);
          name_loop n packet id_pos (u32 (pos + 1)) next name (u32 (i + 4))
      else Ok (name, i)
  end.

(** The name, or NULL, and the new [*packet_p].  The fuel of both loops is the number of
    steps the first one is allowed. *)
Definition read_rr_name (packet : list Z) (pos id_pos len : Z) : res (option (list Z) * Z) :=
  let fuel := S (Z.to_nat (u32 (len * 2))) in
  o ← scan_loop fuel packet id_pos len (mk_scan pos pos 0 0 0);
  match o with
  | None => Ok (None, pos)
  | Some s =>
      let end_pos := if sc_end s =? 0 then sc_pos s else sc_end s in
      if (u32 (2 * len) <=? sc_steps s) || (len <=? sc_pos s) then Ok (None, pos) else
      '(name, i) ← name_loop fuel packet id_pos pos pos (malloc (u32 (sc_len s + 1))) 0;
      name ← wr_bytes name i [0];
      Ok (Some (take (Z.to_nat i) name), u32 (end_pos + 1))
  end.

(** *** What a name is *)
(** [dname pos ls n e]: the labels read at [pos] are [ls], this takes [n] steps, and the
    name ends in the record before [e].  Labels may have up to 191 bytes here. *)
Inductive dname (packet : list Z) (id_pos len : Z) : Z -> list (list Z) -> Z -> Z -> Prop :=
| dn_end pos : 0 <= pos < len -> packet !! Z.to_nat pos = Some 0 -> dname packet id_pos len pos [] 0 (pos + 1)
| dn_label pos c l ls n e : 0 <= pos -> packet !! Z.to_nat pos = Some c -> 0 < c -> is_ptr c = false ->
    l = take (Z.to_nat c) (drop (Z.to_nat (pos + 1)) packet) ->
    dname packet id_pos len (pos + 1 + c) ls n e -> dname packet id_pos len pos (l :: ls) (1 + c + n) e
| dn_ptr pos c b ls n e : 0 <= pos -> packet !! Z.to_nat pos = Some c -> is_ptr c = true -> pos + 1 < len ->
    packet !! Z.to_nat (pos + 1) = Some b -> dname packet id_pos len (ptr_target id_pos c b) ls n e ->
    dname packet id_pos len pos ls (1 + n) (pos + 2).

(** The text of a name. *)
Definition plain_char (c : Z) : bool := (0x21 <=? c) && (c <=? 0x7e) && negb (c =? 0x5c).
Definition name_char (c : Z) : list Z := if plain_char c then [c] else hex4 c.
Definition label_text (l : list Z) : list Z := concat (name_char <$> l).
Definition dotted (ls : list (list Z)) : list Z :=
  match ls with [] => [] | l :: ls => label_text l ++ concat ((fun l => 0x2e :: label_text l) <$> ls) end.

(** Labels of printable characters other than white space and the backslash; their text is
    the labels themselves with dots between them. *)
Definition plain_label (l : list Z) : Prop := Forall (fun c => plain_char c = true) l.
Definition dots (l : list (list Z)) : list Z := match l with [] => [] | x :: l => x ++ concat ((fun y => 0x2e :: y) <$> l) end.
Lemma label_text_plain l : plain_label l -> label_text l = l.
Proof. unfold label_text. induction 1 as [|c l Hc _ IH]; [done|]. rewrite fmap_cons. cbn [concat]. unfold name_char at 1. by rewrite Hc, IH. Qed.
Lemma dotted_plain ls : Forall plain_label ls -> dotted ls = dots ls.
Proof.
  destruct 1 as [|l ls Hl H]; [done|]. cbn [dotted dots]. rewrite label_text_plain by done. f_equal.
  induction H as [|k ls Hk _ IH]; [done|]. rewrite !fmap_cons. cbn [concat]. by rewrite IH, label_text_plain.
Qed.

(** *** The first pass *)
Definition weight (c : Z) : Z := if (0x21 <=? c) && (c <=? 0x7a) && negb (c =? 0x5c) then 1 else 4.
Definition label_room (l : list Z) : Z := foldr (fun c a => weight c + a) 0 l.
Definition name_room (ls : list (list Z)) : Z := foldr (fun l a => 1 + label_room l + a) 0 ls.

Lemma weight_bounds c : 1 <= weight c <= 4.
Proof. unfold weight. case_match; lia. Qed.
Lemma label_room_bounds l : Z.of_nat (length l) <= label_room l <= 4 * Z.of_nat (length l).
Proof. induction l as [|c l IH]; [done|]. change (label_room (c :: l)) with (weight c + label_room l). cbn [length]. pose proof (weight_bounds c). lia. Qed.
(** What the first pass counts is enough for what the second one writes. *)
Lemma label_text_room l : Z.of_nat (length (label_text l)) <= label_room l.
Proof.
  induction l as [|c l IH]; [done|]. unfold label_text in *. rewrite fmap_cons. cbn [concat]. rewrite length_app. change (label_room (c :: l)) with (weight c + label_room l).
  enough (Z.of_nat (length (name_char c)) <= weight c) by lia. unfold name_char, weight. destruct (_ && _ && _) eqn:E; [|case_match; cbn; lia].
  assert (plain_char c = true) as -> by (unfold plain_char; lia). done.
Qed.
Lemma dotted_room ls : Z.of_nat (length (dotted ls)) <= name_room ls.
Proof.
  destruct ls as [|l ls]; [done|]. cbn [dotted]. rewrite length_app. change (name_room (l :: ls)) with (1 + label_room l + name_room ls). pose proof (label_text_room l).
  enough (Z.of_nat (length (concat ((fun l => 0x2e :: label_text l) <$> ls))) <= name_room ls) by lia. clear. induction ls as [|l ls IH]; [done|]. rewrite fmap_cons. cbn [concat].
  change (name_room (l :: ls)) with (1 + label_room l + name_room ls). rewrite length_app. cbn [length]. pose proof (label_text_room l). lia.
Qed.

Lemma ptr_target_range id_pos c b : 0 <= ptr_target id_pos c b < 2 ^ 32.
Proof. apply u32_range. Qed.

Section scan.
Context (packet : list Z) (id_pos len : Z).
Hypotheses (Hpkt : bytes_ok packet) (Hlen : 0 <= len <= Z.of_nat (length packet)) (Hbig : len < 2 ^ 28).
Implicit Types s : scan_st.

Definition accepted s : Prop := sc_steps s < 2 * len /\ sc_pos s < len.
#[local] Lemma len2 : u32 (len * 2) = 2 * len.
Proof using Hbig Hlen. rewrite u32_id; unfold is_u32; lia. Qed.
(** The counters of a running scan. *)
Definition scan_ok s : Prop := 0 <= sc_pos s < 2 ^ 32 /\ 0 <= sc_steps s <= 2 * len /\ 0 <= sc_len s <= 4 * sc_steps s.

(** The bytes of a label: the scan passes them all, or stops among them and is rejected. *)
Lemma scan_label k : forall n s, scan_ok s -> sc_next s = sc_pos s + Z.of_nat k -> (k <= 255)%nat -> 2 * len - sc_steps s < Z.of_nat n ->
  (exists s', scan_loop n packet id_pos len s = Ok (Some s') /\ ~ accepted s' /\ (len < sc_next s \/ 2 * len < sc_steps s + Z.of_nat k)) \/
  (sc_next s <= len \/ k = 0%nat) /\ sc_steps s + Z.of_nat k <= 2 * len /\
  scan_loop n packet id_pos len s = scan_loop (n - k) packet id_pos len (mk_scan (sc_next s) (sc_next s) (sc_end s)
    (sc_len s + label_room (take k (drop (Z.to_nat (sc_pos s)) packet))) (sc_steps s + Z.of_nat k)).
Proof using Hpkt Hlen Hbig.
  induction k as [|k IH]; intros n s Hs Hn Hk Hf.
  - right. split_and!; [by right|destruct Hs; lia|]. rewrite Nat.sub_0_r. f_equal. destruct s as [p nx e l st]; cbn [sc_pos sc_next sc_end sc_len sc_steps] in *. rewrite take_0. change (label_room []) with 0. f_equal; lia.
  - destruct n as [|n]; [destruct Hs; lia|]. destruct Hs as (Hp & Hst & Hl).
    destruct (decide (sc_pos s < len /\ sc_steps s < 2 * len)) as [[Hpl Hsl]|Hno].
    + destruct (rd8_Ok packet (sc_pos s)) as (c & Ec & Hc); [lia|].
      set (s1 := mk_scan (sc_pos s + 1) (sc_next s) (sc_end s) (sc_len s + weight c) (sc_steps s + 1)).
      assert (E1 : scan_loop (S n) packet id_pos len s = scan_loop n packet id_pos len s1).
      { cbn [scan_loop]. unfold scan_cond, scan_body. rewrite (proj2 (Z.ltb_lt _ _) Hpl), (proj2 (Z.eqb_neq (sc_next s) (sc_pos s))), len2 by lia. cbind. cbn [negb andb]. rewrite (proj2 (Z.ltb_lt _ _) Hsl), Ec. cbind.
        fold (weight c). pose proof (weight_bounds c). rewrite !u32_id by (unfold is_u32; lia). done. }
      rewrite E1. pose proof (weight_bounds c). specialize (IH n s1). cbn [s1 sc_pos sc_next sc_end sc_len sc_steps] in IH. destruct IH as [(s' & E' & Hr & Hcase)|(Hnl & Hs2 & E')]; [unfold scan_ok, s1; cbn [sc_pos sc_steps sc_len]; lia|lia|lia|lia| |].
      * left. exists s'. split_and!; [done|done|lia].
      * right. split_and!; [left; lia|lia|]. rewrite E'. replace (S n - S k)%nat with (n - k)%nat by lia. f_equal. apply drop_S in Hc. rewrite Hc. cbn [take]. change (label_room (c :: ?l)) with (weight c + label_room l). replace (Z.to_nat (sc_pos s + 1)) with (S (Z.to_nat (sc_pos s))) by lia.
        f_equal; lia.
    + left. exists s. split_and!; [|unfold accepted; lia|lia]. cbn [scan_loop]. unfold scan_cond. rewrite len2. destruct (sc_pos s <? len) eqn:E; [|done]. zbool. rewrite (proj2 (Z.eqb_neq (sc_next s) (sc_pos s))) by lia. cbind. cbn [negb andb]. rewrite (proj2 (Z.ltb_ge _ _)) by lia. done.
Qed.

Lemma dname_inside pos ls m e : dname packet id_pos len pos ls m e -> 0 <= pos < len /\ 0 <= m.
Proof using. induction 1; lia. Qed.

(** The whole first pass: it ends; when the scan is accepted there is a name, whose text
    fits what was counted, and when it is not, every name is too long. *)
Definition scanned s (o : option scan_st) : Prop :=
  (exists s' ls m e, o = Some s' /\ accepted s' /\ dname packet id_pos len (sc_pos s) ls m e /\ sc_steps s + m < 2 * len /\ sc_len s' = sc_len s + name_room ls /\ scan_ok s' /\
     (if sc_end s' =? 0 then sc_pos s' else sc_end s') + 1 = (if sc_end s =? 0 then e else sc_end s + 1)) \/
  (forall s', o = Some s' -> ~ accepted s') /\ (forall ls m e, dname packet id_pos len (sc_pos s) ls m e -> 2 * len <= sc_steps s + m).

#[local] Ltac refuse := right; split; [intros ? [= <-] | intros ? ? ? Hdn; apply dname_inside in Hdn].
(** Reads the same byte again in a name that starts here. *)
#[local] Ltac inv_dname H K := inversion H; simplify_eq; try congruence;
  match goal with D : dname _ _ _ _ _ _ _, D' : dname _ _ _ _ _ _ _ |- _ => rename D' into K end.
Lemma scan_name n : forall s, scan_ok s -> sc_next s = sc_pos s -> 2 * len - sc_steps s < Z.of_nat n ->
  exists o, scan_loop n packet id_pos len s = Ok o /\ scanned s o.
Proof using Hpkt Hlen Hbig.
  induction n as [n IH] using lt_wf_ind. intros s Hs Hn Hf. destruct Hs as (Hp & Hst & Hl). destruct n as [|n]; [lia|]. cbn [scan_loop]. unfold scan_cond at 1. rewrite len2, Hn, Z.eqb_refl.
  destruct (Z.ltb_spec (sc_pos s) len) as [Hpl|Hpl]; cycle 1.
  { eexists. split; [done|]. refuse; [unfold accepted|]; lia. }
  destruct (rd8_Ok packet (sc_pos s)) as (c & Ec & Hc); [lia|]. rewrite Ec. cbind. assert (Hu : is_u8 c) by (eapply Forall_lookup_1; [exact Hpkt|exact Hc]). unfold is_u8 in Hu.
  destruct (Z.eqb_spec c 0) as [->|Hc0]; cbn [negb andb].
  { eexists. split; [done|]. destruct (decide (sc_steps s < 2 * len)) as [Hlt|Hge].
    - left. exists s, [], 0, (sc_pos s + 1). split_and!; [done|done|apply dn_end; [lia|done]|lia|cbn; lia|by unfold scan_ok|]. destruct (Z.eqb_spec (sc_end s) 0); lia.
    - refuse; [unfold accepted|]; lia. }
  destruct (Z.ltb_spec (sc_steps s) (2 * len)) as [Hsl|Hsl]; cycle 1.
  { eexists. split; [done|]. refuse; [unfold accepted|]; lia. }
  unfold scan_body. rewrite Ec, Hn, Z.eqb_refl. cbind. destruct (is_ptr c) eqn:Eptr.
  - rewrite (u32_id (sc_pos s + 1)), (u32_id (sc_steps s + 1)) by (unfold is_u32; lia). destruct (Z.leb_spec len (sc_pos s + 1)) as [Hend|Hend].
    { eexists. split; [done|]. right. split; [done|]. intros ls m e Hdn. inversion Hdn; simplify_eq; lia || congruence. }
    destruct (rd8_Ok packet (sc_pos s + 1)) as (b & Eb & Hb); [lia|]. rewrite Eb. cbind.
    edestruct (IH n) as (o & Eo & Ho); [lia| | | |exists o; split; [exact Eo|]]; cbn [sc_pos sc_next sc_end sc_len sc_steps].
    { split_and!; cbn [sc_pos sc_len sc_steps]; try lia; apply ptr_target_range. }
    { done. } { lia. }
    destruct Ho as [(s' & ls & m & e & -> & Ha & Hdn & Hm & Hr & Hok & He)|[Hna Hlong]]; cbn [sc_pos sc_next sc_end sc_len sc_steps] in *.
    + left. exists s', ls, (1 + m), (sc_pos s + 2). split_and!; try done; [by eapply dn_ptr; eauto with lia|lia|]. rewrite He. destruct (Z.eqb_spec (sc_end s) 0); rewrite ?(proj2 (Z.eqb_neq _ _)) by lia; lia.
    + right. split; [done|]. intros ls m e Hdn. inv_dname Hdn Hdn'. apply Hlong in Hdn'. lia.
  - rewrite !u32_id by (unfold is_u32; lia). replace (sc_pos s + c + 1) with (sc_pos s + 1 + c) by lia.
    set (s1 := mk_scan _ _ _ _ _). edestruct (scan_label (Z.to_nat c) n s1) as [(s' & E' & Hr & Hcase)|(Hnl & Hs2 & E')]; cbn [s1 sc_pos sc_next sc_end sc_len sc_steps] in *; [unfold scan_ok, s1; cbn [sc_pos sc_steps sc_len]; lia|lia|lia|lia| |].
    { exists (Some s'). split; [done|]. right. split; [by intros ? [= <-]|]. intros ls m e Hdn. inv_dname Hdn Hdn'. apply dname_inside in Hdn'. lia. }
    subst s1. cbind. rewrite E'. edestruct (IH (n - Z.to_nat c)%nat) as (o & Eo & Ho); [lia| | | |exists o; split; [exact Eo|]]; cbn [sc_pos sc_next sc_end sc_len sc_steps].
    { pose proof (label_room_bounds (take (Z.to_nat c) (drop (Z.to_nat (sc_pos s + 1)) packet))) as Hb. rewrite length_take in Hb. split_and!; cbn [sc_pos sc_len sc_steps]; lia. }
    { done. } { lia. }
    destruct Ho as [(s' & ls & m & e & -> & Ha & Hdn & Hm & Hr & Hok & He)|[Hna Hlong]]; cbn [sc_pos sc_next sc_end sc_len sc_steps] in *.
    + left. eexists s', (_ :: ls), (1 + c + m), e. split_and!; try done; [eapply dn_label; eauto with lia|lia|]. change (name_room (?l :: ls)) with (1 + label_room l + name_room ls). lia.
    + right. split; [done|]. intros ls m e Hdn. inv_dname Hdn Hdn'. apply Hlong in Hdn'. lia.
Qed.
End scan.

(** *** The second pass *)
Definition more_labels (ls : list (list Z)) : list Z := concat ((fun l => 0x2e :: label_text l) <$> ls).
(** What the second pass adds behind [out]. *)
Definition rest_text (out : list Z) (ls : list (list Z)) : list Z := match out with [] => dotted ls | _ => more_labels ls end.

Lemma label_text_cons c l : label_text (c :: l) = name_char c ++ label_text l.
Proof. done. Qed.
Lemma rd8_lookup packet pos c : 0 <= pos -> packet !! Z.to_nat pos = Some c -> rd8 packet pos = Ok c.
Proof. intros H0 H. pose proof (lookup_lt_Some _ _ _ H). destruct (rd8_Ok packet pos) as (c' & -> & ?); [lia|]. congruence. Qed.
Lemma name_char_nonempty c : (1 <= length (name_char c))%nat.
Proof. unfold name_char. case_match; cbn; lia. Qed.

Lemma rest_text_more out ls : (1 <= length out)%nat -> rest_text out ls = more_labels ls.
Proof. destruct out; cbn; [lia|done]. Qed.

Lemma wr_bytes_nil buf : wr_bytes buf 0 [] = Ok buf.
Proof. unfold wr_bytes. cbn [length]. rewrite (proj2 (Z.leb_le _ (Z.of_nat (length buf)))) by lia. done. Qed.

Section name.
Context (packet : list Z) (id_pos len : Z).
Hypotheses (Hpkt : bytes_ok packet) (Hlen : 0 <= len <= Z.of_nat (length packet)) (Hbig : len < 2 ^ 28).

Lemma name_label k : forall n pos next buf out, next = pos + Z.of_nat k -> 0 <= pos -> next <= len -> (k <= n)%nat -> take (length out) buf = out ->
  (length out + length (label_text (take k (drop (Z.to_nat pos) packet))) <= length buf)%nat -> Z.of_nat (length buf) < 2 ^ 32 ->
  exists buf', let out' := out ++ label_text (take k (drop (Z.to_nat pos) packet)) in
    name_loop n packet id_pos pos next buf (Z.of_nat (length out)) = name_loop (n - k) packet id_pos next next buf' (Z.of_nat (length out')) /\
    take (length out') buf' = out' /\ length buf' = length buf.
Proof using Hlen Hbig.
  induction k as [|k IH]; intros n pos next buf out Hn H0 Hnl Hk Ht Hfit Hb; cbn zeta.
  - exists buf. rewrite take_0. change (label_text []) with (@nil Z). rewrite app_nil_r, Nat.sub_0_r. assert (pos = next) as -> by lia. done.
  - destruct n as [|n]; [lia|]. cbn [name_loop]. rewrite (proj2 (Z.eqb_neq next pos)), (proj2 (Z.eqb_neq pos next)) by lia. cbn [negb]. cbind.
    destruct (rd8_Ok packet pos) as (c & -> & Hc); [lia|]. cbind. apply drop_S in Hc. rewrite Hc in *. cbn [take] in *. rewrite label_text_cons in *. rewrite length_app in Hfit.
    destruct (buf_put_ok buf out (name_char c) Ht) as (buf1 & E1 & Ht1 & Hl1); [lia|].
    destruct (IH n (pos + 1) next buf1 (out ++ name_char c)) as (buf2 & E2 & Ht2 & Hl2); [lia|lia|lia|lia|done|rewrite length_app; replace (Z.to_nat (pos + 1)) with (S (Z.to_nat pos)) by lia; lia|lia|].
    replace (Z.to_nat (pos + 1)) with (S (Z.to_nat pos)) in * by lia. exists buf2. rewrite app_assoc. split_and!; [|done|congruence].
    replace (S n - S k)%nat with (n - k)%nat by lia. rewrite <- E2, (u32_id (pos + 1)) by (unfold is_u32; lia). fold (plain_char c). unfold name_char in *. rewrite length_app.
    destruct (plain_char c); rewrite E1; cbind; cbn [length hex4] in *; rewrite u32_id by (unfold is_u32; lia); f_equal; lia.
Qed.

Lemma name_write pos ls m e : dname packet id_pos len pos ls m e -> forall n buf out, m < Z.of_nat n -> take (length out) buf = out ->
  (length out + length (rest_text out ls) <= length buf)%nat -> Z.of_nat (length buf) < 2 ^ 32 ->
  exists buf', let out' := out ++ rest_text out ls in
    name_loop n packet id_pos pos pos buf (Z.of_nat (length out)) = Ok (buf', Z.of_nat (length out')) /\ take (length out') buf' = out' /\ length buf' = length buf.
Proof using Hpkt Hlen Hbig.
  induction 1 as [pos Hp H0|pos c l ls m e Hp Hc Hc0 Hptr -> Hd IH|pos c b ls m e Hp Hc Hptr Hp1 Hb Hd IH]; intros n buf out Hn Ht Hfit Hbuf; cbn zeta.
  - destruct n as [|n]; [lia|]. exists buf. assert (rest_text out [] = []) as -> by (by destruct out). rewrite app_nil_r. split; [|done]. cbn [name_loop]. rewrite Z.eqb_refl. cbn [negb]. rewrite (rd8_lookup packet pos 0) by (lia || done). done.
  - pose proof (dname_inside _ _ _ _ _ _ _ Hd) as [Hin Hm0]. set (l := take (Z.to_nat c) (drop (Z.to_nat (pos + 1)) packet)) in *.
    assert (Hl : length l = Z.to_nat c) by (unfold l; rewrite length_take, length_drop; lia).
    assert (Hne : (1 <= length (label_text l))%nat). { destruct l as [|x l']; [cbn in Hl; lia|]. rewrite label_text_cons, length_app. pose proof (name_char_nonempty x). lia. }
    destruct n as [|n]; [lia|]. cbn [name_loop]. rewrite Z.eqb_refl, (rd8_lookup packet pos c) by (lia || done). cbn [negb]. cbind. rewrite (proj2 (Z.eqb_neq c 0)), Hptr by lia. cbn [negb].
    rewrite !(u32_id (pos + 1)), (u32_id (pos + c + 1)) by (unfold is_u32; lia). replace (pos + c + 1) with (pos + 1 + c) by lia.
    set (dot := match out with [] => [] | _ => [0x2e] end).
    assert (Hrest : rest_text out (l :: ls) = dot ++ label_text l ++ more_labels ls) by (by destruct out).
    rewrite Hrest, !length_app in Hfit. destruct (buf_put_ok buf out dot Ht) as (buf1 & E1 & Ht1 & Hl1); [lia|].
    destruct (name_label (Z.to_nat c) n (pos + 1) (pos + 1 + c) buf1 (out ++ dot)) as (buf2 & E2 & Ht2 & Hl2); [lia|lia|lia|lia|done|fold l; rewrite length_app; lia|lia|]. fold l in E2, Ht2.
    destruct (IH (n - Z.to_nat c)%nat buf2 ((out ++ dot) ++ label_text l)) as (buf3 & E3 & Ht3 & Hl3); [lia|done| |lia|].
    { rewrite rest_text_more by (rewrite length_app; lia). rewrite !length_app. lia. }
    rewrite rest_text_more in * by (rewrite length_app; lia). rewrite Hrest, !app_assoc. exists buf3. split_and!; [|done|congruence]. rewrite <- E3, <- E2. cbind.
    destruct out as [|x out]; subst dot; cbn [app] in *; [by pose proof (eq_trans (eq_sym E1) (wr_bytes_nil buf)); simplify_eq|]. rewrite (proj2 (Z.eqb_neq _ 0)), E1 by (cbn; lia). cbind. f_equal. cbn [length] in *. rewrite length_app. cbn [length] in *. rewrite u32_id by (unfold is_u32; lia). lia.
  - pose proof (dname_inside _ _ _ _ _ _ _ Hd) as [Hin Hm0]. destruct n as [|n]; [lia|]. destruct (IH n buf out) as (buf' & E & Ht' & Hl'); [lia|done|done|done|]. exists buf'. split; [|done].
    cbn [name_loop]. rewrite Z.eqb_refl, (rd8_lookup packet pos c) by (lia || done). cbn [negb]. cbind. assert (c <> 0) by (intros ->; done). rewrite (proj2 (Z.eqb_neq c 0)), Hptr by lia. cbn [negb].
    rewrite (u32_id (pos + 1)) by (unfold is_u32; lia). rewrite (rd8_lookup packet (pos + 1) b) by (lia || done). done.
Qed.
End name.

Lemma dname_end packet id_pos len pos ls m e : dname packet id_pos len pos ls m e -> 0 <= pos < e /\ e <= len.
Proof. induction 1; lia. Qed.

(** The two outcomes of [read_rr_name]. *)
Lemma read_rr_name_cases packet pos id_pos len : bytes_ok packet -> 0 <= len <= Z.of_nat (length packet) -> len < 2 ^ 28 -> is_u32 pos ->
  (exists ls m e, dname packet id_pos len pos ls m e /\ m < 2 * len /\ read_rr_name packet pos id_pos len = Ok (Some (dotted ls), e)) \/
  ((forall ls m e, dname packet id_pos len pos ls m e -> 2 * len <= m) /\ read_rr_name packet pos id_pos len = Ok (None, pos)).
Proof.
  intros Hpkt Hlen Hbig Hpos. unfold read_rr_name. assert (E2 : u32 (len * 2) = 2 * len) by (rewrite u32_id; unfold is_u32; lia). assert (E3 : u32 (2 * len) = 2 * len) by (rewrite u32_id; unfold is_u32; lia). rewrite E2, E3.
  destruct (scan_name packet id_pos len Hpkt Hlen Hbig (S (Z.to_nat (2 * len))) (mk_scan pos pos 0 0 0)) as (o & -> & Ho); [unfold scan_ok; cbn; unfold is_u32 in *; lia|done|cbn; lia|]. cbind.
  destruct Ho as [(s' & ls & m & e & -> & [Ha1 Ha2] & Hdn & Hm & Hr & Hok & He)|[Hna Hlong]]; cbn [sc_pos sc_next sc_end sc_len sc_steps] in *.
  - left. exists ls, m, e. split_and!; [done|lia|]. rewrite (proj2 (Z.leb_gt _ _)), (proj2 (Z.leb_gt _ _)) by lia. cbn [orb].
    change (0 + name_room ls) with (name_room ls) in Hr. destruct Hok as (_ & Hs1 & Hs2). rewrite (u32_id (sc_len s' + 1)) by (unfold is_u32; lia). pose proof (dotted_room ls).
    set (buf := malloc (sc_len s' + 1)). assert (Hb : length buf = S (Z.to_nat (name_room ls))) by (unfold buf, malloc; rewrite length_replicate, Hr; lia).
    destruct (name_write packet id_pos len Hpkt Hlen Hbig pos ls m e Hdn (S (Z.to_nat (2 * len))) buf []) as (buf' & E & Ht & Hl); [lia|done|cbn; lia|lia|]. cbn [length app rest_text] in *. change (Z.of_nat 0) with 0 in E. rewrite E. cbind.
    destruct (terminate_ok buf' (dotted ls) Ht) as (buf'' & -> & Et); [lia|]. cbind. rewrite Et. rewrite Z.eqb_refl in He. rewrite He. pose proof (dname_end _ _ _ _ _ _ _ Hdn). rewrite u32_id by (unfold is_u32; lia). done.
  - right. split; [done|]. destruct o as [s'|]; [|done]. specialize (Hna s' eq_refl). unfold accepted in Hna. destruct ((2 * len <=? sc_steps s') || (len <=? sc_pos s')) eqn:E; [done|]. lia.
Qed.

Lemma dname_fun packet id_pos len pos ls m e : dname packet id_pos len pos ls m e -> forall ls' m' e', dname packet id_pos len pos ls' m' e' -> ls' = ls /\ m' = m /\ e' = e.
Proof.
  induction 1 as [pos Hp H0|pos c l ls m e Hp Hc Hc0 Hptr -> Hd IH|pos c b ls m e Hp Hc Hptr Hp1 Hb Hd IH]; intros ls' m' e' H'; inversion H'; simplify_eq; try (done || lia || congruence).
  - match goal with D : dname _ _ _ _ _ _ _ |- _ => apply IH in D as (-> & -> & ->) end. done.
  - match goal with D : dname _ _ _ (ptr_target _ _ _) _ _ _ |- _ => apply IH in D as (-> & -> & ->) end. done.
Qed.

(** C8: [read_rr_name] on the bytes of any packet shorter than 2^28 and from every position.
    It returns a text exactly when a name (labels and compression pointers, all of it before
    [len]) starts there and takes fewer than [2 * len] steps, and [*packet_p] is then the
    byte behind the name in the record; otherwise it returns NULL and keeps [*packet_p].  The
    text of a name of plain labels (printable characters other than white space and the
    backslash) is the labels with dots between them; nothing is claimed here about the text
    of the other characters, which the code writes as hexadecimal escapes where its comment
    speaks of a question mark.  Both passes end, also on pointer loops, read no byte at or
    behind [len], and the text fits the allocation sized by the first pass. *)
Theorem read_rr_name_exact packet pos id_pos len : bytes_ok packet -> 0 <= len <= Z.of_nat (length packet) -> len < 2 ^ 28 -> is_u32 pos ->
  (forall ls m e, dname packet id_pos len pos ls m e -> m < 2 * len ->
     exists name, read_rr_name packet pos id_pos len = Ok (Some name, e) /\ (Forall plain_label ls -> name = dots ls)) /\
  (forall name e, read_rr_name packet pos id_pos len = Ok (Some name, e) -> exists ls m, dname packet id_pos len pos ls m e /\ m < 2 * len) /\
  (read_rr_name packet pos id_pos len = Ok (None, pos) <-> forall ls m e, dname packet id_pos len pos ls m e -> 2 * len <= m).
Proof.
  intros Hpkt Hlen Hbig Hpos. destruct (read_rr_name_cases packet pos id_pos len) as [(ls & m & e & Hd & Hm & ->)|[Hno ->]]; try done.
  - split; [|split; [|split]].
    + intros ls' m' e' Hd' _. destruct (dname_fun _ _ _ _ _ _ _ Hd _ _ _ Hd') as (-> & _ & ->). eexists. split; [done|]. apply dotted_plain.
    + intros name e' [= <- <-]. eauto.
    + done.
    + intros H. specialize (H _ _ _ Hd). lia.
  - split; [|split; [|split]]; try done. intros ls m e Hd Hm. apply Hno in Hd. lia.
Qed.

(** "www" at 4 and a pointer to it behind "ab". *)
Definition name_sample : list Z := [9; 9; 9; 9; 3; 0x77; 0x77; 0x77; 0; 2; 0x61; 0x62; 0xc0; 4; 7].
Lemma read_rr_name_exact_witness : read_rr_name name_sample 9 0 15 = Ok (Some (str_bytes "ab.www"), 14).
Proof.
  assert (Hb : bytes_ok name_sample) by (apply (bool_decide_unpack _); vm_compute; exact I).
  destruct (read_rr_name_exact name_sample 9 0 15 Hb) as [H _]; [cbn; lia|lia|unfold is_u32; lia|].
  destruct (H [[0x61; 0x62]; [0x77; 0x77; 0x77]] 8 14) as (name & E & En); [|lia|].
  - apply (dn_label _ _ _ 9 2 [0x61; 0x62] _ 5); [lia|done|lia|done|done|]. apply (dn_ptr _ _ _ 12 0xc0 4 _ 4 9); [lia|done|done|lia|done|].
    apply (dn_label _ _ _ 4 3 [0x77; 0x77; 0x77] [] 0); [lia|done|lia|done|done|]. apply dn_end; [lia|done].
  - rewrite E, En; [done|]. repeat constructor.
Defined.

(** A blank and a backslash in a label are written as hexadecimal escapes; the comment over
    the second pass says that white space is replaced with a question mark and that other
    characters are kept. *)
Lemma name_escapes_in_hex :
  read_rr_name [2; 0x61; 0x20; 0] 0 0 4 = Ok (Some (str_bytes "a\x20"), 4) /\
  read_rr_name [2; 0x61; 0x5c; 0] 0 0 4 = Ok (Some (str_bytes "a\x5c"), 4).
Proof. split; reflexivity. Qed.

(** ** [b64encode] *)
Definition cb64 : list Z := str_bytes "ABCDEFGHIJKLMNOPQRSTUVWXYZabcdefghijklmnopqrstuvwxyz0123456789+/".
Definition b64_1 (a : Z) : Z := Z.shiftr a 2.
Definition b64_2 (a b : Z) : Z := Z.lor (Z.shiftl (Z.land a 0x3) 4) (Z.shiftr (Z.land b 0xf0) 4).
Definition b64_3 (b c : Z) : Z := Z.lor (Z.shiftl (Z.land b 0xf) 2) (Z.shiftr (Z.land c 0xc0) 6).
Definition b64_4 (c : Z) : Z := Z.land c 0x3f.

(** The [while] loop, with the position in the data and in the output it ends at. *)
Fixpoint b64_loop (n : nat) (data : list Z) (pos end_pos : Z) (out : list Z) (op : Z) : res (Z * list Z * Z) :=
  match n with
  | O => Err FFuel
  | S n =>
      if u32 (pos + 2) <? end_pos then
        a ← rd8 data pos; b ← rd8 data (u32 (pos + 1)); c ← rd8 data (u32 (pos + 2));
        x1 ← rd8 cb64 (b64_1 a); x2 ← rd8 cb64 (b64_2 a b); x3 ← rd8 cb64 (b64_3 b c); x4 ← rd8 cb64 (b64_4 c);
        out ← wr_bytes out op [x1; x2; x3; x4];
        b64_loop n data (u32 (pos + 3)) end_pos out (u32 (op + 4))
      else Ok (pos, out, op)
  end.
Definition b64encode (data : list Z) (pos length_ : Z) : res (list Z) :=
  let end_pos := u32 (pos + length_) in
  '(pos, out, op) ← b64_loop (S (Z.to_nat length_)) data pos end_pos (malloc ((length_ / 3 + 1) * 4 + 1)) 0;
  '(out, op) ←
    (if u32 (end_pos - pos) =? 2 then
       a ← rd8 data pos; b ← rd8 data (u32 (pos + 1));
       x1 ← rd8 cb64 (b64_1 a); x2 ← rd8 cb64 (b64_2 a b); x3 ← rd8 cb64 (Z.shiftl (Z.land b 0xf) 2);
       out ← wr_bytes out op [x1; x2; x3; 0x3d]; Ok (out, u32 (op + 4))
     else if u32 (end_pos - pos) =? 1 then
       a ← rd8 data pos;
       x1 ← rd8 cb64 (b64_1 a); x2 ← rd8 cb64 (Z.shiftl (Z.land a 0x3) 4);
       out ← wr_bytes out op [x1; x2; 0x3d; 0x3d]; Ok (out, u32 (op + 4))
     else Ok (out, op));
  out ← wr_bytes out op [0];
  Ok (take (Z.to_nat op) out).

(** The encoding of RFC 4648, and its decoder. *)
Definition sextet (i : Z) : Z := nth (Z.to_nat i) cb64 0.
Fixpoint b64 (l : list Z) : list Z :=
  match l with
  | [] => []
  | [a] => [sextet (b64_1 a); sextet (b64_2 a 0); 0x3d; 0x3d]
  | [a; b] => [sextet (b64_1 a); sextet (b64_2 a b); sextet (b64_3 b 0); 0x3d]
  | a :: b :: c :: l => [sextet (b64_1 a); sextet (b64_2 a b); sextet (b64_3 b c); sextet (b64_4 c)] ++ b64 l
  end.
Definition unsextet (x : Z) : option Z :=
  if (0x41 <=? x) && (x <=? 0x5a) then Some (x - 0x41) else if (0x61 <=? x) && (x <=? 0x7a) then Some (x - 0x61 + 26)
  else if (0x30 <=? x) && (x <=? 0x39) then Some (x - 0x30 + 52) else if x =? 0x2b then Some 62 else if x =? 0x2f then Some 63 else None.
Fixpoint unb64 (l : list Z) : option (list Z) :=
  match l with
  | [] => Some []
  | x1 :: x2 :: x3 :: x4 :: l =>
      i1 ← unsextet x1; i2 ← unsextet x2;
      let a := i1 * 4 + i2 / 16 in
      if x3 =? 0x3d then if (x4 =? 0x3d) && bool_decide (l = []) then Some [a] else None else
      i3 ← unsextet x3;
      let b := i2 mod 16 * 16 + i3 / 4 in
      if x4 =? 0x3d then if bool_decide (l = []) then Some [a; b] else None else
      i4 ← unsextet x4; r ← unb64 l; Some (a :: b :: (i3 mod 4 * 64 + i4) :: r)
  | _ => None
  end.

(** Facts about bytes, by running through them. *)
Definition all_bytes : list Z := seqZ 0 256.
Lemma byte_forall (P : Z -> bool) : forallb P all_bytes = true -> forall a, is_u8 a -> P a = true.
Proof. intros H a Ha. rewrite forallb_forall in H. apply H. apply list_elem_of_In, elem_of_seqZ. unfold is_u8 in Ha. lia. Qed.
Lemma byte_forall2 (P : Z -> Z -> bool) : forallb (fun a => forallb (P a) all_bytes) all_bytes = true -> forall a b, is_u8 a -> is_u8 b -> P a b = true.
Proof. intros H a b Ha Hb. refine (byte_forall (P a) _ b Hb). exact (byte_forall _ H a Ha). Qed.

Definition is_sextet (i : Z) : bool := (0 <=? i) && (i <? 64).
Lemma b64_1_ok a : is_u8 a -> is_sextet (b64_1 a) = true.
Proof. apply (byte_forall (fun a => is_sextet (b64_1 a))). vm_compute. done. Qed.
Lemma b64_4_ok a : is_u8 a -> is_sextet (b64_4 a) = true.
Proof. apply (byte_forall (fun a => is_sextet (b64_4 a))). vm_compute. done. Qed.
Lemma b64_2_ok a b : is_u8 a -> is_u8 b -> is_sextet (b64_2 a b) && (b64_1 a * 4 + b64_2 a b / 16 =? a) && (b64_2 a b mod 16 =? b / 16) = true.
Proof. revert a b. apply (byte_forall2 (fun a b => is_sextet (b64_2 a b) && (b64_1 a * 4 + b64_2 a b / 16 =? a) && (b64_2 a b mod 16 =? b / 16))). vm_compute. done. Qed.
Lemma b64_3_ok b c : is_u8 b -> is_u8 c -> is_sextet (b64_3 b c) && (b64_3 b c / 4 =? b mod 16) && (b64_3 b c mod 4 * 64 + b64_4 c =? c) = true.
Proof. revert b c. apply (byte_forall2 (fun b c => is_sextet (b64_3 b c) && (b64_3 b c / 4 =? b mod 16) && (b64_3 b c mod 4 * 64 + b64_4 c =? c))). vm_compute. done. Qed.
Lemma sextet_ok i : is_sextet i = true -> rd8 cb64 i = Ok (sextet i) /\ unsextet (sextet i) = Some i /\ (sextet i =? 0x3d) = false.
Proof.
  intros H. set (P := fun i => match rd8 cb64 i, unsextet (sextet i) with Ok x, Some j => (x =? sextet i) && (j =? i) && negb (x =? 0x3d) | _, _ => false end).
  assert (Hf : forallb P (seqZ 0 64) = true) by (vm_compute; done). rewrite forallb_forall in Hf. assert (Hi : P i = true) by (apply Hf, list_elem_of_In, elem_of_seqZ; unfold is_sextet in H; lia).
  unfold P in Hi. destruct (rd8 cb64 i) as [x|]; [|done]. destruct (unsextet (sextet i)) as [j|]; [|done]. assert (x = sextet i) as -> by lia. assert (j = i) as -> by lia. split_and!; [done|done|lia].
Qed.

Lemma b64_loop_ok data (Hd : bytes_ok data) (Hbig : Z.of_nat (length data) < 2 ^ 31) n : forall k pos buf out,
  0 <= pos -> pos + Z.of_nat k <= Z.of_nat (length data) -> (k < n)%nat -> take (length out) buf = out -> (length out + 4 * (k / 3) <= length buf)%nat -> Z.of_nat (length buf) < 2 ^ 31 ->
  exists j r buf' x, (k = 3 * j + r /\ r < 3 /\ length x = 4 * j /\ length buf' = length buf)%nat /\ take (length (out ++ x)) buf' = out ++ x /\
    b64_loop n data pos (pos + Z.of_nat k) buf (Z.of_nat (length out)) = Ok (pos + 3 * Z.of_nat j, buf', Z.of_nat (length (out ++ x))) /\
    b64 (take k (drop (Z.to_nat pos) data)) = x ++ b64 (take r (drop (Z.to_nat (pos + 3 * Z.of_nat j)) data)).
Proof.
  induction n as [|n IH]; intros k pos buf out H0 H1 Hn Ht Hfit Hb; [lia|]. cbn [b64_loop]. rewrite !(u32_id (pos + 2)), (u32_id (pos + 1)), (u32_id (pos + 3)) by (unfold is_u32; lia).
  destruct (Z.ltb_spec (pos + 2) (pos + Z.of_nat k)) as [Hlt|Hge]; cycle 1.
  { exists 0%nat, k, buf, []. rewrite app_nil_r, Z.mul_0_r, Z.add_0_r. split_and!; [lia|lia|done|done|done|done|done]. }
  assert (exists k', k = (3 + k')%nat) as [k' ->] by (exists (k - 3)%nat; lia). assert (Hdiv : ((3 + k') / 3 = 1 + k' / 3)%nat) by (change (3 + k')%nat with (1 * 3 + k')%nat; rewrite Nat.div_add_l by lia; done).
  destruct (rd8_Ok data pos) as (a & -> & Ha); [lia|]. destruct (rd8_Ok data (pos + 1)) as (b & -> & Hb'); [lia|]. destruct (rd8_Ok data (pos + 2)) as (c & -> & Hc); [lia|]. cbind.
  assert (is_u8 a /\ is_u8 b /\ is_u8 c) as (Hua & Hub & Huc) by (split_and!; eapply Forall_lookup_1; eauto).
  pose proof (b64_1_ok a Hua) as S1. pose proof (b64_2_ok a b Hua Hub) as S2. pose proof (b64_3_ok b c Hub Huc) as S3. pose proof (b64_4_ok c Huc) as S4. apply andb_prop in S2 as [[S2 _]%andb_prop _], S3 as [[S3 _]%andb_prop _].
  rewrite (proj1 (sextet_ok _ S1)), (proj1 (sextet_ok _ S2)), (proj1 (sextet_ok _ S3)), (proj1 (sextet_ok _ S4)). cbind.
  set (q := [sextet (b64_1 a); sextet (b64_2 a b); sextet (b64_3 b c); sextet (b64_4 c)]). assert (Hq : length q = 4%nat) by done.
  destruct (buf_put_ok buf out q Ht) as (buf1 & -> & Ht1 & Hl1); [lia|]. cbind.
  destruct (IH k' (pos + 3) buf1 (out ++ q)) as (j & r & buf' & x & (Hk & Hr & Hx & Hbl) & Ht' & E & Hsp); [lia|lia|lia|done|rewrite length_app; lia|lia|].
  exists (S j), r, buf', (q ++ x). rewrite !app_assoc. split_and!; [lia|lia|rewrite length_app; lia|lia|done| |].
  - replace (pos + Z.of_nat (3 + k')) with (pos + 3 + Z.of_nat k') by lia. replace (u32 (Z.of_nat (length out) + 4)) with (Z.of_nat (length (out ++ q))) by (rewrite length_app, u32_id by (unfold is_u32; lia); lia).
    rewrite E. do 3 f_equal. lia.
  - apply drop_S in Ha. replace (Z.to_nat (pos + 1)) with (S (Z.to_nat pos)) in Hb' by lia. replace (Z.to_nat (pos + 2)) with (S (S (Z.to_nat pos))) in Hc by lia. apply drop_S in Hb', Hc. rewrite Ha, Hb', Hc. cbn [take Nat.add]. cbn [b64].
    replace (Z.to_nat (pos + 3)) with (S (S (S (Z.to_nat pos)))) in Hsp by lia. rewrite Hsp. fold q. change (?x1 :: ?x2 :: ?x3 :: ?x4 :: ?l) with (q ++ l). rewrite <- app_assoc. replace (pos + 3 * Z.of_nat (S j)) with (pos + 3 + 3 * Z.of_nat j) by lia. done.
Qed.

Lemma b64_2_0 a : b64_2 a 0 = Z.shiftl (Z.land a 0x3) 4.
Proof. unfold b64_2. cbn [Z.land Z.shiftr]. apply Z.lor_0_r. Qed.
Lemma b64_3_0 b : b64_3 b 0 = Z.shiftl (Z.land b 0xf) 2.
Proof. unfold b64_3. cbn [Z.land Z.shiftr]. apply Z.lor_0_r. Qed.

(** The padded group at the end. *)
Lemma b64_last buf x q1 q2 q3 q4 : take (length x) buf = x -> (length x + 5 <= length buf)%nat -> Z.of_nat (length buf) < 2 ^ 31 ->
  ('(out, op) ← (out ← wr_bytes buf (Z.of_nat (length x)) [q1; q2; q3; q4]; Ok (out, u32 (Z.of_nat (length x) + 4)));
   out ← wr_bytes out op [0]; Ok (take (Z.to_nat op) out)) = Ok (x ++ [q1; q2; q3; q4]).
Proof.
  intros Ht Hl Hb. set (q := [_; _; _; _]). assert (Hq : length q = 4%nat) by done. destruct (buf_put_ok buf x q Ht) as (b1 & -> & Ht1 & Hl1); [lia|]. cbind.
  replace (u32 (Z.of_nat (length x) + 4)) with (Z.of_nat (length (x ++ q))) by (rewrite length_app, u32_id by (unfold is_u32; lia); lia).
  destruct (terminate_ok b1 (x ++ q) Ht1) as (b2 & -> & Et); [rewrite length_app; lia|]. cbind. by rewrite Et.
Qed.

(** [b64encode] is the encoding of the RFC, within its allocation. *)
Lemma b64encode_ok data pos n : bytes_ok data -> Z.of_nat (length data) < 2 ^ 31 -> 0 <= pos -> 0 <= n < 2 ^ 16 -> pos + n <= Z.of_nat (length data) ->
  b64encode data pos n = Ok (b64 (take (Z.to_nat n) (drop (Z.to_nat pos) data))).
Proof.
  intros Hd Hbig H0 Hn H1. unfold b64encode. rewrite (u32_id (pos + n)) by (unfold is_u32; lia). set (buf := malloc _). set (k := Z.to_nat n).
  assert (Hbuf : length buf = ((k / 3 + 1) * 4 + 1)%nat). { unfold buf, malloc. rewrite length_replicate. replace n with (Z.of_nat k) by lia. change 3 with (Z.of_nat 3). rewrite <- Nat2Z.inj_div. lia. }
  pose proof (Nat.Div0.div_le_upper_bound k 3 k ltac:(lia)).
  destruct (b64_loop_ok data Hd Hbig (S k) k pos buf []) as (j & r & buf' & x & (Hk & Hr & Hx & Hbl) & Ht & E & Hsp); [lia|lia|lia|done|cbn [length]; lia|lia|].
  cbn [app length] in *. change (Z.of_nat 0) with 0 in E. replace (pos + Z.of_nat k) with (pos + n) in E by lia. rewrite E. cbind. rewrite Hsp. clear E Hsp.
  set (p := pos + 3 * Z.of_nat j) in *. replace (u32 (pos + n - p)) with (Z.of_nat r) by (rewrite u32_id; unfold is_u32, p; lia).
  assert (Hdiv : (k / 3 = j)%nat) by (rewrite Hk, (Nat.mul_comm 3 j), Nat.div_add_l, (Nat.div_small r 3) by lia; lia).
  destruct r as [|[|[|r]]]; [..|lia].
  - change (Z.of_nat 0 =? 2) with false. change (Z.of_nat 0 =? 1) with false. cbind. rewrite take_0. cbn [b64]. rewrite app_nil_r. destruct (terminate_ok buf' x Ht) as (b2 & -> & Et); [lia|]. cbind. by rewrite Et.
  - change (Z.of_nat 1 =? 2) with false. change (Z.of_nat 1 =? 1) with true. destruct (rd8_Ok data p) as (a & -> & Ha); [lia|]. assert (Hua : is_u8 a) by (eapply Forall_lookup_1; eauto). cbind.
    pose proof (b64_1_ok a Hua) as S1. pose proof (b64_2_ok a 0 Hua ltac:(done)) as [[S2 _]%andb_prop _]%andb_prop. rewrite <- b64_2_0, (proj1 (sextet_ok _ S1)), (proj1 (sextet_ok _ S2)). cbind.
    apply drop_S in Ha. rewrite Ha. cbn [take b64]. apply b64_last; [done|lia|lia].
  - change (Z.of_nat 2 =? 2) with true. destruct (rd8_Ok data p) as (a & -> & Ha); [lia|]. rewrite (u32_id (p + 1)) by (unfold is_u32, p; lia). destruct (rd8_Ok data (p + 1)) as (b & -> & Hb); [lia|]. assert (is_u8 a /\ is_u8 b) as [Hua Hub] by (split; eapply Forall_lookup_1; eauto). cbind.
    pose proof (b64_1_ok a Hua) as S1. pose proof (b64_2_ok a b Hua Hub) as [[S2 _]%andb_prop _]%andb_prop. pose proof (b64_3_ok b 0 Hub ltac:(done)) as [[S3 _]%andb_prop _]%andb_prop.
    rewrite <- b64_3_0, (proj1 (sextet_ok _ S1)), (proj1 (sextet_ok _ S2)), (proj1 (sextet_ok _ S3)). cbind.
    replace (Z.to_nat (p + 1)) with (S (Z.to_nat p)) in Hb by lia. apply drop_S in Ha, Hb. rewrite Ha, Hb. cbn [take b64]. apply b64_last; [done|lia|lia].
Qed.

Lemma unb64_b64 l : bytes_ok l -> unb64 (b64 l) = Some l.
Proof.
  induction l as [l IH] using (induction_ltof1 _ length). unfold ltof in IH. intros Hl. destruct l as [|a [|b l]]; [done| |].
  - apply Forall_cons in Hl as [Ha _]. pose proof (b64_1_ok a Ha) as S1. pose proof (b64_2_ok a 0 Ha ltac:(done)) as [[S2 Ea]%andb_prop _]%andb_prop.
    cbn [b64 unb64]. rewrite (proj1 (proj2 (sextet_ok _ S1))), (proj1 (proj2 (sextet_ok _ S2))). cbn. repeat f_equal. lia.
  - apply Forall_cons in Hl as [Ha [Hb Hl]%Forall_cons]. pose proof (b64_1_ok a Ha) as S1. pose proof (b64_2_ok a b Ha Hb) as [[S2 Ea]%andb_prop Eb]%andb_prop.
    assert (Hdiv : b / 16 * 16 + b mod 16 = b) by (pose proof (Z.div_mod b 16); lia). destruct l as [|c l].
    + pose proof (b64_3_ok b 0 Hb ltac:(done)) as [[S3 Eb']%andb_prop _]%andb_prop. cbn [b64 unb64]. rewrite (proj1 (proj2 (sextet_ok _ S1))), (proj1 (proj2 (sextet_ok _ S2))), (proj1 (proj2 (sextet_ok _ S3))), (proj2 (proj2 (sextet_ok _ S3))).
      cbn [mbind option_bind Z.eqb Pos.eqb]. rewrite bool_decide_eq_true_2 by done. repeat f_equal; lia.
    + apply Forall_cons in Hl as [Hc Hl]. pose proof (b64_3_ok b c Hb Hc) as [[S3 Eb']%andb_prop Ec]%andb_prop. pose proof (b64_4_ok c Hc) as S4. cbn [b64 unb64 app].
      rewrite (proj1 (proj2 (sextet_ok _ S1))), (proj1 (proj2 (sextet_ok _ S2))), (proj1 (proj2 (sextet_ok _ S3))), (proj2 (proj2 (sextet_ok _ S3))), (proj1 (proj2 (sextet_ok _ S4))), (proj2 (proj2 (sextet_ok _ S4))).
      cbn [mbind option_bind]. rewrite IH by (cbn; lia || done). cbn [mbind option_bind]. repeat f_equal; lia.
Qed.
