(* ===== verification/DnsRtypes.v ===== *)
(** * DnsRtypes: resource record data and the table of its parsers

    Models [lib/dns_parse/src/rtypes.c]: the functions that turn the data of a resource
    record into text, the table [rr_parsers] with its usage counts, [sort_parsers] and
    [find_parser].  Text is the list of its characters; [strfmt] is concatenation. *)
From S2P Require Import Prelude CString DnsName.
From stdpp Require Import pretty sorting.
Open Scope Z_scope.

(** ** Formats *)
(** [%d] of an [int]; a [uint32_t] argument is read as one. *)
Definition s32 (x : Z) : Z := if x <? 2 ^ 31 then x else x - 2 ^ 32.
Definition fmt_d (x : Z) : list Z := str_bytes (pretty (s32 x)).
(** [%x] of a 16-bit value, [%02x] of a byte. *)
Definition fmt_x16 (x : Z) : list Z :=
  if x <? 16 then [hex1 x] else if x <? 256 then [hex1 (x / 16); hex1 (x mod 16)]
  else if x <? 4096 then [hex1 (x / 256); hex1 (x / 16 mod 16); hex1 (x mod 16)]
  else [hex1 (x / 4096); hex1 (x / 256 mod 16); hex1 (x / 16 mod 16); hex1 (x mod 16)].
Definition fmt_02x (x : Z) : list Z := [hex1 (x / 16); hex1 (x mod 16)].

(** The byte of the packet at [pos + k], and the two and four bytes from there. *)
Definition at8 (packet : list Z) (pos k : Z) : res Z := rd8 packet (u32 (pos + k)).
Definition at16 (packet : list Z) (pos k : Z) : res Z :=
  a ← at8 packet pos k; b ← at8 packet pos (k + 1); Ok (u16 (Z.shiftl a 8 + b)).
Definition at32 (packet : list Z) (pos k : Z) : res Z :=
  a ← at8 packet pos k; b ← at8 packet pos (k + 1); c ← at8 packet pos (k + 2); d ← at8 packet pos (k + 3);
  Ok (u32 (Z.shiftl a 24 + Z.shiftl b 16 + Z.shiftl c 8 + d)).

(** ** The parsers *)
Definition mk_error (msg : string) (packet : list Z) (pos rdlength : Z) : res (list Z) :=
  tmp ← escape_data packet pos (u32 (pos + rdlength)); Ok (str_bytes msg ++ tmp).

Definition A (packet : list Z) (pos i rdlength plen : Z) : res (list Z) :=
  if negb (rdlength =? 4) then mk_error "Bad A record: " packet pos rdlength else
  a ← at8 packet pos 0; b ← at8 packet pos 1; c ← at8 packet pos 2; d ← at8 packet pos 3;
  Ok (fmt_d a ++ [0x2e] ++ fmt_d b ++ [0x2e] ++ fmt_d c ++ [0x2e] ++ fmt_d d).

Definition domain_name (packet : list Z) (pos id_pos rdlength plen : Z) : res (list Z) :=
  '(name, pos) ← read_rr_name packet pos id_pos plen;
  match name with None => mk_error "Bad DNS name: " packet pos rdlength | Some name => Ok name end.

(** The loop of [soa], one round per byte of the five numbers; [v] always has five. *)
Fixpoint soa_loop (n : nat) (packet : list Z) (pos i : Z) (v : list Z) : res (list Z) :=
  match n with
  | O => Ok v
  | S n =>
      bs ← (b0 ← at8 packet pos i; b1 ← at8 packet pos (i + 4); b2 ← at8 packet pos (i + 8); b3 ← at8 packet pos (i + 12); b4 ← at8 packet pos (i + 16); Ok [b0; b1; b2; b3; b4]);
      soa_loop n packet pos (i + 1) (zip_with (fun x b => Z.lor (u32 (Z.shiftl x 8)) b) v bs)
  end.
Definition soa (packet : list Z) (pos id_pos rdlength plen : Z) : res (list Z) :=
  '(mname, pos) ← read_rr_name packet pos id_pos plen;
  match mname with None => mk_error "Bad SOA: " packet pos rdlength | Some mname =>
  '(rname, pos) ← read_rr_name packet pos id_pos plen;
  match rname with None => mk_error "Bad SOA: " packet pos rdlength | Some rname =>
  v ← soa_loop 4 packet pos 0 [0; 0; 0; 0; 0];
  match v with
  | [serial; refresh; retry; expire; minimum] =>
      Ok (str_bytes "mname: " ++ mname ++ str_bytes ", rname: " ++ rname ++ str_bytes ", serial: " ++ fmt_d serial ++ str_bytes ", refresh: " ++ fmt_d refresh ++
          str_bytes ", retry: " ++ fmt_d retry ++ str_bytes ", expire: " ++ fmt_d expire ++ str_bytes ", min: " ++ fmt_d minimum)
  | _ => Ok []
  end end end.

Definition mx (packet : list Z) (pos id_pos rdlength plen : Z) : res (list Z) :=
  pref ← at16 packet pos 0;
  '(name, _) ← read_rr_name packet (u32 (pos + 2)) id_pos plen;
  match name with None => mk_error "Bad MX: " packet pos rdlength | Some name => Ok (fmt_d pref ++ [0x2c] ++ name) end.

Definition opts (packet : list Z) (pos id_pos rdlength plen : Z) : res (list Z) :=
  payload_size ← at16 packet pos 0;
  rdata ← escape_data packet (u32 (pos + 6)) (u32 (pos + 6 + rdlength));
  a ← at8 packet pos 2; b ← at8 packet pos 3; c ← at8 packet pos 4; d ← at8 packet pos 5;
  Ok (str_bytes "size:" ++ fmt_d payload_size ++ str_bytes ",rcode:0x" ++ fmt_02x a ++ fmt_02x b ++ fmt_02x c ++ fmt_02x d ++ [0x2c] ++ rdata).

Definition srv (packet : list Z) (pos id_pos rdlength plen : Z) : res (list Z) :=
  priority ← at16 packet pos 0; weight ← at16 packet pos 2; port ← at16 packet pos 4;
  let pos := u32 (pos + 6) in
  '(target, pos) ← read_rr_name packet pos id_pos (u32 (pos + rdlength - 6));
  match target with
  | None => mk_error "Bad SRV" packet pos rdlength
  | Some target => Ok (fmt_d priority ++ [0x2c] ++ fmt_d weight ++ [0x2c] ++ fmt_d port ++ [0x20] ++ target)
  end.

Fixpoint AAAA_loop (n : nat) (packet : list Z) (pos i : Z) : res (list Z) :=
  match n with O => Ok [] | S n => w ← at16 packet pos (i * 2); ws ← AAAA_loop n packet pos (i + 1); Ok (w :: ws) end.
Fixpoint colons (l : list (list Z)) : list Z := match l with [] => [] | [x] => x | x :: l => x ++ [0x3a] ++ colons l end.
Definition AAAA (packet : list Z) (pos id_pos rdlength plen : Z) : res (list Z) :=
  if negb (rdlength =? 16) then mk_error "Bad AAAA record" packet pos rdlength else
  ipv6 ← AAAA_loop 8 packet pos 0; Ok (colons (fmt_x16 <$> ipv6)).

Definition dnskey (packet : list Z) (pos id_pos rdlength plen : Z) : res (list Z) :=
  flags ← at16 packet pos 0; proto ← at8 packet pos 2; algorithm ← at8 packet pos 3;
  key ← b64encode packet (u32 (pos + 4)) (u16 (rdlength - 4));
  Ok (fmt_d flags ++ [0x2c] ++ fmt_d proto ++ [0x2c] ++ fmt_d algorithm ++ [0x2c] ++ key).

Definition rrsig (packet : list Z) (pos id_pos rdlength plen : Z) : res (list Z) :=
  let o_pos := pos in
  tc ← at16 packet pos 0; alg ← at8 packet pos 2; labels ← at8 packet pos 3; key_tag ← at16 packet pos 16;
  ottl ← at32 packet (u32 (pos + 4)) 0; sig_exp ← at32 packet (u32 (pos + 8)) 0; sig_inc ← at32 packet (u32 (pos + 12)) 0;
  '(signer, pos) ← read_rr_name packet (u32 (pos + 18)) id_pos (u32 (o_pos + rdlength));
  match signer with
  | None => mk_error "Bad Signer name" packet pos rdlength
  | Some signer =>
      signature ← b64encode packet pos (u16 (o_pos + rdlength - pos));
      Ok (fmt_d tc ++ [0x2c] ++ fmt_d alg ++ [0x2c] ++ fmt_d labels ++ [0x2c] ++ fmt_d ottl ++ [0x2c] ++ fmt_d sig_exp ++ [0x2c] ++ fmt_d sig_inc ++ [0x2c] ++
          fmt_d key_tag ++ [0x2c] ++ signer ++ [0x2c] ++ signature)
  end.

Definition nsec (packet : list Z) (pos id_pos rdlength plen : Z) : res (list Z) :=
  '(domain, pos) ← read_rr_name packet pos id_pos (u32 (pos + rdlength));
  match domain with
  | None => mk_error "Bad NSEC domain" packet pos rdlength
  | Some domain => bitmap ← escape_data packet pos (u32 (pos + rdlength)); Ok (domain ++ [0x2c] ++ bitmap)
  end.

Definition ds (packet : list Z) (pos id_pos rdlength plen : Z) : res (list Z) :=
  key_tag ← at16 packet pos 0; alg ← at8 packet pos 2; dig_type ← at8 packet pos 3;
  digest ← b64encode packet (u32 (pos + 4)) (u16 (rdlength - 4));
  Ok (fmt_d key_tag ++ [0x2c] ++ fmt_d alg ++ [0x2c] ++ fmt_d dig_type ++ [0x2c] ++ digest).

Definition escape (packet : list Z) (pos i rdlength plen : Z) : res (list Z) := escape_data packet pos (u32 (pos + rdlength)).

(** ** The table *)
Inductive rr_data_parser := PA | Pdomain_name | Psoa | Psrv | PAAAA | Pmx | Prrsig | Pescape | Pnsec | Pds | Pdnskey | Popts.
#[export] Instance rr_data_parser_dec : EqDecision rr_data_parser.
Proof. solve_decision. Defined.
Definition run_parser (p : rr_data_parser) : list Z -> Z -> Z -> Z -> Z -> res (list Z) :=
  match p with
  | PA => A | Pdomain_name => domain_name | Psoa => soa | Psrv => srv | PAAAA => AAAA | Pmx => mx | Prrsig => rrsig
  | Pescape => escape | Pnsec => nsec | Pds => ds | Pdnskey => dnskey | Popts => opts
  end.

(** [doc] is only printed. *)
Record rr_parser_container := mk_rpc { pc_cls : Z; pc_rtype : Z; pc_parser : rr_data_parser; pc_name : option string; pc_count : Z }.
#[export] Instance rr_parser_container_dec : EqDecision rr_parser_container.
Proof. solve_decision. Defined.

Definition rr_parsers_init : list rr_parser_container :=
  [mk_rpc 1 1 PA (Some "A") 0; mk_rpc 0 2 Pdomain_name (Some "NS") 0; mk_rpc 0 5 Pdomain_name (Some "CNAME") 0; mk_rpc 0 6 Psoa (Some "SOA") 0;
   mk_rpc 0 12 Pdomain_name (Some "PTR") 0; mk_rpc 1 33 Psrv (Some "SRV") 0; mk_rpc 1 28 PAAAA (Some "AAAA") 0; mk_rpc 0 15 Pmx (Some "MX") 0;
   mk_rpc 0 46 Prrsig (Some "RRSIG") 0; mk_rpc 0 16 Pescape (Some "TEXT") 0; mk_rpc 0 47 Pnsec (Some "NSEC") 0; mk_rpc 0 43 Pds (Some "DS") 0;
   mk_rpc 0 10 Pescape (Some "NULL") 0; mk_rpc 0 48 Pdnskey (Some "DNSKEY") 0; mk_rpc 0 255 Pescape (Some "ANY") 0].

(** The globals [rr_parsers], [default_rr_parser] and [PACKETS_SEEN]. *)
Record rtypes := mk_rtypes { rr_parsers : list rr_parser_container; default_rr_parser : rr_parser_container; PACKETS_SEEN : Z }.
Definition rtypes_init : rtypes := mk_rtypes rr_parsers_init (mk_rpc 0 0 Pescape None 0) 0.
Definition set_count (c : rr_parser_container) (n : Z) : rr_parser_container := mk_rpc (pc_cls c) (pc_rtype c) (pc_parser c) (pc_name c) n.

(** One pass of [sort_parsers] over the table, and whether it changed anything. *)
Fixpoint bubble (x : rr_parser_container) (l : list rr_parser_container) : list rr_parser_container * bool :=
  match l with
  | [] => ([x], false)
  | y :: l =>
      if pc_count x <? pc_count y then let '(l, _) := bubble x l in (y :: l, true)
      else let '(l, change) := bubble y l in (x :: l, change)
  end.
Definition pass (l : list rr_parser_container) : list rr_parser_container * bool :=
  match l with [] => ([], false) | x :: l => bubble x l end.
Fixpoint passes (m : nat) (l : list rr_parser_container) : list rr_parser_container :=
  match m with O => l | S m => let '(l, change) := pass l in if (change : bool) then passes m l else l end.
Definition reset_counts (l : list rr_parser_container) : list rr_parser_container :=
  imap (fun i c => if decide (i < length l - 1)%nat then set_count c 0 else c) l.
Definition sort_parsers (l : list rr_parser_container) : list rr_parser_container := reset_counts (passes (length l - 1) l).

Definition REORDER_LIMIT := 100000.
Definition pc_matches (cls rtype : Z) (c : rr_parser_container) : bool :=
  ((pc_rtype c =? rtype) || (pc_rtype c =? 0)) && ((pc_cls c =? cls) || (pc_cls c =? 0)).
(** The search: the entry found, with the table after the first [count++]. *)
Fixpoint find_from (cls rtype : Z) (l : list rr_parser_container) : option nat :=
  match l with [] => None | c :: l => if pc_matches cls rtype c then Some O else S <$> find_from cls rtype l end.
Definition bump (c : rr_parser_container) : rr_parser_container := set_count c (u64 (pc_count c + 1)).
Definition find_parser (g : rtypes) (cls rtype : Z) : rtypes * rr_parser_container :=
  let g := if REORDER_LIMIT <? PACKETS_SEEN g then mk_rtypes (sort_parsers (rr_parsers g)) (default_rr_parser g) 0 else g in
  let g := mk_rtypes (rr_parsers g) (default_rr_parser g) (u32 (PACKETS_SEEN g + 1)) in
  match find_from cls rtype (rr_parsers g) with
  | Some i =>
      let l := alter bump i (rr_parsers g) in
      let l := alter bump i l in
      (mk_rtypes l (default_rr_parser g) (PACKETS_SEEN g), default (default_rr_parser g) (l !! i))
  | None =>
      let d := bump (default_rr_parser g) in
      (mk_rtypes (rr_parsers g) d (PACKETS_SEEN g), d)
  end.

(** *** Sorting *)
Notation busier := (fun x y => pc_count y <= pc_count x).

Lemma bubble_perm l : forall x, (bubble x l).1 ≡ₚ x :: l.
Proof.
  induction l as [|y l IH]; intros x; cbn [bubble]; [done|]. specialize (IH (if pc_count x <? pc_count y then x else y)) as Hl.
  destruct (pc_count x <? pc_count y); [pose proof (IH x) as Hx; destruct (bubble x l); cbn in *; rewrite Hx; constructor|pose proof (IH y) as Hy; destruct (bubble y l); cbn in *; by rewrite Hy].
Qed.
Lemma passes_perm m : forall l, passes m l ≡ₚ l.
Proof.
  induction m as [|m IH]; intros l; cbn [passes]; [done|]. destruct (pass l) as [l' ch] eqn:E. assert (Hl : l' ≡ₚ l). { destruct l as [|x l]; cbn in E; [by simplify_eq|]. pose proof (bubble_perm l x) as Hp. by rewrite E in Hp. }
  destruct ch; [by rewrite IH|done].
Qed.

(** A pass moves the least used entry to the end. *)
Lemma bubble_last l : forall x, exists i z, (bubble x l).1 = i ++ [z] /\ Forall (fun y => busier y z) (x :: l).
Proof.
  induction l as [|y l IH]; intros x; cbn [bubble].
  - exists [], x. split; [done|]. constructor; [lia|done].
  - destruct (Z.ltb_spec (pc_count x) (pc_count y)) as [Hlt|Hge].
    + destruct (IH x) as (i & z & E & [Hx Hl]%Forall_cons). destruct (bubble x l) as [l' ch]; cbn in *. subst. exists (y :: i), z. split; [done|]. repeat constructor; [done|lia|done].
    + destruct (IH y) as (i & z & E & [Hy Hl]%Forall_cons). destruct (bubble y l) as [l' ch]; cbn in *. subst. exists (x :: i), z. split; [done|]. repeat constructor; [lia|lia|done].
Qed.
(** A pass without a change: the table is sorted. *)
Lemma bubble_sorted l : forall x, StronglySorted busier (x :: l) -> bubble x l = (x :: l, false).
Proof.
  induction l as [|y l IH]; intros x Hs; cbn [bubble]; [done|]. inversion Hs as [|? ? Hs' Hx]; subst. inversion Hx; subst. rewrite (proj2 (Z.ltb_ge _ _)) by done. by rewrite (IH y).
Qed.
Lemma bubble_unchanged l : forall x l', bubble x l = (l', false) -> l' = x :: l /\ StronglySorted busier (x :: l).
Proof.
  induction l as [|y l IH]; intros x l' E; cbn [bubble] in E; [simplify_eq; split; [done|repeat constructor]|].
  destruct (Z.ltb_spec (pc_count x) (pc_count y)) as [Hlt|Hge]; [by destruct (bubble x l)|]. destruct (bubble y l) as [l1 ch] eqn:E1. simplify_eq. apply IH in E1 as [-> Hs]. split; [done|].
  constructor; [done|]. inversion Hs as [|? ? _ Hy]; subst. constructor; [done|]. eapply Forall_impl; [exact Hy|]. cbn. lia.
Qed.
(** What is already in place at the end stays. *)
Lemma bubble_app l b : StronglySorted busier b -> forall x, Forall (fun y => Forall (fun z => busier y z) b) (x :: l) -> (bubble x (l ++ b)).1 = (bubble x l).1 ++ b.
Proof.
  intros Hb. induction l as [|y l IH]; intros x Hx.
  - cbn [app bubble]. rewrite bubble_sorted; [done|]. apply Forall_cons in Hx as [Hx _]. by constructor.
  - apply Forall_cons in Hx as [Hx [Hy Hl]%Forall_cons]. cbn [app bubble]. destruct (pc_count x <? pc_count y).
    + specialize (IH x ltac:(by constructor)). destruct (bubble x (l ++ b)), (bubble x l); cbn in *. by rewrite IH.
    + specialize (IH y ltac:(by constructor)). destruct (bubble y (l ++ b)), (bubble y l); cbn in *. by rewrite IH.
Qed.

Lemma passes_sorted m : forall a b, (length a <= S m)%nat -> StronglySorted busier b -> Forall (fun y => Forall (fun z => busier y z) b) a -> StronglySorted busier (passes m (a ++ b)).
Proof.
  induction m as [|m IH]; intros a b Hm Hb Hab.
  { cbn [passes]. destruct a as [|x [|]]; [done| |cbn in Hm; lia]. apply Forall_cons in Hab as [Hx _]. by constructor. }
  destruct a as [|x a]; cbn [app].
  { cbn [passes]. destruct b as [|x b]; [done|]. cbn [pass]. by rewrite bubble_sorted. }
  cbn [passes pass]. pose proof (bubble_app a b Hb x Hab) as E. destruct (bubble x (a ++ b)) as [l ch] eqn:El. cbn in E. destruct ch; [|by apply bubble_unchanged in El as [-> ?]].
  destruct (bubble_last a x) as (i & z & Ei & Hz). rewrite Ei in E. subst l. rewrite <- app_assoc. pose proof (bubble_perm a x) as Hp. rewrite Ei in Hp.
  rewrite <- Hp in Hz, Hab. apply Forall_app in Hz as [Hz _], Hab as [Hi [Hzb _]%Forall_cons]. apply IH.
  - apply Permutation_length in Hp. rewrite length_app in Hp. cbn in *. lia.
  - by constructor.
  - rewrite Forall_forall in Hz, Hi |- *. intros y Hy. constructor; [by apply Hz|by apply Hi].
Qed.

(** *** The table as a map *)
Definition key (c : rr_parser_container) : rr_parser_container := set_count c 0.
(** The globals at any time: the entries of the source in some order. *)
Definition rr_table_ok (g : rtypes) : Prop := key <$> rr_parsers g ≡ₚ rr_parsers_init /\ key (default_rr_parser g) = default_rr_parser rtypes_init.
(** The entry for a class and a type. *)
Definition rr_entry (cls rtype : Z) : rr_parser_container :=
  default (default_rr_parser rtypes_init) (snd <$> list_find (fun c => pc_matches cls rtype c) rr_parsers_init).

Lemma reset_counts_key l : key <$> reset_counts l = key <$> l.
Proof. unfold reset_counts. apply list_eq. intros i. rewrite !list_lookup_fmap, list_lookup_imap. destruct (l !! i); cbn; [|done]. by case_decide. Qed.
Lemma sort_parsers_key l : key <$> sort_parsers l ≡ₚ key <$> l.
Proof. unfold sort_parsers. by rewrite reset_counts_key, passes_perm. Qed.
Lemma alter_bump_key (i : nat) (l : list rr_parser_container) : key <$> alter bump i l = key <$> l.
Proof. revert i. induction l as [|c l IH]; intros [|i]; cbn; [done|done|done|]. f_equal. apply IH. Qed.
Lemma pc_matches_key cls rtype c : pc_matches cls rtype (key c) = pc_matches cls rtype c.
Proof. done. Qed.

Lemma find_from_spec cls rtype l : match find_from cls rtype l with Some i => exists c, l !! i = Some c /\ pc_matches cls rtype c = true | None => Forall (fun c => pc_matches cls rtype c = false) l end.
Proof.
  induction l as [|c l IH]; cbn [find_from]; [done|]. destruct (pc_matches cls rtype c) eqn:E; [by exists c|]. destruct (find_from cls rtype l) as [i|]; cbn; [done|by constructor].
Qed.

(** No two entries are for the same type, so at most one matches. *)
Lemma rr_entry_match cls rtype c : c ∈ rr_parsers_init -> pc_matches cls rtype c = true -> rr_entry cls rtype = c.
Proof.
  intros Hc Hm. assert (Hno : NoDup (pc_rtype <$> rr_parsers_init)) by (apply (bool_decide_unpack _); vm_compute; exact I).
  assert (H0 : Forall (fun c => pc_rtype c <> 0) rr_parsers_init) by (apply (bool_decide_unpack _); vm_compute; exact I).
  assert (Ht : forall c, c ∈ rr_parsers_init -> pc_matches cls rtype c = true -> pc_rtype c = rtype).
  { intros d Hd Hdm. rewrite Forall_forall in H0. specialize (H0 d Hd). unfold pc_matches in Hdm. lia. }
  unfold rr_entry. destruct (list_find _ rr_parsers_init) as [[i d]|] eqn:E.
  - apply list_find_Some in E as (Hi & Hd & _). cbn. apply list_elem_of_lookup in Hc as [j Hj]. assert (Htc : pc_rtype c = rtype) by (apply Ht; [by eapply list_elem_of_lookup_2|done]). assert (Htd : pc_rtype d = rtype) by (apply Ht; [by eapply list_elem_of_lookup_2|by destruct (pc_matches cls rtype d)]).
    assert (i = j) as -> by (eapply NoDup_lookup; [exact Hno|rewrite list_lookup_fmap, Hi; done|rewrite list_lookup_fmap, Hj; cbn; congruence]). congruence.
  - apply list_find_None in E. rewrite Forall_forall in E. specialize (E c Hc). cbn in E. by rewrite Hm in E.
Qed.
Lemma rr_entry_none cls rtype : Forall (fun c => pc_matches cls rtype c = false) rr_parsers_init -> rr_entry cls rtype = default_rr_parser rtypes_init.
Proof.
  intros H. unfold rr_entry. destruct (list_find _ rr_parsers_init) as [[i d]|] eqn:E; [|done]. apply list_find_Some in E as (Hi & Hd & _). rewrite Forall_forall in H. rewrite (H d) in Hd by (by eapply list_elem_of_lookup_2). done.
Qed.

(** One lookup. *)
Lemma find_parser_ok g cls rtype : rr_table_ok g -> let '(g', c) := find_parser g cls rtype in rr_table_ok g' /\ key c = rr_entry cls rtype.
Proof.
  intros [Hk Hd]. unfold find_parser. set (g1 := if REORDER_LIMIT <? _ then _ else _).
  assert (Hg1 : key <$> rr_parsers g1 ≡ₚ rr_parsers_init /\ default_rr_parser g1 = default_rr_parser g) by (unfold g1; case_match; cbn; [by rewrite sort_parsers_key|done]).
  destruct Hg1 as [Hk1 Hd1]. cbn [rr_parsers default_rr_parser PACKETS_SEEN]. rewrite Hd1. pose proof (find_from_spec cls rtype (rr_parsers g1)) as Hf. destruct (find_from cls rtype (rr_parsers g1)) as [i|].
  - destruct Hf as (c & Hi & Hm). split; [split; [cbn; by rewrite !alter_bump_key|done]|]. rewrite !list_lookup_alter_eq, Hi. cbn. symmetry. apply rr_entry_match; [|exact Hm]. change (set_count _ 0) with (key c). rewrite <- Hk1. apply list_elem_of_fmap. exists c. split; [done|by eapply list_elem_of_lookup_2].
  - split; [done|]. rewrite rr_entry_none; [done|]. rewrite <- Hk1, Forall_fmap. eapply Forall_impl; [exact Hf|]. done.
Qed.

(** The lookups made so far, in order. *)
Definition after_lookups (hist : list (Z * Z)) : rtypes := foldl (fun g q => (find_parser g q.1 q.2).1) rtypes_init hist.
Lemma after_lookups_ok hist : rr_table_ok (after_lookups hist).
Proof.
  unfold after_lookups. assert (H0 : rr_table_ok rtypes_init) by done. revert H0. generalize rtypes_init. induction hist as [|q hist IH]; intros g Hg; [done|]. cbn [foldl]. apply IH.
  pose proof (find_parser_ok g q.1 q.2 Hg) as H. destruct (find_parser g q.1 q.2). apply H.
Qed.

(** C35: [find_parser] after any history of lookups, whatever the counts and however often
    the table was re-sorted: it returns the entry of the source's table for the class and
    type, or the default entry when there is none.  Re-sorting, which puts the most used
    entries first, does not change what is parsed. *)
Theorem find_parser_exact hist cls rtype : key (find_parser (after_lookups hist) cls rtype).2 = rr_entry cls rtype /\
  exists l, sort_parsers (rr_parsers (after_lookups hist)) = reset_counts l /\ l ≡ₚ rr_parsers (after_lookups hist) /\ StronglySorted (fun x y => pc_count y <= pc_count x) l.
Proof.
  split.
  - pose proof (find_parser_ok _ cls rtype (after_lookups_ok hist)) as H. destruct (find_parser _ cls rtype). apply H.
  - eexists. split_and!; [done|apply passes_perm|]. rewrite <- (app_nil_r (rr_parsers _)) at 2. apply passes_sorted; [lia|constructor|]. apply Forall_forall. by intros.
Qed.

(** ** No parser reads far behind the packet *)
Notation sure := (wp (fun _ => False)).
Create HintDb dns.
Section safe.
Context (packet : list Z) (plen : Z).
Hypotheses (Hpkt : bytes_ok packet) (Hbig : Z.of_nat (length packet) < 2 ^ 28).

Lemma at8_sure pos k : 0 <= pos + k < Z.of_nat (length packet) -> sure (at8 packet pos k) is_u8.
Proof using Hpkt Hbig. intros H. unfold at8. rewrite u32_id by (unfold is_u32; lia). destruct (rd8_Ok packet (pos + k)) as (b & -> & Hb); [done|]. cbn. by eapply Forall_lookup_1. Qed.
Lemma at16_sure pos k : 0 <= pos + k -> pos + k + 1 < Z.of_nat (length packet) -> sure (at16 packet pos k) is_u16.
Proof using Hpkt Hbig. intros H0 H1. unfold at16. do 2 (apply wp_bind; eapply wp_mono; [apply at8_sure; lia|intros ? _]). apply u16_range. Qed.
Lemma at32_sure pos k : 0 <= pos + k -> pos + k + 3 < Z.of_nat (length packet) -> sure (at32 packet pos k) is_u32.
Proof using Hpkt Hbig. intros H0 H1. unfold at32. do 4 (apply wp_bind; eapply wp_mono; [apply at8_sure; lia|intros ? _]). apply u32_range. Qed.
Lemma escape_sure a b : 0 <= a -> b <= Z.of_nat (length packet) -> sure (escape_data packet a b) (fun _ => True).
Proof using. intros. by rewrite escape_data_ok. Qed.
Lemma mk_error_sure msg pos n : 0 <= pos -> 0 <= n -> pos + n <= Z.of_nat (length packet) -> sure (mk_error msg packet pos n) (fun _ => True).
Proof using Hbig. intros. unfold mk_error. rewrite u32_id by (unfold is_u32; lia). apply wp_bind. by rewrite escape_data_ok. Qed.
Lemma b64_sure pos n : 0 <= pos -> 0 <= n < 2 ^ 16 -> pos + n <= Z.of_nat (length packet) -> sure (b64encode packet pos n) (fun _ => True).
Proof using Hpkt Hbig. intros. rewrite b64encode_ok by (done || lia). done. Qed.
(** Behind the name when there is one. *)
Lemma name_sure pos id_pos len : is_u32 pos -> 0 <= len <= Z.of_nat (length packet) ->
  sure (read_rr_name packet pos id_pos len) (fun '(o, p) => match o with Some _ => 0 <= pos < p /\ p <= len | None => p = pos end).
Proof using Hpkt Hbig. intros H0 H1. destruct (read_rr_name_cases packet pos id_pos len) as [(ls & m & e & Hd & _ & ->)|[_ ->]]; try (done || lia). apply dname_end in Hd. done. Qed.
End safe.
#[export] Hint Resolve at8_sure at16_sure at32_sure escape_sure mk_error_sure b64_sure name_sure : dns.

(** One step of a parser. *)
Ltac in_u32 := match goal with |- context[u32 ?x] => lazymatch x with context[u32 _] => fail | _ => rewrite (u32_id x) by (unfold is_u32, is_u16 in *; lia) end end.
Ltac sure_step := repeat in_u32; first [apply wp_bind; eapply wp_mono; [first [apply at8_sure|apply at16_sure|apply at32_sure|apply escape_sure|apply b64_sure|apply name_sure]; unfold is_u32, is_u16 in *; done || lia|] | apply mk_error_sure; unfold is_u16 in *; done || lia | apply escape_sure; done || lia].

Lemma soa_loop_sure packet pos (Hpkt : bytes_ok packet) (Hbig : Z.of_nat (length packet) < 2 ^ 28) (Hpos : 0 <= pos) (Hroom : pos + 20 <= Z.of_nat (length packet)) n : forall i v,
  0 <= i -> i + Z.of_nat n <= 4 -> length v = 5%nat -> sure (soa_loop n packet pos i v) (fun v => length v = 5%nat).
Proof.
  induction n as [|n IH]; intros i v H0 Hn Hv; [done|]. cbn [soa_loop]. apply wp_bind, (wp_mono _ _ (fun bs => length bs = 5%nat)); [do 5 (sure_step; intros ? _); done|]. intros bs Hbs. apply IH; [lia|lia|]. rewrite length_zip_with. lia.
Qed.
Lemma AAAA_loop_sure packet pos (Hpkt : bytes_ok packet) (Hbig : Z.of_nat (length packet) < 2 ^ 28) (Hpos : 0 <= pos) n : forall i, 0 <= i -> pos + 2 * i + 2 * Z.of_nat n <= Z.of_nat (length packet) ->
  sure (AAAA_loop n packet pos i) (fun _ => True).
Proof. induction n as [|n IH]; intros i H0 Hn; [done|]. cbn [AAAA_loop]. sure_step. intros w _. apply wp_bind. eapply wp_mono; [apply IH; lia|]. done. Qed.

(** The parsers are handed data that may lie behind the packet (see [parse_rr]); with two
    times 64 KiB and 64 bytes of readable memory there, none of them faults. *)
Definition SLACK := 2 ^ 17 + 64.
Lemma run_parser_sure p packet pos id_pos rdlength plen : bytes_ok packet -> Z.of_nat (length packet) < 2 ^ 28 -> 0 <= pos <= plen -> is_u16 rdlength -> plen + SLACK <= Z.of_nat (length packet) ->
  sure (run_parser p packet pos id_pos rdlength plen) (fun _ => True).
Proof.
  intros Hpkt Hbig Hpos Hrd Hroom. unfold SLACK in Hroom. unfold is_u16 in Hrd. destruct p; cbn [run_parser].
  - unfold A. case_match; [sure_step|]. do 4 (sure_step; intros ? _). done.
  - unfold domain_name. sure_step. intros [[name|] p] Hp; [done|]. subst p. sure_step.
  - unfold soa. sure_step. intros [[mname|] p1] Hp1; [|subst p1; sure_step]. sure_step. intros [[rname|] p2] Hp2; [|subst p2; sure_step].
    apply wp_bind. eapply wp_mono; [apply soa_loop_sure; done || lia|]. intros v _. by repeat case_match.
  - unfold srv. do 3 (sure_step; intros ? _). cbv zeta. sure_step. intros [[t|] p] Hp; [done|]. subst p. sure_step.
  - unfold AAAA. case_match; [sure_step|]. apply wp_bind. eapply wp_mono; [apply AAAA_loop_sure; done || lia|]. done.
  - unfold mx. sure_step. intros ? _. sure_step. intros [[t|] p] Hp; [done|]. sure_step.
  - unfold rrsig. do 7 (sure_step; intros ? _). sure_step. intros [[t|] p] Hp; [|subst p; sure_step]. apply wp_bind. eapply wp_mono; [apply b64_sure; try done; [lia|apply u16_range|]|done].
    rewrite u16_id by (unfold is_u16; lia). lia.
  - unfold escape. sure_step.
  - unfold nsec. sure_step. intros [[t|] p] Hp; [|subst p; sure_step]. sure_step. done.
  - unfold ds. do 3 (sure_step; intros ? _). pose proof (u16_range (rdlength - 4)) as Hr. unfold is_u16 in Hr. sure_step. done.
  - unfold dnskey. do 3 (sure_step; intros ? _). pose proof (u16_range (rdlength - 4)) as Hr. unfold is_u16 in Hr. sure_step. done.
  - unfold opts. do 6 (sure_step; intros ? _). done.
Qed.
