(* ===== verification/DnsParse.v ===== *)
(** * DnsParse: the DNS message parser

    Models [parse_questions], [parse_rr], [parse_rr_set] and [dns_parse] of
    [lib/dns_parse/src/dns_parse.c].  The packet may be followed by other readable memory:
    [packet] is everything that can be read, [len] is [header->len].  The records come from
    [MALLOC], so the fields that are not written keep what was there ([junk]). *)
From S2P Require Import Prelude CString DnsName DnsRtypes.
Open Scope Z_scope.

Record dns_question := mk_question { q_name : list Z; q_type : Z; q_cls : Z }.
(** [data_len] is never used. *)
Record dns_rr := mk_rr { rr_name_ : option (list Z); rr_type : Z; rr_type_pos : Z; rr_cls : Z; rr_rr_name : option string; rr_ttl : Z; rr_rdlength : Z; rr_data : option (list Z) }.
Record dns_info := mk_dns { dns_id : Z; dns_qr : Z; dns_AA : Z; dns_TC : Z; dns_Z : Z; dns_rcode : Z; dns_opcode : Z;
  dns_qdcount : Z; dns_queries : list dns_question; dns_ancount : Z; dns_answers : list dns_rr; dns_answer_pos : Z;
  dns_nscount : Z; dns_name_servers : list dns_rr; dns_arcount : Z; dns_additional : list dns_rr }.

(** The loop of [parse_questions]; [qs] is the list built so far. *)
Fixpoint questions_loop (n : nat) (packet : list Z) (start_pos pos id_pos len : Z) (qs : list dns_question) : res (Z * list dns_question) :=
  match n with
  | O => Ok (pos, qs)
  | S n =>
      '(name, pos) ← read_rr_name packet pos id_pos len;
      let bad := buffer ← escape_data packet start_pos len; Ok (0, qs ++ [mk_question (str_bytes "Bad DNS question: " ++ buffer) 0 0]) in
      match name with
      | None => bad
      | Some name =>
          if len <=? u32 (pos + 2) then bad else
          type ← at16 packet pos 0; cls ← at16 packet pos 2;
          questions_loop n packet start_pos (u32 (pos + 4)) id_pos len (qs ++ [mk_question name type cls])
      end
  end.
Definition parse_questions (packet : list Z) (pos id_pos len count : Z) : res (Z * list dns_question) :=
  questions_loop (Z.to_nat count) packet pos pos id_pos len [].

(** The loop that reads [rr->ttl], a [uint16_t]. *)
Fixpoint ttl_loop (n : nat) (packet : list Z) (pos i ttl : Z) : res Z :=
  match n with O => Ok ttl | S n => b ← at8 packet pos (4 + i); ttl_loop n packet pos (i + 1) (u16 (Z.shiftl ttl 8 + b)) end.

Definition parse_rr (g : rtypes) (packet : list Z) (pos id_pos len : Z) (rr : dns_rr) : res (Z * dns_rr * rtypes) :=
  let rr_start := pos in
  '(name, pos) ← read_rr_name packet pos id_pos len;
  match name with
  | None =>
      data ← escape_data packet pos len;
      Ok (0, mk_rr (Some (str_bytes "Bad rr name")) 0 (rr_type_pos rr) 0 None 0 (rr_rdlength rr) (Some data), g)
  | Some name =>
      if u32 (len - pos) <? 10 then Ok (0, mk_rr (Some name) (rr_type rr) (rr_type_pos rr) (rr_cls rr) (rr_rr_name rr) (rr_ttl rr) (rr_rdlength rr) None, g) else
      type ← at16 packet pos 0;
      rdlength ← at16 packet pos 8;
      '(cls, ttl, rr_name, parser, dpos, g) ←
        (if type =? 41 then Ok (0, 0, Some "OPTS"%string, Popts, u32 (pos + 2), g)
         else
           cls ← at16 packet pos 2;
           ttl ← ttl_loop 4 packet pos 0 0;
           let '(g, c) := find_parser g cls type in
           Ok (cls, ttl, pc_name c, pc_parser c, u32 (pos + 10), g));
      let rr := mk_rr (Some name) type pos cls rr_name ttl rdlength in
      if len <? u32 (rr_start + 10 + rdlength) then
        buffer ← escape_data packet rr_start len;
        Ok (0, rr (Some (str_bytes "Truncated rr: " ++ buffer)), g)
      else
        data ← run_parser parser packet dpos id_pos rdlength len;
        Ok (u32 (dpos + rdlength), rr (Some data), g)
  end.

(** The loop of [parse_rr_set]; [junk i] is what the [i]-th allocation holds. *)
Fixpoint rr_set_loop (n : nat) (g : rtypes) (packet : list Z) (pos id_pos len : Z) (junk : nat -> dns_rr) (rrs : list dns_rr) : res (Z * list dns_rr * rtypes) :=
  match n with
  | O => Ok (pos, rrs, g)
  | S n =>
      '(pos, rr, g) ← parse_rr g packet pos id_pos len (junk (length rrs));
      if pos =? 0 then Ok (0, rrs ++ [rr], g) else rr_set_loop n g packet pos id_pos len junk (rrs ++ [rr])
  end.
Definition parse_rr_set (g : rtypes) (packet : list Z) (pos id_pos len count : Z) (junk : nat -> dns_rr) : res (Z * list dns_rr * rtypes) :=
  rr_set_loop (Z.to_nat count) g packet pos id_pos len junk [].

(** The flags of the header, and what is stored when the message is refused. *)
Definition dns_head (dns : dns_info) (id b2 b3 : Z) : dns_info :=
  mk_dns id (Z.shiftr b2 7) (Z.shiftr (Z.land b2 0x04) 2) (Z.shiftr (Z.land b2 0x02) 1) (Z.land (Z.shiftr b3 6) 1) (Z.land b3 0x0f) (Z.shiftr (Z.land b2 0x7f) 1)
    (dns_qdcount dns) (dns_queries dns) (dns_ancount dns) (dns_answers dns) (dns_answer_pos dns) (dns_nscount dns) (dns_name_servers dns) (dns_arcount dns) (dns_additional dns).
Definition dns_body (dns : dns_info) (qd : Z) (qs : list dns_question) (an : Z) (ans : list dns_rr) (apos ns : Z) (nss : list dns_rr) (ar : Z) (ars : list dns_rr) : dns_info :=
  mk_dns (dns_id dns) (dns_qr dns) (dns_AA dns) (dns_TC dns) (dns_Z dns) (dns_rcode dns) (dns_opcode dns) qd qs an ans apos ns nss ar ars.
Definition dns_refused (dns : dns_info) : dns_info := dns_body dns 0 [] 0 [] (dns_answer_pos dns) 0 [] 0 [].

(** [junk k i] is what the [i]-th record of the [k]-th set was allocated with. *)
Definition dns_parse (g : rtypes) (packet : list Z) (pos len : Z) (dns : dns_info) (NS_ENABLED AD_ENABLED force : bool) (junk : nat -> nat -> dns_rr) : res (Z * dns_info * rtypes) :=
  let id_pos := pos in
  if u32 (len - pos) <? 12 then Ok (0, dns, g) else
  id ← at16 packet pos 0; b2 ← at8 packet pos 2; b3 ← at8 packet pos 3;
  let dns := dns_head dns id b2 b3 in
  if negb (dns_Z dns =? 0) || (5 <? dns_opcode dns) || (5 <? dns_rcode dns) then Ok (u32 (pos + 12), dns_refused dns, g) else
  qdcount ← at16 packet pos 4; ancount ← at16 packet pos 6; nscount ← at16 packet pos 8; arcount ← at16 packet pos 10;
  if (1 <? qdcount) || (40 <? ancount) then Ok (u32 (pos + 12), dns_refused dns, g) else
  '(pos, queries) ← parse_questions packet (u32 (pos + 12)) id_pos len qdcount;
  '(pos, answers, answer_pos, g) ←
    (if negb (pos =? 0) then '(pos', answers, g) ← parse_rr_set g packet pos id_pos len ancount (junk 0%nat); Ok (pos', answers, pos, g)
     else Ok (pos, [], dns_answer_pos dns, g));
  '(pos, name_servers, g) ←
    (if negb (pos =? 0) && (NS_ENABLED || AD_ENABLED || force) then parse_rr_set g packet pos id_pos len nscount (junk 1%nat) else Ok (pos, [], g));
  '(pos, additional, g) ←
    (if negb (pos =? 0) && (AD_ENABLED || force) then parse_rr_set g packet pos id_pos len arcount (junk 2%nat) else Ok (pos, [], g));
  Ok (pos, dns_body dns qdcount queries ancount answers answer_pos nscount name_servers arcount additional, g).

(** ** No fault *)
Section safe.
Context (packet : list Z) (id_pos len : Z).
Hypotheses (Hpkt : bytes_ok packet) (Hbig : Z.of_nat (length packet) < 2 ^ 28) (Hlen : 0 <= len) (Hroom : len + SLACK <= Z.of_nat (length packet)).

(** A position in the packet or in the data of its last record. *)
Definition pos_ok (pos : Z) : Prop := 0 <= pos <= len + 2 ^ 16.
Lemma pos_ok_u32 pos : pos_ok pos -> is_u32 pos.
Proof using Hbig Hroom. unfold pos_ok, is_u32, SLACK in *. lia. Qed.
#[local] Ltac arith := unfold is_u32, is_u16, pos_ok, SLACK in *; lia.

Lemma questions_sure start_pos n : pos_ok start_pos -> forall pos qs, pos_ok pos ->
  sure (questions_loop n packet start_pos pos id_pos len qs) (fun '(p, qs') => pos_ok p /\ (p <> 0 -> length qs' = (length qs + n)%nat) /\ (length qs' <= length qs + n)%nat).
Proof using Hpkt Hbig Hlen Hroom.
  intros Hst. induction n as [|n IH]; intros pos qs Hpos; cbn [questions_loop]; [cbn; split_and!; [done|lia|lia]|].
  assert (Hbad : sure (buffer ← escape_data packet start_pos len; Ok (0, qs ++ [mk_question (str_bytes "Bad DNS question: " ++ buffer) 0 0]))
    (fun '(p, qs') => pos_ok p /\ (p <> 0 -> length qs' = (length qs + S n)%nat) /\ (length qs' <= length qs + S n)%nat)).
  { apply wp_bind. eapply wp_mono; [apply escape_sure; arith|]. intros b _. cbn. rewrite length_app. cbn. split_and!; [arith|lia|lia]. }
  apply wp_bind. eapply wp_mono; [apply name_sure; [done|done|by apply pos_ok_u32|arith]|]. intros [[name|] p] Hp; [|exact Hbad]. case_match; [exact Hbad|].
  do 2 (apply wp_bind; eapply wp_mono; [apply at16_sure; try done; arith|intros ? _]). rewrite u32_id by arith. eapply wp_mono; [apply IH; arith|]. intros [p' qs'] (? & ? & ?). rewrite length_app in *. cbn in *. split_and!; [done|lia|lia].
Qed.

Lemma ttl_sure pos n : 0 <= pos -> pos + 10 <= len -> forall i t, 0 <= i -> i + Z.of_nat n <= 4 -> sure (ttl_loop n packet pos i t) (fun _ => True).
Proof using Hpkt Hbig Hlen Hroom. intros H0 H1. induction n as [|n IH]; intros i t Hi Hn; [done|]. cbn [ttl_loop]. apply wp_bind. eapply wp_mono; [apply at8_sure; try done; arith|]. intros b _. apply IH; lia. Qed.

(** A record ends behind its start, or the position returned is 0. *)
Lemma parse_rr_sure g pos rr : rr_table_ok g -> pos_ok pos -> sure (parse_rr g packet pos id_pos len rr) (fun '(p, _, g') => rr_table_ok g' /\ (p = 0 \/ pos < p /\ pos_ok p)).
Proof using Hpkt Hbig Hlen Hroom.
  intros Hg Hpos. unfold parse_rr. cbv zeta. apply wp_bind. eapply wp_mono; [apply name_sure; [done|done|by apply pos_ok_u32|arith]|]. intros [[name|] p] Hp.
  2:{ subst p. apply wp_bind. eapply wp_mono; [apply escape_sure; arith|]. intros d _. cbn. auto. }
  rewrite u32_id by arith. destruct (Z.ltb_spec (len - p) 10) as [Hs|Hs]; [cbn; auto|].
  apply wp_bind. eapply wp_mono; [apply at16_sure; try done; arith|]. intros type _. apply wp_bind. eapply wp_mono; [apply at16_sure; try done; arith|]. intros rdl Hrd.
  apply wp_bind, (wp_mono _ _ (fun '(_, _, _, _, dpos, g') => rr_table_ok g' /\ p < dpos <= len)).
  { destruct (type =? 41); [cbn; rewrite u32_id by arith; split; [done|lia]|]. apply wp_bind. eapply wp_mono; [apply at16_sure; try done; arith|]. intros cls _. apply wp_bind. eapply wp_mono; [apply ttl_sure; lia|]. intros ttl _.
    pose proof (find_parser_ok g cls type Hg) as Hf. destruct (find_parser g cls type) as [g' c]. cbn. rewrite u32_id by arith. split; [apply Hf|lia]. }
  intros [[[[[cls ttl] nm] parser] dpos] g'] [Hg' Hd]. destruct (len <? _).
  - apply wp_bind. eapply wp_mono; [apply escape_sure; arith|]. intros d _. cbn. auto.
  - apply wp_bind. eapply wp_mono; [apply run_parser_sure; try done; arith|]. intros d _. cbn. rewrite u32_id by arith. split; [done|]. right. arith.
Qed.

Lemma rr_set_sure junk n : forall g pos rrs, rr_table_ok g -> pos_ok pos ->
  sure (rr_set_loop n g packet pos id_pos len junk rrs) (fun '(p, rrs', g') => rr_table_ok g' /\ pos_ok p /\ (p <> 0 -> length rrs' = (length rrs + n)%nat) /\ (length rrs' <= length rrs + n)%nat).
Proof using Hpkt Hbig Hlen Hroom.
  induction n as [|n IH]; intros g pos rrs Hg Hpos; cbn [rr_set_loop]; [cbn; split_and!; [done|done|lia|lia]|]. apply wp_bind. eapply wp_mono; [by apply parse_rr_sure|]. intros [[p rr] g'] [Hg' Hp].
  destruct (Z.eqb_spec p 0) as [->|Hp0]; [cbn; rewrite length_app; cbn; split_and!; [done|arith|lia|lia]|]. eapply wp_mono; [apply IH; [done|by destruct Hp as [?|[_ ?]]]|]. intros [[p' rrs'] g''] (? & ? & ? & ?). rewrite length_app in *. cbn in *. split_and!; [done|done|lia|lia].
Qed.
End safe.

(** What the caller can rely on after [dns_parse]. *)
Definition parsed_ok (pos len : Z) (p : Z) (d : dns_info) : Prop :=
  0 <= p <= len + 2 ^ 16 /\ Z.of_nat (length (dns_queries d)) <= dns_qdcount d <= 1 /\ Z.of_nat (length (dns_answers d)) <= dns_ancount d <= 40 /\
  Z.of_nat (length (dns_name_servers d)) <= dns_nscount d /\ Z.of_nat (length (dns_additional d)) <= dns_arcount d /\
  (p <> 0 -> Z.of_nat (length (dns_queries d)) = dns_qdcount d /\ Z.of_nat (length (dns_answers d)) = dns_ancount d).
(** [dns_info dns = { 0 }] of [dns_handler]. *)
Definition dns_zero : dns_info := mk_dns 0 0 0 0 0 0 0 0 [] 0 [] 0 0 [] 0 [].

Lemma rr_set_count_sure packet id_pos len junk g pos count b : bytes_ok packet -> Z.of_nat (length packet) < 2 ^ 28 -> 0 <= len -> len + SLACK <= Z.of_nat (length packet) -> rr_table_ok g -> pos_ok len pos -> is_u16 count ->
  sure (if negb (pos =? 0) && b then parse_rr_set g packet pos id_pos len count junk else Ok (pos, [], g)) (fun '(p, rrs, g') => rr_table_ok g' /\ pos_ok len p /\ (p <> 0 -> pos <> 0) /\ (p <> 0 -> b = true -> Z.of_nat (length rrs) = count) /\ Z.of_nat (length rrs) <= count).
Proof.
  intros Hpkt Hbig Hlen Hroom Hg Hpos Hc. unfold is_u16 in Hc. destruct (Z.eqb_spec pos 0) as [->|Hp]; cbn [negb andb]; [cbn; split_and!; try done; lia|]. destruct b; cbn [andb]; [|cbn; split_and!; try done; lia].
  eapply wp_mono; [by apply rr_set_sure|]. intros [[p rrs] g'] (? & ? & Hn & Hle). cbn in *. split_and!; try done; lia.
Qed.

(** C10: [dns_parse] on any bytes: it ends, reads nothing more than [SLACK] bytes (two times
    64 KiB and 64) behind the packet, and what it leaves in [dns] is consistent: never more
    records than the header announces, at most one question and 40 answers, and exactly the
    announced questions and answers when it does not return 0.  The table of record parsers
    keeps its entries. *)
Theorem dns_parse_safe packet pos len g ns ad force junk : bytes_ok packet -> Z.of_nat (length packet) < 2 ^ 28 -> 0 <= pos <= len -> len + SLACK <= Z.of_nat (length packet) -> rr_table_ok g ->
  exists p d g', dns_parse g packet pos len dns_zero ns ad force junk = Ok (p, d, g') /\ parsed_ok pos len p d /\ rr_table_ok g'.
Proof.
  intros Hpkt Hbig Hpos Hroom Hg. enough (Hs : sure (dns_parse g packet pos len dns_zero ns ad force junk) (fun '(p, d, g') => parsed_ok pos len p d /\ rr_table_ok g')).
  { destruct (dns_parse _ _ _ _ _ _ _ _ _) as [[[p d] g']|]; [|done]. by exists p, d, g'. }
  unfold dns_parse. cbv zeta. unfold SLACK in Hroom. rewrite (u32_id (len - pos)) by (unfold is_u32; lia). destruct (Z.ltb_spec (len - pos) 12); [cbn; unfold parsed_ok; cbn; split; [lia|done]|].
  do 3 (apply wp_bind; eapply wp_mono; [first [apply at16_sure|apply at8_sure]; try done; lia|intros ? _]). rewrite (u32_id (pos + 12)) by (unfold is_u32; lia). case_match; [cbn; unfold parsed_ok; cbn; split; [lia|done]|].
  apply wp_bind; eapply wp_mono; [apply at16_sure; try done; lia|intros qd Hqd]. apply wp_bind; eapply wp_mono; [apply at16_sure; try done; lia|intros an Han]. apply wp_bind; eapply wp_mono; [apply at16_sure; try done; lia|intros ns' Hns]. apply wp_bind; eapply wp_mono; [apply at16_sure; try done; lia|intros ar Har].
  destruct ((1 <? qd) || (40 <? an)) eqn:Ec; [cbn; unfold parsed_ok; cbn; split; [lia|done]|]. unfold is_u16 in Hqd, Han.
  apply wp_bind. eapply wp_mono; [apply questions_sure; try done; unfold pos_ok, SLACK; lia|]. intros [p1 qs] (Hp1 & Hq & Hql). cbn [length] in *.
  apply wp_bind, (wp_mono _ _ (fun '(p, ans, _, g') => rr_table_ok g' /\ pos_ok len p /\ (p <> 0 -> p1 <> 0) /\ (p <> 0 -> Z.of_nat (length ans) = an) /\ Z.of_nat (length ans) <= an)).
  { pose proof (rr_set_count_sure packet pos len (junk 0%nat) g p1 an true) as Hr. rewrite andb_true_r in Hr. destruct (negb (p1 =? 0)) eqn:E0.
    - apply wp_bind. eapply wp_mono; [apply Hr; try done; unfold SLACK; lia|]. intros [[p2 ans] g2] (? & ? & ? & Ha & ?). cbn. split_and!; auto.
    - cbn. split_and!; try done; lia. }
  intros [[[p2 ans] apos] g2] (Hg2 & Hp2 & Hp12 & Ha & Hal).
  apply wp_bind. eapply wp_mono; [apply (rr_set_count_sure _ _ _ _ _ _ ns'); try done; unfold SLACK; lia|]. intros [[p3 nss] g3] (Hg3 & Hp3 & Hp23 & _ & Hnl).
  apply wp_bind. eapply wp_mono; [apply (rr_set_count_sure _ _ _ _ _ _ ar); try done; unfold SLACK; lia|]. intros [[p4 ars] g4] (Hg4 & Hp4 & Hp34 & _ & Har').
  cbn. split; [|done]. unfold parsed_ok, pos_ok in *. cbn. lia.
Qed.

(** A query for "ab", type A, class IN, and the memory behind it. *)
Definition no_junk : nat -> nat -> dns_rr := fun _ _ => mk_rr None 0 0 0 None 0 0 None.
Definition query_sample : list Z := [0x12; 0x34; 1; 0; 0; 1; 0; 0; 0; 0; 0; 0; 2; 0x61; 0x62; 0; 0; 1; 0; 1].
Lemma query_room : Z.of_nat (length (query_sample ++ replicate (Z.to_nat SLACK) 0)) = 20 + SLACK.
Proof. rewrite length_app, length_replicate, Nat2Z.inj_add, Z2Nat.id by (unfold SLACK; lia). change (Z.of_nat (length query_sample)) with 20. reflexivity. Qed.
Lemma dns_parse_safe_witness : exists p d g', dns_parse rtypes_init (query_sample ++ replicate (Z.to_nat SLACK) 0) 0 20 dns_zero false false false no_junk = Ok (p, d, g') /\ parsed_ok 0 20 p d /\ rr_table_ok g'.
Proof.
  refine (dns_parse_safe (query_sample ++ replicate (Z.to_nat SLACK) 0) 0 20 rtypes_init false false false no_junk _ _ _ _ _); [|rewrite query_room; unfold SLACK; lia|lia|rewrite query_room; lia|done].
  apply Forall_app. split; [apply (bool_decide_unpack _); vm_compute; exact I|]. by apply Forall_replicate.
Defined.

(** ** Reads behind the packet, and fields left as they were *)
(** A question that ends one byte early passes the check [pos + 2 >= len] and is read. *)
Lemma question_read_behind : dns_parse rtypes_init (take 19 query_sample) 0 19 dns_zero false false false no_junk = Err FOob.
Proof. vm_compute. done. Qed.
(** The length of a record is checked from the start of its name, so the data of a record
    with a long name may lie behind the packet: here all four bytes of an address. *)
Lemma rr_data_read_behind : parse_rr rtypes_init [4; 0x61; 0x61; 0x61; 0x61; 0; 0; 1; 0; 1; 0; 0; 0; 9; 0; 4] 0 0 16 (no_junk 0%nat 0%nat) = Err FOob.
Proof. vm_compute. done. Qed.
(** A DNSKEY record without data has its key length wrap to 65532. *)
Lemma dnskey_wraps : run_parser Pdnskey (replicate 100 0) 0 0 0 100 = Err FOob.
Proof. vm_compute. done. Qed.
(** When fewer than ten bytes follow the name, type, class, TTL and length of the record
    are what the allocation held. *)
Lemma short_rr_keeps_junk rr : exists rr' g', parse_rr rtypes_init [0; 1; 2; 3] 0 0 4 rr = Ok (0, rr', g') /\ rr_type rr' = rr_type rr /\ rr_cls rr' = rr_cls rr /\ rr_ttl rr' = rr_ttl rr /\ rr_rr_name rr' = rr_rr_name rr.
Proof. eexists _, _. split; [vm_compute; done|]. done. Qed.
(** An OPT record: parsing goes on eight bytes before its end. *)
Lemma opt_ends_early : exists rr g, parse_rr rtypes_init ([0; 0; 41; 4; 0; 0; 0; 0; 0; 0; 0] ++ replicate 16 0) 0 0 27 (no_junk 0%nat 0%nat) = Ok (3, rr, g).
Proof. eexists _, _. vm_compute. done. Qed.
