(* ===== verification/DnsWire.v ===== *)
(** * DnsWire: messages on the wire

    The encoding of DNS messages (RFC 1035) with a question and answers of the common types,
    whose names are written out or point to the question, and what [dns_parse] of [DnsParse]
    makes of such a message, wherever it lies in a packet. *)
From S2P Require Import Prelude CString DnsName DnsRtypes DnsParse.
Open Scope Z_scope.

(** ** Bytes at a position *)
Definition holds_at (packet : list Z) (n : nat) (bs : list Z) : Prop := forall i b, bs !! i = Some b -> packet !! (n + i)%nat = Some b.

Lemma holds_app packet n a b : holds_at packet n (a ++ b) <-> holds_at packet n a /\ holds_at packet (n + length a) b.
Proof.
  split.
  - intros H. split; intros i c Hi; [apply H; by apply lookup_app_l_Some|]. rewrite <- Nat.add_assoc. apply H. rewrite lookup_app_r by lia. by replace (length a + i - length a)%nat with i by lia.
  - intros [Ha Hb] i c [Hi|[Hl Hi]]%lookup_app_Some; [by apply Ha|]. replace (n + i)%nat with (n + length a + (i - length a))%nat by lia. by apply Hb.
Qed.
Lemma holds_cons packet n b bs : holds_at packet n (b :: bs) <-> packet !! n = Some b /\ holds_at packet (S n) bs.
Proof.
  change (b :: bs) with ([b] ++ bs). rewrite holds_app. cbn [length]. rewrite (Nat.add_1_r n). split; intros [H1 H2]; (split; [|done]).
  - rewrite <- (Nat.add_0_r n). by apply H1.
  - intros [|i] c; cbn; [intros [= <-]; by rewrite Nat.add_0_r|done].
Qed.
Lemma holds_slice packet n bs : holds_at packet n bs -> take (length bs) (drop n packet) = bs.
Proof.
  revert n. induction bs as [|b bs IH]; intros n H; [done|]. apply holds_cons in H as [Hb H]. apply drop_S in Hb. rewrite Hb. cbn. by rewrite (IH (S n)).
Qed.
Lemma holds_middle a bs c : holds_at (a ++ bs ++ c) (length a) bs.
Proof. intros i b Hi. rewrite lookup_app_r by lia. replace (length a + i - length a)%nat with i by lia. by apply lookup_app_l_Some. Qed.

Definition wire16 (v : Z) : list Z := [v / 256; v mod 256].
Definition wire32 (v : Z) : list Z := wire16 (v / 65536) ++ wire16 (v mod 65536).

Section read.
Context (packet : list Z) (Hbig : Z.of_nat (length packet) < 2 ^ 28).
Lemma holds_at8 n p k b bs : holds_at packet n (b :: bs) -> Z.of_nat n = p + k -> at8 packet p k = Ok b.
Proof using Hbig.
  intros [Hb _]%holds_cons E. pose proof (lookup_lt_Some _ _ _ Hb). unfold at8. rewrite u32_id by (unfold is_u32; lia). apply rd8_lookup; [lia|]. by replace (Z.to_nat (p + k)) with n by lia.
Qed.
Lemma holds_at16 n p k v bs : holds_at packet n (wire16 v ++ bs) -> is_u16 v -> Z.of_nat n = p + k -> at16 packet p k = Ok v.
Proof using Hbig.
  intros H Hv E. cbn [wire16 app] in H. unfold at16. rewrite (holds_at8 n p k _ _ H E). cbind. apply holds_cons in H as [_ H]. rewrite (holds_at8 (S n) p (k + 1) _ _ H) by lia. cbind.
  unfold is_u16 in Hv. rewrite Z.shiftl_mul_pow2 by lia. pose proof (Z.div_mod v 256). f_equal. rewrite u16_id; unfold is_u16; lia.
Qed.
End read.

(** ** Names *)
Definition label_ok (l : list Z) : Prop := (1 <= length l <= 63)%nat /\ bytes_ok l /\ plain_label l.
Definition wire_name (ls : list (list Z)) : list Z := concat ((fun l => Z.of_nat (length l) :: l) <$> ls) ++ [0].

Lemma wire_name_cons l ls : wire_name (l :: ls) = (Z.of_nat (length l) :: l) ++ wire_name ls.
Proof. unfold wire_name. rewrite fmap_cons. cbn [concat]. by rewrite <- app_assoc. Qed.
Lemma wire_name_pos ls : (1 <= length (wire_name ls))%nat.
Proof. unfold wire_name. rewrite length_app. cbn. lia. Qed.
Lemma label_not_ptr l : label_ok l -> is_ptr (Z.of_nat (length l)) = false.
Proof.
  intros [Hl _]. assert (Hf : forallb (fun n => negb (is_ptr n)) (seqZ 0 64) = true) by (vm_compute; done). rewrite forallb_forall in Hf.
  specialize (Hf (Z.of_nat (length l))). destruct (is_ptr _); [|done]. symmetry. apply Hf, list_elem_of_In, elem_of_seqZ. lia.
Qed.

Lemma wire_dname packet id_pos len ls : Forall label_ok ls -> forall n, holds_at packet n (wire_name ls) -> Z.of_nat n + Z.of_nat (length (wire_name ls)) <= len ->
  dname packet id_pos len (Z.of_nat n) ls (Z.of_nat (length (wire_name ls)) - 1) (Z.of_nat n + Z.of_nat (length (wire_name ls))).
Proof.
  induction 1 as [|l ls Hl _ IH]; intros n Hn Hlen.
  - apply dn_end; [cbn in Hlen; lia|]. rewrite Nat2Z.id. apply holds_cons in Hn as [? _]. done.
  - rewrite wire_name_cons in *. rewrite length_app in *. cbn [length] in *. apply holds_app in Hn as [[Hc Hl']%holds_cons Hls]. cbn [length] in Hls. pose proof (wire_name_pos ls).
    specialize (IH (n + S (length l))%nat Hls ltac:(lia)).
    replace (Z.of_nat (S (length l) + length (wire_name ls)) - 1) with (1 + Z.of_nat (length l) + (Z.of_nat (length (wire_name ls)) - 1)) by lia.
    eapply dn_label; [lia|by rewrite Nat2Z.id|destruct Hl; lia|by apply label_not_ptr| |].
    + rewrite Nat2Z.id. replace (Z.to_nat (Z.of_nat n + 1)) with (S n) by lia. by rewrite holds_slice.
    + replace (Z.of_nat n + 1 + Z.of_nat (length l)) with (Z.of_nat (n + S (length l))) by lia. replace (Z.of_nat n + Z.of_nat (S (length l) + length (wire_name ls))) with (Z.of_nat (n + S (length l)) + Z.of_nat (length (wire_name ls))) by lia. done.
Qed.

(** A name in a record: written out, or a pointer to the name of the question. *)
Inductive wname := Labels (ls : list (list Z)) | Question.
Definition wire_ref (w : wname) : list Z := match w with Labels ls => wire_name ls | Question => [0xc0; 12] end.
Definition ref_labels (q : list (list Z)) (w : wname) : list (list Z) := match w with Labels ls => ls | Question => q end.
Definition wref_ok (w : wname) : Prop := match w with Labels ls => Forall label_ok ls | Question => True end.

Section name.
Context (packet : list Z) (id len : nat) (q : list (list Z)).
Hypotheses (Hpkt : bytes_ok packet) (Hbig : Z.of_nat (length packet) < 2 ^ 28) (Hlen : (len <= length packet)%nat).
Hypotheses (Hq : Forall label_ok q) (Hhold : holds_at packet (id + 12) (wire_name q)) (Hin : (id + 12 + length (wire_name q) <= len)%nat).

Lemma wire_read n w : wref_ok w -> holds_at packet n (wire_ref w) -> (n + length (wire_ref w) <= len)%nat ->
  read_rr_name packet (Z.of_nat n) (Z.of_nat id) (Z.of_nat len) = Ok (Some (dots (ref_labels q w)), Z.of_nat (n + length (wire_ref w))).
Proof using Hpkt Hbig Hlen Hq Hhold Hin.
  intros Hw Hn Hl. assert (exists m, m < 2 * Z.of_nat len /\ dname packet (Z.of_nat id) (Z.of_nat len) (Z.of_nat n) (ref_labels q w) m (Z.of_nat (n + length (wire_ref w)))) as (m & Hm & Hd).
  { destruct w as [ls|]; cbn [ref_labels wire_ref wref_ok] in *.
    - eexists. split; [|rewrite Nat2Z.inj_add; apply wire_dname; [done|done|lia]]. lia.
    - apply holds_cons in Hn as [Hc [Hb _]%holds_cons]. cbn [length] in Hl. exists (1 + (Z.of_nat (length (wire_name q)) - 1)). split; [lia|]. replace (Z.of_nat (n + length [0xc0; 12])) with (Z.of_nat n + 2) by (cbn [length]; lia).
      apply (dn_ptr _ _ _ _ 0xc0 12 q _ (Z.of_nat (id + 12) + Z.of_nat (length (wire_name q)))); [lia|by rewrite Nat2Z.id|done|lia|by replace (Z.to_nat (Z.of_nat n + 1)) with (S n) by lia|].
      unfold ptr_target. change (Z.shiftl (Z.land 0xc0 0x3f) 8) with 0. rewrite u32_id by (unfold is_u32; lia). replace (Z.of_nat id + 0 + 12) with (Z.of_nat (id + 12)) by lia. apply wire_dname; [done|done|lia]. }
  destruct (read_rr_name_cases packet (Z.of_nat n) (Z.of_nat id) (Z.of_nat len)) as [(ls' & m' & e' & Hd' & _ & ->)|[Hno _]]; [done|lia|lia|unfold is_u32; lia| |].
  - destruct (dname_fun _ _ _ _ _ _ _ Hd _ _ _ Hd') as (-> & _ & ->). rewrite dotted_plain; [done|].
    destruct w as [ls|]; cbn [ref_labels wref_ok] in *; eapply Forall_impl; eauto; by intros l (_ & _ & ?).
  - apply Hno in Hd. lia.
Qed.
End name.

(** ** Records *)
(** The data of an answer: an address, eight words of an address, a name (NS, CNAME or
    PTR) or a text. *)
Inductive wdata := WA (bs : list Z) | WAAAA (ws : list Z) | WDomain (t : Z) (w : wname) | WText (bs : list Z).
Definition wire_type (d : wdata) : Z := match d with WA _ => 1 | WAAAA _ => 28 | WDomain t _ => t | WText _ => 16 end.
Definition wire_data (d : wdata) : list Z := match d with WA bs => bs | WAAAA ws => concat (wire16 <$> ws) | WDomain _ w => wire_ref w | WText bs => bs end.
Definition data_ok (d : wdata) : Prop := match d with
  | WA bs => length bs = 4%nat | WAAAA ws => length ws = 8%nat /\ Forall is_u16 ws
  | WDomain t w => (t = 2 \/ t = 5 \/ t = 12) /\ wref_ok w /\ Z.of_nat (length (wire_ref w)) < 2 ^ 16
  | WText bs => Z.of_nat (length bs) < 2 ^ 16 end.
(** What the record reads as. *)
Definition data_text (q : list (list Z)) (d : wdata) : list Z := match d with
  | WA bs => dots (fmt_d <$> bs) | WAAAA ws => colons (fmt_x16 <$> ws) | WDomain _ w => dots (ref_labels q w) | WText bs => escaped bs end.
Definition data_name (d : wdata) : string := match d with WA _ => "A" | WAAAA _ => "AAAA" | WDomain t _ => if t =? 2 then "NS" else if t =? 5 then "CNAME" else "PTR" | WText _ => "TEXT" end.

Record wrr := mk_wrr { w_name : wname; w_ttl : Z; w_data : wdata }.
Definition wrr_ok (r : wrr) : Prop := wref_ok (w_name r) /\ is_u32 (w_ttl r) /\ data_ok (w_data r).
Definition wire_rr (r : wrr) : list Z :=
  wire_ref (w_name r) ++ wire16 (wire_type (w_data r)) ++ wire16 1 ++ wire32 (w_ttl r) ++ wire16 (Z.of_nat (length (wire_data (w_data r)))) ++ wire_data (w_data r).

(** The fields of a parsed record, without its position. *)
Definition rr_view (rr : dns_rr) := (rr_name_ rr, rr_type rr, rr_cls rr, rr_rr_name rr, rr_ttl rr, rr_rdlength rr, rr_data rr).
Definition wrr_view (q : list (list Z)) (r : wrr) :=
  (Some (dots (ref_labels q (w_name r))), wire_type (w_data r), 1, Some (data_name (w_data r)), u16 (w_ttl r), Z.of_nat (length (wire_data (w_data r))), Some (data_text q (w_data r))).

Lemma data_length d : data_ok d -> is_u16 (Z.of_nat (length (wire_data d))).
Proof.
  unfold is_u16. destruct d as [bs|ws|t w|bs]; cbn [data_ok wire_data]; [lia| |lia|lia]. intros [Hl _]. do 8 (destruct ws as [|? ws]; [done|]). destruct ws; [|done]. cbn. lia.
Qed.
Lemma ref_length w : (1 <= length (wire_ref w))%nat.
Proof. destruct w; cbn [wire_ref length]; [apply wire_name_pos|lia]. Qed.

Lemma AAAA_loop_holds packet p ws : Z.of_nat (length packet) < 2 ^ 28 -> Forall is_u16 ws -> forall i n, Z.of_nat n = p + i * 2 -> holds_at packet n (concat (wire16 <$> ws)) -> AAAA_loop (length ws) packet p i = Ok ws.
Proof.
  intros Hbig. induction 1 as [|w ws Hw _ IH]; intros i n E Hn; [done|]. rewrite fmap_cons in Hn. cbn [concat] in Hn. cbn [length AAAA_loop]. rewrite (holds_at16 packet Hbig n p (i * 2) w _ Hn Hw E). cbind.
  apply holds_app in Hn as [_ Hn]. cbn [wire16 length] in Hn. rewrite (IH (i + 1) (n + 2)%nat) by (done || lia). done.
Qed.

Lemma u16_shift x b : u16 (u16 x * 256 + b) = u16 (x * 256 + b).
Proof. unfold u16. by rewrite <- Z.add_mod_idemp_l, Z.mul_mod_idemp_l, Z.add_mod_idemp_l. Qed.
Lemma ttl_holds packet n ttl bs : Z.of_nat (length packet) < 2 ^ 28 -> is_u32 ttl -> holds_at packet (n + 4) (wire32 ttl ++ bs) -> ttl_loop 4 packet (Z.of_nat n) 0 0 = Ok (u16 ttl).
Proof.
  intros Hbig Ht H. cbn [wire32 wire16 app] in H. cbn [ttl_loop].
  rewrite (holds_at8 packet Hbig (n + 4) _ (4 + 0) _ _ H) by lia. apply holds_cons in H as [_ H]. cbind. rewrite (holds_at8 packet Hbig (S (n + 4)) _ (4 + (0 + 1)) _ _ H) by lia. apply holds_cons in H as [_ H]. cbind.
  rewrite (holds_at8 packet Hbig (S (S (n + 4))) _ (4 + (0 + 1 + 1)) _ _ H) by lia. apply holds_cons in H as [_ H]. cbind. rewrite (holds_at8 packet Hbig (S (S (S (n + 4)))) _ (4 + (0 + 1 + 1 + 1)) _ _ H) by lia. cbind.
  f_equal. rewrite !Z.shiftl_mul_pow2 by lia. change (2 ^ 8) with 256. rewrite (u16_shift (0 * 256 + _)), (u16_shift ((0 * 256 + _) * 256 + _)), u16_shift. f_equal. pose proof (Z.div_mod ttl 65536). pose proof (Z.div_mod (ttl / 65536) 256). pose proof (Z.div_mod (ttl mod 65536) 256). lia.
Qed.

Section record.
Context (packet : list Z) (id len : nat) (q : list (list Z)).
Hypotheses (Hpkt : bytes_ok packet) (Hbig : Z.of_nat (length packet) < 2 ^ 28) (Hlen : (len <= length packet)%nat).
Hypotheses (Hq : Forall label_ok q) (Hhold : holds_at packet (id + 12) (wire_name q)) (Hin : (id + 12 + length (wire_name q) <= len)%nat).

Lemma wire_data_text n d : data_ok d -> holds_at packet n (wire_data d) -> (n + length (wire_data d) <= len)%nat ->
  run_parser (pc_parser (rr_entry 1 (wire_type d))) packet (Z.of_nat n) (Z.of_nat id) (Z.of_nat (length (wire_data d))) (Z.of_nat len) = Ok (data_text q d).
Proof using Hpkt Hbig Hlen Hq Hhold Hin.
  intros Hd Hn Hl. destruct d as [bs|ws|t w|bs]; cbn [data_ok wire_type wire_data data_text] in *.
  - change (pc_parser (rr_entry 1 1)) with PA. cbn [run_parser]. destruct bs as [|a [|b [|c [|d [|]]]]]; try done. unfold A. cbn [length Z.of_nat]. change (negb (Z.of_nat 4 =? 4)) with false. cbn iota.
    rewrite (holds_at8 packet Hbig n _ 0 a _ Hn) by lia. apply holds_cons in Hn as [_ Hn]. rewrite (holds_at8 packet Hbig (S n) _ 1 b _ Hn) by lia. apply holds_cons in Hn as [_ Hn].
    rewrite (holds_at8 packet Hbig (S (S n)) _ 2 c _ Hn) by lia. apply holds_cons in Hn as [_ Hn]. rewrite (holds_at8 packet Hbig (S (S (S n))) _ 3 d _ Hn) by lia. cbind. f_equal. cbn [dots fmap list_fmap concat]. by rewrite app_nil_r.
  - change (pc_parser (rr_entry 1 28)) with PAAAA. cbn [run_parser]. destruct Hd as [H8 Hu]. assert (E : length (concat (wire16 <$> ws)) = 16%nat) by (do 8 (destruct ws as [|? ws]; [done|]); by destruct ws).
    unfold AAAA. rewrite E. change (negb (Z.of_nat 16 =? 16)) with false. cbn iota. rewrite <- H8, (AAAA_loop_holds packet _ ws Hbig Hu 0 n) by (done || lia). done.
  - destruct Hd as (Ht & Hw & _). assert (pc_parser (rr_entry 1 t) = Pdomain_name) as -> by (by destruct Ht as [->|[->| ->]]). cbn [run_parser]. unfold domain_name. rewrite (wire_read packet id len q Hpkt Hbig Hlen Hq Hhold Hin n w) by done. done.
  - change (pc_parser (rr_entry 1 16)) with Pescape. cbn [run_parser]. unfold escape. rewrite u32_id by (unfold is_u32; lia). rewrite escape_data_ok by lia. do 2 f_equal. replace (Z.to_nat (_ - _)) with (length bs) by lia. rewrite Nat2Z.id. by apply holds_slice.
Qed.

Lemma wire_parse_rr g rr0 n r : rr_table_ok g -> wrr_ok r -> holds_at packet n (wire_rr r) -> (n + length (wire_rr r) <= len)%nat ->
  exists rr g', parse_rr g packet (Z.of_nat n) (Z.of_nat id) (Z.of_nat len) rr0 = Ok (Z.of_nat (n + length (wire_rr r)), rr, g') /\ rr_view rr = wrr_view q r /\ rr_table_ok g'.
Proof using Hpkt Hbig Hlen Hq Hhold Hin.
  intros Hg (Hw & Ht & Hd) Hn Hl. unfold wire_rr in *. rewrite !length_app in *. cbn [wire16 wire32 app length] in Hl |- *. pose proof (ref_length (w_name r)).
  apply holds_app in Hn as [Hnm Hn]. set (p := (n + length (wire_ref (w_name r)))%nat) in *.
  assert (Hty : is_u16 (wire_type (w_data r))) by (unfold is_u16; destruct (w_data r); cbn in *; lia). pose proof (data_length _ Hd) as Hdl.
  pose proof (holds_at16 packet Hbig p (Z.of_nat p) 0 _ _ Hn Hty ltac:(lia)) as E0. apply holds_app in Hn as [_ Hn]. change (length (wire16 _)) with 2%nat in Hn.
  pose proof (holds_at16 packet Hbig (p + 2) (Z.of_nat p) 2 1 _ Hn ltac:(done) ltac:(lia)) as E2. apply holds_app in Hn as [_ Hn]. change (length (wire16 _)) with 2%nat in Hn. rewrite <- Nat.add_assoc in Hn. change (2 + 2)%nat with 4%nat in Hn.
  pose proof (ttl_holds packet p _ _ Hbig Ht Hn) as E4. apply holds_app in Hn as [_ Hn]. change (length (wire32 _)) with 4%nat in Hn. rewrite <- Nat.add_assoc in Hn. change (4 + 4)%nat with 8%nat in Hn.
  pose proof (holds_at16 packet Hbig (p + 8) (Z.of_nat p) 8 _ _ Hn Hdl ltac:(lia)) as E8. apply holds_app in Hn as [_ Hn]. change (length (wire16 _)) with 2%nat in Hn. rewrite <- Nat.add_assoc in Hn. change (8 + 2)%nat with 10%nat in Hn.
  unfold parse_rr. cbv zeta. rewrite (wire_read packet id len q Hpkt Hbig Hlen Hq Hhold Hin n (w_name r)) by (done || lia). cbind. fold p. rewrite u32_id by (unfold is_u32; lia). rewrite (proj2 (Z.ltb_ge _ 10)) by lia.
  rewrite E0, E8. cbind. assert (H41 : (wire_type (w_data r) =? 41) = false) by (destruct (w_data r); cbn in *; lia). rewrite H41, E2, E4. cbind.
  pose proof (find_parser_ok g 1 (wire_type (w_data r)) Hg) as Hf. destruct (find_parser g 1 (wire_type (w_data r))) as [g' c]. destruct Hf as [Hg' Hc]. cbind.
  unfold is_u16 in Hdl. rewrite (u32_id (Z.of_nat n + 10 + _)) by (unfold is_u32; lia). rewrite (proj2 (Z.ltb_ge _ _)) by lia. rewrite (u32_id (Z.of_nat p + 10)) by (unfold is_u32; lia).
  assert (Ep : pc_parser c = pc_parser (rr_entry 1 (wire_type (w_data r)))) by (by rewrite <- Hc). assert (En : pc_name c = pc_name (rr_entry 1 (wire_type (w_data r)))) by (by rewrite <- Hc).
  rewrite Ep. replace (Z.of_nat p + 10) with (Z.of_nat (p + 10)) by lia. rewrite (wire_data_text (p + 10)) by (done || lia). cbind. rewrite u32_id by (unfold is_u32; lia).
  eexists _, g'. split; [do 3 f_equal; lia|]. split; [|done]. unfold rr_view, wrr_view. cbn [rr_name_ rr_type rr_cls rr_rr_name rr_ttl rr_rdlength rr_data]. rewrite En.
  do 4 f_equal. destruct (w_data r) as [| |t w|]; try done. destruct Hd as [[->|[->| ->]] _]; done.
Qed.

Lemma wire_parse_set junk rs : Forall wrr_ok rs -> forall g n rrs, rr_table_ok g -> holds_at packet n (concat (wire_rr <$> rs)) -> (n + length (concat (wire_rr <$> rs)) <= len)%nat ->
  exists rrs' g', rr_set_loop (length rs) g packet (Z.of_nat n) (Z.of_nat id) (Z.of_nat len) junk rrs = Ok (Z.of_nat (n + length (concat (wire_rr <$> rs))), rrs ++ rrs', g') /\ rr_view <$> rrs' = wrr_view q <$> rs /\ rr_table_ok g'.
Proof using Hpkt Hbig Hlen Hq Hhold Hin.
  induction 1 as [|r rs Hr _ IH]; intros g n rrs Hg Hn Hl.
  - exists [], g. cbn [rr_set_loop length fmap list_fmap concat]. by rewrite app_nil_r, Nat.add_0_r.
  - rewrite fmap_cons in *. cbn [concat length] in *. rewrite length_app in *. apply holds_app in Hn as [Hn1 Hn2]. cbn [rr_set_loop].
    destruct (wire_parse_rr g (junk (length rrs)) n r Hg Hr Hn1) as (rr & g1 & -> & Hv & Hg1); [lia|]. cbind.
    assert (1 <= length (wire_rr r))%nat by (unfold wire_rr; rewrite length_app; pose proof (ref_length (w_name r)); lia). rewrite (proj2 (Z.eqb_neq _ 0)) by lia.
    destruct (IH g1 (n + length (wire_rr r))%nat (rrs ++ [rr]) Hg1 Hn2) as (rrs' & g' & -> & Hvs & Hg'); [lia|]. exists (rr :: rrs'), g'. rewrite <- app_assoc, Nat.add_assoc. split_and!; [done| |done]. rewrite !fmap_cons. by rewrite Hv, Hvs.
Qed.
End record.

(** ** Messages *)
Record wmsg := mk_wmsg { m_id : Z; m_b2 : Z; m_b3 : Z; m_q : list (list Z); m_qtype : Z; m_qcls : Z; m_answers : list wrr }.
Definition wire_msg (m : wmsg) : list Z :=
  wire16 (m_id m) ++ [m_b2 m; m_b3 m] ++ wire16 1 ++ wire16 (Z.of_nat (length (m_answers m))) ++ wire16 0 ++ wire16 0 ++
  wire_name (m_q m) ++ wire16 (m_qtype m) ++ wire16 (m_qcls m) ++ concat (wire_rr <$> m_answers m).
(** The messages [dns_parse] goes into: the bit behind RA clear, its [opcode] and the result
    code at most 5, and at most 40 answers. *)
Definition wmsg_ok (m : wmsg) : Prop := is_u16 (m_id m) /\ Forall label_ok (m_q m) /\ is_u16 (m_qtype m) /\ is_u16 (m_qcls m) /\ Forall wrr_ok (m_answers m) /\ (length (m_answers m) <= 40)%nat /\
  Z.land (Z.shiftr (m_b3 m) 6) 1 = 0 /\ Z.shiftr (Z.land (m_b2 m) 0x7f) 1 <= 5 /\ Z.land (m_b3 m) 0x0f <= 5.

(** The fixed part of the header. *)
Lemma wire_head packet id m : Z.of_nat (length packet) < 2 ^ 28 -> wmsg_ok m -> holds_at packet id (wire_msg m) ->
  at16 packet (Z.of_nat id) 0 = Ok (m_id m) /\ at8 packet (Z.of_nat id) 2 = Ok (m_b2 m) /\ at8 packet (Z.of_nat id) 3 = Ok (m_b3 m) /\ at16 packet (Z.of_nat id) 4 = Ok 1 /\
  at16 packet (Z.of_nat id) 6 = Ok (Z.of_nat (length (m_answers m))) /\ at16 packet (Z.of_nat id) 8 = Ok 0 /\ at16 packet (Z.of_nat id) 10 = Ok 0 /\
  holds_at packet (id + 12) (wire_name (m_q m)) /\ holds_at packet (id + 12 + length (wire_name (m_q m))) (wire16 (m_qtype m) ++ wire16 (m_qcls m) ++ concat (wire_rr <$> m_answers m)).
Proof.
  intros Hbig (Hid & _ & _ & _ & _ & Han & _) H. unfold wire_msg in H.
  assert (Hnext : forall n v bs, holds_at packet n (wire16 v ++ bs) -> holds_at packet (n + 2) bs) by (intros n v bs [_ ?]%holds_app; done).
  pose proof (holds_at16 packet Hbig id (Z.of_nat id) 0 _ _ H Hid ltac:(lia)). apply Hnext in H. cbn [app] in H. pose proof (holds_at8 packet Hbig _ (Z.of_nat id) 2 _ _ H ltac:(lia)). apply holds_cons in H as [_ H].
  pose proof (holds_at8 packet Hbig _ (Z.of_nat id) 3 _ _ H ltac:(lia)). apply holds_cons in H as [_ H]. replace (S (S (id + 2))) with (id + 4)%nat in H by lia.
  pose proof (holds_at16 packet Hbig _ (Z.of_nat id) 4 _ _ H ltac:(done) ltac:(lia)). apply Hnext in H. pose proof (holds_at16 packet Hbig _ (Z.of_nat id) 6 _ _ H ltac:(unfold is_u16; lia) ltac:(lia)). apply Hnext in H.
  pose proof (holds_at16 packet Hbig _ (Z.of_nat id) 8 _ _ H ltac:(done) ltac:(lia)). apply Hnext in H. pose proof (holds_at16 packet Hbig _ (Z.of_nat id) 10 _ _ H ltac:(done) ltac:(lia)). apply Hnext in H.
  replace (id + 4 + 2 + 2 + 2 + 2)%nat with (id + 12)%nat in H by lia. apply holds_app in H as [? ?]. done.
Qed.

Lemma parse_rr_set_nat g packet pos id_pos len n junk : parse_rr_set g packet pos id_pos len (Z.of_nat n) junk = rr_set_loop n g packet pos id_pos len junk [].
Proof. unfold parse_rr_set. by rewrite Nat2Z.id. Qed.

(** A DNS message with one question and up to 40 answers (addresses, names written out
    or pointing to the question, texts), anywhere in a packet and with anything behind it:
    [dns_parse] stores the identifier, the question and every answer with its name, type,
    class, data as text and the low 16 bits of its TTL, and returns the end of the message.
    No byte behind the packet is read. *)
Lemma dns_parse_wire pre m rest len g dns ns ad force junk : wmsg_ok m -> bytes_ok (pre ++ wire_msg m ++ rest) -> Z.of_nat (length (pre ++ wire_msg m ++ rest)) < 2 ^ 28 -> rr_table_ok g ->
  (length (pre ++ wire_msg m) <= len <= length (pre ++ wire_msg m ++ rest))%nat ->
  exists d g', dns_parse g (pre ++ wire_msg m ++ rest) (Z.of_nat (length pre)) (Z.of_nat len) dns ns ad force junk = Ok (Z.of_nat (length (pre ++ wire_msg m)), d, g') /\
    dns_id d = m_id m /\ dns_qr d = Z.shiftr (m_b2 m) 7 /\ dns_queries d = [mk_question (dots (m_q m)) (m_qtype m) (m_qcls m)] /\ rr_view <$> dns_answers d = wrr_view (m_q m) <$> m_answers m /\ rr_table_ok g'.
Proof.
  set (packet := pre ++ wire_msg m ++ rest). intros Hm Hpkt Hbig Hg [Hle Hlen]. assert (Hh : holds_at packet (length pre) (wire_msg m)) by apply holds_middle. set (end_ := length (pre ++ wire_msg m)) in *.
  assert (El : end_ = (length pre + (12 + (length (wire_name (m_q m)) + (4 + length (concat (wire_rr <$> m_answers m))))))%nat) by (unfold end_, wire_msg; rewrite !length_app; cbn [wire16 length]; lia).
  destruct (wire_head packet (length pre) m Hbig Hm Hh) as (E0 & E2 & E3 & E4 & E6 & E8 & E10 & Hq & Hrest). destruct Hm as (_ & Hql & Hqt & Hqc & Han & Hcnt & HZ & Hop & Hrc).
  set (id := length pre) in *. assert (Hin : (id + 12 + length (wire_name (m_q m)) <= len)%nat) by lia.
  unfold dns_parse. cbv zeta. rewrite (u32_id (_ - _)) by (unfold is_u32; lia). rewrite (proj2 (Z.ltb_ge _ 12)) by lia. rewrite E0, E2, E3. cbind. unfold dns_head at 1 2 3. cbn [dns_Z dns_opcode dns_rcode]. rewrite HZ, (proj2 (Z.ltb_ge 5 _) Hop), (proj2 (Z.ltb_ge 5 _) Hrc). cbn [negb Z.eqb orb].
  rewrite E4, E6, E8, E10. cbind. change (1 <? 1) with false. rewrite (proj2 (Z.ltb_ge 40 _)) by lia. cbn [orb]. rewrite (u32_id (_ + 12)) by (unfold is_u32; lia).
  set (p := (id + 12 + length (wire_name (m_q m)))%nat) in *. pose proof (holds_at16 packet Hbig p (Z.of_nat p) 0 _ _ Hrest Hqt ltac:(lia)) as Eq0. apply holds_app in Hrest as [_ Hrest]. change (length (wire16 _)) with 2%nat in Hrest.
  pose proof (holds_at16 packet Hbig _ (Z.of_nat p) 2 _ _ Hrest Hqc ltac:(lia)) as Eq2. apply holds_app in Hrest as [_ Hrest]. change (length (wire16 _)) with 2%nat in Hrest.
  unfold parse_questions. change (Z.to_nat 1) with 1%nat. cbn [questions_loop]. replace (Z.of_nat id + 12) with (Z.of_nat (id + 12)) by lia.
  rewrite (wire_read packet id len (m_q m) Hpkt Hbig Hlen Hql Hq Hin (id + 12) (Labels (m_q m))) by done. cbn [wire_ref ref_labels]. fold p. cbind. rewrite (u32_id (_ + 2)) by (unfold is_u32; lia). rewrite (proj2 (Z.leb_gt _ _)) by lia. rewrite Eq0, Eq2. cbind.
  rewrite (u32_id (_ + 4)) by (unfold is_u32; lia). rewrite (proj2 (Z.eqb_neq _ 0)) by lia. cbn [negb]. replace (Z.of_nat p + 4) with (Z.of_nat (p + 2 + 2)) by lia. rewrite (parse_rr_set_nat g).
  destruct (wire_parse_set packet id len (m_q m) Hpkt Hbig Hlen Hql Hq Hin (junk 0%nat) (m_answers m) Han g (p + 2 + 2)%nat [] Hg Hrest) as (rrs & g' & -> & Hv & Hg'); [lia|]. cbind. cbn [app].
  replace (p + 2 + 2 + length (concat (wire_rr <$> m_answers m)))%nat with end_ by lia. rewrite (proj2 (Z.eqb_neq _ 0)) by lia. cbn [negb].
  assert (Hempty : forall g b j, (if true && b then parse_rr_set g packet (Z.of_nat end_) (Z.of_nat id) (Z.of_nat len) 0 j else Ok (Z.of_nat end_, [], g)) = Ok (Z.of_nat end_, [], g)) by (by intros ? [] ?).
  rewrite Hempty. cbind. rewrite (proj2 (Z.eqb_neq _ 0)) by lia. cbn [negb]. rewrite Hempty. cbind. eexists _, g'. split; [done|]. cbn. done.
Qed.

(** A reply to "ab": it is an alias of "c", which has an address. *)
Definition reply_sample : wmsg := mk_wmsg 0x1234 0x81 0x80 [[0x61; 0x62]] 1 1 [mk_wrr Question 300 (WDomain 5 (Labels [[0x63]])); mk_wrr (Labels [[0x63]]) 86400 (WA [192; 168; 1; 10])].
Lemma reply_sample_ok : wmsg_ok reply_sample.
Proof.
  assert (label_ok [0x61; 0x62] /\ label_ok [0x63]) as [H1 H2] by (split; (split; [cbn; lia|split; [apply (bool_decide_unpack _); vm_compute; exact I|by repeat constructor]])).
  unfold wmsg_ok. cbn [reply_sample m_id m_b2 m_b3 m_q m_qtype m_qcls m_answers]. split_and!; try done; try (cbn; lia); [by apply Forall_singleton|].
  apply Forall_cons. split; [|apply Forall_singleton]; unfold wrr_ok; cbn [w_name w_ttl w_data wref_ok data_ok wire_ref]; split_and!; try done; auto; by apply Forall_singleton.
Qed.
Lemma dns_parse_wire_sample : exists d g', dns_parse rtypes_init ([7; 7] ++ wire_msg reply_sample ++ [9]) 2 55 dns_zero false false false no_junk = Ok (54, d, g') /\
  rr_data <$> dns_answers d = [Some [0x63]; Some (str_bytes "192.168.1.10")] /\ rr_ttl <$> dns_answers d = [300; 20864].
Proof.
  destruct (dns_parse_wire [7; 7] reply_sample [9] 55 rtypes_init dns_zero false false false no_junk reply_sample_ok) as (d & g' & E & _ & _ & _ & Hv & _); [apply (bool_decide_unpack _); vm_compute; exact I|vm_compute; done|done|vm_compute; lia|].
  exists d, g'. split; [exact E|]. 
  assert (E1 : rr_data <$> dns_answers d = (fun v => snd v) <$> (rr_view <$> dns_answers d)) by (rewrite <- list_fmap_compose; by apply list_fmap_ext). assert (E2 : rr_ttl <$> dns_answers d = (fun v => v.1.1.2) <$> (rr_view <$> dns_answers d)) by (rewrite <- list_fmap_compose; by apply list_fmap_ext).
  rewrite E1, E2, Hv. vm_compute. split; reflexivity.
Qed.
