(* ===== verification/DnsFrag.v ===== *)
(** * DnsFrag: reassembly of IP fragments

    Models [ip_frag_add] and [ip_frag_free] of [lib/dns_parse/src/network.c].  The list of
    [ip_config] is a list of chains: a chain is a fragment with its [child]s, and the [next]
    pointer of a chain's first fragment leads to the next chain ([next] of the others is
    never followed).  A [memcpy] from behind a fragment's data is a fault. *)
From S2P Require Import Prelude.
From stdpp Require Import sorting.
Open Scope Z_scope.

(** An address is its version and its 4 or 16 bytes. *)
Record ip_addr := mk_addr { vers : Z; addr : list Z }.
#[export] Instance ip_addr_dec : EqDecision ip_addr.
Proof. solve_decision. Defined.
Record ip_fragment := mk_frag { fr_id : Z; fr_src : ip_addr; fr_dst : ip_addr; fr_start : Z; fr_end : Z; fr_data : list Z; fr_islast : bool }.

(** [memcpy] of [n] bytes at [off]. *)
Definition copy_out (buf : list Z) (off n : Z) : res (list Z) :=
  if (0 <=? off) && (0 <=? n) && (off + n <=? Z.of_nat (length buf)) then Ok (take (Z.to_nat n) (drop (Z.to_nat off) buf)) else Err FOob.

(** The comparison of the search. *)
Definition same_packet (a b : ip_fragment) : bool := (fr_id a =? fr_id b) && bool_decide (fr_src a = fr_src b) && bool_decide (fr_dst a = fr_dst b).

Notation chain := (list ip_fragment).
Fixpoint find_chain (this : ip_fragment) (l : list chain) : option (list chain * chain * list chain) :=
  match l with
  | [] => None
  | c :: l =>
      match c with
      | x :: _ => if same_packet x this then Some ([], c, l) else '(b, d, a) ← find_chain this l; Some (c :: b, d, a)
      | [] => '(b, d, a) ← find_chain this l; Some (c :: b, d, a)
      end
  end.

(** The place of a fragment in a chain. *)
Fixpoint place (this : ip_fragment) (c : chain) : option chain :=
  match c with
  | [] => None
  | x :: c =>
      if fr_end this <=? fr_start x then Some (this :: x :: c)
      else if match c with [] => true | _ => false end && (fr_end x <=? fr_start this) then Some [x; this]
      else cons x <$> place this c
  end.

(** Two adjacent fragments become one. *)
Definition merge (x child : ip_fragment) : res ip_fragment :=
  let child_len := u32 (fr_end child - fr_start child) in
  let fnd_len := u32 (fr_end x - fr_start x) in
  b1 ← copy_out (fr_data x) 0 fnd_len;
  b2 ← copy_out (fr_data child) 0 child_len;
  Ok (mk_frag (fr_id x) (fr_src x) (fr_dst x) (fr_start x) (u32 (fr_end x + child_len)) (b1 ++ b2) (fr_islast child)).
(** The loop that collapses a chain, from the fragment [x] on. *)
Fixpoint collapse (x : ip_fragment) (c : chain) : res chain :=
  match c with
  | [] => Ok [x]
  | child :: c =>
      if fr_end x =? fr_start child then x ← merge x child; collapse x c
      else c ← collapse child c; Ok (x :: c)
  end.

(** The completed fragment, if any, and the new list. *)
Definition ip_frag_add (this : ip_fragment) (l : list chain) : res (option ip_fragment * list chain) :=
  match find_chain this l with
  | None => Ok (None, [this] :: l)
  | Some (before, c, after) =>
      match place this c with
      | None | Some [] => Ok (None, l)
      | Some (x :: c) =>
          c ← collapse x c;
          match c with
          | x :: _ => if fr_islast x then Ok (Some x, before ++ after) else Ok (None, before ++ c :: after)
          | [] => Ok (None, before ++ c :: after)
          end
      end
  end.
Definition ip_frag_free (l : list chain) : list chain := [].

(** ** Chains *)
(** A fragment holds the bytes from its start to its end. *)
Definition frag_wf (f : ip_fragment) : Prop := 0 <= fr_start f /\ fr_start f <= fr_end f < 2 ^ 32 /\ Z.of_nat (length (fr_data f)) = fr_end f - fr_start f.
Definition frag_key (f : ip_fragment) := (fr_id f, fr_src f, fr_dst f).
Lemma same_packet_key a b : same_packet a b = true <-> frag_key a = frag_key b.
Proof. unfold same_packet, frag_key. rewrite !andb_true_iff, !bool_decide_eq_true, Z.eqb_eq. split; [by intros [[-> ->] ->]|by intros [= -> -> ->]]. Qed.

Lemma copy_out_all buf n : n = Z.of_nat (length buf) -> copy_out buf 0 n = Ok buf.
Proof. intros ->. unfold copy_out. rewrite !(proj2 (Z.leb_le _ _)) by lia. cbn [andb]. f_equal. rewrite Nat2Z.id. change (Z.to_nat 0) with 0%nat. rewrite drop_0. by apply take_ge. Qed.
Lemma frag_merge_ok x y : frag_wf x -> frag_wf y -> fr_end x = fr_start y ->
  merge x y = Ok (mk_frag (fr_id x) (fr_src x) (fr_dst x) (fr_start x) (fr_end y) (fr_data x ++ fr_data y) (fr_islast y)).
Proof.
  intros (Hx0 & Hx & Hxl) (Hy0 & Hy & Hyl) E. unfold merge. rewrite !(u32_id (_ - _)) by (unfold is_u32; lia). rewrite !copy_out_all by lia. cbind. do 2 f_equal. rewrite u32_id by (unfold is_u32; lia). lia.
Qed.
Lemma merge_wf x y : frag_wf x -> frag_wf y -> fr_end x = fr_start y -> frag_wf (mk_frag (fr_id x) (fr_src x) (fr_dst x) (fr_start x) (fr_end y) (fr_data x ++ fr_data y) (fr_islast y)).
Proof. unfold frag_wf. cbn. rewrite length_app. lia. Qed.

Lemma collapse_total k c : forall x, Forall frag_wf (x :: c) -> Forall (fun f => frag_key f = k) (x :: c) ->
  exists h c', collapse x c = Ok (h :: c') /\ Forall frag_wf (h :: c') /\ Forall (fun f => frag_key f = k) (h :: c').
Proof.
  induction c as [|y c IH]; intros x [Hx Hc]%Forall_cons [Kx Kc]%Forall_cons; cbn [collapse]; [by exists x, []; split_and!; [done|constructor|constructor]|]. apply Forall_cons in Hc as [Hy Hc], Kc as [Ky Kc]. destruct (Z.eqb_spec (fr_end x) (fr_start y)) as [E|_].
  - rewrite frag_merge_ok by done. cbind. apply IH; constructor; [by apply merge_wf|done|done|done].
  - destruct (IH y) as (h & c' & -> & ? & ?); [by constructor|by constructor|]. exists x, (h :: c'). split_and!; [done|by constructor|by constructor].
Qed.
Lemma place_perm this c : forall c', place this c = Some c' -> c' ≡ₚ this :: c.
Proof.
  induction c as [|x c IH]; intros c' H; cbn [place] in H; [done|]. destruct (_ <=? _); [by simplify_eq|]. destruct (match c with [] => true | _ => false end && _) eqn:E.
  - destruct c; [|done]. simplify_eq. constructor.
  - destruct (place this c) as [d|]; [|done]. cbn in H. simplify_eq. rewrite (IH d) by done. constructor.
Qed.
(** ** The list of chains *)
Notation key := (Z * ip_addr * ip_addr)%type.
(** The chains are not empty, their fragments belong together, and no two chains are of
    the same packet. *)
Definition chain_wf (c : chain) : Prop := exists x c', c = x :: c' /\ Forall frag_wf c /\ Forall (fun f => frag_key f = frag_key x) c.
Definition chain_key (c : chain) : option key := frag_key <$> head c.
Definition conf_wf (l : list chain) : Prop := Forall chain_wf l /\ NoDup (chain_key <$> l).
(** The chain of a packet. *)
Definition chain_of (k : key) (l : list chain) : option chain := snd <$> list_find (fun c => chain_key c = Some k) l.

Lemma get_cons k c l : chain_of k (c :: l) = if decide (chain_key c = Some k) then Some c else chain_of k l.
Proof. unfold chain_of. cbn [list_find]. case_decide; [done|]. by destruct (list_find _ l) as [[]|]. Qed.
Lemma get_app k l1 l2 : chain_of k (l1 ++ l2) = match chain_of k l1 with Some c => Some c | None => chain_of k l2 end.
Proof. induction l1 as [|c l1 IH]; [done|]. cbn [app]. rewrite !get_cons. case_decide; [done|]. apply IH. Qed.
Lemma get_None k l : chain_of k l = None <-> Forall (fun c => chain_key c <> Some k) l.
Proof. induction l as [|c l IH]; [by split|]. rewrite get_cons, Forall_cons. case_decide; [split; [done|by intros [? _]]|]. rewrite IH. tauto. Qed.

Lemma find_chain_spec this l : match find_chain this l with
  | None => chain_of (frag_key this) l = None
  | Some (b, c, a) => l = b ++ c :: a /\ chain_of (frag_key this) b = None /\ chain_key c = Some (frag_key this)
  end.
Proof.
  induction l as [|c l IH]; cbn [find_chain]; [done|]. destruct c as [|x c].
  - destruct (find_chain this l) as [[[b d] a]|]; cbn [mbind option_bind]; [destruct IH as (-> & ? & ?)|]; by rewrite get_cons, decide_False by done.
  - destruct (same_packet x this) eqn:E.
    + apply same_packet_key in E. cbn. by rewrite E.
    + assert (Hne : chain_key (x :: c) <> Some (frag_key this)) by (intros Ek; cut (frag_key x = frag_key this); [intros Hk%same_packet_key; congruence|by apply (inj Some)]).
      destruct (find_chain this l) as [[[b d] a]|]; cbn [mbind option_bind]; [destruct IH as (-> & ? & ?)|]; by rewrite get_cons, decide_False by done.
Qed.

Lemma NoDup_app_mid (l1 l2 : list (option key)) k : NoDup (l1 ++ k :: l2) -> NoDup (l1 ++ l2) /\ k ∉ l1 ++ l2.
Proof. intros H. rewrite <- Permutation_middle in H. by apply NoDup_cons in H as [? ?]. Qed.

(** [ip_frag_add] never faults, keeps the list in order, and leaves the chains of other
    packets alone. *)
Lemma ip_frag_add_other this l : frag_wf this -> conf_wf l ->
  exists o l', ip_frag_add this l = Ok (o, l') /\ conf_wf l' /\ (forall k, k <> frag_key this -> chain_of k l' = chain_of k l) /\ (o <> None -> chain_of (frag_key this) l' = None).
Proof.
  intros Hf [Hw Hn]. unfold ip_frag_add. pose proof (find_chain_spec this l) as Hfc. destruct (find_chain this l) as [[[b c] a]|]; cycle 1.
  { eexists _, _. split_and!; [done|split|..|done].
    - constructor; [|done]. exists this, []. split_and!; [done|by constructor|by constructor].
    - rewrite fmap_cons. apply NoDup_cons. split; [|done]. intros (d & Hd & Hin)%list_elem_of_fmap. apply get_None in Hfc. rewrite Forall_forall in Hfc. by apply (Hfc d).
    - intros k Hk. rewrite get_cons, decide_False; [done|]. cbn. congruence. }
  destruct Hfc as (-> & Hb & Hck). apply Forall_app in Hw as [Hwb [Hwc Hwa]%Forall_cons]. destruct Hwc as (x0 & c0 & -> & Hwf & Hkey). assert (Ek : frag_key x0 = frag_key this) by (by apply (inj Some)). rewrite Ek in Hkey.
  rewrite fmap_app, fmap_cons in Hn. pose proof (NoDup_app_mid _ _ _ Hn) as [Hnd Hnin]. rewrite <- fmap_app in Hnd, Hnin. change (chain_key (x0 :: c0)) with (Some (frag_key x0)) in Hnin. rewrite Ek in Hnin.
  assert (Hkeep : conf_wf (b ++ (x0 :: c0) :: a)). { split; [apply Forall_app; split; [done|constructor; [|done]]; exists x0, c0; split_and!; [done|done|by rewrite Ek]|by rewrite fmap_app, fmap_cons]. }
  destruct (place this (x0 :: c0)) as [[|x c]|] eqn:Ep; [by eexists _, _; split_and!| |by eexists _, _; split_and!].
  assert (Hall : Forall frag_wf (x :: c) /\ Forall (fun f => frag_key f = frag_key this) (x :: c)) by (apply place_perm in Ep; rewrite Ep; split; by constructor). destruct Hall as [Hallw Hallk].
  destruct (collapse_total (frag_key this) c x Hallw Hallk) as (h & c' & Ec & Hw' & Hk'). pose proof (proj1 (proj1 (Forall_cons _ _ _) Hk')) as Hkh. rewrite Ec. cbind.
  assert (Hrem : forall k, k <> frag_key this -> chain_of k (b ++ a) = chain_of k (b ++ (x0 :: c0) :: a)).
  { intros k Hk. rewrite !get_app. destruct (chain_of k b); [done|]. rewrite get_cons, decide_False; [done|]. cbn. congruence. }
  assert (Hgone : chain_of (frag_key this) (b ++ a) = None). { apply get_None, Forall_forall. intros d Hd E. apply Hnin, list_elem_of_fmap. by exists d. }
  destruct (fr_islast h).
  - eexists _, _. split_and!; [done|split; [by apply Forall_app|done]|done|done].
  - eexists _, _. split_and!; [done| |intros k Hk; rewrite <- Hrem by done; rewrite !get_app; destruct (chain_of k b); [done|]; rewrite get_cons, decide_False; [done|cbn; congruence]|done].
    split; [apply Forall_app; split; [done|constructor; [|done]]; exists h, c'; split_and!; [done|done|by rewrite Hkh]|]. rewrite fmap_app, fmap_cons. change (chain_key (h :: c')) with (Some (frag_key h)). by rewrite Hkh, <- Ek.
Qed.

(** ** Reassembly of one packet *)
Section packet.
Context (D : list Z) (k : key).
(** The bytes of the packet from [a] to [b]. *)
Definition part (a b : Z) : list Z := take (Z.to_nat (b - a)) (drop (Z.to_nat a) D).
(** A fragment, or several merged, of this packet. *)
Definition run_ok (f : ip_fragment) : Prop := frag_wf f /\ frag_key f = k /\ fr_start f < fr_end f <= Z.of_nat (length D) /\ fr_data f = part (fr_start f) (fr_end f) /\ fr_islast f = (fr_end f =? Z.of_nat (length D)).
Definition covers (c : chain) (p : Z) : Prop := exists f, f ∈ c /\ fr_start f <= p < fr_end f.
Notation before := (fun x y => fr_end x <= fr_start y).
Notation apart := (fun x y => fr_end x < fr_start y).

Lemma covers_cons f c p : covers (f :: c) p <-> fr_start f <= p < fr_end f \/ covers c p.
Proof. unfold covers. setoid_rewrite elem_of_cons. split; [intros (g & [->|Hg] & Hp); eauto|intros [Hp|(g & Hg & Hp)]; eauto]. Qed.
Lemma covers_perm c c' p : c ≡ₚ c' -> covers c p <-> covers c' p.
Proof. intros H. unfold covers. by setoid_rewrite H. Qed.
Lemma part_app a b c : 0 <= a <= b -> b <= c -> part a b ++ part b c = part a c.
Proof.
  intros H1 H2. unfold part. replace (Z.to_nat b) with (Z.to_nat a + Z.to_nat (b - a))%nat by lia. rewrite <- drop_drop. replace (Z.to_nat (c - a)) with (Z.to_nat (b - a) + Z.to_nat (c - b))%nat by lia.
  symmetry. set (l := drop (Z.to_nat a) D). rewrite <- (take_drop (Z.to_nat (b - a)) (take _ l)). rewrite take_take, Nat.min_l by lia. f_equal. rewrite skipn_firstn_comm. f_equal. lia.
Qed.

Lemma merge_run x y : run_ok x -> run_ok y -> fr_end x = fr_start y -> exists m, merge x y = Ok m /\ run_ok m /\ fr_start m = fr_start x /\ fr_end m = fr_end y.
Proof.
  intros (Wx & Kx & Rx & Dx & Lx) (Wy & Ky & Ry & Dy & Ly) E. rewrite frag_merge_ok by done. eexists. split_and!; [done| |done|done]. split; [by apply merge_wf|]. cbn. split_and!; [done|lia|lia| |done]. rewrite Dx, Dy, E. apply part_app; destruct Wx; lia.
Qed.

(** Collapsing merges what is adjacent, and changes nothing about the bytes held. *)
Lemma collapse_runs c : forall x, Forall run_ok (x :: c) -> StronglySorted before (x :: c) ->
  exists h c', collapse x c = Ok (h :: c') /\ Forall run_ok (h :: c') /\ StronglySorted apart (h :: c') /\ fr_start h = fr_start x /\ (forall p, covers (h :: c') p <-> covers (x :: c) p).
Proof.
  induction c as [|y c IH]; intros x [Hx Hc]%Forall_cons Hs; cbn [collapse].
  { exists x, []. split_and!; [done|by constructor|repeat constructor|done|done]. }
  apply Forall_cons in Hc as [Hy Hc]. inversion Hs as [|? ? Hs' Hxs]; subst. apply Forall_cons in Hxs as [Hxy Hxs]. inversion Hs' as [|? ? Hs'' Hys]; subst. destruct (Z.eqb_spec (fr_end x) (fr_start y)) as [E|Hne].
  - destruct (merge_run x y Hx Hy E) as (m & -> & Hm & Hms & Hme). cbind. destruct (IH m) as (h & c' & Ec & Hr & Ha & Hst & Hcov); [by constructor|constructor; [done|by rewrite Hme]|]. exists h, c'. split_and!; [done|done|done|congruence|].
    intros p. rewrite Hcov, !covers_cons, Hms, Hme. destruct Hx as (_ & _ & ? & _), Hy as (_ & _ & ? & _). split; [intros [?|?]; [|by auto]; destruct (decide (p < fr_end x)); [left; lia|right; left; lia]|intros [?|[?|?]]; [left; lia|left; lia|by auto]].
  - destruct (IH y) as (h & c' & -> & Hr & Ha & Hst & Hcov); [by constructor|done|]. exists x, (h :: c'). split_and!; [done|by constructor| |done|intros p; rewrite (covers_cons x (h :: c')), (covers_cons x (y :: c)); by rewrite Hcov].
    constructor; [done|]. constructor; [lia|]. inversion Ha as [|? ? _ Hha]; subst. eapply Forall_impl; [exact Hha|]. cbn. apply Forall_cons in Hr as [(_ & _ & ? & _) _]. lia.
Qed.

(** A fragment that overlaps no other finds its place. *)
Lemma place_between f c : run_ok f -> c <> [] -> StronglySorted before c -> Forall run_ok c -> Forall (fun g => fr_end g <= fr_start f \/ fr_end f <= fr_start g) c ->
  exists c', place f c = Some c' /\ StronglySorted before c'.
Proof.
  intros Hf. induction c as [|x c IH]; intros Hne Hs Hr Hd; [done|]. inversion Hs as [|? ? Hs' Hxs]; subst. apply Forall_cons in Hd as [Hx Hd], Hr as [Hrx Hr]. cbn [place]. destruct (Z.leb_spec (fr_end f) (fr_start x)) as [Hle|Hgt].
  { eexists. split; [done|]. constructor; [done|]. constructor; [done|]. eapply Forall_impl; [exact Hxs|]. destruct Hrx as (_ & _ & ? & _). cbn. lia. }
  assert (Hxf : fr_end x <= fr_start f) by lia. destruct c as [|y c].
  - rewrite (proj2 (Z.leb_le _ _)) by done. cbn. eexists. split; [done|]. repeat constructor. done.
  - cbn [andb]. destruct (IH ltac:(done) Hs' Hr Hd) as (c' & Ec & Hs2). rewrite Ec. cbn. eexists. split; [done|]. constructor; [done|]. apply place_perm in Ec. rewrite Ec. by constructor.
Qed.

(** What a chain has to do with the fragments that arrived. *)
Definition chain_tracks (arrived c : chain) : Prop := Forall run_ok c /\ StronglySorted apart c /\ forall p, covers c p <-> covers arrived p.
Lemma apart_before c : StronglySorted apart c -> StronglySorted before c.
Proof. induction 1 as [|x c _ IH Hx]; constructor; [done|]. eapply Forall_impl; [exact Hx|]. cbn. lia. Qed.
Lemma tracks_disjoint arrived c f : chain_tracks arrived c -> run_ok f -> Forall (fun g => fr_end g <= fr_start f \/ fr_end f <= fr_start g) arrived -> Forall (fun g => fr_end g <= fr_start f \/ fr_end f <= fr_start g) c.
Proof.
  intros (Hr & _ & Hcov) (_ & _ & Hf & _) Ha. rewrite Forall_forall in Hr, Ha |- *. intros g Hg. destruct (Hr g Hg) as (_ & _ & Hgr & _). destruct (decide (fr_end g <= fr_start f \/ fr_end f <= fr_start g)) as [|Hov]; [done|].
  destruct (proj1 (Hcov (Z.max (fr_start g) (fr_start f)))) as (a & Hin & Hp); [exists g; split; [done|lia]|]. specialize (Ha a Hin). cbn in Ha. lia.
Qed.

Lemma get_mid b c a : chain_of k b = None -> chain_key c = Some k -> chain_of k (b ++ c :: a) = Some c.
Proof. intros Hb Hc. rewrite get_app, Hb, get_cons, decide_True by done. done. Qed.

(** A further fragment of a packet. *)
Lemma add_next f l c arrived : conf_wf l -> chain_of k l = Some c -> chain_tracks arrived c -> run_ok f -> Forall (fun g => fr_end g <= fr_start f \/ fr_end f <= fr_start g) arrived ->
  exists o l', ip_frag_add f l = Ok (o, l') /\ conf_wf l' /\
    ((o = None /\ exists h c', chain_of k l' = Some (h :: c') /\ chain_tracks (f :: arrived) (h :: c') /\ fr_end h <> Z.of_nat (length D)) \/
     (chain_of k l' = None /\ exists h, o = Some h /\ run_ok h /\ fr_end h = Z.of_nat (length D) /\ forall p, covers (f :: arrived) p <-> fr_start h <= p < fr_end h)).
Proof.
  intros Hl Hg Ht Hf Hd. pose proof (tracks_disjoint _ _ _ Ht Hf Hd) as Hdc. destruct Ht as (Hr & Ha & Hcov). pose proof Hf as (Hfw & Hfk & _). destruct (ip_frag_add_other f l Hfw Hl) as (o & l' & E & Hl' & _ & Hgone). rewrite Hfk in Hgone.
  exists o, l'. split_and!; [done|done|]. unfold ip_frag_add in E. pose proof (find_chain_spec f l) as Hfc. rewrite Hfk in Hfc. destruct (find_chain f l) as [[[b c1] a]|]; [|congruence]. destruct Hfc as (-> & Hb & Hck). rewrite get_mid in Hg by done. injection Hg as ->.
  assert (Hne : c <> []) by (by destruct c). destruct (place_between f c Hf Hne (apart_before _ Ha) Hr Hdc) as (c1 & Ep & Hs). rewrite Ep in E. pose proof (place_perm _ _ _ Ep) as Hp. destruct c1 as [|x c1]; [by apply Permutation_nil_cons in Hp|].
  destruct (collapse_runs c1 x) as (h & c' & Ec & Hr' & Ha' & _ & Hcov'); [rewrite Hp; by constructor|done|]. rewrite Ec in E. revert E. cbind. pose proof (proj1 (proj1 (Forall_cons _ _ _) Hr')) as Hh. pose proof Hh as (_ & Hhk & Hhr & _ & Hhl).
  assert (Hcov2 : forall p, covers (h :: c') p <-> covers (f :: arrived) p) by (intros p; rewrite Hcov', (covers_perm _ _ p Hp), !covers_cons; by rewrite Hcov). rewrite Hhl. destruct (Z.eqb_spec (fr_end h) (Z.of_nat (length D))) as [He|He]; intros [= <- <-].
  - right. split; [by apply Hgone|]. exists h. split_and!; [done|done|done|]. intros p. rewrite <- Hcov2, covers_cons. split; [|by auto]. intros [?|(g & Hg & Hpg)]; [done|]. inversion Ha' as [|? ? _ Hhs]; subst. rewrite Forall_forall in Hhs. specialize (Hhs g Hg). apply Forall_cons in Hr' as [_ Hr']. rewrite Forall_forall in Hr'. destruct (Hr' g Hg) as (_ & _ & ? & _). cbn in Hhs. lia.
  - left. split; [done|]. exists h, c'. split_and!; [apply get_mid; [done|]|split_and!; done|done]. change (chain_key (h :: c')) with (Some (frag_key h)). by rewrite Hhk.
Qed.

(** When all bytes have arrived the first run is the packet. *)
Lemma tracks_all arrived h c : chain_tracks arrived (h :: c) -> (forall p, 0 <= p < Z.of_nat (length D) -> covers arrived p) -> fr_end h = Z.of_nat (length D).
Proof.
  intros (Hr & Ha & Hcov) Hall. apply Forall_cons in Hr as [Hh Hr]. destruct Hh as (Hw & _ & Hhr & _). inversion Ha as [|? ? _ Hhs]; subst. destruct (decide (fr_end h = Z.of_nat (length D))) as [|Hne]; [done|].
  destruct (proj2 (Hcov (fr_end h))) as (g & Hg & Hp); [apply Hall; destruct Hw; lia|]. apply elem_of_cons in Hg as [->|Hg]; [lia|]. rewrite Forall_forall in Hhs. specialize (Hhs g Hg). cbn in Hhs. lia.
Qed.
End packet.

(** ** The pieces of a packet *)
Section pieces.
Context (ps : list (list Z)) (k : key).
Hypotheses (Hne : Forall (fun p => p <> []) ps) (Hsize : Z.of_nat (length (concat ps)) < 2 ^ 32).
Definition off (i : nat) : nat := length (concat (take i ps)).
Definition piece (i : nat) : ip_fragment :=
  mk_frag k.1.1 k.1.2 k.2 (Z.of_nat (off i)) (Z.of_nat (off (S i))) (nth i ps []) (bool_decide (S i = length ps)).

Lemma off_S i p : ps !! i = Some p -> off (S i) = (off i + length p)%nat.
Proof using. intros Hi. unfold off. rewrite (take_S_r _ _ _ Hi), concat_app, length_app. cbn. by rewrite app_nil_r. Qed.
Lemma off_all : off (length ps) = length (concat ps).
Proof using. unfold off. by rewrite firstn_all. Qed.
Lemma off_mono i j : (i <= j)%nat -> (off i <= off j)%nat.
Proof using. intros H. unfold off. replace (take i ps) with (take i (take j ps)) by (rewrite take_take; f_equal; lia). set (l := take j ps). clearbody l. rewrite <- (take_drop i l) at 2. rewrite concat_app, length_app. lia. Qed.
Lemma off_lt i : (i < length ps)%nat -> (off i < off (S i))%nat.
Proof using Hne. intros [p Hp]%lookup_lt_is_Some. rewrite (off_S i p Hp). rewrite Forall_lookup in Hne. specialize (Hne i p Hp). destruct p; [done|]. cbn. lia. Qed.

Lemma piece_run i : (i < length ps)%nat -> run_ok (concat ps) k (piece i).
Proof using Hne Hsize.
  intros Hi. pose proof (off_lt i Hi) as Hlt. destruct (lookup_lt_is_Some_2 ps i Hi) as [p Hp]. pose proof (off_S i p Hp) as HS. pose proof (off_mono (S i) (length ps) ltac:(lia)) as Hle. rewrite off_all in Hle. assert (Hn : nth i ps [] = p) by (by apply nth_lookup_Some).
  split; [|split_and!]; unfold frag_wf, frag_key; cbn [piece fr_start fr_end fr_data fr_id fr_src fr_dst fr_islast]; rewrite ?Hn; [lia|by destruct k as [[? ?] ?]|lia|lia| |].
  - unfold part. rewrite Nat2Z.id. replace (Z.to_nat _) with (length p) by lia. rewrite <- (take_drop_middle _ _ _ Hp), concat_app. cbn [concat]. unfold off. by rewrite drop_app_length, take_app_length.
  - case_bool_decide as E.
    + rewrite E, off_all. by rewrite Z.eqb_refl.
    + rewrite (proj2 (Z.eqb_neq _ _)); [done|]. pose proof (off_lt (S i) ltac:(lia)). pose proof (off_mono (S (S i)) (length ps) ltac:(lia)) as H2. rewrite off_all in H2. lia.
Qed.
Lemma pieces_apart i j : i <> j -> fr_end (piece i) <= fr_start (piece j) \/ fr_end (piece j) <= fr_start (piece i).
Proof using. intros H. cbn. destruct (decide (i < j)%nat); [left; pose proof (off_mono (S i) j ltac:(lia)); lia|right; pose proof (off_mono (S j) i ltac:(lia)); lia]. Qed.
Lemma pieces_cover x : forall n, (n <= length ps)%nat -> (x < off n)%nat -> exists i, (i < n)%nat /\ (off i <= x < off (S i))%nat.
Proof using. induction n as [|n IH]; intros Hn Hx; [unfold off in Hx; rewrite take_0 in Hx; cbn in Hx; lia|]. destruct (decide (off n <= x)%nat); [by exists n; split; [lia|]|]. destruct IH as (i & Hi & Hxi); [lia|lia|]. exists i. split; [lia|done]. Qed.
Lemma all_cover order : order ≡ₚ seq 0 (length ps) -> forall x, 0 <= x < Z.of_nat (length (concat ps)) -> covers (piece <$> order) x.
Proof using.
  intros Ho x Hx. destruct (pieces_cover (Z.to_nat x) (length ps)) as (i & Hi & Hxi); [done|rewrite off_all; lia|]. exists (piece i). split; [|cbn; lia]. apply list_elem_of_fmap. exists i. split; [done|]. rewrite Ho. apply elem_of_seq. lia.
Qed.
(** The start of a piece that did not arrive is not covered. *)
Lemma missing_uncovered arrived j : j ∉ arrived -> (j < length ps)%nat -> ~ covers (piece <$> arrived) (Z.of_nat (off j)).
Proof using Hne.
  intros Hj Hlt (f & (i & -> & Hi)%list_elem_of_fmap & Hp). assert (i <> j) as Hij by (by intros ->). pose proof (off_lt j Hlt). destruct (pieces_apart i j Hij); cbn in *; lia.
Qed.
End pieces.

(** ** Fragments of several packets *)
(** A sequence of arrivals, with what was returned for each. *)
Fixpoint frag_adds (evs : list ip_fragment) (l : list chain) : res (list (ip_fragment * option ip_fragment) * list chain) :=
  match evs with
  | [] => Ok ([], l)
  | f :: evs => '(o, l) ← ip_frag_add f l; '(log, l) ← frag_adds evs l; Ok ((f, o) :: log, l)
  end.
Notation of_packet k := (filter (fun f => frag_key f = k)).
Notation log_of k := (filter (fun fo : ip_fragment * option ip_fragment => frag_key fo.1 = k)).

Section arrivals.
Context (ps : list (list Z)) (k : key).
Hypotheses (Hne : Forall (fun p => p <> []) ps) (Hsize : Z.of_nat (length (concat ps)) < 2 ^ 32) (Hmany : (2 <= length ps)%nat).
Notation D := (concat ps).
Notation piece := (piece ps k).
Definition whole : ip_fragment := mk_frag k.1.1 k.1.2 k.2 0 (Z.of_nat (length D)) D true.

Lemma adds_other evs : forall l, Forall frag_wf evs -> conf_wf l -> of_packet k evs = [] -> exists log l', frag_adds evs l = Ok (log, l') /\ conf_wf l' /\ chain_of k l' = chain_of k l /\ log_of k log = [].
Proof using.
  induction evs as [|f evs IH]; intros l Hw Hl Hf; cbn [frag_adds]; [by eexists _, _|]. apply Forall_cons in Hw as [Hfw Hw]. rewrite filter_cons in Hf. case_decide as Hk; [done|].
  destruct (ip_frag_add_other f l Hfw Hl) as (o & l1 & -> & Hl1 & Hoth & _). cbind. destruct (IH l1 Hw Hl1 Hf) as (log & l' & -> & Hl' & Hg & Hlog). cbind. eexists _, _. split_and!; [done|done|by rewrite Hg, Hoth|]. rewrite filter_cons, decide_False by done. done.
Qed.

Lemma run_whole h : run_ok D k h -> fr_start h = 0 -> fr_end h = Z.of_nat (length D) -> h = whole.
Proof using.
  intros (_ & Hk & _ & Hd & Hl) Hs He. rewrite Hs, He in Hd. rewrite He, Z.eqb_refl in Hl. destruct h as [i s d st en da la]. cbn in *. unfold frag_key in Hk. cbn in Hk. unfold whole. rewrite <- Hk. cbn. rewrite Hd, Hl, Hs, He. f_equal. unfold part. rewrite Z.sub_0_r, Nat2Z.id. change (Z.to_nat 0) with 0%nat. rewrite drop_0. by apply take_ge.
Qed.

(** The state between arrivals: [arrived] are the pieces seen so far. *)
Definition waiting (arrived : list nat) (l : list chain) : Prop :=
  match arrived with [] => chain_of k l = None | _ => exists c, chain_of k l = Some c /\ chain_tracks D k (piece <$> arrived) c end.

(** A piece arrives. *)
Lemma add_piece i arrived todo l : conf_wf l -> waiting arrived l -> arrived ++ i :: todo ≡ₚ seq 0 (length ps) -> (arrived = [] \/ 0%nat ∈ i :: arrived) ->
  exists o l', ip_frag_add (piece i) l = Ok (o, l') /\ conf_wf l' /\ match todo with [] => o = Some whole /\ chain_of k l' = None | _ => o = None /\ waiting (i :: arrived) l' end.
Proof using Hne Hsize Hmany.
  intros Hl Hw Hperm H0. assert (Hi : (i < length ps)%nat) by (assert (i ∈ seq 0 (length ps)) as Hin%elem_of_seq by (rewrite <- Hperm; set_solver); lia).
  pose proof (piece_run ps k Hne Hsize i Hi) as Hrun. pose proof Hrun as (Hfw & Hfk & Hfr & _). assert (Hnd : NoDup (arrived ++ i :: todo)) by (rewrite Hperm; apply NoDup_seq).
  destruct arrived as [|a arrived].
  - destruct (ip_frag_add_other (piece i) l Hfw Hl) as (o & l' & E & Hl' & _). exists o, l'. split_and!; [done|done|]. unfold ip_frag_add in E. pose proof (find_chain_spec (piece i) l) as Hfc. rewrite Hfk in Hfc. cbn in Hw.
    destruct (find_chain (piece i) l) as [[[b c] d]|]; [destruct Hfc as (-> & Hb & Hc); rewrite get_mid in Hw by done; done|]. injection E as <- <-.
    destruct todo as [|j todo]; [apply Permutation_length in Hperm; rewrite length_seq in Hperm; cbn in Hperm; lia|]. split; [done|]. exists [piece i]. rewrite get_cons, decide_True by (change (chain_key [piece i]) with (Some (frag_key (piece i))); by rewrite Hfk). split; [done|]. split_and!; [by constructor|repeat constructor|done].
  - destruct Hw as (c & Hg & Ht). destruct H0 as [?|H0]; [done|].
    destruct (add_next D k (piece i) l c (piece <$> a :: arrived) Hl Hg Ht Hrun) as (o & l' & E & Hl' & Hres).
    { rewrite Forall_fmap, Forall_forall. intros j Hj. cbn. apply (pieces_apart ps k). intros ->. apply NoDup_app in Hnd as (_ & Hnd & _). apply (Hnd i Hj). left. }
    exists o, l'. split_and!; [done|done|]. change (piece i :: (piece <$> a :: arrived)) with (piece <$> i :: a :: arrived) in Hres.
    destruct todo as [|j todo]; destruct Hres as [(-> & h & c' & Hg' & Ht' & Hend)|(Hg' & h & -> & Hh & He & Hcov)].
    + destruct Hend. eapply (tracks_all D k _ h c' Ht'). intros p. apply all_cover. rewrite <- Hperm. rewrite <- Permutation_cons_append. done.
    + split; [|done]. f_equal. apply run_whole; [done| |done]. assert (Hc0 : covers (piece <$> i :: a :: arrived) 0) by (apply all_cover; [rewrite <- Hperm; by rewrite <- Permutation_cons_append|destruct Hfw; lia]). apply Hcov in Hc0. destruct Hh as ((? & _) & _). lia.
    + split; [done|]. by exists (h :: c').
    + exfalso. assert (Hj : (j < length ps)%nat /\ j ∉ i :: a :: arrived). { split; [assert (j ∈ seq 0 (length ps)) as Hin%elem_of_seq by (rewrite <- Hperm; set_solver); lia|]. rewrite <- Permutation_middle in Hnd. apply NoDup_cons in Hnd as [Hni Hnd]. apply NoDup_app in Hnd as (_ & Hnd & _). intros [->|Hin]%elem_of_cons; [apply Hni; set_solver|]. apply (Hnd j Hin). left. }
      destruct Hj as [Hj Hnin]. eapply (missing_uncovered ps k Hne _ j Hnin Hj). apply Hcov. destruct (proj1 (Hcov 0)) as [Hs _].
      { exists (piece 0). split; [apply list_elem_of_fmap; by exists 0%nat|]. cbn. unfold off at 1. rewrite take_0. pose proof (off_lt ps Hne 0 ltac:(lia)). cbn in *. lia. }
      pose proof (off_lt ps Hne j Hj). pose proof (off_mono ps (S j) (length ps) ltac:(lia)) as Hle. rewrite off_all in Hle. lia.
Qed.

(** The first piece is there in time. *)
Definition first_in_time (arrived todo : list nat) : Prop := arrived = [] /\ 0%nat ∈ take 2 todo \/ 0%nat ∈ arrived \/ head todo = Some 0%nat.

Lemma adds_pieces evs : forall l arrived todo, conf_wf l -> Forall frag_wf evs -> waiting arrived l -> todo <> [] -> arrived ++ todo ≡ₚ seq 0 (length ps) -> first_in_time arrived todo -> of_packet k evs = piece <$> todo ->
  exists log l', frag_adds evs l = Ok (log, l') /\ conf_wf l' /\ chain_of k l' = None /\ snd <$> log_of k log = replicate (length todo - 1) None ++ [Some whole].
Proof using Hne Hsize Hmany.
  induction evs as [|f evs IH]; intros l arrived todo Hl Hw Hwait Hnil Hperm H0 Hf; [by destruct todo|]. cbn [frag_adds]. apply Forall_cons in Hw as [Hfw Hw]. rewrite filter_cons in Hf. case_decide as Hk.
  - destruct todo as [|i todo]; [done|]. rewrite fmap_cons in Hf. injection Hf as -> Hf.
    destruct (add_piece i arrived todo l Hl Hwait Hperm) as (o & l1 & -> & Hl1 & Hres). { destruct H0 as [[-> _]|[H0|H0]]; [by left|right; by right|right]. cbn in H0. simplify_eq. left. }
    cbind. destruct todo as [|j todo].
    + destruct Hres as [-> Hg]. destruct (adds_other evs l1 Hw Hl1) as (log & l' & -> & Hl' & Hg' & Hlog); [done|]. cbind. eexists _, _. split_and!; [done|done|congruence|]. rewrite filter_cons, decide_True by done. cbn. by rewrite Hlog.
    + destruct Hres as [-> Hwait']. destruct (IH l1 (i :: arrived) (j :: todo) Hl1 Hw Hwait') as (log & l' & -> & Hl' & Hg' & Hlog); [done| | |done|].
      { rewrite <- Hperm. cbn. by rewrite Permutation_middle. }
      { right. destruct H0 as [[-> H0]|[H0|H0]]; [cbn in H0; set_unfold; naive_solver|left; by right|left; cbn in H0; simplify_eq; left]. }
      cbind. eexists _, _. split_and!; [done|done|done|]. rewrite filter_cons, decide_True by done. rewrite fmap_cons, Hlog. cbn [length]. by rewrite !Nat.sub_succ, !Nat.sub_0_r.
  - destruct (ip_frag_add_other f l Hfw Hl) as (o & l1 & -> & Hl1 & Hoth & _). cbind. destruct (IH l1 arrived todo Hl1 Hw) as (log & l' & -> & Hl' & Hg' & Hlog); try done.
    { unfold waiting in *. by destruct arrived; rewrite Hoth. }
    cbind. eexists _, _. split_and!; [done|done|done|]. rewrite filter_cons, decide_False by done. done.
Qed.
End arrivals.

(** C9: Reassembly: the pieces of a packet arrive in any order, each once, between fragments
    of other packets, the first piece among the first two.  Then each arrival but the last
    returns nothing, the last one returns the whole packet, the packet is forgotten, and no
    memory outside a fragment's data is read, whatever the other fragments are. *)
Theorem reassembly ps k order evs l : Forall (fun p => p <> []) ps -> Z.of_nat (length (concat ps)) < 2 ^ 32 -> (2 <= length ps)%nat -> order ≡ₚ seq 0 (length ps) -> 0%nat ∈ take 2 order ->
  Forall frag_wf evs -> conf_wf l -> chain_of k l = None -> of_packet k evs = piece ps k <$> order ->
  exists log l', frag_adds evs l = Ok (log, l') /\ conf_wf l' /\ chain_of k l' = None /\ snd <$> log_of k log = replicate (length ps - 1) None ++ [Some (whole ps k)].
Proof.
  intros Hne Hsize Hmany Ho H0 Hw Hl Hg Hf. replace (length ps) with (length order) by (apply Permutation_length in Ho; by rewrite length_seq in Ho). apply (adds_pieces ps k Hne Hsize Hmany evs l []); try done; [intros ->; cbn in H0; set_solver|by left].
Qed.

(** Without the first piece, the pieces behind it are returned as if they were the packet:
    here the second and third of three, in the other order. *)
Lemma incomplete_returned : let k := (7, mk_addr 4 [10; 0; 0; 1], mk_addr 4 [10; 0; 0; 2]) in let ps := [[1; 2]; [3; 4]; [5; 6]] in
  exists log l f, frag_adds [piece ps k 2; piece ps k 1] [] = Ok (log ++ [(piece ps k 1, Some f)], l) /\ fr_start f = 2 /\ fr_data f = [3; 4; 5; 6].
Proof. eexists [_], _, _. vm_compute. done. Qed.
(** A piece that arrives twice before the one behind it keeps the packet from completing. *)
Lemma duplicate_stalls : let k := (7, mk_addr 4 [10; 0; 0; 1], mk_addr 4 [10; 0; 0; 2]) in let ps := [[1; 2]; [3; 4]; [5; 6]] in
  exists log l, frag_adds [piece ps k 0; piece ps k 2; piece ps k 0; piece ps k 1] [] = Ok (log, l) /\ Forall (fun fo => fo.2 = None) log.
Proof. eexists _, _. split; [vm_compute; done|]. repeat constructor. Qed.

Definition frag_demo : list ip_fragment := let k := (7, mk_addr 4 [10; 0; 0; 1], mk_addr 4 [10; 0; 0; 2]) in let ps := [[1; 2]; [3; 4]; [5; 6]] in
  [piece ps k 2; mk_frag 8 (mk_addr 4 [10; 0; 0; 1]) (mk_addr 4 [10; 0; 0; 2]) 0 3 [9; 9; 9] false; piece ps k 0; piece ps k 1].
Lemma reassembly_witness : exists log l', frag_adds frag_demo [] = Ok (log, l') /\ conf_wf l' /\ chain_of (7, mk_addr 4 [10; 0; 0; 1], mk_addr 4 [10; 0; 0; 2]) l' = None /\
  snd <$> log_of (7, mk_addr 4 [10; 0; 0; 1], mk_addr 4 [10; 0; 0; 2]) log = replicate 2 None ++ [Some (whole [[1; 2]; [3; 4]; [5; 6]] (7, mk_addr 4 [10; 0; 0; 1], mk_addr 4 [10; 0; 0; 2]))].
Proof.
  refine (reassembly [[1; 2]; [3; 4]; [5; 6]] (7, mk_addr 4 [10; 0; 0; 1], mk_addr 4 [10; 0; 0; 2]) [2; 0; 1]%nat frag_demo [] _ _ _ _ _ _ _ _ _); [by repeat constructor|cbn; lia|cbn; lia| | |repeat constructor; cbn; lia|split; constructor|done|done].
  - cbn. apply (bool_decide_unpack _). vm_compute. exact I.
  - cbn. right. left.
Defined.
