(* ===== verification/DnsNet.v ===== *)
(** * DnsNet: from the frame to the DNS message

    Models the rest of [lib/dns_parse/src/network.c] (Ethernet, IPv4, IPv6 and UDP headers,
    the UDP checksum) and the part of [dns_handler] in [dns_parse.c] that leads from a
    captured frame to the parsed message.  A load outside the frame, or outside the data of
    a reassembled packet, is a fault.  The 16- and 32-bit loads are in host order. *)
From S2P Require Import Prelude CString DnsName DnsRtypes DnsParse DnsFrag.
Open Scope Z_scope.

Record eth_info := mk_eth { dstmac : list Z; srcmac : list Z; ethtype : Z }.
Record ip_info := mk_ip { ip_header_pos : Z; ip_src : ip_addr; ip_dst : ip_addr; ip_length : Z; ip_proto : Z }.
(** [udp_csum_ptr] is an offset into the packet. *)
Record transport_info := mk_tpt { tpt_header_pos : Z; srcport : Z; dstport : Z; tpt_length : Z; transport : Z; udp_checksum : Z; udp_csum_ptr : Z }.

(** ** Headers *)
(** [sll] is [conf->datalink == DLT_LINUX_SLL]. *)
Definition eth_parse (packet : list Z) (len : Z) (eth : eth_info) (sll : bool) : res (Z * eth_info) :=
  if len <? 14 then Ok (0, eth) else
  dst ← rd_bytes packet 0 6; src ← rd_bytes packet 6 6;
  let pos := if sll then 14 else 12 in
  b0 ← at8 packet pos 0;
  tagged ← (if b0 =? 0x81 then b1 ← at8 packet pos 1; Ok (b1 =? 0) else Ok false);
  let pos := if (tagged : bool) then pos + 4 else pos in
  et ← at16 packet pos 0;
  Ok (pos + 2, mk_eth dst src et).

(** The position, [*p_packet], [header->len], the IP information and the fragments. *)
Record ip_out := mk_out { o_pos : Z; o_packet : option (list Z); o_len : Z; o_ip : ip_info; o_conf : list chain }.
Definition ip_drop (len : Z) (ip : ip_info) (conf : list chain) : ip_out := mk_out 0 None len ip conf.

(** What follows the call of [ip_frag_add] in both parsers. *)
Definition frag_result (len : Z) (ip : ip_info) (frag : ip_fragment) (conf : list chain) : res ip_out :=
  '(o, conf) ← ip_frag_add frag conf;
  match o with
  | Some f =>
      let n := u32 (fr_end f - fr_start f) in
      Ok (mk_out 0 (Some (fr_data f)) n (mk_ip (ip_header_pos ip) (ip_src ip) (ip_dst ip) n (ip_proto ip)) conf)
  | None => Ok (ip_drop len ip conf)
  end.

Definition ipv4_parse `{HostEndian} (packet : list Z) (pos len : Z) (ip : ip_info) (conf : list chain) : res ip_out :=
  if u32 (len - pos) <? 20 then Ok (ip_drop len ip conf) else
  b0 ← at8 packet pos 0;
  let h_len := Z.land b0 0x0f in
  b2 ← at8 packet pos 2; b3 ← at8 packet pos 3;
  let length_ := u32 (Z.shiftl b2 8 + b3 - h_len * 4) in
  let ip := mk_ip pos (ip_src ip) (ip_dst ip) length_ (ip_proto ip) in
  if length_ <? h_len * 4 then Ok (ip_drop len ip conf) else
  proto ← at8 packet pos 9;
  src ← rd_bytes packet (pos + 12) 4; dst ← rd_bytes packet (pos + 16) 4;
  let ip := mk_ip pos (mk_addr 4 src) (mk_addr 4 dst) length_ proto in
  b6 ← at8 packet pos 6; b7 ← at8 packet pos 7;
  let frag_mf := Z.shiftr (Z.land b6 0x20) 5 in
  let frag_offset := u16 (Z.shiftl (Z.land b6 0x1f) 11 + Z.shiftl b7 3) in
  if (frag_mf =? 1) || negb (frag_offset =? 0) then
    id ← rd_bytes packet (pos + 4) 2;
    data ← copy_out packet (pos + 4 * h_len) length_;
    frag_result len ip (mk_frag (ld_ne id) (ip_src ip) (ip_dst ip) frag_offset (u32 (frag_offset + length_)) data (frag_mf =? 0)) conf
  else Ok (mk_out (u32 (pos + 4 * h_len)) (Some packet) len ip conf).

(** *** IPv6 extension headers *)
Definition IPPROTO_HOPOPTS := 0.
Definition IPPROTO_ROUTING := 43.
Definition IPPROTO_FRAGMENT := 44.
Definition IPPROTO_DSTOPTS := 60.
Definition UDP := 0x11.
Definition TCP := 0x06.
(** [next_hdr], [pos], [header_len] and what the last fragment header said: start, whether
    it is the last fragment, and identifier. *)
Record ext := mk_ext { x_next : Z; x_pos : Z; x_hlen : Z; x_frag : option (Z * bool * Z) }.
Definition skip_ext (x : ext) (next n m : Z) : ext := mk_ext next (u32 (x_pos x + n)) (u32 (x_hlen x + m)) (x_frag x).

(** One round of the loop; [None] is a return with [*p_packet = NULL]. *)
Definition ext_step `{HostEndian} (packet : list Z) (len : Z) (x : ext) : res (option ext) :=
  let pos := x_pos x in
  if bool_decide (x_next x ∈ [IPPROTO_HOPOPTS; IPPROTO_DSTOPTS; IPPROTO_ROUTING]) then
    if len <? u32 (pos + 16) then Ok None else
    next ← at8 packet pos 0; n ← at8 packet pos 1; Ok (Some (skip_ext x next (n + 1) 16))
  else if (x_next x =? 51) || (x_next x =? 135) then
    if len <? u32 (pos + 2) then Ok None else
    next ← at8 packet pos 0; n ← at8 packet pos 1;
    let m := if x_next x =? 51 then (n + 2) * 4 else n * 8 in
    let x := skip_ext x next m m in
    if len <? x_pos x then Ok None else Ok (Some x)
  else if x_next x =? IPPROTO_FRAGMENT then
    next ← at8 packet pos 0; b2 ← at8 packet pos 2; b3 ← at8 packet pos 3; id ← rd_bytes packet (pos + 4) 4;
    Ok (Some (mk_ext next (u32 (pos + 8)) (u32 (x_hlen x + 8)) (Some (Z.shiftl b2 8 + Z.land b3 0xf4, Z.land b3 0x01 =? 0, ld_ne id))))
  else Ok None.
Fixpoint ext_loop `{HostEndian} (n : nat) (packet : list Z) (len : Z) (x : ext) : res (option ext) :=
  match n with
  | O => Err FFuel
  | S n =>
      if (x_next x =? TCP) || (x_next x =? UDP) then Ok (Some x) else
      o ← ext_step packet len x; match o with None => Ok None | Some x => ext_loop n packet len x end
  end.

Definition ipv6_parse `{HostEndian} (fuel : nat) (packet : list Z) (pos len : Z) (ip : ip_info) (conf : list chain) : res ip_out :=
  if len <? u32 (pos + 40) then Ok (ip_drop len ip conf) else
  length_ ← at16 packet pos 4;
  src ← rd_bytes packet (pos + 8) 16; dst ← rd_bytes packet (pos + 24) 16;
  let ip := mk_ip (ip_header_pos ip) (mk_addr 6 src) (mk_addr 6 dst) length_ (ip_proto ip) in
  if length_ =? 0 then Ok (ip_drop len ip conf) else
  next ← at8 packet pos 6;
  o ← ext_loop fuel packet len (mk_ext next (u32 (pos + 40)) 0 None);
  match o with
  | None => Ok (ip_drop len ip conf)
  | Some x =>
      if length_ <? x_hlen x then Ok (ip_drop len ip conf) else
      let length_ := u32 (length_ - x_hlen x) in
      let ip := mk_ip (ip_header_pos ip) (ip_src ip) (ip_dst ip) length_ (x_next x) in
      match x_frag x with
      | Some (start, islast, id) =>
          data ← copy_out packet (x_pos x) length_;
          frag_result len ip (mk_frag id (ip_src ip) (ip_dst ip) start (u32 (start + length_)) data islast) conf
      | None => Ok (mk_out (x_pos x) (Some packet) len ip conf)
      end
  end.

Definition udp_parse (packet : list Z) (pos len : Z) (udp : transport_info) : res (Z * transport_info) :=
  if u32 (len - pos) <? 8 then Ok (0, udp) else
  sp ← at16 packet pos 0; dp ← at16 packet pos 2; l ← at16 packet pos 4; c ← at16 packet pos 6;
  Ok (u32 (pos + 8), mk_tpt pos sp dp l UDP c (u32 (pos + 6))).

(** ** The way to the message *)
(** The parts of [struct dns_session] and the globals that are used. *)
Record session := mk_session { s_eth : eth_info; s_ip : ip_info; s_conf : list chain; s_udp : transport_info; s_rtypes : rtypes }.
(** [header.len], the packet the message was read from, the position behind it, and it. *)
Record received := mk_recv { rv_len : Z; rv_packet : list Z; rv_pos : Z; rv_dns : dns_info }.

(** [dns_handler] up to the call of [dns_parse]; [None] is an early return. *)
Definition dns_handler_parse `{HostEndian} (fuel : nat) (packet : list Z) (caplen : Z) (sll ns ad : bool) (junk : nat -> nat -> dns_rr) (s : session) : res (option received * session) :=
  '(pos, eth) ← eth_parse packet caplen (s_eth s) sll;
  let s := mk_session eth (s_ip s) (s_conf s) (s_udp s) (s_rtypes s) in
  if pos =? 0 then Ok (None, s) else
  o ← (if ethtype eth =? 0x0800 then o ← ipv4_parse packet pos caplen (s_ip s) (s_conf s); Ok (Some o)
       else if ethtype eth =? 0x86DD then o ← ipv6_parse fuel packet pos caplen (s_ip s) (s_conf s); Ok (Some o)
       else Ok None);
  match o with
  | None => Ok (None, s)
  | Some o =>
      let s := mk_session eth (o_ip o) (o_conf o) (s_udp s) (s_rtypes s) in
      match o_packet o with
      | None => Ok (None, s)
      | Some packet =>
          if negb (ip_proto (o_ip o) =? 17) then Ok (None, s) else
          '(pos, udp) ← udp_parse packet (o_pos o) (o_len o) (s_udp s);
          let s := mk_session eth (o_ip o) (o_conf o) udp (s_rtypes s) in
          if pos =? 0 then Ok (None, s) else
          '(pos, dns, g) ← dns_parse (s_rtypes s) packet pos (o_len o) dns_zero ns ad false junk;
          Ok (Some (mk_recv (o_len o) packet pos dns), mk_session eth (o_ip o) (o_conf o) udp g)
      end
  end.

(** ** The UDP checksum *)
(** Loads of 16-bit words, [n] of them. *)
Fixpoint sum16 `{HostEndian} (n : nat) (packet : list Z) (pos sum : Z) : res Z :=
  match n with O => Ok sum | S n => bs ← rd_bytes packet pos 2; sum16 n packet (pos + 2) (u32 (sum + ld_ne bs)) end.
Definition htons `{HostEndian} (x : Z) : Z := ld_ne [x / 256; x mod 256].

Definition compute_pseudo_iph_checksum `{HostEndian} (packet : list Z) (ip : ip_info) (udp : transport_info) : res (Z * list Z) :=
  sum ←
    (if vers (ip_src ip) =? 4 then
       let a := ld_ne (addr (ip_src ip)) in
       let sum := u32 (0 + Z.land (Z.shiftr a 16) 0xffff) in
       let sum := u32 (sum + Z.land a 0xffff) in
       let a := ld_ne (addr (ip_dst ip)) in
       let sum := u32 (sum + Z.land (Z.shiftr a 16) 0xffff) in
       Ok (u32 (sum + Z.land a 0xffff))
     else
       sum ← sum16 8 (addr (ip_src ip)) 0 0; sum16 8 (addr (ip_dst ip)) 0 sum);
  let sum := u32 (sum + htons UDP) in
  let sum := u32 (sum + htons (tpt_length udp)) in
  packet ← wr_bytes packet (udp_csum_ptr udp) [0; 0];
  Ok (sum, packet).

(** [while (sum >> 16) sum = (sum & 0xffff) + (sum >> 16)] *)
Fixpoint fold16 (n : nat) (sum : Z) : res Z :=
  match n with O => Err FFuel | S n => if Z.shiftr sum 16 =? 0 then Ok sum else fold16 n (u32 (Z.land sum 0xffff + Z.shiftr sum 16)) end.
(** Three rounds are enough for 32 bits. *)
Definition FOLDS := 4%nat.

Definition compute_udp_checksum `{HostEndian} (packet : list Z) (ip : ip_info) (udp : transport_info) : res (Z * list Z) :=
  '(sum, packet) ← compute_pseudo_iph_checksum packet ip udp;
  let udp_len := tpt_length udp in
  sum ← sum16 (Z.to_nat (udp_len / 2)) packet (tpt_header_pos udp) sum;
  sum ← (if 0 <? udp_len mod 2 then bs ← rd_bytes packet (tpt_header_pos udp + 2 * (udp_len / 2)) 2; Ok (u32 (sum + Z.land (ld_ne bs) (htons 0xff00))) else Ok sum);
  sum ← fold16 FOLDS sum;
  let csum := u16 (Z.lnot sum) in
  Ok (if csum =? 0 then 0xffff else csum, packet).

(** The store of [dns_prepare_forward]. *)
Definition st_ne16 `{HostEndian} (x : Z) : list Z := if host_big then [x / 256; x mod 256] else [x mod 256; x / 256].
Definition dns_store_checksum `{HostEndian} (packet : list Z) (ip : ip_info) (udp : transport_info) : res (list Z) :=
  '(csum, packet) ← compute_udp_checksum packet ip udp;
  wr_bytes packet (udp_csum_ptr udp) (st_ne16 csum).

(** ** Frames that are handled badly *)
(** An IPv6 mobility header of length 0 that announces another one: the loop over the
    extension headers never ends. *)
Lemma mobility_loops `{HostEndian} fuel packet len x : x_next x = 135 -> 0 <= x_pos x -> x_pos x + 2 <= len < 2 ^ 28 -> 0 <= x_hlen x < 2 ^ 32 -> at8 packet (x_pos x) 0 = Ok 135 -> at8 packet (x_pos x) 1 = Ok 0 -> ext_loop fuel packet len x = Err FFuel.
Proof.
  intros Hn Hp Hlen Hh E0 E1. induction fuel as [|fuel IH]; [done|]. cbn [ext_loop]. rewrite Hn. change ((135 =? TCP) || (135 =? UDP)) with false. cbn iota. unfold ext_step. rewrite Hn. rewrite bool_decide_eq_false_2 by (unfold IPPROTO_HOPOPTS, IPPROTO_DSTOPTS, IPPROTO_ROUTING; set_solver by lia).
  change ((135 =? 51) || (135 =? 135)) with true. cbn iota. rewrite u32_id by (unfold is_u32; lia). rewrite (proj2 (Z.ltb_ge len (x_pos x + 2))) by lia. rewrite E0, E1. cbind. change (135 =? 51) with false. cbn iota. unfold skip_ext. rewrite !Z.add_0_r, !u32_id by (unfold is_u32; lia). cbn [x_pos].
  rewrite (proj2 (Z.ltb_ge len (x_pos x))) by lia. cbind. destruct x; cbn in *; subst. done.
Qed.
Definition mobility_packet : list Z := [0x60; 0; 0; 0; 0; 8; 135; 64] ++ replicate 32 0 ++ [135; 0; 0; 0; 0; 0; 0; 0].
Lemma ipv6_mobility_hangs `{HostEndian} fuel ip conf : ipv6_parse fuel mobility_packet 0 48 ip conf = Err FFuel.
Proof.
  unfold ipv6_parse. change (48 <? u32 (0 + 40)) with false. cbn iota. assert (at16 mobility_packet 0 4 = Ok 8) as -> by reflexivity. assert (rd_bytes mobility_packet (0 + 8) 16 = Ok (replicate 16 0)) as -> by reflexivity. assert (rd_bytes mobility_packet (0 + 24) 16 = Ok (replicate 16 0)) as -> by reflexivity. cbind. change (8 =? 0) with false. cbn iota.
  assert (at8 mobility_packet 0 6 = Ok 135) as -> by reflexivity. cbind. rewrite mobility_loops; [done|done|done|done|done|reflexivity|reflexivity].
Qed.
(** A fragment that announces more than was captured is copied from behind the frame. *)
Lemma fragment_copied_from_behind `{HostEndian} ip conf : ipv4_parse ([0x45; 0; 0; 60; 1; 2; 0x20; 0] ++ replicate 20 0) 0 28 ip conf = Err FOob.
Proof. reflexivity. Qed.
(** A datagram with less data than an IP header is refused. *)
Lemma short_datagram_refused `{HostEndian} ip conf : exists o, ipv4_parse ([0x45; 0; 0; 39; 1; 2; 0; 0; 64; 17] ++ replicate 29 0) 0 39 ip conf = Ok o /\ o_packet o = None.
Proof. eexists. split; reflexivity. Qed.
