(* ===== verification/DnsSum.v ===== *)
(** * DnsSum: the UDP checksum is the one of RFC 768

    The checksum that [compute_udp_checksum] computes from host-order loads, stored where
    [dns_prepare_forward] stores it, makes the one's complement sum of the datagram and its
    pseudo header, taken in network order, come out right on either kind of host. *)
From S2P Require Import Prelude DnsName DnsRtypes DnsFrag DnsNet.
Open Scope Z_scope.

(** The sum of the 16-bit words of some bytes, in network order and as the host loads them;
    a last single byte is followed by a zero. *)
Fixpoint be_sum (l : list Z) : Z := match l with [] => 0 | [a] => a * 256 | a :: b :: l => a * 256 + b + be_sum l end.
Fixpoint ne_sum `{HostEndian} (l : list Z) : Z := match l with [] => 0 | [a] => ld_ne [a; 0] | a :: b :: l => ld_ne [a; b] + ne_sum l end.

Section sum.
Context `{HostEndian}.
Definition unit_ : Z := if host_big then 1 else 256.
Lemma ld_ne2 a b : ld_ne [a; b] = if host_big then a * 256 + b else a + 256 * b.
Proof. unfold ld_ne. destruct host_big; cbn; lia. Qed.
(** Swapping the bytes of all words is a multiplication by 256. *)
Lemma ne_be_sum l : (65535 | unit_ * be_sum l - ne_sum l).
Proof.
  induction l as [l IH] using (induction_ltof1 _ length). unfold ltof in IH. destruct l as [|a [|b l]]; [by exists 0; cbn; lia| |].
  - cbn [be_sum ne_sum]. rewrite ld_ne2. unfold unit_. destruct host_big; [exists 0; lia|exists a; lia].
  - destruct (IH l) as [q Hq]; [cbn; lia|]. cbn [be_sum ne_sum]. rewrite ld_ne2. unfold unit_ in *. destruct host_big; [exists q; lia|exists (a + q); lia].
Qed.
Lemma unit_inv x : (65535 | unit_ * x) -> (65535 | x).
Proof. unfold unit_. destruct host_big; [by rewrite Z.mul_1_l|]. intros [q Hq]. exists (256 * q - x). lia. Qed.
Lemma ne_sum_app l1 l2 n : length l1 = (2 * n)%nat -> ne_sum (l1 ++ l2) = ne_sum l1 + ne_sum l2.
Proof.
  revert l1. induction n as [|n IH]; intros [|a [|b l1]] Hl; cbn in Hl; try lia; [done|]. cbn [app ne_sum]. rewrite IH by lia. lia.
Qed.
Lemma ne_sum_range l : bytes_ok l -> 0 <= ne_sum l <= 65535 * Z.of_nat ((length l + 1) / 2).
Proof.
  induction l as [l IH] using (induction_ltof1 _ length). unfold ltof in IH. intros Hb. destruct l as [|a [|b l]]; [done| |].
  - apply Forall_cons in Hb as [Ha _]. unfold is_u8 in Ha. cbn [ne_sum]. rewrite ld_ne2. change (length [a]) with 1%nat. change ((1 + 1) / 2)%nat with 1%nat. destruct host_big; lia.
  - apply Forall_cons in Hb as [Ha [Hb Hl]%Forall_cons]. unfold is_u8 in Ha, Hb. cbn [ne_sum]. rewrite ld_ne2. specialize (IH l ltac:(cbn; lia) Hl). change (length (a :: b :: l) + 1)%nat with (1 * 2 + (length l + 1))%nat. rewrite Nat.div_add_l by lia. destruct host_big; lia.
Qed.

Lemma slice_bytes_ok packet a n : bytes_ok packet -> bytes_ok (take n (drop a packet)).
Proof. intros Hp. by apply Forall_take, Forall_drop. Qed.

Lemma sum16_ok packet n : bytes_ok packet -> forall pos sum, 0 <= pos -> pos + 2 * Z.of_nat n <= Z.of_nat (length packet) -> 0 <= sum -> sum + 65535 * Z.of_nat n < 2 ^ 32 ->
  sum16 n packet pos sum = Ok (sum + ne_sum (take (2 * n) (drop (Z.to_nat pos) packet))).
Proof.
  intros Hp. induction n as [|n IH]; intros pos sum H0 H1 Hs Hb; [cbn [sum16]; rewrite Nat.mul_0_r, take_0; cbn [ne_sum]; by rewrite Z.add_0_r|]. cbn [sum16]. rewrite rd_bytes_slice by lia. cbind. set (l := drop (Z.to_nat pos) packet). assert (Hl : (2 + 2 * n <= length l)%nat) by (unfold l; rewrite length_drop; lia).
  assert (Hlb : bytes_ok l) by (by apply Forall_drop). assert (Hdl : drop (Z.to_nat (pos + 2)) packet = drop 2 l) by (unfold l; rewrite drop_drop; f_equal; lia). clearbody l. destruct l as [|a [|b l]]; [cbn in Hl; lia|cbn in Hl; lia|]. cbn [take].
  apply Forall_cons in Hlb as [Ha [Hbb _]%Forall_cons]. unfold is_u8 in Ha, Hbb. assert (Hr : 0 <= ld_ne [a; b] <= 65535) by (rewrite ld_ne2; destruct host_big; lia).
  rewrite take_0, u32_id by (unfold is_u32; lia). rewrite IH, Hdl by lia. cbn [drop]. replace (2 * S n)%nat with (S (S (2 * n))) by lia. cbn [take ne_sum]. by rewrite Z.add_assoc.
Qed.

(** The odd byte at the end: the byte behind it is loaded and masked away. *)
Lemma odd_byte a x : is_u8 a -> is_u8 x -> Z.land (ld_ne [a; x]) (htons 0xff00) = ld_ne [a; 0].
Proof.
  intros Ha Hx. unfold htons. change (0xff00 / 256) with 255. change (0xff00 mod 256) with 0. rewrite !ld_ne2. apply Z.eqb_eq. revert a x Ha Hx. destruct host_big.
  - apply (byte_forall2 (fun a x => Z.land (a * 256 + x) (255 * 256 + 0) =? a * 256 + 0)). vm_compute. done.
  - apply (byte_forall2 (fun a x => Z.land (a + 256 * x) (255 + 256 * 0) =? a + 256 * 0)). vm_compute. done.
Qed.

(** Folding keeps the sum modulo 65535, and is 0 only for 0. *)
Lemma fold_step s : 0 <= s -> Z.land s 0xffff + Z.shiftr s 16 = s - 65535 * (s / 65536) /\ Z.shiftr s 16 = s / 65536.
Proof. intros Hs. replace (Z.land s 0xffff) with (s mod 2 ^ 16) by (symmetry; apply (Z.land_ones s 16); lia). rewrite Z.shiftr_div_pow2 by lia. change (2 ^ 16) with 65536. pose proof (Z.div_mod s 65536). lia. Qed.
Lemma fold16_ok s : 0 <= s < 2 ^ 32 -> exists f, fold16 FOLDS s = Ok f /\ 0 <= f < 65536 /\ (65535 | s - f) /\ (f = 0 -> s = 0).
Proof.
  assert (Hgen : forall n s, 0 <= s -> s < 65536 -> (0 < n)%nat -> fold16 n s = Ok s).
  { intros [|n] s' H0 H1 Hn; [lia|]. cbn [fold16]. rewrite (proj2 (fold_step s' H0)), Z.div_small by lia. done. }
  assert (Hst : forall n s, 0 <= s < 2 ^ 32 -> s / 65536 <> 0 -> fold16 (S n) s = fold16 n (s - 65535 * (s / 65536))).
  { intros n s' H0 H1. cbn [fold16]. pose proof (fold_step s' ltac:(lia)) as [E1 E2]. rewrite E2 in E1. rewrite E2, (proj2 (Z.eqb_neq _ _)) by done. rewrite E1, u32_id; [done|]. unfold is_u32. pose proof (Z.div_mod s' 65536). pose proof (Z.mod_pos_bound s' 65536). lia. }
  intros Hs. unfold FOLDS. destruct (decide (s / 65536 = 0)) as [E|E]. { exists s. assert (s < 65536) by (pose proof (Z.div_mod s 65536); pose proof (Z.mod_pos_bound s 65536); lia). split_and!; [apply Hgen; lia|lia|lia|exists 0; lia|done]. }
  pose proof (Z.div_mod s 65536). pose proof (Z.mod_pos_bound s 65536). rewrite Hst by done. set (q := s / 65536) in *. set (s1 := s - 65535 * q) in *. assert (Hs1 : 0 < s1 <= 65535 + 65535) by lia.
  destruct (decide (s1 / 65536 = 0)) as [E1|E1]. { exists s1. pose proof (Z.div_mod s1 65536). pose proof (Z.mod_pos_bound s1 65536). split_and!; [apply Hgen; lia|lia|lia|exists q; lia|lia]. }
  pose proof (Z.div_mod s1 65536). pose proof (Z.mod_pos_bound s1 65536). rewrite Hst by (done || lia). set (q1 := s1 / 65536) in *. exists (s1 - 65535 * q1). split_and!; [apply Hgen; lia|lia|lia|exists (q + q1); lia|lia].
Qed.
End sum.

(** ** The datagram *)
Definition addrs_ok (ip : ip_info) : Prop :=
  bytes_ok (addr (ip_src ip)) /\ bytes_ok (addr (ip_dst ip)) /\
  (vers (ip_src ip) = 4 /\ length (addr (ip_src ip)) = 4%nat /\ length (addr (ip_dst ip)) = 4%nat \/
   vers (ip_src ip) = 6 /\ length (addr (ip_src ip)) = 16%nat /\ length (addr (ip_dst ip)) = 16%nat).
(** What [udp_parse] leaves, and the datagram is in the packet. *)
Definition udp_ok (packet : list Z) (udp : transport_info) : Prop :=
  0 <= tpt_header_pos udp /\ 8 <= tpt_length udp < 2 ^ 16 /\ udp_csum_ptr udp = tpt_header_pos udp + 6 /\ tpt_header_pos udp + tpt_length udp + tpt_length udp mod 2 <= Z.of_nat (length packet).
Definition pseudo_header (ip : ip_info) (udp : transport_info) : list Z :=
  addr (ip_src ip) ++ addr (ip_dst ip) ++ [0; 17] ++ [tpt_length udp / 256; tpt_length udp mod 256].
Definition datagram (packet : list Z) (udp : transport_info) : list Z := take (Z.to_nat (tpt_length udp)) (drop (Z.to_nat (tpt_header_pos udp)) packet).

Section valid.
Context `{HostEndian}.
Lemma halves_sum a b c d : bytes_ok [a; b; c; d] -> let x := ld_ne [a; b; c; d] in Z.land (Z.shiftr x 16) 0xffff + Z.land x 0xffff = ne_sum [a; b; c; d].
Proof.
  intros Hb. repeat (apply Forall_cons in Hb as [? Hb]). unfold is_u8 in *. cbn zeta. cbn [ne_sum]. rewrite !ld_ne2.
  assert (Hl : forall x, 0 <= x -> Z.land x 0xffff = x mod 65536) by (intros; apply (Z.land_ones _ 16); lia). set (x := ld_ne [a; b; c; d]).
  assert (Hx : x = if host_big then (a * 256 + b) * 65536 + (c * 256 + d) else (c + 256 * d) * 65536 + (a + 256 * b)) by (unfold x, ld_ne; destruct host_big; cbn; lia). assert (0 <= x) by (rewrite Hx; destruct host_big; lia).
  rewrite Z.shiftr_div_pow2 by lia. change (2 ^ 16) with 65536. rewrite !Hl by (apply Z.div_pos || lia; lia).
  assert (Hsp : forall u v, 0 <= u < 65536 -> 0 <= v < 65536 -> (u * 65536 + v) / 65536 mod 65536 + (u * 65536 + v) mod 65536 = u + v).
  { intros u v Hu Hv. rewrite Z.div_add_l, (Z.div_small v), Z.add_0_r, (Z.mod_small u) by lia. rewrite (Z.add_comm (u * 65536)), Z.mod_add, (Z.mod_small v) by lia. done. }
  rewrite Hx. destruct host_big; rewrite Hsp by lia; lia.
Qed.
Lemma htons_sum x : 0 <= x < 65536 -> htons x = ne_sum [x / 256; x mod 256] /\ 0 <= htons x <= 65535.
Proof. intros Hx. pose proof (Z.div_mod x 256). pose proof (Z.mod_pos_bound x 256). unfold htons. cbn [ne_sum]. rewrite ld_ne2. destruct host_big; lia. Qed.

Lemma pseudo_ok packet ip udp : addrs_ok ip -> udp_ok packet udp ->
  exists packet0, compute_pseudo_iph_checksum packet ip udp = Ok (ne_sum (pseudo_header ip udp), packet0) /\ wr_bytes packet (udp_csum_ptr udp) [0; 0] = Ok packet0 /\ 0 <= ne_sum (pseudo_header ip udp) <= 65535 * 18.
Proof.
  intros (Hs & Hd & Hv) (H0 & Hlen & Hptr & Hin). pose proof (Z.mod_pos_bound (tpt_length udp) 2 ltac:(lia)). destruct (htons_sum (tpt_length udp) ltac:(lia)) as [El Rl]. destruct (htons_sum UDP ltac:(done)) as [Eu Ru].
  assert (Hw : exists p0, wr_bytes packet (udp_csum_ptr udp) [0; 0] = Ok p0) by (unfold wr_bytes; rewrite Hptr; cbn [length]; destruct ((0 <=? _) && _) eqn:E; [eauto|exfalso; clear - E H0 Hlen Hin H1; apply andb_false_iff in E as [E|E]; zbool; lia]). destruct Hw as [p0 Hw]. exists p0. unfold compute_pseudo_iph_checksum. rewrite Hw.
  assert (Hsum : ne_sum (pseudo_header ip udp) = ne_sum (addr (ip_src ip)) + ne_sum (addr (ip_dst ip)) + htons UDP + htons (tpt_length udp)).
  { unfold pseudo_header. destruct Hv as [(_ & L1 & L2)|(_ & L1 & L2)]; rewrite (ne_sum_app _ _ (length (addr (ip_src ip)) / 2)), (ne_sum_app _ _ (length (addr (ip_dst ip)) / 2)), (ne_sum_app [0; 17] _ 1) by (rewrite ?L1, ?L2; done); rewrite El, Eu; change (UDP / 256) with 0; change (UDP mod 256) with 17; lia. }
  pose proof (ne_sum_range _ Hs) as R1. pose proof (ne_sum_range _ Hd) as R2. destruct Hv as [(V & L1 & L2)|(V & L1 & L2)]; rewrite V, L1, L2 in *.
  - change ((4 + 1) / 2)%nat with 2%nat in *. split_and!; [|done|lia|lia]. change (4 =? 4) with true. cbn iota.
    destruct (addr (ip_src ip)) as [|a1 [|a2 [|a3 [|a4 [|]]]]]; try done. destruct (addr (ip_dst ip)) as [|b1 [|b2 [|b3 [|b4 [|]]]]]; try done.
    pose proof (halves_sum _ _ _ _ Hs) as E1. pose proof (halves_sum _ _ _ _ Hd) as E2. cbn zeta in E1, E2. revert E1 E2. set (x := ld_ne [a1; a2; a3; a4]). set (y := ld_ne [b1; b2; b3; b4]). intros E1 E2.
    assert (Hland : forall z, 0 <= Z.land z 0xffff <= 65535) by (intros z; replace (Z.land z 0xffff) with (z mod 2 ^ 16) by (symmetry; apply (Z.land_ones z 16); lia); pose proof (Z.mod_pos_bound z (2 ^ 16)); lia).
    pose proof (Hland (Z.shiftr x 16)). pose proof (Hland x). pose proof (Hland (Z.shiftr y 16)). pose proof (Hland y). cbind. repeat in_u32. do 2 f_equal. lia.
  - change ((16 + 1) / 2)%nat with 8%nat in *. split_and!; [|done|lia|lia]. change (6 =? 4) with false. cbn iota. rewrite sum16_ok by (done || lia). cbind. rewrite !take_ge, !drop_0 by (rewrite ?length_drop; lia).
    rewrite sum16_ok by (done || lia). cbind. rewrite !take_ge, !drop_0 by (rewrite ?length_drop; lia). repeat in_u32. do 2 f_equal. lia.
Qed.

(** The datagram after two bytes were stored in its checksum field. *)
Definition around (packet : list Z) (udp : transport_info) (bs : list Z) : list Z :=
  take 6 (drop (Z.to_nat (tpt_header_pos udp)) packet) ++ bs ++ take (Z.to_nat (tpt_length udp) - 8) (drop (Z.to_nat (tpt_header_pos udp) + 8) packet).
Lemma datagram_store packet udp bs packet' : udp_ok packet udp -> length bs = 2%nat -> wr_bytes packet (udp_csum_ptr udp) bs = Ok packet' ->
  datagram packet' udp = around packet udp bs /\ length packet' = length packet /\ forall bs', length bs' = 2%nat -> around packet' udp bs' = around packet udp bs'.
Proof.
  intros (H0 & Hlen & Hptr & Hin) Hbs Hw. pose proof (Z.mod_pos_bound (tpt_length udp) 2 ltac:(lia)). unfold wr_bytes in Hw. rewrite Hptr, Hbs in Hw. destruct (_ && _); [|done]. injection Hw as <-.
  unfold datagram, around. set (h := Z.to_nat (tpt_header_pos udp)). replace (Z.to_nat (tpt_header_pos udp + 6)) with (h + 6)%nat by lia. set (n := Z.to_nat (tpt_length udp)). set (A := take (h + 6) packet). set (B := drop (h + 6 + 2) packet).
  assert (LA : length A = (h + 6)%nat) by (unfold A; rewrite length_take; lia). assert (LB : length B = (length packet - (h + 8))%nat) by (unfold B; rewrite length_drop; lia).
  assert (Hd8 : drop (h + 8) (A ++ bs ++ B) = B) by (rewrite app_assoc; replace (h + 8)%nat with (length (A ++ bs)) by (rewrite length_app; lia); apply drop_app_length). replace (h + 8)%nat with (h + 6 + 2)%nat in * by lia. fold B.
  assert (Hd : drop h (A ++ bs ++ B) = take 6 (drop h packet) ++ bs ++ B) by (rewrite drop_app_le by lia; f_equal; unfold A; rewrite skipn_firstn_comm; f_equal; lia).
  assert (L6 : length (take 6 (drop h packet)) = 6%nat) by (rewrite length_take, length_drop; lia). split_and!.
  - rewrite Hd. rewrite take_app_ge by lia. rewrite L6. f_equal. rewrite take_app_ge by lia. rewrite Hbs. do 2 f_equal. lia.
  - rewrite !length_app. lia.
  - intros bs' Hbs'. rewrite Hd, Hd8. f_equal. rewrite take_app_le by lia. apply take_ge. lia.
Qed.
Lemma around_sum packet udp bs : udp_ok packet udp -> length bs = 2%nat -> ne_sum (around packet udp bs) = ne_sum (around packet udp [0; 0]) + ne_sum bs.
Proof.
  intros (H0 & Hlen & Hptr & Hin) Hbs. pose proof (Z.mod_pos_bound (tpt_length udp) 2 ltac:(lia)). unfold around. assert (L6 : length (take 6 (drop (Z.to_nat (tpt_header_pos udp)) packet)) = (2 * 3)%nat) by (rewrite length_take, length_drop; lia).
  rewrite (ne_sum_app _ (bs ++ _) 3), (ne_sum_app _ ([0; 0] ++ _) 3) by done. rewrite (ne_sum_app bs _ 1), (ne_sum_app [0; 0] _ 1) by done. assert (ne_sum [0; 0] = 0) as -> by (cbn [ne_sum]; rewrite ld_ne2; destruct host_big; lia). lia.
Qed.
Lemma st_ne_sum c : 0 <= c < 65536 -> ne_sum (st_ne16 c) = c /\ length (st_ne16 c) = 2%nat.
Proof. intros Hc. pose proof (Z.div_mod c 256). unfold st_ne16. destruct host_big eqn:E; cbn [ne_sum]; rewrite ld_ne2, E; split; (done || lia). Qed.

(** The loops over the datagram. *)
Lemma datagram_sum packet udp s : bytes_ok packet -> udp_ok packet udp -> 0 <= s <= 65535 * 18 ->
  (sum ← sum16 (Z.to_nat (tpt_length udp / 2)) packet (tpt_header_pos udp) s;
   if 0 <? tpt_length udp mod 2 then bs ← rd_bytes packet (tpt_header_pos udp + 2 * (tpt_length udp / 2)) 2; Ok (u32 (sum + Z.land (ld_ne bs) (htons 0xff00))) else Ok sum) = Ok (s + ne_sum (datagram packet udp)) /\
  0 <= s + ne_sum (datagram packet udp) < 2 ^ 32.
Proof.
  intros Hb (H0 & Hlen & Hptr & Hin) Hs. unfold datagram. set (h := tpt_header_pos udp) in *. set (n := tpt_length udp) in *. pose proof (Z.mod_pos_bound n 2 ltac:(lia)). pose proof (Z.div_mod n 2 ltac:(lia)). set (q := n / 2) in *.
  pose proof (ne_sum_range (take (Z.to_nat n) (drop (Z.to_nat h) packet)) (slice_bytes_ok _ _ _ Hb)) as Hr. assert (Ln : length (take (Z.to_nat n) (drop (Z.to_nat h) packet)) = Z.to_nat n) by (rewrite length_take, length_drop; lia). rewrite Ln in Hr.
  assert (Hq : ((Z.to_nat n + 1) / 2 <= Z.to_nat q + 1)%nat) by (apply Nat.Div0.div_le_upper_bound; lia). split; [|lia].
  rewrite sum16_ok by (done || lia). cbind. pose proof (ne_sum_range (take (2 * Z.to_nat q) (drop (Z.to_nat h) packet)) (slice_bytes_ok _ _ _ Hb)) as Hr2.
  assert (L2 : length (take (2 * Z.to_nat q) (drop (Z.to_nat h) packet)) = (2 * Z.to_nat q)%nat) by (rewrite length_take, length_drop; lia). rewrite L2 in Hr2. assert (Hq2 : ((2 * Z.to_nat q + 1) / 2 <= Z.to_nat q + 1)%nat) by (apply Nat.Div0.div_le_upper_bound; lia).
  destruct (Z.ltb_spec 0 (n mod 2)) as [Hodd|Heven].
  - rewrite rd_bytes_slice by lia. cbind. replace (Z.to_nat n) with (2 * Z.to_nat q + 1)%nat by lia. set (l := drop (Z.to_nat h) packet) in *. assert (Hlen' : (2 * Z.to_nat q + 2 <= length l)%nat) by (unfold l; rewrite length_drop; lia).
    replace (drop (Z.to_nat (h + 2 * q)) packet) with (drop (2 * Z.to_nat q) l) by (unfold l; rewrite drop_drop; f_equal; lia). assert (Hlb : bytes_ok l) by (by apply Forall_drop).
    rewrite <- (take_drop (2 * Z.to_nat q) l) at 3. rewrite take_app_ge by (rewrite length_take; lia). rewrite length_take, Nat.min_l, (Nat.add_comm _ 1), Nat.add_sub by lia. rewrite (ne_sum_app _ _ (Z.to_nat q)) by (rewrite length_take; lia).
    assert (Hdl : (2 <= length (drop (2 * Z.to_nat q) l))%nat) by (rewrite length_drop; lia). assert (Hdb : bytes_ok (drop (2 * Z.to_nat q) l)) by (by apply Forall_drop). destruct (drop (2 * Z.to_nat q) l) as [|a [|x l']]; [cbn in Hdl; lia|cbn in Hdl; lia|].
    apply Forall_cons in Hdb as [Ha [Hx _]%Forall_cons]. cbn [take]. rewrite !take_0, odd_byte by done. cbn [ne_sum]. assert (0 <= ld_ne [a; 0] <= 65535) by (unfold is_u8 in *; rewrite ld_ne2; destruct host_big; lia). rewrite u32_id by (unfold is_u32; lia). f_equal. lia.
  - replace (Z.to_nat n) with (2 * Z.to_nat q)%nat by lia. done.
Qed.
End valid.

(** Two stores of the same length at the same place: the second one counts. *)
Lemma store_twice packet pos bs0 bs packet0 packet' : length bs0 = length bs ->
  wr_bytes packet pos bs0 = Ok packet0 -> wr_bytes packet0 pos bs = Ok packet' ->
  packet' = take (Z.to_nat pos) packet ++ bs ++ drop (Z.to_nat pos + length bs) packet.
Proof.
  intros El H0 H1. unfold wr_bytes in *. destruct (_ && _) eqn:E in H0; [|done]. injection H0 as <-. destruct (_ && _) in H1; [|done]. injection H1 as <-. zbool.
  assert (L : length (take (Z.to_nat pos) packet) = Z.to_nat pos) by (rewrite length_take; lia). f_equal; [|f_equal].
  - rewrite take_app_le, take_ge by lia. done.
  - rewrite app_assoc, <- El. rewrite <- L at 1. rewrite <- length_app. by rewrite drop_app_length.
Qed.

(** C34: The checksum that is stored before a packet is forwarded.  The packet holds the
    datagram that [udp_parse] found (8 to 65535 bytes, its checksum field 6 bytes in, and for
    an odd length one more byte behind it, which the code loads), with IPv4 or IPv6 addresses.
    Then the store succeeds, every byte of the packet outside the two of the checksum field
    is as before, the field never holds the zero that means "no checksum", and the
    one's complement sum in network order of pseudo header and datagram is then 0 modulo
    65535, which is what a receiver checks; for IPv4 and IPv6, for even and odd lengths, and
    for hosts of either byte order. *)
Theorem udp_checksum_valid `{HostEndian} packet ip udp : bytes_ok packet -> addrs_ok ip -> udp_ok packet udp ->
  exists packet' c, dns_store_checksum packet ip udp = Ok packet' /\
    packet' = take (Z.to_nat (tpt_header_pos udp + 6)) packet ++ st_ne16 c ++ drop (Z.to_nat (tpt_header_pos udp + 6) + 2) packet /\ 0 < c < 65536 /\
    (65535 | be_sum (pseudo_header ip udp ++ datagram packet' udp)).
Proof.
  intros Hb Ha Hu. destruct (pseudo_ok packet ip udp Ha Hu) as (p0 & Ep & Hw & Hps). destruct (datagram_store packet udp [0; 0] p0 Hu eq_refl Hw) as (Hd0 & Hl0 & Har).
  assert (Hu0 : udp_ok p0 udp) by (unfold udp_ok in *; by rewrite Hl0).
  assert (Hb0 : bytes_ok p0). { unfold wr_bytes in Hw. destruct (_ && _); [|done]. injection Hw as <-. apply Forall_app. split; [by apply Forall_take|]. do 2 (apply Forall_cons; split; [unfold is_u8; lia|]). by apply Forall_drop. }
  destruct (datagram_sum p0 udp _ Hb0 Hu0 Hps) as [Es Rs]. unfold dns_store_checksum, compute_udp_checksum. rewrite Ep. cbind. set (S := ne_sum (pseudo_header ip udp) + ne_sum (datagram p0 udp)) in *.
  destruct (sum16 _ p0 _ _) as [s1|] eqn:E1; [|done]. revert Es. cbind. intros ->. cbind. destruct (fold16_ok S Rs) as (f & -> & Hf & [q Hq] & Hf0). cbind.
  assert (Hnot : u16 (Z.lnot f) = 65535 - f) by (unfold u16, Z.lnot; rewrite <- (Z.mod_add _ 1), Z.mod_small; lia). rewrite Hnot. set (c := if 65535 - f =? 0 then 65535 else 65535 - f).
  assert (Hc : 0 < c < 65536 /\ (65535 | c + f)) by (unfold c; destruct (Z.eqb_spec (65535 - f) 0); (split; [lia|]); [exists 2; lia|exists 1; lia]). destruct Hc as [Hc [q2 Hq2]].
  destruct (st_ne_sum c ltac:(lia)) as [Hsn Hsl].
  assert (Hw' : exists p', wr_bytes p0 (udp_csum_ptr udp) (st_ne16 c) = Ok p'). { unfold wr_bytes. rewrite Hsl. destruct Hu0 as (H0 & Hlen & -> & Hin). pose proof (Z.mod_pos_bound (tpt_length udp) 2 ltac:(lia)). destruct (_ && _) eqn:E; [eauto|]. exfalso. apply andb_false_iff in E as [E|E]; zbool; lia. }
  destruct Hw' as [p' Hw']. destruct (datagram_store p0 udp (st_ne16 c) p' Hu0 Hsl Hw') as (Hd' & Hl' & _). rewrite Har in Hd' by done. exists p', c.
  assert (Hp' : p' = take (Z.to_nat (tpt_header_pos udp + 6)) packet ++ st_ne16 c ++ drop (Z.to_nat (tpt_header_pos udp + 6) + 2) packet) by (destruct Hu as (_ & _ & Hptr & _); rewrite <- Hptr, <- Hsl; apply (store_twice _ _ [0; 0] _ p0); done).
  split_and!; [done|exact Hp'|lia|lia|]. clear Hp'.
  assert (Hps' : exists n, length (pseudo_header ip udp) = (2 * n)%nat) by (destruct Ha as (_ & _ & [(_ & L1 & L2)|(_ & L1 & L2)]); unfold pseudo_header; rewrite !length_app, L1, L2; [by exists 6%nat|by exists 18%nat]). destruct Hps' as [n Hn].
  apply unit_inv. destruct (ne_be_sum (pseudo_header ip udp ++ datagram p' udp)) as [q3 Hq3]. exists (q3 + q + q2). enough (ne_sum (pseudo_header ip udp ++ datagram p' udp) = S + c) by lia.
  rewrite (ne_sum_app _ _ n Hn), Hd', (around_sum _ _ _ Hu Hsl), Hsn, <- Hd0. unfold S. lia.
Qed.

(** A datagram with three bytes of data, on a little-endian host. *)
Lemma udp_checksum_valid_witness : exists packet' c, @dns_store_checksum false [0; 53; 0; 53; 0; 11; 7; 7; 1; 2; 3; 99] (mk_ip 0 (mk_addr 4 [10; 0; 0; 1]) (mk_addr 4 [10; 0; 0; 2]) 0 17) (mk_tpt 0 53 53 11 17 0 6) = Ok packet' /\
  packet' = [0; 53; 0; 53; 0; 11] ++ @st_ne16 false c ++ [1; 2; 3; 99] /\ 0 < c < 65536 /\
  (65535 | be_sum (pseudo_header (mk_ip 0 (mk_addr 4 [10; 0; 0; 1]) (mk_addr 4 [10; 0; 0; 2]) 0 17) (mk_tpt 0 53 53 11 17 0 6) ++ datagram packet' (mk_tpt 0 53 53 11 17 0 6))).
Proof.
  refine (@udp_checksum_valid false [0; 53; 0; 53; 0; 11; 7; 7; 1; 2; 3; 99] (mk_ip 0 (mk_addr 4 [10; 0; 0; 1]) (mk_addr 4 [10; 0; 0; 2]) 0 17) (mk_tpt 0 53 53 11 17 0 6) _ _ _).
  - apply (bool_decide_unpack _). vm_compute. exact I.
  - split_and!; [apply (bool_decide_unpack _); vm_compute; exact I|apply (bool_decide_unpack _); vm_compute; exact I|by left].
  - unfold udp_ok. cbn [tpt_header_pos tpt_length udp_csum_ptr length]. change (11 mod 2) with 1. lia.
Defined.
