(* ===== verification/DnsReceive.v ===== *)
(** * DnsReceive: frames to messages

    DNS messages in UDP over IPv4 over Ethernet, in one frame or cut into IP fragments, and
    what [dns_handler] makes of the frames: the composition of [DnsNet], [DnsFrag] and
    [DnsParse], proved for the encoding of [DnsWire]. *)
From S2P Require Import Prelude CString DnsName DnsRtypes DnsParse DnsFrag DnsNet DnsSum DnsWire.
Open Scope Z_scope.

(** ** Frames *)
(** The fixed fields of a flow: hardware addresses, IP addresses, identifier, and the bytes
    that are not looked at. *)
Record flow := mk_flow { fl_dmac : list Z; fl_smac : list Z; fl_src : list Z; fl_dst : list Z; fl_id : list Z; fl_tos : Z; fl_ttl : Z; fl_csum : list Z }.
Definition flow_ok (f : flow) : Prop := length (fl_dmac f) = 6%nat /\ length (fl_smac f) = 6%nat /\ length (fl_src f) = 4%nat /\ length (fl_dst f) = 4%nat /\ length (fl_id f) = 2%nat /\ length (fl_csum f) = 2%nat.
(** [b6] and [b7] hold the fragment flags and the offset. *)
Definition ip4_head (f : flow) (n b6 b7 : Z) : list Z :=
  [0x45; fl_tos f] ++ wire16 (20 + n) ++ fl_id f ++ [b6; b7] ++ [fl_ttl f; 17] ++ fl_csum f ++ fl_src f ++ fl_dst f.
Definition frame_head (f : flow) (n b6 b7 : Z) : list Z := fl_dmac f ++ fl_smac f ++ [8; 0] ++ ip4_head f n b6 b7.
Definition ip4_frame (f : flow) (b6 b7 : Z) (payload rest : list Z) : list Z := frame_head f (Z.of_nat (length payload)) b6 b7 ++ payload ++ rest.
Definition udp_head (sp dp n ck : Z) : list Z := wire16 sp ++ wire16 dp ++ wire16 n ++ wire16 ck.

Lemma holds_drop packet n l j : holds_at packet n l -> holds_at packet (n + j) (drop j l).
Proof. intros H i b Hi. rewrite lookup_drop in Hi. rewrite <- Nat.add_assoc. by apply H. Qed.
Lemma holds_rd_bytes packet n bs rest k : holds_at packet n (bs ++ rest) -> k = length bs -> (n + k <= length packet)%nat -> rd_bytes packet (Z.of_nat n) k = Ok bs.
Proof. intros H -> Hl. apply holds_app in H as [H _]. rewrite rd_bytes_slice by lia. rewrite Nat2Z.id. by rewrite holds_slice. Qed.

Lemma frame_head_length f n b6 b7 : flow_ok f -> length (frame_head f n b6 b7) = 34%nat.
Proof. intros (H1 & H2 & H3 & H4 & H5 & H6). unfold frame_head, ip4_head. rewrite !length_app, H1, H2, H3, H4, H5, H6. done. Qed.

Section frame.
Context `{HostEndian} (f : flow) (b6 b7 : Z) (payload rest : list Z).
Notation F := (ip4_frame f b6 b7 payload rest).
Hypotheses (Hf : flow_ok f) (HF : bytes_ok F) (Hbig : Z.of_nat (length F) < 2 ^ 28).
Hypotheses (Hmin : (20 <= length payload)%nat) (Hmax : Z.of_nat (length payload) < 65516).
Definition flow_ip (l : Z) : ip_info := mk_ip 14 (mk_addr 4 (fl_src f)) (mk_addr 4 (fl_dst f)) l 17.

#[local] Lemma F_length : length F = (34 + length payload + length rest)%nat.
Proof. unfold ip4_frame. rewrite !length_app, frame_head_length by done. lia. Qed.
#[local] Lemma F_holds : holds_at F 0 (fl_dmac f ++ fl_smac f ++ [8; 0] ++ [0x45; fl_tos f] ++ wire16 (20 + Z.of_nat (length payload)) ++ fl_id f ++ [b6; b7] ++ [fl_ttl f; 17] ++ fl_csum f ++ fl_src f ++ fl_dst f ++ payload ++ rest).
Proof. intros i b Hi. cbn [Nat.add]. rewrite <- Hi. unfold ip4_frame, frame_head, ip4_head. by rewrite <- !app_assoc. Qed.

Lemma eth_parse_frame len eth : 14 <= len -> eth_parse F len eth false = Ok (14, mk_eth (fl_dmac f) (fl_smac f) 0x0800).
Proof.
  intros Hlen. unfold eth_parse. rewrite (proj2 (Z.ltb_ge len 14)) by done. pose proof F_length as HL. pose proof F_holds as H0. destruct Hf as (L1 & L2 & _).
  change (rd_bytes F 0 6) with (rd_bytes F (Z.of_nat 0) 6). rewrite (holds_rd_bytes F 0 _ _ 6 H0) by (done || lia). cbind. pose proof (holds_drop _ _ _ 6 H0) as H6. rewrite <- L1, drop_app_length, L1 in H6. change (rd_bytes F 6 6) with (rd_bytes F (Z.of_nat 6) 6). rewrite (holds_rd_bytes F 6 _ _ 6 H6) by (done || lia). cbind.
  pose proof (holds_drop _ _ _ 6 H6) as H12. rewrite <- L2, drop_app_length, L2 in H12. cbn [app Nat.add] in H12. rewrite (holds_at8 F Hbig 12 12 0 8 _ H12) by lia. cbind. change (8 =? 0x81) with false. cbn iota. cbind.
  rewrite (holds_at16 F Hbig 12 12 0 0x0800 _ H12) by done. done.
Qed.

(** What IPv4 parsing computes, before fragments are told apart. *)
Definition frag_off : Z := u16 (Z.shiftl (Z.land b6 0x1f) 11 + Z.shiftl b7 3).
Definition more_frags : bool := Z.shiftr (Z.land b6 0x20) 5 =? 1.
Definition last_frag : bool := Z.shiftr (Z.land b6 0x20) 5 =? 0.
Lemma ipv4_parse_frame len ip conf : 34 <= len < 2 ^ 28 -> ipv4_parse F 14 len ip conf =
  if more_frags || negb (frag_off =? 0) then
    frag_result len (flow_ip (Z.of_nat (length payload))) (mk_frag (ld_ne (fl_id f)) (mk_addr 4 (fl_src f)) (mk_addr 4 (fl_dst f)) frag_off (u32 (frag_off + Z.of_nat (length payload))) payload last_frag) conf
  else Ok (mk_out 34 (Some F) len (flow_ip (Z.of_nat (length payload))) conf).
Proof.
  intros Hlen. unfold ipv4_parse. rewrite (u32_id (len - 14)) by (unfold is_u32; lia). rewrite (proj2 (Z.ltb_ge _ 20)) by lia. pose proof F_length as HL. pose proof F_holds as H0.
  destruct Hf as (L1 & L2 & L3 & L4 & L5 & L6). set (n := Z.of_nat (length payload)) in *. destruct (fl_dmac f) as [|d1 [|d2 [|d3 [|d4 [|d5 [|d6 [|]]]]]]]; try done. destruct (fl_smac f) as [|s1 [|s2 [|s3 [|s4 [|s5 [|s6 [|]]]]]]]; try done. destruct (fl_id f) as [|i1 [|i2 [|]]] eqn:Ei; try done. destruct (fl_csum f) as [|c1 [|c2 [|]]]; try done.
  cbn [wire16 app] in H0. assert (Hat : forall j, holds_at F j (drop j (d1 :: d2 :: d3 :: d4 :: d5 :: d6 :: s1 :: s2 :: s3 :: s4 :: s5 :: s6 :: 8 :: 0 :: 69 :: fl_tos f :: (20 + n) / 256 :: (20 + n) mod 256 :: i1 :: i2 :: b6 :: b7 :: fl_ttl f :: 17 :: c1 :: c2 :: fl_src f ++ fl_dst f ++ payload ++ rest))) by (intros j; exact (holds_drop _ _ _ j H0)). clear H0.
  rewrite (holds_at8 F Hbig 14 14 0 69 _ (Hat 14%nat)) by lia. cbind. change (Z.land 69 0x0f) with 5. rewrite (holds_at8 F Hbig 16 14 2 _ _ (Hat 16%nat)) by lia. cbind. rewrite (holds_at8 F Hbig 17 14 3 _ _ (Hat 17%nat)) by lia. cbind.
  assert (El : u32 (Z.shiftl ((20 + n) / 256) 8 + (20 + n) mod 256 - 5 * 4) = n) by (rewrite Z.shiftl_mul_pow2 by lia; pose proof (Z.div_mod (20 + n) 256); rewrite u32_id by (unfold is_u32; lia); lia). rewrite El. rewrite (proj2 (Z.ltb_ge _ (5 * 4))) by lia.
  rewrite (holds_at8 F Hbig 23 14 9 _ _ (Hat 23%nat)) by lia. cbind. change (14 + 12) with (Z.of_nat 26). rewrite (holds_rd_bytes F 26 (fl_src f) _ 4 (Hat 26%nat)) by (done || lia). cbind.
  pose proof (Hat 26%nat) as H30. cbn [drop] in H30. apply holds_app in H30 as [_ H30]. rewrite L3 in H30. change (26 + 4)%nat with 30%nat in H30. change (14 + 16) with (Z.of_nat 30). rewrite (holds_rd_bytes F 30 (fl_dst f) _ 4 H30) by (done || lia). cbind.
  rewrite (holds_at8 F Hbig 20 14 6 _ _ (Hat 20%nat)) by lia. cbind. rewrite (holds_at8 F Hbig 21 14 7 _ _ (Hat 21%nat)) by lia. cbind. fold frag_off more_frags last_frag. destruct (more_frags || negb (frag_off =? 0)); [|done].
  change (14 + 4) with (Z.of_nat 18). rewrite (holds_rd_bytes F 18 [i1; i2] _ 2 (Hat 18%nat)) by (done || lia). cbind. apply holds_app in H30 as [_ H34]. rewrite L4 in H34. change (30 + 4)%nat with 34%nat in H34. apply holds_app in H34 as [H34 _].
  unfold copy_out. change (14 + 4 * 5) with (Z.of_nat 34). rewrite !(proj2 (Z.leb_le _ _)) by lia. cbn [andb]. cbind. unfold n. rewrite !Nat2Z.id, holds_slice by done. done.
Qed.
End frame.

(** ** From the datagram to the message *)
(** What a client sees of a message. *)
Definition dns_view (d : dns_info) := (dns_id d, dns_qr d, dns_queries d, rr_view <$> dns_answers d).
Definition wmsg_view (m : wmsg) := (m_id m, Z.shiftr (m_b2 m) 7, [mk_question (dots (m_q m)) (m_qtype m) (m_qcls m)], wrr_view (m_q m) <$> m_answers m).

Record ports := mk_ports { p_src : Z; p_dst : Z; p_csum : Z }.
Definition ports_ok (p : ports) : Prop := is_u16 (p_src p) /\ is_u16 (p_dst p) /\ is_u16 (p_csum p).
Definition wire_udp (p : ports) (m : wmsg) : list Z := udp_head (p_src p) (p_dst p) (8 + Z.of_nat (length (wire_msg m))) (p_csum p) ++ wire_msg m.

Lemma udp_parse_wire pre p m rest len udp : ports_ok p -> 8 + Z.of_nat (length (wire_msg m)) < 2 ^ 16 -> Z.of_nat (length (pre ++ wire_udp p m ++ rest)) < 2 ^ 28 -> (length (pre ++ wire_udp p m) <= len <= length (pre ++ wire_udp p m ++ rest))%nat ->
  exists udp', udp_parse (pre ++ wire_udp p m ++ rest) (Z.of_nat (length pre)) (Z.of_nat len) udp = Ok (Z.of_nat (length pre) + 8, udp').
Proof.
  intros (H1 & H2 & H3) Hs Hbig Hlen. assert (Hu : length (wire_udp p m) = (8 + length (wire_msg m))%nat) by (unfold wire_udp; rewrite length_app; done). pose proof (holds_middle pre (wire_udp p m) rest) as Hh. unfold wire_udp at 2 in Hh. unfold udp_head in Hh. rewrite <- !app_assoc in Hh.
  rewrite !length_app, Hu in Hlen. set (P := pre ++ wire_udp p m ++ rest) in *. set (n := length pre) in *. assert (HP : length P = (n + (8 + length (wire_msg m) + length rest))%nat) by (unfold P; rewrite !length_app, Hu; done). unfold udp_parse. rewrite (u32_id (_ - _)) by (unfold is_u32; lia). rewrite (proj2 (Z.ltb_ge _ 8)) by lia.
  assert (Hnext : forall n v bs, holds_at P n (wire16 v ++ bs) -> holds_at P (n + 2) bs) by (intros ? ? ? [_ ?]%holds_app; done).
  rewrite (holds_at16 P Hbig n (Z.of_nat n) 0 _ _ Hh H1) by lia. apply Hnext in Hh. cbind. rewrite (holds_at16 P Hbig _ (Z.of_nat n) 2 _ _ Hh H2) by lia. apply Hnext in Hh. cbind. rewrite (holds_at16 P Hbig _ (Z.of_nat n) 4 _ _ Hh) by (unfold is_u16; lia). apply Hnext in Hh. cbind.
  rewrite (holds_at16 P Hbig _ (Z.of_nat n) 6 _ _ Hh H3) by lia. cbind. eexists. rewrite (u32_id (Z.of_nat n + 8)) by (unfold is_u32; lia). done.
Qed.

Lemma dns_parse_udp pre p m rest len g dns ns ad force junk : wmsg_ok m -> bytes_ok (pre ++ wire_udp p m ++ rest) -> Z.of_nat (length (pre ++ wire_udp p m ++ rest)) < 2 ^ 28 -> rr_table_ok g -> (length (pre ++ wire_udp p m) <= len <= length (pre ++ wire_udp p m ++ rest))%nat ->
  exists d g', dns_parse g (pre ++ wire_udp p m ++ rest) (Z.of_nat (length pre) + 8) (Z.of_nat len) dns ns ad force junk = Ok (Z.of_nat (length (pre ++ wire_udp p m)), d, g') /\ dns_view d = wmsg_view m /\ rr_table_ok g'.
Proof.
  intros Hm Hb Hbig Hg Hlen. unfold wire_udp in *. set (h := udp_head _ _ _ _) in *. assert (Lh : length h = 8%nat) by done. rewrite <- !app_assoc in *. rewrite !(app_assoc pre h) in *.
  destruct (dns_parse_wire (pre ++ h) m rest len g dns ns ad force junk Hm Hb Hbig Hg Hlen) as (d & g' & E & V1 & V2 & V3 & V4 & Hg'). exists d, g'. replace (Z.of_nat (length pre) + 8) with (Z.of_nat (length (pre ++ h))) by (rewrite length_app; lia). split_and!; [done| |done]. unfold dns_view, wmsg_view. by rewrite V1, V2, V3, V4.
Qed.

(** ** Fragments of a datagram *)
(** The flag and offset bytes of a fragment at [o]. *)
Definition frag_b6 (o : Z) (last : bool) : Z := (if last then 0 else 0x20) + o / 8 / 256.
Definition frag_b7 (o : Z) : Z := o / 8 mod 256.
Lemma frag_bytes_ok o last : 0 <= o < 65536 -> o mod 8 = 0 ->
  frag_off (frag_b6 o last) (frag_b7 o) = o /\ more_frags (frag_b6 o last) = negb last /\ last_frag (frag_b6 o last) = last.
Proof.
  intros Ho Hm. assert (Hdec : o = 8 * (256 * (o / 8 / 256) + o / 8 mod 256)) by (pose proof (Z.div_mod o 8); pose proof (Z.div_mod (o / 8) 256); lia). unfold frag_b6, frag_b7. set (hi := o / 8 / 256) in *. set (lo := o / 8 mod 256) in *.
  assert (Hlo : is_u8 lo) by (apply Z.mod_pos_bound; lia). assert (Hhi : 0 <= hi < 32) by (unfold is_u8 in Hlo; lia).
  set (P := fun a b => negb (a <? 32) || ((frag_off a b =? 8 * (256 * a + b)) && (frag_off (0x20 + a) b =? 8 * (256 * a + b)) && negb (more_frags a) && more_frags (0x20 + a) && last_frag a && negb (last_frag (0x20 + a)))).
  assert (HP : P hi lo = true) by (apply byte_forall2; [vm_compute; done|unfold is_u8; lia|done]). unfold P in HP. rewrite (proj2 (Z.ltb_lt hi 32)) in HP by lia. cbn [negb orb] in HP. rewrite !andb_true_iff, !negb_true_iff, !Z.eqb_eq in HP. destruct HP as (((((E1 & E2) & E3) & E4) & E5) & E6).
  destruct last; cbn [negb]; [rewrite Z.add_0_l, E1, E3, E5|rewrite E2, E4, E6]; split_and!; done || lia.
Qed.

Section receive.
Context `{HostEndian} (f : flow) (p : ports) (m : wmsg) (ns ad : bool) (fuel : nat) (junk : nat -> nat -> dns_rr).
Hypotheses (Hf : flow_ok f) (Hp : ports_ok p) (Hm : wmsg_ok m) (Hsize : 8 + Z.of_nat (length (wire_msg m)) < 65516).
Notation handle F := (dns_handler_parse fuel F (Z.of_nat (length F)) false ns ad junk).
Notation U := (wire_udp p m).
Definition flow_key : Z * ip_addr * ip_addr := (ld_ne (fl_id f), mk_addr 4 (fl_src f), mk_addr 4 (fl_dst f)).

(** A datagram in one frame. *)
Lemma handle_whole rest s : bytes_ok (ip4_frame f 0 0 U rest) -> Z.of_nat (length (ip4_frame f 0 0 U rest)) < 2 ^ 28 -> rr_table_ok (s_rtypes s) ->
  exists r s', handle (ip4_frame f 0 0 U rest) s = Ok (Some r, s') /\ dns_view (rv_dns r) = wmsg_view m /\ rv_packet r = ip4_frame f 0 0 U rest /\ s_conf s' = s_conf s /\ rr_table_ok (s_rtypes s').
Proof.
  intros Hb Hbig Hg. set (F := ip4_frame f 0 0 U rest) in *. assert (LU : length U = (8 + length (wire_msg m))%nat) by (unfold wire_udp; rewrite length_app; done). assert (LF : length F = (34 + length U + length rest)%nat) by (unfold F, ip4_frame; rewrite !length_app, frame_head_length by done; lia).
  assert (HU : (20 <= length U)%nat). { rewrite LU. unfold wire_msg. rewrite !length_app. cbn [wire16 length]. lia. }
  unfold dns_handler_parse. rewrite (eth_parse_frame f 0 0 U rest Hf Hbig) by lia. cbind. change (14 =? 0) with false. cbn [ethtype]. change (0x0800 =? 0x0800) with true. cbn iota. rewrite (ipv4_parse_frame f 0 0 U rest) by (done || lia). change (more_frags 0 || negb (frag_off 0 0 =? 0)) with false. cbn iota. cbind.
  cbn [o_packet o_ip o_pos o_len o_conf flow_ip ip_proto s_udp s_rtypes s_conf s_ip]. change (negb (17 =? 17)) with false. cbn iota.
  assert (EF : F = frame_head f (Z.of_nat (length U)) 0 0 ++ U ++ rest) by done. assert (L34 : length (frame_head f (Z.of_nat (length U)) 0 0) = 34%nat) by (by apply frame_head_length).
  destruct (udp_parse_wire (frame_head f (Z.of_nat (length U)) 0 0) p m rest (length F) (s_udp s) Hp) as [udp' Eu]; [lia|by rewrite <- EF|rewrite <- EF, length_app; lia|]. rewrite <- EF, L34 in Eu. change (Z.of_nat 34) with 34 in Eu. fold F. rewrite Eu. cbind. change (34 + 8 =? 0) with false. cbn iota.
  destruct (dns_parse_udp (frame_head f (Z.of_nat (length U)) 0 0) p m rest (length F) (s_rtypes s) dns_zero ns ad false junk Hm) as (d & g' & Ed & Hv & Hg'); [by rewrite <- EF|by rewrite <- EF|done|rewrite <- EF, length_app; lia|]. rewrite <- EF, L34 in Ed. change (Z.of_nat 34) with 34 in Ed. rewrite Ed. cbind. eexists _, _. by split_and!.
Qed.

(** The pieces the datagram is cut into: multiples of eight bytes but for the last one, and
    none shorter than an IP header, which the parser would refuse. *)
Context (ps : list (list Z)) (pad : nat -> list Z).
Hypotheses (Hcut : concat ps = U) (Hmany : (2 <= length ps)%nat) (Hshort : Forall (fun x => 20 <= length x)%nat ps) (Halign : forall i, (i < length ps)%nat -> Z.of_nat (off ps i) mod 8 = 0).
Definition piece_frame (i : nat) : list Z :=
  ip4_frame f (frag_b6 (Z.of_nat (off ps i)) (bool_decide (S i = length ps))) (frag_b7 (Z.of_nat (off ps i))) (nth i ps []) (pad i).
Definition frame_ok (i : nat) : Prop := bytes_ok (piece_frame i) /\ Z.of_nat (length (piece_frame i)) < 2 ^ 28.

Lemma piece_sizes i : (i < length ps)%nat -> (20 <= length (nth i ps []))%nat /\ (off ps (S i) = off ps i + length (nth i ps []))%nat /\ (off ps (S i) <= length U)%nat.
Proof.
  intros Hi. destruct (lookup_lt_is_Some_2 ps i Hi) as [x Hx]. assert (nth i ps [] = x) as -> by (by apply nth_lookup_Some). rewrite <- Hcut, <- (off_all ps). split_and!; [exact (Forall_lookup_1 _ _ _ _ Hshort Hx)|by apply off_S|apply off_mono; lia].
Qed.

Definition seen (r : option received) := (fun r => dns_view (rv_dns r)) <$> r.
Definition told (o : option ip_fragment) := (fun _ => wmsg_view m) <$> o.

(** A frame with a piece: the piece is added, and when that completes the datagram the
    message is parsed from it. *)
Lemma handle_piece i s o l : (i < length ps)%nat -> frame_ok i -> rr_table_ok (s_rtypes s) -> bytes_ok U -> ip_frag_add (piece ps flow_key i) (s_conf s) = Ok (o, l) -> o = None \/ o = Some (whole ps flow_key) ->
  exists r s', handle (piece_frame i) s = Ok (r, s') /\ seen r = told o /\ s_conf s' = l /\ rr_table_ok (s_rtypes s').
Proof.
  intros Hi [HF Hbig] Hg HbU Ea Ho. destruct (piece_sizes i Hi) as (H20 & HS & Hle). set (F := piece_frame i) in *. set (x := nth i ps []) in *. set (oi := Z.of_nat (off ps i)) in *. set (lst := bool_decide (S i = length ps)) in *.
  assert (LU : length U = (8 + length (wire_msg m))%nat) by (unfold wire_udp; rewrite length_app; done). destruct (frag_bytes_ok oi lst) as (E1 & E2 & E3); [lia|by apply Halign|].
  assert (LF : length F = (34 + length x + length (pad i))%nat) by (unfold F, piece_frame, ip4_frame; rewrite !length_app, frame_head_length by done; fold x; lia).
  assert (EF : F = ip4_frame f (frag_b6 oi lst) (frag_b7 oi) x (pad i)) by done.
  assert (Ee : eth_parse F (Z.of_nat (length F)) (s_eth s) false = Ok (14, mk_eth (fl_dmac f) (fl_smac f) 0x0800)) by (rewrite EF; apply eth_parse_frame; rewrite <- ?EF; done || lia).
  unfold dns_handler_parse. rewrite Ee. cbind. change (14 =? 0) with false. cbn [ethtype]. change (0x0800 =? 0x0800) with true. cbn iota.
  pose proof (fun c : list chain => ipv4_parse_frame f (frag_b6 oi lst) (frag_b7 oi) x (pad i) Hf ltac:(by rewrite <- EF) ltac:(lia) ltac:(lia) (Z.of_nat (length F)) (s_ip s) c ltac:(lia)) as Ei. rewrite <- EF in Ei. cbn [s_ip s_conf]. rewrite Ei, E1, E2, E3. clear Ei. rewrite u32_id by (unfold is_u32; lia).
  assert (Hfr : negb lst || negb (oi =? 0) = true). { unfold lst. case_bool_decide as EL; [|done]. cbn [negb orb]. rewrite (proj2 (Z.eqb_neq oi 0)); [done|]. destruct i as [|i]; [lia|]. destruct (piece_sizes i ltac:(lia)) as (? & ? & _). unfold oi. lia. }
  rewrite Hfr. assert (Epiece : mk_frag (ld_ne (fl_id f)) (mk_addr 4 (fl_src f)) (mk_addr 4 (fl_dst f)) oi (oi + Z.of_nat (length x)) x lst = piece ps flow_key i) by (unfold piece, flow_key; cbn; unfold oi, x, lst; f_equal; unfold x in HS; lia).
  rewrite Epiece. unfold frag_result. cbn [s_conf]. rewrite Ea. cbind. destruct Ho as [->| ->].
  - cbind. cbn [o_packet o_ip o_conf ip_drop]. eexists _, _. split_and!; done.
  - cbind. cbn [o_packet o_ip o_pos o_len o_conf flow_ip ip_proto s_udp s_rtypes s_conf s_ip whole fr_end fr_start fr_data]. change (negb (17 =? 17)) with false. cbn iota. rewrite Hcut, Z.sub_0_r, u32_id by (unfold is_u32; lia).
    destruct (udp_parse_wire [] p m [] (length U) (s_udp s) Hp) as [udp' Eu]; [lia|rewrite app_nil_r; cbn [app]; lia|rewrite app_nil_r; cbn [app]; lia|]. cbn [app length] in Eu. rewrite app_nil_r in Eu. change (Z.of_nat 0) with 0 in Eu. rewrite Eu. cbind. change (0 + 8 =? 0) with false. cbn iota.
    destruct (dns_parse_udp [] p m [] (length U) (s_rtypes s) dns_zero ns ad false junk Hm) as (d & g' & Ed & Hv & Hg'); [by rewrite app_nil_r|rewrite app_nil_r; cbn [app]; lia|done|rewrite app_nil_r; cbn [app]; lia|]. cbn [app length] in Ed. rewrite app_nil_r in Ed. change (Z.of_nat 0) with 0 in Ed. rewrite Ed. cbind.
    eexists _, _. split_and!; [done| |done|done]. cbn. by rewrite Hv.
Qed.

(** Frames one after the other. *)
Fixpoint handle_all (frames : list (list Z)) (s : session) : res (list (option received) * session) :=
  match frames with [] => Ok ([], s) | F :: frames => '(r, s) ← handle F s; '(rs, s) ← handle_all frames s; Ok (r :: rs, s) end.
Lemma handle_pieces order : Forall (fun i => (i < length ps)%nat /\ frame_ok i) order -> bytes_ok U -> forall s log l, rr_table_ok (s_rtypes s) -> frag_adds (piece ps flow_key <$> order) (s_conf s) = Ok (log, l) -> Forall (fun o => o = None \/ o = Some (whole ps flow_key)) (snd <$> log) ->
  exists rs s', handle_all (piece_frame <$> order) s = Ok (rs, s') /\ seen <$> rs = told <$> (snd <$> log) /\ s_conf s' = l /\ rr_table_ok (s_rtypes s').
Proof.
  intros Hall HbU. induction Hall as [|i order [Hi Hfr] _ IH]; intros s log l Hg Ea Hlog.
  - cbn in Ea. injection Ea as <- <-. cbn. eexists _, _. by split_and!.
  - rewrite fmap_cons in Ea. rewrite (fmap_cons piece_frame). cbn [frag_adds] in Ea. destruct (ip_frag_add _ _) as [[o l1]|] eqn:E1; [|done]. revert Ea. cbind. destruct (frag_adds _ l1) as [[log' l2]|] eqn:E2; [|done]. cbind. intros [= <- <-]. rewrite fmap_cons in Hlog. cbn [snd] in Hlog. apply Forall_cons in Hlog as [Ho Hlog].
    destruct (handle_piece i s o l1 Hi Hfr Hg HbU E1 Ho) as (r & s1 & Eh & Hr & Hc & Hg1). rewrite <- Hc in E2. destruct (IH s1 log' l2 Hg1 E2 Hlog) as (rs & s' & Er & Hrs & Hc' & Hg'). cbn [handle_all]. rewrite Eh. cbind. rewrite Er. cbind. eexists _, _. split_and!; [done| |done|done].
    rewrite !fmap_cons. cbn [snd]. by rewrite Hr, Hrs.
Qed.
End receive.

Lemma filter_id {A} (P : A -> Prop) `{!forall x, Decision (P x)} l : Forall P l -> filter P l = l.
Proof. induction 1 as [|x l Hx _ IH]; [done|]. by rewrite filter_cons, decide_True, IH. Qed.
Lemma adds_fst evs : forall l log l', frag_adds evs l = Ok (log, l') -> fst <$> log = evs.
Proof.
  induction evs as [|g evs IH]; intros l log l' E; cbn [frag_adds] in E; [by injection E as <- <-|]. destruct (ip_frag_add g l) as [[o l1]|]; [|done]. revert E. cbind. destruct (frag_adds evs l1) as [[log1 l2]|] eqn:E1; [|done]. cbind. intros [= <- <-]. rewrite fmap_cons. cbn. f_equal. by eapply IH.
Qed.
Lemma pieces_key ps k order : Forall (fun i => (i < length ps)%nat) order -> Forall (fun g => frag_key g = k) (piece ps k <$> order).
Proof. intros H. rewrite Forall_fmap. eapply Forall_impl; [exact H|]. intros i _. by destruct k as [[? ?] ?]. Qed.


(** The reply of [DnsWire] in two fragments, the second of which arrives first. *)
Definition flow_sample : flow := mk_flow [1; 1; 1; 1; 1; 1] [2; 2; 2; 2; 2; 2] [10; 0; 0; 1] [10; 0; 0; 2] [0x12; 0x34] 0 64 [0; 0].
Definition ports_sample : ports := mk_ports 53 4000 0.
Definition cut_sample : list (list Z) := [take 24 (wire_udp ports_sample reply_sample); drop 24 (wire_udp ports_sample reply_sample)].
Definition session_zero : session := mk_session (mk_eth [] [] 0) (mk_ip 0 (mk_addr 0 []) (mk_addr 0 []) 0 0) [] (mk_tpt 0 0 0 0 0 0 0) rtypes_init.
