(* ===== verification/Cm2State.v ===== *)
(** * Cm2State: the state of the connection manager

    The enumerations and structures of [cm2/src/cm2.h], the calls the connection manager
    makes to the database, the device and the clock, and the monad its functions run in.
    A function reads and changes [g_state] and the few statics beside it; every call that
    leaves the program is logged, and answered by an environment that may answer the
    same call differently each time.

    The resolver of a build keeps its own fields in [cm2_addr_t]; they are the parameter
    [R] ([Cm2Resolve] has the two resolvers of the repository). *)
From S2P Require Import Prelude CString.
Open Scope Z_scope.

(** ** Field updates

    [upd p f r] is [r] with [f] applied to its field [p]. *)
Class Upd {R T} (p : R -> T) := upd : (T -> T) -> R -> R.
Arguments upd {R T} p {_} f r.
Class Eta (R : Type) := eta : R -> R.
Arguments eta : clear implicits.
(** The update of [p]: in [r => mk (p1 r) ... (pn r)], replace [p] by [f o p]. *)
Ltac derive_upd :=
  match goal with
  | |- @Upd ?R ?T ?p =>
      let i := constr:(eta R _) in
      let e := eval hnf in i in
      match eval pattern p in e with
      | ?F p => let r := eval cbv beta in (fun (f : T -> T) (x : R) => F (fun y => f (p y)) x) in exact r
      end
  end.
#[export] Hint Extern 0 (Upd _) => derive_upd : typeclass_instances.
Notation set p v := (upd p (fun _ => v)).

(** ** The enumerations of [cm2.h] *)
Inductive cm2_state_e :=
  CM2_STATE_INIT | CM2_STATE_LINK_SEL | CM2_STATE_WAN_IP | CM2_STATE_NTP_CHECK | CM2_STATE_OVS_INIT
| CM2_STATE_TRY_RESOLVE | CM2_STATE_RE_CONNECT | CM2_STATE_TRY_CONNECT | CM2_STATE_FAST_RECONNECT
| CM2_STATE_FAST_RECONNECT_WAIT | CM2_STATE_CONNECTED | CM2_STATE_INTERNET | CM2_STATE_QUIESCE_OVS.
#[export] Instance cm2_state_e_dec : EqDecision cm2_state_e.
Proof. solve_decision. Defined.

Inductive cm2_reason_e :=
  CM2_REASON_TIMER | CM2_REASON_AWLAN | CM2_REASON_MANAGER | CM2_REASON_CHANGE | CM2_REASON_LINK_USED
| CM2_REASON_LINK_NOT_USED | CM2_REASON_SET_NEW_VTAG | CM2_REASON_BLOCK_VTAG | CM2_REASON_OVS_INIT.
#[export] Instance cm2_reason_e_dec : EqDecision cm2_reason_e.
Proof. solve_decision. Defined.

Inductive cm2_dest_e := CM2_DEST_REDIR | CM2_DEST_MANAGER.
#[export] Instance cm2_dest_e_dec : EqDecision cm2_dest_e.
Proof. solve_decision. Defined.

Inductive cm2_vtag_state_t := CM2_VTAG_NOT_USED | CM2_VTAG_PENDING | CM2_VTAG_USED | CM2_VTAG_BLOCKED.
#[export] Instance cm2_vtag_state_t_dec : EqDecision cm2_vtag_state_t.
Proof. solve_decision. Defined.

Inductive cm2_ip_assign_scheme := CM2_IP_NOT_SET | CM2_IP_NONE | CM2_IP_STATIC | CM2_IPV4_DHCP | CM2_IPV6_DHCP.
#[export] Instance cm2_ip_assign_scheme_dec : EqDecision cm2_ip_assign_scheme.
Proof. solve_decision. Defined.

Inductive cm2_uplink_state_t :=
  CM2_UPLINK_NONE | CM2_UPLINK_READY | CM2_UPLINK_INACTIVE | CM2_UPLINK_ACTIVE | CM2_UPLINK_BLOCKED | CM2_UPLINK_UNBLOCKING.
#[export] Instance cm2_uplink_state_t_dec : EqDecision cm2_uplink_state_t.
Proof. solve_decision. Defined.

Inductive cm2_dev_type := CM2_DEVICE_NONE | CM2_DEVICE_ROUTER | CM2_DEVICE_BRIDGE | CM2_DEVICE_LEAF.
#[export] Instance cm2_dev_type_dec : EqDecision cm2_dev_type.
Proof. solve_decision. Defined.

Inductive cm2_restore_method := CM2_RESTORE_REFRESH_DHCP | CM2_RESTORE_RESTART_INTERFACE.
Inductive cm2_par_state_t := CM2_PAR_NOT_SET | CM2_PAR_TRUE | CM2_PAR_FALSE.
#[export] Instance cm2_par_state_t_dec : EqDecision cm2_par_state_t.
Proof. solve_decision. Defined.

(** Address families, as the code compares them. *)
Inductive family := AF_INET | AF_INET6 | AF_OTHER.
#[export] Instance family_dec : EqDecision family.
Proof. solve_decision. Defined.

(** ** The structures of [cm2.h] *)
Record cm2_ip := mk_ip { assign_scheme : cm2_ip_assign_scheme; is_ip : bool; resolve_retry : bool; ip_blocked : bool }.
#[export] Instance eta_ip : Eta cm2_ip := fun r => mk_ip (assign_scheme r) (is_ip r) (resolve_retry r) (ip_blocked r).
Definition zero_ip : cm2_ip := mk_ip CM2_IP_NOT_SET false false false.

Record cm2_vtag_t := mk_vtag { vt_state : cm2_vtag_state_t; vt_failure : Z; vt_tag : Z; vt_blocked_tag : Z }.
#[export] Instance eta_vtag : Eta cm2_vtag_t := fun r => mk_vtag (vt_state r) (vt_failure r) (vt_tag r) (vt_blocked_tag r).

Record cm2_retries_cnt := mk_cnts { ovs_resolve : Z; ovs_resolve_fail : Z; ovs_con : Z }.
#[export] Instance eta_cnts : Eta cm2_retries_cnt := fun r => mk_cnts (ovs_resolve r) (ovs_resolve_fail r) (ovs_con r).

Record cm2_main_link_t := mk_link {
  if_name : string; if_type : string; bridge_name : string; is_used : bool; is_used_echoed : bool;
  blocked : bool; restart_pending : bool; priority : Z; ipv4 : cm2_ip; ipv6 : cm2_ip; vtag : cm2_vtag_t
}.
#[export] Instance eta_link : Eta cm2_main_link_t := fun r =>
  mk_link (if_name r) (if_type r) (bridge_name r) (is_used r) (is_used_echoed r) (blocked r) (restart_pending r)
    (priority r) (ipv4 r) (ipv6 r) (vtag r).
(** [memset(&g_state.link, 0, sizeof(g_state.link))] *)
Definition zero_link : cm2_main_link_t :=
  mk_link "" "" "" false false false false 0 zero_ip zero_ip (mk_vtag CM2_VTAG_NOT_USED 0 0 0).

(** [cm2_addr_t]; [a_res] are the fields of the resolver. *)
Record cm2_addr_t (R : Type) := mk_addr {
  updated : bool; valid : bool; resolved : bool; resource : string; proto : string; hostname : string; port : Z; a_res : R
}.
Arguments mk_addr {R} _ _ _ _ _ _ _ _.
Arguments updated {R} _.
Arguments valid {R} _.
Arguments resolved {R} _.
Arguments resource {R} _.
Arguments proto {R} _.
Arguments hostname {R} _.
Arguments port {R} _.
Arguments a_res {R} _.
#[export] Instance eta_addr R : Eta (cm2_addr_t R) := fun r =>
  mk_addr (updated r) (valid r) (resolved r) (resource r) (proto r) (hostname r) (port r) (a_res r).

(** [cm2_state_t].  [chan_initialized] is [eares.chan_initialized]; [gw_offline_start] tells
    whether that timer runs.  The other timers and the back-haul modules stay out. *)
Record cm2_state_t (R : Type) := mk_state {
  state : cm2_state_e; reason : cm2_reason_e; dest : cm2_dest_e; state_changed : bool; connected : bool;
  is_con_stable : bool; ipv6_manager_con : bool; timestamp : Z; restart_timestamp : Z; disconnects : Z;
  addr_redirector : cm2_addr_t R; addr_manager : cm2_addr_t R; run_stability : bool;
  link : cm2_main_link_t; old_link : cm2_main_link_t; ntp_check : bool; chan_initialized : bool;
  have_manager : bool; have_awlan : bool; min_backoff : Z; max_backoff : Z; fast_backoff : bool; skip_reconnect : bool;
  connected_at_least_once : bool; link_sel_due_to_priority : bool; is_previous_if_type_wifi : bool;
  cnts : cm2_retries_cnt; dev_type : cm2_dev_type; restore_method : cm2_restore_method; target : string;
  gw_offline_start : bool; stability_cnts : Z
}.
Arguments mk_state {R}.
Arguments state {R} _.
Arguments reason {R} _.
Arguments dest {R} _.
Arguments state_changed {R} _.
Arguments connected {R} _.
Arguments is_con_stable {R} _.
Arguments ipv6_manager_con {R} _.
Arguments timestamp {R} _.
Arguments restart_timestamp {R} _.
Arguments disconnects {R} _.
Arguments addr_redirector {R} _.
Arguments addr_manager {R} _.
Arguments run_stability {R} _.
Arguments link {R} _.
Arguments old_link {R} _.
Arguments ntp_check {R} _.
Arguments chan_initialized {R} _.
Arguments have_manager {R} _.
Arguments have_awlan {R} _.
Arguments min_backoff {R} _.
Arguments max_backoff {R} _.
Arguments fast_backoff {R} _.
Arguments skip_reconnect {R} _.
Arguments connected_at_least_once {R} _.
Arguments link_sel_due_to_priority {R} _.
Arguments is_previous_if_type_wifi {R} _.
Arguments cnts {R} _.
Arguments dev_type {R} _.
Arguments restore_method {R} _.
Arguments target {R} _.
Arguments gw_offline_start {R} _.
Arguments stability_cnts {R} _.
#[export] Instance eta_state R : Eta (cm2_state_t R) := fun r =>
  mk_state (state r) (reason r) (dest r) (state_changed r) (connected r) (is_con_stable r) (ipv6_manager_con r)
    (timestamp r) (restart_timestamp r) (disconnects r) (addr_redirector r) (addr_manager r) (run_stability r)
    (link r) (old_link r) (ntp_check r) (chan_initialized r) (have_manager r) (have_awlan r) (min_backoff r)
    (max_backoff r) (fast_backoff r) (skip_reconnect r) (connected_at_least_once r) (link_sel_due_to_priority r)
    (is_previous_if_type_wifi r) (cnts r) (dev_type r) (restore_method r) (target r) (gw_offline_start r) (stability_cnts r).

(** ** Rows of the database, and what the device reports *)

(** [struct schema_Connection_Manager_Uplink]; [cmu_unblock_ts] is the time its string denotes. *)
Record cmu_row := mk_cmu {
  cmu_if_name : string; cmu_if_type : string; cmu_priority : Z; cmu_bridge : option string;
  cmu_has_L2 : bool; cmu_has_L3 : bool; cmu_is_used : bool; cmu_ipv4 : option string; cmu_ipv6 : option string;
  cmu_unblock_ts : option Z; cmu_link_counter : Z; cmu_router_counter : Z; cmu_internet_counter : Z; cmu_cloud_counter : Z
}.
(** The columns of [struct schema_Wifi_Inet_State] that the code reads. *)
Record inet_row := mk_inet { ip_assign_scheme : option string; inet_addr : option string }.
(** [target_connectivity_check_t] *)
Record conn_check := mk_check {
  link_state : bool; router_ipv4_state : bool; router_ipv6_state : bool; internet_ipv4_state : bool;
  internet_ipv6_state : bool; internet_state : bool; ntp_state : bool
}.
Definition LINK_CHECK : Z := 1.
Definition ROUTER_CHECK : Z := 2.
Definition INTERNET_CHECK : Z := 4.
Definition NTP_CHECK : Z := 8.
Definition IPV4_CHECK : Z := 16.
Definition IPV6_CHECK : Z := 32.
Definition FAST_CHECK : Z := 64.

(** The answer of the C library's resolver: addresses with their family and bytes.
    [c-ares] answers with a status and a [struct hostent]. *)
Inductive ares_status := ARES_SUCCESS | ARES_EDESTRUCTION | ARES_ECONNREFUSED | ARES_ETIMEOUT | ARES_ECANCELLED | ARES_OTHER.
Record hostent := mk_hostent { h_addrtype_ : family; h_addrs : list (list Z) }.

(** ** The calls that leave the program *)
Inductive action :=
| AState (ok : bool) (old new : cm2_state_e) (conn : bool) (tgt : string)
| ALogState (name : string) | ADumpDebug | AWdtPing | ARestartManagers | ATime
| AUrandom | ABootTime | AManagerTarget (t : string) | AManagerAddr (a : string)
| AGwOfflineEnabled | AGwOfflineReady | AGwOfflineActive | AGwOfflineDisable | AGwOfflineEnable
| ATunnelCreated (i : string) | ADhcpRenew (i : string) | AIfaceEnabled (i : string) (b : bool)
| ANetworkState (i : string) (b : bool) | APortTrunks (i : string) (tag : Z) | APortTag (i : string) (tag : Z) (b : bool)
| AUsedState (i : string) (b : bool) | ABridgeState (i br : string) | ACleanCounters (i : string)
| ACloudCounter (i : string) (n : Z) | ALinkCounter (i : string) (n : Z) | ARouterCounter (i : string) (n : Z)
| AInternetCounter (i : string) (n : Z) | ANtpState (i : string) (b : bool) | ARouteMetric (i : string) (m : Z)
| ASetIpv4 (i : string) (s : cm2_uplink_state_t) | ASetIpv6 (i : string) (s : cm2_uplink_state_t)
| AUnblockTs (i : string) (t : option Z) | AUplinksInterval (n : Z) | AStabilityInterval (short : bool)
| ACopyIpv4 (src dst : string) | ADhcpv6 (i : string) (b : bool) | AMacReporting (i : string) (b : bool)
| AInBridge (br i : string) | AManagePort (br i : string) (b : bool) | AAnnounce (i : string)
| AMacGet (br : string) | AMacSet (br : string) | AValidatePort (br i : string) | APortName (p : string)
| ASelectUsed | ASelectUplink (i : string) | ASelectUplinks | ASelectUnblocking (v6 : bool) | ALoadAvg | ASelectInet (i : string) | AIpv6Global (i : string)
| AUplinkEvent | ACheck (i : string) (opts : Z) | AFork (i : string) (opts : Z) | ATcpdump (i : string) (start : bool)
| ARandomRange | AUrandomOpen
| AGetAddrInfo (h : string) | AGetHost (h : string) (f : family) | ABusyFds | AInitAres | ADestroyAres
| ATargetConfig.

(** Answers, by the number of the call. *)
Class Cm2Env := {
  env_time : nat -> Z;                      (* [time_monotonic()] *)
  env_bool : nat -> bool;                   (* success of a call, or the flag it returns *)
  env_int : nat -> Z;
  env_row : nat -> option cmu_row;
  env_rows : nat -> list cmu_row;
  env_inet : nat -> option inet_row;
  env_check : nat -> bool * conn_check;
  env_addrs : nat -> option (list (family * list Z));
  env_ares : nat -> option (ares_status * hostent);  (* the answer, when it is there at once *)
  env_ntop : family -> list Z -> option string       (* [inet_ntop] *)
}.

(** ** The configuration of a build *)
Class Cm2Cfg := {
  wan_link_selection : bool; CLOUD_FATAL_THRESHOLD : Z; OVS_SHORT_BACKOFF : Z; BT_CONNECTABLE : bool;
  THRESH_LINK : Z; THRESH_FATAL : Z; THRESH_ROUTER : Z; THRESH_INTERNET : Z; THRESH_VTAG : Z; THRESH_TCPDUMP : Z;
  USE_TCPDUMP : bool; lan_set_local_mac : bool; LAN_BRIDGE_NAME : string
}.

(** ** The monad *)

(** [async_check_t] *)
Record async_check := mk_async { ac_uname : string; ac_utype : string; ac_clink : string; ac_opts : Z; ac_db_update : bool; ac_repeat : bool }.
#[export] Instance async_check_dec : EqDecision async_check.
Proof. solve_decision. Defined.

(** [g_state], the timeout of [CM2_STATE_QUIESCE_OVS] in [cm2_state_info] (the only one
    that changes), the checks in [g_async_checks], the calls made so far. *)
Record world (R : Type) := mk_world { w_g : cm2_state_t R; w_quiesce : Z; w_async : list async_check; w_tick : nat; w_log : list action }.
Arguments mk_world {R} _ _ _ _ _.
Arguments w_g {R} _.
Arguments w_quiesce {R} _.
Arguments w_async {R} _.
Arguments w_tick {R} _.
Arguments w_log {R} _.
#[export] Instance eta_world R : Eta (world R) := fun w => mk_world (w_g w) (w_quiesce w) (w_async w) (w_tick w) (w_log w).

Definition M (R A : Type) : Type := world R -> res (A * world R).
#[export] Instance M_ret R : MRet (M R) := fun A a w => Ok (a, w).
#[export] Instance M_bind R : MBind (M R) := fun A B k m w => '(a, w) ← m w; k a w.

Section Cm2Monad.
Context {R : Type} `{Cm2Env}.

Definition gets {A} (f : cm2_state_t R -> A) : M R A := fun w => Ok (f (w_g w), w).
Definition getw {A} (f : world R -> A) : M R A := fun w => Ok (f w, w).
Definition modify (f : cm2_state_t R -> cm2_state_t R) : M R () := fun w => Ok ((), upd w_g f w).
Definition modw (f : world R -> world R) : M R () := fun w => Ok ((), f w).
Definition fail {A} (f : fault) : M R A := fun _ => Err f.
Definition lift {A} (m : res A) : M R A := fun w => a ← m; Ok (a, w).
(** A call [a] that leaves the program; [f] picks the answer. *)
Definition call {A} (a : action) (f : nat -> A) : M R A := fun w =>
  Ok (f (w_tick w), upd w_log (cons a) (upd w_tick S w)).
Definition call_ (a : action) : M R () := call a (fun _ => ()).
Definition when (b : bool) (m : M R ()) : M R () := if b then m else mret ().

Definition time_monotonic : M R Z := call ATime env_time.
End Cm2Monad.
