(* ===== verification/Cm2Resolve.v ===== *)
(** * Cm2Resolve: the controller's addresses and their resolution

    Models [cm2/src/cm2_resolve.c], the two resolvers a build chooses from
    ([cm2_resolve_sync.c] over [getaddrinfo], [cm2_resolve_ares.c] over c-ares with the
    channel of [lib/evx/src/evx_ares.c]) and [parse_uri] of [lib/common/src/util.c].
    [Resolver] is what the state machine calls; both resolvers are instances.

    What the two promise is in [Cm2ResolveSpec], the order in which addresses are
    tried in [Cm2Targets]. *)
From stdpp Require Import pretty.
From Stdlib Require Import Ascii.
From S2P Require Import Prelude CString Cm2State.
Open Scope Z_scope.

(** ** [parse_uri] *)

(** [strtok_r] with one delimiter: the token and what follows it. *)
Fixpoint skip_delim (d : ascii) (s : string) : string :=
  match s with String c s' => if Ascii.eqb c d then skip_delim d s' else s | EmptyString => EmptyString end.
Fixpoint until_delim (d : ascii) (s : string) : string * string :=
  match s with
  | EmptyString => (EmptyString, EmptyString)
  | String c s' => if Ascii.eqb c d then (EmptyString, s') else let '(t, r) := until_delim d s' in (String c t, r)
  end.
Definition strtok (d : ascii) (s : string) : option string * string :=
  match skip_delim d s with EmptyString => (None, EmptyString) | s' => let '(t, r) := until_delim d s' in (Some t, r) end.
Definition atoi (s : string) : Z := i32 (strtol s).1.

Definition UTIL_URI_MAX_LENG : nat := 512.
Definition parse_uri (uri : string) (proto_size host_size : nat) : res (option (string * string * Z)) :=
  if String.eqb uri "" then Ok None else
  let '(tproto, s) := strtok ":" (strscpy uri UTIL_URI_MAX_LENG) in
  let '(thost, s) := strtok ":" s in
  let '(pstr, _) := strtok ":" s in
  let tport := match pstr with Some p => atoi p | None => 0 end in
  tproto ← deref tproto;
  if negb (String.eqb tproto "ssl") && negb (String.eqb tproto "tcp") then Ok None else
  match thost with
  | None => Ok None
  | Some thost => if tport <=? 0 then Ok None else Ok (Some (strscpy tproto proto_size, strscpy thost host_size, tport))
  end.

(** ** Targets *)
Definition cm2_ovsdb_set_Manager_target {R} `{Cm2Env} (t : string) : M R bool := call (AManagerTarget (strscpy t 129)) env_bool.
Definition cm2_ovsdb_set_AWLAN_Node_manager_addr {R} `{Cm2Env} (a : string) : M R bool := call (AManagerAddr a) env_bool.

(** [snprintf(target, sizeof(target), ...)] with and without brackets. *)
Definition target_plain (proto a : string) (port : Z) : string := str_take 255 (proto +:+ ":" +:+ a +:+ ":" +:+ pretty port).
Definition target_bracketed (proto a : string) (port : Z) : string := target_plain proto ("[" +:+ a +:+ "]") port.

(** ** What the state machine calls *)
Class Resolver `{Cm2Env} (R : Type) := {
  cm2_free_addr_list : R -> res R;
  cm2_set_ipv6_pref : cm2_dest_e -> cm2_state_t R -> cm2_state_t R;
  cm2_resolve : cm2_dest_e -> M R bool;
  cm2_is_addr_resolved : cm2_addr_t R -> bool;
  cm2_resolve_timeout : M R ();
  cm2_write_current_target_addr : M R bool;
  cm2_write_next_target_addr : M R bool;
  cm2_move_next_target_addr : M R ()
}.

(** ** [cm2_resolve.c] *)
Section Addr.
Context {R : Type}.

Definition cm2_get_addr (d : cm2_dest_e) (g : cm2_state_t R) : cm2_addr_t R :=
  match d with CM2_DEST_REDIR => addr_redirector g | CM2_DEST_MANAGER => addr_manager g end.
Definition cm2_curr_addr (g : cm2_state_t R) : cm2_addr_t R := cm2_get_addr (dest g) g.
(** Writing through the pointer that [cm2_get_addr] returns. *)
Definition upd_addr (d : cm2_dest_e) (f : cm2_addr_t R -> cm2_addr_t R) (g : cm2_state_t R) : cm2_state_t R :=
  match d with CM2_DEST_REDIR => upd addr_redirector f g | CM2_DEST_MANAGER => upd addr_manager f g end.

Context `{Resolver R}.

Definition cm2_clear_addr (a : cm2_addr_t R) : res (cm2_addr_t R) :=
  r ← cm2_free_addr_list (a_res a);
  Ok (mk_addr (updated a) false (resolved a) "" "" "" 0 r).

Definition CM2_PROTO_MAX : nat := 6.
Definition CM2_HOSTNAME_MAX : nat := 256.
Definition CM2_RESOURCE_MAX : nat := 512.
Definition cm2_parse_resource (a : cm2_addr_t R) : res (bool * cm2_addr_t R) :=
  u ← parse_uri (resource a) CM2_PROTO_MAX CM2_HOSTNAME_MAX;
  a ← match u with
      | None => cm2_clear_addr a
      | Some (p, h, n) => Ok (set valid true (set port n (set hostname h (set proto p a))))
      end;
  Ok (valid a, a).

Definition set_addr_pure (a : cm2_addr_t R) (res : string) : Prelude.res (bool * cm2_addr_t R) :=
  let a := set updated false (set resolved false (set resource (strscpy res CM2_RESOURCE_MAX) a)) in
  if String.eqb res "" then a ← cm2_clear_addr a; Ok (false, a)
  else
    '(ret, a) ← cm2_parse_resource a;
    r ← cm2_free_addr_list (a_res a);
    Ok (ret, set a_res r a).
Definition cm2_set_addr (d : cm2_dest_e) (res : string) : M R bool :=
  a ← gets (cm2_get_addr d);
  '(ret, a) ← lift (set_addr_pure a res);
  _ ← modify (upd_addr d (fun _ => a));
  mret ret.

Definition cm2_clear_manager_addr : M R () :=
  _ ← cm2_ovsdb_set_AWLAN_Node_manager_addr "";
  _ ← cm2_set_addr CM2_DEST_MANAGER "";
  mret ().

Definition cm2_set_dst_type (d : cm2_dest_e) : M R () :=
  _ ← modify (set dest d); modify (cm2_set_ipv6_pref d).
End Addr.

(** ** [cm2_resolve_sync.c] *)
Module Sync.
(** [ai_list] and [ai_curr]; the list of [getaddrinfo], a pointer into it by its place. *)
Record ai := mk_ai { ai_list : list (family * list Z); ai_curr : option nat }.
#[export] Instance eta_ai : Eta ai := fun r => mk_ai (ai_list r) (ai_curr r).

Section Sync.
Context `{Cm2Env}.
Notation M := (M ai).

Definition sync_free_addr_list (a : ai) : res ai := Ok (mk_ai [] None).

Definition usable (x : family * list Z) : bool :=
  match x.1 with AF_OTHER => false | _ => bool_decide (is_Some (env_ntop x.1 x.2)) end.

(** [sync_free_addr_list] leaves [ai_curr] NULL, and so does the function at its end. *)
Definition sync_resolve (d : cm2_dest_e) : M bool :=
  _ ← modify (upd_addr d (fun a => set resolved false (set updated false a)));
  a ← gets (cm2_get_addr d);
  if negb (valid a) then mret false else
  r ← lift (sync_free_addr_list (a_res a));
  _ ← modify (upd_addr d (set a_res r));
  l ← call (AGetAddrInfo (hostname a)) env_addrs;
  match l with
  | None => mret false
  | Some l =>
      _ ← modify (upd_addr d (set a_res (mk_ai l None)));
      if existsb usable l then
        _ ← modify (upd_addr d (set resolved true));
        mret true
      else mret false
  end.

(** The first entry from place [n] on whose family is known. *)
Fixpoint next_known (l : list (family * list Z)) (n : nat) : option nat :=
  match l with
  | [] => None
  | (f, _) :: l => if bool_decide (f = AF_OTHER) then next_known l (S n) else Some n
  end.
Definition get_next_addrinfo (a : ai) : option nat :=
  let n := match ai_curr a with Some i => S i | None => O end in
  next_known (drop n (ai_list a)) n.

Definition sync_write_target_addr (i : option nat) : M bool :=
  d ← gets dest;
  a ← gets cm2_curr_addr;
  match i with
  | None => mret false
  | Some i =>
      x ← lift (deref (ai_list (a_res a) !! i));
      let write t :=
        ret ← cm2_ovsdb_set_Manager_target t;
        _ ← when ret (modify (upd_addr d (upd a_res (set ai_curr (Some i)))));
        mret ret in
      match x.1 with
      | AF_INET => match env_ntop AF_INET x.2 with None => mret false | Some s => write (target_plain (proto a) s (port a)) end
      | AF_INET6 => match env_ntop AF_INET6 x.2 with None => mret false | Some s => write (target_bracketed (proto a) s (port a)) end
      | AF_OTHER => mret false
      end
  end.

(** [cm2_get_next_addrinfo] moves [ai_curr] to the entry it returns. *)
Definition next_addrinfo : M (option nat) :=
  d ← gets dest;
  a ← gets cm2_curr_addr;
  match get_next_addrinfo (a_res a) with
  | None => mret None
  | Some i => _ ← modify (upd_addr d (upd a_res (set ai_curr (Some i)))); mret (Some i)
  end.
Definition sync_write_current_target_addr : M bool :=
  a ← gets cm2_curr_addr;
  i ← match ai_curr (a_res a) with Some i => mret (Some i) | None => next_addrinfo end;
  sync_write_target_addr i.
Definition sync_write_next_target_addr : M bool := i ← next_addrinfo; sync_write_target_addr i.

#[export] Instance sync_resolver : Resolver ai := {
  cm2_free_addr_list := sync_free_addr_list;
  cm2_set_ipv6_pref := fun _ g => g;
  cm2_resolve := sync_resolve;
  cm2_is_addr_resolved := resolved;
  cm2_resolve_timeout := mret ();
  cm2_write_current_target_addr := sync_write_current_target_addr;
  cm2_write_next_target_addr := sync_write_next_target_addr;
  cm2_move_next_target_addr := mret ()
}.
End Sync.
End Sync.

(** ** [cm2_resolve_ares.c] *)
Module Ares.
Inductive resolve_state := CM2_ARES_R_NOT_STARTED | CM2_ARES_R_IN_PROGRESS | CM2_ARES_R_FINISHED | CM2_ARES_R_RESOLVED.
#[export] Instance resolve_state_dec : EqDecision resolve_state.
Proof. solve_decision. Defined.

(** [cm2_addr_list]; [h_addr_list] is the array without the NULL at its end. *)
Record cm2_addr_list := mk_list {
  h_addr_list : option (list (list Z)); h_length : Z; h_addrtype : family; h_cur_idx : Z;
  al_state : resolve_state; req_addr_type : family
}.
#[export] Instance eta_list : Eta cm2_addr_list := fun r =>
  mk_list (h_addr_list r) (h_length r) (h_addrtype r) (h_cur_idx r) (al_state r) (req_addr_type r).
Record ares := mk_ares { ipv6_addr_list : cm2_addr_list; ipv4_addr_list : cm2_addr_list; ipv6_pref : bool }.
#[export] Instance eta_ares : Eta ares := fun r => mk_ares (ipv6_addr_list r) (ipv4_addr_list r) (ipv6_pref r).

(** The list of a family: the argument the callback of a query gets, with the
    destination it belongs to. *)
Definition get_list (v6 : bool) (r : ares) : cm2_addr_list := if v6 then ipv6_addr_list r else ipv4_addr_list r.
Definition upd_list (v6 : bool) (f : cm2_addr_list -> cm2_addr_list) (r : ares) : ares :=
  if v6 then upd ipv6_addr_list f r else upd ipv4_addr_list f r.

Section Ares.
Context `{Cm2Env}.
Notation M := (M ares).

(** [h_addr_list[i]]: an entry or the NULL at the end. *)
Definition entry (l : list (list Z)) (i : Z) : res (option (list Z)) :=
  if (0 <=? i) && (i <=? Z.of_nat (length l)) then Ok (l !! Z.to_nat i) else Err FOob.

(** The loop of [cm2_util_free_addr_list], which goes on while the entry is NULL. *)
Fixpoint free_loop (a : list (option (list Z))) : res () :=
  match a with
  | [] => Err FOob
  | Some _ :: _ => Ok ()
  | None :: a => free_loop a
  end.
Definition cm2_util_free_addr_list (l : cm2_addr_list) : res cm2_addr_list :=
  match h_addr_list l with
  | None => Ok l
  | Some a => _ ← free_loop ((Some <$> a) ++ [None]); Ok (set h_addr_list None l)
  end.
Definition ares_free_addr_list (r : ares) : res ares :=
  l6 ← cm2_util_free_addr_list (ipv6_addr_list r);
  l4 ← cm2_util_free_addr_list (ipv4_addr_list r);
  Ok (mk_ares l6 l4 (ipv6_pref r)).

Definition on_ares_list (d : cm2_dest_e) (v6 : bool) (f : cm2_addr_list -> cm2_addr_list) : M () :=
  modify (upd_addr d (upd a_res (upd_list v6 f))).

Definition cm2_ares_host_cb (d : cm2_dest_e) (v6 : bool) (status : ares_status) (h : hostent) : M () :=
  l ← gets (fun g => get_list v6 (a_res (cm2_get_addr d g)));
  _ ← on_ares_list d v6 (set al_state CM2_ARES_R_FINISHED);
  match status with
  | ARES_SUCCESS =>
      if bool_decide (req_addr_type l = h_addrtype_ h) then
        on_ares_list d v6 (fun l =>
          mk_list (Some (h_addrs h)) (Z.of_nat (length (h_addrs h))) (h_addrtype_ h) 0 CM2_ARES_R_RESOLVED (req_addr_type l))
      else mret ()
  | ARES_ECONNREFUSED | ARES_ETIMEOUT | ARES_ECANCELLED =>
      if bool_decide (req_addr_type l = AF_INET6) then modify (upd link (upd ipv6 (set resolve_retry true)))
      else modify (upd link (upd ipv4 (set resolve_retry true)))
  | ARES_EDESTRUCTION | ARES_OTHER => mret ()
  end.

(** [evx_start_ares] with no server set, and [cm2_start_ares_resolve]. *)
Definition evx_start_ares : M () :=
  i ← gets chan_initialized;
  if (i : bool) then mret () else
  ok ← call AInitAres env_bool;
  when ok (modify (set chan_initialized true)).
Definition cm2_start_ares_resolve : M bool :=
  cnt ← call ABusyFds env_int;
  if 0 <? cnt then mret false else _ ← evx_start_ares; mret true.

(** A query starts; c-ares may call back before it returns. *)
Definition ares_gethostbyname (d : cm2_dest_e) (v6 : bool) (host : string) : M () :=
  a ← call (AGetHost host (if v6 then AF_INET6 else AF_INET)) env_ares;
  match a with None => mret () | Some (st, h) => cm2_ares_host_cb d v6 st h end.
Definition start_query (d : cm2_dest_e) (v6 : bool) : M () :=
  _ ← on_ares_list d v6 (fun l => set req_addr_type (if v6 then AF_INET6 else AF_INET) (set al_state CM2_ARES_R_IN_PROGRESS l));
  host ← gets (fun g => hostname (cm2_get_addr d g));
  ares_gethostbyname d v6 host.

Definition in_progress (l : cm2_addr_list) : bool := bool_decide (al_state l = CM2_ARES_R_IN_PROGRESS).
Definition is_resolved (l : cm2_addr_list) : bool := bool_decide (al_state l = CM2_ARES_R_RESOLVED).
Definition clear_retry : M () :=
  modify (upd link (fun k => upd ipv6 (set resolve_retry false) (upd ipv4 (set resolve_retry false) k))).

Definition ares_resolve (d : cm2_dest_e) : M bool :=
  k ← gets link;
  r ← gets (fun g => a_res (cm2_get_addr d g));
  let l6 := ipv6_addr_list r in let l4 := ipv4_addr_list r in
  let v6 := is_ip (ipv6 k) && negb (in_progress l6) in
  let v4 := is_ip (ipv4 k) && negb (in_progress l4) in
  if (resolve_retry (ipv4 k) && v6 && is_resolved l6) || (resolve_retry (ipv6 k) && v4 && is_resolved l4)
  then _ ← clear_retry; mret true else
  _ ← clear_retry;
  if in_progress l4 || in_progress l6 then mret false else
  _ ← modify (upd_addr d (set updated false));
  ok ← gets (fun g => valid (cm2_get_addr d g));
  if negb ok then mret false else
  ok ← cm2_start_ares_resolve;
  if negb ok then mret false else
  r ← lift (ares_free_addr_list r);
  _ ← modify (upd_addr d (set a_res r));
  ok ← gets chan_initialized;
  if negb ok then mret false else
  _ ← when v6 (start_query d true);
  _ ← when v4 (start_query d false);
  mret true.

(** [evx_stop_ares]: [ares_destroy] ends the queries under way with [ARES_EDESTRUCTION]. *)
Definition end_query (d : cm2_dest_e) (v6 : bool) : M () :=
  l ← gets (fun g => get_list v6 (a_res (cm2_get_addr d g)));
  when (in_progress l) (cm2_ares_host_cb d v6 ARES_EDESTRUCTION (mk_hostent AF_OTHER [])).
Definition ares_resolve_timeout : M () :=
  i ← gets chan_initialized;
  _ ← when i (_ ← call_ ADestroyAres;
              _ ← end_query CM2_DEST_REDIR true; _ ← end_query CM2_DEST_REDIR false;
              _ ← end_query CM2_DEST_MANAGER true; end_query CM2_DEST_MANAGER false);
  modify (set chan_initialized false).

Definition ares_set_ipv6_pref (d : cm2_dest_e) (g : cm2_state_t ares) : cm2_state_t ares :=
  match d with
  | CM2_DEST_REDIR => upd addr_redirector (upd a_res (set ipv6_pref true)) g
  | CM2_DEST_MANAGER => upd addr_manager (upd a_res (set ipv6_pref (ipv6_pref (a_res (addr_redirector g))))) g
  end.

Definition cm2_validate_target_addr (k : cm2_main_link_t) (l : cm2_addr_list) (v6 : bool) : res bool :=
  let i := if v6 then ipv6 k else ipv4 k in
  if negb (is_ip i) || ip_blocked i then Ok false else
  match h_addr_list l with
  | None => Ok false
  | Some a =>
      e ← entry a (h_cur_idx l);
      match e with
      | None => Ok false
      | Some _ => Ok (bool_decide (h_addrtype l = (if v6 then AF_INET6 else AF_INET)))
      end
  end.

Definition cm2_pick_next_addr : M bool :=
  k ← gets link;
  d ← gets dest;
  r ← gets (fun g => a_res (cm2_curr_addr g));
  v4 ← lift (cm2_validate_target_addr k (ipv4_addr_list r) false);
  v6 ← lift (cm2_validate_target_addr k (ipv6_addr_list r) true);
  if negb v4 && negb v6 then mret false else
  if (ipv6_pref r && v6) || (negb (ipv6_pref r) && v4) then mret true else
  _ ← modify (upd_addr d (upd a_res (set ipv6_pref v6)));
  mret true.

Definition cm2_write_target_addr : M bool :=
  a ← gets cm2_curr_addr;
  let v6 := ipv6_pref (a_res a) in
  let l := get_list v6 (a_res a) in
  arr ← lift (deref (h_addr_list l));
  e ← lift (entry arr (h_cur_idx l));
  buf ← lift (deref e);
  match env_ntop (if v6 then AF_INET6 else AF_INET) buf with
  | None => mret false
  | Some s =>
      _ ← modify (set ipv6_manager_con v6);
      cm2_ovsdb_set_Manager_target (target_bracketed (proto a) s (port a))
  end.

Definition ares_move_next_target_addr : M () :=
  d ← gets dest;
  modify (upd_addr d (upd a_res (fun r =>
    upd ipv6_pref negb (upd_list (ipv6_pref r) (upd h_cur_idx (fun i => i32 (i + 1))) r)))).

Definition ares_write_current_target_addr : M bool :=
  ok ← cm2_pick_next_addr; if (ok : bool) then cm2_write_target_addr else mret false.
Definition ares_write_next_target_addr : M bool :=
  _ ← ares_move_next_target_addr; ares_write_current_target_addr.

#[export] Instance ares_resolver : Resolver ares := {
  cm2_free_addr_list := ares_free_addr_list;
  cm2_set_ipv6_pref := ares_set_ipv6_pref;
  cm2_resolve := ares_resolve;
  cm2_is_addr_resolved := fun a => negb (in_progress (ipv4_addr_list (a_res a))) && negb (in_progress (ipv6_addr_list (a_res a)));
  cm2_resolve_timeout := ares_resolve_timeout;
  cm2_write_current_target_addr := ares_write_current_target_addr;
  cm2_write_next_target_addr := ares_write_next_target_addr;
  cm2_move_next_target_addr := ares_move_next_target_addr
}.
End Ares.
End Ares.
