(* ===== verification/Cm2Link.v ===== *)
(** * Cm2Link: the uplinks of the connection manager

    The functions of [cm2/src/cm2_net.c], [cm2_ovsdb.c] and [cm2_stability.c] that the
    state machine calls and that read or change [g_state]: the bridge of the main link, its
    IP configuration, the choice of the used uplink, the connectivity checks.  Reads and
    writes of the database are calls of the environment.  Two of these functions call
    [cm2_update_state] again; it is the variable [update_state] here and tied in
    [Cm2Event]. *)
From S2P Require Import Prelude CString Cm2State.
Open Scope Z_scope.

(** ** [cm2_net.c]: interface types *)
Definition cm2_is_eth_type (t : string) : bool := String.eqb t "eth" || String.eqb t "vlan" || String.eqb t "pppoe".
Definition cm2_is_wifi_type (t : string) : bool := String.eqb t "vif" || String.eqb t "gre".
Definition cm2_is_lte_type (t : string) : bool := String.eqb t "lte".
Definition cm2_link_is_bridge (k : cm2_main_link_t) : bool := negb (String.eqb (bridge_name k) "").

(** ** The states of an uplink *)
Definition cm2_get_uplink_state_from_str (s : string) : cm2_uplink_state_t :=
  if String.eqb s "none" then CM2_UPLINK_NONE else
  if String.eqb s "ready" then CM2_UPLINK_READY else
  if String.eqb s "inactive" then CM2_UPLINK_INACTIVE else
  if String.eqb s "active" then CM2_UPLINK_ACTIVE else
  if String.eqb s "blocked" then CM2_UPLINK_BLOCKED else
  if String.eqb s "unblocking" then CM2_UPLINK_UNBLOCKING else CM2_UPLINK_NONE.
Definition util_ip_to_state (u : cmu_row) (v6 : bool) : cm2_uplink_state_t :=
  match (if v6 then cmu_ipv6 u else cmu_ipv4 u) with None => CM2_UPLINK_NONE | Some s => cm2_get_uplink_state_from_str s end.
Definition no_traffic (s : cm2_uplink_state_t) : bool := bool_decide (s = CM2_UPLINK_BLOCKED \/ s = CM2_UPLINK_UNBLOCKING).

Section Cm2Link.
Context {R : Type} `{Cm2Env} `{Cm2Cfg}.
Notation M := (M R).

Definition cm2_get_uplink_name (g : cm2_state_t R) : string :=
  if cm2_link_is_bridge (link g) then bridge_name (link g) else if_name (link g).

Definition cm2_ovsdb_CMU_get_ip_state (i : string) : M (option (cm2_uplink_state_t * cm2_uplink_state_t)) :=
  c ← call (ASelectUplink i) env_row;
  mret ((fun c => (util_ip_to_state c false, util_ip_to_state c true)) <$> c).

(** [ip] is [g_state.link.ipv4] wherever these two are called from here. *)
Definition cm2_util_set_local_ip_cfg (s : inet_row) (i : string) : M () :=
  let scheme old := match ip_assign_scheme s with
    | None => CM2_IP_NOT_SET
    | Some t => if String.eqb t "static" then CM2_IP_STATIC else if String.eqb t "none" then CM2_IP_NONE
                else if String.eqb t "dhcp" then CM2_IPV4_DHCP else old
    end in
  let has := match inet_addr s with None => false | Some a => negb (String.eqb a "" || String.eqb a "0.0.0.0") end in
  _ ← modify (upd link (upd ipv4 (fun p => set is_ip has (upd assign_scheme scheme p))));
  call_ (ASetIpv4 i (if has then CM2_UPLINK_READY else CM2_UPLINK_NONE)).
Definition cm2_util_get_ip_inet_state_cfg (uplink i : string) : M () :=
  s ← call (ASelectInet uplink) env_inet;
  match s with None => mret () | Some s => cm2_util_set_local_ip_cfg s i end.

Definition cm2_update_main_link_ip : M () :=
  i ← gets (fun g => if_name (link g));
  st ← cm2_ovsdb_CMU_get_ip_state i;
  match st with
  | None => mret ()
  | Some (s4, s6) =>
      _ ← modify (upd link (fun k => upd ipv6 (set ip_blocked (no_traffic s6)) (upd ipv4 (set ip_blocked (no_traffic s4)) k)));
      uplink ← gets cm2_get_uplink_name;
      global ← call (AIpv6Global uplink) env_bool;
      k ← gets link;
      if global && negb (ip_blocked (ipv6 k)) then
        _ ← modify (upd link (upd ipv6 (fun p => set assign_scheme CM2_IPV6_DHCP (set is_ip true p))));
        when (bool_decide (s6 = CM2_UPLINK_NONE)) (call_ (ASetIpv6 (if_name k) CM2_UPLINK_READY))
      else if negb (ip_blocked (ipv4 k)) then cm2_util_get_ip_inet_state_cfg uplink (if_name k)
      else mret ()
  end.

Definition cm2_ovsdb_WIC_dhcp_renew (i : string) : M () := call_ (ADhcpRenew i).
Definition cm2_ovsdb_refresh_dhcp (i : string) : M () :=
  if negb wan_link_selection then mret () else
  k ← gets link;
  if bool_decide (assign_scheme (ipv6 k) = CM2_IPV6_DHCP) && negb (ip_blocked (ipv6 k)) then cm2_ovsdb_WIC_dhcp_renew i
  else when (negb (ip_blocked (ipv4 k))) (cm2_ovsdb_WIC_dhcp_renew i).

Definition cm2_restart_iface (i : string) : M () := _ ← call_ (AIfaceEnabled i false); call_ (AIfaceEnabled i true).

Definition cm2_ovsdb_inherit_ip_bridge_conf (src dst : string) : M () :=
  ok ← call (ACopyIpv4 src dst) env_bool;
  when ok (_ ← call_ (ADhcpv6 src false); call_ (ADhcpv6 dst true)).

(** No build has a WAN bridge ([cm2_is_wan_bridge]). *)
Definition cm2_ovsdb_set_default_wan_bridge (i t : string) : M () :=
  when (cm2_is_wifi_type t) (call_ (ABridgeState i LAN_BRIDGE_NAME)).
Definition cm2_update_device_type (t : string) : M () :=
  modify (fun g => set dev_type (if cm2_is_wifi_type t then CM2_DEVICE_LEAF
    else if cm2_link_is_bridge (link g) then CM2_DEVICE_BRIDGE else CM2_DEVICE_ROUTER) g).

(** [is_mac_local_bit_set] is bit 1 of the first byte. *)
Definition cm2_update_mac_local_bit (br : string) (to : bool) : M bool :=
  '(ok, b) ← call (AMacGet br) (fun n => (env_bool n, env_int n));
  if negb ok then mret false else
  if eqb (Z.testbit b 1) to then mret false else call (AMacSet br) env_bool.

Definition cm2_bridge_manage_port (br i : string) (want is_in : bool) : M () :=
  when (negb (eqb want is_in)) (call_ (AManagePort br i want)).

Section Nested.
(** [cm2_update_state], called from here. *)
Context (update_state : cm2_reason_e -> M ()).

Definition cm2_update_bridge_cfg (br i : string) (brop : bool) (mstate : cm2_par_state_t) (local_bit : bool) : M () :=
  k ← gets link;
  _ ← when (negb (ip_blocked (ipv4 k)) && negb (String.eqb br "")) (cm2_util_get_ip_inet_state_cfg br (if_name k));
  _ ← when (bool_decide (mstate <> CM2_PAR_NOT_SET)) (call_ (AMacReporting i (bool_decide (mstate = CM2_PAR_TRUE))));
  is_in ← call (AInBridge br i) env_bool;
  u1 ← (if lan_set_local_mac && local_bit && brop && negb is_in then cm2_update_mac_local_bit LAN_BRIDGE_NAME false else mret false);
  _ ← cm2_bridge_manage_port br i brop is_in;
  _ ← call_ (AAnnounce i);
  u2 ← (if lan_set_local_mac && local_bit && negb brop && is_in then cm2_update_mac_local_bit LAN_BRIDGE_NAME true else mret u1);
  when u2 (update_state CM2_REASON_OVS_INIT).

Definition cm2_connection_clear_used : M () :=
  used ← gets (fun g => is_used (link g));
  if negb used then mret () else
  _ ← modify (fun g => if bool_decide (dev_type g = CM2_DEVICE_BRIDGE) && cm2_is_eth_type (if_type (link g))
                       then set old_link (link g) g else g);
  k ← gets link;
  _ ← when (cm2_link_is_bridge k)
        (if cm2_is_eth_type (if_type k) then
           _ ← cm2_ovsdb_inherit_ip_bridge_conf (bridge_name k) (if_name k);
           cm2_update_bridge_cfg (bridge_name k) (if_name k) false CM2_PAR_TRUE true
         else cm2_update_bridge_cfg (bridge_name k) (if_name k) false CM2_PAR_NOT_SET false);
  i ← gets (fun g => if_name (link g));
  _ ← call_ (AUsedState i false);
  modify (set link zero_link).

Definition cm2_util_switch_role (u : cmu_row) : M () :=
  c ← gets connected;
  t ← gets (fun g => if_type (link g));
  when (c && cm2_is_wifi_type t && cm2_is_eth_type (cmu_if_type u)) (call_ ARestartManagers).

Definition C_IFNAME_LEN : nat := 65.
Definition IFTYPE_SIZE : nat := 129.
Definition cm2_connection_set_is_used (u : cmu_row) : M bool :=
  if negb (cmu_has_L2 u) || negb (cmu_has_L3 u) then mret false else
  k ← gets link;
  if negb (blocked k) && is_used k && (cmu_priority u <=? priority k) then mret false else
  _ ← cm2_util_switch_role u;
  _ ← cm2_connection_clear_used;
  _ ← modify (upd link (fun k =>
        set priority (cmu_priority u) (set blocked false (set is_used_echoed false (set is_used true
          (set if_type (strscpy (cmu_if_type u) IFTYPE_SIZE) (set if_name (strscpy (cmu_if_name u) C_IFNAME_LEN) k)))))));
  _ ← match cmu_bridge u with
      | None => mret ()
      | Some br =>
          _ ← modify (upd link (set bridge_name (strscpy br C_IFNAME_LEN)));
          cm2_update_bridge_cfg br (cmu_if_name u) true CM2_PAR_FALSE (cm2_is_eth_type (cmu_if_type u))
      end;
  call (AUsedState (cmu_if_name u) true) env_bool.

(** *** [cm2_ovsdb_recalc_links] *)
Definition cm2_util_set_default_block_ts (i : string) : M Z :=
  r ← call ARandomRange env_int;
  let t_new := 30 + r in
  now ← time_monotonic;
  _ ← call_ (AUnblockTs i (Some (now + t_new)));
  mret t_new.

(** The uplink chosen so far, the timer, and the states of the last row seen. *)
Record recalc := mk_recalc { rc_uplink : option cmu_row; rc_t_new : Z; rc_ipv4 : cm2_uplink_state_t; rc_ipv6 : cm2_uplink_state_t }.

Definition recalc_timer (now : Z) (u : cmu_row) (s4 s6 : cm2_uplink_state_t) (t_new : Z) : M Z :=
  t_new ← match cmu_unblock_ts u with
    | Some t =>
        _ ← when (bool_decide (s4 <> CM2_UPLINK_BLOCKED) && bool_decide (s6 <> CM2_UPLINK_BLOCKED)) (call_ (AUnblockTs (cmu_if_name u) None));
        if t - now <=? 0 then
          _ ← when (bool_decide (s4 = CM2_UPLINK_BLOCKED)) (call_ (ASetIpv4 (cmu_if_name u) CM2_UPLINK_UNBLOCKING));
          _ ← when (bool_decide (s6 = CM2_UPLINK_BLOCKED)) (call_ (ASetIpv6 (cmu_if_name u) CM2_UPLINK_UNBLOCKING));
          mret t_new
        else mret (if (t_new =? 0) || (t <? now + t_new) then t - now else t_new)
    | None =>
        if bool_decide (s4 = CM2_UPLINK_BLOCKED) || bool_decide (s6 = CM2_UPLINK_BLOCKED)
        then cm2_util_set_default_block_ts (cmu_if_name u) else mret t_new
    end;
  _ ← when (negb (t_new =? 0)) (call_ (AUplinksInterval (i32 (t_new + 2))));
  mret t_new.

(** No usable IP on the uplink: the condition under which a row is passed over. *)
Definition down (s other : cm2_uplink_state_t) : bool :=
  bool_decide (s = CM2_UPLINK_INACTIVE \/ s = CM2_UPLINK_BLOCKED) &&
  bool_decide (other <> CM2_UPLINK_ACTIVE /\ other <> CM2_UPLINK_READY).
Definition recalc_row (block_current : bool) (now : Z) (rc : recalc) (u : cmu_row) : M recalc :=
  let s6 := util_ip_to_state u true in let s4 := util_ip_to_state u false in
  t_new ← recalc_timer now u s4 s6 (rc_t_new rc);
  let keep := mk_recalc (rc_uplink rc) t_new s4 s6 in
  if block_current && cmu_is_used u then
    _ ← when (bool_decide (s4 <> CM2_UPLINK_NONE /\ s4 <> CM2_UPLINK_UNBLOCKING)) (call_ (ASetIpv4 (cmu_if_name u) CM2_UPLINK_BLOCKED));
    _ ← when (bool_decide (s6 <> CM2_UPLINK_NONE /\ s6 <> CM2_UPLINK_UNBLOCKING)) (call_ (ASetIpv6 (cmu_if_name u) CM2_UPLINK_BLOCKED));
    mret keep
  else if down s6 s4 || down s4 s6 then mret keep
  else mret (mk_recalc (match rc_uplink rc with
                        | None => Some u
                        | Some v => if cmu_priority v <? cmu_priority u then Some u else Some v
                        end) t_new s4 s6).
Fixpoint recalc_rows (block_current : bool) (now : Z) (rc : recalc) (us : list cmu_row) : M recalc :=
  match us with
  | [] => mret rc
  | u :: us => rc ← recalc_row block_current now rc u; recalc_rows block_current now rc us
  end.

Definition cm2_ovsdb_recalc_links (block_current : bool) : M bool :=
  us ← call ASelectUplinks env_rows;
  match us with
  | [] => mret false
  | _ =>
      now ← time_monotonic;
      rc ← recalc_rows block_current now (mk_recalc None 0 CM2_UPLINK_NONE CM2_UPLINK_NONE) us;
      match rc_uplink rc with
      | None => mret false
      | Some u =>
          _ ← (if negb (cmu_is_used u) then
                 _ ← modify (upd link (set blocked true));
                 _ ← cm2_connection_set_is_used u; mret ()
               else modify (upd link (fun k => upd ipv4 (set ip_blocked (no_traffic (rc_ipv4 rc)))
                                                 (upd ipv6 (set ip_blocked (no_traffic (rc_ipv6 rc))) k))));
          mret true
      end
  end.

(** ** [cm2_stability.c] *)
Definition cm2_reset_restart_time : M () := t ← time_monotonic; modify (set restart_timestamp t).
Definition cm2_get_restart_time : M Z := t ← time_monotonic; r ← gets restart_timestamp; mret (i32 (t - r)).

Definition cm2_vtag_stability_check : M bool :=
  s ← gets (fun g => vt_state (vtag (link g)));
  if bool_decide (s = CM2_VTAG_PENDING) then
    _ ← modify (upd link (upd vtag (upd vt_failure (fun n => i32 (n + 1)))));
    f ← gets (fun g => vt_failure (vtag (link g)));
    _ ← when (THRESH_VTAG <? f) (update_state CM2_REASON_BLOCK_VTAG);
    mret false
  else mret true.
End Nested.
End Cm2Link.
