(* ===== verification/Cm2Event.v ===== *)
(** * Cm2Event: the state machine of the connection manager

    Models [cm2/src/cm2_event.c] whole, with the connectivity checks of [cm2_stability.c]
    it runs and the two database callbacks of [cm2_ovsdb.c] that drive it
    ([callback_AWLAN_Node], [callback_Manager]).  [cm2_update_state] goes round while
    the state changes, and calls itself through the functions of [Cm2Link]; both count
    against its fuel. *)
From S2P Require Import Prelude CString Cm2State Cm2Resolve Cm2Link.
Open Scope Z_scope.

Section Cm2Event.
Context {R : Type} `{Cm2Env} `{Cm2Cfg} `{!Resolver R}.
Notation M := (M R).

(** ** Time and state *)
Definition CM2_NO_TIMEOUT : Z := -1.
Definition CM2_MAX_DISCONNECTS : Z := 10.
Definition CM2_STABLE_PERIOD : Z := 300.
Definition CM2_RESOLVE_RETRY_THRESHOLD : Z := 10.
Definition CM2_GW_SKIP_RESTART_TIMEOUT : Z := 86400.
(** [cm2_state_info[s].timeout]; [q] is the one that changes. *)
Definition state_timeout (q : Z) (s : cm2_state_e) : Z :=
  match s with
  | CM2_STATE_INIT | CM2_STATE_OVS_INIT | CM2_STATE_CONNECTED => CM2_NO_TIMEOUT
  | CM2_STATE_LINK_SEL => 120
  | CM2_STATE_WAN_IP | CM2_STATE_NTP_CHECK | CM2_STATE_INTERNET => 60
  | CM2_STATE_TRY_RESOLVE => 180
  | CM2_STATE_RE_CONNECT => 30
  | CM2_STATE_TRY_CONNECT => 10
  | CM2_STATE_FAST_RECONNECT | CM2_STATE_FAST_RECONNECT_WAIT => 20
  | CM2_STATE_QUIESCE_OVS => q
  end.

Definition cm2_reset_time : M () := t ← time_monotonic; modify (set timestamp t).
Definition cm2_get_time : M Z := t ← time_monotonic; s ← gets timestamp; mret (i32 (t - s)).
Definition cm2_get_timeout : M Z := getw (fun w => state_timeout (w_quiesce w) (state (w_g w))).
Definition cm2_timeout : M bool :=
  seconds ← cm2_get_timeout;
  delta ← cm2_get_time;
  mret (negb (seconds =? CM2_NO_TIMEOUT) && (seconds <=? delta)).

Definition cm2_set_state (ok : bool) (s : cm2_state_e) : M () :=
  old ← gets state;
  if bool_decide (old = s) then mret () else
  c ← gets connected;
  t ← gets target;
  _ ← call_ (AState ok old s c t);
  _ ← modify (set state s);
  _ ← cm2_reset_time;
  modify (set state_changed true).

Definition cm2_state_changed : M bool :=
  c ← gets state_changed; _ ← modify (set state_changed false); mret c.

Definition cm2_is_connected_to (d : cm2_dest_e) (g : cm2_state_t R) : bool :=
  bool_decide (state g = CM2_STATE_CONNECTED) && bool_decide (dest g = d).

(** The table has six initialisers; the other three elements are NULL. *)
Definition cm2_reason_name (r : cm2_reason_e) : option string :=
  match r with
  | CM2_REASON_TIMER => Some "timer"
  | CM2_REASON_AWLAN => Some "ovs-awlan"
  | CM2_REASON_MANAGER => Some "ovs-manager"
  | CM2_REASON_CHANGE => Some "state-change"
  | CM2_REASON_LINK_USED => Some "link-used"
  | CM2_REASON_LINK_NOT_USED => Some "link-not-used"
  | CM2_REASON_SET_NEW_VTAG | CM2_REASON_BLOCK_VTAG | CM2_REASON_OVS_INIT => None
  end%string.
(** The text [%s] makes of a pointer: ISO C leaves NULL undefined, the GNU C library
    documents that it prints [(null)]. *)
Definition printf_s (s : option string) : string := default "(null)"%string s.
(** The lines of the dump that do not depend on the reason, and the writing of the file, are
    left out; they change no state of the program. *)
Definition cm2_log_state (r : cm2_reason_e) : M () := call_ (ALogState (printf_s (cm2_reason_name r))).

(** [backoff] is [unsigned int], the bounds are [int]. *)
Definition cm2_compute_backoff : M () :=
  g ← gets id;
  b ← (if fast_backoff g then mret (u32 OVS_SHORT_BACKOFF) else
       fd ← call AUrandomOpen env_bool;
       if negb fd then mret (u32 (max_backoff g)) else
       '(ok, r) ← call AUrandom (fun n => (env_bool n, env_int n));
       if negb ok then mret (u32 (max_backoff g)) else
       let range := u32 (max_backoff g - min_backoff g) in
       if range =? 0 then fail FDiv else mret (u32 (u32 r mod range + min_backoff g)));
  modw (set w_quiesce (i32 b)).

Definition cm2_extender_init_state : M () :=
  _ ← modify (set link zero_link);
  con ← call ASelectUsed env_row;
  _ ← match con with
      | Some c => modify (upd link (fun k =>
          set priority (cmu_priority c) (set is_used_echoed true (set is_used true
            (set if_type (strscpy (cmu_if_type c) IFTYPE_SIZE) (set if_name (strscpy (cmu_if_name c) C_IFNAME_LEN) k))))))
      | None => modify (upd link (set priority (-1)))
      end;
  modify (fun g => set dev_type CM2_DEVICE_NONE (set fast_backoff true g)).

(** ** The gateway's offline configuration *)
Definition cm2_gw_offline_start_cb : M () := call_ AGwOfflineEnable.
Definition cm2_enable_gw_offline : M bool :=
  g ← gets id;
  if cm2_is_wifi_type (if_type (link g)) then mret false else
  if cm2_is_connected_to CM2_DEST_MANAGER g then mret false else
  en ← call AGwOfflineEnabled env_bool;
  if negb en then mret false else
  active ← call AGwOfflineActive env_bool;
  if (active : bool) then mret true else
  ready ← call AGwOfflineReady env_bool;
  if negb ready then mret false else
  _ ← modify (set gw_offline_start true);
  mret true.
Definition cm2_disable_gw_offline_state : M () :=
  active ← call AGwOfflineActive env_bool;
  when active (call_ AGwOfflineDisable).

(** ** Skipping a reconnect *)
Definition cm2_dismiss_skip_reconnect : M () := modify (set skip_reconnect false).
Definition cm2_ovs_connect : M () :=
  g ← gets id;
  _ ← modify (set skip_reconnect false);
  if negb (connected_at_least_once g) then cm2_set_state true CM2_STATE_OVS_INIT
  else if connected g then
    if skip_reconnect g then cm2_set_state true CM2_STATE_CONNECTED
    else _ ← modify (set fast_backoff true); cm2_set_state true CM2_STATE_FAST_RECONNECT
  else cm2_set_state true CM2_STATE_OVS_INIT.

(** ** VLAN tags *)
Definition cm2_set_new_vtag : M bool :=
  k ← gets link;
  let v := vtag k in
  if bool_decide (vt_state v = CM2_VTAG_BLOCKED) && (vt_tag v =? vt_blocked_tag v) then mret false else
  ok ← (if cm2_is_eth_type (if_type k) then call (APortTrunks (if_name k) (vt_tag v)) env_bool else mret true);
  if negb ok then mret false else
  i ← gets cm2_get_uplink_name;
  ok ← call (APortTag i (vt_tag v) true) env_bool;
  if negb ok then mret false else
  _ ← modify (upd link (upd vtag (fun v => set vt_failure 0 (set vt_state CM2_VTAG_PENDING v))));
  mret true.
Definition cm2_block_vtag : M bool :=
  _ ← modify (upd link (upd vtag (fun v => set vt_blocked_tag (vt_tag v) (set vt_failure 0 (set vt_state CM2_VTAG_BLOCKED v)))));
  i ← gets cm2_get_uplink_name;
  tag ← gets (fun g => vt_tag (vtag (link g)));
  call (APortTag i tag false) env_bool.

Definition cm2_restore_bridge_config : M () :=
  g ← gets id;
  if bool_decide (dev_type g <> CM2_DEVICE_BRIDGE) then mret () else
  if negb (cm2_link_is_bridge (old_link g)) || cm2_link_is_bridge (link g) then mret () else
  if negb (cm2_is_eth_type (if_type (link g))) then mret () else
  if negb (String.eqb (if_name (old_link g)) (if_name (link g))) then mret () else
  call_ (ABridgeState (if_name (old_link g)) (bridge_name (old_link g))).

(** ** Connectivity checks: scheduling *)
Definition cm2_util_set_ip_opts (i t : string) (opts : Z) : M Z :=
  st ← cm2_ovsdb_CMU_get_ip_state i;
  match st with
  | None => mret opts
  | Some (s4, s6) =>
      let eqs (s x : cm2_uplink_state_t) := bool_decide (s = x) in
      let add (b : bool) f o := if b then Z.lor o f else o in
      let drop (b : bool) f o := if b then Z.ldiff o f else o in
      let flip (b : bool) f o := if b then Z.lor o f else Z.ldiff o f in
      let o := add (eqs s4 CM2_UPLINK_UNBLOCKING || eqs s6 CM2_UPLINK_UNBLOCKING) (Z.lor ROUTER_CHECK INTERNET_CHECK) opts in
      let o := flip (negb (eqs s4 CM2_UPLINK_BLOCKED) && negb (eqs s4 CM2_UPLINK_NONE)) IPV4_CHECK o in
      let o := flip (negb (eqs s6 CM2_UPLINK_BLOCKED) && negb (eqs s6 CM2_UPLINK_NONE)) IPV6_CHECK o in
      let o := add (negb (eqs s4 CM2_UPLINK_INACTIVE) && eqs s6 CM2_UPLINK_NONE) IPV4_CHECK o in
      let o := add (negb (eqs s6 CM2_UPLINK_INACTIVE) && eqs s4 CM2_UPLINK_NONE) IPV6_CHECK o in
      let o := add ((Z.land o IPV4_CHECK =? 0) && (Z.land o IPV6_CHECK =? 0)) IPV4_CHECK o in
      let o := add (eqs s4 CM2_UPLINK_INACTIVE || eqs s6 CM2_UPLINK_INACTIVE) FAST_CHECK o in
      mret (drop (cm2_is_lte_type t) ROUTER_CHECK o)
  end.

Definition cm2_is_stability_check_pending (i : string) : M bool := getw (fun w => bool_decide (i ∈ ac_uname <$> w_async w)).
(** The parent's side of [fork]. *)
Definition cm2_util_req_stability_check_recalc (i t clink : string) (opts : Z) (db_update repeat : bool) : M () :=
  if opts =? 0 then mret () else
  main ← gets (fun g => if_name (link g));
  pending ← cm2_is_stability_check_pending main;
  if (pending : bool) then mret () else
  opts ← cm2_util_set_ip_opts i t opts;
  ok ← call (AFork clink opts) env_bool;
  when ok (modw (upd w_async (cons (mk_async (strscpy i C_IFNAME_LEN) (strscpy t IFTYPE_SIZE) (strscpy clink C_IFNAME_LEN) opts db_update repeat)))).
Definition cm2_connection_req_stability_check_async (i t clink : string) (opts : Z) (db_update repeat : bool) : M () :=
  opts ← cm2_util_set_ip_opts i t opts;
  cm2_util_req_stability_check_recalc i t clink opts db_update repeat.
Definition cm2_stability_update_interval (short : bool) : M () := call_ (AStabilityInterval short).
Definition cm2_unreachable_cloud_counter (n : Z) : M () :=
  i ← gets (fun g => if_name (link g)); call_ (ACloudCounter i n).

Section Nested.
(** [cm2_update_state], called from here. *)
Context (update_state : cm2_reason_e -> M ()).

(** ** Restarting *)
Definition next_method (m : cm2_restore_method) : cm2_restore_method :=
  match m with CM2_RESTORE_REFRESH_DHCP => CM2_RESTORE_RESTART_INTERFACE | CM2_RESTORE_RESTART_INTERFACE => CM2_RESTORE_REFRESH_DHCP end.
(** Up to the label [restart]: whether the restart is to be skipped. *)
Definition skip_restart : M bool :=
  k ← gets link;
  if cm2_is_wifi_type (if_type k) then mret false else
  ok ← cm2_vtag_stability_check update_state;
  if negb ok then mret true else
  dt ← gets dev_type;
  let skip := BT_CONNECTABLE && bool_decide (dt = CM2_DEVICE_NONE) in
  if bool_decide (dt = CM2_DEVICE_ROUTER) then
    i ← gets (fun g => if_name (link g));
    tunnel ← call (ATunnelCreated i) env_bool;
    if (tunnel : bool) then mret true else
    m ← gets restore_method;
    _ ← match m with CM2_RESTORE_REFRESH_DHCP => cm2_ovsdb_refresh_dhcp i | CM2_RESTORE_RESTART_INTERFACE => cm2_restart_iface i end;
    _ ← modify (upd restore_method next_method);
    mret true
  else
    other ← cm2_ovsdb_recalc_links update_state true;
    if (other : bool) then mret true else
    off ← cm2_enable_gw_offline;
    mret (skip || off).
Definition cm2_trigger_restart_managers : M () :=
  skip ← skip_restart;
  _ ← call_ ADumpDebug;
  delta ← cm2_get_restart_time;
  if skip && (delta <? CM2_GW_SKIP_RESTART_TIMEOUT) then
    c ← gets connected;
    when (negb c) cm2_reset_time
  else _ ← call_ AWdtPing; call_ ARestartManagers.

Definition cm2_restart_ovs_connection (ok : bool) : M () :=
  n ← gets cnts;
  let gw_offline_en := (CLOUD_FATAL_THRESHOLD =? 0) ||
        ((ovs_resolve_fail n <? CLOUD_FATAL_THRESHOLD) && (ovs_con n <? CLOUD_FATAL_THRESHOLD)) in
  if wan_link_selection then
    if gw_offline_en then _ ← cm2_enable_gw_offline; cm2_set_state ok CM2_STATE_QUIESCE_OVS
    else cm2_trigger_restart_managers
  else
    _ ← when gw_offline_en (_ ← cm2_enable_gw_offline; mret ());
    cm2_ovs_connect.

(** ** Connectivity checks: results *)
Definition BLOCKING_LINK_THRESHOLD : Z := 2.
Definition has_opt (opts f : Z) : bool := negb (Z.land opts f =? 0).
Definition set_ip_state (i : string) (v6 : bool) (s : cm2_uplink_state_t) : M () :=
  call_ (if v6 then ASetIpv6 i s else ASetIpv4 i s).
Definition set_link_blocked (v6 b : bool) : M () :=
  modify (upd link (fun k => if v6 then upd ipv6 (set ip_blocked b) k else upd ipv4 (set ip_blocked b) k)).

Definition cm2_updating_ip (c : cmu_row) (opts : Z) (cs : conn_check) (v6 : bool) (s : cm2_uplink_state_t) : M () :=
  let rs := if v6 then router_ipv6_state cs else router_ipv4_state cs in
  let net := if v6 then internet_ipv6_state cs else internet_ipv4_state cs in
  _ ← when (cmu_is_used c) (set_link_blocked v6 false);
  if negb (has_opt opts (if v6 then IPV6_CHECK else IPV4_CHECK)) then mret () else
  let rc := has_opt opts ROUTER_CHECK in let ic := has_opt opts INTERNET_CHECK in
  if negb rc && negb ic then mret () else
  g ← gets id;
  let con_ok := (((ic && net) || ((cmu_internet_counter c <=? 0) && negb ic)) &&
                 ((rc && rs) || ((cmu_router_counter c <=? 0) && negb rc))) ||
                (cmu_is_used c && connected g && ((v6 && ipv6_manager_con g) || (negb v6 && negb (ipv6_manager_con g)))) in
  match s with
  | CM2_UPLINK_BLOCKED => when (cmu_is_used c) (set_link_blocked v6 true)
  | CM2_UPLINK_NONE | CM2_UPLINK_READY =>
      set_ip_state (cmu_if_name c) v6 (if con_ok then CM2_UPLINK_ACTIVE else CM2_UPLINK_INACTIVE)
  | CM2_UPLINK_INACTIVE =>
      if (con_ok : bool) then set_ip_state (cmu_if_name c) v6 CM2_UPLINK_ACTIVE
      else when ((BLOCKING_LINK_THRESHOLD <=? cmu_router_counter c) || (BLOCKING_LINK_THRESHOLD <=? cmu_internet_counter c))
             (set_ip_state (cmu_if_name c) v6 CM2_UPLINK_BLOCKED)
  | CM2_UPLINK_ACTIVE => when (negb con_ok) (set_ip_state (cmu_if_name c) v6 CM2_UPLINK_INACTIVE)
  | CM2_UPLINK_UNBLOCKING =>
      _ ← when con_ok (call_ (ARouteMetric (cmu_if_name c) 0));
      set_ip_state (cmu_if_name c) v6 (if con_ok then CM2_UPLINK_ACTIVE else CM2_UPLINK_BLOCKED)
  end.
Definition cm2_util_update_uplink_ip_state (c : cmu_row) (opts : Z) (cs : conn_check) : M () :=
  if negb wan_link_selection then mret () else
  _ ← match cmu_ipv4 c with None => mret () | Some s => cm2_updating_ip c opts cs false (cm2_get_uplink_state_from_str s) end;
  match cmu_ipv6 c with None => mret () | Some s => cm2_updating_ip c opts cs true (cm2_get_uplink_state_from_str s) end.

Definition CM2_RESTORE_IP : Z := 0.
Definition CM2_RESTORE_MAIN_LINK : Z := 4.
Definition cm2_restore_connection (opt : Z) : M () :=
  if negb wan_link_selection then mret () else
  if opt =? 0 then mret () else
  c ← gets connected;
  if (c : bool) then mret () else
  k ← gets link;
  tunnel ← call (ATunnelCreated (if_name k)) env_bool;
  if (tunnel : bool) then mret () else
  if negb (cm2_is_eth_type (if_type k)) then mret () else
  i ← gets cm2_get_uplink_name;
  if Z.testbit opt CM2_RESTORE_IP then cm2_ovsdb_refresh_dhcp i
  else when (Z.testbit opt CM2_RESTORE_MAIN_LINK) (cm2_restart_iface i).

Definition cm2_stability_handle_fatal_state (counter : Z) : M () :=
  if negb wan_link_selection then mret () else
  _ ← when (counter =? 0) cm2_reset_restart_time;
  when (THRESH_FATAL <? counter + 1)
    (i ← gets (fun g => if_name (link g)); _ ← call_ (ATcpdump i false); cm2_trigger_restart_managers).

(** A counter of failures in the database, [-1] when unset. *)
Definition bump_counter (n : Z) : Z := if n <? 0 then 1 else i32 (n + 1).
Definition uplink_event (i : string) : M () := wan ← call AUplinkEvent env_bool; when wan (call_ AUplinkEvent).
(** The check of a family in [opts] failed, or no family is in [opts]. *)
Definition unreachable (opts : Z) (s4 s6 : bool) : bool :=
  (has_opt opts IPV4_CHECK && negb s4) || (has_opt opts IPV6_CHECK && negb s6) ||
  (negb (has_opt opts IPV4_CHECK) && negb (has_opt opts IPV6_CHECK)).
(** The repairs due at a count: [CM2_RESTORE_IP] every [n]th time, [CM2_RESTORE_MAIN_LINK] every [n + 1]st.
    The thresholds are constants of the build; 0 does not compile (warnings are errors, [build/flags.mk]). *)
Definition restores (n counter : Z) : Z :=
  Z.lor (if counter mod n =? 0 then 2 ^ CM2_RESTORE_IP else 0) (if counter mod (n + 1) =? 0 then 2 ^ CM2_RESTORE_MAIN_LINK else 0).

(** The main uplink's port is missing from its bridge. *)
Definition broken_bridge (i : string) (c : cmu_row) : M () :=
  let counter := bump_counter (cmu_link_counter c) in
  main ← gets (fun g => if_name (link g));
  counter ← (if counter =? THRESH_LINK then
    ok ← call (ANetworkState main false) env_bool;
    _ ← when ok (modify (upd link (set restart_pending true)));
    _ ← call_ (ANetworkState main true);
    if THRESH_FATAL <? counter + 1 then _ ← cm2_stability_handle_fatal_state counter; mret 0 else mret counter
  else mret counter);
  call_ (ALinkCounter i counter).

(** [muplink] is NULL unless the uplink is the main one; else it is the row's bridge, or the
    string ["none"]. *)
Definition muplink (main : bool) (c : cmu_row) : option string :=
  if main then Some (match cmu_bridge c with Some b => b | None => "none"%string end) else None.
Definition tcpdump (on : bool) (m : option string) (start : bool) : M () :=
  match m with Some i => when on (call_ (ATcpdump i start)) | None => mret () end.

(** The branch of [ROUTER_CHECK], and its repairs. *)
Definition check_router (i : string) (main : bool) (c : cmu_row) (opts : Z) (cs : conn_check) : M Z :=
  let m := muplink main c in
  '(counter, ropt) ← (if unreachable opts (router_ipv4_state cs) (router_ipv6_state cs) then
      let n := bump_counter (cmu_router_counter c) in
      _ ← when (n mod THRESH_ROUTER =? 0) (uplink_event i);
      mret (n, restores THRESH_ROUTER n)
    else
      _ ← (if main && USE_TCPDUMP && (THRESH_TCPDUMP <=? cmu_router_counter c) then tcpdump true m false else uplink_event i);
      mret (0, 0));
  _ ← call_ (ARouterCounter i counter);
  t ← gets (fun g => if_type (link g));
  _ ← tcpdump (USE_TCPDUMP && (counter =? THRESH_TCPDUMP) && cm2_is_eth_type t) m true;
  _ ← tcpdump (cmu_router_counter c + 1 =? THRESH_FATAL) m false;
  _ ← when (cmu_is_used c) (cm2_stability_handle_fatal_state (cmu_router_counter c));
  mret ropt.
Definition check_internet (i : string) (c : cmu_row) (opts : Z) (cs : conn_check) : M Z :=
  '(counter, ropt) ← (if unreachable opts (internet_ipv4_state cs) (internet_ipv6_state cs) then
      let n := bump_counter (cmu_internet_counter c) in
      _ ← when (n mod THRESH_INTERNET =? 0) (uplink_event i);
      mret (n, restores THRESH_INTERNET n)
    else _ ← uplink_event i; mret (0, 0));
  _ ← call_ (AInternetCounter i counter);
  mret ropt.

(** [un] names the uplink: a buffer of [g_state.link], or a copy. *)
Definition cm2_connection_req_stability_process (un : cm2_state_t R -> string) (opts : Z) (db_update status : bool)
    (cs : conn_check) : M bool :=
  used ← gets (fun g => is_used (link g));
  if negb used then mret false else
  i ← gets un;
  con ← call (ASelectUplink i) env_row;
  match con with
  | None => mret false
  | Some c =>
      main ← gets (fun g => String.eqb (un g) (if_name (link g)));
      _ ← cm2_util_update_uplink_ip_state c opts cs;
      _ ← when (has_opt opts NTP_CHECK) (modify (set ntp_check (ntp_state cs)));
      if negb db_update then mret status else
      k ← gets link;
      broken ← match cmu_bridge c with
        | Some b => if main && cm2_link_is_bridge k && String.eqb (bridge_name k) b
                    then ok ← call (AValidatePort b (if_name k)) env_bool; mret (negb ok) else mret false
        | None => mret false
        end;
      if broken && (0 <? bump_counter (cmu_link_counter c)) then i ← gets un; _ ← broken_bridge i c; mret false else
      _ ← when (has_opt opts LINK_CHECK)
            (i ← gets un;
             _ ← when (link_state cs) (call_ AUplinkEvent);
             call_ (ALinkCounter i (if link_state cs then 0 else bump_counter (cmu_link_counter c))));
      i ← gets un;
      r1 ← (if has_opt opts ROUTER_CHECK then check_router i main c opts cs else mret 0);
      i ← gets un;
      r2 ← (if has_opt opts INTERNET_CHECK then check_internet i c opts cs else mret 0);
      i ← gets un;
      _ ← when (has_opt opts NTP_CHECK) (_ ← call_ (ANtpState i (ntp_state cs)); call_ AUplinkEvent);
      _ ← cm2_restore_connection (Z.lor r1 r2);
      mret status
  end.

Definition cm2_connection_req_stability_check (un : cm2_state_t R -> string) (t clink : string) (opts : Z) (db_update : bool) : M bool :=
  i ← gets un;
  opts ← cm2_util_set_ip_opts i t opts;
  _ ← call_ AWdtPing;
  '(ok, cs) ← call (ACheck clink opts) env_check;
  cm2_connection_req_stability_process un opts db_update ok cs.

(** ** [cm2_update_state]

    The cases of its switch, each with the local variables it uses; [true] means
    [return].  [up] is the pointer [uplink], into [g_state.link]. *)
Definition req_async (up : cm2_state_t R -> string) (opts : Z) (db_update repeat : bool) : M () :=
  k ← gets link;
  clink ← gets up;
  cm2_connection_req_stability_check_async (if_name k) (if_type k) clink opts db_update repeat.
Definition main_check (up : cm2_state_t R -> string) (opts : Z) (db_update : bool) : M bool :=
  t ← gets (fun g => if_type (link g));
  clink ← gets up;
  cm2_connection_req_stability_check (fun g => if_name (link g)) t clink opts db_update.
Definition LRI : Z := Z.lor (Z.lor LINK_CHECK ROUTER_CHECK) INTERNET_CHECK.
(** What several states do first when link selection is on. *)
Definition recheck_link (up : cm2_state_t R -> string) (repeat : bool) : M () :=
  _ ← cm2_update_main_link_ip; req_async up LRI true repeat.
Definition set_target_empty : M () := _ ← cm2_ovsdb_set_Manager_target ""; mret ().
Definition count_failure (f : (Z -> Z) -> cm2_retries_cnt -> cm2_retries_cnt) : M () :=
  when (negb (CLOUD_FATAL_THRESHOLD =? 0)) (modify (upd cnts (f (fun n => i32 (n + 1))))).

Definition state_init : M bool :=
  _ ← (if negb wan_link_selection then cm2_ovs_connect else
       _ ← cm2_extender_init_state;
       _ ← modify (fun g => upd cnts (set ovs_resolve 0)
             (upd link (fun k => upd ipv6 (set resolve_retry false) (upd ipv4 (set resolve_retry false) k)) g));
       cm2_set_state true CM2_STATE_LINK_SEL);
  _ ← cm2_dismiss_skip_reconnect;
  _ ← modify (fun g => upd cnts (set ovs_resolve_fail 0) (set connected_at_least_once false
        (set is_previous_if_type_wifi false (set link_sel_due_to_priority false g))));
  mret false.

Definition state_link_sel (up : cm2_state_t R -> string) : M bool :=
  c ← cm2_state_changed;
  _ ← when c
        (_ ← modify (fun g => set is_previous_if_type_wifi (is_used (link g) && cm2_is_wifi_type (if_type (link g))) g);
         _ ← cm2_connection_clear_used update_state;
         modify (set run_stability false));
  k ← gets link;
  if is_used_echoed k then
    _ ← req_async up LINK_CHECK false false;
    _ ← modify (fun g => set skip_reconnect
          (is_previous_if_type_wifi g && cm2_is_wifi_type (if_type (link g)) && link_sel_due_to_priority g) g);
    br ← gets (fun g => bridge_name (link g));
    _ ← when (negb (String.eqb br "")) (cm2_ovsdb_WIC_dhcp_renew br);
    _ ← modify (fun g => set is_previous_if_type_wifi false (set link_sel_due_to_priority false g));
    _ ← cm2_set_state true CM2_STATE_WAN_IP;
    mret false
  else
    to ← cm2_timeout;
    _ ← when to
          (_ ← modify (set is_previous_if_type_wifi false);
           _ ← cm2_dismiss_skip_reconnect;
           _ ← modify (set link_sel_due_to_priority false);
           cm2_trigger_restart_managers);
    mret false.

(** The locals [ipv4] and [ipv6] keep their values when the function goes round. *)
Definition state_wan_ip (up : cm2_state_t R -> string) (v : bool * bool) : M (bool * bool) :=
  _ ← cm2_state_changed;
  _ ← cm2_update_main_link_ip;
  k ← gets link;
  v4 ← (if negb (ip_blocked (ipv4 k)) && is_ip (ipv4 k) then main_check up (Z.lor IPV4_CHECK ROUTER_CHECK) true else mret v.1);
  k ← gets link;
  v6 ← (if negb (ip_blocked (ipv6 k)) && is_ip (ipv6 k) then main_check up (Z.lor IPV6_CHECK ROUTER_CHECK) true else mret v.2);
  _ ← (if v4 || v6 then cm2_set_state true CM2_STATE_NTP_CHECK
       else to ← cm2_timeout; when to cm2_trigger_restart_managers);
  mret (v4, v6).

Definition state_ntp_check (up : cm2_state_t R -> string) : M bool :=
  c ← cm2_state_changed;
  _ ← when c (req_async up INTERNET_CHECK true false);
  ok ← main_check up NTP_CHECK false;
  _ ← (if (ok : bool) then cm2_ovs_connect else to ← cm2_timeout; when to cm2_trigger_restart_managers);
  mret false.

Definition state_ovs_init : M bool :=
  c ← cm2_state_changed;
  _ ← when c (_ ← modify (set fast_backoff false); cm2_dismiss_skip_reconnect);
  g ← gets id;
  if wan_link_selection && negb (is_used (link g)) then _ ← cm2_set_state false CM2_STATE_LINK_SEL; mret false else
  if negb (String.eqb (target g) "") then _ ← set_target_empty; mret false else
  if connected g then mret false else
  _ ← modify (set is_con_stable false);
  _ ← when (valid (addr_redirector g))
        (_ ← cm2_clear_manager_addr;
         _ ← cm2_set_dst_type CM2_DEST_REDIR;
         _ ← cm2_set_state true CM2_STATE_TRY_RESOLVE;
         modify (set disconnects 0));
  _ ← call_ ABootTime;
  mret false.

Definition retry_set (g : cm2_state_t R) : bool := resolve_retry (ipv4 (link g)) || resolve_retry (ipv6 (link g)).
Definition state_try_resolve (up : cm2_state_t R -> string) : M bool :=
  c ← cm2_state_changed;
  r ← gets retry_set;
  failed ← (if c || r then
      _ ← when wan_link_selection (recheck_link up true);
      r ← gets retry_set;
      _ ← when r (modify (upd cnts (upd ovs_resolve (fun n => i32 (n + 1)))));
      d ← gets dest;
      ok ← cm2_resolve d;
      mret (negb ok)
    else mret false);
  if (failed : bool) then
    _ ← count_failure (fun f => upd ovs_resolve_fail f);
    _ ← cm2_restart_ovs_connection true;
    _ ← call_ AWdtPing;
    mret true
  else
    done ← gets (fun g => cm2_is_addr_resolved (cm2_curr_addr g));
    if (done : bool) then
      _ ← modify (upd cnts (fun n => set ovs_resolve_fail 0 (set ovs_resolve 0 n)));
      _ ← cm2_set_state true CM2_STATE_RE_CONNECT;
      mret false
    else
      to ← cm2_timeout;
      n ← gets (fun g => ovs_resolve (cnts g));
      if to || (CM2_RESOLVE_RETRY_THRESHOLD <? n) then
        _ ← modify (upd cnts (set ovs_resolve 0));
        _ ← cm2_resolve_timeout;
        uplink ← gets up;
        _ ← cm2_ovsdb_refresh_dhcp uplink;
        _ ← count_failure (fun f => upd ovs_resolve_fail f);
        _ ← cm2_restart_ovs_connection false;
        mret true
      else mret false.

Definition give_up_connecting : M bool :=
  _ ← count_failure (fun f => upd ovs_con f);
  _ ← cm2_restart_ovs_connection false;
  mret true.

Definition state_re_connect : M bool :=
  c ← cm2_state_changed;
  _ ← when c set_target_empty;
  g ← gets id;
  if String.eqb (target g) "" && negb (connected g) then _ ← cm2_set_state true CM2_STATE_TRY_CONNECT; mret false else
  to ← cm2_timeout;
  if (to : bool) then give_up_connecting else mret false.

(** An address is written: wait for the connection, at the timeout write the next. *)
Definition connecting (up : cm2_state_t R -> string) : M bool :=
  g ← gets id;
  if connected g then _ ← cm2_set_state true CM2_STATE_CONNECTED; mret false else
  to ← cm2_timeout;
  if negb to then mret false else
  _ ← when wan_link_selection (recheck_link up true);
  ok ← cm2_write_next_target_addr;
  if negb ok then give_up_connecting else _ ← cm2_reset_time; mret false.
Definition state_try_connect (up : cm2_state_t R -> string) : M bool :=
  _ ← when wan_link_selection (cm2_unreachable_cloud_counter (-1));
  u ← gets (fun g => updated (cm2_curr_addr g));
  if (u : bool) then _ ← cm2_set_state true CM2_STATE_TRY_RESOLVE; mret false else
  c ← cm2_state_changed;
  if negb c then connecting up else
  _ ← when wan_link_selection (recheck_link up true);
  ok ← cm2_write_current_target_addr;
  if negb ok then give_up_connecting else connecting up.

Definition state_fast_reconnect (up : cm2_state_t R -> string) : M bool :=
  c ← cm2_state_changed;
  _ ← when c
        (_ ← modify (set fast_backoff false);
         _ ← cm2_dismiss_skip_reconnect;
         _ ← set_target_empty;
         recheck_link up true);
  g ← gets id;
  if negb (String.eqb (target g) "") || connected g then
    to ← cm2_timeout;
    _ ← when to (cm2_set_state true CM2_STATE_RE_CONNECT);
    mret false
  else
  pending ← cm2_is_stability_check_pending (if_name (link g));
  wait ← (if (pending : bool) then to ← cm2_timeout; mret (negb to) else mret false);
  if (wait : bool) then mret false else
  ok ← cm2_write_current_target_addr;
  _ ← cm2_set_state true (if (ok : bool) then CM2_STATE_FAST_RECONNECT_WAIT else CM2_STATE_OVS_INIT);
  mret false.

Definition state_fast_reconnect_wait : M bool :=
  c ← gets connected;
  _ ← (if (c : bool) then cm2_set_state true CM2_STATE_CONNECTED else
       to ← cm2_timeout;
       when to (_ ← cm2_move_next_target_addr; cm2_set_state true CM2_STATE_RE_CONNECT));
  mret false.

Definition state_connected (up : cm2_state_t R -> string) : M bool :=
  c ← cm2_state_changed;
  _ ← when c
        (_ ← modify (fun g => set connected_at_least_once true (set gw_offline_start false g));
         _ ← cm2_dismiss_skip_reconnect;
         _ ← when wan_link_selection
               (_ ← req_async up LRI true false;
                t ← gets (fun g => if_type (link g));
                _ ← cm2_update_device_type t;
                _ ← modify (set restore_method CM2_RESTORE_REFRESH_DHCP);
                _ ← cm2_stability_update_interval false;
                cm2_unreachable_cloud_counter 0);
         _ ← modify (fun g => upd cnts (set ovs_con 0) (set run_stability true g));
         cm2_disable_gw_offline_state);
  g ← gets id;
  _ ← (if connected g then
         t ← (if negb (is_con_stable g) then t ← cm2_get_time; mret (CM2_STABLE_PERIOD <? t) else mret false);
         when t
           (_ ← modify (fun g => set fast_backoff false (set disconnects 0 (set is_con_stable true g)));
            modify (upd link (upd vtag (fun v => if bool_decide (vt_state v = CM2_VTAG_PENDING) then set vt_state CM2_VTAG_USED v else v))))
       else
         _ ← cm2_set_state true CM2_STATE_FAST_RECONNECT;
         modify (set is_con_stable false));
  mret false.

Definition add_disconnect : M () := modify (upd disconnects (fun n => i32 (n + 1))).
Definition state_quiesce (up : cm2_state_t R -> string) : M bool :=
  c ← cm2_state_changed;
  _ ← when c
        (_ ← when wan_link_selection (recheck_link up true);
         _ ← set_target_empty;
         _ ← add_disconnect;
         n ← gets disconnects;
         _ ← when wan_link_selection (_ ← cm2_stability_update_interval true; cm2_unreachable_cloud_counter n);
         cm2_compute_backoff);
  g ← gets id;
  if negb (String.eqb (target g) "") || connected g then mret false else
  to ← cm2_timeout;
  if negb to then mret false else
  _ ← add_disconnect;
  n ← gets disconnects;
  _ ← when wan_link_selection (cm2_unreachable_cloud_counter n);
  if CM2_MAX_DISCONNECTS <? n then
    _ ← cm2_enable_gw_offline;
    _ ← modify (fun g => set fast_backoff false (set disconnects 0 g));
    _ ← cm2_restart_ovs_connection false;
    mret true
  else _ ← cm2_set_state true CM2_STATE_FAST_RECONNECT; mret false.

(** The first switch, on the reason. *)
Definition on_reason (up : cm2_state_t R -> string) (link_sel : bool) (r : cm2_reason_e) : M () :=
  match r with
  | CM2_REASON_LINK_NOT_USED => cm2_set_state true CM2_STATE_LINK_SEL
  | CM2_REASON_LINK_USED =>
      _ ← cm2_update_main_link_ip;
      _ ← cm2_restore_bridge_config;
      k ← gets link;
      _ ← (if cm2_link_is_bridge k then
             when (negb (cm2_is_wifi_type (if_type k)))
               (_ ← cm2_ovsdb_inherit_ip_bridge_conf (if_name k) (bridge_name k);
                cm2_update_bridge_cfg update_state (bridge_name k) (if_name k) true CM2_PAR_FALSE (cm2_is_eth_type (if_type k)))
           else cm2_ovsdb_set_default_wan_bridge (if_name k) (if_type k));
      i ← gets (fun g => if_name (link g));
      _ ← call_ (ACleanCounters i);
      req_async up LINK_CHECK false false
  | CM2_REASON_SET_NEW_VTAG | CM2_REASON_BLOCK_VTAG =>
      ok ← (if bool_decide (r = CM2_REASON_SET_NEW_VTAG) then cm2_set_new_vtag else cm2_block_vtag);
      when ok
        (uplink ← gets up;
         _ ← cm2_ovsdb_refresh_dhcp uplink;
         s ← gets state;
         when (bool_decide (s <> CM2_STATE_LINK_SEL)) (cm2_set_state true CM2_STATE_WAN_IP))
  | CM2_REASON_OVS_INIT =>
      s ← gets state;
      when (bool_decide (s <> CM2_STATE_WAN_IP) && negb link_sel) (cm2_set_state true CM2_STATE_WAN_IP)
  | CM2_REASON_TIMER | CM2_REASON_AWLAN | CM2_REASON_MANAGER | CM2_REASON_CHANGE => mret ()
  end.

(** New addresses. *)
Definition on_addresses (link_sel : bool) : M () :=
  g ← gets id;
  if bool_decide (state g <> CM2_STATE_OVS_INIT) && bool_decide (state g <> CM2_STATE_TRY_RESOLVE) && negb link_sel
     && updated (addr_redirector g) && valid (addr_redirector g) then
    _ ← cm2_ovs_connect;
    modify (upd addr_redirector (set updated false))
  else when (negb (cm2_is_connected_to CM2_DEST_MANAGER g) && updated (addr_manager g) && valid (addr_manager g))
         (_ ← cm2_set_state true CM2_STATE_TRY_RESOLVE; cm2_set_dst_type CM2_DEST_MANAGER).

(** The switch on the state. *)
Definition on_state (up : cm2_state_t R -> string) (v : bool * bool) : M (bool * (bool * bool)) :=
  s ← gets state;
  let keep (m : M bool) : M (bool * (bool * bool)) := b ← m; mret (b, v) in
  match s with
  | CM2_STATE_INIT | CM2_STATE_INTERNET => keep state_init
  | CM2_STATE_LINK_SEL => keep (state_link_sel up)
  | CM2_STATE_WAN_IP => v ← state_wan_ip up v; mret (false, v)
  | CM2_STATE_NTP_CHECK => keep (state_ntp_check up)
  | CM2_STATE_OVS_INIT => keep state_ovs_init
  | CM2_STATE_TRY_RESOLVE => keep (state_try_resolve up)
  | CM2_STATE_RE_CONNECT => keep state_re_connect
  | CM2_STATE_TRY_CONNECT => keep (state_try_connect up)
  | CM2_STATE_FAST_RECONNECT => keep (state_fast_reconnect up)
  | CM2_STATE_FAST_RECONNECT_WAIT => keep state_fast_reconnect_wait
  | CM2_STATE_CONNECTED => keep (state_connected up)
  | CM2_STATE_QUIESCE_OVS => keep (state_quiesce up)
  end.

(** After the switch: a timeout that no case handled. *)
Definition unhandled_timeout : M () :=
  to ← cm2_timeout;
  when to
    (_ ← call_ ADumpDebug;
     _ ← when wan_link_selection cm2_trigger_restart_managers;
     cm2_set_state false CM2_STATE_INIT).

(** From [start] to [goto start]: whether to go round, and the two locals. *)
Definition update_once (r : cm2_reason_e) (v : bool * bool) : M (bool * (bool * bool)) :=
  _ ← cm2_log_state r;
  g ← gets id;
  let old := state g in
  if negb (have_awlan g) || negb (have_manager g) then mret (false, v) else
  let link_sel := bool_decide (old = CM2_STATE_INIT \/ old = CM2_STATE_LINK_SEL \/ old = CM2_STATE_WAN_IP \/ old = CM2_STATE_NTP_CHECK) in
  let bridged := cm2_link_is_bridge (link g) in
  let up (g : cm2_state_t R) := if bridged then bridge_name (link g) else if_name (link g) in
  _ ← on_reason up link_sel r;
  _ ← on_addresses link_sel;
  '(ret, v) ← on_state up v;
  if (ret : bool) then mret (false, v) else
  _ ← unhandled_timeout;
  s ← gets state;
  mret (bool_decide (s <> old), v).
End Nested.

Fixpoint update_loop (n : nat) (r : cm2_reason_e) (v : bool * bool) : M () :=
  match n with
  | O => fail FFuel
  | S n =>
      '(again, v) ← update_once (fun r => update_loop n r (false, false)) r v;
      if (again : bool) then update_loop n CM2_REASON_CHANGE v else mret ()
  end.
Definition cm2_update_state (n : nat) (r : cm2_reason_e) : M () := update_loop n r (false, false).

(** ** The checks of all uplinks, and what the children that make them report *)
Definition mask_bit (n : Z) (b : bool) : Z := Z.shiftl (if b then 1 else 0) n.
(** The exit status of a child. *)
Definition cm2_util_cstate2mask (ok : bool) (cs : conn_check) : Z :=
  Z.lor (mask_bit 0 ok) (Z.lor (mask_bit 1 (link_state cs)) (Z.lor (mask_bit 2 (router_ipv4_state cs)) (Z.lor (mask_bit 3 (router_ipv6_state cs))
    (Z.lor (mask_bit 4 (internet_ipv4_state cs)) (Z.lor (mask_bit 5 (internet_ipv6_state cs)) (Z.lor (mask_bit 6 (internet_state cs)) (mask_bit 7 (ntp_state cs)))))))).
Definition cm2_util_mask2cstate (mask : Z) : bool * conn_check :=
  let on n := has_opt mask (Z.shiftl 1 n) in
  (on 0, mk_check (on 1) (on 2) (on 3) (on 4) (on 5) (on 6) (on 7)).

Definition cm2_check_uplink_state (i up : string) : M bool :=
  con ← call (ASelectUplink i) env_row;
  match con with
  | None => mret false
  | Some c =>
      let is_blocked (s : option string) :=
        match s with Some s => bool_decide (cm2_get_uplink_state_from_str s = CM2_UPLINK_BLOCKED) | None => true end in
      if is_blocked (cmu_ipv4 c) && is_blocked (cmu_ipv6 c) then mret false else
      mret (match cmu_bridge c with Some b => String.eqb up b | None => String.eqb i up end)
  end.

(** The child of the [k]th check in [g_async_checks] ends; [st] is its exit status, if it
    exits by itself. *)
Definition cm2_util_req_stability_cb (n : nat) (k : nat) (st : option Z) : M () :=
  cs ← getw w_async;
  match cs !! k with
  | None => mret ()
  | Some c =>
      _ ← modw (upd w_async (fun l => take k l ++ drop (S k) l));
      let '(ok, cs) := cm2_util_mask2cstate (match st with Some m => m | None => 255 end) in
      current ← cm2_check_uplink_state (ac_uname c) (ac_clink c);
      let go := current || ok in
      let repeat := ac_repeat c && go in let db_update := ac_db_update c && go in
      _ ← cm2_connection_req_stability_process (cm2_update_state n) (fun _ => ac_uname c) (ac_opts c) db_update ok cs;
      if repeat && negb ok then
        con ← gets connected;
        cm2_util_req_stability_check_recalc (ac_uname c) (ac_utype c) (ac_clink c)
          (if (con : bool) then ac_opts c else Z.lor (ac_opts c) FAST_CHECK) (if (con : bool) then db_update else true) repeat
      else mret ()
  end.

Definition UPLINKS_CHECKING_ALL_THRESHOLD : Z := 60.
Fixpoint check_uplinks (opts : Z) (us : list cmu_row) : M () :=
  match us with
  | [] => mret ()
  | u :: us =>
      let clink := match cmu_bridge u with Some b => if cmu_is_used u then b else cmu_if_name u | None => cmu_if_name u end in
      _ ← cm2_connection_req_stability_check_async (cmu_if_name u) (cmu_if_type u) clink opts true false;
      check_uplinks opts us
  end.
Definition cm2_connection_stability_check : M () :=
  let add_fast (us : list cmu_row) o := match us with [] => o | _ => Z.lor o FAST_CHECK end in
  let opts := Z.lor LINK_CHECK (Z.lor ROUTER_CHECK (Z.lor NTP_CHECK INTERNET_CHECK)) in
  us ← call (ASelectUnblocking false) env_rows;
  let opts := add_fast us opts in
  _ ← check_uplinks opts us;
  us ← call (ASelectUnblocking true) env_rows;
  let opts := add_fast us opts in
  _ ← check_uplinks opts us;
  us ← call ASelectUplinks env_rows;
  g ← gets id;
  if UPLINKS_CHECKING_ALL_THRESHOLD <? stability_cnts g then
    _ ← modify (set stability_cnts 0);
    check_uplinks opts us
  else
    _ ← modify (upd stability_cnts (fun n => i32 (n + 1)));
    busy ← (if connected g && (negb (ip_blocked (ipv4 (link g))) && negb (ip_blocked (ipv6 (link g)))) then
              low ← call ALoadAvg env_bool; mret (negb low) else mret false);
    if (busy : bool) then mret () else
    let opts := if connected g then Z.ldiff opts INTERNET_CHECK else if (1 <? length us)%nat then Z.lor opts FAST_CHECK else opts in
    cm2_connection_req_stability_check_async (if_name (link g)) (if_type (link g)) (cm2_get_uplink_name g) opts true false.
Definition cm2_stability_cb : M () := r ← gets run_stability; when r cm2_connection_stability_check.
Definition cm2_update_links_cb (n : nat) : M () := _ ← cm2_ovsdb_recalc_links (cm2_update_state n) false; mret ().

(** ** Entry points *)
Definition cm2_trigger_update (r : cm2_reason_e) : M () := modify (set reason r).
Definition cm2_event_cb (n : nat) : M () :=
  r ← gets reason;
  _ ← modify (set reason CM2_REASON_TIMER);
  cm2_update_state n r.
Definition cm2_event_init : M () := modify (set reason CM2_REASON_TIMER).
Definition cm2_event_close : M () := modify (set gw_offline_start false).

(** The row of [AWLAN_Node], with the columns that changed. *)
Record awlan_update := mk_awlan {
  aw_del : bool; aw_manager_addr : option string; aw_redirector_addr : option string;
  aw_config : bool; aw_backoff : option (Z * Z)
}.
Definition callback_AWLAN_Node (n : nat) (u : awlan_update) : M () :=
  _ ← modify (set have_awlan (negb (aw_del u)));
  _ ← match aw_manager_addr u with
      | None => mret ()
      | Some a => v ← cm2_set_addr CM2_DEST_MANAGER a; modify (upd addr_manager (set updated v))
      end;
  _ ← match aw_redirector_addr u with
      | None => mret ()
      | Some a => v ← cm2_set_addr CM2_DEST_REDIR a; modify (upd addr_redirector (set updated v))
      end;
  _ ← when (aw_config u) (call_ ATargetConfig);
  _ ← match aw_backoff u with
      | None => mret ()
      | Some (lo, hi) => modify (fun g => set max_backoff hi (set min_backoff lo g))
      end;
  cm2_update_state n CM2_REASON_AWLAN.

(** The row of [Manager]; [None] when it is deleted, the target when it changed. *)
Definition callback_Manager (n : nat) (u : option (bool * option string)) : M () :=
  _ ← match u with
      | None => modify (fun g => set connected false (set have_manager false g))
      | Some (c, t) =>
          _ ← modify (fun g => set connected c (set have_manager true g));
          match t with None => mret () | Some t => modify (set target (strscpy t 129)) end
      end;
  cm2_update_state n CM2_REASON_MANAGER.
End Cm2Event.
