(* ===== verification/Cm2Inv.v ===== *)
(** * Cm2Inv: what the state machine of the connection manager keeps

    The invariant of [cm2_update_state], for any resolver that keeps its part of it
    ([ResolverSpec]): no read outside the resolved addresses and no division by zero in
    any sequence of events, and every change of state one that [cm2_edge] allows. *)
From Stdlib Require Import Ascii.
From S2P Require Import Prelude CString Cm2State Cm2Resolve Cm2Link Cm2Event.
Open Scope Z_scope.

(** ** What a resolver promises *)

(** What no resolver changes: all but its own fields of the addresses, their flags
    [updated] and [resolved], the retry flags of the link, the channel, and the family in use. *)
Definition strip {R} (a : cm2_addr_t R) : cm2_addr_t () :=
  mk_addr false (valid a) false (resource a) (proto a) (hostname a) (port a) ().
Definition core {R} (g : cm2_state_t R) : cm2_state_t () :=
  mk_state (state g) (reason g) (dest g) (state_changed g) (connected g) (is_con_stable g) false
    (timestamp g) (restart_timestamp g) (disconnects g) (strip (addr_redirector g)) (strip (addr_manager g)) (run_stability g)
    (upd ipv4 (set resolve_retry false) (upd ipv6 (set resolve_retry false) (link g))) (old_link g) (ntp_check g) false
    (have_manager g) (have_awlan g) (min_backoff g)
    (max_backoff g) (fast_backoff g) (skip_reconnect g) (connected_at_least_once g) (link_sel_due_to_priority g)
    (is_previous_if_type_wifi g) (cnts g) (dev_type g) (restore_method g) (target g) (gw_offline_start g) (stability_cnts g).

(** Calls that are no changes of state. *)
Definition quiet (a : action) : Prop := match a with AState _ _ _ _ _ => False | _ => True end.
Definition log_ext (l l' : list action) : Prop := exists x, l' = x ++ l /\ Forall quiet x.
Lemma log_ext_refl l : log_ext l l.
Proof. by exists []. Qed.
Lemma log_ext_trans l1 l2 l3 : log_ext l1 l2 -> log_ext l2 l3 -> log_ext l1 l3.
Proof. intros (x & -> & Hx) (y & -> & Hy). exists (y ++ x). rewrite app_assoc. split; [done|by apply Forall_app]. Qed.
Lemma log_ext_cons a l : quiet a -> log_ext l (a :: l).
Proof. intros Ha. exists [a]. split; [done|by constructor]. Qed.

Definition frame {R} (w w' : world R) : Prop :=
  core (w_g w') = core (w_g w) /\ w_quiesce w' = w_quiesce w /\ w_async w' = w_async w /\ log_ext (w_log w) (w_log w').
Lemma frame_refl {R} (w : world R) : frame w w.
Proof. repeat split. apply log_ext_refl. Qed.
Lemma frame_trans {R} (w1 w2 w3 : world R) : frame w1 w2 -> frame w2 w3 -> frame w1 w3.
Proof. intros (? & ? & ? & ?) (? & ? & ? & ?). repeat split; [congruence..|by eapply log_ext_trans]. Qed.

Notation none := (fun _ : fault => False).

Class ResolverSpec `{Cm2Env} R `{!Resolver R} := {
  (** Its fields are consistent. *)
  r_inv : R -> Prop;
  (** It may be asked for the next address. *)
  r_offered : R -> Prop;
  r_free_spec r : r_inv r -> wp none (cm2_free_addr_list r) (fun r' => r_inv r' /\ r_offered r');
  r_pref_spec d g : let g' := cm2_set_ipv6_pref d g in
    core g' = core g /\ updated (addr_redirector g') = updated (addr_redirector g) /\ updated (addr_manager g') = updated (addr_manager g) /\
    ((forall d, r_inv (a_res (cm2_get_addr d g))) -> forall d, r_inv (a_res (cm2_get_addr d g')));
  r_resolve_spec d w : (forall d, r_inv (a_res (cm2_get_addr d (w_g w)))) ->
    wp none (cm2_resolve d w) (fun bw => frame w bw.2 /\ forall d, r_inv (a_res (cm2_get_addr d (w_g bw.2))));
  r_timeout_spec w : (forall d, r_inv (a_res (cm2_get_addr d (w_g w)))) ->
    wp none (cm2_resolve_timeout w) (fun bw => frame w bw.2 /\ forall d, r_inv (a_res (cm2_get_addr d (w_g bw.2))));
  r_current_spec w : (forall d, r_inv (a_res (cm2_get_addr d (w_g w)))) ->
    wp none (cm2_write_current_target_addr w) (fun bw => frame w bw.2 /\ (forall d, r_inv (a_res (cm2_get_addr d (w_g bw.2)))) /\
      (bw.1 = true -> r_offered (a_res (cm2_curr_addr (w_g bw.2)))));
  r_next_spec w : (forall d, r_inv (a_res (cm2_get_addr d (w_g w)))) -> r_offered (a_res (cm2_curr_addr (w_g w))) ->
    wp none (cm2_write_next_target_addr w) (fun bw => frame w bw.2 /\ (forall d, r_inv (a_res (cm2_get_addr d (w_g bw.2)))) /\
      (bw.1 = true -> r_offered (a_res (cm2_curr_addr (w_g bw.2)))));
  r_move_spec w : (forall d, r_inv (a_res (cm2_get_addr d (w_g w)))) -> r_offered (a_res (cm2_curr_addr (w_g w))) ->
    wp none (cm2_move_next_target_addr w) (fun bw => frame w bw.2 /\ forall d, r_inv (a_res (cm2_get_addr d (w_g bw.2))))
}.

(** ** Functions that leave the machine alone *)
Section Keeps.
Context {R : Type}.
Notation M := (M R).

(** What the invariant looks at. *)
Definition key (g : cm2_state_t R) :=
  (state g, state_changed g, dest g, addr_redirector g, addr_manager g, connected g, target g, min_backoff g, max_backoff g).
Definition keeps {A} (m : M A) : Prop :=
  forall w, wp none (m w) (fun aw => key (w_g aw.2) = key (w_g w) /\ log_ext (w_log w) (w_log aw.2)).

Lemma keeps_ret {A} (a : A) : keeps (mret a).
Proof. intros w. split; [done|apply log_ext_refl]. Qed.
Lemma keeps_bind {A B} (m : M A) (k : A -> M B) : keeps m -> (forall a, keeps (k a)) -> keeps (m ≫= k).
Proof.
  intros Hm Hk w. unfold mbind, M_bind. apply wp_bind. eapply wp_mono; [apply Hm|].
  intros [a w1] [E1 L1]. eapply wp_mono; [apply Hk|]. intros [b w2] [E2 L2]. cbn in *.
  split; [congruence|by eapply log_ext_trans].
Qed.
Lemma keeps_gets {A} (f : cm2_state_t R -> A) : keeps (gets f).
Proof. intros w. split; [done|apply log_ext_refl]. Qed.
Lemma keeps_getw {A} (f : world R -> A) : keeps (getw f).
Proof. intros w. split; [done|apply log_ext_refl]. Qed.
Lemma keeps_modify f : (forall g, key (f g) = key g) -> keeps (modify f).
Proof. intros Hf w. split; [apply Hf|apply log_ext_refl]. Qed.
Lemma keeps_modw f : (forall w, w_g (f w) = w_g w /\ w_log (f w) = w_log w) -> keeps (modw f).
Proof. intros Hf w. cbn. destruct (Hf w) as [-> ->]. split; [done|apply log_ext_refl]. Qed.
Lemma keeps_call {A} a (f : nat -> A) : quiet a -> keeps (call a f).
Proof. intros Ha w. split; [done|by apply log_ext_cons]. Qed.
Lemma keeps_when b (m : M ()) : keeps m -> keeps (when b m).
Proof. intros Hm. destruct b; [done|apply keeps_ret]. Qed.
End Keeps.

Create HintDb keeps.
#[export] Hint Resolve keeps_ret keeps_gets keeps_getw : keeps.
(** One step of a proof that a computation keeps the machine, or an invariant of it. *)
Ltac keeps_modify_tac := apply keeps_modify; intros ?; first [reflexivity | cbv beta; case_match; reflexivity].
Ltac keeps_step :=
  match goal with
  | |- keeps (mbind _ _) => apply keeps_bind; [|intros ?]
  | |- keeps (when _ _) => apply keeps_when
  | |- keeps (call _ _) => apply keeps_call; cbn; repeat case_match; exact I
  | |- keeps (call_ _) => apply keeps_call; cbn; repeat case_match; exact I
  | |- keeps time_monotonic => apply keeps_call; exact I
  | |- keeps (modify _) => keeps_modify_tac
  | |- keeps (modw _) => apply keeps_modw; intros ?; split; reflexivity
  | |- keeps _ => solve [auto with keeps nocore]
  | |- keeps (if ?b then _ else _) => destruct b
  | |- keeps (match ?x with _ => _ end) => destruct x
  | |- keeps (let _ := _ in _) => cbv zeta
  end.
Ltac keeps := repeat keeps_step.

Section KeepsLink.
Context {R : Type} `{Cm2Env} `{Cm2Cfg}.
Notation M := (M R).

Lemma keeps_ip_state i : keeps (R := R) (cm2_ovsdb_CMU_get_ip_state i).
Proof. unfold cm2_ovsdb_CMU_get_ip_state. keeps. Qed.
Lemma keeps_inet u i : keeps (R := R) (cm2_util_get_ip_inet_state_cfg u i).
Proof. unfold cm2_util_get_ip_inet_state_cfg, cm2_util_set_local_ip_cfg. keeps. Qed.
Hint Resolve keeps_ip_state keeps_inet : keeps.
Lemma keeps_main_ip : keeps (R := R) cm2_update_main_link_ip.
Proof. unfold cm2_update_main_link_ip. keeps. Qed.
Lemma keeps_refresh i : keeps (R := R) (cm2_ovsdb_refresh_dhcp i).
Proof. unfold cm2_ovsdb_refresh_dhcp, cm2_ovsdb_WIC_dhcp_renew. keeps. Qed.
Lemma keeps_renew i : keeps (R := R) (cm2_ovsdb_WIC_dhcp_renew i).
Proof. unfold cm2_ovsdb_WIC_dhcp_renew. keeps. Qed.
Lemma keeps_iface i : keeps (R := R) (cm2_restart_iface i).
Proof. unfold cm2_restart_iface. keeps. Qed.
Lemma keeps_inherit a b : keeps (R := R) (cm2_ovsdb_inherit_ip_bridge_conf a b).
Proof. unfold cm2_ovsdb_inherit_ip_bridge_conf. keeps. Qed.
Lemma keeps_wan_bridge a b : keeps (R := R) (cm2_ovsdb_set_default_wan_bridge a b).
Proof. unfold cm2_ovsdb_set_default_wan_bridge. keeps. Qed.
Lemma keeps_mac a b : keeps (R := R) (cm2_update_mac_local_bit a b).
Proof. unfold cm2_update_mac_local_bit. keeps. Qed.
Lemma keeps_port a b c d : keeps (R := R) (cm2_bridge_manage_port a b c d).
Proof. unfold cm2_bridge_manage_port. keeps. Qed.
Lemma keeps_device t : keeps (R := R) (cm2_update_device_type t).
Proof. unfold cm2_update_device_type. keeps. Qed.
Lemma keeps_role u : keeps (R := R) (cm2_util_switch_role u).
Proof. unfold cm2_util_switch_role. keeps. Qed.
Lemma keeps_recalc b now rc us : keeps (R := R) (recalc_rows b now rc us).
Proof.
  revert rc. induction us as [|u us IH]; intros rc; cbn [recalc_rows]; [auto with keeps|].
  unfold recalc_row, recalc_timer, cm2_util_set_default_block_ts. keeps; apply IH.
Qed.
Lemma keeps_reset_restart : keeps (R := R) cm2_reset_restart_time.
Proof. unfold cm2_reset_restart_time. keeps. Qed.
Lemma keeps_restart_time : keeps (R := R) cm2_get_restart_time.
Proof. unfold cm2_get_restart_time. keeps. Qed.
End KeepsLink.
#[export] Hint Resolve keeps_ip_state keeps_inet keeps_main_ip keeps_refresh keeps_renew keeps_iface keeps_inherit keeps_wan_bridge
  keeps_mac keeps_port keeps_device keeps_role keeps_recalc keeps_reset_restart keeps_restart_time : keeps.

Section KeepsEvent.
Context {R : Type} `{Cm2Env} `{Cm2Cfg} `{!Resolver R}.

Lemma keeps_reset_time : keeps (R := R) cm2_reset_time.
Proof. unfold cm2_reset_time. keeps. Qed.
Lemma keeps_get_time : keeps (R := R) cm2_get_time.
Proof. unfold cm2_get_time. keeps. Qed.
Lemma keeps_timeout : keeps (R := R) cm2_timeout.
Proof. unfold cm2_timeout, cm2_get_timeout, cm2_get_time. keeps. Qed.
Lemma keeps_extender : keeps (R := R) cm2_extender_init_state.
Proof. unfold cm2_extender_init_state. keeps. Qed.
Lemma keeps_gw_offline : keeps (R := R) cm2_enable_gw_offline.
Proof. unfold cm2_enable_gw_offline. keeps. Qed.
Lemma keeps_gw_offline_off : keeps (R := R) cm2_disable_gw_offline_state.
Proof. unfold cm2_disable_gw_offline_state. keeps. Qed.
Lemma keeps_dismiss : keeps (R := R) cm2_dismiss_skip_reconnect.
Proof. unfold cm2_dismiss_skip_reconnect. keeps. Qed.
Lemma keeps_set_vtag : keeps (R := R) cm2_set_new_vtag.
Proof. unfold cm2_set_new_vtag. keeps. Qed.
Lemma keeps_block_vtag : keeps (R := R) cm2_block_vtag.
Proof. unfold cm2_block_vtag. keeps. Qed.
Lemma keeps_restore_bridge : keeps (R := R) cm2_restore_bridge_config.
Proof. unfold cm2_restore_bridge_config. keeps. Qed.
Lemma keeps_ip_opts i t o : keeps (R := R) (cm2_util_set_ip_opts i t o).
Proof. unfold cm2_util_set_ip_opts. apply keeps_bind; [keeps|]. intros [[]|]; apply keeps_ret. Qed.
Lemma keeps_pending i : keeps (R := R) (cm2_is_stability_check_pending i).
Proof. unfold cm2_is_stability_check_pending. keeps. Qed.
Hint Resolve keeps_ip_opts keeps_pending : keeps.
Lemma keeps_check_recalc i t c o b r : keeps (R := R) (cm2_util_req_stability_check_recalc i t c o b r).
Proof. unfold cm2_util_req_stability_check_recalc. keeps. Qed.
Hint Resolve keeps_check_recalc : keeps.
Lemma keeps_async i t c o b r : keeps (R := R) (cm2_connection_req_stability_check_async i t c o b r).
Proof. unfold cm2_connection_req_stability_check_async. keeps. Qed.
Lemma keeps_interval b : keeps (R := R) (cm2_stability_update_interval b).
Proof. unfold cm2_stability_update_interval. keeps. Qed.
Lemma keeps_cloud n : keeps (R := R) (cm2_unreachable_cloud_counter n).
Proof. unfold cm2_unreachable_cloud_counter. keeps. Qed.
Lemma keeps_updating c o s v x : keeps (R := R) (cm2_updating_ip c o s v x).
Proof. unfold cm2_updating_ip, set_ip_state, set_link_blocked. keeps. Qed.
Hint Resolve keeps_updating : keeps.
Lemma keeps_uplink_ip c o s : keeps (R := R) (cm2_util_update_uplink_ip_state c o s).
Proof. unfold cm2_util_update_uplink_ip_state. keeps. Qed.
Lemma keeps_restore o : keeps (R := R) (cm2_restore_connection o).
Proof. unfold cm2_restore_connection. keeps. Qed.
Lemma keeps_uplink_event i : keeps (R := R) (uplink_event i).
Proof. unfold uplink_event. keeps. Qed.
Hint Resolve keeps_uplink_event : keeps.
Lemma keeps_tcpdump b m s : keeps (R := R) (tcpdump b m s).
Proof. unfold tcpdump. keeps. Qed.
Lemma keeps_internet i c o s : keeps (R := R) (check_internet i c o s).
Proof. unfold check_internet. keeps. Qed.
Hint Resolve keeps_async : keeps.
Lemma keeps_req_async up o b r : keeps (R := R) (req_async up o b r).
Proof. unfold req_async. keeps. Qed.
Hint Resolve keeps_req_async : keeps.
Lemma keeps_recheck up r : keeps (R := R) (recheck_link up r).
Proof. unfold recheck_link. keeps. Qed.
Lemma keeps_empty : keeps (R := R) set_target_empty.
Proof. unfold set_target_empty, cm2_ovsdb_set_Manager_target. keeps. Qed.
Lemma keeps_count f : keeps (R := R) (count_failure f).
Proof. unfold count_failure. keeps. Qed.
Lemma keeps_disconnect : keeps (R := R) add_disconnect.
Proof. unfold add_disconnect. keeps. Qed.
End KeepsEvent.
#[export] Hint Resolve keeps_reset_time keeps_get_time keeps_timeout keeps_extender keeps_gw_offline keeps_gw_offline_off
  keeps_dismiss keeps_set_vtag keeps_block_vtag keeps_restore_bridge keeps_ip_opts keeps_pending keeps_check_recalc
  keeps_async keeps_interval keeps_cloud keeps_updating keeps_uplink_ip keeps_restore keeps_uplink_event keeps_tcpdump
  keeps_internet keeps_req_async keeps_recheck keeps_empty keeps_count keeps_disconnect : keeps.

(** ** The invariant *)

(** The changes of state the machine makes; [c] and [t] are [connected] and [target]. *)
Definition cm2_edge `{Cm2Cfg} (old new : cm2_state_e) (c : bool) (t : string) : Prop :=
  old <> new /\
  match new with
  | CM2_STATE_CONNECTED => c = true
  | CM2_STATE_TRY_CONNECT => old = CM2_STATE_RE_CONNECT /\ c = false /\ t = ""
  | CM2_STATE_RE_CONNECT => old = CM2_STATE_TRY_RESOLVE \/ old = CM2_STATE_FAST_RECONNECT \/ old = CM2_STATE_FAST_RECONNECT_WAIT
  | CM2_STATE_FAST_RECONNECT_WAIT => old = CM2_STATE_FAST_RECONNECT /\ c = false /\ t = ""
  | CM2_STATE_QUIESCE_OVS => wan_link_selection = true
  | CM2_STATE_INTERNET => False
  | _ => True
  end.
Definition good_action `{Cm2Cfg} (a : action) : Prop :=
  match a with AState _ old new c t => cm2_edge old new c t | _ => True end.

Section Inv.
Context {R : Type} `{Cm2Env} `{Cm2Cfg} `{!Resolver R} `{!ResolverSpec R}.
Notation M := (M R).

(** States in which the machine will ask the resolver for the next address. *)
Definition trying (s : cm2_state_e) (changed : bool) : Prop :=
  (s = CM2_STATE_TRY_CONNECT /\ changed = false) \/ s = CM2_STATE_FAST_RECONNECT_WAIT.
Record inv_g (g : cm2_state_t R) : Prop := {
  inv_res d : r_inv (a_res (cm2_get_addr d g));
  inv_live : trying (state g) (state_changed g) -> r_offered (a_res (cm2_curr_addr g));
  inv_backoff : u32 (max_backoff g - min_backoff g) <> 0
}.
Definition inv (w : world R) : Prop := inv_g (w_g w) /\ Forall good_action (w_log w).

Definition pres {A} (m : M A) : Prop := forall w, inv w -> wp (eq FFuel) (m w) (fun aw => inv aw.2).

Lemma good_ext l l' : log_ext l l' -> Forall good_action l -> Forall good_action l'.
Proof. intros (x & -> & Hx) Hl. apply Forall_app. split; [|done]. eapply Forall_impl; [exact Hx|]. by intros []. Qed.
Lemma inv_key g g' : key g' = key g -> inv_g g -> inv_g g'.
Proof.
  unfold key. intros [= E1 E2 E3 E4 E5 _ _ E6 E7] [Hr Hl Hb].
  split; unfold cm2_curr_addr, cm2_get_addr in *; rewrite ?E1, ?E2, ?E3, ?E4, ?E5, ?E6, ?E7; done.
Qed.
Lemma keeps_inv {A} (m : M A) w : keeps m -> inv w ->
  wp none (m w) (fun aw => inv aw.2 /\ key (w_g aw.2) = key (w_g w)).
Proof.
  intros Hm [Hg Hl]. eapply wp_mono; [apply Hm|]. intros [a w'] [Hk He]. cbn in *.
  split; [split|done]; [by eapply inv_key|by eapply good_ext].
Qed.
Lemma none_any E {A} (m : res A) Q : wp none m Q -> wp E m Q.
Proof. by destruct m. Qed.
Lemma pres_keeps {A} (m : M A) : keeps m -> pres m.
Proof. intros Hm w Hw. apply none_any. eapply wp_mono; [by apply keeps_inv|]. by intros ? [? _]. Qed.
Lemma pres_bind {A B} (m : M A) (k : A -> M B) : pres m -> (forall a, pres (k a)) -> pres (m ≫= k).
Proof.
  intros Hm Hk w Hw. unfold mbind, M_bind. apply wp_bind. eapply wp_mono; [by apply Hm|].
  intros [a w1] H1. by apply Hk.
Qed.
Lemma pres_when b (m : M ()) : pres m -> pres (when b m).
Proof. intros Hm. destruct b; [done|]. apply pres_keeps, keeps_ret. Qed.

(** Stepping through a computation from a world at hand. *)
Lemma wp_M_bind E {A B} (m : M A) (k : A -> M B) w Q :
  wp E (m w) (fun aw => wp E (k aw.1 aw.2) Q) -> wp E ((m ≫= k) w) Q.
Proof. intros Hm. unfold mbind, M_bind. apply wp_bind. eapply wp_mono; [exact Hm|]. by intros [a w1]. Qed.
Lemma wp_gets E {A B} (f : cm2_state_t R -> A) (k : A -> M B) w Q : wp E (k (f (w_g w)) w) Q -> wp E ((gets f ≫= k) w) Q.
Proof. done. Qed.
Lemma wp_modify E {B} f (k : () -> M B) w Q : wp E (k () (upd w_g f w)) Q -> wp E ((modify f ≫= k) w) Q.
Proof. done. Qed.
Lemma wp_call E {A B} a (f : nat -> A) (k : A -> M B) w Q :
  wp E (k (f (w_tick w)) (upd w_log (cons a) (upd w_tick S w))) Q -> wp E ((call a f ≫= k) w) Q.
Proof. done. Qed.
(** Over a part that keeps the machine. *)
Lemma wp_keeps E {A B} (m : M A) (k : A -> M B) w Q :
  keeps m -> inv w ->
  (forall a w', inv w' -> key (w_g w') = key (w_g w) -> wp E (k a w') Q) -> wp E ((m ≫= k) w) Q.
Proof.
  intros Hm Hw Hk. apply wp_M_bind. eapply none_any, wp_mono; [by apply keeps_inv|].
  intros [a w'] [? ?]. by apply Hk.
Qed.

(** ** Changes of state *)
Lemma wp_set_state ok s w :
  inv w -> (state (w_g w) <> s -> cm2_edge (state (w_g w)) s (connected (w_g w)) (target (w_g w))) ->
  (s = CM2_STATE_FAST_RECONNECT_WAIT -> r_offered (a_res (cm2_curr_addr (w_g w)))) ->
  wp (eq FFuel) (cm2_set_state ok s w) (fun aw => inv aw.2 /\ state (w_g aw.2) = s).
Proof.
  intros [[Hr Hl Hb] Hlog] He Hs. unfold cm2_set_state. apply wp_gets. case_bool_decide as E; [by split|].
  apply wp_gets, wp_gets. unfold call_, cm2_reset_time, time_monotonic. apply wp_call, wp_modify. apply wp_M_bind, wp_call.
  cbn [wp modify fst snd]. split; [split|done].
  - split; [exact Hr| |exact Hb]. intros [[_ Ht]|Ht]; [discriminate Ht|exact (Hs Ht)].
  - constructor; [exact I|]. constructor; [by apply He|exact Hlog].
Qed.
Lemma pres_set_state ok s :
  match s with
  | CM2_STATE_CONNECTED | CM2_STATE_TRY_CONNECT | CM2_STATE_RE_CONNECT | CM2_STATE_FAST_RECONNECT_WAIT | CM2_STATE_INTERNET => False
  | CM2_STATE_QUIESCE_OVS => wan_link_selection = true
  | _ => True
  end -> pres (cm2_set_state ok s).
Proof.
  intros Hs w Hw. eapply wp_mono; [apply wp_set_state|by intros ? []]; [done| |by intros ->].
  intros Hne. split; [done|]. by destruct s.
Qed.
End Inv.

Create HintDb pres.
Ltac pres_step :=
  match goal with
  | |- pres (mbind _ _) => apply pres_bind; [|intros ?]
  | |- pres (when _ _) => apply pres_when
  | |- pres (cm2_set_state _ _) => apply pres_set_state; first [exact I | assumption]
  | |- pres _ => solve [eauto with pres nocore]
  | |- pres (if ?b then _ else _) => destruct b
  | |- pres (match ?x with _ => _ end) => destruct x
  | |- pres (let _ := _ in _) => cbv zeta
  | |- pres _ => apply pres_keeps; solve [keeps]
  end.
Ltac pres := repeat pres_step.

Section PresNested.
Context {R : Type} `{Cm2Env} `{Cm2Cfg} `{!Resolver R} `{!ResolverSpec R}.
Context (update_state : cm2_reason_e -> M R ()) (Hupd : forall r, pres (update_state r)).
Hint Resolve Hupd : pres.

Lemma pres_bridge_cfg br i b m l : pres (cm2_update_bridge_cfg update_state br i b m l).
Proof using Hupd. unfold cm2_update_bridge_cfg. pres. Qed.
Hint Resolve pres_bridge_cfg : pres.
Lemma pres_clear_used : pres (cm2_connection_clear_used update_state).
Proof using Hupd. unfold cm2_connection_clear_used. pres. Qed.
Hint Resolve pres_clear_used : pres.
Lemma pres_set_is_used u : pres (cm2_connection_set_is_used update_state u).
Proof using Hupd. unfold cm2_connection_set_is_used. pres. Qed.
Hint Resolve pres_set_is_used : pres.
Lemma pres_recalc b : pres (cm2_ovsdb_recalc_links update_state b).
Proof using Hupd. unfold cm2_ovsdb_recalc_links. pres. Qed.
Lemma pres_vtag_check : pres (cm2_vtag_stability_check update_state).
Proof using Hupd. unfold cm2_vtag_stability_check. pres. Qed.
Hint Resolve pres_recalc pres_vtag_check : pres.
Lemma pres_restart_managers : pres (cm2_trigger_restart_managers update_state).
Proof using Hupd. unfold cm2_trigger_restart_managers, skip_restart. pres. Qed.
Hint Resolve pres_restart_managers : pres.
Lemma pres_fatal n : pres (cm2_stability_handle_fatal_state update_state n).
Proof using Hupd. unfold cm2_stability_handle_fatal_state. pres. Qed.
Hint Resolve pres_fatal : pres.
Lemma pres_router i b c o s : pres (check_router update_state i b c o s).
Proof using Hupd. unfold check_router. pres. Qed.
Lemma pres_broken i c : pres (broken_bridge update_state i c).
Proof using Hupd. unfold broken_bridge. pres. Qed.
Hint Resolve pres_router pres_broken : pres.
Lemma pres_process un o b st cs : pres (cm2_connection_req_stability_process update_state un o b st cs).
Proof using Hupd. unfold cm2_connection_req_stability_process. pres. Qed.
Hint Resolve pres_process : pres.
Lemma pres_main_check up o b : pres (main_check update_state up o b).
Proof using Hupd. unfold main_check, cm2_connection_req_stability_check. pres. Qed.
End PresNested.
#[export] Hint Resolve pres_bridge_cfg pres_clear_used pres_set_is_used pres_recalc pres_vtag_check pres_restart_managers
  pres_fatal pres_router pres_broken pres_process pres_main_check : pres.

(** ** The states *)
Section Machine.
Context {R : Type} `{Cm2Env} `{Cm2Cfg} `{!Resolver R} `{!ResolverSpec R}.
Context (update_state : cm2_reason_e -> M R ()) (Hupd : forall r, pres (update_state r)).
Context (Hthr : CLOUD_FATAL_THRESHOLD = 0).
Notation M := (M R).

(** The same, from a world of which more is known. *)
Definition from (P : cm2_state_t R -> Prop) {A} (m : M A) : Prop :=
  forall w, inv w -> P (w_g w) -> wp (eq FFuel) (m w) (fun aw => inv aw.2).
Definition stable (P : cm2_state_t R -> Prop) : Prop := forall g g', key g' = key g -> P g -> P g'.

Lemma from_pres P {A} (m : M A) : pres m -> from P m.
Proof. intros Hm w Hw _. by apply Hm. Qed.
Lemma from_keeps P {A B} (m : M A) (k : A -> M B) : stable P -> keeps m -> (forall a, from P (k a)) -> from P (m ≫= k).
Proof. intros HP Hm Hk w Hw Hp. eapply wp_keeps; [done..|]. intros a w' Hw' Hkey. apply Hk; [done|by eapply HP]. Qed.
Lemma from_gets P {A B} (f : cm2_state_t R -> A) (k : A -> M B) :
  (forall g, P g -> from (eq g) (k (f g))) -> from P (gets f ≫= k).
Proof. intros Hk w Hw Hp. apply wp_gets. by apply (Hk (w_g w)). Qed.
Lemma from_bind P {A B} (m : M A) (k : A -> M B) : from P m -> (forall a, pres (k a)) -> from P (m ≫= k).
Proof. intros Hm Hk w Hw Hp. apply wp_M_bind. eapply wp_mono; [by apply Hm|]. intros [a w'] Hw'. by apply Hk. Qed.
Lemma from_weaken (P Q : cm2_state_t R -> Prop) {A} (m : M A) : (forall g, P g -> Q g) -> from Q m -> from P m.
Proof. intros HPQ Hm w Hw Hp. apply Hm; auto. Qed.

(** Facts that the invariant's fields decide. *)
Definition at_state (s : cm2_state_e) (g : cm2_state_t R) : Prop := state g = s.
Definition at_key (k : _) (g : cm2_state_t R) : Prop := key g = k.
Lemma stable_state s : stable (at_state s).
Proof. intros g g' E Hg. unfold at_state in *. injection E. congruence. Qed.
Lemma stable_key k : stable (at_key k).
Proof. intros g g' E Hg. unfold at_key in *. congruence. Qed.

Lemma from_set_state P ok s :
  (forall g, P g -> state g <> s -> cm2_edge (state g) s (connected g) (target g)) ->
  (forall g, P g -> s = CM2_STATE_FAST_RECONNECT_WAIT -> r_offered (a_res (cm2_curr_addr g))) -> from P (cm2_set_state ok s).
Proof. intros He Hs w Hw Hp. eapply wp_mono; [apply wp_set_state; [done|by apply He|by apply Hs]|by intros ? []]. Qed.

(** Parts that stay in a state. *)
Definition stays (s : cm2_state_e) {A} (m : M A) : Prop :=
  forall w, inv w -> at_state s (w_g w) -> wp (eq FFuel) (m w) (fun aw => inv aw.2 /\ at_state s (w_g aw.2)).
Lemma stays_keeps s {A} (m : M A) : keeps m -> stays s m.
Proof.
  intros Hm w Hw Hs. eapply none_any, wp_mono; [by apply keeps_inv|]. intros [a w'] [? Hk].
  split; [done|by eapply stable_state].
Qed.
Lemma stays_bind s {A B} (m : M A) (k : A -> M B) : stays s m -> (forall a, stays s (k a)) -> stays s (m ≫= k).
Proof. intros Hm Hk w Hw Hs. apply wp_M_bind. eapply wp_mono; [by apply Hm|]. intros [a w'] []. by apply Hk. Qed.
Lemma from_stays s {A B} (m : M A) (k : A -> M B) : stays s m -> (forall a, from (at_state s) (k a)) -> from (at_state s) (m ≫= k).
Proof. intros Hm Hk w Hw Hs. apply wp_M_bind. eapply wp_mono; [by apply Hm|]. intros [a w'] []. by apply Hk. Qed.
Lemma pres_stays {A} (m : M A) : (forall s, stays s m) -> pres m.
Proof. intros Hm w Hw. eapply wp_mono; [by eapply (Hm (state (w_g w)))|]. by intros ? []. Qed.

(** [cm2_state_changed], in a state that asks for no address. *)
Lemma from_changed s {B} (k : bool -> M B) :
  s <> CM2_STATE_TRY_CONNECT -> (forall c, from (at_state s) (k c)) -> from (at_state s) (cm2_state_changed ≫= k).
Proof.
  intros Hs Hk w [[Hr Hl Hb] Hlog] Hp. unfold cm2_state_changed. apply wp_M_bind, wp_gets, wp_modify. apply Hk; [|done].
  split; [|done]. split; [done| |done]. intros [[E _]|E]; [|apply Hl; by right]. exfalso. apply Hs. rewrite <- E. done.
Qed.

Lemma pres_ovs_connect : pres cm2_ovs_connect.
Proof.
  intros w Hw. unfold cm2_ovs_connect. apply wp_gets. cbn [id].
  eapply wp_keeps; [unfold modify; keeps|done|]. intros _ w' Hw' Hk.
  destruct (connected_at_least_once (w_g w)); cbn [negb]; [|by apply pres_set_state].
  destruct (connected (w_g w)) eqn:Hc; [|by apply pres_set_state].
  destruct (skip_reconnect (w_g w)).
  - eapply wp_mono; [apply wp_set_state; [done| |done]|by intros ? []].
    intros Hne. split; [done|]. injection Hk. intros. congruence.
  - apply (pres_bind (modify (set fast_backoff true))); [apply pres_keeps; keeps| |done].
    intros _. by apply pres_set_state.
Qed.
Hint Resolve pres_ovs_connect : pres.

Lemma pres_restart_ovs ok : pres (cm2_restart_ovs_connection update_state ok).
Proof using Hupd Hthr.
  unfold cm2_restart_ovs_connection. rewrite Hthr. apply pres_bind; [pres|]. intros n. cbn [Z.eqb orb].
  destruct wan_link_selection eqn:E; pres.
Qed.
Hint Resolve pres_restart_ovs : pres.
Lemma pres_give_up : pres (give_up_connecting update_state).
Proof using Hupd Hthr. unfold give_up_connecting. pres. Qed.
Hint Resolve pres_give_up : pres.

(** ** Addresses *)

(** An address [parse_uri] can cope with: empty, or not just colons. *)
Definition uri_ok (a : string) : Prop := a = "" \/ skip_delim ":"%char (strscpy (strscpy a CM2_RESOURCE_MAX) UTIL_URI_MAX_LENG) <> "".
Lemma parse_uri_safe a ps hs E : uri_ok a -> wp E (parse_uri (strscpy a CM2_RESOURCE_MAX) ps hs) (fun _ => True).
Proof.
  intros Ha. unfold parse_uri. destruct (String.eqb_spec (strscpy a CM2_RESOURCE_MAX) "") as [|Hne]; [done|].
  destruct Ha as [->|Ha]; [done|]. unfold strtok at 1.
  destruct (skip_delim ":"%char (strscpy (strscpy a CM2_RESOURCE_MAX) UTIL_URI_MAX_LENG)) as [|c s'] eqn:Es; [done|].
  destruct (until_delim ":"%char (String c s')) as [t r]. destruct (strtok ":"%char r) as [th r']. destruct (strtok ":"%char r') as [ps' ?].
  cbn [deref mbind res_bind]. repeat case_match; done.
Qed.
Lemma set_addr_spec (a : cm2_addr_t R) res : uri_ok res -> r_inv (a_res a) ->
  wp none (set_addr_pure a res) (fun ra => r_inv (a_res ra.2) /\ r_offered (a_res ra.2)).
Proof.
  intros Hu Hr. unfold set_addr_pure. set (a1 := set updated false _).
  assert (forall b : cm2_addr_t R, r_inv (a_res b) -> wp none (cm2_clear_addr b) (fun b' => r_inv (a_res b') /\ r_offered (a_res b'))) as Hclear.
  { intros b Hb. unfold cm2_clear_addr. apply wp_bind. eapply wp_mono; [by apply r_free_spec|]. done. }
  destruct (String.eqb_spec res "") as [->|Hne].
  - apply wp_bind. eapply wp_mono; [by apply Hclear|]. done.
  - apply wp_bind. eapply (wp_mono _ _ (fun ba => r_inv (a_res ba.2))).
    + unfold cm2_parse_resource. apply wp_bind. eapply wp_mono; [by apply parse_uri_safe|]. intros u _.
      apply wp_bind. destruct u as [[[p h] n]|]; [done|]. eapply wp_mono; [by apply Hclear|]. by intros b [].
    + intros [ret b] Hb. apply wp_bind. eapply wp_mono; [by apply r_free_spec|]. done.
Qed.
Lemma inv_set_addr d a w : inv w -> r_inv (a_res a) -> r_offered (a_res a) ->
  inv (upd w_g (upd_addr d (fun _ => a)) w).
Proof.
  intros [[Hr Hl Hb] Hlog] Ha Ho. split; [|done]. split.
  - intros d'. specialize (Hr d'). by destruct d, d'.
  - intros Ht. assert (trying (state (w_g w)) (state_changed (w_g w))) as Ht' by (by destruct d).
    specialize (Hl Ht'). unfold cm2_curr_addr in *. cbn [w_g upd eta_world]. destruct d; cbn [upd_addr];
      change (dest (upd _ _ (w_g w))) with (dest (w_g w)); by destruct (dest (w_g w)).
  - by destruct d.
Qed.
Lemma stays_set_addr s d res : uri_ok res -> stays s (cm2_set_addr d res).
Proof.
  intros Hu w Hw Hs. unfold cm2_set_addr. apply wp_gets. apply wp_M_bind. unfold lift. apply wp_bind.
  eapply none_any, wp_mono; [apply set_addr_spec; [done|apply Hw]|]. intros [ret a] [Ha Ho].
  cbn [wp fst snd]. apply wp_modify. split; [by apply inv_set_addr|by destruct d].
Qed.
Lemma pres_set_addr d res : uri_ok res -> pres (cm2_set_addr d res).
Proof. intros Hu. apply pres_stays. intros s. by apply stays_set_addr. Qed.
Lemma stays_clear_manager s : stays s cm2_clear_manager_addr.
Proof.
  unfold cm2_clear_manager_addr, cm2_ovsdb_set_AWLAN_Node_manager_addr.
  apply stays_bind; [apply stays_keeps; keeps|]. intros _. apply stays_bind; [apply stays_set_addr; by left|].
  intros _. apply stays_keeps. keeps.
Qed.

(** The destination changes only in states that ask for no address. *)
Lemma wp_set_dst d w : inv w -> ~ trying (state (w_g w)) (state_changed (w_g w)) ->
  wp (eq FFuel) (cm2_set_dst_type d w) (fun aw => inv aw.2 /\ state (w_g aw.2) = state (w_g w)).
Proof.
  intros [[Hr Hl Hb] Hlog] Ht. unfold cm2_set_dst_type. apply wp_modify. cbn [wp modify fst snd].
  pose proof (r_pref_spec d (set dest d (w_g w))) as (Hc & _ & _ & Hi).
  set (g' := cm2_set_ipv6_pref d (set dest d (w_g w))) in *.
  assert (state g' = state (w_g w)) as Es by exact (f_equal state Hc).
  assert (state_changed g' = state_changed (w_g w)) as Ec by exact (f_equal state_changed Hc).
  split; [|exact Es]. split; [|done]. split.
  - apply Hi. intros d'. exact (Hr d').
  - intros Htr. exfalso. apply Ht. rewrite <- Es, <- Ec. exact Htr.
  - replace (max_backoff _) with (max_backoff (w_g w)) by exact (eq_sym (f_equal max_backoff Hc)).
    replace (min_backoff _) with (min_backoff (w_g w)) by exact (eq_sym (f_equal min_backoff Hc)). done.
Qed.

(** ** The resolver's calls *)
Lemma inv_frame w w' : inv w -> frame w w' -> (forall d, r_inv (a_res (cm2_get_addr d (w_g w')))) ->
  (trying (state (w_g w)) (state_changed (w_g w)) -> r_offered (a_res (cm2_curr_addr (w_g w')))) -> inv w'.
Proof.
  intros [[Hr Hl Hb] Hlog] (Hc & _ & _ & He) Hr' Hl'. split; [|by eapply good_ext]. split; [done| |].
  - replace (state (w_g w')) with (state (w_g w)) by exact (eq_sym (f_equal state Hc)).
    by replace (state_changed (w_g w')) with (state_changed (w_g w)) by exact (eq_sym (f_equal state_changed Hc)).
  - replace (max_backoff (w_g w')) with (max_backoff (w_g w)) by exact (eq_sym (f_equal max_backoff Hc)).
    by replace (min_backoff (w_g w')) with (min_backoff (w_g w)) by exact (eq_sym (f_equal min_backoff Hc)).
Qed.
Lemma frame_state (w w' : world R) : frame w w' -> state (w_g w') = state (w_g w) /\ connected (w_g w') = connected (w_g w) /\ target (w_g w') = target (w_g w).
Proof. intros (Hc & _). split; [exact (f_equal state Hc)|]. split; [exact (f_equal connected Hc)|exact (f_equal target Hc)]. Qed.

(** Neither kind of state that asks for an address. *)
Definition idle (s : cm2_state_e) : Prop := s <> CM2_STATE_TRY_CONNECT /\ s <> CM2_STATE_FAST_RECONNECT_WAIT.
Lemma idle_trying s c : idle s -> ~ trying s c.
Proof. intros [H1 H2] [[? _]|?]; auto. Qed.

Lemma stays_resolve s d : idle s -> stays s (cm2_resolve d).
Proof.
  intros Hi w Hw Hs. eapply none_any, wp_mono; [apply r_resolve_spec, Hw|]. intros [b w'] [Hf Hr]. cbn [snd] in *. split.
  - eapply inv_frame; [done..|]. intros Ht. rewrite Hs in Ht. by destruct (idle_trying _ _ Hi Ht).
  - unfold at_state in *. rewrite <- Hs. apply frame_state, Hf.
Qed.
Lemma stays_resolve_timeout s : idle s -> stays s cm2_resolve_timeout.
Proof.
  intros Hi w Hw Hs. eapply none_any, wp_mono; [apply r_timeout_spec, Hw|]. intros [b w'] [Hf Hr]. cbn [snd] in *. split.
  - eapply inv_frame; [done..|]. intros Ht. rewrite Hs in Ht. by destruct (idle_trying _ _ Hi Ht).
  - unfold at_state in *. rewrite <- Hs. apply frame_state, Hf.
Qed.
Lemma stays_set_dst s d : idle s -> stays s (cm2_set_dst_type d).
Proof.
  intros Hi w Hw Hs. eapply wp_mono; [apply wp_set_dst; [done|]|].
  - rewrite Hs. by apply idle_trying.
  - intros [a w'] [? E]. split; [done|]. exact (eq_trans E Hs).
Qed.

(** ** One lemma per state *)
Lemma pres_init : pres state_init.
Proof. unfold state_init. pres. Qed.
Lemma from_link_sel up : from (at_state CM2_STATE_LINK_SEL) (state_link_sel update_state up).
Proof using Hupd.
  unfold state_link_sel. apply from_changed; [done|]. intros c. apply from_pres. pres.
Qed.
Lemma from_wan_ip up v : from (at_state CM2_STATE_WAN_IP) (state_wan_ip update_state up v).
Proof using Hupd. unfold state_wan_ip. apply from_changed; [done|]. intros c. apply from_pres. pres. Qed.
Lemma from_ntp_check up : from (at_state CM2_STATE_NTP_CHECK) (state_ntp_check update_state up).
Proof using Hupd. unfold state_ntp_check. apply from_changed; [done|]. intros c. apply from_pres. pres. Qed.

Lemma from_ovs_init : from (at_state CM2_STATE_OVS_INIT) state_ovs_init.
Proof.
  unfold state_ovs_init. apply from_changed; [done|]. intros c.
  apply from_keeps; [apply stable_state|keeps|]. intros _. apply from_stays; [apply stays_keeps; keeps|]. intros g.
  destruct (wan_link_selection && negb (is_used (link g))); [apply from_pres; pres|].
  destruct (negb (String.eqb (target g) "")); [apply from_pres; pres|].
  destruct (connected g); [apply from_pres; pres|].
  apply from_keeps; [apply stable_state|keeps|]. intros _. apply from_bind; [|intros _; pres].
  destruct (valid (addr_redirector g)); cbn [when]; [|apply from_pres; pres].
  apply from_stays; [apply stays_clear_manager|]. intros _. apply from_stays; [by apply stays_set_dst|]. intros _.
  apply from_pres. pres.
Qed.

Lemma from_try_resolve up : from (at_state CM2_STATE_TRY_RESOLVE) (state_try_resolve update_state up).
Proof using Hupd Hthr.
  unfold state_try_resolve. apply from_changed; [done|]. intros c. apply from_keeps; [apply stable_state|keeps|]. intros r.
  apply from_stays.
  { destruct (c || r); [|apply stays_keeps; keeps]. apply stays_bind; [apply stays_keeps; keeps|]. intros _.
    apply stays_bind; [apply stays_keeps; keeps|]. intros r'. apply stays_bind; [apply stays_keeps; keeps|]. intros _.
    apply stays_bind; [apply stays_keeps; keeps|]. intros d. apply stays_bind; [by apply stays_resolve|]. intros b.
    apply stays_keeps; keeps. }
  intros [|]; [apply from_pres; pres|]. apply from_keeps; [apply stable_state|keeps|]. intros [|].
  - apply from_keeps; [apply stable_state|keeps|]. intros _. apply from_bind; [|intros _; pres].
    apply from_set_state; [|done]. intros g Hg _. split; [by rewrite Hg|]. rewrite Hg. auto.
  - apply from_keeps; [apply stable_state|keeps|]. intros to. apply from_keeps; [apply stable_state|keeps|]. intros n.
    destruct (to || _); [|apply from_pres; pres]. apply from_keeps; [apply stable_state|keeps|]. intros _.
    apply from_stays; [by apply stays_resolve_timeout|]. intros _. apply from_pres. pres.
Qed.

Lemma from_re_connect : from (at_state CM2_STATE_RE_CONNECT) (state_re_connect update_state).
Proof using Hupd Hthr.
  unfold state_re_connect. apply from_changed; [done|]. intros c. apply from_keeps; [apply stable_state|keeps|]. intros _.
  apply from_gets. intros g Hg. cbn [id]. destruct (String.eqb_spec (target g) "") as [Ht|]; cbn [andb].
  - destruct (connected g) eqn:Hc; cbn [negb]; [apply from_pres; pres|].
    apply from_bind; [|intros _; pres]. apply from_set_state; [|done]. intros g' <- Hne. split; [done|]. done.
  - apply from_pres. pres.
Qed.

(** *** The states that ask for addresses

    Once the resolver has none left, the invariant holds again only when the state is left. *)
Definition winv (w : world R) : Prop :=
  (forall d, r_inv (a_res (cm2_get_addr d (w_g w)))) /\ u32 (max_backoff (w_g w) - min_backoff (w_g w)) <> 0 /\ Forall good_action (w_log w).
Lemma inv_winv w : inv w -> winv w.
Proof. by intros [[Hr Hl Hb] Hlog]. Qed.
Lemma winv_live w : winv w -> (trying (state (w_g w)) (state_changed (w_g w)) -> r_offered (a_res (cm2_curr_addr (w_g w)))) -> inv w.
Proof. intros (Hr & Hb & Hl) Ht. by split. Qed.
Lemma wp_keeps_w E {A B} (m : M A) (k : A -> M B) w Q :
  keeps m -> winv w ->
  (forall a w', winv w' -> key (w_g w') = key (w_g w) -> wp E (k a w') Q) -> wp E ((m ≫= k) w) Q.
Proof.
  intros Hm (Hr & Hb & Hl) Hk. apply wp_M_bind. eapply none_any, wp_mono; [apply Hm|].
  intros [a w'] [E1 He]. cbn [fst snd] in *. apply Hk; [|done]. unfold winv, cm2_get_addr in *.
  injection E1 as _ _ _ -> -> _ _ -> ->. split; [done|]. split; [done|by eapply good_ext].
Qed.
Lemma winv_frame w w' : winv w -> frame w w' -> (forall d, r_inv (a_res (cm2_get_addr d (w_g w')))) -> winv w'.
Proof.
  intros (Hr & Hb & Hl) (Hc & _ & _ & He) Hr'. split; [done|]. split; [|by eapply good_ext].
  replace (max_backoff (w_g w')) with (max_backoff (w_g w)) by exact (eq_sym (f_equal max_backoff Hc)).
  by replace (min_backoff (w_g w')) with (min_backoff (w_g w)) by exact (eq_sym (f_equal min_backoff Hc)).
Qed.
Lemma wp_leave ok s w :
  winv w -> cm2_edge (state (w_g w)) s (connected (w_g w)) (target (w_g w)) ->
  s <> CM2_STATE_FAST_RECONNECT_WAIT -> wp (eq FFuel) (cm2_set_state ok s w) (fun aw => inv aw.2).
Proof.
  intros (Hr & Hb & Hlog) He Hs. unfold cm2_set_state. apply wp_gets. case_bool_decide as E; [by destruct He|].
  apply wp_gets, wp_gets. unfold call_, cm2_reset_time, time_monotonic. apply wp_call, wp_modify. apply wp_M_bind, wp_call.
  cbn [wp modify fst snd]. split.
  - split; [exact Hr| |exact Hb]. intros [[_ Ht]|Ht]; [discriminate Ht|by destruct (Hs Ht)].
  - constructor; [exact I|]. constructor; [exact He|exact Hlog].
Qed.
Lemma leave_ovs_connect w : winv w -> at_state CM2_STATE_TRY_CONNECT (w_g w) ->
  wp (eq FFuel) (cm2_ovs_connect w) (fun aw => inv aw.2).
Proof.
  intros Hw Hs. unfold cm2_ovs_connect. apply wp_gets. cbn [id].
  eapply wp_keeps_w; [unfold modify; keeps|done|]. intros _ w' Hw' Hk.
  assert (state (w_g w') = CM2_STATE_TRY_CONNECT) as Es by (injection Hk; unfold at_state in Hs; congruence).
  assert (connected (w_g w') = connected (w_g w)) as Ec by (injection Hk; congruence).
  assert (forall ok s, s <> CM2_STATE_TRY_CONNECT -> s <> CM2_STATE_FAST_RECONNECT_WAIT ->
    match s with CM2_STATE_OVS_INIT | CM2_STATE_FAST_RECONNECT => True | CM2_STATE_CONNECTED => connected (w_g w) = true | _ => False end ->
    forall w', winv w' -> state (w_g w') = CM2_STATE_TRY_CONNECT -> connected (w_g w') = connected (w_g w) ->
    wp (eq FFuel) (cm2_set_state ok s w') (fun aw => inv aw.2)) as Hgo.
  { intros ok s Hs1 Hs2 Hm w2 Hw2 E2 C2. apply wp_leave; [done| |done]. rewrite E2, C2. split; [congruence|]. by destruct s. }
  destruct (connected_at_least_once (w_g w)); cbn [negb]; [|by apply Hgo].
  destruct (connected (w_g w)) eqn:Hc; [|by apply Hgo].
  destruct (skip_reconnect (w_g w)); [by apply Hgo|].
  eapply wp_keeps_w; [keeps|done|]. intros _ w2 Hw2 Hk2. injection Hk2. intros. apply Hgo; [done..| |]; congruence.
Qed.
Lemma leave_give_up w : winv w -> at_state CM2_STATE_TRY_CONNECT (w_g w) ->
  wp (eq FFuel) (give_up_connecting update_state w) (fun aw => inv aw.2).
Proof using Hthr.
  intros Hw Hs. unfold give_up_connecting. eapply wp_keeps_w; [keeps|done|]. intros _ w1 Hw1 Hk1.
  apply wp_M_bind. apply (wp_mono _ _ (fun aw => inv aw.2)); [|by intros [a w2] ?].
  assert (at_state CM2_STATE_TRY_CONNECT (w_g w1)) as Hs1 by (by eapply stable_state).
  unfold cm2_restart_ovs_connection. rewrite Hthr. apply wp_gets. cbn [Z.eqb orb when].
  destruct wan_link_selection eqn:Esel.
  - eapply wp_keeps_w; [keeps|done|]. intros _ w2 Hw2 Hk2. eapply stable_state in Hs1; [|exact Hk2].
    apply wp_leave; [done| |done]. rewrite Hs1. by split.
  - apply wp_M_bind. eapply wp_keeps_w; [keeps|done|]. intros _ w2 Hw2 Hk2. cbn [wp mret M_ret fst snd].
    apply leave_ovs_connect; [done|]. by eapply stable_state.
Qed.

(** Asking: what is written is an address offered, or the state is left. *)
Definition asking (g : cm2_state_t R) : Prop := state g = CM2_STATE_TRY_CONNECT /\ state_changed g = false.
Lemma stable_asking : stable asking.
Proof. intros g g' E [Hs Hc]. injection E. unfold asking. split; congruence. Qed.
Lemma wp_write (m k : M bool) w :
  wp none (m w) (fun bw => frame w bw.2 /\ (forall d, r_inv (a_res (cm2_get_addr d (w_g bw.2)))) /\
     (bw.1 = true -> r_offered (a_res (cm2_curr_addr (w_g bw.2))))) ->
  winv w -> asking (w_g w) -> from asking k ->
  wp (eq FFuel) ((m ≫= (fun ok => if negb ok then give_up_connecting update_state else k)) w) (fun aw => inv aw.2).
Proof using Hthr.
  intros Hm Hw [Hs Hc] Hk. apply wp_M_bind. eapply none_any, wp_mono; [exact Hm|]. intros [b w'] (Hf & Hr & Ho). cbn [fst snd] in *.
  assert (winv w') as Hw' by (by eapply winv_frame).
  assert (asking (w_g w')) as Hs'.
  { destruct Hf as (Ef & _). split; [exact (eq_trans (f_equal state Ef) Hs)|exact (eq_trans (f_equal state_changed Ef) Hc)]. }
  destruct b; cbn [negb]; [|apply leave_give_up; [done|apply Hs']]. apply Hk; [|done].
  apply winv_live; [done|]. intros _. by apply Ho.
Qed.

Lemma from_connecting up : from asking (connecting update_state up).
Proof using Hupd Hthr.
  unfold connecting. apply from_gets. intros g Hg. cbn [id]. destruct (connected g) eqn:Hc.
  - apply from_bind; [|intros _; pres]. apply from_set_state; [|done]. intros g' <- Hne. by split.
  - apply (from_weaken _ asking); [by intros g' <-|]. apply from_keeps; [apply stable_asking|keeps|]. intros to.
    destruct (negb to); [apply from_pres; pres|]. apply from_keeps; [apply stable_asking|keeps|]. intros _.
    intros w Hw Ha. apply wp_write; [|by apply inv_winv|done|apply from_pres; pres].
    apply r_next_spec; apply Hw. by left.
Qed.
Lemma from_try_connect up : from (at_state CM2_STATE_TRY_CONNECT) (state_try_connect update_state up).
Proof using Hupd Hthr.
  unfold state_try_connect. apply from_keeps; [apply stable_state|keeps|]. intros _.
  apply from_keeps; [apply stable_state|keeps|]. intros [|]; [apply from_pres; pres|].
  intros w Hw Hs. unfold cm2_state_changed at 1. apply wp_M_bind, wp_gets, wp_modify. cbn [wp mret M_ret fst snd].
  set (w1 := upd w_g (set state_changed false) w). assert (asking (w_g w1)) as Ha by (by split).
  destruct (state_changed (w_g w)) eqn:Ec; cbn [negb].
  - assert (winv w1) as Hw1 by exact (inv_winv _ Hw).
    eapply wp_keeps_w; [keeps|exact Hw1|]. intros _ w2 Hw2 Hk2.
    apply wp_write; [apply r_current_spec, Hw2|done|by eapply stable_asking|apply from_connecting].
  - apply from_connecting; [|done]. apply winv_live; [exact (inv_winv _ Hw)|].
    intros _. apply Hw. left. by split.
Qed.

Lemma from_fast_reconnect up : from (at_state CM2_STATE_FAST_RECONNECT) (state_fast_reconnect up).
Proof.
  unfold state_fast_reconnect. apply from_changed; [done|]. intros c. apply from_keeps; [apply stable_state|keeps|]. intros _.
  apply from_gets. intros g Hg. cbn [id]. apply (from_weaken _ (at_key (key g))); [by intros g' <-|].
  destruct (String.eqb_spec (target g) "") as [Ht|Ht]; cbn [negb orb].
  - destruct (connected g) eqn:Hc.
    + apply from_keeps; [apply stable_key|keeps|]. intros [|]; cbn [when]; [|apply from_pres; pres].
      apply from_bind; [|intros _; pres]. apply from_set_state; [|done]. intros g' Hk Hne. injection Hk.
      unfold at_state in Hg. split; [done|]. right. left. congruence.
    + apply from_keeps; [apply stable_key|keeps|]. intros p. apply from_keeps; [apply stable_key|keeps|].
      intros [|]; [apply from_pres; pres|].
      intros w Hw Hk. apply wp_M_bind. eapply none_any, wp_mono; [apply r_current_spec, Hw|]. intros [b w'] (Hf & Hr & Ho).
      cbn [fst snd] in *. destruct (frame_state _ _ Hf) as (Es & Ec & Et). injection Hk. intros _ _ Et' Ec' _ _ _ _ Es'.
      assert (state (w_g w') = CM2_STATE_FAST_RECONNECT) as Es2 by (unfold at_state in Hg; congruence).
      assert (inv w') as Hw'.
      { eapply winv_live; [eapply winv_frame; [by apply inv_winv|done..]|]. rewrite Es2. by intros [[? _]|?]. }
      apply wp_M_bind. apply (wp_mono _ _ (fun aw => inv aw.2)); [|by intros [a w2] ?].
      destruct b; [|by apply pres_set_state].
      eapply wp_mono; [apply wp_set_state; [done| |by intros _; apply Ho]|by intros ? []].
      intros Hne. split; [done|]. split; [done|]. split; congruence.
  - apply from_keeps; [apply stable_key|keeps|]. intros [|]; cbn [when]; [|apply from_pres; pres].
    apply from_bind; [|intros _; pres]. apply from_set_state; [|done]. intros g' Hk Hne. injection Hk.
    unfold at_state in Hg. split; [done|]. right. left. congruence.
Qed.

Lemma from_fast_reconnect_wait : from (at_state CM2_STATE_FAST_RECONNECT_WAIT) state_fast_reconnect_wait.
Proof.
  unfold state_fast_reconnect_wait. apply from_gets. intros g Hg. apply from_bind; [|intros _; pres].
  destruct (connected g) eqn:Hc.
  - apply from_set_state; [|done]. intros g' <- Hne. by split.
  - apply (from_weaken _ (at_state CM2_STATE_FAST_RECONNECT_WAIT)); [by intros g' <-|].
    apply from_keeps; [apply stable_state|keeps|]. intros [|]; cbn [when]; [|apply from_pres; pres].
    intros w Hw Hs. apply wp_M_bind. eapply none_any, wp_mono.
    { apply r_move_spec; apply Hw. by right. }
    intros [a w'] [Hf Hr]. cbn [fst snd] in *. apply wp_leave; [by eapply winv_frame; [apply inv_winv|..]| |done].
    pose proof (eq_trans (proj1 (frame_state _ _ Hf)) Hs) as Es. rewrite Es. split; [done|]. auto.
Qed.

Lemma from_connected up : from (at_state CM2_STATE_CONNECTED) (state_connected up).
Proof. unfold state_connected. apply from_changed; [done|]. intros c. apply from_pres. pres. Qed.

Lemma pres_backoff : pres cm2_compute_backoff.
Proof.
  intros w Hw. unfold cm2_compute_backoff. apply wp_gets. cbn [id].
  apply wp_M_bind, (wp_mono _ _ (fun aw => inv aw.2)).
  - destruct (fast_backoff (w_g w)); [done|]. eapply wp_keeps; [keeps|done|]. intros fd w1 Hw1 _.
    destruct (negb fd); [done|]. eapply wp_keeps; [keeps|done|]. intros [ok r] w2 Hw2 _.
    destruct (negb ok); [done|]. destruct (Z.eqb_spec (u32 (max_backoff (w_g w) - min_backoff (w_g w))) 0) as [E|_]; [|done].
    by destruct (inv_backoff _ (proj1 Hw)).
  - intros [b w'] Hw'. exact Hw'.
Qed.
Hint Resolve pres_backoff : pres.
Lemma from_quiesce up : from (at_state CM2_STATE_QUIESCE_OVS) (state_quiesce update_state up).
Proof using Hupd Hthr. unfold state_quiesce. apply from_changed; [done|]. intros c. apply from_pres. pres. Qed.

(** ** The whole function *)
Lemma pres_on_reason up ls r : pres (on_reason update_state up ls r).
Proof using Hupd. destruct r; cbn [on_reason]; pres. Qed.
Lemma pres_updated d b : pres (modify (upd_addr d (set updated b))).
Proof.
  intros w [[Hr Hl Hb] Hlog]. split; [|done]. split; [|intros Ht|].
  - intros d'. specialize (Hr d'). by destruct d, d'.
  - assert (trying (state (w_g w)) (state_changed (w_g w))) as Ht' by (by destruct d).
    specialize (Hl Ht'). unfold cm2_curr_addr in *. destruct d; cbn [upd_addr];
      match goal with |- context [dest ?g] => change (dest g) with (dest (w_g w)) end; by destruct (dest (w_g w)).
  - by destruct d.
Qed.
Lemma pres_on_addresses ls : pres (on_addresses ls).
Proof.
  unfold on_addresses. apply pres_bind; [pres|]. intros g. destruct (_ && _ && _ && _ && _).
  - apply pres_bind; [pres|]. intros _. exact (pres_updated CM2_DEST_REDIR false).
  - apply pres_when. intros w Hw. apply wp_M_bind.
    eapply wp_mono; [apply wp_set_state; [done|by intros Hne; split|done]|]. intros [a w'] [Hw' Es]. cbn [fst snd] in *.
    eapply wp_mono; [by apply (stays_set_dst CM2_STATE_TRY_RESOLVE)|]. by intros ? [].
Qed.
Lemma pres_on_state up v : pres (on_state update_state up v).
Proof using Hupd Hthr.
  intros w Hw. unfold on_state. apply wp_gets. cbv zeta.
  assert (forall s (m : M bool), state (w_g w) = s -> from (at_state s) m ->
    wp (eq FFuel) ((m ≫= (fun b => mret (b, v))) w) (fun aw => inv aw.2)) as Hgo.
  { intros s m Es Hm. apply (from_bind (at_state s)); [done|intros b; pres|done|done]. }
  destruct (state (w_g w)) eqn:Es.
  - by apply (Hgo CM2_STATE_INIT), from_pres, pres_init.
  - by apply (Hgo CM2_STATE_LINK_SEL), from_link_sel.
  - apply (from_bind (at_state CM2_STATE_WAN_IP)); [apply from_wan_ip|intros b; pres|done|done].
  - by apply (Hgo CM2_STATE_NTP_CHECK), from_ntp_check.
  - by apply (Hgo CM2_STATE_OVS_INIT), from_ovs_init.
  - by apply (Hgo CM2_STATE_TRY_RESOLVE), from_try_resolve.
  - by apply (Hgo CM2_STATE_RE_CONNECT), from_re_connect.
  - by apply (Hgo CM2_STATE_TRY_CONNECT), from_try_connect.
  - by apply (Hgo CM2_STATE_FAST_RECONNECT), from_fast_reconnect.
  - by apply (Hgo CM2_STATE_FAST_RECONNECT_WAIT), from_fast_reconnect_wait.
  - by apply (Hgo CM2_STATE_CONNECTED), from_connected.
  - by apply (Hgo CM2_STATE_INTERNET), from_pres, pres_init.
  - by apply (Hgo CM2_STATE_QUIESCE_OVS), from_quiesce.
Qed.
Lemma pres_unhandled : pres (unhandled_timeout update_state).
Proof using Hupd. unfold unhandled_timeout. pres. Qed.
Lemma pres_update_once r v : pres (update_once update_state r v).
Proof using Hupd Hthr.
  unfold update_once, cm2_log_state. apply pres_bind; [pres|]. intros _. apply pres_bind; [pres|]. intros g. cbv zeta.
  destruct (_ || _); [pres|]. apply pres_bind; [apply pres_on_reason|]. intros _. apply pres_bind; [apply pres_on_addresses|].
  intros _. apply pres_bind; [apply pres_on_state|]. intros [[|] v']; [pres|].
  apply pres_bind; [apply pres_unhandled|]. intros _. pres.
Qed.
End Machine.

(** ** Runs *)
Section Runs.
Context {R : Type} `{Cm2Env} `{Cm2Cfg} `{!Resolver R} `{!ResolverSpec R}.
Notation M := (M R).

Lemma pres_update_loop n r v : CLOUD_FATAL_THRESHOLD = 0 -> pres (R := R) (update_loop n r v).
Proof.
  intros Hthr. revert r v. induction n as [|n IH]; intros r v; [by intros w Hw|]. cbn [update_loop].
  apply pres_bind; [by apply pres_update_once|]. intros [[|] v']; [apply IH|pres].
Qed.

(** What the event loop calls: the timer, the callbacks of the tables [AWLAN_Node] and
    [Manager], the ends of the children that check an uplink, the timers of the checks and of
    the uplinks, the callbacks of the resolver, and those of the other tables, which change
    [g_state] outside what the machine looks at and then call [cm2_update_state]. *)
Inductive event :=
| EvTimer
| EvAwlan (u : awlan_update)
| EvManager (u : option (bool * option string))
| EvChild (k : nat) (st : option Z)
| EvStability
| EvLinks
| EvResolver (m : M ())
| EvTables (f : cm2_state_t R -> cm2_state_t R) (r : cm2_reason_e).
Definition handle (n : nat) (e : event) : M () :=
  match e with
  | EvTimer => cm2_event_cb n
  | EvAwlan u => callback_AWLAN_Node n u
  | EvManager u => callback_Manager n u
  | EvChild k st => cm2_util_req_stability_cb n k st
  | EvStability => cm2_stability_cb
  | EvLinks => cm2_update_links_cb n
  | EvResolver m => m
  | EvTables f r => _ ← modify f; cm2_update_state n r
  end.
Fixpoint run_events (n : nat) (es : list event) : M () :=
  match es with [] => mret () | e :: es => _ ← handle n e; run_events n es end.

(** The cloud's addresses are not just colons, its two backoff bounds differ. *)
Definition awlan_ok (u : awlan_update) : Prop :=
  (forall a, aw_manager_addr u = Some a -> uri_ok a) /\ (forall a, aw_redirector_addr u = Some a -> uri_ok a) /\
  (forall lo hi, aw_backoff u = Some (lo, hi) -> u32 (hi - lo) <> 0).
Definition event_ok (e : event) : Prop :=
  match e with
  | EvAwlan u => awlan_ok u
  | EvResolver m => pres m
  | EvTables f _ => forall g, key (f g) = key g
  | _ => True
  end.

Lemma pres_new_addr d a : uri_ok a -> pres (v ← cm2_set_addr d a; modify (upd_addr d (set updated v))).
Proof. intros Ha. apply pres_bind; [by apply pres_set_addr|]. intros v. apply pres_updated. Qed.
Lemma pres_awlan n u : CLOUD_FATAL_THRESHOLD = 0 -> awlan_ok u -> pres (R := R) (callback_AWLAN_Node n u).
Proof.
  intros Hthr (Hm & Hr & Hb). unfold callback_AWLAN_Node. apply pres_bind; [pres|]. intros _.
  apply pres_bind; [destruct (aw_manager_addr u) as [a|]; [exact (pres_new_addr CM2_DEST_MANAGER a (Hm a eq_refl))|pres]|]. intros _.
  apply pres_bind; [destruct (aw_redirector_addr u) as [a|]; [exact (pres_new_addr CM2_DEST_REDIR a (Hr a eq_refl))|pres]|]. intros _.
  apply pres_bind; [pres|]. intros _. apply pres_bind; [|intros _; by apply pres_update_loop].
  destruct (aw_backoff u) as [[lo hi]|]; [|pres]. intros w [[Hri Hl Hbk] Hlog].
  split; [|done]. split; [done|done|]. exact (Hb lo hi eq_refl).
Qed.
Lemma pres_manager n u : CLOUD_FATAL_THRESHOLD = 0 -> pres (R := R) (callback_Manager n u).
Proof.
  intros Hthr. unfold callback_Manager. apply pres_bind; [|intros _; by apply pres_update_loop].
  assert (forall f : cm2_state_t R -> cm2_state_t R,
    (forall g, state (f g) = state g /\ state_changed (f g) = state_changed g /\ dest (f g) = dest g /\ addr_redirector (f g) = addr_redirector g /\
      addr_manager (f g) = addr_manager g /\ max_backoff (f g) = max_backoff g /\ min_backoff (f g) = min_backoff g) -> pres (modify f)) as Hf.
  { intros f Hf w [[Hr Hl Hb] Hlog]. split; [|done]. destruct (Hf (w_g w)) as (E1 & E2 & E3 & E4 & E5 & E6 & E7).
    split; unfold cm2_curr_addr, cm2_get_addr in *; cbn [snd w_g upd]; rewrite ?E1, ?E2, ?E3, ?E4, ?E5, ?E6, ?E7; done. }
  destruct u as [[c t]|]; [|by apply Hf]. apply pres_bind; [by apply Hf|]. intros _. destruct t; [by apply Hf|pres].
Qed.

Lemma keeps_check_uplink i up : keeps (R := R) (cm2_check_uplink_state i up).
Proof. unfold cm2_check_uplink_state. keeps. Qed.
Lemma pres_child n k st : CLOUD_FATAL_THRESHOLD = 0 -> pres (R := R) (cm2_util_req_stability_cb n k st).
Proof.
  intros Hthr. unfold cm2_util_req_stability_cb. apply pres_bind; [pres|]. intros cs. destruct (cs !! k) as [c|]; [|pres].
  apply pres_bind; [pres|]. intros _. destruct (cm2_util_mask2cstate _) as [ok chk].
  apply pres_bind; [apply pres_keeps, keeps_check_uplink|]. intros current.
  apply pres_bind; [apply pres_process; intros r; by apply pres_update_loop|]. intros _. pres.
Qed.
Lemma keeps_uplinks o us : keeps (R := R) (check_uplinks o us).
Proof. induction us as [|u us IH]; cbn [check_uplinks]; keeps. Qed.
Lemma pres_stability : pres (R := R) cm2_stability_cb.
Proof. apply pres_keeps. unfold cm2_stability_cb, cm2_connection_stability_check. pose proof keeps_uplinks. keeps. Qed.

Lemma run_events_safe n es w : CLOUD_FATAL_THRESHOLD = 0 -> inv w -> Forall event_ok es ->
  wp (eq FFuel) (run_events n es w) (fun aw => inv aw.2).
Proof.
  intros Hthr Hw Hes. revert w Hw. induction Hes as [|e es He _ IH]; intros w Hw; [done|]. cbn [run_events].
  apply (pres_bind (handle n e) (fun _ => run_events n es)); [|intros _ w'; apply IH|done].
  destruct e as [|u|u|k st| | |m|f r]; cbn [handle event_ok] in *.
  - unfold cm2_event_cb. apply pres_bind; [pres|]. intros r. apply pres_bind; [pres|]. intros _. by apply pres_update_loop.
  - by apply pres_awlan.
  - by apply pres_manager.
  - by apply pres_child.
  - apply pres_stability.
  - unfold cm2_update_links_cb. apply pres_bind; [|intros _; pres]. apply pres_recalc. intros r. by apply pres_update_loop.
  - done.
  - apply pres_bind; [by apply pres_keeps, keeps_modify|]. intros _. by apply pres_update_loop.
Qed.
End Runs.
