(* ===== verification/Cm2ResolveSpec.v ===== *)
(** * Cm2ResolveSpec: the resolvers keep what the state machine needs

    Both resolvers of [Cm2Resolve] are instances of [ResolverSpec]: they leave the machine's
    fields alone and read their lists only inside.  The c-ares one relies on c-ares
    answering a successful query with at least one address. *)
From S2P Require Import Prelude CString Cm2State Cm2Resolve Cm2Link Cm2Event Cm2Inv.
Open Scope Z_scope.

Lemma curr_upd {R} (f : cm2_addr_t R -> cm2_addr_t R) g : cm2_curr_addr (upd_addr (dest g) f g) = f (cm2_curr_addr g).
Proof. by destruct g as [? ? []]. Qed.

(** ** A logic for a resolver's functions *)
Section Own.
Context {R : Type} (I : cm2_dest_e -> R -> Prop).
Notation M := (M R).
Definition all_ok (g : cm2_state_t R) : Prop := forall d, I d (a_res (cm2_get_addr d g)).
(** A function of the resolver: it keeps all but its fields, and those consistent. *)
Definition own {A} (m : M A) : Prop :=
  forall w, all_ok (w_g w) -> wp none (m w) (fun aw => frame w aw.2 /\ all_ok (w_g aw.2)).

Lemma own_ret {A} (a : A) : own (mret a).
Proof. intros w Hw. split; [apply frame_refl|done]. Qed.
Lemma own_bind {A B} (m : M A) (k : A -> M B) : own m -> (forall a, own (k a)) -> own (m ≫= k).
Proof.
  intros Hm Hk w Hw. unfold mbind, M_bind. apply wp_bind. eapply wp_mono; [by apply Hm|].
  intros [a w1] [F1 H1]. eapply wp_mono; [by apply Hk|]. intros [b w2] [F2 H2]. split; [by eapply frame_trans|done].
Qed.
Lemma own_gets {A} (f : cm2_state_t R -> A) : own (gets f).
Proof. intros w Hw. split; [apply frame_refl|done]. Qed.
(** The value read satisfies what holds of all values read from consistent states. *)
Lemma own_gets_with {A B} (f : cm2_state_t R -> A) (P : A -> Prop) (k : A -> M B) :
  (forall g, all_ok g -> P (f g)) -> (forall a, P a -> own (k a)) -> own (gets f ≫= k).
Proof. intros HP Hk w Hw. apply wp_gets. by apply Hk; [apply HP|]. Qed.
Lemma own_call {A} a (f : nat -> A) : quiet a -> own (call a f).
Proof. intros Ha w Hw. split; [|done]. repeat split. by apply log_ext_cons. Qed.
Lemma own_when b (m : M ()) : own m -> own (when b m).
Proof. intros Hm. destruct b; [done|apply own_ret]. Qed.
Lemma own_modify f : (forall g, core (f g) = core g) -> (forall g, all_ok g -> all_ok (f g)) -> own (modify f).
Proof. intros Hc Hf w Hw. split; [|by apply Hf]. split; [apply Hc|]. repeat split. apply log_ext_refl. Qed.
(** Updates that touch no list. *)
Lemma own_modify_flags f :
  (forall g, core (f g) = core g) -> (forall g d, a_res (cm2_get_addr d (f g)) = a_res (cm2_get_addr d g)) -> own (modify f).
Proof. intros Hc Hf. apply own_modify; [done|]. intros g Hg d. rewrite Hf. apply Hg. Qed.
(** Updates of one address. *)
Lemma own_addr d (f : cm2_addr_t R -> cm2_addr_t R) :
  (forall a, strip (f a) = strip a) -> (forall a, I d (a_res a) -> I d (a_res (f a))) -> own (modify (upd_addr d f)).
Proof.
  intros Hs Hf. apply own_modify; intros g.
  - destruct d; unfold core; cbn; by rewrite Hs.
  - intros Hg d'. specialize (Hg d'). destruct d, d'; cbn in *; auto.
Qed.
Lemma own_lift {A B} (m : res A) (P : A -> Prop) (k : A -> M B) :
  wp none m P -> (forall a, P a -> own (k a)) -> own (lift m ≫= k).
Proof.
  intros Hm Hk w Hw. unfold mbind, M_bind, lift. apply wp_bind, wp_bind. eapply wp_mono; [exact Hm|].
  intros a Ha. by apply Hk.
Qed.
End Own.
Ltac own_step :=
  match goal with
  | |- own _ (mbind _ _) => apply own_bind; [|intros ?]
  | |- own _ (when _ _) => apply own_when
  | |- own _ (call _ _) => apply own_call; exact I
  | |- own _ (call_ _) => apply own_call; exact I
  | |- own _ (mret _) => apply own_ret
  | |- own _ (gets _) => apply own_gets
  | |- own _ (if ?b then _ else _) => destruct b
  | |- own _ (match ?x with _ => _ end) => destruct x
  end.

(** ** [getaddrinfo] *)
Module SyncSpec.
Import Sync.
Section SyncSpec.
Context `{Cm2Env}.

Definition curr_ok (a : ai) : Prop := match ai_curr a with Some i => (i < length (ai_list a))%nat | None => True end.
Notation sync_inv := (fun _ : cm2_dest_e => curr_ok).
Notation own := (own sync_inv).

Lemma next_known_lt l n i : next_known l n = Some i -> (n <= i < n + length l)%nat.
Proof.
  revert n. induction l as [|[f b] l IH]; intros n; cbn [next_known length]; [done|].
  case_bool_decide; [|intros [= <-]; lia]. intros Hi. apply IH in Hi. lia.
Qed.
Lemma get_next_lt a i : get_next_addrinfo a = Some i -> (i < length (ai_list a))%nat.
Proof. unfold get_next_addrinfo. intros Hi. apply next_known_lt in Hi. rewrite length_drop in Hi. lia. Qed.

Lemma own_sync_resolve d : own (sync_resolve d).
Proof.
  unfold sync_resolve. apply own_bind; [by apply own_addr|]. intros _. apply own_bind; [apply own_gets|]. intros a.
  destruct (negb (valid a)); [apply own_ret|]. eapply (own_lift _ _ curr_ok); [done|]. intros r Hr.
  apply own_bind; [by apply own_addr|]. intros _. apply own_bind; [by apply own_call|]. intros [l|]; [|apply own_ret].
  apply own_bind; [by apply own_addr|]. intros _. destruct (existsb usable l); [|apply own_ret].
  apply own_bind; [by apply own_addr|]. intros _. apply own_ret.
Qed.

(** Writing entry [i] of the current list. *)
Definition in_list (i : option nat) (w : world ai) : Prop :=
  forall n, i = Some n -> (n < length (ai_list (a_res (cm2_curr_addr (w_g w)))))%nat.
Lemma wp_sync_write i w : all_ok sync_inv (w_g w) -> in_list i w ->
  wp none (sync_write_target_addr i w) (fun aw => frame w aw.2 /\ all_ok sync_inv (w_g aw.2)).
Proof.
  intros Hw Hi. unfold sync_write_target_addr. apply wp_gets, wp_gets. destruct i as [n|]; [|split; [apply frame_refl|done]].
  specialize (Hi n eq_refl). destruct (lookup_lt_is_Some_2 _ _ Hi) as [x Ex].
  apply wp_M_bind. unfold lift. rewrite Ex. cbn [deref mbind res_bind wp fst snd].
  set (d := dest (w_g w)).
  assert (forall t, wp none ((ret ← cm2_ovsdb_set_Manager_target t;
    _ ← when ret (modify (upd_addr d (upd a_res (set ai_curr (Some n))))); mret ret) w) (fun aw => frame w aw.2 /\ all_ok sync_inv (w_g aw.2))) as Hgo.
  { intros t. unfold cm2_ovsdb_set_Manager_target. apply wp_call. set (w1 := upd w_log _ _).
    assert (frame w w1) as F1 by (repeat split; by apply log_ext_cons).
    destruct (env_bool (w_tick w)); cbn [when]; [|by split]. apply wp_modify. cbn [wp mret M_ret fst snd]. split.
    - eapply frame_trans; [exact F1|]. split; [by destruct d|]. repeat split. apply log_ext_refl.
    - intros d'. specialize (Hw d'). unfold cm2_curr_addr in Hi. change (dest (w_g w)) with d in Hi.
      destruct d, d'; cbn in *; try exact Hw; exact Hi. }
  destruct (x.1).
  - destruct (env_ntop AF_INET x.2); [apply Hgo|split; [apply frame_refl|done]].
  - destruct (env_ntop AF_INET6 x.2); [apply Hgo|split; [apply frame_refl|done]].
  - split; [apply frame_refl|done].
Qed.
(** [cm2_get_next_addrinfo]: the entry it returns is in the list. *)
Lemma wp_sync_next w : all_ok sync_inv (w_g w) ->
  wp none (next_addrinfo w) (fun aw => frame w aw.2 /\ all_ok sync_inv (w_g aw.2) /\ in_list aw.1 aw.2).
Proof.
  intros Hw. unfold next_addrinfo. apply wp_gets, wp_gets.
  destruct (get_next_addrinfo (a_res (cm2_curr_addr (w_g w)))) as [i|] eqn:E; [|split; [apply frame_refl|done]].
  apply get_next_lt in E. apply wp_modify. cbn [wp mret M_ret fst snd].
  split; [|split; [intros d'; specialize (Hw d')|intros n [= <-]]].
  - split; [by destruct (dest (w_g w))|]. repeat split. apply log_ext_refl.
  - unfold cm2_curr_addr in E. destruct (dest (w_g w)), d'; cbn in *; try exact Hw; exact E.
  - cbn [w_g upd]. by rewrite curr_upd.
Qed.
Lemma wp_then {A B} (I : cm2_dest_e -> ai -> Prop) (m : M ai A) (k : A -> M ai B) (P : A -> world ai -> Prop) w :
  wp none (m w) (fun aw => frame w aw.2 /\ all_ok I (w_g aw.2) /\ P aw.1 aw.2) ->
  (forall a w', all_ok I (w_g w') -> P a w' -> wp none (k a w') (fun aw => frame w' aw.2 /\ all_ok I (w_g aw.2))) ->
  wp none ((m ≫= k) w) (fun aw => frame w aw.2 /\ all_ok I (w_g aw.2)).
Proof.
  intros Hm Hk. apply wp_M_bind. eapply wp_mono; [exact Hm|]. intros [a w'] (F & Hw' & HP). cbn [fst snd] in *.
  eapply wp_mono; [by apply Hk|]. intros [b w2] [F2 H2]. split; [by eapply frame_trans|done].
Qed.
Lemma own_sync_next : own sync_write_next_target_addr.
Proof. intros w Hw. apply (wp_then _ _ _ in_list); [by apply wp_sync_next|]. intros i w' Hw' Hi. by apply wp_sync_write. Qed.
Lemma own_sync_current : own sync_write_current_target_addr.
Proof.
  intros w Hw. unfold sync_write_current_target_addr. apply wp_gets.
  destruct (ai_curr (a_res (cm2_curr_addr (w_g w)))) as [i|] eqn:E.
  - apply wp_M_bind. cbn [wp mret M_ret fst snd]. apply wp_sync_write; [done|]. intros n [= <-].
    specialize (Hw (dest (w_g w))). unfold curr_ok in Hw. change (cm2_get_addr _ _) with (cm2_curr_addr (w_g w)) in Hw.
    by rewrite E in Hw.
  - apply (wp_then _ _ _ in_list); [by apply wp_sync_next|]. intros i w' Hw' Hi. by apply wp_sync_write.
Qed.

#[export] Program Instance sync_spec : ResolverSpec ai := { r_inv := curr_ok; r_offered := fun _ => True }.
Next Obligation. done. Qed.
Next Obligation. done. Qed.
Next Obligation. intros d w Hw. by apply own_sync_resolve. Qed.
Next Obligation. intros w Hw. split; [apply frame_refl|done]. Qed.
Next Obligation. intros w Hw. eapply wp_mono; [by apply own_sync_current|]. naive_solver. Qed.
Next Obligation. intros w Hw _. eapply wp_mono; [by apply own_sync_next|]. naive_solver. Qed.
Next Obligation. intros w Hw _. split; [apply frame_refl|done]. Qed.
End SyncSpec.
End SyncSpec.

(** ** c-ares *)
Module AresSpec.
Import Ares.

(** What c-ares documents of a successful query: there is an address (no data is an
    error of its own), and they can be counted. *)
Definition addrs_ok (h : hostent) : Prop := h_addrs h <> [] /\ Z.of_nat (length (h_addrs h)) < 2 ^ 31 - 1.
Class AresAnswers `{Cm2Env} := ares_answers n h : env_ares n = Some (ARES_SUCCESS, h) -> addrs_ok h.

Definition list_ok (l : cm2_addr_list) : Prop :=
  match h_addr_list l with
  | None => True
  | Some a => a <> [] /\ 0 <= h_cur_idx l <= Z.of_nat (length a) /\ Z.of_nat (length a) < 2 ^ 31 - 1
  end.
Definition ares_inv (r : ares) : Prop := list_ok (ipv6_addr_list r) /\ list_ok (ipv4_addr_list r).
(** The list of the preferred family has an address left. *)
Definition list_left (l : cm2_addr_list) : Prop :=
  match h_addr_list l with None => True | Some a => h_cur_idx l < Z.of_nat (length a) end.
#[export] Instance list_left_dec l : Decision (list_left l).
Proof. unfold list_left. destruct (h_addr_list l); apply _. Defined.
Definition ares_offered (r : ares) : Prop := list_left (get_list (ipv6_pref r) r).

Section AresSpec.
Context `{AresAnswers}.
Notation all_ok := (all_ok (fun _ => ares_inv)).
Notation own := (own (fun _ => ares_inv)).

(** The changes a callback makes to a list keep [I]. *)
Definition answers_keep (I : cm2_dest_e -> ares -> Prop) : Prop :=
  (forall d v6 s r, I d r -> I d (upd_list v6 (set al_state s) r)) /\
  (forall d v6 h r, addrs_ok h -> I d r -> I d (upd_list v6 (fun l =>
     mk_list (Some (h_addrs h)) (Z.of_nat (length (h_addrs h))) (h_addrtype_ h) 0 CM2_ARES_R_RESOLVED (req_addr_type l)) r)).
Lemma own_retry (I : cm2_dest_e -> ares -> Prop) (f : cm2_main_link_t -> cm2_main_link_t) :
  (forall k, upd ipv4 (set resolve_retry false) (upd ipv6 (set resolve_retry false) (f k)) =
             upd ipv4 (set resolve_retry false) (upd ipv6 (set resolve_retry false) k)) -> Cm2ResolveSpec.own I (modify (upd link f)).
Proof. intros Hf. apply own_modify_flags; [|by intros g []]. intros g. unfold core. change (link (upd link f g)) with (f (link g)). by rewrite Hf. Qed.
Lemma own_cb_gen (I : cm2_dest_e -> ares -> Prop) d v6 st h : answers_keep I -> (st = ARES_SUCCESS -> addrs_ok h) -> Cm2ResolveSpec.own I (cm2_ares_host_cb d v6 st h).
Proof.
  intros [Hs Hl] Hh. unfold cm2_ares_host_cb, on_ares_list. apply own_bind; [apply own_gets|]. intros l.
  apply own_bind; [apply own_addr; [done|]; intros a; apply (Hs d)|]. intros _. destruct st; try apply own_ret.
  - case_bool_decide; [|apply own_ret]. apply own_addr; [done|]. intros a. by apply (Hl d), Hh.
  - case_bool_decide; by apply own_retry.
  - case_bool_decide; by apply own_retry.
  - case_bool_decide; by apply own_retry.
Qed.
Lemma answers_keep_inv : answers_keep (fun _ => ares_inv).
Proof.
  split.
  - intros _ v6 s r [H6 H4]. by destruct v6.
  - intros _ v6 h r [Hne Hlen] [H6 H4]. destruct v6; split; try done; unfold list_ok; cbn; (split; [done|lia]).
Qed.
(** An answer leaves an address to try, where there was one. *)
Lemma answers_keep_offered c : answers_keep (fun d r => ares_inv r /\ (d = c -> ares_offered r)).
Proof.
  destruct answers_keep_inv as [Hs Hl]. split.
  - intros d v6 s r [Hi Ho]. split; [by apply (Hs d)|]. intros Hd. specialize (Ho Hd). revert Ho. clear.
    unfold ares_offered. destruct v6, r as [l6 l4 []]; done.
  - intros d v6 h r Hh [Hi Ho]. split; [by apply (Hl d)|]. intros Hd. specialize (Ho Hd). destruct Hh as [Hne _]. revert Ho.
    assert (0 < Z.of_nat (length (h_addrs h))) by (destruct (h_addrs h); [done|cbn; lia]).
    unfold ares_offered. destruct v6, r as [l6 l4 []]; done.
Qed.
Lemma own_cb d v6 st h : (st = ARES_SUCCESS -> addrs_ok h) -> own (cm2_ares_host_cb d v6 st h).
Proof. apply own_cb_gen, answers_keep_inv. Qed.
Lemma own_query d v6 : own (start_query d v6).
Proof.
  unfold start_query. apply own_bind; [by apply own_addr; [|intros a []; destruct v6]|]. intros _. apply own_bind; [apply own_gets|]. intros host.
  unfold ares_gethostbyname. intros w Hw. apply wp_call. set (w1 := upd w_log _ _).
  assert (frame w w1) as F1 by (repeat split; by apply log_ext_cons).
  destruct (env_ares (w_tick w)) as [[st h]|] eqn:E; [|by split].
  eapply wp_mono; [apply own_cb; [|exact Hw]|].
  - intros ->. by eapply ares_answers.
  - intros [a w2] [F2 H2]. split; [by eapply frame_trans|done].
Qed.
Lemma free_list_ok l : list_ok l -> wp none (cm2_util_free_addr_list l) (fun l' => h_addr_list l' = None).
Proof.
  unfold list_ok, cm2_util_free_addr_list. destruct (h_addr_list l) as [a|] eqn:E; [|done].
  intros (Hne & _). by destruct a as [|b a].
Qed.
Lemma free_ok r : ares_inv r -> wp none (ares_free_addr_list r) (fun r' => ares_inv r' /\ ares_offered r').
Proof.
  intros [H6 H4]. unfold ares_free_addr_list. apply wp_bind. eapply wp_mono; [by apply free_list_ok|]. intros l6 E6.
  apply wp_bind. eapply wp_mono; [by apply free_list_ok|]. intros l4 E4.
  unfold ares_inv, ares_offered, list_ok, list_left. cbn. rewrite E6, E4. repeat split. by destruct (ipv6_pref r); cbn; rewrite ?E6, ?E4.
Qed.
Lemma own_ares_resolve d : own (ares_resolve d).
Proof.
  unfold ares_resolve. apply own_bind; [apply own_gets|]. intros k.
  eapply (own_gets_with _ _ ares_inv); [intros g Hg; apply Hg|]. intros r Hr. cbv zeta.
  assert (own clear_retry) as Hclear by (by apply own_retry).
  destruct (_ || _); [apply own_bind; [done|intros _; apply own_ret]|]. apply own_bind; [done|]. intros _.
  destruct (_ || _); [apply own_ret|]. apply own_bind; [by apply own_addr|]. intros _.
  apply own_bind; [apply own_gets|]. intros ok. destruct (negb ok); [apply own_ret|].
  apply own_bind.
  { unfold cm2_start_ares_resolve, evx_start_ares. repeat own_step. apply own_modify_flags; [done|by intros g []]. }
  intros ok'. destruct (negb ok'); [apply own_ret|].
  eapply (own_lift _ _ ares_inv); [eapply wp_mono; [by apply free_ok|]; by intros ? []|]. intros r' Hr'.
  apply own_bind; [by apply own_addr|]. intros _. apply own_bind; [apply own_gets|]. intros ch. destruct (negb ch); [apply own_ret|].
  repeat own_step; apply own_query.
Qed.
Lemma own_ares_timeout : own ares_resolve_timeout.
Proof.
  unfold ares_resolve_timeout, end_query. repeat own_step; try (by apply own_cb). apply own_modify_flags; [done|by intros g []].
Qed.

(** *** Choosing an address *)
Lemma i32_succ i : 0 <= i < 2 ^ 31 - 1 -> i32 (i + 1) = i + 1.
Proof. intros Hi. unfold i32. rewrite Z.mod_small; lia. Qed.
Lemma entry_in a i : 0 <= i <= Z.of_nat (length a) -> entry a i = Ok (a !! Z.to_nat i).
Proof. intros Hi. unfold entry. destruct (Z.leb_spec 0 i); [|lia]. destruct (Z.leb_spec i (Z.of_nat (length a))); [done|lia]. Qed.
(** An entry to write. *)
Definition has_entry (l : cm2_addr_list) : Prop := exists a b, h_addr_list l = Some a /\ 0 <= h_cur_idx l < Z.of_nat (length a) /\ a !! Z.to_nat (h_cur_idx l) = Some b.
Lemma validate_ok k l v6 : list_ok l -> wp none (cm2_validate_target_addr k l v6) (fun b => b = true -> has_entry l).
Proof.
  unfold list_ok, cm2_validate_target_addr, has_entry. intros Hl. destruct (_ || _); [done|].
  destruct (h_addr_list l) as [a|]; [|done]. destruct Hl as (_ & Hi & _). rewrite entry_in by done. cbn [mbind res_bind].
  destruct (a !! Z.to_nat (h_cur_idx l)) as [b|] eqn:E; [|done]. intros _. exists a, b. split; [done|]. split; [|done].
  apply lookup_lt_Some in E. lia.
Qed.
Lemma has_entry_left l : has_entry l -> list_left l.
Proof. intros (a & b & E & Hi & _). unfold list_left. rewrite E. lia. Qed.

Definition current (w : world ares) : ares := a_res (cm2_curr_addr (w_g w)).
Lemma wp_pick w : all_ok (w_g w) ->
  wp none (cm2_pick_next_addr w) (fun bw => frame w bw.2 /\ all_ok (w_g bw.2) /\
    (bw.1 = true -> has_entry (get_list (ipv6_pref (current bw.2)) (current bw.2)))).
Proof.
  intros Hw. unfold cm2_pick_next_addr. apply wp_gets, wp_gets, wp_gets. change (a_res (cm2_curr_addr (w_g w))) with (current w).
  pose proof (Hw (dest (w_g w)) : ares_inv (current w)) as [H6 H4]. apply wp_M_bind. unfold lift at 1. apply wp_bind.
  eapply wp_mono; [by apply validate_ok|]. intros v4 Hv4. cbn [wp fst snd].
  apply wp_M_bind. unfold lift at 1. apply wp_bind. eapply wp_mono; [by apply validate_ok|]. intros v6 Hv6. cbn [wp fst snd].
  destruct (negb v4 && negb v6) eqn:En; [split; [apply frame_refl|done]|].
  destruct (_ || _) eqn:Ep.
  { split; [apply frame_refl|]. split; [done|]. intros _. cbn [snd].
    destruct (ipv6_pref (current w)), v4, v6; try discriminate Ep; by first [apply Hv6 | apply Hv4]. }
  apply wp_modify. cbn [wp mret M_ret fst snd]. split; [|split].
  - split; [by destruct (dest (w_g w))|]. repeat split. apply log_ext_refl.
  - intros d'. specialize (Hw d'). destruct (dest (w_g w)), d'; exact Hw.
  - intros _. unfold current. cbn [w_g upd]. rewrite curr_upd. change (has_entry (get_list v6 (current w))).
    destruct v6; [by apply Hv6|]. destruct v4; [by apply Hv4|]. done.
Qed.
Lemma wp_ares_current w : all_ok (w_g w) ->
  wp none (ares_write_current_target_addr w) (fun bw => frame w bw.2 /\ all_ok (w_g bw.2) /\
    (bw.1 = true -> ares_offered (current bw.2))).
Proof.
  intros Hw. unfold ares_write_current_target_addr. apply wp_M_bind. eapply wp_mono; [by apply wp_pick|].
  intros [b w1] (F1 & H1 & He). cbn [fst snd] in *. destruct b; [|done]. specialize (He eq_refl).
  pose proof (has_entry_left _ He) as Hleft. destruct He as (a & e & Ea & Hi & Ee).
  unfold cm2_write_target_addr. apply wp_gets. cbv zeta. change (a_res (cm2_curr_addr (w_g w1))) with (current w1).
  apply wp_M_bind. unfold lift at 1. rewrite Ea. cbn [deref mbind res_bind wp fst snd].
  apply wp_M_bind. unfold lift at 1. rewrite entry_in by lia. cbn [mbind res_bind wp fst snd].
  apply wp_M_bind. unfold lift at 1. rewrite Ee. cbn [deref mbind res_bind wp fst snd].
  destruct (env_ntop _ e); [|by split; [|split]].
  apply wp_modify. cbn [wp fst snd cm2_ovsdb_set_Manager_target call]. split; [|split; [exact H1|by intros _]].
  eapply frame_trans; [exact F1|]. repeat split. by apply log_ext_cons.
Qed.
Lemma wp_ares_move w : all_ok (w_g w) -> ares_offered (current w) ->
  wp none (ares_move_next_target_addr w) (fun bw => frame w bw.2 /\ all_ok (w_g bw.2)).
Proof.
  intros Hw Ho. unfold ares_move_next_target_addr. apply wp_gets. cbn [wp modify snd]. split.
  - split; [by destruct (dest (w_g w))|]. repeat split. apply log_ext_refl.
  - assert (ares_inv (upd ipv6_pref negb (upd_list (ipv6_pref (current w)) (upd h_cur_idx (fun i => i32 (i + 1))) (current w)))) as Hc.
    { pose proof (Hw (dest (w_g w)) : ares_inv (current w)) as [H6 H4]. unfold ares_offered, list_left in Ho.
      destruct (ipv6_pref (current w)); split; try done; unfold list_ok in *; cbn in *.
      - destruct (h_addr_list (ipv6_addr_list (current w))); [|done]. rewrite i32_succ by lia. intuition lia.
      - destruct (h_addr_list (ipv4_addr_list (current w))); [|done]. rewrite i32_succ by lia. intuition lia. }
    intros d'. specialize (Hw d'). unfold current, cm2_curr_addr in Hc. destruct (dest (w_g w)), d'; first [exact Hc|exact Hw].
Qed.

#[export] Program Instance ares_spec : ResolverSpec ares := { r_inv := ares_inv; r_offered := ares_offered }.
Next Obligation. intros r Hr. by apply free_ok. Qed.
Next Obligation.
  intros d g. split; [by destruct d|]. split; [by destruct d|]. split; [by destruct d|].
  intros Hg d'. specialize (Hg d'). destruct d, d'; exact Hg.
Qed.
Next Obligation. intros d w Hw. by apply own_ares_resolve. Qed.
Next Obligation. intros w Hw. by apply own_ares_timeout. Qed.
Next Obligation. intros w Hw. by apply wp_ares_current. Qed.
Next Obligation.
  intros w Hw Ho. apply wp_M_bind. eapply wp_mono; [by apply wp_ares_move|]. intros [a w1] [F1 H1]. cbn [fst snd] in *.
  eapply wp_mono; [by apply wp_ares_current|]. intros [b w2] (F2 & H2 & Hb). split; [by eapply frame_trans|done].
Qed.
Next Obligation. intros w Hw Ho. by apply wp_ares_move. Qed.
End AresSpec.
End AresSpec.
