(* ===== verification/Cm2Term.v ===== *)
(** * Cm2Term: the state machine comes to rest

    [cm2_update_state] goes round as long as the state changes.  On a clock that stays within
    ten seconds of its start it does so finitely often: after the first round a measure
    of the pending addresses and of the state goes down each time.  This file has what
    that takes: which parts of a round leave the measure alone ([soft]), the measure,
    and the composition of parts into a round.  [Cm2Rest] goes through the states. *)
From S2P Require Import Prelude CString Cm2State Cm2Resolve Cm2Link Cm2Event Cm2Inv Cm2ResolveSpec.
Open Scope Z_scope.

(** Any fault but the bound of the model. *)
Notation nf := (fun f : fault => f <> FFuel).
Lemma none_nf {A} (m : res A) Q : wp none m Q -> wp nf m Q.
Proof. by destruct m. Qed.

(** ** What a resolver promises about the flags of the addresses *)
Class ResolverTerm `{Cm2Env} R `{!Resolver R} := {
  t_free r : wp nf (cm2_free_addr_list r) (fun _ => True);
  t_pref d g : let g' := cm2_set_ipv6_pref d g in
    core g' = core g /\ link g' = link g /\ forall d', updated (cm2_get_addr d' g') = updated (cm2_get_addr d' g);
  t_resolve d w : wp nf (cm2_resolve d w) (fun bw => let g := w_g w in let g' := w_g bw.2 in
    core g' = core g /\ (forall d', updated (cm2_get_addr d' g') = true -> updated (cm2_get_addr d' g) = true) /\
    (bw.1 = true -> updated (cm2_get_addr d g') = true -> retry_set g = true /\ retry_set g' = false));
  t_timeout w : wp nf (cm2_resolve_timeout w) (fun aw => core (w_g aw.2) = core (w_g w));
  t_current w : wp nf (cm2_write_current_target_addr w) (fun bw => let g := w_g w in let g' := w_g bw.2 in
    core g' = core g /\ link g' = link g /\ forall d', updated (cm2_get_addr d' g') = updated (cm2_get_addr d' g));
  t_next w : wp nf (cm2_write_next_target_addr w) (fun bw => let g := w_g w in let g' := w_g bw.2 in
    core g' = core g /\ link g' = link g /\ forall d', updated (cm2_get_addr d' g') = updated (cm2_get_addr d' g));
  t_move w : wp nf (cm2_move_next_target_addr w) (fun bw => let g := w_g w in let g' := w_g bw.2 in
    core g' = core g /\ link g' = link g /\ forall d', updated (cm2_get_addr d' g') = updated (cm2_get_addr d' g))
}.

(** ** Parts of a round that change no state *)
Section Soft.
Context {R : Type} (X : Prop) (T : Z).
Notation M := (M R).

(** What the measure looks at.  The clock starts at [T]; under [X] the link stays in use or out
    of use. *)
Definition flags (g : cm2_state_t R) :=
  (state g, state_changed g, connected g, dest g, (updated (addr_redirector g), valid (addr_redirector g)),
   (updated (addr_manager g), valid (addr_manager g))).
Definition used (g : cm2_state_t R) : bool := is_used (link g).
Definition pending_vtag (g : cm2_state_t R) : Prop := vt_state (vtag (link g)) = CM2_VTAG_PENDING.
Record soft_rel (g g' : cm2_state_t R) : Prop := {
  soft_flags : flags g' = flags g;
  soft_time : timestamp g' = timestamp g \/ T <= timestamp g' < T + 10;
  soft_used : used g = true -> used g' = true;
  soft_firm : X -> used g' = used g;
  soft_retry : retry_set g' = true -> retry_set g = true;
  soft_vtag : pending_vtag g' -> pending_vtag g
}.
Lemma soft_refl g : soft_rel g g.
Proof. by split; auto. Qed.
Lemma soft_trans g1 g2 g3 : soft_rel g1 g2 -> soft_rel g2 g3 -> soft_rel g1 g3.
Proof.
  intros [A1 B1 C1 F1 D1 E1] [A2 B2 C2 F2 D2 E2]. split; auto.
  - congruence.
  - destruct B2 as [B2|B2]; [|by right]. rewrite B2. exact B1.
  - intros HX. by rewrite F2, F1.
Qed.
Definition soft {A} (m : M A) : Prop :=
  forall w, ~ pending_vtag (w_g w) -> wp nf (m w) (fun aw => soft_rel (w_g w) (w_g aw.2)).

Lemma soft_ret {A} (a : A) : soft (mret a).
Proof. intros w _. apply soft_refl. Qed.
Lemma soft_bind {A B} (m : M A) (k : A -> M B) : soft m -> (forall a, soft (k a)) -> soft (m ≫= k).
Proof.
  intros Hm Hk w Hv. apply wp_M_bind. eapply wp_mono; [by apply Hm|]. intros [a w1] S1. cbn [fst snd] in *.
  eapply wp_mono; [apply Hk; intros Hp; by apply Hv, S1|]. intros [b w2] S2. by eapply soft_trans.
Qed.
Lemma soft_gets {A} (f : cm2_state_t R -> A) : soft (gets f).
Proof. intros w _. apply soft_refl. Qed.
Lemma soft_getw {A} (f : world R -> A) : soft (getw f).
Proof. intros w _. apply soft_refl. Qed.
Lemma soft_modw f : (forall w, w_g (f w) = w_g w) -> soft (modw f).
Proof. intros Hf w _. cbn. rewrite Hf. apply soft_refl. Qed.
Lemma soft_call {A} a (f : nat -> A) : soft (call a f).
Proof. intros w _. apply soft_refl. Qed.
Lemma soft_ret_bind {A B} (a : A) (k : A -> M B) : soft (k a) -> soft (mret a ≫= k).
Proof. intros Hk w. exact (Hk w). Qed.
Lemma soft_when b (m : M ()) : soft m -> soft (when b m).
Proof. intros Hm. destruct b; [done|apply soft_ret]. Qed.
Lemma wp_soft {A B} (m : M A) (k : A -> M B) w Q : soft m -> ~ pending_vtag (w_g w) ->
  (forall a w', soft_rel (w_g w) (w_g w') -> wp nf (k a w') Q) -> wp nf ((m ≫= k) w) Q.
Proof. intros Hm Hv Hk. apply wp_M_bind. eapply wp_mono; [by apply Hm|]. intros [a w'] S. by apply Hk. Qed.
Lemma soft_not_pending g g' : soft_rel g g' -> ~ pending_vtag g -> ~ pending_vtag g'.
Proof. intros S Hv Hp. by apply Hv, S. Qed.
(** Updates of what the measure does not look at. *)
Lemma soft_modify f :
  (forall g, (flags (f g), timestamp (f g), used (f g), retry_set (f g), vt_state (vtag (link (f g)))) =
             (flags g, timestamp g, used g, retry_set g, vt_state (vtag (link g)))) -> soft (modify f).
Proof.
  intros Hf w _. specialize (Hf (w_g w)). injection Hf as E1 E2 E3 E4 E5 E6 E7 E8 E9 E10 E11 E12. cbn [wp modify snd].
  split; unfold pending_vtag, flags; cbn [w_g upd]; try congruence. by left.
Qed.
End Soft.

Create HintDb soft.
Arguments soft_rel {R} X T g g'.
Arguments soft {R} X T {A} m.
Ltac soft_step :=
  match goal with
  | |- soft _ _ (mbind _ _) => apply soft_bind; [|intros ?]
  | |- soft _ _ (when _ _) => apply soft_when
  | |- soft _ _ (mret _) => apply soft_ret
  | |- soft _ _ (gets _) => apply soft_gets
  | |- soft _ _ (getw _) => apply soft_getw
  | |- soft _ _ (call _ _) => apply soft_call
  | |- soft _ _ (call_ _) => apply soft_call
  | |- soft _ _ time_monotonic => apply soft_call
  | |- soft _ _ (modify _) => apply soft_modify; intros ?; first [reflexivity | cbv beta; case_match; reflexivity]
  | |- soft _ _ (modw _) => apply soft_modw; reflexivity
  | |- soft _ _ _ => solve [auto with soft nocore]
  | |- soft _ _ (if ?b then _ else _) => destruct b
  | |- soft _ _ (match ?x with _ => _ end) => destruct x
  | |- soft _ _ (let _ := _ in _) => cbv zeta
  end.
Ltac soft := repeat soft_step.

Section SoftParts.
Context {R : Type} `{Cm2Env} `{Cm2Cfg} (X : Prop) (T : Z) (Hclock : forall n, T <= env_time n < T + 10).
Context (update_state : cm2_reason_e -> M R ()) (Hmac : lan_set_local_mac = false) (HX : ~ X).
Notation M := (M R).
Notation soft := (soft (R := R) X T).

Lemma soft_ip_state i : soft (cm2_ovsdb_CMU_get_ip_state i).
Proof. unfold cm2_ovsdb_CMU_get_ip_state. soft. Qed.
Lemma soft_inet u i : soft (cm2_util_get_ip_inet_state_cfg u i).
Proof. unfold cm2_util_get_ip_inet_state_cfg, cm2_util_set_local_ip_cfg. soft. Qed.
Hint Resolve soft_ip_state soft_inet : soft.
Lemma soft_main_ip : soft cm2_update_main_link_ip.
Proof. unfold cm2_update_main_link_ip. soft. Qed.
Lemma soft_refresh i : soft (cm2_ovsdb_refresh_dhcp i).
Proof. unfold cm2_ovsdb_refresh_dhcp, cm2_ovsdb_WIC_dhcp_renew. soft. Qed.
Lemma soft_iface i : soft (cm2_restart_iface i).
Proof. unfold cm2_restart_iface. soft. Qed.
Lemma soft_inherit a b : soft (cm2_ovsdb_inherit_ip_bridge_conf a b).
Proof. unfold cm2_ovsdb_inherit_ip_bridge_conf. soft. Qed.
Hint Resolve soft_main_ip soft_refresh soft_iface soft_inherit : soft.
Lemma soft_bridge_cfg br i b m l : soft (cm2_update_bridge_cfg update_state br i b m l).
Proof using Hmac.
  unfold cm2_update_bridge_cfg, cm2_bridge_manage_port. rewrite Hmac. cbn [andb]. do 4 (apply soft_bind; [soft|intros ?]).
  apply soft_ret_bind. do 2 (apply soft_bind; [soft|intros ?]). apply soft_ret_bind. apply soft_ret.
Qed.
Hint Resolve soft_bridge_cfg : soft.

(** [cm2_connection_clear_used] empties the link, or there was none in use. *)
Lemma clear_used w : ~ pending_vtag (w_g w) ->
  wp nf (cm2_connection_clear_used update_state w) (fun aw => let g' := w_g aw.2 in
    (used (w_g w) = false /\ g' = w_g w) \/
    (used (w_g w) = true /\ flags g' = flags (w_g w) /\ (timestamp g' = timestamp (w_g w) \/ T <= timestamp g' < T + 10) /\ link g' = zero_link)).
Proof using X Hmac.
  intros Hv. unfold cm2_connection_clear_used. apply wp_gets. change (is_used (link (w_g w))) with (used (w_g w)).
  destruct (used (w_g w)) eqn:Eu; cbn [negb]; [|left; done].
  apply (wp_soft X T); [soft|done|]. intros _ w1 S1. apply wp_gets.
  apply (wp_soft X T); [soft|by eapply soft_not_pending|]. intros _ w2 S2. pose proof (soft_trans _ _ _ _ _ S1 S2) as S12.
  apply wp_gets. unfold call_. apply wp_call. right. split; [done|]. split; [apply S12|]. split; [apply S12|done].
Qed.
(** Either nothing happens, or another link is in use. *)
Lemma soft_set_is_used u : soft (cm2_connection_set_is_used update_state u).
Proof using Hmac HX.
  unfold cm2_connection_set_is_used, cm2_util_switch_role. destruct (_ || _); [soft|]. apply soft_bind; [soft|]. intros k.
  destruct (_ && _ && _); [soft|]. apply soft_bind; [soft|]. intros _.
  intros w Hv. apply wp_M_bind. eapply wp_mono; [by apply clear_used|]. intros [a w1] Hc. cbn [fst snd] in *. apply wp_modify.
  set (w2 := upd w_g _ w1).
  assert (retry_set (w_g w2) = retry_set (w_g w1)) as Er by reflexivity.
  assert (vtag (link (w_g w2)) = vtag (link (w_g w1))) as Ev by reflexivity.
  assert (soft_rel X T (w_g w) (w_g w2)) as S2.
  { destruct Hc as [[Hu Hg]|(Hu & Hf & Ht & Hk)].
    - unfold w2. cbn [w_g upd]. rewrite Hg. split; auto; done.
    - split; [exact Hf|exact Ht|done|done| |].
      + rewrite Er. unfold retry_set. by rewrite Hk.
      + unfold pending_vtag. by rewrite Ev, Hk. }
  apply (wp_mono _ _ (fun aw => soft_rel X T (w_g w2) (w_g aw.2))); [|intros [b w3] S3; by eapply soft_trans].
  apply (soft_bind X T); [soft|intros _; soft|by eapply soft_not_pending].
Qed.
Hint Resolve soft_set_is_used : soft.
Lemma soft_recalc_rows b now rc us : soft (recalc_rows b now rc us).
Proof.
  revert rc. induction us as [|u us IH]; intros rc; cbn [recalc_rows]; [apply soft_ret|].
  apply soft_bind; [|intros rc'; apply IH]. unfold recalc_row, recalc_timer, cm2_util_set_default_block_ts. soft.
Qed.
Hint Resolve soft_recalc_rows : soft.
Lemma soft_recalc b : soft (cm2_ovsdb_recalc_links update_state b).
Proof using Hmac HX. unfold cm2_ovsdb_recalc_links. soft. Qed.
Lemma soft_vtag_check : soft (cm2_vtag_stability_check update_state).
Proof.
  intros w Hv. unfold cm2_vtag_stability_check. apply wp_gets. rewrite bool_decide_false by exact Hv. apply soft_refl.
Qed.
Lemma soft_reset_time : soft cm2_reset_time.
Proof using Hclock.
  intros w _. unfold cm2_reset_time, time_monotonic. apply wp_call. cbn [wp modify snd]. split; try done. right. apply Hclock.
Qed.
End SoftParts.
#[export] Hint Resolve soft_ip_state soft_inet soft_main_ip soft_refresh soft_iface soft_inherit soft_bridge_cfg soft_set_is_used
  soft_recalc soft_vtag_check soft_reset_time : soft.

Section SoftEvent.
Context {R : Type} `{Cm2Env} `{Cm2Cfg} `{!Resolver R} (X : Prop) (T : Z) (Hclock : forall n, T <= env_time n < T + 10).
Context (update_state : cm2_reason_e -> M R ()) (Hmac : lan_set_local_mac = false) (HX : ~ X).
Notation M := (M R).
Notation soft := (soft (R := R) X T).

Lemma soft_restart_time : soft cm2_get_restart_time.
Proof. unfold cm2_get_restart_time. soft. Qed.
Lemma soft_timeout : soft cm2_timeout.
Proof. unfold cm2_timeout, cm2_get_timeout, cm2_get_time. soft. Qed.
Lemma soft_gw_offline : soft cm2_enable_gw_offline.
Proof. unfold cm2_enable_gw_offline. soft. Qed.
Lemma soft_gw_offline_off : soft cm2_disable_gw_offline_state.
Proof. unfold cm2_disable_gw_offline_state. soft. Qed.
Lemma soft_dismiss : soft cm2_dismiss_skip_reconnect.
Proof. unfold cm2_dismiss_skip_reconnect. soft. Qed.
Lemma soft_ip_opts i t o : soft (cm2_util_set_ip_opts i t o).
Proof. unfold cm2_util_set_ip_opts. apply soft_bind; [soft|]. intros [[]|]; apply soft_ret. Qed.
Hint Resolve soft_restart_time soft_timeout soft_gw_offline soft_ip_opts : soft.
Lemma soft_check_recalc i t c o b r : soft (cm2_util_req_stability_check_recalc i t c o b r).
Proof. unfold cm2_util_req_stability_check_recalc, cm2_is_stability_check_pending. soft. Qed.
Hint Resolve soft_check_recalc : soft.
Lemma soft_req_async up o b r : soft (req_async up o b r).
Proof. unfold req_async, cm2_connection_req_stability_check_async. soft. Qed.
Lemma soft_cloud n : soft (cm2_unreachable_cloud_counter n).
Proof. unfold cm2_unreachable_cloud_counter. soft. Qed.
Lemma soft_updating c o s v x : soft (cm2_updating_ip c o s v x).
Proof. unfold cm2_updating_ip, set_ip_state, set_link_blocked. soft. Qed.
Hint Resolve soft_req_async soft_updating : soft.
Lemma soft_uplink_ip c o s : soft (cm2_util_update_uplink_ip_state c o s).
Proof. unfold cm2_util_update_uplink_ip_state. soft. Qed.
Lemma soft_restore o : soft (cm2_restore_connection o).
Proof. unfold cm2_restore_connection. soft. Qed.
Lemma soft_recheck up r : soft (recheck_link up r).
Proof. unfold recheck_link. soft. Qed.
Lemma soft_empty : soft set_target_empty.
Proof. unfold set_target_empty, cm2_ovsdb_set_Manager_target. soft. Qed.
Lemma soft_count f : soft (count_failure f).
Proof. unfold count_failure. soft. Qed.
Lemma soft_restart_managers : soft (cm2_trigger_restart_managers update_state).
Proof using Hclock Hmac HX. unfold cm2_trigger_restart_managers, skip_restart. soft. Qed.
Hint Resolve soft_restart_managers soft_uplink_ip soft_restore : soft.
Lemma soft_fatal n : soft (cm2_stability_handle_fatal_state update_state n).
Proof using Hclock Hmac HX. unfold cm2_stability_handle_fatal_state, cm2_reset_restart_time. soft. Qed.
Hint Resolve soft_fatal : soft.
Lemma soft_router i b c o s : soft (check_router update_state i b c o s).
Proof using Hclock Hmac HX. unfold check_router, uplink_event, tcpdump. soft. Qed.
Lemma soft_internet i c o s : soft (check_internet i c o s).
Proof. unfold check_internet, uplink_event. soft. Qed.
Lemma soft_broken i c : soft (broken_bridge update_state i c).
Proof using Hclock Hmac HX. unfold broken_bridge. soft. Qed.
Hint Resolve soft_router soft_internet soft_broken : soft.

(** A check succeeds only on a link in use, and leaves it so; without one nothing happens. *)
Lemma main_check_spec up o b w : ~ pending_vtag (w_g w) ->
  wp nf (main_check update_state up o b w) (fun bw => soft_rel X T (w_g w) (w_g bw.2) /\ used (w_g bw.2) = used (w_g w) /\
    (bw.1 = true -> used (w_g w) = true)).
Proof using Hclock Hmac HX.
  intros Hv. unfold main_check, cm2_connection_req_stability_check. apply wp_gets, wp_gets, wp_gets.
  (* the options are read from the database *)
  apply wp_M_bind. apply (wp_mono _ _ (fun aw => w_g aw.2 = w_g w)).
  { unfold cm2_util_set_ip_opts, cm2_ovsdb_CMU_get_ip_state. apply wp_M_bind, wp_call. cbn [wp mret M_ret fst snd].
    destruct (env_row (w_tick w)); done. }
  intros [o' w1] E1. cbn [fst snd] in *. unfold call_. apply wp_call, wp_call. set (w2 := upd w_log _ (upd w_tick S (upd w_log _ _))).
  assert (w_g w2 = w_g w) as E2 by exact E1. rewrite <- E2 in Hv |- *. clearbody w2.
  match goal with |- context [env_check ?n] => destruct (env_check n) as [ok cs] end.
  unfold cm2_connection_req_stability_process. apply wp_gets. change (is_used (link (w_g w2))) with (used (w_g w2)).
  destruct (used (w_g w2)) eqn:Eu; cbn [negb]; [|split; [apply soft_refl|done]].
  match goal with |- wp _ (?m w2) _ => set (body := m) end.
  assert (soft body) as Hs by (unfold body; soft).
  eapply wp_mono; [by apply Hs|]. intros [r w3] S3. cbn [fst snd] in *. split; [done|]. split; [by apply S3|done].
Qed.
End SoftEvent.
#[export] Hint Resolve soft_restart_time soft_timeout soft_gw_offline soft_gw_offline_off soft_dismiss soft_ip_opts
  soft_check_recalc soft_req_async soft_cloud soft_updating soft_uplink_ip soft_restore soft_recheck soft_empty soft_count
  soft_restart_managers soft_fatal : soft.

(** ** The measure *)
Section Measure.
Context {R : Type} `{Cm2Cfg}.
Notation G := (cm2_state_t R).

(** The uplink can be used, or there is no choice of uplinks. *)
Definition live (g : G) : bool := used g || negb wan_link_selection.
Definition rank_of (s : cm2_state_e) (l c : bool) : Z :=
  match s with
  | CM2_STATE_INIT | CM2_STATE_INTERNET => 31
  | CM2_STATE_LINK_SEL => if l then 20 else 9
  | CM2_STATE_WAN_IP => if l then 19 else 8
  | CM2_STATE_NTP_CHECK => 18
  | CM2_STATE_CONNECTED => if c then 0 else 17
  | CM2_STATE_QUIESCE_OVS => 16
  | CM2_STATE_FAST_RECONNECT => 15
  | CM2_STATE_FAST_RECONNECT_WAIT => 14
  | CM2_STATE_OVS_INIT => if l then 13 else 10
  | CM2_STATE_TRY_RESOLVE => 12
  | CM2_STATE_RE_CONNECT => 11
  | CM2_STATE_TRY_CONNECT => 10
  end.
Definition rank (g : G) : Z := rank_of (state g) (live g) (connected g).
(** A new address waits for the machine. *)
Definition new_redir (g : G) : bool := updated (addr_redirector g) && valid (addr_redirector g).
Definition new_manager (g : G) : bool := updated (addr_manager g) && valid (addr_manager g).
Definition measure (g : G) : Z :=
  256 * Z.b2z (new_redir g) + 128 * Z.b2z (new_manager g) + 64 * Z.b2z (new_manager g && retry_set g) + rank g.

Lemma rank_range g : 0 <= rank g < 32.
Proof. unfold rank, rank_of. destruct (state g), (live g), (connected g); lia. Qed.
Lemma measure_range g : 0 <= measure g < 512.
Proof. pose proof (rank_range g). unfold measure. destruct (new_redir g), (new_manager g), (retry_set g); cbn; lia. Qed.

(** No new address, and no retry for a waiting one. *)
Definition no_new (g g' : G) : Prop :=
  (new_redir g' = true -> new_redir g = true) /\ (new_manager g' = true -> new_manager g = true) /\
  (new_manager g' = true -> retry_set g' = true -> retry_set g = true).
Lemma no_new_refl g : no_new g g.
Proof. by repeat split. Qed.
Lemma no_new_trans g1 g2 g3 : no_new g1 g2 -> no_new g2 g3 -> no_new g1 g3.
Proof. intros (A1 & B1 & C1) (A2 & B2 & C2). repeat split; auto. Qed.
Lemma measure_rank g g' : no_new g g' -> rank g' < rank g -> measure g' < measure g.
Proof.
  intros (Ha & Hb & Hc) Hr. unfold measure.
  destruct (new_redir g'), (new_redir g); try (discriminate (Ha eq_refl));
  destruct (new_manager g') eqn:E', (new_manager g); try (discriminate (Hb eq_refl));
  destruct (retry_set g'), (retry_set g); try (discriminate (Hc eq_refl eq_refl)); cbn; lia.
Qed.
Lemma measure_redir g g' : new_redir g = true -> new_redir g' = false -> measure g' < measure g.
Proof.
  intros E E'. pose proof (rank_range g). pose proof (rank_range g'). unfold measure. rewrite E, E'.
  destruct (new_manager g'), (retry_set g'), (new_manager g), (retry_set g); cbn; lia.
Qed.
Lemma measure_manager g g' : (new_redir g' = true -> new_redir g = true) -> new_manager g = true ->
  new_manager g' = false \/ (retry_set g = true /\ retry_set g' = false) -> measure g' < measure g.
Proof.
  intros Ha E E'. pose proof (rank_range g). pose proof (rank_range g'). unfold measure. rewrite E.
  destruct (new_redir g'), (new_redir g); try (discriminate (Ha eq_refl));
  destruct E' as [->|[-> ->]]; destruct (new_manager g'), (retry_set g'), (retry_set g); cbn; lia.
Qed.
Lemma soft_no_new X T g g' : soft_rel X T g g' -> no_new g g'.
Proof.
  intros [Hf _ _ _ Hr _]. injection Hf as _ _ _ _ E1 E2 E3 E4. unfold no_new, new_redir, new_manager. rewrite E1, E2, E3, E4. auto.
Qed.
End Measure.

(** ** Rounds *)
Section Rounds.
Context {R : Type} `{Cm2Env} `{Cm2Cfg} `{!Resolver R} `{!ResolverTerm R}.
Context (T : Z) (Hclock : forall n, T <= env_time n < T + 10).
Context (update_state : cm2_reason_e -> M R ()) (Hmac : lan_set_local_mac = false).
Notation M := (M R).
Notation G := (cm2_state_t R).

(** What holds between rounds: a tag is not on trial, an address is new only if it is valid. *)
Definition good (g : G) : Prop := ~ pending_vtag g /\ forall d, updated (cm2_get_addr d g) = true -> valid (cm2_get_addr d g) = true.
Definition in_time (g : G) : Prop := T <= timestamp g < T + 10.
(** The part of a round between [g] and [g']. *)
Record part (g g' : G) : Prop := {
  part_good : good g';
  part_time : (state g' = state g /\ timestamp g' = timestamp g) \/ in_time g';
  part_connected : connected g' = connected g;
  part_no_new : no_new g g'
}.
Lemma part_trans g1 g2 g3 : part g1 g2 -> part g2 g3 -> part g1 g3.
Proof.
  intros [A1 B1 C1 D1] [A2 B2 C2 D2]. split; [done| |congruence|by eapply no_new_trans].
  destruct B2 as [[E1 E2]|]; [|by right]. destruct B1 as [[E3 E4]|B1]; [left; split; congruence|].
  right. unfold in_time in *. by rewrite E2.
Qed.
(** [soft_rel] without what it says of the use of the link. *)
Definition loose_rel (g g' : G) : Prop :=
  flags g' = flags g /\ (timestamp g' = timestamp g \/ in_time g') /\ (retry_set g' = true -> retry_set g = true) /\
  (pending_vtag g' -> pending_vtag g).
Lemma soft_loose X g g' : soft_rel X T g g' -> loose_rel g g'.
Proof. by intros [? ? _ _ ? ?]. Qed.
Lemma loose_trans g1 g2 g3 : loose_rel g1 g2 -> loose_rel g2 g3 -> loose_rel g1 g3.
Proof.
  intros (A1 & B1 & C1 & D1) (A2 & B2 & C2 & D2). repeat split; auto; [congruence|].
  destruct B2 as [B2|]; [|by right]. unfold in_time in *. rewrite B2. exact B1.
Qed.
Lemma loose_state g g' : loose_rel g g' -> state g' = state g.
Proof. intros (Hf & _). by injection Hf. Qed.
Lemma loose_in_time g g' : loose_rel g g' -> in_time g -> in_time g'.
Proof. intros (_ & [Ht|Ht] & _) Hi; [|done]. unfold in_time. by rewrite Ht. Qed.
Lemma loose_part g g' : good g -> loose_rel g g' -> part g g'.
Proof.
  intros [Hv Hu] (Hf & Ht & Hr & Hp). injection Hf as E1 E2 E3 E4 E5 E6 E7 E8. split; [split| |done|].
  - auto.
  - intros d. specialize (Hu d). destruct d; cbn [cm2_get_addr] in *; [by rewrite E5, E6|by rewrite E7, E8].
  - destruct Ht as [Ht|Ht]; [left; by split|by right].
  - unfold no_new, new_redir, new_manager. rewrite E5, E6, E7, E8. auto.
Qed.
Lemma soft_part X g g' : good g -> soft_rel X T g g' -> part g g'.
Proof. intros Hg S. apply loose_part; [done|]. by eapply soft_loose. Qed.

(** What [cm2_set_state] makes of [g] at time [t]. *)
Definition put (s : cm2_state_e) (t : Z) (g : G) : G :=
  if bool_decide (state g = s) then g else set state_changed true (set timestamp t (set state s g)).
Lemma set_state_put E ok s w Q : (forall t w', T <= t < T + 10 -> w_g w' = put s t (w_g w) -> Q ((), w')) -> wp E (cm2_set_state ok s w) Q.
Proof using Hclock.
  intros HQ. unfold cm2_set_state, put in *. apply wp_gets. case_bool_decide as Es; [apply (HQ T); [lia|done]|].
  apply wp_gets, wp_gets. unfold call_, cm2_reset_time, time_monotonic. apply wp_call, wp_modify. apply wp_M_bind, wp_call.
  cbn [wp modify fst snd]. eapply HQ; [apply Hclock|]. reflexivity.
Qed.
Lemma put_state s t g : state (put s t g) = s.
Proof. unfold put. by case_bool_decide. Qed.
Lemma put_part s t g : good g -> T <= t < T + 10 -> part g (put s t g).
Proof.
  intros [Hv Hu] Ht. unfold put. case_bool_decide; split; try done; try (by left); try (by split); try apply no_new_refl.
  by right.
Qed.

(** A change to a state of [S], between parts that change none. *)
Definition moves (X : Prop) (S : cm2_state_e -> Prop) (g g' : G) : Prop :=
  exists g1 s t, soft_rel X T g g1 /\ S s /\ T <= t < T + 10 /\ soft_rel X T (put s t g1) g'.
Lemma moves_part X S g g' : good g -> moves X S g g' -> part g g'.
Proof.
  intros Hg (g1 & s & t & S1 & _ & Ht & S2). pose proof (soft_part _ _ _ Hg S1) as P1.
  pose proof (put_part s t g1 (part_good _ _ P1) Ht) as P2. pose proof (soft_part _ _ _ (part_good _ _ P2) S2) as P3.
  eapply part_trans; [exact P1|]. by eapply part_trans.
Qed.
Lemma moves_state X (S : cm2_state_e -> Prop) g g' : moves X S g g' ->
  exists s, S s /\ state g' = s /\ connected g' = connected g /\ (X -> live g' = live g) /\ (used g = true -> used g' = true).
Proof.
  intros (g1 & s & t & S1 & HS & Ht & S2). exists s. split; [done|]. pose proof (put_state s t g1) as Es.
  destruct S1 as [F1 _ U1 K1 _ _], S2 as [F2 _ U2 K2 _ _]. injection F1 as A1 A2 A3 A4 A5 A6 A7 A8. injection F2 as B1 B2 B3 B4 B5 B6 B7 B8.
  assert (used (put s t g1) = used g1) as Eu by (unfold put; by case_bool_decide).
  assert (connected (put s t g1) = connected g1) as Ec by (unfold put; by case_bool_decide).
  split; [congruence|]. split; [congruence|]. split.
  - intros HX. unfold live. by rewrite K2, Eu, K1.
  - intros Hu. apply U2. rewrite Eu. by apply U1.
Qed.
Lemma moves_soft X S g g1 g2 : moves X S g g1 -> soft_rel X T g1 g2 -> moves X S g g2.
Proof. intros (h & s & t & S1 & HS & Ht & S2) S3. exists h, s, t. split; [done|]. split; [done|]. split; [done|]. by eapply soft_trans. Qed.

(** The end of a case of the switch. *)
Definition calm_state (g : G) : Prop := in_time g /\ state g <> CM2_STATE_QUIESCE_OVS.
Record ends (g g' : G) : Prop := {
  ends_part : part g g';
  ends_quiesce : state g' = CM2_STATE_QUIESCE_OVS -> state g = CM2_STATE_QUIESCE_OVS;
  ends_rank : calm_state g -> state g' = state g \/ rank g' < rank g;
  ends_used : used g = true -> rank g <= 18 -> used g' = true
}.
Definition round (g : G) (ret : bool) (g' : G) : Prop := ret = true \/ ends g g'.
Lemma soft_ends X g g' : good g -> soft_rel X T g g' -> ends g g'.
Proof.
  intros Hg S. pose proof (loose_state _ _ (soft_loose _ _ _ S)) as Es.
  split; [by eapply soft_part|congruence|by left|]. intros Hu _. by apply S.
Qed.
(** The states of [S] are of a lower rank. *)
Record ranked (S : cm2_state_e -> Prop) (g : G) : Prop := {
  ranked_quiet : forall s, S s -> s <> CM2_STATE_QUIESCE_OVS;
  ranked_less : forall s l, calm_state g -> S s -> s <> state g -> l = live g -> rank_of s l (connected g) < rank g
}.
Lemma moves_ends S g g' : good g -> moves (calm_state g) S g g' -> ranked S g -> ends g g'.
Proof.
  intros Hg Hm [Hq Hr]. destruct (moves_state _ _ _ _ Hm) as (s & HS & Es & Ec & El & Hu).
  split; [by eapply moves_part|intros Eq; destruct (Hq s HS); congruence| |auto]. intros Hc.
  destruct (decide (s = state g)) as [|Hne]; [left; congruence|]. right. unfold rank at 1. rewrite Es, Ec. apply Hr; auto.
Qed.

(** *** Time *)
Lemma timeout_spec w : wp none (cm2_timeout w) (fun bw => w_g bw.2 = w_g w /\
  (in_time (w_g w) -> state (w_g w) <> CM2_STATE_QUIESCE_OVS -> bw.1 = false)).
Proof using Hclock.
  unfold cm2_timeout, cm2_get_timeout, cm2_get_time. apply wp_M_bind. cbn [wp getw fst snd]. apply wp_M_bind.
  unfold time_monotonic. apply wp_call, wp_gets. cbn [wp mret M_ret fst snd]. split; [done|]. intros Ht Hq. cbn [w_g upd].
  pose proof (Hclock (w_tick w)) as Hc. unfold in_time in Ht.
  assert (i32 (env_time (w_tick w) - timestamp (w_g w)) = env_time (w_tick w) - timestamp (w_g w)) as -> by (unfold i32; rewrite Z.mod_small; lia).
  destruct (state (w_g w)); cbn; try done; try (apply Z.leb_gt; lia).
Qed.

(** *** Composition *)

(** Computations that leave no tag on trial and do not run out of fuel. *)
Definition calm {A} (m : M A) : Prop := forall w, ~ pending_vtag (w_g w) -> wp nf (m w) (fun aw => ~ pending_vtag (w_g aw.2)).
Lemma calm_ret {A} (a : A) : calm (mret a).
Proof. by intros w Hv. Qed.
Lemma calm_bind {A B} (m : M A) (k : A -> M B) : calm m -> (forall a, calm (k a)) -> calm (m ≫= k).
Proof. intros Hm Hk w Hv. apply wp_M_bind. eapply wp_mono; [by apply Hm|]. intros [a w'] Hv'. by apply Hk. Qed.
Lemma calm_soft {A} (m : M A) : soft False T m -> calm m.
Proof. intros Hm w Hv. eapply wp_mono; [by apply Hm|]. intros [a w'] S. by eapply soft_not_pending. Qed.
Lemma calm_set_state ok s : calm (cm2_set_state ok s).
Proof using Hclock. intros w Hv. apply set_state_put. intros t w' _ E. cbn [snd]. rewrite E. unfold put. by case_bool_decide. Qed.

(** From [g] on the computation has changed no state so far, or has changed it to one of [S]. *)
Definition before (g : G) (m : M bool) : Prop :=
  forall w, soft_rel (calm_state g) T g (w_g w) -> wp nf (m w) (fun rw => round g rw.1 (w_g rw.2)).
Definition after (S : cm2_state_e -> Prop) (g : G) (m : M bool) : Prop :=
  forall w, moves (calm_state g) S g (w_g w) -> wp nf (m w) (fun rw => round g rw.1 (w_g rw.2)).
Section Composition.
Context (g : G) (Hg : good g).
Lemma before_soft {A} (m : M A) k : soft (calm_state g) T m -> (forall a, before g (k a)) -> before g (m ≫= k).
Proof using Hg.
  intros Hm Hk w S. apply (wp_soft (calm_state g) T); [done|eapply soft_not_pending; [exact S|apply Hg]|].
  intros a w' S'. apply Hk. by eapply soft_trans.
Qed.
Lemma before_ret r : before g (mret r).
Proof using Hg. intros w S. destruct r; [by left|]. right. by eapply soft_ends. Qed.
Lemma before_assoc {A B} (m : M A) (k1 : A -> M B) k2 : before g (m ≫= fun a => k1 a ≫= k2) -> before g ((m ≫= k1) ≫= k2).
Proof. intros Hm w S. specialize (Hm w S). unfold mbind, M_bind in *. destruct (m w) as [[a w']|]; [exact Hm|done]. Qed.
Lemma before_return {A} (m : M A) : calm m -> before g (m ≫= fun _ => mret true).
Proof using Hg.
  intros Hm w S. apply wp_M_bind. eapply wp_mono; [apply Hm; eapply soft_not_pending; [exact S|apply Hg]|]. intros [a w'] _. by left.
Qed.
Lemma before_timeout (k : bool -> M bool) : (~ calm_state g -> before g (k true)) -> before g (k false) -> before g (cm2_timeout ≫= k).
Proof using Hclock.
  intros Ht Hf w S. apply wp_M_bind. eapply wp_mono; [apply none_nf, timeout_spec|]. intros [to w'] [E Hto]. cbn [fst snd] in *.
  rewrite <- E in S. destruct to; [|by apply Hf]. apply Ht; [|done]. intros [Hi Hq]. rewrite E in S. pose proof (soft_loose _ _ _ S) as L.
  discriminate Hto; [by eapply loose_in_time|]. by rewrite (loose_state _ _ L).
Qed.
Lemma before_set_state (S : cm2_state_e -> Prop) ok s k : S s -> after S g k -> before g (cm2_set_state ok s ≫= fun _ => k).
Proof using Hclock.
  intros HS Hk w Hw. apply wp_M_bind, set_state_put. intros t w' Ht E. apply Hk. exists (w_g w), s, t. rewrite <- E.
  split; [done|]. split; [done|]. split; [done|]. apply soft_refl.
Qed.
Lemma after_soft {A} S (m : M A) k : soft (calm_state g) T m -> (forall a, after S g (k a)) -> after S g (m ≫= k).
Proof using Hg.
  intros Hm Hk w Hw. apply (wp_soft (calm_state g) T); [done|apply (part_good _ _ (moves_part _ _ _ _ Hg Hw))|].
  intros a w' S'. apply Hk. by eapply moves_soft.
Qed.
Lemma after_ret S : ranked S g -> after S g (mret false).
Proof using Hg. intros Hr w Hw. right. by eapply moves_ends. Qed.
(** What is read is as it was. *)
Lemma before_gets {A} (f : G -> A) k : (forall h, soft_rel (calm_state g) T g h -> before g (k (f h))) -> before g (gets f ≫= k).
Proof. intros Hk w S. apply wp_gets. by apply (Hk (w_g w)). Qed.
Lemma before_ret_bind {A} (a : A) k : before g (k a) -> before g (mret a ≫= k).
Proof. intros Hk w. exact (Hk w). Qed.

Definition ovs_next (c : bool) (s : cm2_state_e) : Prop :=
  s = CM2_STATE_OVS_INIT \/ s = CM2_STATE_FAST_RECONNECT \/ (c = true /\ s = CM2_STATE_CONNECTED).
Lemma before_ovs_connect k : after (ovs_next (connected g)) g k -> before g (cm2_ovs_connect ≫= fun _ => k).
Proof using Hg Hclock.
  intros Hk. unfold cm2_ovs_connect. apply before_assoc, before_gets. intros h S. destruct S as [Hf _ _ _ _ _]. injection Hf as _ _ Ec _ _ _ _ _.
  change (connected (id h)) with (connected h). rewrite Ec. apply before_assoc, before_soft; [soft|]. intros _.
  destruct (negb _); [apply (before_set_state (ovs_next (connected g))); [by left|done]|].
  destruct (connected g); [|apply (before_set_state (ovs_next false)); [by left|done]].
  destruct (skip_reconnect _); [apply (before_set_state (ovs_next true)); [by right; right|done]|].
  apply before_assoc, before_soft; [soft|]. intros _. apply (before_set_state (ovs_next true)); [by right; left|done].
Qed.
End Composition.

Lemma start_changed k w : (before (set state_changed false (w_g w)) (k (state_changed (w_g w)))) ->
  wp nf ((cm2_state_changed ≫= k) w) (fun rw => round (w_g w) rw.1 (w_g rw.2)).
Proof.
  intros Hk. unfold cm2_state_changed. apply wp_M_bind, wp_gets, wp_modify. cbn [wp mret M_ret fst snd].
  eapply wp_mono; [apply Hk, soft_refl|]. intros [r w'] [Hr|[[A B C D] E F I]]; [by left|]. right. by split; [split| | |].
Qed.
Lemma good_changed g : good g -> good (set state_changed false g).
Proof. intros [Hv Hu]. split; [done|]. intros d. specialize (Hu d). by destruct d. Qed.

(** Functions of the resolver that change neither the link nor the flags of the addresses. *)
Lemma core_flags (g g' : G) : core g' = core g ->
  (state g', state_changed g', connected g', dest g', timestamp g') = (state g, state_changed g, connected g, dest g, timestamp g) /\
  (forall d, valid (cm2_get_addr d g') = valid (cm2_get_addr d g)) /\
  is_used (link g') = is_used (link g) /\ vtag (link g') = vtag (link g).
Proof.
  intros E. pose proof (f_equal state E). pose proof (f_equal state_changed E). pose proof (f_equal connected E).
  pose proof (f_equal dest E). pose proof (f_equal timestamp E). pose proof (f_equal link E) as El.
  pose proof (f_equal is_used El). pose proof (f_equal vtag El).
  pose proof (f_equal (fun g => valid (addr_redirector g)) E). pose proof (f_equal (fun g => valid (addr_manager g)) E).
  split; [cbn in *; congruence|]. split; [intros []; done|]. done.
Qed.
Lemma soft_core {A} X (m : M A) :
  (forall w, wp nf (m w) (fun aw => core (w_g aw.2) = core (w_g w) /\ link (w_g aw.2) = link (w_g w) /\
     forall d', updated (cm2_get_addr d' (w_g aw.2)) = updated (cm2_get_addr d' (w_g w)))) -> soft X T m.
Proof.
  intros Hm w _. eapply wp_mono; [apply Hm|]. intros [a w'] (Ec & El & Eu). cbn [snd] in *.
  destruct (core_flags _ _ Ec) as (Ef & Ev & _ & _). injection Ef as E1 E2 E3 E4 E5.
  pose proof (Eu CM2_DEST_REDIR). pose proof (Eu CM2_DEST_MANAGER). pose proof (Ev CM2_DEST_REDIR). pose proof (Ev CM2_DEST_MANAGER).
  split; unfold used, retry_set, pending_vtag; rewrite ?El; try done; [|by left]. unfold flags, cm2_get_addr in *. congruence.
Qed.
Lemma soft_current X : soft X T cm2_write_current_target_addr.
Proof using ResolverTerm0. apply soft_core, t_current. Qed.
Lemma soft_next X : soft X T cm2_write_next_target_addr.
Proof using ResolverTerm0. apply soft_core, t_next. Qed.
Lemma soft_move X : soft X T cm2_move_next_target_addr.
Proof using ResolverTerm0. apply soft_core, t_move. Qed.
End Rounds.
