(* ===== verification/Cm2Rest.v ===== *)
(** * Cm2Rest: every call of the state machine comes to rest

    The rounds of [cm2_update_state], state by state: each ends the call, keeps the state, or
    lowers the measure of [Cm2Term].  Hence the theorem that a call returns. *)
From S2P Require Import Prelude CString Cm2State Cm2Resolve Cm2Link Cm2Event Cm2Inv Cm2ResolveSpec Cm2Term.
Open Scope Z_scope.

Lemma not_false : ~ False.
Proof. intros []. Qed.
#[export] Hint Resolve not_false : soft.

(** One step through a case of the switch. *)
Ltac before_step :=
  match goal with
  | |- before _ _ (mret _) => apply before_ret; done
  | |- before _ _ (mbind _ (mbind _ _)) => apply before_assoc
  | |- before _ _ (mbind _ (mret _)) => apply before_ret_bind
  | |- before _ _ (mbind _ (gets _)) => apply before_gets; intros ? ?
  | |- before _ _ (mbind _ cm2_timeout) => apply before_timeout; [done|intros ?|]; cbn [when negb]
  | |- before _ _ (mbind _ (cm2_set_state _ _)) => fail 1
  | |- before _ _ (mbind _ cm2_ovs_connect) => fail 1
  | |- before _ _ (mbind _ _) => apply before_soft; [done|solve [soft]|intros ?]
  | |- before _ _ (if ?b then _ else _) => destruct b eqn:?
  | |- before _ _ (mbind _ (if ?b then _ else _)) => destruct b eqn:?
  | |- before _ _ (mbind _ (when ?b _)) => destruct b eqn:?; cbn [when]
  end.
Ltac before := repeat before_step.
Ltac after := repeat (apply after_soft; [done|solve [soft]|intros ?]); apply after_ret; [done|].

(** The first thing most states do is to read and clear [state_changed]. *)
Ltac enter g :=
  apply start_changed;
  match goal with
  | Hg : good (w_g ?w), Es : state (w_g ?w) = ?s |- _ =>
      apply good_changed in Hg; set (g := set state_changed false (w_g w)) in *;
      assert (state g = s) as Eg by exact Es
  end.

Section States.
Context {R : Type} `{Cm2Env} {Cfg : Cm2Cfg} `{!Resolver R} `{!ResolverTerm R}.
Context (T : Z) (Hclock : forall n, T <= env_time n < T + 10).
Context (update_state : cm2_reason_e -> M R ()) (Hmac : lan_set_local_mac = false).
Notation M := (M R).
Notation G := (cm2_state_t R).
Notation rounds w m := (wp nf (m w) (fun rw => round T (w_g w) rw.1 (w_g rw.2))).
Hint Resolve soft_current soft_next soft_move : soft.

Lemma soft_device_type X t : soft (R := R) X T (cm2_update_device_type t).
Proof. unfold cm2_update_device_type. soft. Qed.
Lemma soft_interval X b : soft (R := R) X T (cm2_stability_update_interval b).
Proof. unfold cm2_stability_update_interval. soft. Qed.
Lemma soft_get_time X : soft (R := R) X T cm2_get_time.
Proof. unfold cm2_get_time. soft. Qed.
Lemma soft_vtag_used X : soft (R := R) X T (modify (upd link (upd vtag (fun v => if bool_decide (vt_state v = CM2_VTAG_PENDING) then set vt_state CM2_VTAG_USED v else v)))).
Proof.
  intros w Hv. cbn [wp modify snd]. split; try done; [by left|]. unfold pending_vtag. cbn [w_g upd link vtag]. by case_bool_decide.
Qed.
Hint Resolve soft_device_type soft_interval soft_get_time soft_vtag_used : soft.

(** *** Ends of a call *)
Lemma calm_ovs_connect : calm (R := R) cm2_ovs_connect.
Proof using Hclock.
  unfold cm2_ovs_connect. apply calm_bind; [apply (calm_soft T); soft|]. intros g. apply calm_bind; [apply (calm_soft T); soft|]. intros _.
  destruct (negb _); [by eapply calm_set_state|]. destruct (connected g); [|by eapply calm_set_state].
  destruct (skip_reconnect g); [by eapply calm_set_state|]. apply calm_bind; [apply (calm_soft T); soft|]. intros _. by eapply calm_set_state.
Qed.
Lemma calm_restart ok : calm (cm2_restart_ovs_connection update_state ok).
Proof using Hclock Hmac.
  unfold cm2_restart_ovs_connection. apply calm_bind; [apply (calm_soft T); soft|]. intros n. cbv zeta. destruct wan_link_selection.
  - destruct (_ || _); [|apply (calm_soft T); soft]. apply calm_bind; [apply (calm_soft T); soft|]. intros _. by eapply calm_set_state.
  - apply calm_bind; [apply (calm_soft T); soft|]. intros _. apply calm_ovs_connect.
Qed.
Lemma before_give_up g : good g -> before T g (give_up_connecting update_state).
Proof using Hclock Hmac.
  intros Hg. unfold give_up_connecting. apply before_soft; [done|soft|]. intros _. apply before_return; [done|apply calm_restart].
Qed.

(** *** The states *)
Lemma round_re_connect w : good (w_g w) -> state (w_g w) = CM2_STATE_RE_CONNECT -> rounds w (state_re_connect update_state).
Proof using Hclock Hmac.
  intros Hg Es. enter g. clearbody g. before.
  - apply (before_set_state T Hclock g (eq CM2_STATE_TRY_CONNECT)); [done|]. after.
    split; [by intros s <-|]. intros s l _ <- _ _. unfold rank. by rewrite Eg.
  - by apply before_give_up.
Qed.
Lemma ranked_one s (g : G) : s <> CM2_STATE_QUIESCE_OVS -> (forall l, l = live g -> s <> state g -> rank_of s l (connected g) < rank g) -> ranked T (eq s) g.
Proof. intros Hq Hr. split; [by intros ? <-|]. intros ? l _ <- Hne El. auto. Qed.
Lemma ranked_ovs (g : G) : 16 <= rank g -> ranked T (ovs_next (connected g)) g.
Proof.
  intros Hr. split; [by intros s [->|[->|[_ ->]]]|]. intros s l _ [->|[->|[-> ->]]] _ _; cbn [rank_of]; try lia. destruct l; lia.
Qed.

Lemma round_fast_reconnect up w : good (w_g w) -> state (w_g w) = CM2_STATE_FAST_RECONNECT -> rounds w (state_fast_reconnect up).
Proof using Hclock ResolverTerm0.
  intros Hg Es. enter g. clearbody g.
  assert (forall s : cm2_state_e, rank_of s (live g) (connected g) < 15 -> s <> CM2_STATE_QUIESCE_OVS -> ranked T (eq s) g) as Hr.
  { intros s Hs Hq. apply ranked_one; [done|]. intros l -> _. unfold rank. by rewrite Eg. }
  unfold cm2_is_stability_check_pending. before.
  - apply (before_set_state T Hclock g (eq CM2_STATE_RE_CONNECT)); [done|]. after. by apply Hr.
  - match goal with |- context [if ?ok then CM2_STATE_FAST_RECONNECT_WAIT else _] => destruct ok end.
    + apply (before_set_state T Hclock g (eq CM2_STATE_FAST_RECONNECT_WAIT)); [done|]. after. by apply Hr.
    + apply (before_set_state T Hclock g (eq CM2_STATE_OVS_INIT)); [done|]. after. apply Hr; [|done]. cbn. destruct (live g); lia.
Qed.
Lemma round_fast_reconnect_wait w : good (w_g w) -> state (w_g w) = CM2_STATE_FAST_RECONNECT_WAIT -> rounds w state_fast_reconnect_wait.
Proof using Hclock ResolverTerm0.
  intros Hg Es. unfold state_fast_reconnect_wait. apply (fun Hb : before T (w_g w) _ => Hb w (soft_refl _ _ _)).
  set (g := w_g w) in *. clearbody g. apply before_gets. intros h Sh. pose proof (soft_flags _ _ _ _ Sh) as Hf. injection Hf as _ _ Ec _ _ _ _ _.
  destruct (connected h) eqn:Eh.
  - apply (before_set_state T Hclock g (eq CM2_STATE_CONNECTED)); [done|]. after. apply ranked_one; [done|]. intros l _ _.
    rewrite <- Ec. unfold rank. by rewrite Es.
  - before. apply (before_set_state T Hclock g (eq CM2_STATE_RE_CONNECT)); [done|]. after. apply ranked_one; [done|]. intros l _ _.
    unfold rank. by rewrite Es.
Qed.
Lemma round_connected up (w : world R) : good (w_g w) -> state (w_g w) = CM2_STATE_CONNECTED -> rounds w (state_connected up).
Proof using Hclock.
  intros Hg Es. enter g. clearbody g. before.
  apply (before_set_state T Hclock g (eq CM2_STATE_FAST_RECONNECT)); [done|]. after. apply ranked_one; [done|]. intros l _ _.
  pose proof (soft_flags _ _ _ _ H0) as Hf. injection Hf as _ _ Ec _ _ _ _ _. unfold rank. rewrite Eg, <- Ec.
  change (connected (id h)) with (connected h) in Heqb. by rewrite Heqb.
Qed.
Lemma soft_disconnect X : soft (R := R) X T add_disconnect.
Proof. unfold add_disconnect. soft. Qed.
Lemma soft_backoff X : soft (R := R) X T cm2_compute_backoff.
Proof.
  unfold cm2_compute_backoff. soft. intros w _. discriminate.
Qed.
Hint Resolve soft_disconnect soft_backoff : soft.
Lemma round_quiesce up w : good (w_g w) -> state (w_g w) = CM2_STATE_QUIESCE_OVS -> rounds w (state_quiesce update_state up).
Proof using Hclock Hmac.
  intros Hg Es. enter g. clearbody g. before.
  - apply before_return; [done|apply calm_restart].
  - apply (before_set_state T Hclock g (eq CM2_STATE_FAST_RECONNECT)); [done|]. after. apply ranked_one; [done|]. intros l _ _.
    unfold rank. by rewrite Eg.
Qed.
Lemma soft_main_check X up o b : soft X T (main_check update_state up o b).
Proof using Hclock Hmac.
  intros w Hv. eapply wp_mono; [by apply (main_check_spec False T Hclock update_state Hmac not_false)|].
  intros [r w'] ([] & Eu & _). by split.
Qed.
Hint Resolve soft_main_check : soft.
Lemma round_ntp_check up w : good (w_g w) -> state (w_g w) = CM2_STATE_NTP_CHECK -> rounds w (state_ntp_check update_state up).
Proof using Hclock Hmac.
  intros Hg Es. enter g. clearbody g. before. apply before_ovs_connect; [done..|]. after.
  apply ranked_ovs. unfold rank. by rewrite Eg.
Qed.

(** *** Changes of the addresses *)

(** No address becomes new, and nothing else that matters changes. *)
Record drops (g g' : G) : Prop := {
  drops_state : state g' = state g; drops_time : timestamp g' = timestamp g; drops_connected : connected g' = connected g;
  drops_used : used g' = used g; drops_good : good g'; drops_new : no_new g g'
}.
Lemma drops_trans g1 g2 g3 : drops g1 g2 -> drops g2 g3 -> drops g1 g3.
Proof. intros [A1 B1 C1 D1 E1 F1] [A2 B2 C2 D2 E2 F2]. split; try congruence. by eapply no_new_trans. Qed.
Lemma drops_part g g' : drops g g' -> part T g g'.
Proof. intros [A B C D E F]. split; auto. Qed.
Lemma live_rank (g g' : G) : state g' = state g -> connected g' = connected g -> used g' = used g -> rank g' = rank g.
Proof. intros E1 E2 E3. unfold rank, live. by rewrite E1, E2, E3. Qed.
Lemma calm_soft_state X (g g' : G) : soft_rel X T g g' -> calm_state T g -> calm_state T g'.
Proof. intros S [Hi Hq]. apply soft_loose in S. split; [by eapply loose_in_time|]. by rewrite (loose_state _ _ _ S). Qed.

(** A round that starts with such changes. *)
Lemma ends_pre g g2 g3 g' : good g -> soft_rel (calm_state T g) T g g2 -> drops g2 g3 -> ends T g3 g' -> ends T g g'.
Proof.
  intros Hg S D [P Q K U]. pose proof (soft_part _ _ _ _ Hg S) as P2. pose proof (drops_part _ _ D) as P3.
  destruct (soft_loose _ _ _ _ S) as (Hf & _). injection Hf as E1 _ E3 _ _ _ _ _.
  assert (state g3 = state g) as Es by (rewrite (drops_state _ _ D); done).
  assert (connected g3 = connected g) as Ec by (rewrite (drops_connected _ _ D); done).
  split.
  - eapply part_trans; [exact P2|]. by eapply part_trans.
  - rewrite <- Es. exact Q.
  - intros Hc. rewrite <- Es, <- (live_rank g g3); [|done..|by rewrite (drops_used _ _ D), (soft_firm _ _ _ _ S Hc)].
    apply K. destruct (calm_soft_state _ _ _ S Hc) as [Hi Hq]. split; [|by rewrite Es; apply Hc].
    unfold in_time in *. by rewrite (drops_time _ _ D).
  - intros Hu Hr. assert (used g3 = true) as Hu3 by (rewrite (drops_used _ _ D); by apply S). apply U; [done|].
    rewrite (live_rank g g3); congruence.
Qed.
Lemma round_pre g g2 g3 r g' : good g -> soft_rel (calm_state T g) T g g2 -> drops g2 g3 -> round T g3 r g' -> round T g r g'.
Proof. intros Hg S D [Hr|E]; [by left|]. right. by eapply ends_pre. Qed.
Lemma before_drops g (m : M ()) (k : M bool) : good g ->
  (forall w, good (w_g w) -> wp nf (m w) (fun aw => drops (w_g w) (w_g aw.2))) ->
  (forall g2 g3, soft_rel (calm_state T g) T g g2 -> drops g2 g3 -> before T g3 k) -> before T g (m ≫= fun _ => k).
Proof.
  intros Hg Hm Hk w S. pose proof (part_good _ _ _ (soft_part _ _ _ _ Hg S)) as Hw. apply wp_M_bind. eapply wp_mono; [by apply Hm|].
  intros [a w'] D. eapply wp_mono; [apply (Hk _ _ S D), soft_refl|]. intros [r w''] Hr. by eapply round_pre.
Qed.

(** A new value of an address that is not new, and of the destination. *)
Lemma drops_addr d a g : good g -> (updated a = true -> valid a = true) ->
  (updated a = true -> updated (cm2_get_addr d g) = true) -> (valid a = true -> valid (cm2_get_addr d g) = true) ->
  drops g (upd_addr d (fun _ => a) g).
Proof.
  intros [Hv Hu] Ha Hup Hva. assert (forall d', updated (cm2_get_addr d' (upd_addr d (fun _ => a) g)) = true ->
    valid (cm2_get_addr d' (upd_addr d (fun _ => a) g)) = true) as Hg' by (intros d'; specialize (Hu d'); by destruct d, d').
  split; [by destruct d..| |]; [split; [by destruct d|done]|].
  unfold no_new, new_redir, new_manager.
  destruct d; cbn [upd_addr upd cm2_get_addr addr_redirector addr_manager] in *; repeat split; try done;
    intros [E1 E2]%andb_prop; apply andb_true_intro; auto.
Qed.
Lemma clear_manager_spec w : good (w_g w) -> wp nf (cm2_clear_manager_addr w) (fun aw => drops (w_g w) (w_g aw.2)).
Proof using ResolverTerm0.
  intros Hg. unfold cm2_clear_manager_addr, cm2_ovsdb_set_AWLAN_Node_manager_addr, cm2_set_addr, set_addr_pure, cm2_clear_addr.
  apply wp_call. apply wp_M_bind, wp_gets. cbn [String.eqb]. unfold lift. apply wp_M_bind. cbn [wp].
  match goal with |- context [cm2_free_addr_list ?r] => pose proof (t_free r) as Hf; destruct (cm2_free_addr_list r) as [r'|f]; [|exact Hf] end.
  cbn [mbind res_bind wp]. apply wp_M_bind. cbn [wp modify fst snd mret M_ret].
  match goal with |- drops _ (w_g (upd w_g (upd_addr _ (fun _ => ?a)) _)) => exact (drops_addr CM2_DEST_MANAGER a (w_g w) Hg ltac:(discriminate) ltac:(discriminate) ltac:(discriminate)) end.
Qed.
Lemma set_dst_spec d w : good (w_g w) -> wp nf (cm2_set_dst_type d w) (fun aw => drops (w_g w) (w_g aw.2) /\
  dest (w_g aw.2) = d /\ link (w_g aw.2) = link (w_g w) /\ state_changed (w_g aw.2) = state_changed (w_g w) /\
  (new_manager (w_g aw.2), new_redir (w_g aw.2)) = (new_manager (w_g w), new_redir (w_g w))).
Proof using ResolverTerm0.
  intros [Hv Hu]. unfold cm2_set_dst_type. apply wp_modify. cbn [wp modify snd fst]. set (g := w_g w) in *.
  change (w_g (upd w_g (cm2_set_ipv6_pref d) (upd w_g (set dest d) w))) with (cm2_set_ipv6_pref d (set dest d g)).
  destruct (t_pref d (set dest d g)) as (Ec & El & Eu). set (g' := cm2_set_ipv6_pref d (set dest d g)) in *. clearbody g'.
  destruct (core_flags _ _ Ec) as (Ef & Ev & Hus & Evt). injection Ef as E1 E2 E3 E4 E5.
  assert (forall d', updated (cm2_get_addr d' g') = updated (cm2_get_addr d' g)) as Eu' by (intros d'; rewrite Eu; by destruct d').
  assert (forall d', valid (cm2_get_addr d' g') = valid (cm2_get_addr d' g)) as Ev' by (intros d'; rewrite Ev; by destruct d').
  pose proof (Eu' CM2_DEST_REDIR) as U1. pose proof (Eu' CM2_DEST_MANAGER) as U2.
  pose proof (Ev' CM2_DEST_REDIR) as V1. pose proof (Ev' CM2_DEST_MANAGER) as V2. cbn [cm2_get_addr] in U1, U2, V1, V2.
  assert (new_redir g' = new_redir g) as Nr by (unfold new_redir; by rewrite U1, V1).
  assert (new_manager g' = new_manager g) as Nm by (unfold new_manager; by rewrite U2, V2).
  assert (retry_set g' = retry_set g) as Rr by (unfold retry_set; by rewrite El).
  split; [|split; [done|]; split; [done|]; split; [done|congruence]]. split; try done.
  - split; [|intros d'; rewrite Eu', Ev'; apply Hu]. unfold pending_vtag. rewrite Evt. exact Hv.
  - split; [congruence|]. split; congruence.
Qed.

Lemma soft_changed X (g h : G) : soft_rel X T g h -> soft_rel X T (set state_changed false g) (set state_changed false h).
Proof.
  intros [Hf Ht Hu Hk Hr Hp]. injection Hf as E1 E2 E3 E4 E5 E6 E7 E8. split; try done. unfold flags. cbn -[upd] in *.
  change ((state h, false, connected h, dest h, (updated (addr_redirector h), valid (addr_redirector h)), (updated (addr_manager h), valid (addr_manager h))) =
    (state g, false, connected g, dest g, (updated (addr_redirector g), valid (addr_redirector g)), (updated (addr_manager g), valid (addr_manager g)))).
  congruence.
Qed.
Lemma round_changed (g : G) r g' : round T (set state_changed false g) r g' -> round T g r g'.
Proof. intros [Hr|[[A B C D] E F I]]; [by left|]. right. by split; [split| | |]. Qed.
Lemma before_changed (g : G) k : (forall c, before T (set state_changed false g) (k c)) -> before T g (cm2_state_changed ≫= k).
Proof.
  intros Hk w S. unfold cm2_state_changed. apply wp_M_bind, wp_gets, wp_modify. cbn [wp mret M_ret fst snd].
  eapply wp_mono; [apply (Hk _ (upd w_g (set state_changed false) w)), soft_changed, S|]. intros [r w'] Hr. by apply round_changed.
Qed.

(** Continue from what is read. *)
Lemma before_gets_at {A} g (f : G -> A) k : good g ->
  (forall h, good h -> state h = state g -> soft_rel (calm_state T g) T g h -> before T h (k (f h))) -> before T g (gets f ≫= k).
Proof.
  intros Hg Hk w S. apply wp_gets. pose proof (part_good _ _ _ (soft_part _ _ _ _ Hg S)) as Hw.
  pose proof (loose_state _ _ _ (soft_loose _ _ _ _ S)) as Es. eapply wp_mono; [exact (Hk (w_g w) Hw Es S w (soft_refl _ _ _))|].
  intros [r w'] Hr. eapply round_pre; [done|exact S| |exact Hr]. by split.
Qed.

Lemma round_ovs_init w : good (w_g w) -> state (w_g w) = CM2_STATE_OVS_INIT -> rounds w state_ovs_init.
Proof using Hclock ResolverTerm0.
  intros Hg Es. enter g. clearbody g. apply before_soft; [done|soft|]. intros _. apply before_gets_at; [done|].
  intros h Hh Eh _. rewrite Eg in Eh. change (id h) with h. clear g Hg Eg. before.
  - apply (before_set_state T Hclock h (eq CM2_STATE_LINK_SEL)); [done|]. after. apply ranked_one; [done|].
    intros l -> _. apply andb_prop in Heqb as [Hw Hu]. change (is_used (link h)) with (used h) in Hu.
    apply negb_true_iff in Hu. unfold rank, live. by rewrite Eh, Hu, Hw.
  - apply before_drops; [done|apply clear_manager_spec|]. intros g2 g3 S2 D3. apply before_assoc, before_drops; [apply D3| |].
    { intros w' Hw'. eapply wp_mono; [by apply set_dst_spec|]. by intros [a' w''] [? _]. }
    intros g4 g5 S4 D5. pose proof (drops_good _ _ D5) as Hg5.
    apply before_assoc, (before_set_state T Hclock g5 (eq CM2_STATE_TRY_RESOLVE)); [done|]. after. apply ranked_one; [done|].
    intros l _ _. assert (state g5 = CM2_STATE_OVS_INIT) as E5.
    { rewrite (drops_state _ _ D5), (loose_state _ _ _ (soft_loose _ _ _ _ S4)), (drops_state _ _ D3).
      by rewrite (loose_state _ _ _ (soft_loose _ _ _ _ S2)). }
    assert (live g5 = true) as El5.
    { unfold live. destruct wan_link_selection; [|apply orb_true_r]. cbn in Heqb. apply negb_false_iff in Heqb.
      rewrite (drops_used _ _ D5), (soft_used _ _ _ _ S4); [done|]. rewrite (drops_used _ _ D3). by apply S2. }
    unfold rank. by rewrite E5, El5.
Qed.

Lemma extender_loose (w : world R) : wp nf (cm2_extender_init_state w) (fun aw => loose_rel T (w_g w) (w_g aw.2)).
Proof.
  unfold cm2_extender_init_state. apply wp_modify. apply wp_call. cbv zeta. apply wp_M_bind.
  match goal with |- context [env_row ?n] => destruct (env_row n) end; cbn [wp modify fst snd];
    (split; [reflexivity|]; split; [by left|]; split; [discriminate|discriminate]).
Qed.
Lemma round_init (w : world R) : good (w_g w) -> (state (w_g w) = CM2_STATE_INIT \/ state (w_g w) = CM2_STATE_INTERNET) -> rounds w state_init.
Proof using Hclock.
  intros Hg Es. assert (rank (w_g w) = 31) as Er by (unfold rank; by destruct Es as [-> | ->]).
  unfold state_init. destruct wan_link_selection; cbn [negb].
  - apply wp_M_bind, wp_M_bind. eapply wp_mono; [apply extender_loose|]. intros [a w1] L1. cbn [fst snd] in *. apply wp_modify.
    set (w2 := upd w_g _ w1). assert (loose_rel T (w_g w) (w_g w2)) as L2.
    { eapply loose_trans; [exact L1|]. split; [reflexivity|]. split; [by left|]. split; [discriminate|done]. }
    clearbody w2. apply set_state_put with (T := T); [done|]. intros t w3 Ht E3.
    pose proof (loose_part _ _ _ Hg L2) as P2. pose proof (put_part T CM2_STATE_LINK_SEL t _ (part_good _ _ _ P2) Ht) as P3. rewrite <- E3 in P3.
    cbn [fst snd]. apply (wp_soft False T); [soft|apply P3|]. intros _ w4 S4.
    apply (wp_soft False T); [soft|by eapply soft_not_pending; [exact S4|apply P3]|]. intros _ w5 S5.
    cbn [wp mret M_ret fst snd]. right. pose proof (soft_trans _ _ _ _ _ S4 S5) as S. pose proof (soft_part _ _ _ _ (part_good _ _ _ P3) S) as P5.
    assert (state (w_g w5) = CM2_STATE_LINK_SEL) as E5.
    { rewrite (loose_state _ _ _ (soft_loose _ _ _ _ S)), E3. apply put_state. }
    split; [by eapply part_trans; [exact P2|eapply part_trans]|by rewrite E5| |lia].
    intros _. right. rewrite Er. unfold rank. rewrite E5. cbn. destruct (live _); lia.
  - apply (fun Hb : before T (w_g w) _ => Hb w (soft_refl _ _ _)). apply before_ovs_connect; [done..|]. after. apply ranked_ovs. lia.
Qed.

Lemma round_link_sel up w : good (w_g w) -> state (w_g w) = CM2_STATE_LINK_SEL -> rounds w (state_link_sel update_state up).
Proof using Hclock Hmac.
  intros Hg Es. enter g. clearbody g. set (c := state_changed (w_g w)). clearbody c. clear w Es.
  match goal with |- before _ _ (mbind ?k _) => set (rest := k) end.
  assert (before T g (rest ())) as Hrest.
  { unfold rest, cm2_ovsdb_WIC_dhcp_renew. before. apply (before_set_state T Hclock g (eq CM2_STATE_WAN_IP)); [done|]. after.
    apply ranked_one; [done|]. intros l -> _. unfold rank. rewrite Eg. cbn. destruct (live g); lia. }
  destruct c; cbn [when]; [|exact Hrest]. apply before_assoc, before_soft; [done|soft|]. intros _. apply before_assoc.
  intros w S. pose proof (part_good _ _ _ (soft_part _ _ _ _ Hg S)) as Hw. apply wp_M_bind.
  eapply wp_mono; [apply (clear_used False T update_state Hmac), Hw|]. intros [a w1] [[_ E1]|(_ & Ef & Et & El)]; cbn [fst snd] in *.
  - (* nothing was in use *)
    rewrite <- E1 in S. revert w1 S E1. cut (before T g (modify (set run_stability false) ≫= rest)); [intros Hb w1 S _; by apply Hb|].
    apply before_soft; [done|soft|]. by intros [].
  - apply wp_modify. set (w2 := upd w_g _ w1).
    assert (loose_rel T g (w_g w2)) as L2.
    { eapply loose_trans; [by eapply soft_loose|]. split; [exact Ef|]. split; [exact Et|].
      unfold retry_set, pending_vtag. change (link (w_g w2)) with (link (w_g w1)). rewrite El. by split. }
    assert (link (w_g w2) = zero_link) as El2 by exact El. clearbody w2. unfold rest. apply wp_gets. rewrite El2. cbn [is_used_echoed zero_link].
    apply wp_M_bind. eapply wp_mono; [apply none_nf, (timeout_spec T Hclock)|]. intros [to w3] [E3 _]. cbn [fst snd] in *. rewrite <- E3 in L2.
    apply (wp_soft False T); [soft|apply (part_good _ _ _ (loose_part _ _ _ Hg L2))|]. intros _ w4 S4. right.
    pose proof (loose_trans _ _ _ _ L2 (soft_loose _ _ _ _ S4)) as L4. pose proof (loose_state _ _ _ L4) as E4.
    split; [by apply loose_part|cbn [snd]; congruence|by left|]. intros Hu Hr. exfalso. revert Hr. unfold rank, live. rewrite Eg, Hu. done.
Qed.

(** A check that is made under a condition. *)
Lemma main_check_if g (c : bool) up o b w : good g -> soft_rel (calm_state T g) T g (w_g w) ->
  wp nf ((if c then main_check update_state up o b else mret false) w) (fun bw => soft_rel (calm_state T g) T g (w_g bw.2) /\
    (used (w_g w) = true -> used (w_g bw.2) = true) /\ (bw.1 = true -> used (w_g bw.2) = true)).
Proof using Hclock Hmac.
  intros Hg S. destruct c; [|done]. pose proof (part_good _ _ _ (soft_part _ _ _ _ Hg S)) as [Hv _].
  eapply wp_mono; [by apply (main_check_spec False T Hclock update_state Hmac not_false)|]. intros [r w'] (S' & Eu & Hr). cbn [fst snd] in *.
  assert (soft_rel (calm_state T g) T (w_g w) (w_g w')) as S'' by (destruct S'; by split).
  split; [by eapply soft_trans|]. rewrite Eu. auto.
Qed.
Lemma round_wan_ip up w : good (w_g w) -> state (w_g w) = CM2_STATE_WAN_IP ->
  wp nf (state_wan_ip update_state up (false, false) w) (fun vw => ends T (w_g w) (w_g vw.2) /\
    (vw.1.1 || vw.1.2 = true -> used (w_g vw.2) = true /\ state (w_g vw.2) = CM2_STATE_NTP_CHECK)).
Proof using Hclock Hmac.
  intros Hg Es. unfold state_wan_ip, cm2_state_changed. apply wp_M_bind, wp_gets, wp_modify. cbn [wp mret M_ret fst snd].
  set (w0 := upd w_g (set state_changed false) w). assert (good (w_g w0)) as Hg0 by by apply good_changed.
  assert (state (w_g w0) = CM2_STATE_WAN_IP) as Eg by exact Es.
  apply (wp_mono _ _ (fun vw => round T (w_g w0) false (w_g vw.2) /\
    (vw.1.1 || vw.1.2 = true -> used (w_g vw.2) = true /\ state (w_g vw.2) = CM2_STATE_NTP_CHECK))).
  2: { intros [v w'] [Hr Hv]. split; [|exact Hv]. by apply round_changed in Hr as [|Hr]. }
  set (g := w_g w0) in *. assert (soft_rel (calm_state T g) T g (w_g w0)) as S0 by apply soft_refl. clearbody g w0. clear w Hg Es.
  apply (wp_soft (calm_state T g) T); [soft|apply (part_good _ _ _ (soft_part _ _ _ _ Hg0 S0))|]. intros _ w1 S1.
  pose proof (soft_trans _ _ _ _ _ S0 S1) as S. clear w0 S0 S1. apply wp_gets. cbn [fst snd].
  apply wp_M_bind. eapply wp_mono; [by apply (main_check_if g)|]. intros [v4 w2] (S2 & _ & H4). cbn [fst snd] in *. apply wp_gets.
  apply wp_M_bind. eapply wp_mono; [by apply (main_check_if g)|]. intros [v6 w3] (S3 & H23 & H6). cbn [fst snd] in *.
  destruct (v4 || v6) eqn:Ev.
  - assert (used (w_g w3) = true) as Hu by (destruct v4; auto). apply wp_M_bind, (set_state_put T Hclock). intros t w4 Ht E4. cbn [wp mret M_ret fst snd].
    assert (used (w_g w4) = true) as Hu4 by (rewrite E4; unfold put; by case_bool_decide).
    split; [|intros _; split; [done|]; rewrite E4; apply put_state]. right. apply (moves_ends T (eq CM2_STATE_NTP_CHECK)); [done| |].
    + exists (w_g w3), CM2_STATE_NTP_CHECK, t. rewrite <- E4. split; [done|]. split; [done|]. split; [done|]. apply soft_refl.
    + split; [by intros ? <-|]. intros s l Hc <- _ _. rewrite (soft_firm _ _ _ _ S3 Hc) in Hu. unfold rank, live. by rewrite Eg, Hu.
  - apply wp_M_bind, wp_M_bind. eapply wp_mono; [apply none_nf, (timeout_spec T Hclock)|]. intros [to w4] [E4 Hto]. cbn [fst snd] in *.
    rewrite <- E4 in S3. assert (soft (calm_state T g) T (when to (cm2_trigger_restart_managers update_state))) as Hs.
    { destruct to; [|apply soft_ret]. assert (~ calm_state T g) as Hn.
      { intros Hc. destruct (calm_soft_state _ _ _ S3 Hc) as [Hi Hq]. rewrite E4 in Hi, Hq. discriminate (Hto Hi Hq). }
      cbn [when]. soft. }
    eapply wp_mono; [apply Hs, (part_good _ _ _ (soft_part _ _ _ _ Hg0 S3))|]. intros [a w5] S5. cbn [wp mret M_ret fst snd] in *.
    split; [|congruence]. right. eapply soft_ends; [done|]. by eapply soft_trans.
Qed.

Lemma before_connecting g up : good g -> state g = CM2_STATE_TRY_CONNECT -> before T g (connecting update_state up).
Proof using Hclock Hmac ResolverTerm0.
  intros Hg Es. unfold connecting. apply before_gets. intros h S. pose proof (soft_flags _ _ _ _ S) as Hf. injection Hf as _ _ Ec _ _ _ _ _.
  change (id h) with h. destruct (connected h) eqn:Eh.
  - apply (before_set_state T Hclock g (eq CM2_STATE_CONNECTED)); [done|]. after. apply ranked_one; [done|]. intros l _ _.
    rewrite <- Ec. unfold rank. rewrite Es. cbn. lia.
  - before. by apply before_give_up.
Qed.
Lemma round_try_connect up w : good (w_g w) -> state (w_g w) = CM2_STATE_TRY_CONNECT ->
  (calm_state T (w_g w) -> updated (cm2_curr_addr (w_g w)) = false) -> rounds w (state_try_connect update_state up).
Proof using Hclock Hmac ResolverTerm0.
  intros Hg Es Hnew. unfold state_try_connect. apply (fun Hb : before T (w_g w) _ => Hb w (soft_refl _ _ _)).
  set (g := w_g w) in *. clearbody g. apply before_soft; [done|soft|]. intros _. apply before_gets. intros h S.
  pose proof (soft_flags _ _ _ _ S) as Hf. injection Hf as _ _ _ E4 E5 _ E7 _.
  assert (updated (cm2_curr_addr h) = updated (cm2_curr_addr g)) as ->.
  { unfold cm2_curr_addr. rewrite E4. by destruct (dest g). }
  destruct (updated (cm2_curr_addr g)) eqn:Eu.
  - apply (before_set_state T Hclock g (eq CM2_STATE_TRY_RESOLVE)); [done|]. after. split; [by intros ? <-|].
    intros s l Hc. discriminate (Hnew Hc).
  - apply before_changed. intros c. apply good_changed in Hg. destruct c; cbn [negb]; [|by apply before_connecting].
    apply before_soft; [done|soft|]. intros _. apply before_soft; [done|soft|]. intros ok.
    destruct ok; cbn [negb]; [by apply before_connecting|by apply before_give_up].
Qed.

(** The resolver, and what follows it. *)
Lemma resolve_drops d w : good (w_g w) -> (new_manager (w_g w) = true -> d = CM2_DEST_MANAGER) ->
  wp nf (cm2_resolve d w) (fun bw => ~ pending_vtag (w_g bw.2) /\ (bw.1 = true -> drops (w_g w) (w_g bw.2) /\
    (new_manager (w_g bw.2) = true -> retry_set (w_g w) = true /\ retry_set (w_g bw.2) = false))).
Proof using ResolverTerm0.
  intros [Hv Hu] Hd. eapply wp_mono; [apply t_resolve|]. intros [ok w'] (Ec & Hup & Hr). cbn [fst snd] in *.
  destruct (core_flags _ _ Ec) as (Ef & Ev & Eus & Evt). injection Ef as E1 E2 E3 E4 E5.
  assert (~ pending_vtag (w_g w')) as Hv' by (unfold pending_vtag; rewrite Evt; exact Hv). split; [done|]. intros ->. specialize (Hr eq_refl).
  assert (new_manager (w_g w') = true -> new_manager (w_g w) = true) as Hm.
  { unfold new_manager. intros [A B]%andb_prop. pose proof (Ev CM2_DEST_MANAGER) as V. cbn [cm2_get_addr] in V. rewrite V in B.
    pose proof (Hup CM2_DEST_MANAGER A) as A'. cbn [cm2_get_addr] in A'. by rewrite A', B. }
  assert (new_manager (w_g w') = true -> retry_set (w_g w) = true /\ retry_set (w_g w') = false) as Hn.
  { intros Hn. apply Hr. rewrite (Hd (Hm Hn)). by apply andb_prop in Hn as [A _]. }
  split; [|done]. split; try done.
  - split; [done|]. intros d' Hd'. rewrite Ev. by apply Hu, Hup.
  - split; [|split; [done|intros Hn' _; by apply Hn]]. unfold new_redir. intros [A B]%andb_prop.
    pose proof (Ev CM2_DEST_REDIR) as V. cbn [cm2_get_addr] in V. rewrite V in B. pose proof (Hup CM2_DEST_REDIR A) as A'. cbn [cm2_get_addr] in A'. by rewrite A', B.
Qed.

(** Computations that end the call. *)
Definition leaves (m : M bool) : Prop := forall w, ~ pending_vtag (w_g w) -> wp nf (m w) (fun rw => rw.1 = true).
Lemma leaves_bind {A} (m : M A) k : calm m -> (forall a, leaves (k a)) -> leaves (m ≫= k).
Proof. intros Hm Hk w Hv. apply wp_M_bind. eapply wp_mono; [by apply Hm|]. intros [a w'] Hv'. by apply Hk. Qed.
Lemma leaves_ret : leaves (mret true).
Proof. by intros w _. Qed.
Lemma before_leaves g m : good g -> leaves m -> before T g m.
Proof.
  intros Hg Hm w S. eapply wp_mono; [apply Hm; eapply soft_not_pending; [exact S|apply Hg]|]. intros [r w'] Hr. by left.
Qed.
Lemma calm_resolve_timeout : calm cm2_resolve_timeout.
Proof using ResolverTerm0.
  intros w Hv. eapply wp_mono; [apply t_timeout|]. intros [a w'] Ec. destruct (core_flags _ _ Ec) as (_ & _ & _ & Evt).
  unfold pending_vtag. cbn [snd] in *. by rewrite Evt.
Qed.

Definition resolve_failed : M bool :=
  _ ← count_failure (fun f => upd ovs_resolve_fail f);
  _ ← cm2_restart_ovs_connection update_state true;
  _ ← call_ AWdtPing;
  mret true.
Lemma leaves_failed : leaves resolve_failed.
Proof using Hclock Hmac.
  unfold resolve_failed. apply leaves_bind; [apply (calm_soft T); soft|]. intros _. apply leaves_bind; [apply calm_restart|]. intros _.
  apply leaves_bind; [apply (calm_soft T); soft|]. intros _. apply leaves_ret.
Qed.
Definition resolve_rest (up : G -> string) : M bool :=
  done ← gets (fun g => cm2_is_addr_resolved (cm2_curr_addr g));
  if (done : bool) then
    _ ← modify (upd cnts (fun n => set ovs_resolve_fail 0 (set ovs_resolve 0 n)));
    _ ← cm2_set_state true CM2_STATE_RE_CONNECT;
    mret false
  else
    to ← cm2_timeout;
    n ← gets (fun g => ovs_resolve (cnts g));
    if to || (CM2_RESOLVE_RETRY_THRESHOLD <? n) then
      _ ← modify (upd cnts (set ovs_resolve 0));
      _ ← cm2_resolve_timeout;
      uplink ← gets up;
      _ ← cm2_ovsdb_refresh_dhcp uplink;
      _ ← count_failure (fun f => upd ovs_resolve_fail f);
      _ ← cm2_restart_ovs_connection update_state false;
      mret true
    else mret false.
Lemma before_rest g up : good g -> state g = CM2_STATE_TRY_RESOLVE -> before T g (resolve_rest up).
Proof using Hclock Hmac ResolverTerm0.
  intros Hg Es. unfold resolve_rest.
  match goal with |- context [modify (upd cnts (set ovs_resolve 0)) ≫= ?k] =>
    assert (leaves (modify (upd cnts (set ovs_resolve 0)) ≫= k)) as Hl end.
  { apply leaves_bind; [apply (calm_soft T); soft|]. intros _. apply leaves_bind; [apply calm_resolve_timeout|]. intros _.
    do 3 (apply leaves_bind; [apply (calm_soft T); soft|]; intros ?). apply leaves_bind; [apply calm_restart|]. intros _. apply leaves_ret. }
  apply before_gets. intros h _. destruct (cm2_is_addr_resolved _).
  - before. apply (before_set_state T Hclock g (eq CM2_STATE_RE_CONNECT)); [done|]. after. apply ranked_one; [done|]. intros l _ _.
    unfold rank. by rewrite Es.
  - apply before_timeout; [done|intros _|]; apply before_gets; intros h' _; destruct (_ || _); try (by apply before_leaves); by apply before_ret.
Qed.

(** A waiting controller address is resolved, or was up for a retry. *)
Definition served (g g' : G) : Prop :=
  new_manager g = true -> state_changed g = true \/ retry_set g = true ->
  new_manager g' = false \/ (retry_set g = true /\ retry_set g' = false).
Lemma round_try_resolve up w : good (w_g w) -> state (w_g w) = CM2_STATE_TRY_RESOLVE ->
  (new_manager (w_g w) = true -> dest (w_g w) = CM2_DEST_MANAGER) ->
  wp nf (state_try_resolve update_state up w) (fun rw => rw.1 = true \/ (ends T (w_g w) (w_g rw.2) /\ served (w_g w) (w_g rw.2))).
Proof using Hclock Hmac ResolverTerm0.
  intros Hg Es Hd. unfold state_try_resolve, cm2_state_changed. apply wp_M_bind, wp_gets, wp_modify. cbn [wp mret M_ret fst snd].
  fold resolve_failed. fold (resolve_rest up).
  set (w0 := upd w_g (set state_changed false) w). assert (good (w_g w0)) as Hg0 by by apply good_changed. apply wp_gets.
  change (retry_set (w_g w0)) with (retry_set (w_g w)).
  assert (forall g', ends T (w_g w0) g' -> ends T (w_g w) g') as H0w.
  { intros g' He. by destruct (round_changed (w_g w) false g' (or_intror He)). }
  destruct (state_changed (w_g w) || retry_set (w_g w)) eqn:Ecr.
  - apply wp_M_bind. apply (wp_soft (calm_state T (w_g w0)) T); [soft|apply Hg0|]. intros _ w1 S1. apply wp_gets.
    apply (wp_soft (calm_state T (w_g w0)) T); [soft|eapply soft_not_pending; [exact S1|apply Hg0]|]. intros _ w2 S2.
    pose proof (soft_trans _ _ _ _ _ S1 S2) as S. clear w1 S1 S2. pose proof (part_good _ _ _ (soft_part _ _ _ _ Hg0 S)) as Hg2. apply wp_gets.
    pose proof (soft_flags _ _ _ _ S) as Hf. injection Hf as F1 _ _ F4 _ _ F7 F8.
    assert (new_manager (w_g w2) = new_manager (w_g w)) as Em by (unfold new_manager; by rewrite F7, F8).
    apply wp_M_bind. eapply wp_mono; [apply resolve_drops; [done|]; rewrite Em, F4; exact Hd|].
    intros [ok w3] [Hv3 Hok]. cbn [wp mret M_ret fst snd] in *. destruct ok; cbn [negb].
    2: { eapply wp_mono; [by apply leaves_failed|]. by left. }
    destruct (Hok eq_refl) as [D Hs]. assert (state (w_g w3) = CM2_STATE_TRY_RESOLVE) as E3 by (rewrite (drops_state _ _ D), F1; exact Es).
    eapply wp_mono; [apply (before_rest (w_g w3)); [apply D|done|apply soft_refl]|]. intros [r w4] [Hr|He]; [by left|]. right. cbn [fst snd] in *.
    split; [by eapply H0w, ends_pre|]. intros Hm _. destruct (new_manager (w_g w4)) eqn:Em4; [right|by left].
    destruct (part_no_new _ _ _ (ends_part _ _ _ He)) as (_ & Hm' & Hr'). destruct (Hs (Hm' Em4)) as [Hr2 Hr3].
    split; [by apply S in Hr2|]. destruct (retry_set (w_g w4)) eqn:Er4; [|done]. by rewrite Hr' in Hr3.
  - apply orb_false_elim in Ecr as [Ec Er]. eapply wp_mono; [apply (before_rest (w_g w0)); [done|exact Es|apply soft_refl]|].
    intros [r w4] [Hr|He]; [by left|]. right. split; [by apply H0w|]. intros _ [Hc|Hr]; congruence.
Qed.

(** *** Before and after the switch *)

(** What every part of a round keeps. *)
Record shift (g g' : G) : Prop := {
  shift_good : good g';
  shift_time : (state g' = state g /\ timestamp g' = timestamp g) \/ in_time T g';
  shift_quiesce : state g' = CM2_STATE_QUIESCE_OVS -> state g = CM2_STATE_QUIESCE_OVS
}.
Lemma shift_refl g : good g -> shift g g.
Proof. intros Hg. split; [done|by left|done]. Qed.
Lemma shift_trans g1 g2 g3 : shift g1 g2 -> shift g2 g3 -> shift g1 g3.
Proof.
  intros [A1 B1 C1] [A2 B2 C2]. split; [done| |auto]. destruct B2 as [[E1 E2]|]; [|by right].
  destruct B1 as [[E3 E4]|B1]; [left; split; congruence|]. right. unfold in_time in *. by rewrite E2.
Qed.
Lemma part_shift g g' : part T g g' -> (state g' = CM2_STATE_QUIESCE_OVS -> state g = CM2_STATE_QUIESCE_OVS) -> shift g g'.
Proof. by intros [A B C D] Hq. Qed.
Lemma shift_soft X g g' : good g -> soft_rel X T g g' -> shift g g'.
Proof. intros Hg S. apply part_shift; [by eapply soft_part|]. by rewrite (loose_state _ _ _ (soft_loose _ _ _ _ S)). Qed.
Lemma shift_put s t g : good g -> T <= t < T + 10 -> s <> CM2_STATE_QUIESCE_OVS -> shift g (put s t g).
Proof. intros Hg Ht Hs. apply part_shift; [by apply put_part|]. by rewrite put_state. Qed.
Lemma shift_calm g g' : shift g g' -> calm_state T g -> calm_state T g'.
Proof.
  intros [_ [[E1 E2]|Hi] Hq] [Hi0 Hq0]; split; auto. unfold in_time in *. by rewrite E2.
Qed.
(** A change of state makes the time fresh. *)
Lemma shift_changed g g' : shift g g' -> state g' <> state g -> calm_state T g'.
Proof. intros [_ [[E _]|Hi] Hq] Hne; [done|]. split; [done|]. intros Eq. pose proof (Hq Eq). congruence. Qed.

Lemma soft_block_vtag X : soft (R := R) X T cm2_block_vtag.
Proof.
  unfold cm2_block_vtag. apply soft_bind; [|intros _; soft]. intros w Hv. cbn [wp modify snd]. split; try done. by left.
Qed.
Lemma soft_restore_bridge X : soft (R := R) X T cm2_restore_bridge_config.
Proof. unfold cm2_restore_bridge_config. soft. Qed.
Lemma soft_default_wan X i t : soft (R := R) X T (cm2_ovsdb_set_default_wan_bridge i t).
Proof. unfold cm2_ovsdb_set_default_wan_bridge. soft. Qed.
Hint Resolve soft_block_vtag soft_restore_bridge soft_default_wan : soft.

Definition reason_next (g g' : G) : Prop :=
  shift g g' /\ (state g' = state g \/ state g' = CM2_STATE_LINK_SEL \/ state g' = CM2_STATE_WAN_IP).
Lemma reason_soft g g' : good g -> soft_rel False T g g' -> reason_next g g'.
Proof. intros Hg S. split; [by eapply shift_soft|]. left. by eapply loose_state, soft_loose. Qed.
Lemma reason_put s ok w g : good g -> soft_rel False T g (w_g w) -> s = CM2_STATE_LINK_SEL \/ s = CM2_STATE_WAN_IP ->
  wp nf (cm2_set_state ok s w) (fun aw => reason_next g (w_g aw.2)).
Proof using Hclock.
  intros Hg S Hs. apply (set_state_put T Hclock). intros t w' Ht E. cbn [snd]. rewrite E. pose proof (shift_soft _ _ _ Hg S) as Sh.
  split; [|right; by rewrite put_state]. eapply shift_trans; [exact Sh|]. apply shift_put; [apply Sh|done|]. by destruct Hs as [-> | ->].
Qed.
Lemma reason_soft_m g (m : M ()) : good g -> soft False T m -> forall w, w_g w = g -> wp nf (m w) (fun aw => reason_next g (w_g aw.2)).
Proof. intros Hg Hm w <-. eapply wp_mono; [apply Hm, Hg|]. intros [a w'] S. by apply reason_soft. Qed.
Lemma on_reason_spec up b r w : good (w_g w) -> r <> CM2_REASON_SET_NEW_VTAG ->
  wp nf (on_reason update_state up b r w) (fun aw => reason_next (w_g w) (w_g aw.2) /\ (r = CM2_REASON_CHANGE -> w_g aw.2 = w_g w)).
Proof using Hclock Hmac.
  intros Hg Hr. assert (reason_next (w_g w) (w_g w)) as Hrefl by (apply reason_soft; [done|apply soft_refl]).
  destruct r; try done; unfold on_reason.
  - eapply wp_mono; [apply reason_soft_m; [done| |done]; soft|]. by intros [a w'] ?.
  - eapply wp_mono; [apply reason_put; [done|apply soft_refl|by left]|]. by intros [a w'] ?.
  - rewrite bool_decide_false by done. apply (wp_soft False T); [soft|apply Hg|]. intros ok w1 S1. destruct ok; cbn [when].
    2: { cbn [wp mret M_ret fst snd]. split; [by apply reason_soft|done]. }
    apply wp_gets. apply (wp_soft False T); [soft|eapply soft_not_pending; [exact S1|apply Hg]|]. intros _ w2 S2.
    pose proof (soft_trans _ _ _ _ _ S1 S2) as S. apply wp_gets. case_bool_decide; cbn [when].
    + eapply wp_mono; [apply (reason_put _ _ _ (w_g w)); [done|exact S|by right]|]. by intros [a w'] ?.
    + cbn [wp mret M_ret fst snd]. split; [by apply reason_soft|done].
  - apply wp_gets. destruct (_ && _); cbn [when]; [|done].
    eapply wp_mono; [apply (reason_put _ _ _ (w_g w)); [done|apply soft_refl|by right]|]. by intros [a w'] ?.
Qed.

(** What new addresses lead to; [b] tells whether an uplink is being selected. *)
Inductive addressed (b : bool) (g g' : G) : Prop :=
| addressed_redir : new_redir g = true -> new_redir g' = false -> part T g g' -> ovs_next (connected g) (state g') ->
    (used g = true -> used g' = true) -> addressed b g g'
| addressed_manager : new_manager g = true -> part T g g' -> state g' = CM2_STATE_TRY_RESOLVE -> dest g' = CM2_DEST_MANAGER ->
    new_manager g' = true -> used g' = used g -> retry_set g' = retry_set g ->
    (state g = CM2_STATE_TRY_RESOLVE \/ state_changed g' = true) -> addressed b g g'
| addressed_none : g' = g -> (state g = CM2_STATE_TRY_CONNECT -> b = false -> new_redir g = false) ->
    (state g <> CM2_STATE_CONNECTED -> new_manager g = false) -> addressed b g g'.
Lemma put_keep {A} (f : G -> A) s t g : f (set state_changed true (set timestamp t (set state s g))) = f g -> f (put s t g) = f g.
Proof. intros E. unfold put. by case_bool_decide. Qed.
Lemma clear_redir g : good g -> drops g (upd addr_redirector (set updated false) g) /\ new_redir (upd addr_redirector (set updated false) g) = false.
Proof.
  intros Hg. split; [|done]. change (upd addr_redirector (set updated false) g) with (upd_addr CM2_DEST_REDIR (fun _ => set updated false (addr_redirector g)) g).
  apply drops_addr; try done; cbn; discriminate.
Qed.
Lemma set_state_moves (S : cm2_state_e -> Prop) (g : G) ok s w : soft_rel False T g (w_g w) -> S s ->
  wp nf (cm2_set_state ok s w) (fun aw => moves T False S g (w_g aw.2)).
Proof using Hclock.
  intros Sg HS. apply (set_state_put T Hclock). intros t w' Ht E. exists (w_g w), s, t. cbn [snd]. rewrite <- E.
  split; [done|]. split; [done|]. split; [done|]. apply soft_refl.
Qed.
Lemma ovs_connect_moves (w : world R) : ~ pending_vtag (w_g w) ->
  wp nf (cm2_ovs_connect w) (fun aw => moves T False (ovs_next (connected (w_g w))) (w_g w) (w_g aw.2)).
Proof using Hclock.
  intros Hv. unfold cm2_ovs_connect. apply wp_gets. apply (wp_soft False T); [soft|done|]. intros _ w1 S1. change (id (w_g w)) with (w_g w).
  destruct (negb _); [apply set_state_moves; [done|by left]|]. destruct (connected (w_g w)); [|apply set_state_moves; [done|by left]].
  destruct (skip_reconnect _); [apply set_state_moves; [done|by right; right]|].
  apply (wp_soft False T); [soft|by eapply soft_not_pending|]. intros _ w2 S2. apply set_state_moves; [by eapply soft_trans|by right; left].
Qed.
Lemma on_addresses_spec b w : good (w_g w) -> wp nf (on_addresses b w) (fun aw => addressed b (w_g w) (w_g aw.2)).
Proof using Cfg Hclock ResolverTerm0.
  intros Hg. unfold on_addresses. apply wp_gets. change (id (w_g w)) with (w_g w). destruct (_ && valid (addr_redirector (w_g w))) eqn:Er.
  - apply andb_prop in Er as [Er Hv]. apply andb_prop in Er as [_ Hu].
    apply wp_M_bind. eapply wp_mono; [apply ovs_connect_moves, Hg|].
    { intros [a w1] Hm. cbn [wp modify fst snd]. pose proof (moves_part _ _ _ _ _ Hg Hm) as P1.
      destruct (clear_redir _ (part_good _ _ _ P1)) as [D Hn]. destruct (moves_state _ _ _ _ _ Hm) as (s & HS & Es & _ & _ & Hus).
      apply addressed_redir.
      * unfold new_redir. by rewrite Hu, Hv.
      * exact Hn.
      * eapply part_trans; [exact P1|]. by apply drops_part.
      * refine (eq_ind_r _ HS (eq_trans (drops_state _ _ D) Es)).
      * intros Hx. exact (eq_trans (drops_used _ _ D) (Hus Hx)). }
  - destruct (negb _ && updated (addr_manager (w_g w)) && valid (addr_manager (w_g w))) eqn:Em; cbn [when].
    + apply andb_prop in Em as [Em Hv]. apply andb_prop in Em as [_ Hu].
      apply wp_M_bind, (set_state_put T Hclock). intros t w1 Ht E1. cbn [fst snd].
      pose proof (put_part T CM2_STATE_TRY_RESOLVE t _ Hg Ht) as P1. rewrite <- E1 in P1.
      eapply wp_mono; [apply set_dst_spec, P1|]. intros [a w2] (D & Ed & El & Esc & En). cbn [snd] in *. injection En as En1 _.
      assert (new_manager (w_g w1) = new_manager (w_g w)) as En0 by (rewrite E1; by apply (put_keep new_manager)).
      assert (new_manager (w_g w) = true) as Hm by (unfold new_manager; by rewrite Hu, Hv).
      apply addressed_manager; try congruence.
      * eapply part_trans; [exact P1|]. by apply drops_part.
      * rewrite (drops_state _ _ D), E1. apply put_state.
      * rewrite (drops_used _ _ D), E1. by apply put_keep.
      * unfold retry_set. rewrite El, E1. by apply (put_keep retry_set).
      * rewrite Esc, E1. unfold put. destruct (decide (state (w_g w) = CM2_STATE_TRY_RESOLVE)) as [E|E]; [by left|right].
        by rewrite bool_decide_false.
    + apply addressed_none; [done| |].
      * intros Es ->. rewrite Es in Er. exact Er.
      * intros Hc. unfold cm2_is_connected_to in Em. rewrite (bool_decide_false (state _ = _)) in Em by done. exact Em.
Qed.

Definition found (v : bool * bool) : Prop := v.1 || v.2 = true.
(** The switch ends the call, or is done with [ends]; the two locals are set only in [WAN_IP]. *)
Definition switched (v : bool * bool) (g : G) (ret : bool) (v' : bool * bool) (g' : G) : Prop :=
  ret = true \/ (ends T g g' /\ (state g = CM2_STATE_TRY_RESOLVE -> served g g') /\
    (found v' -> found v \/ (used g' = true /\ state g = CM2_STATE_WAN_IP /\ state g' = CM2_STATE_NTP_CHECK))).
Lemma switched_keep (m : M bool) v w : state (w_g w) <> CM2_STATE_TRY_RESOLVE -> rounds w m ->
  wp nf ((b ← m; mret (b, v)) w) (fun rw => switched v (w_g w) rw.1.1 rw.1.2 (w_g rw.2)).
Proof.
  intros Hs Hm. apply wp_M_bind. eapply wp_mono; [exact Hm|]. intros [r w'] [Hr|He]; [by left|]. right. cbn [wp mret M_ret fst snd] in *.
  split; [done|]. split; [done|by left].
Qed.
Lemma on_state_spec up v w : good (w_g w) ->
  (state (w_g w) = CM2_STATE_TRY_CONNECT -> updated (cm2_curr_addr (w_g w)) = false) ->
  (state (w_g w) = CM2_STATE_TRY_RESOLVE -> new_manager (w_g w) = true -> dest (w_g w) = CM2_DEST_MANAGER) ->
  (found v -> state (w_g w) <> CM2_STATE_WAN_IP) ->
  wp nf (on_state update_state up v w) (fun rw => switched v (w_g w) rw.1.1 rw.1.2 (w_g rw.2)).
Proof using Hclock Hmac ResolverTerm0.
  intros Hg Htc Htr Hv. unfold on_state. apply wp_gets. cbv zeta. destruct (state (w_g w)) eqn:Es;
    try (apply switched_keep; [congruence|]).
  - apply round_init; auto.
  - by apply round_link_sel.
  - assert (v = (false, false)) as ->.
    { destruct v as [v4 v6]. destruct v4, v6; try done; by destruct Hv. }
    apply wp_M_bind. eapply wp_mono; [by apply round_wan_ip|]. intros [v' w'] [He Hf]. cbn [wp mret M_ret fst snd] in *. right.
    split; [done|]. split; [congruence|]. intros Hv'. right. by destruct (Hf Hv').
  - by apply round_ntp_check.
  - by apply round_ovs_init.
  - apply wp_M_bind. eapply wp_mono; [apply round_try_resolve; auto|]. intros [r w'] [Hr|[He Hs]]; [by left|]. right. cbn [wp mret M_ret fst snd] in *. auto.
  - by apply round_re_connect.
  - apply round_try_connect; auto.
  - by apply round_fast_reconnect.
  - by apply round_fast_reconnect_wait.
  - by apply round_connected.
  - apply round_init; auto.
  - by apply round_quiesce.
Qed.

Lemma unhandled_spec w : good (w_g w) ->
  wp nf (unhandled_timeout update_state w) (fun aw => shift (w_g w) (w_g aw.2) /\ (calm_state T (w_g w) -> w_g aw.2 = w_g w)).
Proof using Hclock Hmac.
  intros Hg. unfold unhandled_timeout. apply wp_M_bind. eapply wp_mono; [apply none_nf, (timeout_spec T Hclock)|].
  intros [to w1] [E1 Hto]. cbn [fst snd] in *. destruct to; cbn [when].
  - rewrite <- E1 in Hg. apply (wp_soft False T); [soft|apply Hg|]. intros _ w2 S2.
    apply (wp_soft False T); [soft|eapply soft_not_pending; [exact S2|apply Hg]|]. intros _ w3 S3. pose proof (soft_trans _ _ _ _ _ S2 S3) as S.
    pose proof (shift_soft _ _ _ Hg S) as Sh. apply (set_state_put T Hclock). intros t w4 Ht E4. cbn [snd]. rewrite E4, <- E1.
    split; [eapply shift_trans; [exact Sh|]; apply shift_put; [apply Sh|done|done]|]. intros [Hi Hq]. rewrite E1 in Hi, Hq. discriminate (Hto Hi Hq).
  - cbn [wp mret M_ret fst snd]. rewrite E1. split; [by apply shift_refl|done].
Qed.

(** *** A round *)

(** The locals are set only while the used uplink leads on. *)
Definition led (v : bool * bool) (g : G) : Prop := found v -> used g = true /\ rank g <= 18.
Lemma rank_kept (g g' : G) : ends T g g' -> calm_state T g -> used g = true -> rank g <= 18 -> rank g' <= 18.
Proof.
  intros He Hc Hu Hr. destruct (ends_rank _ _ _ He Hc) as [Es|]; [|lia].
  rewrite (live_rank g g'); [done|done|apply He|]. by rewrite (ends_used _ _ _ He).
Qed.
Lemma rank_addressed b g g' : addressed b g g' -> rank g <= 18 -> rank g' <= 18.
Proof.
  intros [_ _ P Hn _|_ P Es _ _ _ _ _| -> _ _] Hr; [| |done].
  - unfold rank. rewrite (part_connected _ _ _ P). destruct Hn as [-> |[-> |[-> ->]]]; cbn; try lia. destruct (live g'); lia.
  - unfold rank. rewrite Es. cbn. lia.
Qed.
Lemma used_addressed b g g' : addressed b g g' -> used g = true -> used g' = true.
Proof. intros [? ? ? ? Hu|? ? ? ? ? Hu ? ?| -> ? ?]; congruence || auto. Qed.
Lemma addressed_part b g g' : good g -> addressed b g g' -> part T g g'.
Proof. intros Hg [| | -> _ _]; [done..|]. split; [done|by left|done|apply no_new_refl]. Qed.
Lemma addressed_shift b g g' : good g -> addressed b g g' -> shift g g'.
Proof.
  intros Hg Ha. apply part_shift; [by eapply addressed_part|]. destruct Ha as [_ _ _ [-> |[-> |[_ ->]]] _|_ _ -> _ _ _ _ _| -> _ _]; done.
Qed.
(** A round that starts with a fresh time and goes on lowers the measure. *)
Lemma measure_round b g g2 v ret v' g3 : good g -> addressed b g g2 -> switched v g2 ret v' g3 -> ret = false -> calm_state T g ->
  state g3 <> state g -> measure g3 < measure g.
Proof.
  intros Hg Ha [Hr|(He & Hs & _)] Hret Hc Hne; [congruence|]. pose proof (part_no_new _ _ _ (addressed_part _ _ _ Hg Ha)) as N2.
  pose proof (part_no_new _ _ _ (ends_part _ _ _ He)) as N3. pose proof (no_new_trans _ _ _ N2 N3) as N.
  pose proof (shift_calm _ _ (addressed_shift _ _ _ Hg Ha) Hc) as Hc2.
  assert (state g2 = state g -> rank g2 = rank g -> measure g3 < measure g) as Hdown.
  { intros Es Er. apply measure_rank; [done|]. rewrite <- Er. destruct (ends_rank _ _ _ He Hc2); congruence. }
  destruct Ha as [Hn Hn2 _ _ _|Hm P Es _ Hm2 Hu Hrs Hch| -> _ _]; [| |by apply Hdown].
  - apply measure_redir; [done|]. destruct (new_redir g3) eqn:E3; [|done]. apply N3 in E3. congruence.
  - specialize (Hs Es Hm2). destruct (decide (state_changed g2 = true \/ retry_set g2 = true)) as [Hd|Hd].
    + apply measure_manager; [apply N|done|]. rewrite <- Hrs. auto.
    + destruct Hch as [Eg|]; [|tauto]. apply Hdown; [congruence|]. apply live_rank; [congruence|apply P|done].
Qed.

Lemma not_updated (g : G) : good g ->
  new_redir g = false -> new_manager g = false -> updated (cm2_curr_addr g) = false.
Proof.
  intros [_ Hu] Hr Hm. destruct (updated (cm2_curr_addr g)) eqn:E; [|done]. unfold cm2_curr_addr in E. pose proof (Hu _ E) as Hv.
  destruct (dest g); cbn [cm2_get_addr] in *; unfold new_redir, new_manager in *; by rewrite E, Hv in *.
Qed.
Lemma once_spec r v w : good (w_g w) -> r <> CM2_REASON_SET_NEW_VTAG -> (found v -> r = CM2_REASON_CHANGE /\ calm_state T (w_g w)) -> led v (w_g w) ->
  wp nf (update_once update_state r v w) (fun rw => rw.1.1 = true -> good (w_g rw.2) /\ calm_state T (w_g rw.2) /\ led rw.1.2 (w_g rw.2) /\
    (r = CM2_REASON_CHANGE -> calm_state T (w_g w) -> measure (w_g rw.2) < measure (w_g w))).
Proof using Hclock Hmac ResolverTerm0.
  intros Hg Hr Hvr Hled. unfold update_once, cm2_log_state, call_. apply wp_call.
  set (w0 := upd w_log _ (upd w_tick S w)). change (w_g w) with (w_g w0) in *. clearbody w0. clear w. rename w0 into w.
  apply wp_gets. change (id (w_g w)) with (w_g w). destruct (_ || _); [done|]. cbv zeta.
  match goal with |- context [on_addresses ?x] => set (b := x) end.
  assert (state (w_g w) = CM2_STATE_TRY_CONNECT -> b = false) as Hb by (unfold b; by intros ->). clearbody b.
  apply wp_M_bind. eapply wp_mono; [by apply on_reason_spec|]. intros [a1 w1] [[Sh1 Hs1] Hch]. cbn [fst snd] in *.
  pose proof (shift_good _ _ Sh1) as Hg1. apply wp_M_bind. eapply wp_mono; [by apply on_addresses_spec|]. intros [a2 w2] Ha. cbn [fst snd] in *.
  pose proof (addressed_shift _ _ _ Hg1 Ha) as Sh2. apply wp_M_bind. eapply wp_mono; [apply (on_state_spec _ v)|].
  - apply Sh2.
  - intros Es. destruct Ha as [_ _ _ [Hx|[Hx|[_ Hx]]] _|_ _ Hx _ _ _ _ _|E Hr1 Hm1]; try congruence. rewrite E in *.
    assert (b = false) as Eb by (apply Hb; destruct Hs1 as [Hs1|[Hs1|Hs1]]; congruence).
    apply not_updated; auto. apply Hm1. congruence.
  - intros Es Hn. destruct Ha as [_ _ _ [Hx|[Hx|[_ Hx]]] _|_ _ _ Hd _ _ _ _|E Hr1 Hm1]; try congruence. rewrite E in *.
    rewrite Hm1 in Hn; congruence.
  - intros Hv Es. destruct (Hvr Hv) as [Hc _]. destruct (Hled Hv) as [Hu Hrk]. rewrite <- (Hch Hc) in Hu, Hrk.
    pose proof (used_addressed _ _ _ Ha Hu) as Hu2. pose proof (rank_addressed _ _ _ Ha Hrk) as Hrk2. revert Hrk2. unfold rank, live. by rewrite Es, Hu2.
  - intros [[ret v'] w3] Hsw. cbn [fst snd] in *. destruct ret; [done|].
    assert (ends T (w_g w2) (w_g w3) /\ (found v' -> found v \/ (used (w_g w3) = true /\ state (w_g w2) = CM2_STATE_WAN_IP /\ state (w_g w3) = CM2_STATE_NTP_CHECK))) as [He Hf]
      by (destruct Hsw as [|(He & _ & Hf)]; done).
    pose proof (part_shift _ _ (ends_part _ _ _ He) (ends_quiesce _ _ _ He)) as Sh3. apply wp_M_bind.
    eapply wp_mono; [apply unhandled_spec, Sh3|]. intros [a4 w4] [Sh4 Hc4]. apply wp_gets. cbn [wp mret M_ret fst snd] in *.
    intros Hne%bool_decide_eq_true. pose proof (shift_trans _ _ _ (shift_trans _ _ _ Sh1 Sh2) Sh3) as Sh.
    assert (calm_state T (w_g w) -> calm_state T (w_g w3)) as Hc3 by apply (shift_calm _ _ Sh).
    split; [apply Sh4|]. split; [exact (shift_changed _ _ (shift_trans _ _ _ Sh Sh4) Hne)|]. split.
    + intros Hv'. destruct (Hf Hv') as [Hv|(Hu3 & E2 & E3)].
      * destruct (Hvr Hv) as [Hc Hcg]. destruct (Hled Hv) as [Hu Hrk]. rewrite (Hc4 (Hc3 Hcg)). rewrite <- (Hch Hc) in Hu, Hrk.
        pose proof (used_addressed _ _ _ Ha Hu) as Hu2. pose proof (rank_addressed _ _ _ Ha Hrk) as Hrk2.
        split; [by apply (ends_used _ _ _ He)|]. apply (rank_kept (w_g w2)); try done. exact (shift_calm _ _ (shift_trans _ _ _ Sh1 Sh2) Hcg).
      * rewrite Hc4 by (apply (shift_changed _ _ Sh3); congruence). split; [done|]. unfold rank. by rewrite E3.
    + intros Hc Hcg. rewrite (Hc4 (Hc3 Hcg)) in *. rewrite (Hch Hc) in *. by eapply measure_round.
Qed.
End States.

(** ** The loop *)
Section Loop.
Context {R : Type} `{Cm2Env} {Cfg : Cm2Cfg} `{!Resolver R} `{!ResolverTerm R}.
Context (T : Z) (Hclock : forall n, T <= env_time n < T + 10) (Hmac : lan_set_local_mac = false).
Notation M := (M R).

Lemma loop_rest n v w : good (w_g w) -> calm_state T (w_g w) -> led v (w_g w) -> measure (w_g w) < Z.of_nat n ->
  wp nf (update_loop n CM2_REASON_CHANGE v w) (fun _ => True).
Proof using Hclock Hmac ResolverTerm0.
  revert v w. induction n as [|n IH]; intros v w Hg Hc Hl Hm; [pose proof (measure_range (w_g w)); lia|]. cbn [update_loop].
  apply wp_M_bind. eapply wp_mono; [by apply (once_spec T Hclock _ Hmac)|]. intros [[again v'] w'] Ho. cbn [fst snd] in *.
  destruct again; [|done]. destruct (Ho eq_refl) as (Hg' & Hc' & Hl' & Hm'). apply IH; try done. specialize (Hm' eq_refl Hc). lia.
Qed.
Lemma update_rest n r w : good (w_g w) -> r <> CM2_REASON_SET_NEW_VTAG -> (513 <= n)%nat -> wp nf (cm2_update_state n r w) (fun _ => True).
Proof using Hclock Hmac ResolverTerm0.
  intros Hg Hr Hn. unfold cm2_update_state. destruct n as [|n]; [lia|]. cbn [update_loop]. apply wp_M_bind.
  eapply wp_mono; [by apply (once_spec T Hclock _ Hmac)|]. intros [[again v'] w'] Ho. cbn [fst snd] in *.
  destruct again; [|done]. destruct (Ho eq_refl) as (Hg' & Hc' & Hl' & _). apply loop_rest; try done.
  pose proof (measure_range (w_g w')). lia.
Qed.
End Loop.

(** ** Both resolvers keep the flags *)
Section Mild.
Context {R : Type} `{Cm2Env}.
Notation M := (M R).
Notation G := (cm2_state_t R).

(** No address becomes new; under [L] the flags and the link stay as they are. *)
Definition mild_rel (L : Prop) (g g' : G) : Prop :=
  core g' = core g /\ (forall d, updated (cm2_get_addr d g') = true -> updated (cm2_get_addr d g) = true) /\
  (L -> link g' = link g /\ forall d, updated (cm2_get_addr d g') = updated (cm2_get_addr d g)).
Definition mild {A} (L : Prop) (m : M A) : Prop := forall w, wp nf (m w) (fun aw => mild_rel L (w_g w) (w_g aw.2)).
Lemma mild_refl L g : mild_rel L g g.
Proof. by repeat split. Qed.
Lemma mild_trans L g1 g2 g3 : mild_rel L g1 g2 -> mild_rel L g2 g3 -> mild_rel L g1 g3.
Proof.
  intros (A1 & B1 & C1) (A2 & B2 & C2). split; [congruence|]. split; [auto|]. intros HL.
  destruct (C1 HL) as [D1 E1], (C2 HL) as [D2 E2]. split; [congruence|]. intros d. by rewrite E2.
Qed.
Lemma mild_bind {A B} L (m : M A) (k : A -> M B) : mild L m -> (forall a, mild L (k a)) -> mild L (m ≫= k).
Proof.
  intros Hm Hk w. apply wp_M_bind. eapply wp_mono; [apply Hm|]. intros [a w1] R1. eapply wp_mono; [apply Hk|]. intros [b w2] R2.
  by eapply mild_trans.
Qed.
Lemma mild_ret {A} L (a : A) : mild L (mret a).
Proof. intros w. apply mild_refl. Qed.
Lemma mild_gets {A} L (f : G -> A) : mild L (gets f).
Proof. intros w. apply mild_refl. Qed.
Lemma mild_call {A} L a (f : nat -> A) : mild L (call a f).
Proof. intros w. apply mild_refl. Qed.
Lemma mild_when L b (m : M ()) : mild L m -> mild L (when b m).
Proof. intros Hm. destruct b; [done|apply mild_ret]. Qed.
Lemma mild_lift {A} L (m : res A) : wp nf m (fun _ => True) -> mild L (lift m).
Proof. intros Hm w. unfold lift. destruct m; [apply mild_refl|exact Hm]. Qed.
Lemma mild_modify L f : (forall g, mild_rel L g (f g)) -> mild L (modify f).
Proof. intros Hf w. apply Hf. Qed.
(** The resolver's own fields of an address. *)
Lemma mild_own L d f : mild L (modify (upd_addr d (upd a_res f))).
Proof. apply mild_modify. intros g. by destruct d; repeat split; try (by intros []). Qed.
Lemma mild_deref {A} L (o : option A) : mild L (lift (deref o)).
Proof. apply mild_lift. by destruct o. Qed.
End Mild.
Ltac mild_step :=
  match goal with
  | |- mild _ (mbind _ _) => apply mild_bind; [|intros ?]
  | |- mild _ (mret _) => apply mild_ret
  | |- mild _ (gets _) => apply mild_gets
  | |- mild _ (call _ _) => apply mild_call
  | |- mild _ (call_ _) => apply mild_call
  | |- mild _ (when _ _) => apply mild_when
  | |- mild _ (lift (deref _)) => apply mild_deref
  | |- mild _ (modify (upd_addr _ (upd a_res _))) => apply mild_own
  | |- mild _ (if ?b then _ else _) => destruct b
  | |- mild _ (match ?x with _ => _ end) => destruct x
  | |- mild _ (let _ := _ in _) => cbv zeta
  end.
Ltac mild := repeat mild_step.

(** Of [mild True], for the functions that write a target. *)
Lemma mild_same `{Cm2Env} {R A} (m : M R A) : mild True m -> forall w, wp nf (m w) (fun aw => core (w_g aw.2) = core (w_g w) /\
  link (w_g aw.2) = link (w_g w) /\ forall d, updated (cm2_get_addr d (w_g aw.2)) = updated (cm2_get_addr d (w_g w))).
Proof. intros Hm w. eapply wp_mono; [apply Hm|]. intros [a w'] (Ec & _ & Hk). split; [done|]. by apply Hk. Qed.
Lemma mild_flags {R} L d (f : cm2_addr_t R -> cm2_addr_t R) : (forall a, strip (f a) = strip a /\ (updated (f a) = true -> updated a = true)) -> ~ L ->
  forall g, mild_rel L g (upd_addr d f g).
Proof.
  intros Hf HL g. destruct (Hf (cm2_get_addr d g)) as [E1 E2]. split; [|split; [|done]].
  - destruct d; unfold core; cbn [upd_addr upd addr_redirector addr_manager cm2_get_addr] in *; by rewrite E1.
  - intros d'. by destruct d, d'.
Qed.

Module SyncTerm.
Import Sync.
Section SyncTerm.
Context `{Cm2Env}.
Lemma mild_next : mild True next_addrinfo.
Proof. unfold next_addrinfo. mild. Qed.
Lemma mild_write i : mild True (sync_write_target_addr i).
Proof. unfold sync_write_target_addr, cm2_ovsdb_set_Manager_target. mild. Qed.
#[export] Instance sync_term : ResolverTerm ai.
Proof.
  split.
  - done.
  - done.
  - intros d w. cbn [cm2_resolve sync_resolver]. unfold sync_resolve. apply wp_modify. set (w1 := upd w_g _ w).
    assert (mild_rel False (w_g w) (w_g w1)) as R1 by (apply mild_flags; [by split|by intros []]).
    assert (updated (cm2_get_addr d (w_g w1)) = false) as U1 by by destruct d.
    match goal with |- wp _ (?m w1) _ => assert (mild False m) as Hm end.
    { mild; first [by apply mild_lift|apply mild_modify, mild_flags; [by split|by intros []]]. }
    eapply wp_mono; [apply Hm|]. intros [b w'] R2. destruct (mild_trans _ _ _ _ R1 R2) as (Ec & Hu & _). split; [done|]. split; [done|].
    intros _ U. apply R2 in U. cbn [fst snd] in *. congruence.
  - done.
  - apply mild_same. cbn [cm2_write_current_target_addr sync_resolver]. unfold sync_write_current_target_addr. mild; [apply mild_next|apply mild_write].
  - apply mild_same. cbn [cm2_write_next_target_addr sync_resolver]. unfold sync_write_next_target_addr. mild; [apply mild_next|apply mild_write].
  - apply mild_same. exact (mild_ret True ()).
Qed.
End SyncTerm.
End SyncTerm.

Module AresTerm.
Import Ares.
Section AresTerm.
Context `{Cm2Env}.
Lemma entry_nf a i : wp nf (entry a i) (fun _ => True).
Proof. unfold entry. by destruct (_ && _). Qed.
Lemma validate_nf k l v6 : wp nf (cm2_validate_target_addr k l v6) (fun _ => True).
Proof.
  unfold cm2_validate_target_addr. destruct (_ || _); [done|]. destruct (h_addr_list l) as [a|]; [|done].
  pose proof (entry_nf a (h_cur_idx l)). by destruct (entry a _) as [[]|].
Qed.
Lemma free_nf l : wp nf (cm2_util_free_addr_list l) (fun _ => True).
Proof. unfold cm2_util_free_addr_list. destruct (h_addr_list l) as [a|]; [|done]. by destruct a. Qed.
Lemma free_both_nf r : wp nf (ares_free_addr_list r) (fun _ => True).
Proof.
  unfold ares_free_addr_list. pose proof (free_nf (ipv6_addr_list r)). destruct (cm2_util_free_addr_list _); [|done].
  pose proof (free_nf (ipv4_addr_list r)). cbn [mbind res_bind]. by destruct (cm2_util_free_addr_list (ipv4_addr_list r)).
Qed.
Lemma mild_pick : mild True cm2_pick_next_addr.
Proof. unfold cm2_pick_next_addr. mild; apply mild_lift, validate_nf. Qed.
Lemma mild_write_target : mild True cm2_write_target_addr.
Proof.
  unfold cm2_write_target_addr, cm2_ovsdb_set_Manager_target. mild; [apply mild_lift, entry_nf|].
  apply mild_modify. intros g. split; [done|]. split; [by intros []|]. intros _. by split; [|intros []].
Qed.
Lemma mild_current : mild True ares_write_current_target_addr.
Proof. unfold ares_write_current_target_addr. mild; [apply mild_pick|apply mild_write_target]. Qed.
Lemma mild_move : mild True ares_move_next_target_addr.
Proof. unfold ares_move_next_target_addr. mild. Qed.
(** The retry flags of the link may change. *)
Lemma mild_retry (f : cm2_main_link_t -> cm2_main_link_t) :
  (forall k, upd ipv4 (set resolve_retry false) (upd ipv6 (set resolve_retry false) (f k)) =
             upd ipv4 (set resolve_retry false) (upd ipv6 (set resolve_retry false) k)) -> mild False (modify (upd link f) : M ares ()).
Proof.
  intros Hf. apply mild_modify. intros g. split; [|split; [by intros []|done]]. unfold core. cbn [upd link]. by rewrite (Hf (link g)).
Qed.
Lemma mild_cb d v6 st h : mild False (cm2_ares_host_cb d v6 st h).
Proof. unfold cm2_ares_host_cb, on_ares_list. mild; by apply mild_retry. Qed.
Lemma mild_query d v6 : mild False (start_query d v6).
Proof. unfold start_query, ares_gethostbyname, on_ares_list. mild. apply mild_cb. Qed.
Lemma mild_chan b : mild False (modify (set chan_initialized b) : M ares ()).
Proof. apply mild_modify. intros g. split; [done|]. split; [by intros []|done]. Qed.
Lemma mild_start : mild False cm2_start_ares_resolve.
Proof. unfold cm2_start_ares_resolve, evx_start_ares. mild. apply mild_chan. Qed.
Lemma mild_timeout : mild False ares_resolve_timeout.
Proof. unfold ares_resolve_timeout, end_query. mild; try apply mild_cb. apply mild_chan. Qed.
#[export] Instance ares_term : ResolverTerm ares.
Proof.
  split.
  - apply free_both_nf.
  - intros d g. destruct d; repeat split; by intros [].
  - intros d w. cbn [cm2_resolve ares_resolver]. unfold ares_resolve. apply wp_gets, wp_gets. cbv zeta. set (k := link (w_g w)).
    assert (mild False (clear_retry : M ares ())) as Hclear by by apply mild_retry.
    destruct (_ || _) eqn:Eskip.
    + unfold clear_retry. apply wp_modify. cbn [wp mret M_ret fst snd]. destruct (Hclear w) as (Ec & Hu & _). cbn [fst snd] in *.
      split; [exact Ec|]. split; [exact Hu|]. intros _ _. split; [|done]. unfold retry_set.
      apply orb_prop in Eskip as [Ek|Ek]; apply andb_prop in Ek as [Ek _]; apply andb_prop in Ek as [Ek _]; fold k; rewrite Ek; [done|apply orb_true_r].
    + unfold clear_retry. apply wp_modify. pose proof (Hclear w) as R1. cbn [wp clear_retry modify snd] in R1. set (w1 := upd w_g _ w) in *.
      destruct (in_progress _ || _); [by destruct R1 as (? & ? & _)|]. apply wp_modify. set (w2 := upd w_g _ w1).
      assert (mild_rel False (w_g w1) (w_g w2)) as R2 by (apply mild_flags; [by split|by intros []]).
      assert (updated (cm2_get_addr d (w_g w2)) = false) as U2 by by destruct d.
      pose proof (mild_trans _ _ _ _ R1 R2) as R12. clearbody w2.
      match goal with |- wp _ (?m w2) _ => assert (mild False m) as Hm end.
      { mild; try (by apply mild_query); [apply mild_start|apply mild_lift, free_both_nf]. }
      eapply wp_mono; [apply Hm|]. intros [b w'] R3. destruct (mild_trans _ _ _ _ R12 R3) as (Ec & Hu & _). split; [done|]. split; [done|].
      intros _ U. apply R3 in U. cbn [fst snd] in *. congruence.
  - intros w. eapply wp_mono; [apply mild_timeout|]. by intros [a w'] (Ec & _).
  - apply mild_same, mild_current.
  - apply mild_same. cbn [cm2_write_next_target_addr ares_resolver]. unfold ares_write_next_target_addr. mild; [apply mild_move|apply mild_current].
  - apply mild_same, mild_move.
Qed.
End AresTerm.
End AresTerm.
