(* ===== verification/Cm2Tidy.v ===== *)
(** * Cm2Tidy: a new address is a valid one

    Throughout a run of the connection manager, an address is marked [updated] only while it is
    [valid]: the callback of [AWLAN_Node] sets the mark to the result of parsing, and nothing
    else sets it or makes an address invalid without clearing it. *)
From S2P Require Import Prelude CString Cm2State Cm2Resolve Cm2Link Cm2Event Cm2Inv Cm2ResolveSpec Cm2Term Cm2Rest.
Open Scope Z_scope.
Import Ares AresTerm.

Notation anyf := (fun _ : fault => True).
Lemma anyf_mono E {A} (m : res A) Q : wp E m Q -> wp anyf m Q.
Proof. by destruct m. Qed.

Section Tidy.
Context {R : Type}.
Notation M := (M R).
Notation G := (cm2_state_t R).

Definition new_valid (g : G) : Prop := forall d, updated (cm2_get_addr d g) = true -> valid (cm2_get_addr d g) = true.
Definition tidy {A} (m : M A) : Prop := forall w, new_valid (w_g w) -> wp anyf (m w) (fun aw => new_valid (w_g aw.2)).

Lemma tidy_bind {A B} (m : M A) (k : A -> M B) : tidy m -> (forall a, tidy (k a)) -> tidy (m ≫= k).
Proof. intros Hm Hk w Hw. apply wp_M_bind. eapply wp_mono; [by apply Hm|]. intros [a w'] Hw'. by apply Hk. Qed.
Lemma tidy_when b (m : M ()) : tidy m -> tidy (when b m).
Proof. intros Hm. destruct b; [done|]. by intros w Hw. Qed.
Lemma tidy_keeps {A} (m : M A) : keeps m -> tidy m.
Proof.
  intros Hm w Hw. eapply anyf_mono, wp_mono; [apply Hm|]. intros [a w'] [Hk _]. unfold key in Hk. injection Hk as _ _ _ E1 E2 _ _ _ _.
  intros d. specialize (Hw d). destruct d; cbn [cm2_get_addr snd] in *; by rewrite ?E1, ?E2.
Qed.
Lemma tidy_modify f : (forall g, new_valid g -> new_valid (f g)) -> tidy (modify f).
Proof. intros Hf w Hw. by apply Hf. Qed.
(** Updates that leave the addresses alone. *)
Lemma tidy_same f : (forall g, addr_redirector (f g) = addr_redirector g /\ addr_manager (f g) = addr_manager g) -> tidy (modify f).
Proof. intros Hf. apply tidy_modify. intros g Hg d. specialize (Hg d). destruct (Hf g) as [E1 E2]. destruct d; cbn [cm2_get_addr] in *; by rewrite ?E1, ?E2. Qed.
Lemma tidy_addr d f : (forall a, updated (f a) = true -> (updated a = true -> valid a = true) -> valid (f a) = true) -> tidy (modify (upd_addr d f)).
Proof. intros Hf. apply tidy_modify. intros g Hg d'. pose proof (Hg d'). destruct d, d'; cbn [cm2_get_addr upd_addr upd addr_redirector addr_manager] in *; auto. Qed.
Lemma tidy_call {A} a (f : nat -> A) : tidy (call a f : M A).
Proof. by intros w Hw. Qed.
Lemma tidy_fail {A} f : tidy (fail f : M A).
Proof. by intros w _. Qed.
Lemma tidy_mild `{Cm2Env} {A} L (m : M A) : mild L m -> tidy m.
Proof.
  intros Hm w Hw. eapply anyf_mono, wp_mono; [apply Hm|]. intros [a w'] (Ec & Hu & _) d Hd. cbn [snd] in *.
  destruct (core_flags _ _ Ec) as (_ & Ev & _). rewrite Ev. by apply Hw, Hu.
Qed.
End Tidy.

Create HintDb tidy.
Ltac tidy_step :=
  match goal with
  | |- tidy (mbind _ _) => apply tidy_bind; [|intros ?]
  | |- tidy (when _ _) => apply tidy_when
  | |- tidy (call_ _) => apply tidy_call
  | |- tidy (fail _) => apply tidy_fail
  | |- tidy (modify _) => apply tidy_same; intros ?; split; reflexivity
  | |- tidy _ => solve [eauto with tidy nocore]
  | |- tidy (if ?b then _ else _) => destruct b
  | |- tidy (match ?x with _ => _ end) => destruct x
  | |- tidy (let _ := _ in _) => cbv zeta
  | |- tidy _ => apply tidy_keeps; solve [keeps]
  end.
Ltac tidy := repeat tidy_step.

Section TidyMachine.
Context `{Cm2Env} {Cfg : Cm2Cfg}.
Notation R := Ares.ares.
Notation M := (M R).
Context (update_state : cm2_reason_e -> M ()) (Hupd : forall r, tidy (update_state r)).
Hint Resolve Hupd : tidy.

(** *** The parts that call the machine *)
Lemma tidy_bridge_cfg br i b m l : tidy (cm2_update_bridge_cfg update_state br i b m l).
Proof using Hupd. unfold cm2_update_bridge_cfg. tidy. Qed.
Hint Resolve tidy_bridge_cfg : tidy.
Lemma tidy_clear_used : tidy (cm2_connection_clear_used update_state).
Proof using Hupd. unfold cm2_connection_clear_used. tidy. Qed.
Hint Resolve tidy_clear_used : tidy.
Lemma tidy_set_is_used u : tidy (cm2_connection_set_is_used update_state u).
Proof using Hupd. unfold cm2_connection_set_is_used. tidy. Qed.
Hint Resolve tidy_set_is_used : tidy.
Lemma tidy_recalc b : tidy (cm2_ovsdb_recalc_links update_state b).
Proof using Hupd. unfold cm2_ovsdb_recalc_links. tidy. Qed.
Lemma tidy_vtag_check : tidy (cm2_vtag_stability_check update_state).
Proof using Hupd. unfold cm2_vtag_stability_check. tidy. Qed.
Hint Resolve tidy_recalc tidy_vtag_check : tidy.
Lemma tidy_restart_managers : tidy (cm2_trigger_restart_managers update_state).
Proof using Hupd. unfold cm2_trigger_restart_managers, skip_restart. tidy. Qed.
Hint Resolve tidy_restart_managers : tidy.
Lemma tidy_fatal n : tidy (cm2_stability_handle_fatal_state update_state n).
Proof using Hupd. unfold cm2_stability_handle_fatal_state. tidy. Qed.
Hint Resolve tidy_fatal : tidy.
Lemma tidy_process un o b st cs : tidy (cm2_connection_req_stability_process update_state un o b st cs).
Proof using Hupd. unfold cm2_connection_req_stability_process, check_router, broken_bridge. tidy. Qed.
Hint Resolve tidy_process : tidy.
Lemma tidy_main_check up o b : tidy (main_check update_state up o b).
Proof using Hupd. unfold main_check, cm2_connection_req_stability_check. tidy. Qed.
Hint Resolve tidy_main_check : tidy.

(** *** Addresses *)
Lemma set_addr_valid (a : cm2_addr_t R) x : wp anyf (set_addr_pure a x) (fun ra => updated ra.2 = false /\ valid ra.2 = ra.1).
Proof.
  unfold set_addr_pure, cm2_parse_resource, cm2_clear_addr. destruct (String.eqb x "").
  - by destruct (cm2_free_addr_list _).
  - destruct (parse_uri _ _ _) as [[[[p h] n]|]|]; cbn [mbind res_bind]; [by destruct (cm2_free_addr_list _)| |done].
    destruct (cm2_free_addr_list _); cbn [mbind res_bind]; [by destruct (cm2_free_addr_list _)|done].
Qed.
Lemma set_addr_tidy d x w : new_valid (w_g w) -> wp anyf (cm2_set_addr d x w) (fun vw => new_valid (w_g vw.2) /\
  new_valid (upd_addr d (set updated vw.1) (w_g vw.2))).
Proof.
  intros Hw. unfold cm2_set_addr. apply wp_gets. pose proof (set_addr_valid (cm2_get_addr d (w_g w)) x) as Hs. unfold lift. apply wp_M_bind.
  destruct (set_addr_pure _ x) as [[ret a]|]; [|done]. destruct Hs as [Hu Hv]. cbn [fst snd] in *. cbn [mbind res_bind wp fst snd].
  apply wp_modify. cbn [wp mret M_ret fst snd]. split; intros d'; pose proof (Hw d'); destruct d, d';
    cbn [cm2_get_addr upd_addr upd addr_redirector addr_manager w_g updated valid] in *; try done; congruence.
Qed.
Lemma tidy_new_addr d x : tidy (v ← cm2_set_addr d x; modify (upd_addr d (set updated v)) : M ()).
Proof. intros w Hw. apply wp_M_bind. eapply wp_mono; [by apply set_addr_tidy|]. by intros [v w'] [_ Hv]. Qed.
Lemma tidy_clear_manager : tidy (cm2_clear_manager_addr : M ()).
Proof.
  unfold cm2_clear_manager_addr, cm2_ovsdb_set_AWLAN_Node_manager_addr. tidy. intros w Hw. eapply wp_mono; [by apply set_addr_tidy|]. by intros [v w'] [Hv _].
Qed.
Lemma tidy_dst d : tidy (cm2_set_dst_type d : M ()).
Proof. unfold cm2_set_dst_type. tidy. apply tidy_modify. intros g Hg d'. specialize (Hg d'). by destruct d, d'. Qed.
Lemma tidy_resolve d : tidy (cm2_resolve d : M bool).
Proof.
  intros w Hw. eapply anyf_mono, wp_mono; [apply t_resolve|]. intros [b w'] (Ec & Hu & _) d' Hd. cbn [snd] in *.
  destruct (core_flags _ _ Ec) as (_ & Ev & _). rewrite Ev. by apply Hw, Hu.
Qed.
Lemma tidy_resolve_timeout : tidy (cm2_resolve_timeout : M ()).
Proof. eapply tidy_mild, AresTerm.mild_timeout. Qed.
Lemma tidy_current : tidy (cm2_write_current_target_addr : M bool).
Proof. eapply tidy_mild, AresTerm.mild_current. Qed.
Lemma tidy_move : tidy (cm2_move_next_target_addr : M ()).
Proof. eapply tidy_mild, AresTerm.mild_move. Qed.
Lemma tidy_next : tidy (cm2_write_next_target_addr : M bool).
Proof. apply tidy_bind; [apply tidy_move|intros _; apply tidy_current]. Qed.
Lemma tidy_cb d v6 st h : tidy (Ares.cm2_ares_host_cb d v6 st h).
Proof. eapply tidy_mild, AresTerm.mild_cb. Qed.

(** *** The states *)
Lemma tidy_set_state ok s : tidy (cm2_set_state ok s : M ()).
Proof. unfold cm2_set_state, cm2_reset_time. tidy. Qed.
Lemma tidy_changed : tidy (cm2_state_changed : M bool).
Proof. unfold cm2_state_changed. tidy. Qed.
Hint Resolve tidy_clear_manager tidy_dst tidy_resolve tidy_resolve_timeout tidy_current tidy_next tidy_move tidy_set_state tidy_changed : tidy.
Lemma tidy_ovs_connect : tidy (cm2_ovs_connect : M ()).
Proof. unfold cm2_ovs_connect. tidy. Qed.
Hint Resolve tidy_ovs_connect : tidy.
Lemma tidy_restart ok : tidy (cm2_restart_ovs_connection update_state ok).
Proof using Hupd. unfold cm2_restart_ovs_connection. tidy. Qed.
Hint Resolve tidy_restart : tidy.
Lemma tidy_give_up : tidy (give_up_connecting update_state).
Proof using Hupd. unfold give_up_connecting. tidy. Qed.
Hint Resolve tidy_give_up : tidy.
Lemma tidy_state up v : tidy (on_state update_state up v).
Proof using Hupd.
  unfold on_state, state_init, state_link_sel, state_wan_ip, state_ntp_check, state_ovs_init, state_try_resolve, state_re_connect,
    state_try_connect, connecting, state_fast_reconnect, state_fast_reconnect_wait, state_connected, state_quiesce, cm2_compute_backoff. tidy.
Qed.
Lemma tidy_vtags r : tidy ((if bool_decide (r = CM2_REASON_SET_NEW_VTAG) then cm2_set_new_vtag else cm2_block_vtag) : M bool).
Proof. case_bool_decide; tidy. Qed.
Hint Resolve tidy_vtags : tidy.
Lemma tidy_once r v : tidy (update_once update_state r v).
Proof using Hupd.
  pose proof tidy_state. unfold update_once, on_reason, on_addresses, unhandled_timeout, cm2_log_state. tidy.
  by apply (tidy_addr CM2_DEST_REDIR).
Qed.
End TidyMachine.

(** ** Runs *)
Section TidyRuns.
Context `{Cm2Env} {Cfg : Cm2Cfg}.
Lemma tidy_loop n r v : tidy (update_loop (R := ares) n r v).
Proof.
  revert r v. induction n as [|n IH]; intros r v; [apply tidy_fail|]. cbn [update_loop]. apply tidy_bind; [apply tidy_once; intros r'; apply IH|].
  intros [[|] v']; [apply IH|tidy].
Qed.
Definition tidy_event (e : event (R := ares)) : Prop :=
  match e with EvResolver m => tidy m | EvTables f _ => forall g, key (f g) = key g | _ => True end.
Lemma tidy_handle n (e : event (R := ares)) : tidy_event e -> tidy (handle (R := ares) n e).
Proof.
  intros He. assert (forall r, tidy (cm2_update_state (R := ares) n r)) as Hu by (intros r; apply tidy_loop).
  destruct e as [|u|u|k st| | |m|f r]; cbn [handle tidy_event] in *.
  - unfold cm2_event_cb. tidy.
  - unfold callback_AWLAN_Node. apply tidy_bind; [tidy|]. intros _.
    apply tidy_bind; [destruct (aw_manager_addr u); [apply (tidy_new_addr CM2_DEST_MANAGER)|tidy]|]. intros _.
    apply tidy_bind; [destruct (aw_redirector_addr u); [apply (tidy_new_addr CM2_DEST_REDIR)|tidy]|]. intros _. tidy.
  - unfold callback_Manager. tidy.
  - unfold cm2_util_req_stability_cb. pose proof tidy_process. pose proof (keeps_check_uplink (R := ares)). tidy.
  - apply tidy_keeps. unfold cm2_stability_cb, cm2_connection_stability_check. pose proof (keeps_uplinks (R := ares)). keeps.
  - unfold cm2_update_links_cb. pose proof tidy_recalc. tidy.
  - done.
  - apply tidy_bind; [|intros _; apply Hu]. by apply tidy_keeps, keeps_modify.
Qed.
Lemma tidy_run n es w : Forall tidy_event es -> new_valid (w_g w) -> wp anyf (run_events (R := ares) n es w) (fun aw => new_valid (w_g aw.2)).
Proof.
  intros Hes. revert w. change (tidy (run_events (R := ares) n es)). induction Hes as [|e es He _ IH]; cbn [run_events]; [tidy|].
  apply tidy_bind; [by apply tidy_handle|]. by intros _.
Qed.
End TidyRuns.
