(* ===== verification/Cm2Targets.v ===== *)
(** * Cm2Targets: the order in which resolved addresses are tried

    The c-ares resolver offers every usable address of a resolution exactly once,
    alternating between the families as long as both have one left. *)
From S2P Require Import Prelude CString Cm2State Cm2Resolve Cm2Event Cm2Inv Cm2ResolveSpec.
Open Scope Z_scope.
Import Ares AresSpec.

(** ** The specification *)

(** [true] is IPv6.  The family wanted comes first if it has an address, the other is wanted next. *)
Fixpoint alternate (n : nat) (want6 : bool) (l6 l4 : list (list Z)) : list (bool * list Z) :=
  match n with
  | O => []
  | S n =>
      match want6, l6, l4 with
      | true, x :: l6, _ | false, x :: l6, [] => (true, x) :: alternate n false l6 l4
      | false, _, y :: l4 | true, [], y :: l4 => (false, y) :: alternate n true l6 l4
      | _, [], [] => []
      end
  end.

Lemma alternate_perm n want6 l6 l4 : (length l6 + length l4 <= n)%nat ->
  alternate n want6 l6 l4 ≡ₚ ((true,.) <$> l6) ++ ((false,.) <$> l4).
Proof.
  revert want6 l6 l4. induction n as [|n IH]; intros want6 l6 l4 Hn.
  { by destruct l6, l4; cbn in Hn; try lia. }
  destruct want6, l6 as [|x l6], l4 as [|y l4]; cbn in Hn |- *; try done; rewrite IH by (cbn; lia); cbn; try done.
  by rewrite <- Permutation_middle, perm_swap.
Qed.

(** ** The resolver *)
Section Targets.
Context `{Cm2Env}.
Notation M := (M ares).

(** The addresses left in a list, none if its family is down. *)
Definition avail (k : cm2_main_link_t) (l : cm2_addr_list) (v6 : bool) : list (list Z) :=
  let i := if v6 then ipv6 k else ipv4 k in
  if negb (is_ip i) || ip_blocked i then [] else
  match h_addr_list l with
  | None => []
  | Some a => if bool_decide (h_addrtype l = (if v6 then AF_INET6 else AF_INET)) then drop (Z.to_nat (h_cur_idx l)) a else []
  end.
Definition avail_of (v6 : bool) (w : world ares) : list (list Z) := avail (link (w_g w)) (get_list v6 (current w)) v6.

Lemma validate_avail k l v6 : list_ok l ->
  cm2_validate_target_addr k l v6 = Ok (bool_decide (avail k l v6 <> [])).
Proof.
  unfold list_ok, cm2_validate_target_addr, avail. intros Hl. destruct (_ || _); [done|].
  destruct (h_addr_list l) as [a|]; [|done]. destruct Hl as (_ & Hi & _). rewrite entry_in by done. cbn [mbind res_bind].
  destruct (a !! Z.to_nat (h_cur_idx l)) as [b|] eqn:E.
  - rewrite (drop_S _ _ _ E). destruct (bool_decide (h_addrtype l = _)); [by rewrite bool_decide_true|by rewrite bool_decide_false by auto].
  - apply lookup_ge_None in E. rewrite drop_ge by done. destruct (bool_decide (h_addrtype l = _)); by rewrite bool_decide_false by auto.
Qed.
(** The head of what is left is the entry the index points to. *)
Lemma avail_head k l v6 x t : list_ok l -> avail k l v6 = x :: t ->
  exists a, h_addr_list l = Some a /\ entry a (h_cur_idx l) = Ok (Some x) /\
    avail k (upd h_cur_idx (fun i => i32 (i + 1)) l) v6 = t.
Proof.
  unfold avail, list_ok. cbn [h_addr_list h_addrtype h_cur_idx upd]. destruct (_ || _); [done|].
  destruct (h_addr_list l) as [a|]; [|done]. intros (_ & Hi & Hlen). case_bool_decide; [|done]. intros Hd.
  assert (a !! Z.to_nat (h_cur_idx l) = Some x) as Hx.
  { pose proof (lookup_drop a (Z.to_nat (h_cur_idx l)) 0) as Hl. rewrite Hd, Nat.add_0_r in Hl. by symmetry. }
  pose proof (lookup_lt_Some _ _ _ Hx) as Hlt. exists a. split; [done|]. split; [by rewrite entry_in, Hx by lia|].
  rewrite i32_succ, Z2Nat.inj_add, Nat.add_comm by lia. cbn [Z.to_nat Pos.to_nat Nat.add]. change (Pos.iter_op _ _ _) with 1%nat.
  apply (f_equal (drop 1)) in Hd. rewrite drop_drop, Nat.add_comm in Hd. exact Hd.
Qed.

(** What is written for an address. *)
Definition target_of (w : world ares) (x : bool * list Z) : option string :=
  let a := cm2_curr_addr (w_g w) in
  (fun s => strscpy (target_bracketed (proto a) s (port a)) 129) <$> env_ntop (if x.1 then AF_INET6 else AF_INET) x.2.
Definition written (l : list action) : list string := omap (fun a => match a with AManagerTarget t => Some t | _ => None end) l.

(** Trying all addresses: the current one, then the next as long as there is one. *)
Fixpoint try_more (n : nat) : M () :=
  match n with
  | O => mret ()
  | S n => ok ← ares_write_next_target_addr; if (ok : bool) then try_more n else mret ()
  end.
Definition try_all (n : nat) : M () := ok ← ares_write_current_target_addr; if (ok : bool) then try_more n else mret ().

(** The code stops at the first write that the database refuses; the write of the [t]th
    call that leaves the program succeeds when [env_bool t] says so. *)
Fixpoint upto_failure {A} (t : nat) (l : list A) : list A :=
  match l with
  | [] => []
  | x :: l => x :: if env_bool t then upto_failure (S t) l else []
  end.
Lemma upto_failure_all {A} (l : list A) : (forall k, env_bool k = true) -> forall t, upto_failure t l = l.
Proof. intros Hw. induction l as [|x l IH]; intros t; [done|]. cbn. by rewrite Hw, IH. Qed.

(** The addresses left have the sizes of their families. *)
Definition size_of (v6 : bool) : nat := if v6 then 16 else 4.
Definition sized (w : world ares) : Prop := forall v6, Forall (fun b => length b = size_of v6) (avail_of v6 w).
(** [inet_ntop] gives the text of an address of 4 or of 16 bytes. *)
Context (Hntop : forall v6 b, length b = size_of v6 -> is_Some (env_ntop (if v6 then AF_INET6 else AF_INET) b)).

(** The next address that [alternate] picks, if any. *)
Definition pick (want6 : bool) (l6 l4 : list (list Z)) : option (bool * list Z) := head (alternate 1 want6 l6 l4).

(** [w'] differs from [w] in the family wanted and a written target. *)
Definition wrote (w w' : world ares) (x : bool * list Z) : Prop :=
  all_ok (fun _ => ares_inv) (w_g w') /\ ipv6_pref (current w') = x.1 /\ link (w_g w') = link (w_g w) /\
  (forall v6, get_list v6 (current w') = get_list v6 (current w)) /\
  (forall y, target_of w' y = target_of w y) /\
  w_tick w' = S (w_tick w) /\
  exists t, target_of w x = Some t /\ w_log w' = AManagerTarget t :: w_log w.

Lemma write_picked w v x t : all_ok (fun _ => ares_inv) (w_g w) -> length x = size_of v -> ipv6_pref (current w) = v -> avail_of v w = x :: t ->
  exists w', cm2_write_target_addr w = Ok (env_bool (w_tick w), w') /\ wrote w w' (v, x).
Proof using Hntop.
  intros Hw Hsz Hp Hx. unfold avail_of in Hx.
  assert (list_ok (get_list v (current w))) as Hl by (destruct v; apply (Hw (dest (w_g w)))).
  destruct (avail_head _ _ _ _ _ Hl Hx) as (a & Ea & Ee & _).
  unfold cm2_write_target_addr, mbind, M_bind, gets, lift. cbn [res_bind mbind]. fold (current w). rewrite Hp.
  change (a_res (cm2_curr_addr (w_g w))) with (current w). rewrite Ea. cbn [deref res_bind mbind]. rewrite Ee. cbn [deref res_bind mbind].
  destruct (Hntop v x Hsz) as [s Es]. rewrite Es. unfold cm2_ovsdb_set_Manager_target, modify, call.
  cbn [res_bind mbind]. eexists. split; [reflexivity|].
  split; [exact Hw|]. split; [exact Hp|]. split; [done|]. split; [done|]. split; [done|]. split; [done|].
  exists (strscpy (target_bracketed (proto (cm2_curr_addr (w_g w))) s (port (cm2_curr_addr (w_g w)))) 129). split; [|done].
  unfold target_of. cbn [fst snd]. by rewrite Es.
Qed.

Lemma write_current w : all_ok (fun _ => ares_inv) (w_g w) -> sized w ->
  match pick (ipv6_pref (current w)) (avail_of true w) (avail_of false w) with
  | None => ares_write_current_target_addr w = Ok (false, w)
  | Some x => exists w', ares_write_current_target_addr w = Ok (env_bool (w_tick w), w') /\ wrote w w' x
  end.
Proof using Hntop.
  intros Hw Hsz. unfold ares_write_current_target_addr, cm2_pick_next_addr, mbind, M_bind, gets, lift. cbn [res_bind mbind].
  change (a_res (cm2_curr_addr (w_g w))) with (current w).
  destruct (Hw (dest (w_g w)) : ares_inv (current w)) as [H6 H4]. rewrite (validate_avail _ _ false H4). cbn [res_bind mbind].
  rewrite (validate_avail _ _ true H6). cbn [res_bind mbind].
  change (avail (link (w_g w)) (ipv4_addr_list (current w)) false) with (avail_of false w).
  change (avail (link (w_g w)) (ipv6_addr_list (current w)) true) with (avail_of true w).
  (* the family that is kept or taken instead *)
  assert (forall v x t w1, current w1 = set ipv6_pref v (current w) -> link (w_g w1) = link (w_g w) -> w_log w1 = w_log w -> w_tick w1 = w_tick w ->
    all_ok (fun _ => ares_inv) (w_g w1) -> (forall y, target_of w1 y = target_of w y) -> avail_of v w = x :: t ->
    exists w', cm2_write_target_addr w1 = Ok (env_bool (w_tick w), w') /\ wrote w w' (v, x)) as Hgo.
  { intros v x t w1 Hc Hk Hlog Htk Hw1 Ht Hx. destruct (write_picked w1 v x t Hw1) as (w' & E & (Hi & Hp & Hk' & Hl & Ht' & Htk' & s & Hs & Hlog')).
    - specialize (Hsz v). rewrite Hx in Hsz. by apply Forall_cons in Hsz as [? _].
    - by rewrite Hc.
    - unfold avail_of in *. rewrite Hk, Hc. by destruct v.
    - rewrite Htk in E. exists w'. split; [done|]. split; [done|]. split; [done|]. split; [congruence|]. split; [|split; [|split; [congruence|]]].
      + intros v6. rewrite Hl, Hc. by destruct v6.
      + intros y. by rewrite Ht', Ht.
      + exists s. by rewrite <- Ht, Hlog', Hlog. }
  assert (forall v x t, ipv6_pref (current w) = v -> avail_of v w = x :: t ->
    exists w', cm2_write_target_addr w = Ok (env_bool (w_tick w), w') /\ wrote w w' (v, x)) as Hkeep.
  { intros v x t Hp Hx. apply (Hgo v x t w); try done. rewrite <- Hp. by destruct (current w). }
  assert (forall v x t, avail_of v w = x :: t ->
    exists w', cm2_write_target_addr (upd w_g (upd_addr (dest (w_g w)) (upd a_res (set ipv6_pref v))) w) = Ok (env_bool (w_tick w), w') /\
      wrote w w' (v, x)) as Hswitch.
  { intros v x t Hx. eapply Hgo; [| | | | | |exact Hx].
    - unfold current. cbn [w_g upd]. by rewrite curr_upd.
    - by destruct (dest (w_g w)).
    - done.
    - done.
    - intros d. specialize (Hw d). destruct (dest (w_g w)), d; exact Hw.
    - intros y. unfold target_of. cbn [w_g upd]. by rewrite curr_upd. }
  destruct (ipv6_pref (current w)) eqn:Ep, (avail_of true w) as [|x6 t6] eqn:E6, (avail_of false w) as [|x4 t4] eqn:E4; try reflexivity;
    cbn [pick alternate head bool_decide]; unfold mret, M_ret, modify; cbn; by eauto.
Qed.

(** What is tried after an address of family [v], with [u] left of the other one. *)
Definition rest (v : bool) (u t : list (list Z)) (n : nat) : list (bool * list Z) :=
  if v then alternate n false t u else alternate n true u t.

(** Moving on from an address that was written. *)
Lemma move_on w v x t : all_ok (fun _ => ares_inv) (w_g w) -> ipv6_pref (current w) = v -> avail_of v w = x :: t ->
  exists w', ares_move_next_target_addr w = Ok ((), w') /\ all_ok (fun _ => ares_inv) (w_g w') /\ ipv6_pref (current w') = negb v /\
    avail_of v w' = t /\ avail_of (negb v) w' = avail_of (negb v) w /\ (forall y, target_of w' y = target_of w y) /\ w_log w' = w_log w /\ w_tick w' = w_tick w.
Proof.
  intros Hw Hp Hx.
  assert (list_ok (get_list v (current w))) as Hl by (destruct v; apply (Hw (dest (w_g w)))).
  destruct (avail_head _ _ _ _ _ Hl Hx) as (a & Ea & Ee & Ht).
  assert (ares_offered (current w)) as Ho.
  { unfold ares_offered, list_left. rewrite Hp, Ea. unfold list_ok in Hl. rewrite Ea in Hl.
    rewrite entry_in in Ee by tauto. injection Ee as Ee. apply lookup_lt_Some in Ee. lia. }
  pose proof (wp_ares_move w Hw Ho) as Hm. unfold ares_move_next_target_addr, mbind, M_bind, gets, modify in *. cbn [res_bind mbind] in *.
  eexists. split; [reflexivity|]. destruct Hm as [_ Hm]. split; [exact Hm|].
  assert (forall g : cm2_state_t ares, link (upd_addr (dest g) (upd a_res (fun r =>
    upd ipv6_pref negb (upd_list (ipv6_pref r) (upd h_cur_idx (fun i => i32 (i + 1))) r))) g) = link g) as Hk by (intros g; by destruct (dest g)).
  unfold avail_of, target_of, current in *. cbn [w_g upd w_log]. rewrite curr_upd, Hk. cbn [a_res upd proto port]. rewrite Hp.
  split; [destruct v; cbn; by rewrite Hp|]. split; [destruct v; exact Ht|]. split; [by destruct v|]. by split.
Qed.

(** One address [x] of family [v] is written; the rest is tried if the write succeeded. *)
Lemma try_one n w v x t : sized w -> avail_of v w = x :: t ->
  (exists w', ares_write_current_target_addr w = Ok (env_bool (w_tick w), w') /\ wrote w w' (v, x)) ->
  (forall w2, all_ok (fun _ => ares_inv) (w_g w2) -> sized w2 -> ipv6_pref (current w2) = negb v ->
    avail_of v w2 = t -> avail_of (negb v) w2 = avail_of (negb v) w -> w_tick w2 = S (w_tick w) ->
    exists w' l, try_all n w2 = Ok ((), w') /\ rest v (avail_of (negb v) w) t n = l /\
      Some <$> written (w_log w') = rev (target_of w2 <$> upto_failure (S (w_tick w)) l) ++ (Some <$> written (w_log w2))) ->
  exists w', try_all (S n) w = Ok ((), w') /\
    Some <$> written (w_log w') = rev (target_of w <$> upto_failure (w_tick w) ((v, x) :: rest v (avail_of (negb v) w) t n)) ++ (Some <$> written (w_log w)).
Proof using Hntop.
  intros Hsz Hx (w1 & E1 & (Hi1 & Hp1 & Hk1 & Hl1 & Ht1 & Htk1 & s & Hs & Hlog1)) Hrec.
  unfold try_all, mbind, M_bind, res_bind. rewrite E1. cbn [upto_failure]. destruct (env_bool (w_tick w)).
  - assert (avail_of v w1 = x :: t) as Hx1 by (unfold avail_of; rewrite Hk1, Hl1; exact Hx).
    destruct (move_on w1 v x t Hi1 Hp1 Hx1) as (w2 & E2 & Hi2 & Hp2 & Ha2 & Hb2 & Ht2 & Hlog2 & Htk2).
    assert (avail_of (negb v) w2 = avail_of (negb v) w) as Hb2' by (rewrite Hb2; unfold avail_of; by rewrite Hk1, Hl1).
    destruct (Hrec w2 Hi2) as (w' & l & E' & <- & Hw'); try done; [|congruence|].
    { intros v'. pose proof (Hsz v') as Hv'. destruct (decide (v' = v)) as [->|Hne].
      - rewrite Ha2. rewrite Hx in Hv'. by apply Forall_cons in Hv' as [_ ?].
      - replace v' with (negb v) in * by (by destruct v, v'). by rewrite Hb2'. }
    exists w'. split.
    + cbn [try_more]. unfold ares_write_next_target_addr, mbind, M_bind, res_bind. rewrite E2. exact E'.
    + rewrite Hw', Hlog2, Hlog1. cbn [written omap list_omap fmap list_fmap rev].
      rewrite Hs, <- app_assoc. f_equal. f_equal. apply list_fmap_ext. intros i y _. by rewrite Ht2, Ht1.
  - exists w1. split; [done|]. rewrite Hlog1. cbn [written omap list_omap fmap list_fmap rev app]. by rewrite Hs.
Qed.

Lemma try_all_spec n w : all_ok (fun _ => ares_inv) (w_g w) -> sized w ->
  (length (avail_of true w) + length (avail_of false w) <= n)%nat ->
  exists w', try_all n w = Ok ((), w') /\
    Some <$> written (w_log w') =
      rev (target_of w <$> upto_failure (w_tick w) (alternate n (ipv6_pref (current w)) (avail_of true w) (avail_of false w))) ++
      (Some <$> written (w_log w)).
Proof using Hntop.
  revert w. induction n as [|n IH]; intros w Hw Hsz Hn; pose proof (write_current w Hw Hsz) as Hc.
  { unfold try_all, mbind, M_bind.
    destruct (avail_of true w) as [|? ?]; [|cbn in Hn; lia]. destruct (avail_of false w) as [|? ?]; [|cbn in Hn; lia].
    destruct (ipv6_pref (current w)); cbn in Hc; rewrite Hc; by exists w. }
  assert (forall v x t, avail_of v w = x :: t ->
    (exists w', ares_write_current_target_addr w = Ok (env_bool (w_tick w), w') /\ wrote w w' (v, x)) ->
    exists w', try_all (S n) w = Ok ((), w') /\
    Some <$> written (w_log w') = rev (target_of w <$> upto_failure (w_tick w) ((v, x) :: rest v (avail_of (negb v) w) t n)) ++ (Some <$> written (w_log w))) as Hgo.
  { intros v x t Hx Hc'. apply (try_one n w v x t Hsz Hx Hc'). intros w2 Hi2 Hs2 Hp2 Ha2 Hb2 Htk.
    destruct (IH w2 Hi2 Hs2) as (w' & E' & Hw').
    { destruct v; cbn [negb] in *; rewrite Ha2, Hb2; rewrite Hx in Hn; cbn in Hn; lia. }
    exists w', (rest v (avail_of (negb v) w) t n). split; [done|]. split; [done|]. rewrite Hw', Htk, Hp2.
    destruct v; cbn [negb] in *; by rewrite Ha2, Hb2. }
  destruct (ipv6_pref (current w)), (avail_of true w) as [|x6 t6] eqn:E6, (avail_of false w) as [|x4 t4] eqn:E4;
    cbn [pick alternate head] in Hc |- *; try (unfold try_all, mbind, M_bind; rewrite Hc; by exists w).
  all: match type of Hc with context [wrote _ _ (?v, ?x)] =>
      destruct (Hgo v x _ ltac:(eassumption) Hc) as (w' & E' & Hw') end; exists w'; split; [done|];
    cbn [negb rest] in Hw'; rewrite ?E6, ?E4 in Hw'; exact Hw'.
Qed.
End Targets.

(** C7: From the addresses that a resolution left, all of the size of their family, with an
    [inet_ntop] that gives the text of any address of 4 or 16 bytes: writing the current target and
    then the next one until there is none, or a write fails, ends without a fault.  The targets
    written to the Manager row are, in order, those of [alternate]: each address whose family has
    an IP that is not blocked exactly once, the two families in turn while both have one left,
    starting with the preferred one.  The code gives up at the first write that the database refuses, and
    writes them all when every write succeeds. *)
Theorem targets_exact `{Cm2Env} n (w : world ares) :
  (forall v6 b, length b = size_of v6 -> is_Some (env_ntop (if v6 then AF_INET6 else AF_INET) b)) ->
  (forall d, ares_inv (a_res (cm2_get_addr d (w_g w)))) -> sized w ->
  (length (avail_of true w) + length (avail_of false w) <= n)%nat ->
  exists w' tried, try_all n w = Ok ((), w') /\
    Some <$> written (w_log w') = rev (target_of w <$> upto_failure (w_tick w) tried) ++ (Some <$> written (w_log w)) /\
    tried = alternate n (ipv6_pref (current w)) (avail_of true w) (avail_of false w) /\
    tried ≡ₚ ((true,.) <$> avail_of true w) ++ ((false,.) <$> avail_of false w) /\
    ((forall k, env_bool k = true) -> upto_failure (w_tick w) tried = tried).
Proof.
  intros Hntop Hw Hsz Hn. destruct (try_all_spec Hntop n w Hw Hsz Hn) as (w' & E & Hlog).
  eexists w', _. split; [exact E|]. split; [exact Hlog|]. split; [done|]. split; [by apply alternate_perm|].
  intros Hall. by apply upto_failure_all.
Qed.

(** ** A resolution with two IPv6 addresses and one IPv4 address *)

(** [inet_ntop], as far as the example needs it: three texts, and NULL for what is not an
    address of the family. *)
Definition v6_1 : list Z := [0x20; 0x01; 0x0d; 0xb8; 0; 0; 0; 0; 0; 0; 0; 0; 0; 0; 0; 1].
Definition v6_2 : list Z := [0x20; 0x01; 0x0d; 0xb8; 0; 0; 0; 0; 0; 0; 0; 0; 0; 0; 0; 2].
Definition targets_ntop (f : family) (b : list Z) : option string :=
  match f with
  | AF_INET6 => if bool_decide (length b = 16%nat) then Some (if bool_decide (b = v6_1) then "2001:db8::1" else "2001:db8::2") else None
  | AF_INET => if bool_decide (length b = 4%nat) then Some "192.0.2.1" else None
  | _ => None
  end%string.
(** The database refuses the [k]th call. *)
Definition targets_env (k : nat) : Cm2Env := {|
  env_time _ := 0; env_bool n := negb (n =? k)%nat; env_int _ := 0; env_row _ := None; env_rows _ := []; env_inet _ := None;
  env_check _ := (false, mk_check false false false false false false false); env_addrs _ := None; env_ares _ := None;
  env_ntop := targets_ntop |}.
Definition targets_world : world ares :=
  let up := mk_ip CM2_IPV4_DHCP true false false in
  let a := mk_addr false true false "ssl:ctrl:443" "ssl" "ctrl" 443
    (mk_ares (mk_list (Some [v6_1; v6_2]) 2 AF_INET6 0 CM2_ARES_R_RESOLVED AF_INET6)
             (mk_list (Some [[192; 0; 2; 1]]) 1 AF_INET 0 CM2_ARES_R_RESOLVED AF_INET) true) in
  mk_world (mk_state CM2_STATE_TRY_CONNECT CM2_REASON_TIMER CM2_DEST_REDIR true false false false 0 0 0 a a false
    (mk_link "eth0" "eth" "" true true false false 0 up up (mk_vtag CM2_VTAG_NOT_USED 0 0 0)) zero_link false true true true 30 60
    false false false false false (mk_cnts 0 0 0) CM2_DEVICE_NONE CM2_RESTORE_REFRESH_DHCP "" false 0) 60 [] O [].
(** All three are written when no write fails, and the first two when the second does. *)
Lemma targets_exact_witness :
  (exists w', @try_all (targets_env 9) 3 targets_world = Ok ((), w') /\
    Some <$> rev (written (w_log w')) = [Some "ssl:[2001:db8::1]:443"; Some "ssl:[192.0.2.1]:443"; Some "ssl:[2001:db8::2]:443"]%string) /\
  (exists w', @try_all (targets_env 1) 3 targets_world = Ok ((), w') /\
    Some <$> rev (written (w_log w')) = [Some "ssl:[2001:db8::1]:443"; Some "ssl:[192.0.2.1]:443"]%string).
Proof.
  assert (forall k, exists w' tried, @try_all (targets_env k) 3 targets_world = Ok ((), w') /\
    Some <$> written (w_log w') = rev (@target_of (targets_env k) targets_world <$> @upto_failure (targets_env k) _ 0 tried) ++ [] /\
    tried = alternate 3 true [v6_1; v6_2] [[192; 0; 2; 1]]) as Hk.
  { intros k. destruct (@targets_exact (targets_env k) 3 targets_world) as (w' & tried & E & Hl & Ht & _).
    - intros [] b Hb; cbn in *; rewrite bool_decide_true by done; eauto.
    - intros []; repeat split; cbn; congruence || lia.
    - intros []; repeat constructor.
    - vm_compute. lia.
    - exists w', tried. done. }
  assert (forall l : list string, Some <$> rev l = rev (Some <$> l)) as Hrev by (intros l; apply (map_rev Some)).
  split.
  - destruct (Hk 9%nat) as (w' & tried & E & Hl & ->). exists w'. split; [exact E|]. rewrite Hrev, Hl. vm_compute. reflexivity.
  - destruct (Hk 1%nat) as (w' & tried & E & Hl & ->). exists w'. split; [exact E|]. rewrite Hrev, Hl. vm_compute. reflexivity.
Defined.
