(* ===== verification/Cm2Run.v ===== *)
(** * Cm2Run: runs of the connection manager

    Theorems about whole runs of the state machine with the c-ares resolver (the default
    build): no fault, only changes of state that [cm2_edge] allows; and lemmas for what the
    code gets wrong outside their hypotheses. *)
From Stdlib Require Import Ascii.
From S2P Require Import Prelude CString Cm2State Cm2Resolve Cm2Link Cm2Event Cm2Inv Cm2ResolveSpec Cm2Term Cm2Rest Cm2Tidy.
Open Scope Z_scope.
Import Ares AresSpec AresTerm.

(** ** The start *)

(** [g_state] is zero; [cm2_ovsdb_init_tables] sets the bounds of the backoff. *)
Definition zero_list : cm2_addr_list := mk_list None 0 AF_OTHER 0 CM2_ARES_R_NOT_STARTED AF_OTHER.
Definition zero_addr {R} (r : R) : cm2_addr_t R := mk_addr false false false "" "" "" 0 r.
Definition zero_state {R} (r : R) (lo hi : Z) : cm2_state_t R :=
  mk_state CM2_STATE_INIT CM2_REASON_TIMER CM2_DEST_REDIR false false false false 0 0 0 (zero_addr r) (zero_addr r) false
    zero_link zero_link false false false false lo hi false false false false false (mk_cnts 0 0 0) CM2_DEVICE_NONE
    CM2_RESTORE_REFRESH_DHCP "" false 0.
Definition zero_ares : ares := mk_ares zero_list zero_list false.
(** The timeout of [CM2_STATE_QUIESCE_OVS] starts as [CM2_DEFAULT_TIMEOUT]. *)
Definition start_world {R} (r : R) (lo hi : Z) : world R := mk_world (zero_state r lo hi) 60 [] O [].

(** ** Events of the c-ares build *)
Inductive ares_event :=
| Timer
| Awlan (u : awlan_update)
| Manager (u : option (bool * option string))
| Child (k : nat) (st : option Z)
| Stability
| Links
| Answer (d : cm2_dest_e) (v6 : bool) (st : ares_status) (h : hostent)
| Tables (f : cm2_state_t ares -> cm2_state_t ares) (r : cm2_reason_e).
Definition ares_event_ok (e : ares_event) : Prop :=
  match e with
  | Awlan u => awlan_ok u
  | Answer _ _ st h => st = ARES_SUCCESS -> addrs_ok h
  | Tables f _ => forall g, key (f g) = key g
  | _ => True
  end.

Section Run.
Context `{Cm2Env} `{Cm2Cfg}.

Definition to_event (e : ares_event) : event :=
  match e with
  | Timer => EvTimer
  | Awlan u => EvAwlan u
  | Manager u => EvManager u
  | Child k st => EvChild k st
  | Stability => EvStability
  | Links => EvLinks
  | Answer d v6 st h => EvResolver (cm2_ares_host_cb d v6 st h)
  | Tables f r => EvTables f r
  end.
Definition cm2_run (n : nat) (es : list ares_event) : M ares () := run_events n (to_event <$> es).

Section Safe.
Context (HA : AresAnswers) (Hthr : CLOUD_FATAL_THRESHOLD = 0).

(** An answer that comes while an address is being tried leaves an address to try. *)
Lemma pres_answer d v6 st h : (st = ARES_SUCCESS -> addrs_ok h) -> pres (cm2_ares_host_cb d v6 st h).
Proof.
  intros Hh w Hw. destruct (decide (list_left _) : Decision (ares_offered (current w))) as [Ho|Ho].
  - eapply none_any, wp_mono; [eapply (own_cb_gen _ d v6 st h (answers_keep_offered (dest (w_g w))) Hh)|].
    + intros d'. split; [apply Hw|]. by intros ->.
    + intros [a w'] [F Ha]. apply (inv_frame w); [done..|intros d'; apply Ha|]. intros _. unfold cm2_curr_addr. apply Ha.
      destruct F as (Hc & _). exact (f_equal dest Hc).
  - eapply none_any, wp_mono; [apply own_cb; [done|intros d'; apply Hw]|]. intros [a w'] [F Ha].
    apply (inv_frame w); [done..|]. intros Ht. destruct Ho. by apply Hw.
Qed.

Lemma start_inv lo hi : u32 (hi - lo) <> 0 -> inv (start_world zero_ares lo hi).
Proof. intros Hb. split; [|done]. split; [by intros []| |done]. by intros [[? _]|?]. Qed.

Lemma run_inv n es lo hi : u32 (hi - lo) <> 0 -> Forall ares_event_ok es ->
  wp (eq FFuel) (cm2_run n es (start_world zero_ares lo hi)) (fun aw => inv aw.2).
Proof using HA Hthr.
  intros Hb Hes. apply run_events_safe; [done|by apply start_inv|]. apply Forall_fmap. eapply Forall_impl; [exact Hes|].
  intros [] He; cbn in *; try done. by apply pres_answer.
Qed.
End Safe.

(** C4: With the c-ares resolver, no sequence of timer ticks, changes of the AWLAN and Manager rows,
    other table changes (which leave alone the addresses, the backoff and what the machine
    keeps), child and stability results and resolver answers makes the connection manager read outside
    the resolved addresses, dereference NULL, divide by zero or fail an assertion, when
    [CONFIG_CM2_CLOUD_FATAL_THRESHOLD] is off (the default), the cloud's addresses are not just colons,
    the bounds of the backoff it sets differ, and a successful query has an address; all that can
    end a run early is the bound of the model.  One use of NULL is left to the C library: for three
    of its nine reasons [cm2_log_state] hands NULL to [%s], which the model prints as [(null)], as the
    GNU C library documents (theorem [log_null_reason]). *)
Theorem cm2_run_safe n es lo hi :
  CLOUD_FATAL_THRESHOLD = 0 ->
  (forall n h, env_ares n = Some (ARES_SUCCESS, h) -> addrs_ok h) ->
  u32 (hi - lo) <> 0 -> Forall ares_event_ok es ->
  match cm2_run n es (start_world zero_ares lo hi) with Ok _ => True | Err f => f = FFuel end.
Proof.
  intros Hthr Ha Hb Hes. pose proof (run_inv Ha Hthr n es lo hi Hb Hes) as Hr.
  destruct (cm2_run _ _ _); [done|]. by symmetry.
Qed.

(** C5: In every run of C4 that ends, each change of state the machine makes is one of
    [cm2_edge], from the state before the change with the connection flag and the target of
    the Manager row as they are at the change.  [CONNECTED] is entered only when the
    Manager row says connected; [TRY_CONNECT] and [FAST_RECONNECT_WAIT] only from [RE_CONNECT]
    and [FAST_RECONNECT], with the target empty and the connection down; [RE_CONNECT] only
    from [TRY_RESOLVE], [FAST_RECONNECT] and [FAST_RECONNECT_WAIT]; [QUIESCE_OVS] only in
    builds with link selection; [INTERNET] never.  The source of the seven other states is not
    constrained, and nothing is said about the addresses written to the Manager row. *)
Theorem cm2_run_edges n es lo hi w :
  CLOUD_FATAL_THRESHOLD = 0 ->
  (forall n h, env_ares n = Some (ARES_SUCCESS, h) -> addrs_ok h) ->
  u32 (hi - lo) <> 0 -> Forall ares_event_ok es ->
  cm2_run n es (start_world zero_ares lo hi) = Ok ((), w) ->
  forall ok old new c t, AState ok old new c t ∈ w_log w -> cm2_edge old new c t.
Proof.
  intros Hthr Ha Hb Hes E ok old new c t Hin. pose proof (run_inv Ha Hthr n es lo hi Hb Hes) as Hr.
  rewrite E in Hr. destruct Hr as [_ Hlog]. rewrite Forall_forall in Hlog. exact (Hlog _ Hin).
Qed.
End Run.

Lemma to_event_tidy `{Cm2Env} es : Forall ares_event_ok es -> Forall tidy_event (to_event <$> es).
Proof. intros Hes. apply Forall_fmap. eapply Forall_impl; [exact Hes|]. intros [] He; cbn in *; try done. apply tidy_cb. Qed.
(** The invariant does not depend on the environment. *)
Lemma inv_env (E1 E2 : Cm2Env) (C : Cm2Cfg) (HA1 : @AresAnswers E1) (HA2 : @AresAnswers E2) w :
  @inv ares E1 C (@ares_resolver E1) (@ares_spec E1 HA1) w -> @inv ares E2 C (@ares_resolver E2) (@ares_spec E2 HA2) w.
Proof. intros [[Hr Hl Hb] Hlog]. by split. Qed.

(** C6: From every state such a run reaches, a call of [cm2_update_state] returns: the machine
    comes to rest within 513 rounds, if the clock gains less than ten seconds meanwhile (the
    shortest timeout), no VLAN tag is on trial or being set, and the device does not change the MAC
    address of its LAN bridge (which calls the machine from within). *)
Theorem cm2_update_returns (E1 E2 : Cm2Env) (C : Cm2Cfg) m es lo hi w n r T :
  CLOUD_FATAL_THRESHOLD = 0 -> u32 (hi - lo) <> 0 -> Forall ares_event_ok es ->
  (forall k h, @env_ares E1 k = Some (ARES_SUCCESS, h) -> addrs_ok h) ->
  (forall k h, @env_ares E2 k = Some (ARES_SUCCESS, h) -> addrs_ok h) ->
  @cm2_run E1 C m es (start_world zero_ares lo hi) = Ok ((), w) ->
  (forall k, T <= @env_time E2 k < T + 10) -> lan_set_local_mac = false -> r <> CM2_REASON_SET_NEW_VTAG ->
  vt_state (vtag (link (w_g w))) <> CM2_VTAG_PENDING ->
  (513 <= n)%nat ->
  exists w', @cm2_update_state ares E2 C ares_resolver n r w = Ok ((), w').
Proof.
  intros Hthr Hb Hes HA1 HA2 Hrun Hclock Hmac Hr Hv Hn.
  pose proof (@run_inv E1 C HA1 Hthr m es lo hi Hb Hes) as Hi. rewrite Hrun in Hi. cbn [wp snd] in Hi.
  assert (new_valid (w_g w)) as Hu.
  { pose proof (@tidy_run E1 C m (to_event <$> es) (start_world zero_ares lo hi) (@to_event_tidy E1 es Hes) ltac:(by intros [])) as Ht.
    change (@cm2_run E1 C m es) with (@run_events ares E1 C ares_resolver m (to_event <$> es)) in Hrun. by rewrite Hrun in Ht. }
  pose proof (@update_rest ares E2 C _ _ T Hclock Hmac n r w (conj Hv Hu) Hr Hn) as Ht.
  pose proof (@pres_update_loop ares E2 C _ (@ares_spec E2 HA2) n r (false, false) Hthr w) as Hs.
  specialize (Hs (inv_env E1 E2 C HA1 HA2 w Hi)). unfold cm2_update_state in *. destruct (update_loop n r (false, false) w) as [[[] w']|f]; [by exists w'|]. by destruct Ht.
Qed.

(** ** A run *)

(** A device whose calls succeed, with an Ethernet uplink that has an IPv4 address. *)
Definition run_env : Cm2Env := {|
  env_time _ := 100; env_bool _ := true; env_int _ := 0;
  env_row _ := Some (mk_cmu "eth0" "eth" 1 None true true true (Some "active") None None 0 0 0 0)%string;
  env_rows _ := []; env_inet _ := Some (mk_inet (Some "dhcp") (Some "10.0.0.2"))%string;
  env_check _ := (true, mk_check true true true true true true true);
  env_addrs _ := None; env_ares _ := None; env_ntop _ _ := Some "192.0.2.1"%string
|}.
Definition run_cfg (thr : Z) : Cm2Cfg := {|
  wan_link_selection := true; CLOUD_FATAL_THRESHOLD := thr; OVS_SHORT_BACKOFF := 8; BT_CONNECTABLE := false;
  THRESH_LINK := 2; THRESH_FATAL := 16; THRESH_ROUTER := 8; THRESH_INTERNET := 6; THRESH_VTAG := 10; THRESH_TCPDUMP := 4;
  USE_TCPDUMP := true; lan_set_local_mac := false; LAN_BRIDGE_NAME := "br-home"%string
|}.
(** The tables choose [eth0]. *)
Definition link_up (g : cm2_state_t ares) : cm2_state_t ares :=
  upd link (fun k => upd ipv4 (set is_ip true) (set is_used_echoed true (set is_used true
    (set if_type "eth"%string (set if_name "eth0"%string k))))) g.
(** The redirector's address resolves, it is connected, it sends the controller's address, ... *)
Definition run_events_to_cloud : list ares_event := [
  Awlan (mk_awlan false None (Some "ssl:redirector.example:443") false (Some (30, 60)));
  Manager (Some (false, Some ""));
  Tables link_up CM2_REASON_LINK_USED;
  Answer CM2_DEST_REDIR true ARES_OTHER (mk_hostent AF_OTHER []);
  Answer CM2_DEST_REDIR false ARES_SUCCESS (mk_hostent AF_INET [[192; 0; 2; 1]]);
  Timer; Manager (Some (true, None));
  Awlan (mk_awlan false (Some "ssl:ctrl.example:6640") None false None);
  Answer CM2_DEST_MANAGER true ARES_OTHER (mk_hostent AF_OTHER []);
  Answer CM2_DEST_MANAGER false ARES_SUCCESS (mk_hostent AF_INET [[192; 0; 2; 2]]);
  Timer; Manager (Some (false, Some "")); Manager (Some (true, Some "ssl:[192.0.2.1]:6640"));
  Child 0 (Some 255); Stability; Links]%string.
Lemma awlan_ok_vm m r c b :
  (match m with Some a => uri_ok a | None => True end) -> (match r with Some a => uri_ok a | None => True end) ->
  (match b with Some (lo, hi) => u32 (hi - lo) <> 0 | None => True end) -> awlan_ok (mk_awlan false m r c b).
Proof. intros Hm Hr Hb. split; [|split]; cbn; intros *; intros ->; done. Qed.
Lemma run_events_ok : Forall ares_event_ok run_events_to_cloud.
Proof.
  unfold run_events_to_cloud. repeat (apply Forall_cons; split); try apply Forall_nil; try exact I; try (apply awlan_ok_vm; try done; right; vm_compute; discriminate);
    try (intros g; reflexivity);
    intros Hst; try discriminate Hst; split; cbn; congruence || lia.
Qed.
Definition final_state {R} (m : res (() * world R)) : option (cm2_state_e * cm2_dest_e * bool) :=
  match m with Ok (_, w) => Some (state (w_g w), dest (w_g w), connected (w_g w)) | Err _ => None end.

Lemma cm2_run_safe_witness :
  match @cm2_run run_env (run_cfg 0) 30 run_events_to_cloud (start_world zero_ares 30 60) with Ok _ => True | Err f => f = FFuel end /\
  final_state (@cm2_run run_env (run_cfg 0) 30 run_events_to_cloud (start_world zero_ares 30 60)) =
    Some (CM2_STATE_CONNECTED, CM2_DEST_MANAGER, true).
Proof.
  split; [|vm_compute; reflexivity]. apply (@cm2_run_safe run_env (run_cfg 0)); [reflexivity|intros n h E; discriminate E|discriminate|].
  apply run_events_ok.
Defined.

(** The world after the run. *)
Definition run_end : world ares :=
  match @cm2_run run_env (run_cfg 0) 30 run_events_to_cloud (start_world zero_ares 30 60) with Ok (_, w) => w | Err _ => start_world zero_ares 30 60 end.
Lemma cm2_run_edges_witness :
  AState true CM2_STATE_RE_CONNECT CM2_STATE_TRY_CONNECT false "" ∈ w_log run_end /\ @cm2_edge (run_cfg 0) CM2_STATE_RE_CONNECT CM2_STATE_TRY_CONNECT false "".
Proof.
  assert (AState true CM2_STATE_RE_CONNECT CM2_STATE_TRY_CONNECT false "" ∈ w_log run_end) as Hin.
  { apply list_elem_of_lookup. exists 34%nat. vm_compute. reflexivity. }
  split; [exact Hin|].
  refine (@cm2_run_edges run_env (run_cfg 0) 30 run_events_to_cloud 30 60 run_end _ _ _ _ _ true _ _ _ _ Hin).
  - reflexivity.
  - intros n h E. discriminate E.
  - discriminate.
  - apply run_events_ok.
  - vm_compute. reflexivity.
Defined.

(** What a child found out reaches the parent through its exit status, which has 8 bits. *)
Lemma mask_roundtrip ok cs : 0 <= cm2_util_cstate2mask ok cs < 256 /\ cm2_util_mask2cstate (cm2_util_cstate2mask ok cs) = (ok, cs).
Proof. destruct cs as [[] [] [] [] [] [] []], ok; vm_compute; repeat split; congruence. Qed.

(** The connection is lost: the machine comes to rest in [FAST_RECONNECT]. *)
Lemma cm2_update_returns_witness :
  (exists w', @cm2_update_state ares run_env (run_cfg 0) ares_resolver 600 CM2_REASON_TIMER run_end = Ok ((), w')) /\
  final_state (@callback_Manager ares run_env (run_cfg 0) ares_resolver 600 (Some (false, None)) run_end) =
    Some (CM2_STATE_FAST_RECONNECT, CM2_DEST_MANAGER, false).
Proof.
  split; [|vm_compute; reflexivity].
  apply (@cm2_update_returns run_env run_env (run_cfg 0) 30 run_events_to_cloud 30 60 run_end 600 CM2_REASON_TIMER 100).
  - reflexivity.
  - discriminate.
  - apply run_events_ok.
  - intros k h E. discriminate E.
  - intros k h E. discriminate E.
  - vm_compute. reflexivity.
  - cbn. lia.
  - reflexivity.
  - discriminate.
  - vm_compute. discriminate.
  - lia.
Defined.

(** ** Outside the hypotheses *)

(** A new VLAN tag, a blocked one and the start of the switch have no name: [cm2_log_state] hands NULL
    to [%s], and the text in the log is the C library's. *)
Lemma log_null_reason `{Cm2Env} {R} r (w : world R) :
  r = CM2_REASON_SET_NEW_VTAG \/ r = CM2_REASON_BLOCK_VTAG \/ r = CM2_REASON_OVS_INIT ->
  cm2_reason_name r = None /\ exists w', cm2_log_state r w = Ok ((), w') /\ ALogState "(null)" ∈ w_log w'.
Proof.
  intros Hr. assert (cm2_reason_name r = None) as E by (by destruct Hr as [->|[->| ->]]). split; [done|].
  unfold cm2_log_state. rewrite E. eexists. split; [reflexivity|]. cbn. set_solver.
Qed.

(** With equal bounds the backoff divides by zero. *)
Lemma backoff_equal_bounds `{Cm2Env} `{Cm2Cfg} {R} (w : world R) :
  fast_backoff (w_g w) = false -> max_backoff (w_g w) = min_backoff (w_g w) -> (forall n, env_bool n = true) ->
  cm2_compute_backoff w = Err FDiv.
Proof.
  intros Hf Hb He. unfold cm2_compute_backoff, mbind, M_bind, gets, call, mret, M_ret, id. cbn [mbind res_bind]. rewrite Hf, He.
  cbn [mbind res_bind negb]. rewrite He. cbn [mbind res_bind negb]. by rewrite Hb, Z.sub_diag.
Qed.
(** An address of colons only has no first token, and [strcmp] reads it all the same. *)
Lemma parse_uri_colons : parse_uri "::" 8 64 = Err FDangling.
Proof. vm_compute. reflexivity. Qed.
(** The loop that frees a list of addresses runs off the end of an empty one. *)
Lemma free_empty_list f : cm2_util_free_addr_list (mk_list (Some []) 0 f 0 CM2_ARES_R_FINISHED f) = Err FOob.
Proof. reflexivity. Qed.

(** The same device, whose clock gains twenty seconds a call from the [k]th on. *)
Definition late_env (k : nat) (rows : list cmu_row) : Cm2Env := {|
  env_time n := if (n <? k)%nat then 100 else 100 + 20 * (Z.of_nat n - Z.of_nat k); env_bool _ := true; env_int _ := 0;
  env_row := @env_row run_env; env_rows _ := rows; env_inet := @env_inet run_env; env_check := @env_check run_env;
  env_addrs _ := None; env_ares _ := None; env_ntop _ _ := Some "192.0.2.1"%string
|}.
(** A build with a bound on the failures to reach the cloud, on a device that need not restart. *)
Definition bounded_cfg : Cm2Cfg := {|
  wan_link_selection := true; CLOUD_FATAL_THRESHOLD := 1; OVS_SHORT_BACKOFF := 8; BT_CONNECTABLE := true;
  THRESH_LINK := 2; THRESH_FATAL := 16; THRESH_ROUTER := 8; THRESH_INTERNET := 6; THRESH_VTAG := 10; THRESH_TCPDUMP := 4;
  USE_TCPDUMP := true; lan_set_local_mac := false; LAN_BRIDGE_NAME := "br-home"%string
|}.
(** Its state stays [TRY_CONNECT] when the addresses are used up, and it reads past them. *)
Lemma bounded_overrun :
  @cm2_run (late_env 80 []) bounded_cfg 40 (take 6 run_events_to_cloud ++ [Timer; Timer; Timer]) (start_world zero_ares 30 60) = Err FOob.
Proof. vm_compute. reflexivity. Qed.

(** The start takes over the uplink in use, and the next round gives it up again. *)
Lemma start_clears_used :
  match @cm2_run run_env (run_cfg 0) 10 (take 2 run_events_to_cloud) (start_world zero_ares 30 60) with
  | Ok (_, w) => state (w_g w) = CM2_STATE_LINK_SEL /\ is_used (link (w_g w)) = false /\ AUsedState "eth0" false ∈ w_log w
  | Err _ => False
  end.
Proof. vm_compute. split; [done|]. split; [done|]. repeat constructor. Qed.

(** The uplink in use is blocked because the last row is, not its own. *)
Lemma recalc_last_row :
  match @cm2_ovsdb_recalc_links ares (late_env 99 [
      mk_cmu "eth0" "eth" 2 None true true true (Some "active") None None 0 0 0 0;
      mk_cmu "eth1" "eth" 1 None true true false (Some "blocked") None (Some 500) 0 0 0 0]%string)
      (run_cfg 0) (fun _ => mret ()) false (start_world zero_ares 30 60) with
  | Ok (b, w) => b = true /\ ip_blocked (ipv4 (link (w_g w))) = true
  | Err _ => False
  end.
Proof. vm_compute. done. Qed.

(** An uplink without a bridge is traced on the interface [none]. *)
Lemma tcpdump_none :
  match @check_router ares run_env (run_cfg 0) (fun _ => mret ()) "eth0" true
      (mk_cmu "eth0" "eth" 1 None true true true (Some "active") None None 0 3 0 0)
      (Z.lor ROUTER_CHECK IPV4_CHECK) (mk_check true false false false false false false)
      (upd w_g link_up (start_world zero_ares 30 60)) with
  | Ok (_, w) => ATcpdump "none" true ∈ w_log w
  | Err _ => False
  end.
Proof. vm_compute. repeat constructor. Qed.
(** A router check that succeeds after fifteen failures still restarts the managers. *)
Lemma fatal_after_success :
  match @check_router ares run_env (run_cfg 0) (fun _ => mret ()) "eth0" true
      (mk_cmu "eth0" "eth" 1 None true true true (Some "active") None None 0 16 0 0)
      (Z.lor ROUTER_CHECK IPV4_CHECK) (mk_check true true true true true true true)
      (upd w_g link_up (start_world zero_ares 30 60)) with
  | Ok (_, w) => ARouterCounter "eth0" 0 ∈ w_log w /\ ADumpDebug ∈ w_log w
  | Err _ => False
  end.
Proof. vm_compute. split; repeat constructor. Qed.
